(* ===== verification/_CoqProject ===== *)
-Q . S2P
Prelude.v
Errors.v
Protos.v
Dedup.v
RuntimeState.v
Propagation.v
Helpers.v
Applier.v
Backend.v
HistoryCache.v
StatefulHistory.v
HistoryProtocol.v
Orchestration.v
Worker.v
Sqlite.v
SqliteCorrect.v
SqliteCommit.v
SqliteTheorems.v
SqlitePurge.v
System.v
SqliteWitness.v
TaskRegistry.v
TaskTable.v
TaskProgram.v
TaskMethods.v
TaskExecutor.v
TaskGuard.v
TaskTotal.v
TaskPreserve.v
TaskInv.v
TaskMachine.v
TaskErase.v
TaskLike.v
TaskReplay.v
TaskRecorded.v
TaskRetry.v
TaskTheorems.v
TaskSystem.v
TaskStored.v
TaskWitness.v
StoredWitness.v
LocalTasks.v
Transport.v
TransportInv.v
LocalBackend.v
Requests.v
Clients.v
ClientTheorems.v
PgTables.v
Postgres.v
PgConcurrent.v
PgDiscipline.v
PgInvariant.v
PgNumbers.v
PgFence.v
PgTheorems.v
PgOrder.v
PgBounds.v
PgOwners.v
PgWitness.v
Lifecycle.v
Polling.v
PgHub.v
PgPurge.v
Listing.v
Listener.v
Facade.v
FacadeTheorems.v
Hub.v
StreamSend.v
Tracing.v
Sidecar.v
