(* ===== verification/Prelude.v ===== *)
(** * durabletask-go in Rocq

    A model of the durable task engine of this repository and the theorems that
    make it correct.  This file is the root of the library: it documents the whole
    development and then holds the shared prelude.

    ** The program

    A workflow is a program whose progress is an event log.  A storage backend
    keeps, per instance, the log, a queue of incoming events and a lock; a worker
    leases an instance with its queued events (a work item), loads the log into a
    runtime state, adds the new events, lets an executor run the user's code, applies the
    actions it returns (which grow the log and fill an outbox of tasks, timers and
    messages), and commits log, outbox and acknowledgement in one transaction.
    Activities run the same way from a queue of tasks.  A task hub starts and stops
    the workers.  The executor runs in the process, or behind gRPC: the gRPC executor
    then hands work items to streams of connected workers and waits for their answers.
    Clients start, watch, signal and purge instances, in the process or over gRPC.
    There are two storage backends, SQLite and PostgreSQL.  The executor of the task
    package runs a workflow function from the beginning in every turn: calls that are in
    the log are matched with their records, the first await without a result ends the
    turn, and the calls that are not in the log are the actions of the turn.

    ** Files, in dependency order

    - [Prelude]: outcomes of a Go call (value, error, panic), a state-and-error
      monad, 32-bit integers, durations, the world (clock and fresh UUIDs).
    - [Errors]: the sentinel and typed errors (api/errors.go, backend/backend.go), their
      texts, and [errors.Is] on wrapped chains.
    - [Protos]: the protobuf messages (api/protos) as records and inductive types,
      with decidable equality and the getters.
    - [Dedup]: backend/runtimestate/dedup, the keys of resolution events and the
      packed-key set.
    - [RuntimeState]: backend/runtimestate/runtimestate.go.  [hist_inv] ties the
      log to the derived fields; [tail_inv] the stall marker and update time.
    - [Propagation]: backend/runtimestate/propagation.go and api/propagation.go.
      Marshalling is the class [ProtoCodec], with its round trip as the law
      [ProtoCodecOk].
    - [Helpers]: api/helpers (child instance ids with JSON and SHA-256, status
      names, summaries), api/orchestration.go (routers, final statuses) and
      backend/child_generation.go.
    - [Applier]: backend/runtimestate/applier.go, one definition per action kind,
      composed by [applyLoop] and [Actions].
    - [Backend]: work items (backend/workitem.go), the recursive purge and the
      terminate cascade (backend/backend.go), activity processing
      (backend/activity.go).  The storage the purge driver needs is the class
      [PurgeBackend] with the laws [PurgeBackendOk].
    - [Orchestration]: backend/orchestration.go, a turn as a computation over the
      work item, the world and the trace of executor calls.
    - [HistoryCache]: client/worker_history.go, the bounded cache of committed
      histories a worker keeps.
    - [StatefulHistory]: backend/executor_stateful.go, what the service remembers
      of a work-item stream, delta requests, and rendezvous affinity.
    - [HistoryProtocol]: the handler of a workflow work item in
      client/worker_grpc.go, and the two ends together as a step relation.
    - [Worker]: backend/worker.go and backend/taskhub.go, the polling loop and its
      goroutines as a step relation, the hub as a state machine.
    - [Sqlite]: backend/sqlite/sqlite.go over the tables of schema.sql, with
      transactions that commit or roll back.
    - [SqliteCorrect], [SqliteCommit], [SqliteTheorems], [SqlitePurge]: leases and
      deliveries; the invariant [db_wf] of the tables and the stages of a commit;
      the contract of the backend over all interleavings of its calls
      ([sqlite_step]); the instance of [PurgeBackendOk].
    - [System]: one turn end to end, from the lease over the turn to the commit,
      while other workers and clients use the same database.
    - [SqliteWitness]: the backend and the turn run on concrete tables.
    - [TaskRegistry]: task/registry.go, and the retry policies of task/activity.go with
      the back-off of task/orchestrator.go.
    - [TaskTable]: the tables of the workflow context (task/orchestrator.go): pending
      actions and tasks, results that came early, external events and their waiters,
      optional timers; the handlers of history events that work on them.  Tasks,
      actions and waiter lists are shared by pointer in the code, so they live in a
      heap.
    - [TaskProgram], [TaskMethods]: the context, the methods a workflow function calls
      (task/orchestrator.go, retry.go, detached.go, activity.go, timer.go,
      propagation.go), and workflow functions as trees of such calls ([Workflow]).
    - [TaskExecutor]: the handlers of start, suspend, resume and terminate events, the
      loop of a turn, and task/executor.go.
    - [TaskGuard], [TaskPreserve]: what any workflow function may change, and with it
      invariants of the table over whole turns.  [TaskTotal]: every turn ends.
      [TaskInv]: the invariant [table_wf] of the table.
    - [TaskMachine]: the turn as a flat machine that takes one event at a time, and
      that the nested code computes the same.  [TaskErase], [TaskLike], [TaskReplay]: tables
      up to execution ids, contexts up to that and up to more history, and replay on the
      machine.  [TaskRecorded]: the turn again, on the history with the records of its
      decisions.  [TaskRetry]: a program logic for
      methods, and the retry loops.  [TaskTheorems]: termination and suspension.
    - [TaskSystem]: the executor, the version stamp and the applier together.
      [TaskStored]: these with the turn driver and the SQLite backend, from the lease of a
      work item to the replay of what it stored ([StoredWitness] on concrete tables).
      [TaskWitness]: the executor on concrete histories.
    - [LocalTasks], [LocalBackend]: backend/local/task.go, the waiters that connect a call
      with the answer to it; they are shared by pointer and live in a heap.  A waiter gets
      the response of its own task ([local_delivers]).
    - [Transport], [TransportInv]: backend/executor_transport.go and the transport half of
      backend/executor.go: attempts, tokens, executing and completing calls, stream
      loops, disconnects and shutdown, whose interleavings are the relation [exec_step];
      its invariant [exec_inv].
    - [Requests]: the request messages of the service and their options
      (api/orchestration.go).
    - [Clients]: the service methods of backend/executor.go, backend/client.go and
      client/client_grpc.go, over the backend as the class [TaskHub] with the laws
      [TaskHubOk].  [ClientTheorems]: the two clients compared, what they need of a backend
      to find what they scheduled ([Schedules]), and the SQLite backend as an instance.
    - [PgTables], [Postgres]: backend/postgres/schema.sql and postgres.go.  The tables are
      a map from primary keys to rows, each SQL statement is a value of [Stmt] with its
      effect [exec], and each method is a program over statements ([Tx]), so that it can
      be run alone ([runTx]) or interleaved with others.
    - [PgConcurrent]: any number of such transactions at once under READ COMMITTED, with
      row locks, as the relation [pg_step].  [PgDiscipline]: a weakest precondition over
      transactions and the locking discipline every method keeps.  [PgInvariant],
      [PgNumbers], [PgFence]: what holds in every reachable state, of leases and turns, of
      rows and sequence numbers, and of tasks across generations.
    - [PgTheorems], [PgOrder], [PgBounds], [PgOwners]: the contract of the backend under
      concurrency, its independence of the order of rows, the size of a turn, and that rows
      belong to instances.  [PgWitness]: a scheduler, and the theorems on concrete schedules.
    - [Lifecycle]: creating, opening, stopping and deleting the task hub of both backends.
      [Polling]: the loops of both backends that wait for work or for a status.
    - [PgHub], [PgPurge]: the PostgreSQL backend, its methods run one after the other, as an
      instance of [TaskHub] and of [Schedules], and of [PurgeBackendOk].
    - [Listing]: listing instances and reading histories, from the gRPC client over the
      service to both backends, behind the class [Lists].
    - [Listener]: client/worker_grpc.go, the receive loop of a remote worker with the
      resources it owns, the handler of an activity work item, and the client options of
      client/client_grpc.go.
    - [Facade], [FacadeTheorems]: workflow/, the public package: functions over the public
      context and their wrapping, the registry, the options, the metadata and the client.
    - [Hub]: backend/taskhub.go with both workers of backend/worker.go: starts, shutdowns and
      forced shutdowns as calls that wait, over incarnations of workers ([sys_step]).
    - [StreamSend]: one stream of backend/executor.go: the handler, its sender goroutine,
      their channels, the send timeout and the callbacks ([stream_step]).
    - [Tracing]: api/helpers/tracing.go and the spans of backend/orchestration.go, over the
      OpenTelemetry library as the class [Tracer] with the laws [TracerOk].
    - [Sidecar]: main.go: configuration, server options and the authorization of calls.

    ** What the theorems show

    - The whole: a worker that leases, processes and commits leaves in the
      database exactly the log of its turn, whatever others do in between
      ([turn_end_to_end]).
    - The log: adding events keeps [hist_inv] and reports duplicates exactly;
      the batch operation equals the one-by-one operation; a reload of a log is
      the state that wrote it, and a damaged log is repaired to a well-formed one.
    - Actions: they refine an abstract outbox ([effects]), never panic on
      well-formed input, keep [hist_inv] on every path, and continue-as-new starts
      a fresh generation.
    - A turn keeps [hist_inv], terminates within 21 executor calls, completes a
      terminated workflow, and drops work for a completed one.
    - The backend: reachable tables are well-formed, leases exclude each other,
      stale holders are fenced off, a lease protects the history it was taken for,
      a committed turn is what is read back, a work item is settled once, external
      deliveries are idempotent, events are delivered in order and only to the
      execution they are for, a purge removes exactly one finished instance.
    - PostgreSQL, for every interleaving of transactions: a turn is stored on the history
      it was made for ([pg_turn_is_stored]), a lease excludes others until it expires
      ([pg_lease_exclusive]), a task is settled once ([pg_task_settled_once]) and no result
      of an earlier generation reaches the next one ([pg_continue_as_new_fences]); no row is
      left without its instance ([pg_no_orphans]); a lease
      does not depend on the order of rows; a turn that is too large never commits; an
      ambiguous child result blocks the hub and is kept.
    - Task hubs: a hub in a file outlives its backend ([sqlite_hub_roundtrip]), creating
      a hub on PostgreSQL keeps its rows, deleting it removes them ([pg_hub_lifecycle]).
    - The purge driver leaves no orphans, terminates on well-founded child
      relations, and both backends implement what it relies on ([sqlite_recursive_purge],
      [pg_recursive_purge]).
    - Stateful history: whatever is stripped, cached, evicted, fetched or lost on a
      reconnect, a worker replays the history its turn started from; a warm turn is
      a delta; the cache keeps its limits; affinity pins instances to streams.
    - Workers respect their capacity and can always drain; no work runs on a backend that
      is down ([hub_protects_backend]), and a shutdown can always be finished
      ([hub_shutdown_completes]).
    - Replay: for a workflow function that uses its context deterministically
      ([oblivious]), with patches and retries, the decisions of a turn depend on the history
      alone ([turns_are_deterministic]); once the version it reports is stamped on the
      turn's marker and the applier has recorded its decisions, the next turn makes none of
      them again and answers every patch as before ([decisions_are_made_once]); the same of
      the history a worker has committed to the database ([stored_decisions_replay]).
    - Every turn ends, on every history, also a malformed one; its actions are decisions
      or completions with ascending ids; a terminated workflow concludes; retries stay
      within their attempts and delays; a pinned version stays the one resolved.
    - The transport: a call that returns an answer returns one for its own attempt,
      accepted once, after its item was sent ([response_belongs_to_attempt]); shutdown
      lets every call return ([shutdown_drains]).
    - The remote worker: its listener bounds its retries and leaves nothing behind
      ([listener_bounded_and_clean]); an activity gives over the wire what it gives in the
      process ([activity_over_wire]); a stream sends each item once and in order
      ([stream_delivers_in_order]); a trace context survives messages and tables
      ([trace_context_roundtrip]).
    - The sidecar is closed to clients it does not know ([sidecar_authorizes_clients]).
    - The clients make the same changes to the backend ([clients_agree]); a scheduled
      workflow is read back by both, on either backend ([scheduled_workflow_is_found],
      [pg_scheduled_workflow_is_found]).
    - The public package: what it wraps is deterministic unless it asks whether it replays
      ([published_workflows_are_deterministic]); its client reads back what it scheduled
      ([public_client_roundtrip]) and lists all instances at once
      ([public_listing_is_whole]); versions registered under the name of their function
      clash ([public_versions_clash]).

    ** Modelling conventions and bounds

    A Go pointer is an [option]; a nil dereference is a panic and appears as
    [Panic] (or [None] where a function has no other failure).  An [int32] is a
    [Z] wrapped by [int32_of] where the code does arithmetic on it.  Times and
    durations are nanoseconds in [Z].  A function that mutates a shared object
    takes and returns its state.  The recursive purge has fuel for the depth of
    the child tree; [purge_terminates] shows that a depth above the rank of the
    instance is enough.  The continue-as-new loop has its own bound of 20
    restarts, so its fuel is exact.  A workflow function is an inductive tree, so it
    makes finitely many calls on every path; handlers nest at most twice per event left
    ([eventFuel], [executeWorkflow_total]); completing a task runs at most two nested
    callbacks ([completeInternal_depth]); dropping optional timers ends with the pending
    actions ([dropAllAt_done]); the retry loops run at most MaxAttempts rounds
    ([retryLoop_wp], [awaitLegacy_fuel]).  Code outside the repository is a parameter
    with laws: the protobuf codec, the workflow and activity executors, the
    iteration order of Go maps ([MapRange], [RangeOrder]), the jitter, the clock, UUIDs,
    what a tracer makes of a context, and what the gRPC stub makes of an error.  In the
    SQLite model a statement fails only on a constraint; loss of the connection
    and the textual comparison of timestamps by the driver are not modelled.  In the
    PostgreSQL model a transaction may be aborted at any time; a TIMESTAMP has
    microseconds, a SERIAL 32 bits, a statement at most 65535 parameters; rows without
    ORDER BY come in any order; a statement that needs a row another transaction has
    locked is not enabled until that one ends, and then runs on what is committed.
    Methods of the PostgreSQL backend are those of an open backend: [ensureDB] is part of
    [Lifecycle] only.

    ** Not modelled

    The connection pool of PostgreSQL and the lengths of the waits of the polling loops,
    which are those of libraries; the main function and the graceful stop of the gRPC
    server; the span of a timer; logging; generated gRPC code; aliases with deprecated
    names; the samples.  Of the standard library,
    [net.ParseIP] is an argument, and the theorem about the sidecar holds for any.  That
    recorded decisions are not made again is shown for turns that begin awake, with a start
    event, if any, right after the marker, and for functions without retries of child
    workflows: such a retry looks the id of its first child up in the records, which the
    history of the deciding turn does not have yet. *)

From stdpp Require Import base list option strings gmap sorting.
From Stdlib Require Import ZArith Lia.

#[global] Set Default Goal Selector "!".

Declare Scope dt_scope.
Delimit Scope dt_scope with dt.
Open Scope Z_scope.
Open Scope dt_scope.

(** ** Outcomes

    A Go call either returns normally, returns a non-nil [error], or panics
    (nil dereference, explicit [panic]). *)

Inductive outcome (E A : Type) :=
| Ok (a : A)
| Err (e : E)
| Panic (msg : string).
Arguments Ok {E A} a.
Arguments Err {E A} e.
Arguments Panic {E A} msg.

(** Stateful code that may fail: the state survives an error, because the Go
    code mutates it in place before it returns the error. *)
Definition M (S E A : Type) : Type := S -> S * outcome E A.

#[global] Instance M_ret {S E} : MRet (M S E) := fun A a s => (s, Ok a).

#[global] Instance M_bind {S E} : MBind (M S E) := fun A B k m s =>
  match m s with
  | (s', Ok a) => k a s'
  | (s', Err e) => (s', Err e)
  | (s', Panic p) => (s', Panic p)
  end.

Definition get {S E} : M S E S := fun s => (s, Ok s).
Definition put {S E} (s' : S) : M S E unit := fun _ => (s', Ok tt).
Definition modify {S E} (f : S -> S) : M S E unit := fun s => (f s, Ok tt).
Definition gets {S E A} (f : S -> A) : M S E A := fun s => (s, Ok (f s)).
Definition throw {S E A} (e : E) : M S E A := fun s => (s, Err e).
Definition panic {S E A} (msg : string) : M S E A := fun s => (s, Panic msg).

(** Dereferencing a pointer: a nil pointer panics. *)
Definition deref {S E A} (what : string) (p : option A) : M S E A :=
  match p with
  | Some a => mret a
  | None => panic what
  end.

(** The value of a final outcome, when there is one. *)
Definition is_Ok {E A} (o : outcome E A) : bool :=
  match o with Ok _ => true | _ => false end.

(** Split the run of a computation known to return normally. *)
Lemma bind_Ok {S E X Y} (m : M S E X) (k : X -> M S E Y) st st' y :
  mbind k m st = (st', Ok y) ->
  exists st1 x, m st = (st1, Ok x) /\ k x st1 = (st', Ok y).
Proof.
  unfold mbind, M_bind. destruct (m st) as [st1 [x | e | p]]; intros H; try discriminate. eauto.
Qed.

Lemma deref_Ok {S E X} what (p : option X) (st st' : S) x :
  deref (E := E) what p st = (st', Ok x) -> st' = st /\ p = Some x.
Proof. destruct p; intros [= -> ->]; auto. Qed.

(** ** Machine integers *)

Definition int32_min : Z := - 2 ^ 31.
Definition int32_max : Z := 2 ^ 31 - 1.
Definition int64_max : Z := 2 ^ 63 - 1.

(** [in_int32 z]: [z] is a value a Go [int32] can hold. *)
Definition in_int32 (z : Z) : Prop := int32_min ≤ z ≤ int32_max.

#[global] Instance in_int32_dec z : Decision (in_int32 z).
Proof. unfold in_int32. apply _. Defined.

(** Go conversions between integer types keep the low bits. *)
Definition uint32_of (z : Z) : Z := z mod 2 ^ 32.
Definition uint64_of (z : Z) : Z := z mod 2 ^ 64.
Definition int32_of (z : Z) : Z := (z + 2 ^ 31) mod 2 ^ 32 - 2 ^ 31.
Definition int64_of (z : Z) : Z := (z + 2 ^ 63) mod 2 ^ 64 - 2 ^ 63.

Lemma int32_of_id z : in_int32 z -> int32_of z = z.
Proof.
  unfold in_int32, int32_min, int32_max, int32_of. intros H.
  rewrite Z.mod_small; lia.
Qed.

Lemma int32_of_range z : in_int32 (int32_of z).
Proof.
  unfold in_int32, int32_min, int32_max, int32_of.
  pose proof (Z.mod_pos_bound (z + 2 ^ 31) (2 ^ 32)). lia.
Qed.

Lemma int64_of_id z : - 2 ^ 63 ≤ z ≤ int64_max -> int64_of z = z.
Proof. unfold int64_max, int64_of. intros H. rewrite Z.mod_small; lia. Qed.

Lemma int64_of_add a b : int64_of (int64_of a + b) = int64_of (a + b).
Proof.
  unfold int64_of. f_equal.
  replace ((a + 2 ^ 63) mod 2 ^ 64 - 2 ^ 63 + b + 2 ^ 63) with ((a + 2 ^ 63) mod 2 ^ 64 + b) by lia.
  rewrite Z.add_mod_idemp_l by lia. f_equal. lia.
Qed.

Lemma int64_of_sub a b : int64_of (int64_of a - b) = int64_of (a - b).
Proof. rewrite <- !Z.add_opp_r. apply int64_of_add. Qed.

Lemma uint32_of_inj a b :
  in_int32 a -> in_int32 b -> uint32_of a = uint32_of b -> a = b.
Proof.
  unfold in_int32, int32_min, int32_max, uint32_of. intros Ha Hb H.
  rewrite (Z.mod_eq a), (Z.mod_eq b) in H by lia.
  assert (a / 2 ^ 32 = b / 2 ^ 32 \/ a / 2 ^ 32 <> b / 2 ^ 32) as [E | E] by lia.
  - lia.
  - assert (-1 ≤ a / 2 ^ 32 ≤ 0).
    { split; [apply Z.div_le_lower_bound; lia |].
      apply Z.lt_succ_r, Z.div_lt_upper_bound; lia. }
    assert (-1 ≤ b / 2 ^ 32 ≤ 0).
    { split; [apply Z.div_le_lower_bound; lia |].
      apply Z.lt_succ_r, Z.div_lt_upper_bound; lia. }
    nia.
Qed.

(** ** Strings and wrapped values *)

(** [x.GetValue()] on a [*wrapperspb.StringValue]: nil reads as the empty string. *)
Definition GetValue (v : option string) : string := default "" v.

(** [strings.HasPrefix(s, p)]. *)
Definition HasPrefix (s p : string) : bool := String.prefix p s.

(** ** Time

    A [*timestamppb.Timestamp] is an optional number of nanoseconds since the
    Unix epoch; [AsTime] of nil is the epoch. *)
Definition AsTime (t : option Z) : Z := default 0 t.

(** [time.Time{}], the zero time: 1 January of year 1. *)
Definition zeroTime : Z := -62135596800 * 10 ^ 9.

Definition Nanosecond : Z := 1.
Definition Millisecond : Z := 10 ^ 6.
Definition Second : Z := 10 ^ 9.
Definition Minute : Z := 60 * Second.
Definition Hour : Z := 60 * Minute.

(** ** The outside world

    Reading the clock and drawing a random UUID or trace context are effects.
    The model draws them from three streams, in the order the code asks. *)
Record World := mkWorld {
  clock : nat -> Z;
  uuids : nat -> string;
  rootTraces : nat -> option (string * string);
  ticks : nat;
  drawn : nat;
  traced : nat
}.

Definition now (w : World) : Z * World :=
  (clock w (ticks w),
   mkWorld (clock w) (uuids w) (rootTraces w) (S (ticks w)) (drawn w) (traced w)).

Definition newUUID (w : World) : string * World :=
  (uuids w (drawn w),
   mkWorld (clock w) (uuids w) (rootTraces w) (ticks w) (S (drawn w)) (traced w)).

(** ** Maps

    [range] over a Go map visits the entries in an order the runtime picks.  The
    loops of the program delete at most the entry they are at, so visiting the
    entries the map had at the start is what [range] does. *)
Class RangeOrder := {
  rangeOrder : forall {K A : Type} `{Countable K}, gmap K A -> list (K * A);
  rangeOrder_perm : forall {K A : Type} `{Countable K} (m : gmap K A), rangeOrder m ≡ₚ map_to_list m
}.

(** The order of the keys is one such order. *)
Definition keyOrder : RangeOrder :=
  {| rangeOrder K A _ _ m := map_to_list m; rangeOrder_perm K A _ _ m := Permutation_refl _ |}.

Lemma elem_of_rangeOrder `{RangeOrder} {K A} `{Countable K} (m : gmap K A) k x :
  (k, x) ∈ rangeOrder m <-> m !! k = Some x.
Proof. rewrite rangeOrder_perm. apply elem_of_map_to_list. Qed.

(** ** Lists *)

Lemma Forall_sublist {A} (P : A -> Prop) (k l : list A) :
  k `sublist_of` l -> Forall P l -> Forall P k.
Proof. induction 1; inversion 1; subst; auto. Qed.

(** ** Automation *)

(** Close a decidable goal on closed terms by evaluating its decision. *)
Ltac decide_now := apply (bool_decide_unpack _); vm_compute; exact I.
