(* ===== verification/Errors.v ===== *)
(** * Error values (api/errors.go and the sentinels of backend and runtimestate)

    Go errors are values: sentinels, typed errors, fresh errors made by
    [errors.New] or [fmt.Errorf], and errors that wrap another one with [%w].
    [errorsIs] is the standard library's [errors.Is] on that chain. *)

From stdpp Require Import base list option strings pretty.
From Stdlib Require Import ZArith Lia.
From S2P Require Import Prelude.

Inductive error :=
(* api/errors.go *)
| ErrInstanceNotFound
| ErrNotStarted
| ErrNotCompleted
| ErrNoFailures
| ErrDuplicateInstance
| ErrIgnoreInstance
| ErrTaskCancelled
| ErrStalled
| UnknownTaskIDError (instanceID : string) (taskID : Z)
| UnknownInstanceIDError (instanceID : string)
| UnsupportedVersionError
(* backend/runtimestate *)
| ErrDuplicateEvent
(* backend *)
| ErrTaskHubExists
| ErrTaskHubNotFound
| ErrNotInitialized
| ErrWorkItemLockLost
| ErrBackendAlreadyStarted
| ErrTaskHubStopping
| ErrExternalDeliveryUnsupported
| ErrEmptyExternalDeliveryID
| ErrChildExecutionProvenanceRequired
| errNoWorkItems
(* task *)
| ErrTaskCanceled
(* the standard library's context.Canceled, context.DeadlineExceeded *)
| ContextCanceled
| ContextDeadlineExceeded
(* errors.New and fmt.Errorf without a wrapped error *)
| errorNew (msg : string)
(* fmt.Errorf("msg: %w", inner) *)
| errorWrap (msg : string) (inner : error).

#[global] Instance error_eq_dec : EqDecision error.
Proof. solve_decision. Defined.

(** [errors.Is(err, target)]: the error or one it wraps equals the target.
    The targets the code uses are sentinels. *)
Fixpoint errorsIs (err target : error) : bool :=
  bool_decide (err = target) ||
  match err with
  | errorWrap _ inner => errorsIs inner target
  | _ => false
  end.

Lemma errorsIs_refl e : errorsIs e e = true.
Proof. destruct e; cbn [errorsIs]; by rewrite bool_decide_eq_true_2. Qed.

Lemma errorsIs_wrap msg e target :
  errorsIs e target = true -> errorsIs (errorWrap msg e) target = true.
Proof. cbn [errorsIs]. intros ->. apply orb_true_r. Qed.

#[export] Hint Resolve errorsIs_refl errorsIs_wrap : core.

(** ** Texts and types *)

(** [Error()] *)
Fixpoint Error (e : error) : string :=
  match e with
  | ErrInstanceNotFound => "no such instance exists"
  | ErrNotStarted => "orchestration has not started"
  | ErrNotCompleted => "orchestration has not yet completed"
  | ErrNoFailures => "orchestration did not report failure details"
  | ErrDuplicateInstance => "orchestration instance already exists"
  | ErrIgnoreInstance => "ignore creating orchestration instance"
  | ErrTaskCancelled => "task was cancelled"
  | ErrStalled => "workflow is stalled"
  | UnknownTaskIDError iid task => "unknown instance ID/task ID combo: " +:+ iid +:+ "/" +:+ pretty task
  | UnknownInstanceIDError iid => "unknown instance ID: " +:+ iid
  | UnsupportedVersionError => "orchestrator version is not registered"
  | ErrDuplicateEvent => "duplicate event"
  | ErrTaskHubExists => "task hub already exists"
  | ErrTaskHubNotFound => "task hub not found"
  | ErrNotInitialized => "backend not initialized"
  | ErrWorkItemLockLost => "lock on work-item was lost"
  | ErrBackendAlreadyStarted => "backend is already started"
  | ErrTaskHubStopping => "task hub is still stopping"
  | ErrExternalDeliveryUnsupported => "backend does not support external delivery deduplication"
  | ErrEmptyExternalDeliveryID => "external delivery ID must be non-empty when provided"
  | ErrChildExecutionProvenanceRequired => "child parent execution provenance required"
  | errNoWorkItems => "no work items were found"
  | ErrTaskCanceled => "the task was canceled"
  | ContextCanceled => "context canceled"
  | ContextDeadlineExceeded => "context deadline exceeded"
  | errorNew msg => msg
  | errorWrap msg inner => msg +:+ ": " +:+ Error inner
  end.

(** The type assertions of api/errors.go look at the error itself, not at what it wraps. *)
Definition NewUnknownTaskIDError (instanceID : string) (taskID : Z) : error := UnknownTaskIDError instanceID taskID.
Definition IsUnknownTaskIDError (err : error) : bool :=
  match err with UnknownTaskIDError _ _ => true | _ => false end.
Definition NewUnknownInstanceIDError (instanceID : string) : error := UnknownInstanceIDError instanceID.
Definition IsUnknownInstanceIDError (err : error) : bool :=
  match err with UnknownInstanceIDError _ => true | _ => false end.
Definition NewUnsupportedVersionError : error := UnsupportedVersionError.
Definition IsUnsupportedVersionError (err : error) : bool :=
  match err with UnsupportedVersionError => true | _ => false end.
