(* ===== verification/Protos.v ===== *)
(** * The protobuf data model (api/protos)

    Records and enumerations of the messages the engine works on.  A message
    pointer is an [option]; a [*wrapperspb.StringValue] or a proto3 optional
    string is an [option string]; a [*timestamppb.Timestamp] is an [option Z]
    (nanoseconds); an [int32] is a [Z]; a oneof is an inductive type with the
    source's constructors, [None] standing for the unset oneof. *)

From stdpp Require Import base list option strings gmap.
From Stdlib Require Import ZArith Lia.
From S2P Require Import Prelude.

(** ** Enumerations (orchestration.pb.go) *)

Inductive StalledReason :=
| PATCH_MISMATCH
| VERSION_NOT_AVAILABLE
| PAYLOAD_SIZE_EXCEEDED.

Inductive OrchestrationStatus :=
| RUNNING
| COMPLETED
| CONTINUED_AS_NEW
| FAILED
| CANCELED
| TERMINATED
| PENDING
| SUSPENDED
| STALLED.

Inductive HistoryPropagationScope :=
| SCOPE_NONE
| SCOPE_OWN_HISTORY
| SCOPE_LINEAGE.

#[global] Instance StalledReason_eq_dec : EqDecision StalledReason.
Proof. solve_decision. Defined.
#[global] Instance OrchestrationStatus_eq_dec : EqDecision OrchestrationStatus.
Proof. solve_decision. Defined.
#[global] Instance HistoryPropagationScope_eq_dec : EqDecision HistoryPropagationScope.
Proof. solve_decision. Defined.

(** ** Shared messages (orchestration.pb.go) *)

Record TaskRouter := mkTaskRouter {
  SourceAppID : string;
  TargetAppID : option string;
  TargetAppNamespace : option string
}.

Record WorkflowVersion := mkWorkflowVersion {
  wv_Patches : list string;
  wv_Name : option string
}.

Record WorkflowInstance := mkWorkflowInstance {
  wi_InstanceId : string;
  wi_ExecutionId : option string
}.

Inductive TaskFailureDetails := mkTaskFailureDetails {
  ErrorType : string;
  ErrorMessage : string;
  StackTrace : option string;
  InnerFailure : option TaskFailureDetails;
  IsNonRetriable : bool
}.

Record ParentInstanceInfo := mkParentInstanceInfo {
  pi_TaskScheduledId : Z;
  pi_Name : option string;
  pi_Version : option string;
  pi_WorkflowInstance : option WorkflowInstance;
  pi_AppID : option string;
  pi_AppNamespace : option string
}.

Record RetryParentInstanceInfo := mkRetryParentInstanceInfo {
  rp_InstanceID : string
}.

Record TraceContext := mkTraceContext {
  TraceParent : string;
  SpanID : string;
  TraceState : option string
}.

(** ** Propagated history (history_events.pb.go)

    [RawEvents] holds the serialized bytes of each event, in order. *)

Record PropagatedHistoryChunk := mkPropagatedHistoryChunk {
  ch_RawEvents : list string;
  ch_AppId : string;
  ch_InstanceId : string;
  ch_WorkflowName : string
}.

Record PropagatedHistory := mkPropagatedHistory {
  ph_Scope : HistoryPropagationScope;
  ph_Chunks : list (option PropagatedHistoryChunk)
}.

(** ** History events (history_events.pb.go) *)

Record ExecutionStartedEvent := mkExecutionStartedEvent {
  es_Name : string;
  es_Version : option string;
  es_Input : option string;
  es_WorkflowInstance : option WorkflowInstance;
  es_ParentInstance : option ParentInstanceInfo;
  es_ScheduledStartTimestamp : option Z;
  es_ParentTraceContext : option TraceContext;
  es_WorkflowSpanID : option string;
  es_Tags : gmap string string
}.

Record ExecutionCompletedEvent := mkExecutionCompletedEvent {
  ec_WorkflowStatus : OrchestrationStatus;
  ec_Result : option string;
  ec_FailureDetails : option TaskFailureDetails
}.

Record ExecutionTerminatedEvent := mkExecutionTerminatedEvent {
  et_Input : option string;
  et_Recurse : bool
}.

Record TaskScheduledEvent := mkTaskScheduledEvent {
  ts_Name : string;
  ts_Version : option string;
  ts_Input : option string;
  ts_ParentTraceContext : option TraceContext;
  ts_TaskExecutionId : string;
  ts_HistoryPropagationScope : option HistoryPropagationScope
}.

Record TaskCompletedEvent := mkTaskCompletedEvent {
  tc_TaskScheduledId : Z;
  tc_Result : option string;
  tc_TaskExecutionId : string
}.

Record TaskFailedEvent := mkTaskFailedEvent {
  tf_TaskScheduledId : Z;
  tf_FailureDetails : option TaskFailureDetails;
  tf_TaskExecutionId : string
}.

Record ChildWorkflowInstanceCreatedEvent := mkChildWorkflowInstanceCreatedEvent {
  cw_InstanceId : string;
  cw_Name : string;
  cw_Version : option string;
  cw_Input : option string;
  cw_ParentTraceContext : option TraceContext;
  cw_HistoryPropagationScope : option HistoryPropagationScope;
  cw_RetryParentInstanceInfo : option RetryParentInstanceInfo
}.

Record ChildWorkflowInstanceCompletedEvent := mkChildWorkflowInstanceCompletedEvent {
  cc_TaskScheduledId : Z;
  cc_Result : option string
}.

Record ChildWorkflowInstanceFailedEvent := mkChildWorkflowInstanceFailedEvent {
  cf_TaskScheduledId : Z;
  cf_FailureDetails : option TaskFailureDetails
}.

Record DetachedWorkflowInstanceCreatedEvent := mkDetachedWorkflowInstanceCreatedEvent {
  dw_InstanceId : string
}.

(** The origin oneof of [CreateTimerAction] and [TimerCreatedEvent]. *)
Inductive TimerOrigin :=
| Origin_CreateTimer
| Origin_ExternalEvent (name : string)
| Origin_ActivityRetry (taskExecutionId : string)
| Origin_ChildWorkflowRetry (instanceId : string).

Record TimerCreatedEvent := mkTimerCreatedEvent {
  tcr_FireAt : option Z;
  tcr_Name : option string;
  tcr_Origin : option TimerOrigin
}.

Record TimerFiredEvent := mkTimerFiredEvent {
  tfd_FireAt : option Z;
  tfd_TimerId : Z
}.

Record WorkflowStartedEvent := mkWorkflowStartedEvent {
  ws_Version : option WorkflowVersion
}.

Record EventSentEvent := mkEventSentEvent {
  ev_InstanceId : string;
  ev_Name : string;
  ev_Input : option string
}.

Record EventRaisedEvent := mkEventRaisedEvent {
  er_Name : string;
  er_Input : option string
}.

Record ExecutionStalledEvent := mkExecutionStalledEvent {
  st_Reason : StalledReason;
  st_Description : option string
}.

Inductive HistoryEvent_EventType :=
| HistoryEvent_ExecutionStarted (x : ExecutionStartedEvent)
| HistoryEvent_ExecutionCompleted (x : ExecutionCompletedEvent)
| HistoryEvent_ExecutionTerminated (x : ExecutionTerminatedEvent)
| HistoryEvent_TaskScheduled (x : TaskScheduledEvent)
| HistoryEvent_TaskCompleted (x : TaskCompletedEvent)
| HistoryEvent_TaskFailed (x : TaskFailedEvent)
| HistoryEvent_ChildWorkflowInstanceCreated (x : ChildWorkflowInstanceCreatedEvent)
| HistoryEvent_ChildWorkflowInstanceCompleted (x : ChildWorkflowInstanceCompletedEvent)
| HistoryEvent_ChildWorkflowInstanceFailed (x : ChildWorkflowInstanceFailedEvent)
| HistoryEvent_TimerCreated (x : TimerCreatedEvent)
| HistoryEvent_TimerFired (x : TimerFiredEvent)
| HistoryEvent_WorkflowStarted (x : WorkflowStartedEvent)
| HistoryEvent_WorkflowCompleted
| HistoryEvent_EventSent (x : EventSentEvent)
| HistoryEvent_EventRaised (x : EventRaisedEvent)
| HistoryEvent_ContinueAsNew (input : option string)
| HistoryEvent_ExecutionSuspended (input : option string)
| HistoryEvent_ExecutionResumed (input : option string)
| HistoryEvent_ExecutionStalled (x : ExecutionStalledEvent)
| HistoryEvent_DetachedWorkflowInstanceCreated (x : DetachedWorkflowInstanceCreatedEvent).

Record HistoryEvent := mkHistoryEvent {
  EventId : Z;
  Timestamp : option Z;
  EventType : option HistoryEvent_EventType;
  Router : option TaskRouter
}.

(** *** Decidable equality *)

#[global] Instance TaskRouter_eq_dec : EqDecision TaskRouter.
Proof. solve_decision. Defined.
#[global] Instance WorkflowVersion_eq_dec : EqDecision WorkflowVersion.
Proof. solve_decision. Defined.
#[global] Instance WorkflowInstance_eq_dec : EqDecision WorkflowInstance.
Proof. solve_decision. Defined.
#[global] Instance ParentInstanceInfo_eq_dec : EqDecision ParentInstanceInfo.
Proof. solve_decision. Defined.
#[global] Instance RetryParentInstanceInfo_eq_dec : EqDecision RetryParentInstanceInfo.
Proof. solve_decision. Defined.
#[global] Instance TraceContext_eq_dec : EqDecision TraceContext.
Proof. solve_decision. Defined.

#[global] Instance TaskFailureDetails_eq_dec : EqDecision TaskFailureDetails.
Proof.
  unfold EqDecision, Decision. fix go 1. intros [a1 b1 c1 d1 e1] [a2 b2 c2 d2 e2].
  assert ({d1 = d2} + {d1 <> d2}) as Hd.
  { destruct d1 as [u|], d2 as [v|]; [| right; discriminate | right; discriminate | by left].
    destruct (go u v); [left | right]; congruence. }
  clear go. destruct (decide (a1 = a2)), (decide (b1 = b2)), (decide (c1 = c2)), Hd,
    (decide (e1 = e2)); try (right; congruence). left. congruence.
Defined.

#[global] Instance TimerOrigin_eq_dec : EqDecision TimerOrigin.
Proof. solve_decision. Defined.
#[global] Instance ExecutionStartedEvent_eq_dec : EqDecision ExecutionStartedEvent.
Proof. solve_decision. Defined.
#[global] Instance ExecutionCompletedEvent_eq_dec : EqDecision ExecutionCompletedEvent.
Proof. solve_decision. Defined.
#[global] Instance ExecutionTerminatedEvent_eq_dec : EqDecision ExecutionTerminatedEvent.
Proof. solve_decision. Defined.
#[global] Instance TaskScheduledEvent_eq_dec : EqDecision TaskScheduledEvent.
Proof. solve_decision. Defined.
#[global] Instance TaskCompletedEvent_eq_dec : EqDecision TaskCompletedEvent.
Proof. solve_decision. Defined.
#[global] Instance TaskFailedEvent_eq_dec : EqDecision TaskFailedEvent.
Proof. solve_decision. Defined.
#[global] Instance ChildCreatedEvent_eq_dec : EqDecision ChildWorkflowInstanceCreatedEvent.
Proof. solve_decision. Defined.
#[global] Instance ChildCompletedEvent_eq_dec : EqDecision ChildWorkflowInstanceCompletedEvent.
Proof. solve_decision. Defined.
#[global] Instance ChildFailedEvent_eq_dec : EqDecision ChildWorkflowInstanceFailedEvent.
Proof. solve_decision. Defined.
#[global] Instance DetachedCreatedEvent_eq_dec : EqDecision DetachedWorkflowInstanceCreatedEvent.
Proof. solve_decision. Defined.
#[global] Instance TimerCreatedEvent_eq_dec : EqDecision TimerCreatedEvent.
Proof. solve_decision. Defined.
#[global] Instance TimerFiredEvent_eq_dec : EqDecision TimerFiredEvent.
Proof. solve_decision. Defined.
#[global] Instance WorkflowStartedEvent_eq_dec : EqDecision WorkflowStartedEvent.
Proof. solve_decision. Defined.
#[global] Instance EventSentEvent_eq_dec : EqDecision EventSentEvent.
Proof. solve_decision. Defined.
#[global] Instance EventRaisedEvent_eq_dec : EqDecision EventRaisedEvent.
Proof. solve_decision. Defined.
#[global] Instance ExecutionStalledEvent_eq_dec : EqDecision ExecutionStalledEvent.
Proof. solve_decision. Defined.
#[global] Instance EventType_eq_dec : EqDecision HistoryEvent_EventType.
Proof. solve_decision. Defined.
#[global] Instance HistoryEvent_eq_dec : EqDecision HistoryEvent.
Proof. solve_decision. Defined.

(** *** The generated getters: a getter of another oneof member returns nil. *)

Definition GetExecutionStarted (e : HistoryEvent) : option ExecutionStartedEvent :=
  match EventType e with Some (HistoryEvent_ExecutionStarted x) => Some x | _ => None end.
Definition GetExecutionCompleted (e : HistoryEvent) : option ExecutionCompletedEvent :=
  match EventType e with Some (HistoryEvent_ExecutionCompleted x) => Some x | _ => None end.
Definition GetExecutionTerminated (e : HistoryEvent) : option ExecutionTerminatedEvent :=
  match EventType e with Some (HistoryEvent_ExecutionTerminated x) => Some x | _ => None end.
Definition GetTaskScheduled (e : HistoryEvent) : option TaskScheduledEvent :=
  match EventType e with Some (HistoryEvent_TaskScheduled x) => Some x | _ => None end.
Definition GetTaskCompleted (e : HistoryEvent) : option TaskCompletedEvent :=
  match EventType e with Some (HistoryEvent_TaskCompleted x) => Some x | _ => None end.
Definition GetTaskFailed (e : HistoryEvent) : option TaskFailedEvent :=
  match EventType e with Some (HistoryEvent_TaskFailed x) => Some x | _ => None end.
Definition GetChildWorkflowInstanceCreated (e : HistoryEvent)
    : option ChildWorkflowInstanceCreatedEvent :=
  match EventType e with
  | Some (HistoryEvent_ChildWorkflowInstanceCreated x) => Some x | _ => None end.
Definition GetChildWorkflowInstanceCompleted (e : HistoryEvent)
    : option ChildWorkflowInstanceCompletedEvent :=
  match EventType e with
  | Some (HistoryEvent_ChildWorkflowInstanceCompleted x) => Some x | _ => None end.
Definition GetChildWorkflowInstanceFailed (e : HistoryEvent)
    : option ChildWorkflowInstanceFailedEvent :=
  match EventType e with
  | Some (HistoryEvent_ChildWorkflowInstanceFailed x) => Some x | _ => None end.
Definition GetTimerCreated (e : HistoryEvent) : option TimerCreatedEvent :=
  match EventType e with Some (HistoryEvent_TimerCreated x) => Some x | _ => None end.
Definition GetTimerFired (e : HistoryEvent) : option TimerFiredEvent :=
  match EventType e with Some (HistoryEvent_TimerFired x) => Some x | _ => None end.
Definition GetWorkflowStarted (e : HistoryEvent) : option WorkflowStartedEvent :=
  match EventType e with Some (HistoryEvent_WorkflowStarted x) => Some x | _ => None end.
Definition GetEventRaised (e : HistoryEvent) : option EventRaisedEvent :=
  match EventType e with Some (HistoryEvent_EventRaised x) => Some x | _ => None end.
Definition GetExecutionSuspended (e : HistoryEvent) : option (option string) :=
  match EventType e with Some (HistoryEvent_ExecutionSuspended x) => Some x | _ => None end.
Definition GetExecutionResumed (e : HistoryEvent) : option (option string) :=
  match EventType e with Some (HistoryEvent_ExecutionResumed x) => Some x | _ => None end.
Definition GetExecutionStalled (e : HistoryEvent) : option ExecutionStalledEvent :=
  match EventType e with Some (HistoryEvent_ExecutionStalled x) => Some x | _ => None end.

(** Nil-safe accessors of nested messages. *)
Definition GetSourceAppID (r : option TaskRouter) : string :=
  match r with Some x => SourceAppID x | None => "" end.
Definition GetTargetAppID (r : option TaskRouter) : string :=
  match r with Some x => default "" (TargetAppID x) | None => "" end.
Definition GetTargetAppNamespace (r : option TaskRouter) : string :=
  match r with Some x => default "" (TargetAppNamespace x) | None => "" end.

(** [es.GetWorkflowInstance().GetExecutionId()] on a possibly nil event. *)
Definition startExecutionId (es : option ExecutionStartedEvent) : option string :=
  (es ≫= es_WorkflowInstance) ≫= wi_ExecutionId.

(** ** Workflow actions (orchestrator_actions.pb.go) *)

Record ScheduleTaskAction := mkScheduleTaskAction {
  sa_Name : string;
  sa_Version : option string;
  sa_Input : option string;
  sa_TaskExecutionId : string;
  sa_HistoryPropagationScope : option HistoryPropagationScope
}.

Record CreateChildWorkflowAction := mkCreateChildWorkflowAction {
  ca_InstanceId : string;
  ca_Name : string;
  ca_Version : option string;
  ca_Input : option string;
  ca_HistoryPropagationScope : option HistoryPropagationScope;
  ca_RetryParentInstanceInfo : option RetryParentInstanceInfo
}.

Record CreateDetachedWorkflowAction := mkCreateDetachedWorkflowAction {
  da_InstanceId : string;
  da_Name : string;
  da_Version : option string;
  da_Input : option string;
  da_ScheduledStartTimestamp : option Z;
  da_ExecutionId : option string;
  da_Tags : gmap string string;
  da_ParentTraceContext : option TraceContext
}.

Record CreateTimerAction := mkCreateTimerAction {
  ta_FireAt : option Z;
  ta_Name : option string;
  ta_Origin : option TimerOrigin
}.

Record SendEventAction := mkSendEventAction {
  se_Instance : option WorkflowInstance;
  se_Name : string;
  se_Data : option string
}.

Record CompleteWorkflowAction := mkCompleteWorkflowAction {
  co_WorkflowStatus : OrchestrationStatus;
  co_Result : option string;
  co_Details : option string;
  co_NewVersion : option string;
  co_CarryoverEvents : list HistoryEvent;
  co_FailureDetails : option TaskFailureDetails
}.

Record TerminateWorkflowAction := mkTerminateWorkflowAction {
  tw_InstanceId : string;
  tw_Reason : option string;
  tw_Recurse : bool
}.

Inductive WorkflowActionType :=
| WorkflowAction_ScheduleTask (x : ScheduleTaskAction)
| WorkflowAction_CreateChildWorkflow (x : CreateChildWorkflowAction)
| WorkflowAction_CreateTimer (x : CreateTimerAction)
| WorkflowAction_SendEvent (x : SendEventAction)
| WorkflowAction_CompleteWorkflow (x : CompleteWorkflowAction)
| WorkflowAction_TerminateWorkflow (x : TerminateWorkflowAction)
| WorkflowAction_WorkflowVersionNotAvailable
| WorkflowAction_CreateDetachedWorkflow (x : CreateDetachedWorkflowAction).

Record WorkflowAction := mkWorkflowAction {
  wa_Id : Z;
  wa_Type : option WorkflowActionType;
  wa_Router : option TaskRouter
}.

Definition GetCompleteWorkflow (a : WorkflowAction) : option CompleteWorkflowAction :=
  match wa_Type a with Some (WorkflowAction_CompleteWorkflow x) => Some x | _ => None end.

(** ** Runtime state (runtime_state.pb.go) *)

Record RuntimeStateStalled := mkRuntimeStateStalled {
  rs_Reason : StalledReason;
  rs_Description : option string
}.

Record WorkflowRuntimeStateMessage := mkWorkflowRuntimeStateMessage {
  msg_HistoryEvent : HistoryEvent;
  msg_TargetInstanceId : string;
  msg_PropagatedHistory : option PropagatedHistory
}.

Record WorkflowRuntimeState := mkWorkflowRuntimeState {
  InstanceId : string;
  NewEvents : list HistoryEvent;
  OldEvents : list HistoryEvent;
  PendingTasks : list HistoryEvent;
  PendingTimers : list HistoryEvent;
  PendingMessages : list WorkflowRuntimeStateMessage;
  StartEvent : option ExecutionStartedEvent;
  CompletedEvent : option ExecutionCompletedEvent;
  CreatedTime : option Z;
  LastUpdatedTime : option Z;
  CompletedTime : option Z;
  ContinuedAsNew : bool;
  IsSuspended : bool;
  CustomStatus : option string;
  Stalled : option RuntimeStateStalled
}.

(** Field assignment on the runtime state, [s.Field = v]. *)
Definition set_NewEvents (v : list HistoryEvent) (s : WorkflowRuntimeState) : WorkflowRuntimeState :=
  mkWorkflowRuntimeState (InstanceId s) v (OldEvents s) (PendingTasks s) (PendingTimers s) (PendingMessages s)
    (StartEvent s) (CompletedEvent s) (CreatedTime s) (LastUpdatedTime s) (CompletedTime s)
    (ContinuedAsNew s) (IsSuspended s) (CustomStatus s) (Stalled s).
Definition set_OldEvents (v : list HistoryEvent) (s : WorkflowRuntimeState) : WorkflowRuntimeState :=
  mkWorkflowRuntimeState (InstanceId s) (NewEvents s) v (PendingTasks s) (PendingTimers s) (PendingMessages s)
    (StartEvent s) (CompletedEvent s) (CreatedTime s) (LastUpdatedTime s) (CompletedTime s)
    (ContinuedAsNew s) (IsSuspended s) (CustomStatus s) (Stalled s).
Definition set_PendingTasks (v : list HistoryEvent) (s : WorkflowRuntimeState) : WorkflowRuntimeState :=
  mkWorkflowRuntimeState (InstanceId s) (NewEvents s) (OldEvents s) v (PendingTimers s) (PendingMessages s)
    (StartEvent s) (CompletedEvent s) (CreatedTime s) (LastUpdatedTime s) (CompletedTime s)
    (ContinuedAsNew s) (IsSuspended s) (CustomStatus s) (Stalled s).
Definition set_PendingTimers (v : list HistoryEvent) (s : WorkflowRuntimeState) : WorkflowRuntimeState :=
  mkWorkflowRuntimeState (InstanceId s) (NewEvents s) (OldEvents s) (PendingTasks s) v (PendingMessages s)
    (StartEvent s) (CompletedEvent s) (CreatedTime s) (LastUpdatedTime s) (CompletedTime s)
    (ContinuedAsNew s) (IsSuspended s) (CustomStatus s) (Stalled s).
Definition set_PendingMessages (v : list WorkflowRuntimeStateMessage) (s : WorkflowRuntimeState) : WorkflowRuntimeState :=
  mkWorkflowRuntimeState (InstanceId s) (NewEvents s) (OldEvents s) (PendingTasks s) (PendingTimers s) v
    (StartEvent s) (CompletedEvent s) (CreatedTime s) (LastUpdatedTime s) (CompletedTime s)
    (ContinuedAsNew s) (IsSuspended s) (CustomStatus s) (Stalled s).
Definition set_StartEvent (v : option ExecutionStartedEvent) (s : WorkflowRuntimeState) : WorkflowRuntimeState :=
  mkWorkflowRuntimeState (InstanceId s) (NewEvents s) (OldEvents s) (PendingTasks s) (PendingTimers s) (PendingMessages s)
    v (CompletedEvent s) (CreatedTime s) (LastUpdatedTime s) (CompletedTime s)
    (ContinuedAsNew s) (IsSuspended s) (CustomStatus s) (Stalled s).
Definition set_CompletedEvent (v : option ExecutionCompletedEvent) (s : WorkflowRuntimeState) : WorkflowRuntimeState :=
  mkWorkflowRuntimeState (InstanceId s) (NewEvents s) (OldEvents s) (PendingTasks s) (PendingTimers s) (PendingMessages s)
    (StartEvent s) v (CreatedTime s) (LastUpdatedTime s) (CompletedTime s)
    (ContinuedAsNew s) (IsSuspended s) (CustomStatus s) (Stalled s).
Definition set_CreatedTime (v : option Z) (s : WorkflowRuntimeState) : WorkflowRuntimeState :=
  mkWorkflowRuntimeState (InstanceId s) (NewEvents s) (OldEvents s) (PendingTasks s) (PendingTimers s) (PendingMessages s)
    (StartEvent s) (CompletedEvent s) v (LastUpdatedTime s) (CompletedTime s)
    (ContinuedAsNew s) (IsSuspended s) (CustomStatus s) (Stalled s).
Definition set_LastUpdatedTime (v : option Z) (s : WorkflowRuntimeState) : WorkflowRuntimeState :=
  mkWorkflowRuntimeState (InstanceId s) (NewEvents s) (OldEvents s) (PendingTasks s) (PendingTimers s) (PendingMessages s)
    (StartEvent s) (CompletedEvent s) (CreatedTime s) v (CompletedTime s)
    (ContinuedAsNew s) (IsSuspended s) (CustomStatus s) (Stalled s).
Definition set_CompletedTime (v : option Z) (s : WorkflowRuntimeState) : WorkflowRuntimeState :=
  mkWorkflowRuntimeState (InstanceId s) (NewEvents s) (OldEvents s) (PendingTasks s) (PendingTimers s) (PendingMessages s)
    (StartEvent s) (CompletedEvent s) (CreatedTime s) (LastUpdatedTime s) v
    (ContinuedAsNew s) (IsSuspended s) (CustomStatus s) (Stalled s).
Definition set_ContinuedAsNew (v : bool) (s : WorkflowRuntimeState) : WorkflowRuntimeState :=
  mkWorkflowRuntimeState (InstanceId s) (NewEvents s) (OldEvents s) (PendingTasks s) (PendingTimers s) (PendingMessages s)
    (StartEvent s) (CompletedEvent s) (CreatedTime s) (LastUpdatedTime s) (CompletedTime s)
    v (IsSuspended s) (CustomStatus s) (Stalled s).
Definition set_IsSuspended (v : bool) (s : WorkflowRuntimeState) : WorkflowRuntimeState :=
  mkWorkflowRuntimeState (InstanceId s) (NewEvents s) (OldEvents s) (PendingTasks s) (PendingTimers s) (PendingMessages s)
    (StartEvent s) (CompletedEvent s) (CreatedTime s) (LastUpdatedTime s) (CompletedTime s)
    (ContinuedAsNew s) v (CustomStatus s) (Stalled s).
Definition set_CustomStatus (v : option string) (s : WorkflowRuntimeState) : WorkflowRuntimeState :=
  mkWorkflowRuntimeState (InstanceId s) (NewEvents s) (OldEvents s) (PendingTasks s) (PendingTimers s) (PendingMessages s)
    (StartEvent s) (CompletedEvent s) (CreatedTime s) (LastUpdatedTime s) (CompletedTime s)
    (ContinuedAsNew s) (IsSuspended s) v (Stalled s).
Definition set_Stalled (v : option RuntimeStateStalled) (s : WorkflowRuntimeState) : WorkflowRuntimeState :=
  mkWorkflowRuntimeState (InstanceId s) (NewEvents s) (OldEvents s) (PendingTasks s) (PendingTimers s) (PendingMessages s)
    (StartEvent s) (CompletedEvent s) (CreatedTime s) (LastUpdatedTime s) (CompletedTime s)
    (ContinuedAsNew s) (IsSuspended s) (CustomStatus s) v.

(** ** Engine requests and responses (orchestrator_service.pb.go) *)

Record WorkflowResponse := mkWorkflowResponse {
  resp_InstanceId : string;
  resp_Actions : list WorkflowAction;
  resp_CustomStatus : option string;
  resp_CompletionToken : string;
  resp_NumEventsProcessed : option Z;
  resp_Version : option WorkflowVersion
}.

Inductive WorkerCapability :=
| WORKER_CAPABILITY_UNSPECIFIED
| WORKER_CAPABILITY_STATEFUL_HISTORY.

#[global] Instance WorkerCapability_eq_dec : EqDecision WorkerCapability.
Proof. solve_decision. Defined.

(** A workflow work item as it goes over a stream; [req_CachedHistory] is the
    [EventCount] of the optional [CachedHistory] message. *)
Record WorkflowRequest := mkWorkflowRequest {
  req_InstanceId : string;
  req_ExecutionId : option string;
  req_PastEvents : list HistoryEvent;
  req_NewEvents : list HistoryEvent;
  req_PropagatedHistory : option PropagatedHistory;
  req_CachedHistory : option Z
}.
