(* ===== verification/Dedup.v ===== *)
(** * Duplicate detection (backend/runtimestate/dedup)

    Resolution events (task, timer and child-workflow results) are correlated
    by a pair of a kind and an [int32] id.  [IsPresent] is the linear search;
    [DedupSet] is the constant-time set keyed by a packed 64-bit integer.  The
    lemmas show that packing loses nothing at machine width, and that the set
    and the linear search agree. *)

From stdpp Require Import base list option strings gmap.
From Stdlib Require Import ZArith Lia.
From S2P Require Import Prelude Protos.

(** ** key.go *)

Inductive Kind :=
| KindNone
| KindTask
| KindTimer
| KindChild.

#[global] Instance Kind_eq_dec : EqDecision Kind.
Proof. solve_decision. Defined.

(** The [uint8] value of a kind ([iota]). *)
Definition kindValue (k : Kind) : Z :=
  match k with KindNone => 0 | KindTask => 1 | KindTimer => 2 | KindChild => 3 end.

(** [Of]: the correlator of an event; [None] is [(KindNone, 0, false)]. *)
Definition Of (e : HistoryEvent) : option (Kind * Z) :=
  match GetTaskCompleted e with
  | Some x => Some (KindTask, tc_TaskScheduledId x)
  | None =>
  match GetTaskFailed e with
  | Some x => Some (KindTask, tf_TaskScheduledId x)
  | None =>
  match GetTimerFired e with
  | Some x => Some (KindTimer, tfd_TimerId x)
  | None =>
  match GetChildWorkflowInstanceCompleted e with
  | Some x => Some (KindChild, cc_TaskScheduledId x)
  | None =>
  match GetChildWorkflowInstanceFailed e with
  | Some x => Some (KindChild, cf_TaskScheduledId x)
  | None => None
  end end end end end.

(** [IsPresent]: the linear walk. *)
Fixpoint IsPresent (events : list HistoryEvent) (kind : Kind) (id : Z) : bool :=
  match events with
  | [] => false
  | e :: rest =>
      match Of e with
      | Some (k, existingID) =>
          if bool_decide (k = kind) && (existingID =? id) then true
          else IsPresent rest kind id
      | None => IsPresent rest kind id
      end
  end.

(** ** set.go *)

(** [packKey]: [int64(uint64(kind)<<32 | uint64(uint32(id)))]. *)
Definition packKey (kind : Kind) (id : Z) : Z :=
  int64_of (Z.lor (Z.shiftl (kindValue kind) 32) (uint32_of id)).

(** [Set] is a map with empty values, that is a set of packed keys; the nil
    [Set] is [None]. *)
Definition DedupSet : Type := gset Z.

Definition dedup_New : DedupSet := ∅.

Definition Has (s : option DedupSet) (kind : Kind) (id : Z) : bool :=
  match s with
  | None => false
  | Some m => bool_decide (packKey kind id ∈ m)
  end.

(** [Add] returns whether the key was already present, and the updated set. *)
Definition Add (s : option DedupSet) (kind : Kind) (id : Z) : bool * option DedupSet :=
  match s with
  | None => (false, None)
  | Some m =>
      let k := packKey kind id in
      if bool_decide (k ∈ m) then (true, Some m) else (false, Some ({[k]} ∪ m))
  end.

Fixpoint populate (m : DedupSet) (events : list HistoryEvent) : DedupSet :=
  match events with
  | [] => m
  | e :: rest =>
      match Of e with
      | Some (k, id) => populate ({[packKey k id]} ∪ m) rest
      | None => populate m rest
      end
  end.

Definition NewForState (s : WorkflowRuntimeState) : DedupSet :=
  populate (populate dedup_New (OldEvents s)) (NewEvents s).

(** ** Machine-width well-formedness: every correlator id is an [int32]. *)

Definition id_ok (e : HistoryEvent) : Prop :=
  match Of e with Some (_, id) => in_int32 id | None => True end.

#[global] Instance id_ok_dec e : Decision (id_ok e).
Proof. unfold id_ok. destruct (Of e) as [[? ?]|]; apply _. Defined.

Definition ids_ok (l : list HistoryEvent) : Prop := Forall id_ok l.

(** ** Lemmas *)

Lemma packKey_eq kind id :
  packKey kind id = kindValue kind * 2 ^ 32 + uint32_of id.
Proof.
  unfold packKey, uint32_of.
  pose proof (Z.mod_pos_bound id (2 ^ 32)) as Hb.
  assert (Z.lor (Z.shiftl (kindValue kind) 32) (id mod 2 ^ 32)
          = kindValue kind * 2 ^ 32 + id mod 2 ^ 32) as ->.
  { rewrite Z.shiftl_mul_pow2 by lia.
    rewrite <- Z.lxor_lor, <- Z.add_nocarry_lxor; [lia | |].
    all: apply Z.bits_inj'; intros n Hn; rewrite Z.land_spec, Z.bits_0.
    all: destruct (Z.lt_ge_cases n 32);
      [rewrite Z.mul_pow2_bits_low by lia; apply andb_false_l |
       rewrite Z.mod_pow2_bits_high by lia; apply andb_false_r]. }
  assert (0 ≤ kindValue kind ≤ 3) by (destruct kind; simpl; lia).
  unfold int64_of. rewrite Z.mod_small; lia.
Qed.

Lemma packKey_inj_aux k1 i1 k2 i2 :
  in_int32 i1 -> in_int32 i2 -> packKey k1 i1 = packKey k2 i2 -> k1 = k2 /\ i1 = i2.
Proof.
  intros H1 H2. rewrite !packKey_eq. intros H.
  pose proof (Z.mod_pos_bound i1 (2 ^ 32)). pose proof (Z.mod_pos_bound i2 (2 ^ 32)).
  unfold uint32_of in H.
  assert (kindValue k1 = kindValue k2) as Hk by lia.
  split; [destruct k1, k2; simpl in Hk; congruence |].
  apply uint32_of_inj; [done.. | unfold uint32_of; lia].
Qed.

Lemma IsPresent_elem events kind id :
  IsPresent events kind id = true <-> exists e, e ∈ events /\ Of e = Some (kind, id).
Proof.
  induction events as [|e rest IH]; simpl.
  - split; [done | intros (e & He & _); inversion He].
  - destruct (Of e) as [[k i]|] eqn:E.
    + destruct (bool_decide (k = kind) && (i =? id)) eqn:B.
      * apply andb_true_iff in B as [Bk%bool_decide_eq_true Bi%Z.eqb_eq]. subst.
        split; [intros _; exists e; split; [constructor | done] | done].
      * rewrite IH. split; intros (e' & He' & HO).
        -- exists e'. split; [by constructor | done].
        -- apply elem_of_cons in He' as [-> | He']; [| eauto].
           rewrite E in HO. injection HO as -> ->.
           rewrite bool_decide_eq_true_2, Z.eqb_refl in B by done. discriminate.
    + rewrite IH. split; intros (e' & He' & HO).
      * exists e'. split; [by constructor | done].
      * apply elem_of_cons in He' as [-> | He']; [congruence | eauto].
Qed.

Lemma IsPresent_app l1 l2 kind id :
  IsPresent (l1 ++ l2) kind id = IsPresent l1 kind id || IsPresent l2 kind id.
Proof.
  induction l1 as [|e l1 IH]; simpl; [done |].
  destruct (Of e) as [[k i]|]; [| done].
  by destruct (bool_decide (k = kind) && (i =? id)).
Qed.

Lemma IsPresent_ids_ok events kind id :
  ids_ok events -> IsPresent events kind id = true -> in_int32 id.
Proof.
  intros Hok (e & He & HO)%IsPresent_elem.
  eapply Forall_forall in Hok; [| exact He]. unfold id_ok in Hok. by rewrite HO in Hok.
Qed.

Lemma populate_spec events m kind id :
  ids_ok events -> in_int32 id ->
  packKey kind id ∈ populate m events
  <-> packKey kind id ∈ m \/ IsPresent events kind id = true.
Proof.
  intros Hok Hid. revert m. induction Hok as [|e rest He Hok IH]; intros m; simpl.
  - split; [by left | by intros [H|H]].
  - unfold id_ok in He. destruct (Of e) as [[k i]|] eqn:E.
    + rewrite IH, elem_of_union, elem_of_singleton.
      destruct (bool_decide (k = kind) && (i =? id)) eqn:B.
      * apply andb_true_iff in B as [->%bool_decide_eq_true ->%Z.eqb_eq].
        split; [by right | by left; left].
      * split; [| tauto]. intros [[H|H]|H]; [| tauto..].
        apply packKey_inj_aux in H as [-> ->]; [| done..].
        rewrite bool_decide_eq_true_2, Z.eqb_refl in B by done. discriminate.
    + rewrite IH. done.
Qed.

Lemma NewForState_mem s kind id :
  ids_ok (OldEvents s ++ NewEvents s) -> in_int32 id ->
  packKey kind id ∈ NewForState s
  <-> IsPresent (OldEvents s ++ NewEvents s) kind id = true.
Proof.
  intros [Ho Hn]%Forall_app Hid. unfold NewForState.
  rewrite populate_spec, populate_spec by done.
  rewrite IsPresent_app, orb_true_iff. unfold dedup_New. set_solver.
Qed.

Lemma Has_NewForState s kind id :
  ids_ok (OldEvents s ++ NewEvents s) -> in_int32 id ->
  Has (Some (NewForState s)) kind id = IsPresent (OldEvents s ++ NewEvents s) kind id.
Proof.
  intros Hok Hid. simpl. apply eq_bool_prop_intro.
  rewrite !Is_true_true, bool_decide_eq_true. by apply NewForState_mem.
Qed.
