(* ===== verification/RuntimeState.v ===== *)
(** * Workflow runtime state (backend/runtimestate/runtimestate.go)

    The in-memory state of one workflow instance and its event log.  The
    operations are state-passing functions; the invariant [hist_inv] says what
    the log and the derived fields have to do with each other. *)

From stdpp Require Import base list option strings gmap.
From Stdlib Require Import ZArith Lia.
From S2P Require Import Prelude Errors Protos Dedup.

(** ** Operations *)

(** The bookkeeping of an event that was accepted: it clears a stall (unless it
    is the stall itself), is appended to one of the two logs, and stamps
    [LastUpdatedTime]. *)
Definition appendAccepted (s : WorkflowRuntimeState) (e : HistoryEvent) (isNew : bool)
    : WorkflowRuntimeState :=
  let s := match GetExecutionStalled e with
           | None => set_Stalled None s
           | Some _ => s
           end in
  let s := if isNew then set_NewEvents (NewEvents s ++ [e]) s
           else set_OldEvents (OldEvents s ++ [e]) s in
  set_LastUpdatedTime (Some (AsTime (Timestamp e))) s.

(** [addEventWithDedup]: the state, the updated dedup set and the error. *)
Definition addEventWithDedup (s : WorkflowRuntimeState) (e : HistoryEvent) (isNew : bool)
    (seen : option DedupSet)
    : WorkflowRuntimeState * option DedupSet * option error :=
  match GetExecutionStarted e with
  | Some startEvent =>
      match StartEvent s with
      | Some _ => (s, seen, Some ErrDuplicateEvent)
      | None =>
          let s := set_StartEvent (Some startEvent) s in
          let s := set_CreatedTime (Some (AsTime (Timestamp e))) s in
          (appendAccepted s e isNew, seen, None)
      end
  | None =>
  match GetExecutionCompleted e with
  | Some completedEvent =>
      match CompletedEvent s with
      | Some _ => (s, seen, Some ErrDuplicateEvent)
      | None =>
          let s := set_CompletedEvent (Some completedEvent) s in
          let s := set_CompletedTime (Some (AsTime (Timestamp e))) s in
          (appendAccepted s e isNew, seen, None)
      end
  | None =>
  match GetExecutionSuspended e with
  | Some _ => (appendAccepted (set_IsSuspended true s) e isNew, seen, None)
  | None =>
  match GetExecutionResumed e with
  | Some _ => (appendAccepted (set_IsSuspended false s) e isNew, seen, None)
  | None =>
  match GetExecutionStalled e with
  | Some stalledEvent =>
      let s := set_Stalled (Some (mkRuntimeStateStalled (st_Reason stalledEvent)
                                    (st_Description stalledEvent))) s in
      (appendAccepted s e isNew, seen, None)
  | None =>
  match Of e with
  | Some (kind, id) =>
      match seen with
      | Some _ =>
          let '(dup, seen) := Add seen kind id in
          if dup then (s, seen, Some ErrDuplicateEvent)
          else (appendAccepted s e isNew, seen, None)
      | None =>
          if IsPresent (OldEvents s) kind id || IsPresent (NewEvents s) kind id
          then (s, None, Some ErrDuplicateEvent)
          else (appendAccepted s e isNew, None, None)
      end
  | None => (appendAccepted s e isNew, seen, None)
  end end end end end end.

(** [AddEvent]. *)
Definition AddEvent (s : WorkflowRuntimeState) (e : HistoryEvent)
    : WorkflowRuntimeState * option error :=
  let '(s, _, err) := addEventWithDedup s e true None in (s, err).

(** The loop shared by [AddEvents] and [NewWorkflowRuntimeState]. *)
Fixpoint addEventsLoop (s : WorkflowRuntimeState) (events : list HistoryEvent)
    (isNew : bool) (seen : option DedupSet) : WorkflowRuntimeState * list (option error) :=
  match events with
  | [] => (s, [])
  | e :: rest =>
      let '(s, seen, err) := addEventWithDedup s e isNew seen in
      let '(s, errs) := addEventsLoop s rest isNew seen in
      (s, err :: errs)
  end.

(** [AddEvents]: the batch version, with one dedup set for the whole batch. *)
Definition AddEvents (s : WorkflowRuntimeState) (events : list HistoryEvent)
    : WorkflowRuntimeState * list (option error) :=
  match events with
  | [] => (s, [])
  | _ => addEventsLoop s events true (Some (NewForState s))
  end.

Definition emptyRuntimeState (instanceID : string) (customStatus : option string)
    : WorkflowRuntimeState :=
  mkWorkflowRuntimeState instanceID [] [] [] [] [] None None None None None
    false false customStatus None.

(** [NewWorkflowRuntimeState]: load a persisted history. *)
Definition NewWorkflowRuntimeState (instanceID : string) (customStatus : option string)
    (existingHistory : list HistoryEvent) : WorkflowRuntimeState :=
  (addEventsLoop (emptyRuntimeState instanceID customStatus) existingHistory false
     (Some dedup_New)).1.

Definition IsValid (s : WorkflowRuntimeState) : bool :=
  if (length (OldEvents s) =? 0)%nat && (length (NewEvents s) =? 0)%nat then true
  else match StartEvent s with Some _ => true | None => false end.

Definition Name (s : WorkflowRuntimeState) : string + error :=
  match StartEvent s with None => inr ErrNotStarted | Some es => inl (es_Name es) end.

Definition Input (s : WorkflowRuntimeState) : option string + error :=
  match StartEvent s with None => inr ErrNotStarted | Some es => inl (es_Input es) end.

Definition Output (s : WorkflowRuntimeState) : option string + error :=
  match CompletedEvent s with None => inr ErrNotCompleted | Some ec => inl (ec_Result ec) end.

Definition RuntimeStatus (s : WorkflowRuntimeState) : OrchestrationStatus :=
  match StartEvent s with
  | None => match Stalled s with Some _ => STALLED | None => PENDING end
  | Some _ =>
      match CompletedEvent s with
      | Some ec => ec_WorkflowStatus ec
      | None =>
          match Stalled s with
          | Some _ => STALLED
          | None => if IsSuspended s then SUSPENDED else RUNNING
          end
      end
  end.

Definition getCreatedTime (s : WorkflowRuntimeState) : Z + error :=
  match StartEvent s with None => inr ErrNotStarted | Some _ => inl (AsTime (CreatedTime s)) end.

Definition getLastUpdatedTime (s : WorkflowRuntimeState) : Z + error :=
  match StartEvent s with
  | None => inr ErrNotStarted | Some _ => inl (AsTime (LastUpdatedTime s)) end.

Definition getCompletedTime (s : WorkflowRuntimeState) : Z + error :=
  match CompletedEvent s with
  | None => inr ErrNotCompleted | Some _ => inl (AsTime (CompletedTime s)) end.

Definition FailureDetails (s : WorkflowRuntimeState) : TaskFailureDetails + error :=
  match CompletedEvent s with
  | None => inr ErrNotCompleted
  | Some ec => match ec_FailureDetails ec with
               | None => inr ErrNoFailures
               | Some fd => inl fd
               end
  end.

Definition CancelPending (s : WorkflowRuntimeState) : WorkflowRuntimeState :=
  set_PendingTimers [] (set_PendingTasks [] (set_PendingMessages [] (set_NewEvents [] s))).

Definition GetStartedTime (s : WorkflowRuntimeState) : Z :=
  match OldEvents s with
  | e :: _ => AsTime (Timestamp e)
  | [] => match NewEvents s with
          | e :: _ => AsTime (Timestamp e)
          | [] => zeroTime
          end
  end.

Definition IsCompleted (s : WorkflowRuntimeState) : bool :=
  match CompletedEvent s with Some _ => true | None => false end.

(** ** Specification

    The log of a state, and what the derived fields should be as functions of
    the log alone. *)

Definition history (s : WorkflowRuntimeState) : list HistoryEvent := OldEvents s ++ NewEvents s.

Definition suspendStep (b : bool) (e : HistoryEvent) : bool :=
  match GetExecutionSuspended e with
  | Some _ => true
  | None => match GetExecutionResumed e with Some _ => false | None => b end
  end.

Definition stalledStep (st : option RuntimeStateStalled) (e : HistoryEvent)
    : option RuntimeStateStalled :=
  match GetExecutionStalled e with
  | Some x => Some (mkRuntimeStateStalled (st_Reason x) (st_Description x))
  | None => None
  end.

(** The log has at most one start event, and [StartEvent] and [CreatedTime] are
    its content and time; the same for completion; no two resolution events
    share a correlator; the suspension flag is the one the log implies. *)
Record hist_inv (s : WorkflowRuntimeState) : Prop := {
  inv_start : omap GetExecutionStarted (history s) = option_list (StartEvent s);
  inv_created : CreatedTime s =
    head (omap (fun e => (fun _ => AsTime (Timestamp e)) <$> GetExecutionStarted e) (history s));
  inv_completed : omap GetExecutionCompleted (history s) = option_list (CompletedEvent s);
  inv_completedTime : CompletedTime s =
    head (omap (fun e => (fun _ => AsTime (Timestamp e)) <$> GetExecutionCompleted e) (history s));
  inv_keys : NoDup (omap Of (history s));
  inv_suspended : IsSuspended s = foldl suspendStep false (history s)
}.

(** The stall marker and the update time the log implies. *)
Record tail_inv (s : WorkflowRuntimeState) : Prop := {
  inv_stalled : Stalled s = foldl stalledStep None (history s);
  inv_updated : LastUpdatedTime s =
    (fun e => AsTime (Timestamp e)) <$> last (history s)
}.

(** One event at a time, with the linear search: the reference for the batch. *)
Fixpoint addEach (s : WorkflowRuntimeState) (events : list HistoryEvent)
    : WorkflowRuntimeState * list (option error) :=
  match events with
  | [] => (s, [])
  | e :: rest =>
      let '(s, err) := AddEvent s e in
      let '(s, errs) := addEach s rest in
      (s, err :: errs)
  end.

(** [admissible s e]: the log accepts [e]. *)
Definition admissible (s : WorkflowRuntimeState) (e : HistoryEvent) : bool :=
  match EventType e with
  | Some (HistoryEvent_ExecutionStarted _) =>
      match StartEvent s with Some _ => false | None => true end
  | Some (HistoryEvent_ExecutionCompleted _) =>
      match CompletedEvent s with Some _ => false | None => true end
  | _ => match Of e with
         | Some (kind, id) => negb (IsPresent (history s) kind id)
         | None => true
         end
  end.

(** The effect of an accepted event on the derived fields. *)
Definition absorb (s : WorkflowRuntimeState) (e : HistoryEvent) : WorkflowRuntimeState :=
  match EventType e with
  | Some (HistoryEvent_ExecutionStarted x) =>
      set_CreatedTime (Some (AsTime (Timestamp e))) (set_StartEvent (Some x) s)
  | Some (HistoryEvent_ExecutionCompleted x) =>
      set_CompletedTime (Some (AsTime (Timestamp e))) (set_CompletedEvent (Some x) s)
  | Some (HistoryEvent_ExecutionSuspended _) => set_IsSuspended true s
  | Some (HistoryEvent_ExecutionResumed _) => set_IsSuspended false s
  | Some (HistoryEvent_ExecutionStalled x) =>
      set_Stalled (Some (mkRuntimeStateStalled (st_Reason x) (st_Description x))) s
  | _ => s
  end.

(** ** Lemmas *)

(** Case analysis on the event type, exposing every getter. *)
Ltac event_cases e :=
  let id := fresh "eid" in let ts := fresh "ets" in
  let ty := fresh "ety" in let r := fresh "erouter" in
  destruct e as [id ts ty r];
  destruct ty as [ty|]; [destruct ty|].

Lemma addEventWithDedup_None s e isNew :
  addEventWithDedup s e isNew None =
  if admissible s e then (appendAccepted (absorb s e) e isNew, None, None)
  else (s, None, Some ErrDuplicateEvent).
Proof.
  unfold addEventWithDedup, admissible, absorb, history.
  event_cases e; simpl; rewrite ?IsPresent_app; try done.
  all: try (by destruct (StartEvent s)); try (by destruct (CompletedEvent s)).
  all: by destruct (IsPresent (OldEvents s) _ _ || IsPresent (NewEvents s) _ _).
Qed.

Lemma AddEvent_eq s e :
  AddEvent s e =
  if admissible s e then (appendAccepted (absorb s e) e true, None)
  else (s, Some ErrDuplicateEvent).
Proof. unfold AddEvent. rewrite addEventWithDedup_None. by destruct (admissible s e). Qed.

(** What acceptance does to each field. *)
Lemma appendAccepted_new s e :
  NewEvents (appendAccepted (absorb s e) e true) = NewEvents s ++ [e] /\
  OldEvents (appendAccepted (absorb s e) e true) = OldEvents s.
Proof. unfold appendAccepted, absorb. by event_cases e. Qed.

Lemma appendAccepted_old s e :
  NewEvents (appendAccepted (absorb s e) e false) = NewEvents s /\
  OldEvents (appendAccepted (absorb s e) e false) = OldEvents s ++ [e].
Proof. unfold appendAccepted, absorb. by event_cases e. Qed.

(** An event goes to the end of the log, provided the old log is only
    extended while the new one is empty. *)
Lemma history_append s e isNew :
  (isNew = false -> NewEvents s = []) ->
  history (appendAccepted (absorb s e) e isNew) = history s ++ [e].
Proof.
  intros H. unfold history. destruct isNew.
  - destruct (appendAccepted_new s e) as [-> ->]. by rewrite app_assoc.
  - destruct (appendAccepted_old s e) as [-> ->]. rewrite H by done. by rewrite !app_nil_r.
Qed.

(** The set and the log agree on every in-range correlator. *)
Definition agree (seen : DedupSet) (s : WorkflowRuntimeState) : Prop :=
  forall kind id, in_int32 id ->
    packKey kind id ∈ seen <-> IsPresent (history s) kind id = true.

Lemma agree_append seen s e isNew :
  (isNew = false -> NewEvents s = []) ->
  id_ok e -> agree seen s ->
  agree (match Of e with Some (k, i) => {[packKey k i]} ∪ seen | None => seen end)
    (appendAccepted (absorb s e) e isNew).
Proof.
  intros Hn Hok Ha kind id Hid. rewrite history_append by done.
  rewrite IsPresent_app, orb_true_iff, <- (Ha kind id Hid). unfold id_ok in Hok. simpl.
  destruct (Of e) as [[k i]|]; [| by intuition].
  rewrite elem_of_union, elem_of_singleton.
  destruct (bool_decide (k = kind) && (i =? id)) eqn:B.
  - apply andb_true_iff in B as [->%bool_decide_eq_true ->%Z.eqb_eq]. tauto.
  - split; [| by intuition]. intros [H|H]; [| by left].
    apply packKey_inj_aux in H as [-> ->]; [| done..].
    rewrite bool_decide_eq_true_2, Z.eqb_refl in B by done. discriminate.
Qed.

(** One step with the set is one step with the linear search. *)
Lemma addEventWithDedup_Some s e isNew seen :
  (isNew = false -> NewEvents s = []) ->
  id_ok e -> agree seen s ->
  exists seen',
    addEventWithDedup s e isNew (Some seen) =
      ((addEventWithDedup s e isNew None).1.1, Some seen',
       (addEventWithDedup s e isNew None).2) /\
    agree seen' (addEventWithDedup s e isNew None).1.1.
Proof.
  intros Hn Hok Ha. pose proof (agree_append seen s e isNew Hn Hok Ha) as Hacc.
  rewrite addEventWithDedup_None. destruct (Of e) as [[k i]|] eqn:HO.
  - assert (admissible s e = negb (IsPresent (history s) k i) /\ absorb s e = s
      /\ addEventWithDedup s e isNew (Some seen) =
         (let '(dup, seen) := Add (Some seen) k i in
          if dup then (s, seen, Some ErrDuplicateEvent)
          else (appendAccepted s e isNew, seen, None))) as (-> & Hab & ->).
    { unfold admissible, absorb, addEventWithDedup.
      event_cases e; cbn in *; simplify_eq; done. }
    rewrite Hab in *. unfold id_ok in Hok. rewrite HO in Hok. simpl.
    destruct (IsPresent (history s) k i) eqn:P; simpl.
    + rewrite bool_decide_eq_true_2 by (by apply Ha). eauto.
    + rewrite bool_decide_eq_false_2 by (rewrite (Ha k i Hok); congruence). eauto.
  - assert (addEventWithDedup s e isNew (Some seen) =
      ((addEventWithDedup s e isNew None).1.1, Some seen,
       (addEventWithDedup s e isNew None).2)) as ->.
    { unfold addEventWithDedup. rewrite HO.
      repeat case_match; done. }
    rewrite addEventWithDedup_None. destruct (admissible s e); simpl; eauto.
Qed.

(** The loop with the set is the fold of single steps. *)
Lemma addEventsLoop_eq s events isNew seen :
  (isNew = false -> NewEvents s = []) ->
  ids_ok events -> agree seen s ->
  addEventsLoop s events isNew (Some seen) = addEventsLoop s events isNew None.
Proof.
  intros Hn Hok. revert s seen Hn.
  induction Hok as [|e rest He Hok IH]; intros s seen Hn Ha; [done |].
  simpl.
  destruct (addEventWithDedup_Some s e isNew seen Hn He Ha) as (seen' & -> & Ha').
  pose proof (addEventWithDedup_None s e isNew) as HN.
  destruct (addEventWithDedup s e isNew None) as [[s' o] err]. simpl in *.
  assert (o = None /\ (isNew = false -> NewEvents s' = [])) as [-> Hn'].
  { destruct (admissible s e); simplify_eq; [| done]. split; [done |].
    intros ->. rewrite (proj1 (appendAccepted_old s e)). auto. }
  by rewrite (IH s' seen' Hn' Ha').
Qed.

Lemma agree_empty s : history s = [] -> agree dedup_New s.
Proof. intros H kind id _. rewrite H. unfold dedup_New. set_solver. Qed.

Lemma agree_NewForState s : ids_ok (history s) -> agree (NewForState s) s.
Proof. intros H kind id Hid. by apply NewForState_mem. Qed.

Lemma addEach_loop s events : addEach s events = addEventsLoop s events true None.
Proof.
  revert s. induction events as [|e rest IH]; intros s; [done |]. simpl.
  unfold AddEvent. pose proof (addEventWithDedup_None s e true) as HN.
  destruct (addEventWithDedup s e true None) as [[s' o] err].
  assert (o = None) as -> by (destruct (admissible s e); by simplify_eq).
  by rewrite IH.
Qed.

Lemma foldl_snoc {A B} (f : A -> B -> A) a l x : foldl f a (l ++ [x]) = f (foldl f a l) x.
Proof. by rewrite foldl_app. Qed.

Lemma omap_snoc {A B} (f : A -> option B) l x :
  omap f (l ++ [x]) = omap f l ++ option_list (f x).
Proof. rewrite omap_app. simpl. by destruct (f x). Qed.

Lemma head_snoc {A} (l : list A) (o : option A) :
  head (l ++ option_list o) = match head l with Some x => Some x | None => o end.
Proof. destruct l; [by destruct o | done]. Qed.

Lemma match_option_id {A} (o : option A) : match o with Some x => Some x | None => None end = o.
Proof. by destruct o. Qed.

Lemma IsPresent_keys l kind id : IsPresent l kind id = true <-> (kind, id) ∈ omap Of l.
Proof. rewrite IsPresent_elem, list_elem_of_omap. done. Qed.

Lemma not_IsPresent_keys l kind id : IsPresent l kind id = false <-> (kind, id) ∉ omap Of l.
Proof. rewrite <- IsPresent_keys. by destruct (IsPresent l kind id). Qed.

Lemma admissible_start s e x :
  admissible s e = true -> GetExecutionStarted e = Some x -> StartEvent s = None.
Proof. unfold admissible. event_cases e; simpl; try done. by destruct (StartEvent s). Qed.

Lemma admissible_completed s e x :
  admissible s e = true -> GetExecutionCompleted e = Some x -> CompletedEvent s = None.
Proof. unfold admissible. event_cases e; simpl; try done. by destruct (CompletedEvent s). Qed.

Lemma admissible_key s e k i :
  admissible s e = true -> Of e = Some (k, i) -> (k, i) ∉ omap Of (history s).
Proof.
  intros Ha HO. rewrite <- not_IsPresent_keys. unfold admissible in Ha. rewrite HO in Ha.
  event_cases e; simpl in *; try done; by apply negb_true_iff.
Qed.

(** The derived fields after an accepted event, as a function of the event. *)
Lemma accepted_fields s e isNew :
  let s' := appendAccepted (absorb s e) e isNew in
  StartEvent s' = match GetExecutionStarted e with Some x => Some x | None => StartEvent s end /\
  CreatedTime s' = match GetExecutionStarted e with
                   | Some _ => Some (AsTime (Timestamp e)) | None => CreatedTime s end /\
  CompletedEvent s' = match GetExecutionCompleted e with
                      | Some x => Some x | None => CompletedEvent s end /\
  CompletedTime s' = match GetExecutionCompleted e with
                     | Some _ => Some (AsTime (Timestamp e)) | None => CompletedTime s end /\
  IsSuspended s' = suspendStep (IsSuspended s) e /\
  Stalled s' = stalledStep (Stalled s) e /\
  LastUpdatedTime s' = Some (AsTime (Timestamp e)).
Proof.
  unfold appendAccepted, absorb, suspendStep, stalledStep.
  event_cases e; destruct isNew; simpl; done.
Qed.

(** Fields an accepted event leaves alone. *)
Lemma accepted_frame s e isNew :
  let s' := appendAccepted (absorb s e) e isNew in
  InstanceId s' = InstanceId s /\ PendingTasks s' = PendingTasks s /\
  PendingTimers s' = PendingTimers s /\ PendingMessages s' = PendingMessages s /\
  ContinuedAsNew s' = ContinuedAsNew s /\ CustomStatus s' = CustomStatus s.
Proof. unfold appendAccepted, absorb. event_cases e; destruct isNew; simpl; done. Qed.

Lemma inv_start_None s :
  hist_inv s -> StartEvent s = None -> omap GetExecutionStarted (history s) = [].
Proof. intros H E. rewrite (inv_start s H), E. done. Qed.

Lemma omap_fmap_nil {A B C} (f : A -> option B) (g : A -> B -> C) l :
  omap f l = [] -> omap (fun e => g e <$> f e) l = [].
Proof.
  induction l as [|x l IH]; simpl; [done |]. destruct (f x); [done |]. simpl. auto.
Qed.

Lemma hist_inv_append s e isNew :
  (isNew = false -> NewEvents s = []) ->
  admissible s e = true -> hist_inv s ->
  hist_inv (appendAccepted (absorb s e) e isNew).
Proof.
  intros Hn Ha [I1 I2 I3 I4 I5 I6].
  destruct (accepted_fields s e isNew) as (F1 & F2 & F3 & F4 & F5 & _).
  split; rewrite history_append by done; rewrite ?omap_snoc, ?foldl_snoc.
  - rewrite F1. destruct (GetExecutionStarted e) eqn:E; [| by rewrite app_nil_r].
    rewrite I1, (admissible_start s e _ Ha E). done.
  - rewrite F2, head_snoc. destruct (GetExecutionStarted e) eqn:E; simpl.
    + rewrite omap_fmap_nil; [done |]. rewrite I1, (admissible_start s e _ Ha E). done.
    + rewrite <- I2. by destruct (CreatedTime s).
  - rewrite F3. destruct (GetExecutionCompleted e) eqn:E; [| by rewrite app_nil_r].
    rewrite I3, (admissible_completed s e _ Ha E). done.
  - rewrite F4, head_snoc. destruct (GetExecutionCompleted e) eqn:E; simpl.
    + rewrite omap_fmap_nil; [done |]. rewrite I3, (admissible_completed s e _ Ha E). done.
    + rewrite <- I4. by destruct (CompletedTime s).
  - destruct (Of e) as [[k i]|] eqn:E; simpl; [| by rewrite app_nil_r].
    apply NoDup_app. split; [done |]. split; [| apply NoDup_singleton].
    intros x Hx ->%list_elem_of_singleton. by apply (admissible_key s e k i).
  - by rewrite F5, I6.
Qed.

Lemma tail_inv_append s e isNew :
  (isNew = false -> NewEvents s = []) ->
  tail_inv s -> tail_inv (appendAccepted (absorb s e) e isNew).
Proof.
  intros Hn [T1 T2].
  destruct (accepted_fields s e isNew) as (_ & _ & _ & _ & _ & F6 & F7).
  split; rewrite history_append by done.
  - by rewrite F6, foldl_snoc, T1.
  - by rewrite F7, last_snoc.
Qed.

Lemma hist_inv_empty id cs : hist_inv (emptyRuntimeState id cs).
Proof. split; simpl; try done. apply NoDup_nil_2. Qed.

Lemma tail_inv_empty id cs : tail_inv (emptyRuntimeState id cs).
Proof. done. Qed.

(** Invariants carry through the loop. *)
Lemma addEventsLoop_inv (P : WorkflowRuntimeState -> Prop) isNew :
  (forall s e, (isNew = false -> NewEvents s = []) -> admissible s e = true -> P s ->
     P (appendAccepted (absorb s e) e isNew)) ->
  forall events s, (isNew = false -> NewEvents s = []) -> P s ->
    P (addEventsLoop s events isNew None).1.
Proof.
  intros Hstep. induction events as [|e rest IH]; intros s Hn HP; [done |].
  simpl. rewrite addEventWithDedup_None. destruct (admissible s e) eqn:Ha.
  - specialize (IH (appendAccepted (absorb s e) e isNew)).
    destruct (addEventsLoop _ rest isNew None) as [s2 errs]. cbn [fst] in *. apply IH; [| auto].
    intros ->. rewrite (proj1 (appendAccepted_old s e)). auto.
  - specialize (IH s Hn HP). destruct (addEventsLoop s rest isNew None). done.
Qed.

#[export] Hint Resolve hist_inv_append tail_inv_append hist_inv_empty tail_inv_empty : core.

Lemma AddEvent_hist_inv s e : hist_inv s -> hist_inv (AddEvent s e).1.
Proof.
  intros H. rewrite AddEvent_eq. destruct (admissible s e) eqn:Ha; simpl; [| done].
  by apply hist_inv_append.
Qed.

(** The whole state as a function of the log. *)
Definition state_of_log (id : string) (cs : option string) (l : list HistoryEvent)
    : WorkflowRuntimeState :=
  mkWorkflowRuntimeState id [] l [] [] []
    (head (omap GetExecutionStarted l))
    (head (omap GetExecutionCompleted l))
    (head (omap (fun e => (fun _ => AsTime (Timestamp e)) <$> GetExecutionStarted e) l))
    ((fun e => AsTime (Timestamp e)) <$> last l)
    (head (omap (fun e => (fun _ => AsTime (Timestamp e)) <$> GetExecutionCompleted e) l))
    false (foldl suspendStep false l) cs (foldl stalledStep None l).

(** A log without duplicates. *)
Definition clean_log (l : list HistoryEvent) : Prop :=
  (length (omap GetExecutionStarted l) ≤ 1)%nat /\
  (length (omap GetExecutionCompleted l) ≤ 1)%nat /\
  NoDup (omap Of l).

Lemma clean_log_snoc l e :
  clean_log (l ++ [e]) ->
  clean_log l /\ forall id cs, admissible (state_of_log id cs l) e = true.
Proof.
  unfold clean_log. rewrite !omap_snoc, !length_app. intros (H1 & H2 & H3).
  apply NoDup_app in H3 as (H3 & H4 & _).
  split; [split_and!; [lia | lia | done] |]. intros id cs.
  assert (forall k i, Of e = Some (k, i) -> IsPresent l k i = false) as Hk.
  { intros k i E. apply not_IsPresent_keys. intros Hin. eapply H4; [exact Hin |].
    rewrite E. simpl. constructor. }
  unfold admissible, history, state_of_log.
  event_cases e; cbn in *; try done.
  1,2: repeat match goal with
       | |- context [head ?x] => destruct x; simpl in *; [done | lia]
       end.
  all: rewrite app_nil_r; by erewrite Hk by done.
Qed.

Lemma state_of_log_snoc id cs l e :
  admissible (state_of_log id cs l) e = true ->
  appendAccepted (absorb (state_of_log id cs l) e) e false = state_of_log id cs (l ++ [e]).
Proof.
  intros Ha. unfold state_of_log at 2.
  rewrite !omap_snoc, !foldl_snoc, !head_snoc, last_snoc.
  pose proof (fun x => admissible_start _ _ x Ha) as Hs.
  pose proof (fun x => admissible_completed _ _ x Ha) as Hc.
  cbn in Hs, Hc. clear Ha.
  unfold appendAccepted, absorb, suspendStep, stalledStep, state_of_log.
  event_cases e; cbn in *; rewrite ?match_option_id; try done.
  all: match goal with H : forall x0, Some ?x = Some x0 -> _ |- _ =>
         specialize (H x eq_refl); apply head_None in H end.
  - pose proof (omap_fmap_nil _ (fun e _ => AsTime (Timestamp e)) l Hs) as Ht.
    cbn beta in Ht. by rewrite Ht, Hs.
  - pose proof (omap_fmap_nil _ (fun e _ => AsTime (Timestamp e)) l Hc) as Ht.
    cbn beta in Ht. by rewrite Ht, Hc.
Qed.

Lemma load_clean_log id cs l :
  clean_log l ->
  (addEventsLoop (emptyRuntimeState id cs) l false None).1 = state_of_log id cs l.
Proof.
  induction l as [|e l IH] using rev_ind; intros Hc; [done |].
  apply clean_log_snoc in Hc as [Hc Ha]. specialize (IH Hc). specialize (Ha id cs).
  assert (forall l s, (addEventsLoop s (l ++ [e]) false None).1 =
    (addEventWithDedup (addEventsLoop s l false None).1 e false None).1.1) as Hsnoc.
  { clear. induction l as [|x l IH]; intros s; simpl.
    - by destruct (addEventWithDedup s e false None) as [[? ?] ?].
    - rewrite addEventWithDedup_None. destruct (admissible s x); simpl.
      + specialize (IH (appendAccepted (absorb s x) x false)).
        by destruct (addEventsLoop _ (l ++ [e]) _ _), (addEventsLoop _ l _ _).
      + specialize (IH s).
        by destruct (addEventsLoop _ (l ++ [e]) _ _), (addEventsLoop _ l _ _). }
  rewrite Hsnoc, IH, addEventWithDedup_None, Ha. simpl. by apply state_of_log_snoc.
Qed.

Lemma NewWorkflowRuntimeState_loop id cs l :
  ids_ok l ->
  NewWorkflowRuntimeState id cs l = (addEventsLoop (emptyRuntimeState id cs) l false None).1.
Proof.
  intros Hok. unfold NewWorkflowRuntimeState.
  rewrite addEventsLoop_eq; [done | done | done | by apply agree_empty].
Qed.

Lemma hist_inv_clean s : hist_inv s -> clean_log (history s).
Proof.
  intros H. split_and!.
  - rewrite (inv_start s H). by destruct (StartEvent s); simpl; lia.
  - rewrite (inv_completed s H). by destruct (CompletedEvent s); simpl; lia.
  - apply (inv_keys s H).
Qed.

(** The accepted events of a batch, those with a nil error, in order. *)
Definition accepted (events : list HistoryEvent) (errs : list (option error))
    : list HistoryEvent :=
  omap (fun p => match p.2 with None => Some p.1 | Some _ => None end) (zip events errs).

Lemma addEach_log s events :
  let '(s', errs) := addEach s events in
  length errs = length events /\
  OldEvents s' = OldEvents s /\
  NewEvents s' = NewEvents s ++ accepted events errs /\
  Forall (fun err => err = None \/ err = Some ErrDuplicateEvent) errs.
Proof.
  revert s. induction events as [|e rest IH]; intros s; simpl.
  - by rewrite app_nil_r.
  - rewrite AddEvent_eq. destruct (admissible s e).
    + specialize (IH (appendAccepted (absorb s e) e true)).
      destruct (addEach _ rest) as [s' errs]. destruct IH as (IH1 & IH2 & IH3 & IH4).
      destruct (appendAccepted_new s e) as [HN HO]. rewrite HN in IH3. rewrite HO in IH2.
      split_and!; [simpl; lia | done | by rewrite IH3, <- app_assoc | by constructor; [left |]].
    + specialize (IH s). destruct (addEach s rest) as [s' errs].
      destruct IH as (IH1 & IH2 & IH3 & IH4).
      split_and!; [simpl; lia | done | done | by constructor; [right |]].
Qed.

Lemma AddEvents_addEach s events :
  ids_ok (history s) -> ids_ok events -> AddEvents s events = addEach s events.
Proof.
  intros Hs He. rewrite addEach_loop. destruct events as [|e rest]; [done |].
  unfold AddEvents. apply addEventsLoop_eq; [done | done | by apply agree_NewForState].
Qed.

(** A state with an empty new log and outbox is what its log says. *)
Lemma state_of_log_eq s :
  hist_inv s -> tail_inv s -> NewEvents s = [] ->
  (PendingTasks s = [] /\ PendingTimers s = [] /\ PendingMessages s = [] /\
   ContinuedAsNew s = false) ->
  s = state_of_log (InstanceId s) (CustomStatus s) (OldEvents s).
Proof.
  intros [I1 I2 I3 I4 _ I6] [T1 T2] Hn (H1 & H2 & H3 & H4).
  destruct s as [? ? ? ? ? ? ss cc ? ? ? ? ? ? ?]; unfold history in *; simpl in *. subst.
  rewrite app_nil_r in I1, I3. unfold state_of_log. rewrite I1, I3, app_nil_r.
  by destruct ss, cc.
Qed.

Lemma load_frame id cs l :
  ids_ok l ->
  let s := NewWorkflowRuntimeState id cs l in
  hist_inv s /\ tail_inv s /\ NewEvents s = [] /\ InstanceId s = id /\ CustomStatus s = cs /\
  PendingTasks s = [] /\ PendingTimers s = [] /\ PendingMessages s = [] /\
  ContinuedAsNew s = false.
Proof.
  intros Hok. cbv zeta. rewrite NewWorkflowRuntimeState_loop by done.
  apply (addEventsLoop_inv (fun s => hist_inv s /\ tail_inv s /\ NewEvents s = [] /\
    InstanceId s = id /\ CustomStatus s = cs /\ PendingTasks s = [] /\ PendingTimers s = [] /\
    PendingMessages s = [] /\ ContinuedAsNew s = false)); [| done | split_and!; auto].
  intros s e Hn Ha (Hi & Ht & _ & H).
  destruct (accepted_frame s e false) as (-> & -> & -> & -> & -> & ->).
  destruct (appendAccepted_old s e) as [-> _]. auto 20.
Qed.

Lemma load_sublist id cs l :
  ids_ok l -> OldEvents (NewWorkflowRuntimeState id cs l) `sublist_of` l.
Proof.
  intros Hok. rewrite NewWorkflowRuntimeState_loop by done. clear Hok.
  assert (forall s, OldEvents (addEventsLoop s l false None).1
    `sublist_of` OldEvents s ++ l) as H; [| apply (H (emptyRuntimeState id cs))].
  induction l as [|e l IH]; intros s; simpl; [by rewrite app_nil_r |].
  rewrite addEventWithDedup_None. destruct (admissible s e).
  - specialize (IH (appendAccepted (absorb s e) e false)).
    destruct (appendAccepted_old s e) as [_ HO]. rewrite HO, <- app_assoc in IH.
    by destruct (addEventsLoop _ l false None).
  - specialize (IH s). destruct (addEventsLoop s l false None).
    etrans; [exact IH |]. apply sublist_app; [done | by apply sublist_cons].
Qed.

#[global] Instance ids_ok_dec l : Decision (ids_ok l).
Proof. unfold ids_ok. apply _. Defined.

(** A completed workflow stays completed, with the same completion. *)
Lemma addEach_completed s events ec :
  CompletedEvent s = Some ec -> CompletedEvent (addEach s events).1 = Some ec.
Proof.
  revert s. induction events as [|e rest IH]; intros s Hc; [done |]. simpl.
  rewrite AddEvent_eq. destruct (admissible s e) eqn:Ha.
  - specialize (IH (appendAccepted (absorb s e) e true)).
    destruct (addEach _ rest) as [s' errs]. apply IH.
    destruct (accepted_fields s e true) as (_ & _ & -> & _).
    destruct (GetExecutionCompleted e) eqn:E; [| done].
    rewrite (admissible_completed s e _ Ha E) in Hc. discriminate.
  - specialize (IH s Hc). by destruct (addEach s rest).
Qed.

Lemma addEach_start s events es :
  StartEvent s = Some es -> StartEvent (addEach s events).1 = Some es.
Proof.
  revert s. induction events as [|e rest IH]; intros s Hc; [done |]. simpl.
  rewrite AddEvent_eq. destruct (admissible s e) eqn:Ha.
  - specialize (IH (appendAccepted (absorb s e) e true)).
    destruct (addEach _ rest) as [s' errs]. apply IH.
    destruct (accepted_fields s e true) as (-> & _).
    destruct (GetExecutionStarted e) eqn:E; [| done].
    rewrite (admissible_start s e _ Ha E) in Hc. discriminate.
  - specialize (IH s Hc). by destruct (addEach s rest).
Qed.

Lemma addEach_hist_inv s events : hist_inv s -> hist_inv (addEach s events).1.
Proof.
  intros H. rewrite addEach_loop. apply addEventsLoop_inv; [| done | done].
  intros. by apply hist_inv_append.
Qed.

Lemma addEach_tail_inv s events : tail_inv s -> tail_inv (addEach s events).1.
Proof.
  intros H. rewrite addEach_loop. apply addEventsLoop_inv; [| done | done].
  intros. by apply tail_inv_append.
Qed.

(** The status a log implies, read off the log alone. *)
Definition status_of_log (l : list HistoryEvent) : OrchestrationStatus :=
  match head (omap GetExecutionStarted l) with
  | None => match foldl stalledStep None l with Some _ => STALLED | None => PENDING end
  | Some _ =>
      match head (omap GetExecutionCompleted l) with
      | Some ec => ec_WorkflowStatus ec
      | None =>
          match foldl stalledStep None l with
          | Some _ => STALLED
          | None => if foldl suspendStep false l then SUSPENDED else RUNNING
          end
      end
  end.

(** ** Sample states for the witnesses *)

Definition ev (id : Z) (t : Z) (ty : HistoryEvent_EventType) : HistoryEvent :=
  mkHistoryEvent id (Some t) (Some ty) None.

Definition sampleStart : ExecutionStartedEvent :=
  mkExecutionStartedEvent "Flow" None (Some "in")
    (Some (mkWorkflowInstance "wf1" (Some "exec1"))) None None None None ∅.

Definition sampleEvents : list HistoryEvent :=
  [ ev (-1) 10 (HistoryEvent_WorkflowStarted (mkWorkflowStartedEvent None));
    ev (-1) 11 (HistoryEvent_ExecutionStarted sampleStart);
    ev 0 12 (HistoryEvent_TaskScheduled (mkTaskScheduledEvent "A" None None None "t0" None));
    ev (-1) 13 (HistoryEvent_TaskCompleted (mkTaskCompletedEvent 0 (Some "r") "t0"));
    ev (-1) 14 (HistoryEvent_TaskFailed (mkTaskFailedEvent 0 None "t0"));
    ev (-1) 15 (HistoryEvent_ExecutionStarted sampleStart);
    ev (-1) 16 (HistoryEvent_ExecutionSuspended None) ].

Definition sampleState : WorkflowRuntimeState :=
  (addEach (emptyRuntimeState "wf1" None) sampleEvents).1.

Lemma sampleState_inv : hist_inv sampleState /\ tail_inv sampleState.
Proof.
  split; [apply addEach_hist_inv, hist_inv_empty | apply addEach_tail_inv, tail_inv_empty].
Defined.

(** ** Properties *)

(** C17. Batch deduplication is sequential deduplication: [AddEvents], which
    keeps one packed-key set for the whole batch, yields the same state and the
    same per-event errors as calling [AddEvent], which searches the log
    linearly, on one event after another.  Ids are [int32] values. *)
Theorem AddEvents_sequential s events :
  ids_ok (history s) -> ids_ok events ->
  AddEvents s events = addEach s events.
Proof. apply AddEvents_addEach. Qed.

Lemma AddEvents_sequential_witness :
  AddEvents sampleState sampleEvents = addEach sampleState sampleEvents /\
  (AddEvents sampleState sampleEvents).2 =
    [None; Some ErrDuplicateEvent; None; Some ErrDuplicateEvent;
     Some ErrDuplicateEvent; Some ErrDuplicateEvent; None].
Proof.
  split; [| vm_compute; reflexivity].
  apply AddEvents_sequential; decide_now.
Defined.

(** [AddEvents] keeps the log invariant and reports exactly what it did:
    the errors are aligned with the events, the only error is
    [ErrDuplicateEvent], the log grows by exactly the events whose error is nil,
    in order, and the result has at most one start event, at most one completion
    event and no two resolution events with the same correlator. *)
Theorem AddEvents_log_invariant s events :
  ids_ok (history s) -> ids_ok events -> hist_inv s ->
  let '(s', errs) := AddEvents s events in
  hist_inv s' /\
  length errs = length events /\
  history s' = history s ++ accepted events errs /\
  Forall (fun err => err = None \/ err = Some ErrDuplicateEvent) errs.
Proof.
  intros Hs He Hi. rewrite AddEvents_addEach by done.
  pose proof (addEach_log s events) as HL. pose proof (addEach_hist_inv s events Hi) as HI.
  destruct (addEach s events) as [s' errs]. destruct HL as (H1 & H2 & H3 & H4).
  split_and!; [done | done | | done]. unfold history. by rewrite H2, H3, app_assoc.
Qed.

Lemma AddEvents_log_invariant_witness :
  hist_inv sampleState /\
  let '(s', errs) := AddEvents sampleState sampleEvents in
  hist_inv s' /\ length errs = length sampleEvents /\
  history s' = history sampleState ++ accepted sampleEvents errs /\
  Forall (fun err => err = None \/ err = Some ErrDuplicateEvent) errs.
Proof.
  split; [apply sampleState_inv |].
  apply AddEvents_log_invariant;
    [decide_now
    | decide_now | apply sampleState_inv].
Defined.

(** C16. Loading is the inverse of persisting: reloading the log of any state the
    engine built gives back that state, field by field, with the whole log now
    old, the outboxes empty and the custom status of the caller.  In particular
    the reloaded state reports the same status as the persisted one. *)
Theorem NewWorkflowRuntimeState_reload s cs :
  ids_ok (history s) -> hist_inv s -> tail_inv s ->
  let s' := NewWorkflowRuntimeState (InstanceId s) cs (history s) in
  s' = mkWorkflowRuntimeState (InstanceId s) [] (history s) [] [] []
         (StartEvent s) (CompletedEvent s) (CreatedTime s) (LastUpdatedTime s)
         (CompletedTime s) false (IsSuspended s) cs (Stalled s) /\
  RuntimeStatus s' = RuntimeStatus s.
Proof.
  intros Hok Hi Ht. cbv zeta.
  rewrite NewWorkflowRuntimeState_loop, load_clean_log by (done || by apply hist_inv_clean).
  unfold state_of_log. destruct Hi as [-> <- -> <- _ <-]. destruct Ht as [<- <-].
  split; [by destruct (StartEvent s), (CompletedEvent s) |].
  unfold RuntimeStatus. simpl. by destruct (StartEvent s), (CompletedEvent s).
Qed.

Lemma NewWorkflowRuntimeState_reload_witness :
  let s' := NewWorkflowRuntimeState "wf1" None (history sampleState) in
  RuntimeStatus sampleState = SUSPENDED /\ RuntimeStatus s' = SUSPENDED.
Proof.
  split; [reflexivity |].
  etrans; [| reflexivity].
  apply (proj2 (NewWorkflowRuntimeState_reload sampleState None
    ltac:(decide_now) (proj1 sampleState_inv) (proj2 sampleState_inv))).
Defined.

(** Loading repairs a corrupt log: whatever events the storage returns, the
    loaded state satisfies the log invariant, its log is a subsequence of the
    stored one, and loading its log again changes nothing. *)
Theorem NewWorkflowRuntimeState_repairs id cs l :
  ids_ok l ->
  let s := NewWorkflowRuntimeState id cs l in
  hist_inv s /\ tail_inv s /\ NewEvents s = [] /\ OldEvents s `sublist_of` l /\
  NewWorkflowRuntimeState id cs (OldEvents s) = s.
Proof.
  intros Hok s. destruct (load_frame id cs l Hok) as (Hi & Ht & Hn & Hf).
  fold s in Hi, Ht, Hn, Hf. pose proof (load_sublist id cs l Hok) as Hsub. fold s in Hsub.
  split_and!; [done | done | done | done |].
  rewrite NewWorkflowRuntimeState_loop
    by (eapply Forall_sublist; [exact Hsub | exact Hok]).
  rewrite load_clean_log.
  - destruct Hf as (H1 & H2 & Hf). rewrite <- H1, <- H2 at 1. symmetry. by apply state_of_log_eq.
  - pose proof (hist_inv_clean s Hi) as Hc. unfold history in Hc. by rewrite Hn, app_nil_r in Hc.
Qed.

Lemma NewWorkflowRuntimeState_repairs_witness :
  let s := NewWorkflowRuntimeState "wf1" None sampleEvents in
  length (OldEvents s) = 5%nat /\ NewWorkflowRuntimeState "wf1" None (OldEvents s) = s.
Proof.
  split; [reflexivity |].
  apply (NewWorkflowRuntimeState_repairs "wf1" None sampleEvents).
  decide_now.
Defined.

(** A final status is final: once a started workflow has completed, no
    sequence of further events changes its status. *)
Theorem completed_status_absorbing s events :
  ids_ok (history s) -> ids_ok events ->
  IsCompleted s = true -> is_Some (StartEvent s) ->
  let s' := (AddEvents s events).1 in
  IsCompleted s' = true /\ RuntimeStatus s' = RuntimeStatus s /\ Output s' = Output s.
Proof.
  intros Hs He Hc [es Hes]. cbv zeta. rewrite AddEvents_addEach by done.
  unfold IsCompleted in *. destruct (CompletedEvent s) as [ec|] eqn:E; [| done].
  unfold RuntimeStatus, Output.
  by rewrite (addEach_completed s events ec E), (addEach_start s events es Hes), E, Hes.
Qed.

Definition sampleCompleted : WorkflowRuntimeState :=
  (AddEvent sampleState (ev 1 17 (HistoryEvent_ExecutionCompleted
     (mkExecutionCompletedEvent TERMINATED (Some "out") None)))).1.

Lemma completed_status_absorbing_witness :
  RuntimeStatus (AddEvents sampleCompleted
    [ev 2 18 (HistoryEvent_ExecutionCompleted (mkExecutionCompletedEvent FAILED None None));
     ev (-1) 19 (HistoryEvent_ExecutionResumed None)]).1 = TERMINATED.
Proof.
  pose proof (completed_status_absorbing sampleCompleted
    [ev 2 18 (HistoryEvent_ExecutionCompleted (mkExecutionCompletedEvent FAILED None None));
     ev (-1) 19 (HistoryEvent_ExecutionResumed None)]
    ltac:(decide_now)
    ltac:(decide_now)
    eq_refl ltac:(vm_compute; eauto)) as (_ & H & _).
  rewrite H. reflexivity.
Defined.

(** The reported status is a function of the log: for every state the engine
    builds, [RuntimeStatus] is [PENDING] before a start event, the completion's
    status after one, and otherwise stalled, suspended or running as the last
    stall, suspend and resume events of the log say. *)
Theorem RuntimeStatus_of_log s :
  hist_inv s -> tail_inv s -> RuntimeStatus s = status_of_log (history s).
Proof.
  intros [I1 _ I2 _ _ I3] [T1 _]. unfold RuntimeStatus, status_of_log.
  rewrite I1, I2, <- I3, <- T1. by destruct (StartEvent s), (CompletedEvent s).
Qed.

Lemma RuntimeStatus_of_log_witness :
  RuntimeStatus sampleState = status_of_log (history sampleState) /\
  status_of_log (history sampleState) = SUSPENDED.
Proof.
  split; [| reflexivity]. apply RuntimeStatus_of_log; apply sampleState_inv.
Defined.
