(* ===== verification/Propagation.v ===== *)
(** * History propagation (backend/runtimestate/propagation.go, api/propagation.go)

    A workflow can ship its history, and the history it received itself, to its
    children and activities.  The first part assembles the message; the second
    is the decoded, queryable form.  The protobuf library is a parameter: a
    [ProtoCodec] with the documented round trip [ProtoCodecOk]. *)

From stdpp Require Import base list option strings gmap.
From Stdlib Require Import ZArith Lia.
From S2P Require Import Prelude Errors Protos Dedup RuntimeState.

(** ** The protobuf codec (google.golang.org/protobuf) *)

Class ProtoCodec := {
  Marshal : HistoryEvent -> string + error;
  Unmarshal : string -> HistoryEvent + error
}.

(** What [proto.Marshal] produced, [proto.Unmarshal] reads back. *)
Class ProtoCodecOk `{ProtoCodec} : Prop := {
  Unmarshal_Marshal : forall e b, Marshal e = inl b -> Unmarshal b = inl e
}.

(** Run a fallible function over a list, stopping at the first error. *)
Fixpoint tryMap {A B} (f : A -> B + error) (l : list A) : list B + error :=
  match l with
  | [] => inl []
  | x :: rest =>
      match f x with
      | inr err => inr err
      | inl y => match tryMap f rest with
                 | inr err => inr err
                 | inl ys => inl (y :: ys)
                 end
      end
  end.

(** ** backend/runtimestate/propagation.go *)

Definition canForwardScope (receivedHistory : option PropagatedHistory)
    : HistoryPropagationScope :=
  match receivedHistory with
  | Some h => ph_Scope h
  | None => SCOPE_NONE
  end.

(** The name on the first start event of the log, or empty. *)
Fixpoint firstWorkflowName (events : list HistoryEvent) : string :=
  match events with
  | [] => ""
  | e :: rest => match GetExecutionStarted e with
                 | Some es => es_Name es
                 | None => firstWorkflowName rest
                 end
  end.

Definition AssembleProtoPropagatedHistory `{ProtoCodec}
    (state : WorkflowRuntimeState) (scope : HistoryPropagationScope)
    (receivedHistory : option PropagatedHistory) (appID : string)
    : option PropagatedHistory + error :=
  match scope with
  | SCOPE_NONE => inl None
  | _ =>
      let chunks :=
        match scope, receivedHistory with
        | SCOPE_LINEAGE, Some h => ph_Chunks h
        | _, _ => []
        end in
      let ownEvents := OldEvents state ++ NewEvents state in
      if (0 <? length ownEvents)%nat then
        match tryMap Marshal ownEvents with
        | inr err => inr err
        | inl rawEvents =>
            inl (Some (mkPropagatedHistory scope
              (chunks ++ [Some (mkPropagatedHistoryChunk rawEvents appID
                                  (InstanceId state) (firstWorkflowName ownEvents))])))
        end
      else inl (Some (mkPropagatedHistory scope chunks))
  end.

(** ** api/propagation.go *)

Record historyChunk := mkHistoryChunk {
  hc_appID : string;
  hc_startEventIndex : Z;
  hc_eventCount : Z;
  hc_instanceID : string;
  hc_workflowName : string
}.

(** [api.PropagatedHistory], the decoded form. *)
Record ApiPropagatedHistory := mkApiPropagatedHistory {
  aph_events : list HistoryEvent;
  aph_scope : HistoryPropagationScope;
  aph_chunks : list historyChunk
}.

Fixpoint getAppIDsLoop (seen : gset string) (chunks : list historyChunk) : list string :=
  match chunks with
  | [] => []
  | c :: rest =>
      if bool_decide (hc_appID c ∈ seen) then getAppIDsLoop seen rest
      else hc_appID c :: getAppIDsLoop ({[hc_appID c]} ∪ seen) rest
  end.

Definition GetAppIDs (ph : ApiPropagatedHistory) : list string :=
  getAppIDsLoop ∅ (aph_chunks ph).

(** The events of one chunk; an out-of-range chunk has none. *)
Definition chunkEvents (ph : ApiPropagatedHistory) (chunk : historyChunk)
    : list HistoryEvent :=
  let len := Z.of_nat (length (aph_events ph)) in
  let start := hc_startEventIndex chunk in
  if (start <? 0) || (len <? start) then []
  else
    let stop := start + hc_eventCount chunk in
    let stop := if len <? stop then len else stop in
    if stop <? start then []
    else take (Z.to_nat (stop - start)) (drop (Z.to_nat start) (aph_events ph)).

Fixpoint eventsWhere (ph : ApiPropagatedHistory) (p : historyChunk -> bool)
    (chunks : list historyChunk) : list HistoryEvent :=
  match chunks with
  | [] => []
  | c :: rest => (if p c then chunkEvents ph c else []) ++ eventsWhere ph p rest
  end.

Definition GetEventsByAppID (ph : ApiPropagatedHistory) (appID : string) : list HistoryEvent :=
  eventsWhere ph (fun c => String.eqb (hc_appID c) appID) (aph_chunks ph).

Definition GetEventsByInstanceID (ph : ApiPropagatedHistory) (iid : string)
    : list HistoryEvent :=
  eventsWhere ph (fun c => String.eqb (hc_instanceID c) iid) (aph_chunks ph).

Definition GetEventsByWorkflowName (ph : ApiPropagatedHistory) (name : string)
    : list HistoryEvent :=
  eventsWhere ph (fun c => String.eqb (hc_workflowName c) name) (aph_chunks ph).

Record WorkflowResult := mkWorkflowResult {
  wr_Found : bool;
  wr_InstanceID : string;
  wr_AppID : string;
  wr_Name : string;
  wr_events : list HistoryEvent
}.

Record ActivityResult := mkActivityResult {
  ar_Name : string;
  ar_Started : bool;
  ar_Completed : bool;
  ar_Failed : bool;
  ar_Input : option string;
  ar_Output : option string;
  ar_Error : option TaskFailureDetails
}.

Record ChildWorkflowResult := mkChildWorkflowResult {
  cr_Name : string;
  cr_Started : bool;
  cr_Completed : bool;
  cr_Failed : bool;
  cr_Output : option string;
  cr_Error : option TaskFailureDetails
}.

Definition makeWorkflowResult (ph : ApiPropagatedHistory) (chunk : historyChunk)
    : WorkflowResult :=
  mkWorkflowResult true (hc_instanceID chunk) (hc_appID chunk) (hc_workflowName chunk)
    (chunkEvents ph chunk).

Definition GetWorkflows (ph : ApiPropagatedHistory) : list WorkflowResult :=
  map (makeWorkflowResult ph) (aph_chunks ph).

Definition GetWorkflowsByName (ph : ApiPropagatedHistory) (name : string)
    : list WorkflowResult :=
  map (makeWorkflowResult ph)
    (List.filter (fun c => String.eqb (hc_workflowName c) name) (aph_chunks ph)).

Definition ErrPropagationNotFound : error := errorNew "propagated history: not found".

Definition lastOr {A} (l : list A) : A + error :=
  match last l with Some x => inl x | None => inr ErrPropagationNotFound end.

Definition GetLastWorkflowByName (ph : ApiPropagatedHistory) (name : string)
    : WorkflowResult + error :=
  lastOr (GetWorkflowsByName ph name).

(** The loop body of [resolveActivity] for one event. *)
Definition resolveActivityStep (scheduleID : Z) (result : ActivityResult) (e : HistoryEvent)
    : ActivityResult :=
  let result :=
    match GetTaskCompleted e with
    | Some tc => if tc_TaskScheduledId tc =? scheduleID
        then mkActivityResult (ar_Name result) (ar_Started result) true (ar_Failed result)
               (ar_Input result) (tc_Result tc) (ar_Error result)
        else result
    | None => result
    end in
  match GetTaskFailed e with
  | Some tf => if tf_TaskScheduledId tf =? scheduleID
      then mkActivityResult (ar_Name result) (ar_Started result) (ar_Completed result) true
             (ar_Input result) (ar_Output result) (tf_FailureDetails tf)
      else result
  | None => result
  end.

Definition resolveActivity (events : list HistoryEvent) (scheduleEvent : HistoryEvent)
    : ActivityResult :=
  let ts := GetTaskScheduled scheduleEvent in
  foldl (resolveActivityStep (EventId scheduleEvent))
    (mkActivityResult (match ts with Some t => ts_Name t | None => "" end) true false false
       (ts ≫= ts_Input) None None)
    events.

Definition GetActivitiesByName (wr : WorkflowResult) (name : string) : list ActivityResult :=
  if negb (wr_Found wr) then []
  else omap (fun e => match GetTaskScheduled e with
                      | Some ts => if String.eqb (ts_Name ts) name
                                   then Some (resolveActivity (wr_events wr) e) else None
                      | None => None
                      end) (wr_events wr).

Definition GetLastActivityByName (wr : WorkflowResult) (name : string)
    : ActivityResult + error :=
  lastOr (GetActivitiesByName wr name).

Definition resolveChildWorkflowStep (eventID : Z) (result : ChildWorkflowResult)
    (e : HistoryEvent) : ChildWorkflowResult :=
  let result :=
    match GetChildWorkflowInstanceCreated e with
    | Some cw => if EventId e =? eventID
        then mkChildWorkflowResult (cw_Name cw) (cr_Started result) (cr_Completed result)
               (cr_Failed result) (cr_Output result) (cr_Error result)
        else result
    | None => result
    end in
  let result :=
    match GetChildWorkflowInstanceCompleted e with
    | Some cc => if cc_TaskScheduledId cc =? eventID
        then mkChildWorkflowResult (cr_Name result) (cr_Started result) true
               (cr_Failed result) (cc_Result cc) (cr_Error result)
        else result
    | None => result
    end in
  match GetChildWorkflowInstanceFailed e with
  | Some cf => if cf_TaskScheduledId cf =? eventID
      then mkChildWorkflowResult (cr_Name result) (cr_Started result) (cr_Completed result)
             true (cr_Output result) (cf_FailureDetails cf)
      else result
  | None => result
  end.

Definition resolveChildWorkflow (events : list HistoryEvent) (eventID : Z)
    : ChildWorkflowResult :=
  foldl (resolveChildWorkflowStep eventID)
    (mkChildWorkflowResult "" true false false None None) events.

Definition GetChildWorkflowsByName (wr : WorkflowResult) (name : string)
    : list ChildWorkflowResult :=
  if negb (wr_Found wr) then []
  else omap (fun e => match GetChildWorkflowInstanceCreated e with
                      | Some cw => if String.eqb (cw_Name cw) name
                                   then Some (resolveChildWorkflow (wr_events wr) (EventId e))
                                   else None
                      | None => None
                      end) (wr_events wr).

Definition GetLastChildWorkflowByName (wr : WorkflowResult) (name : string)
    : ChildWorkflowResult + error :=
  lastOr (GetChildWorkflowsByName wr name).

(** [ValidatePropagatedHistory]: every chunk is non-nil and names its app. *)
Fixpoint validateChunks (chunks : list (option PropagatedHistoryChunk)) : option error :=
  match chunks with
  | [] => None
  | None :: _ => Some (errorNew "propagated history: chunk is nil")
  | Some c :: rest =>
      if String.eqb (ch_AppId c) "" then Some (errorNew "propagated history: chunk has empty appId")
      else validateChunks rest
  end.

Definition ValidatePropagatedHistory (ph : option PropagatedHistory) : option error :=
  validateChunks (match ph with Some h => ph_Chunks h | None => [] end).

(** The decoding loop: events so far, then one entry per chunk. *)
Fixpoint decodeChunks `{ProtoCodec} (events : list HistoryEvent)
    (chunks : list (option PropagatedHistoryChunk))
    : (list HistoryEvent * list historyChunk) + error :=
  match chunks with
  | [] => inl (events, [])
  | c :: rest =>
      let start := length events in
      match tryMap Unmarshal (match c with Some x => ch_RawEvents x | None => [] end) with
      | inr err => inr (errorWrap "propagated history: failed to decode rawEvent" err)
      | inl decoded =>
          let events := events ++ decoded in
          match decodeChunks events rest with
          | inr err => inr err
          | inl (events', hcs) =>
              inl (events',
                   mkHistoryChunk
                     (match c with Some x => ch_AppId x | None => "" end)
                     (Z.of_nat start)
                     (Z.of_nat (length events) - Z.of_nat start)
                     (match c with Some x => ch_InstanceId x | None => "" end)
                     (match c with Some x => ch_WorkflowName x | None => "" end) :: hcs)
          end
      end
  end.

Definition PropagatedHistoryFromProto `{ProtoCodec} (ph : option PropagatedHistory)
    : option ApiPropagatedHistory + error :=
  match ph with
  | None => inl None
  | Some h =>
      match ValidatePropagatedHistory ph with
      | Some err => inr err
      | None =>
          match decodeChunks [] (ph_Chunks h) with
          | inr err => inr err
          | inl (events, chunks) =>
              inl (Some (mkApiPropagatedHistory events (ph_Scope h) chunks))
          end
      end
  end.

(** ** Lemmas *)

Section Lemmas.
Context `{HC : ProtoCodec}.

Definition rawOf (c : option PropagatedHistoryChunk) : list string :=
  match c with Some x => ch_RawEvents x | None => [] end.

(** What a chunk stands for once decoded. *)
Definition chunkResult (c : option PropagatedHistoryChunk) (events : list HistoryEvent)
    : WorkflowResult :=
  mkWorkflowResult true
    (match c with Some x => ch_InstanceId x | None => "" end)
    (match c with Some x => ch_AppId x | None => "" end)
    (match c with Some x => ch_WorkflowName x | None => "" end) events.

Lemma tryMap_Unmarshal `{!ProtoCodecOk} l raw :
  tryMap Marshal l = inl raw -> tryMap Unmarshal raw = inl l.
Proof.
  revert raw. induction l as [|e l IH]; intros raw Hm; simpl in *; simplify_eq; [done |].
  destruct (Marshal e) as [b|] eqn:E; [| done].
  destruct (tryMap Marshal l) as [bs|]; [| done]. simplify_eq. simpl.
  by rewrite (Unmarshal_Marshal e b E), (IH bs eq_refl).
Qed.

Lemma chunkEvents_at ph (pre mid post : list HistoryEvent) chunk :
  aph_events ph = pre ++ mid ++ post ->
  hc_startEventIndex chunk = Z.of_nat (length pre) ->
  hc_eventCount chunk = Z.of_nat (length (pre ++ mid)) - Z.of_nat (length pre) ->
  chunkEvents ph chunk = mid.
Proof.
  intros He Hs Hc. unfold chunkEvents. rewrite He, Hs, Hc, !length_app.
  rewrite (proj2 (Z.ltb_ge (Z.of_nat (length pre)) 0)) by lia.
  rewrite (proj2 (Z.ltb_ge _ (Z.of_nat (length pre)))) by lia. simpl.
  rewrite (proj2 (Z.ltb_ge _ (Z.of_nat (length pre) + _))) by lia.
  rewrite (proj2 (Z.ltb_ge _ (Z.of_nat (length pre)))) by lia.
  rewrite Nat2Z.id, drop_app_length.
  replace (Z.to_nat _) with (length mid) by lia. apply take_app_length.
Qed.

(** A successful decode: the events grow by the chunks' events in order, and
    every chunk entry reads back exactly the events of its chunk. *)
Lemma decodeChunks_inv pre chunks evs hcs :
  decodeChunks pre chunks = inl (evs, hcs) ->
  exists decoded : list (list HistoryEvent),
    evs = pre ++ concat decoded /\
    Forall2 (fun c l => tryMap Unmarshal (rawOf c) = inl l) chunks decoded /\
    forall ph, aph_events ph = evs ->
      map (makeWorkflowResult ph) hcs = zip_with chunkResult chunks decoded.
Proof.
  revert pre evs hcs. induction chunks as [|c chunks IH]; intros pre evs hcs Hd.
  - simpl in Hd. simplify_eq. exists []. rewrite app_nil_r. split_and!; [done | constructor | done].
  - simpl in Hd. fold (rawOf c) in Hd.
    destruct (tryMap Unmarshal (rawOf c)) as [l|] eqn:E; [| done].
    destruct (decodeChunks (pre ++ l) chunks) as [[evs' hcs']|] eqn:D; [| done].
    simplify_eq. destruct (IH _ _ _ D) as (decoded & -> & HF & Hm).
    exists (l :: decoded). split_and!.
    + simpl. by rewrite <- app_assoc.
    + by constructor.
    + intros ph He. simpl. rewrite (Hm ph He). f_equal. unfold makeWorkflowResult. simpl.
      rewrite (chunkEvents_at ph pre l (concat decoded)); [done | | done | done].
      by rewrite He, <- app_assoc.
Qed.

(** Decoding succeeds as soon as every chunk decodes. *)
Lemma decodeChunks_total pre chunks decoded :
  Forall2 (fun c l => tryMap Unmarshal (rawOf c) = inl l) chunks decoded ->
  exists evs hcs, decodeChunks pre chunks = inl (evs, hcs).
Proof.
  intros HF. revert pre. induction HF as [|c l chunks decoded Hl HF IH]; intros pre; [by eauto |].
  simpl. fold (rawOf c). rewrite Hl. destruct (IH (pre ++ l)) as (evs & hcs & ->). eauto.
Qed.

Lemma Forall2_decode_det chunks (d1 d2 : list (list HistoryEvent)) :
  Forall2 (fun c l => tryMap Unmarshal (rawOf c) = inl l) chunks d1 ->
  Forall2 (fun c l => tryMap Unmarshal (rawOf c) = inl l) chunks d2 -> d1 = d2.
Proof.
  intros H1. revert d2. induction H1; intros d2 H2; inversion H2; subst; [done |].
  f_equal; [congruence | eauto].
Qed.

Lemma validateChunks_app c1 c2 :
  validateChunks c1 = None -> validateChunks c2 = None -> validateChunks (c1 ++ c2) = None.
Proof.
  induction c1 as [|[c|] c1 IH]; simpl; try done. destruct (String.eqb (ch_AppId c) ""); auto.
Qed.

(** What decoding a whole message means, in terms of its chunks. *)
Lemma FromProto_spec h ph :
  PropagatedHistoryFromProto (Some h) = inl (Some ph) <->
  exists decoded,
    validateChunks (ph_Chunks h) = None /\
    Forall2 (fun c l => tryMap Unmarshal (rawOf c) = inl l) (ph_Chunks h) decoded /\
    decodeChunks [] (ph_Chunks h) = inl (aph_events ph, aph_chunks ph) /\
    aph_scope ph = ph_Scope h /\ aph_events ph = concat decoded /\
    GetWorkflows ph = zip_with chunkResult (ph_Chunks h) decoded.
Proof.
  unfold PropagatedHistoryFromProto, ValidatePropagatedHistory. split.
  - destruct (validateChunks (ph_Chunks h)) eqn:V; [done |].
    destruct (decodeChunks [] (ph_Chunks h)) as [[evs hcs]|] eqn:D; [| done].
    intros [= <-]. destruct (decodeChunks_inv _ _ _ _ D) as (decoded & -> & HF & Hm).
    exists decoded. simpl. split_and!; try done. by apply Hm.
  - intros (decoded & -> & _ & -> & Hs & _). rewrite <- Hs. by destruct ph.
Qed.

Lemma FromProto_exists h decoded :
  validateChunks (ph_Chunks h) = None ->
  Forall2 (fun c l => tryMap Unmarshal (rawOf c) = inl l) (ph_Chunks h) decoded ->
  exists ph, PropagatedHistoryFromProto (Some h) = inl (Some ph) /\
    aph_scope ph = ph_Scope h /\ aph_events ph = concat decoded /\
    GetWorkflows ph = zip_with chunkResult (ph_Chunks h) decoded.
Proof.
  intros Hv HF. destruct (decodeChunks_total [] _ _ HF) as (evs & hcs & D).
  assert (PropagatedHistoryFromProto (Some h) =
    inl (Some (mkApiPropagatedHistory evs (ph_Scope h) hcs))) as HP.
  { unfold PropagatedHistoryFromProto, ValidatePropagatedHistory. by rewrite Hv, D. }
  eexists. split; [exact HP |].
  apply FromProto_spec in HP as (d' & _ & HF' & _ & H1 & H2 & H3).
  by rewrite (Forall2_decode_det _ _ _ HF HF').
Qed.

(** The workflows a receiver inherits under a scope. *)
Definition inherited (scope : HistoryPropagationScope) (lin : option ApiPropagatedHistory)
    : list WorkflowResult :=
  match scope, lin with
  | SCOPE_LINEAGE, Some l => GetWorkflows l
  | _, _ => []
  end.

(** The workflow result describing a state's own history. *)
Definition ownResult (s : WorkflowRuntimeState) (appID : string) : WorkflowResult :=
  mkWorkflowResult true (InstanceId s) appID (firstWorkflowName (history s)) (history s).

End Lemmas.

(** A codec for the external events without a payload, which shows that the
    round-trip law can hold: the bytes are the event's name. *)
#[local] Instance nameCodec : ProtoCodec := {|
  Marshal e := match e with
    | mkHistoryEvent (-1) None (Some (HistoryEvent_EventRaised (mkEventRaisedEvent n None))) None
        => inl n
    | _ => inr (errorNew "unsupported")
    end;
  Unmarshal b := inl (mkHistoryEvent (-1) None
    (Some (HistoryEvent_EventRaised (mkEventRaisedEvent b None))) None)
|}.

#[local] Instance nameCodecOk : ProtoCodecOk.
Proof.
  split. intros [id ts ty r] b Hm. cbn in *.
  repeat case_match; simplify_eq; done.
Defined.

(** A codec for a finite catalogue of events of any kind: the bytes are one
    character, the position in the catalogue. *)
Fixpoint catalogIndex (l : list HistoryEvent) (e : HistoryEvent) : option nat :=
  match l with
  | [] => None
  | x :: rest => if decide (x = e) then Some 0%nat else S <$> catalogIndex rest e
  end.

Definition catalogCodec (l : list HistoryEvent) : ProtoCodec := {|
  Marshal e := match catalogIndex l e with
    | Some i => if (i <? 256)%nat then inl (String (Ascii.ascii_of_nat i) "")
                else inr (errorNew "unsupported")
    | None => inr (errorNew "unsupported")
    end;
  Unmarshal b := match b with
    | String c "" => match l !! Ascii.nat_of_ascii c with
                     | Some e => inl e
                     | None => inr (errorNew "unknown")
                     end
    | _ => inr (errorNew "unknown")
    end
|}.

Lemma catalogIndex_lookup l e i : catalogIndex l e = Some i -> l !! i = Some e.
Proof.
  revert i. induction l as [|x l IH]; intros i H; cbn in H; [done |].
  destruct (decide (x = e)); [by simplify_eq |].
  destruct (catalogIndex l e) as [j|]; [| done]. simplify_eq/=. by apply IH.
Qed.

Lemma catalogCodecOk l : @ProtoCodecOk (catalogCodec l).
Proof.
  split. intros e b H. cbn [Marshal Unmarshal catalogCodec] in H |- *. destruct (catalogIndex l e) as [i|] eqn:E; [| done].
  destruct (Nat.ltb_spec i 256); [| done]. simplify_eq.
  rewrite Ascii.nat_ascii_embedding by done. by rewrite (catalogIndex_lookup _ _ _ E).
Qed.

(** The flags of a resolved activity, as searches of the events. *)
Lemma resolveActivity_fold scheduleID events r :
  let r' := foldl (resolveActivityStep scheduleID) r events in
  ar_Completed r' = ar_Completed r || existsb (fun e => match GetTaskCompleted e with
    | Some tc => tc_TaskScheduledId tc =? scheduleID | None => false end) events /\
  ar_Failed r' = ar_Failed r || existsb (fun e => match GetTaskFailed e with
    | Some tf => tf_TaskScheduledId tf =? scheduleID | None => false end) events /\
  ar_Name r' = ar_Name r /\ ar_Input r' = ar_Input r /\ ar_Started r' = ar_Started r.
Proof.
  cbv zeta. revert r. induction events as [|e events IH]; intros r; simpl.
  - by rewrite !orb_false_r.
  - destruct (IH (resolveActivityStep scheduleID r e)) as (-> & -> & -> & -> & ->).
    unfold resolveActivityStep.
    destruct (GetTaskCompleted e) as [tc|], (GetTaskFailed e) as [tf|]; simpl;
      try destruct (tc_TaskScheduledId tc =? scheduleID); simpl;
      try destruct (tf_TaskScheduledId tf =? scheduleID); simpl;
      split_and!; try done; by destruct (ar_Completed r), (ar_Failed r).
Qed.

Lemma existsb_completed_key scheduleID events :
  existsb (fun e => match GetTaskCompleted e with
    | Some tc => tc_TaskScheduledId tc =? scheduleID | None => false end) events = true <->
  exists e x, e ∈ events /\ EventType e = Some (HistoryEvent_TaskCompleted x) /\
    tc_TaskScheduledId x = scheduleID.
Proof.
  rewrite existsb_exists. split.
  - intros (e & He & H). unfold GetTaskCompleted in H.
    destruct (EventType e) as [[]|] eqn:E; try done.
    exists e, x. split_and!; [by apply list_elem_of_In | done | by apply Z.eqb_eq].
  - intros (e & x & He & E & Hx). exists e. split; [by apply list_elem_of_In |].
    unfold GetTaskCompleted. rewrite E. by apply Z.eqb_eq.
Qed.

Lemma existsb_failed_key scheduleID events :
  existsb (fun e => match GetTaskFailed e with
    | Some tf => tf_TaskScheduledId tf =? scheduleID | None => false end) events = true <->
  exists e x, e ∈ events /\ EventType e = Some (HistoryEvent_TaskFailed x) /\
    tf_TaskScheduledId x = scheduleID.
Proof.
  rewrite existsb_exists. split.
  - intros (e & He & H). unfold GetTaskFailed in H.
    destruct (EventType e) as [[]|] eqn:E; try done.
    exists e, x. split_and!; [by apply list_elem_of_In | done | by apply Z.eqb_eq].
  - intros (e & x & He & E & Hx). exists e. split; [by apply list_elem_of_In |].
    unfold GetTaskFailed. rewrite E. by apply Z.eqb_eq.
Qed.

(** In a log without duplicate correlators two events with the same correlator
    are the same event. *)
Lemma NoDup_omap_inj {A B} (f : A -> option B) (l : list A) x y k :
  NoDup (omap f l) -> x ∈ l -> y ∈ l -> f x = Some k -> f y = Some k -> x = y.
Proof.
  induction l as [|z l IH]; intros Hn Hx Hy Fx Fy; [inversion Hx |].
  simpl in Hn. apply elem_of_cons in Hx, Hy.
  assert (forall w, w ∈ l -> f w = Some k -> f z = Some k -> False) as Hno.
  { intros w Hw Fw Fz. rewrite Fz in Hn. apply NoDup_cons in Hn as [Hn _].
    apply Hn, list_elem_of_omap. eauto. }
  destruct Hx as [-> | Hx], Hy as [-> | Hy]; try done.
  - exfalso. eauto.
  - exfalso. eauto.
  - apply IH; try done. destruct (f z); [by apply NoDup_cons in Hn as [_ Hn] | done].
Qed.

(** ** Properties *)

(** Propagation round trip: what [AssembleProtoPropagatedHistory] builds,
    [PropagatedHistoryFromProto] decodes, and the receiver sees exactly the
    sender's own history as the last workflow, preceded by the workflows of the
    lineage the sender received when the scope is LINEAGE, and by nothing when
    the scope is OWN_HISTORY. *)
Theorem propagation_roundtrip `{ProtoCodecOk} s scope recv lin appID out :
  appID <> "" -> history s <> [] ->
  (scope = SCOPE_LINEAGE -> PropagatedHistoryFromProto recv = inl lin) ->
  AssembleProtoPropagatedHistory s scope recv appID = inl (Some out) ->
  exists ph,
    PropagatedHistoryFromProto (Some out) = inl (Some ph) /\
    aph_scope ph = scope /\
    GetWorkflows ph = inherited scope lin ++ [ownResult s appID] /\
    aph_events ph = concat (map wr_events (GetWorkflows ph)).
Proof.
  intros Happ Hhist Hrecv Ha. unfold AssembleProtoPropagatedHistory in Ha.
  fold (history s) in Ha.
  set (chunks := match scope, recv with
                 | SCOPE_LINEAGE, Some h => ph_Chunks h | _, _ => [] end) in Ha.
  assert (exists raw, tryMap Marshal (history s) = inl raw /\
    out = mkPropagatedHistory scope (chunks ++ [Some (mkPropagatedHistoryChunk raw appID
      (InstanceId s) (firstWorkflowName (history s)))])) as (raw & Hraw & ->).
  { destruct scope; [done | ..]; (destruct (history s) as [|e l]; [done |]);
      cbn [Nat.ltb Nat.leb length] in Ha; destruct (tryMap Marshal (e :: l)); simplify_eq; eauto. }
  assert (exists decoded, validateChunks chunks = None /\
    Forall2 (fun c l => tryMap Unmarshal (rawOf c) = inl l) chunks decoded /\
    inherited scope lin = zip_with chunkResult chunks decoded)
    as (decoded & Hv & HF & Hinh).
  { subst chunks. destruct scope; simpl.
    - by exists [].
    - by exists [].
    - specialize (Hrecv eq_refl). destruct recv as [h|].
      + destruct lin as [l|].
        * apply FromProto_spec in Hrecv as (d & ? & ? & _ & _ & _ & ?). eauto.
        * unfold PropagatedHistoryFromProto in Hrecv. by repeat case_match.
      + simpl in Hrecv. simplify_eq. by exists []. }
  destruct (FromProto_exists (mkPropagatedHistory scope (chunks ++ [Some
    (mkPropagatedHistoryChunk raw appID (InstanceId s) (firstWorkflowName (history s)))]))
    (decoded ++ [history s])) as (ph & HP & Hs & He & Hw).
  { apply validateChunks_app; [done |]. simpl.
    by rewrite (proj2 (String.eqb_neq appID "") Happ). }
  { apply Forall2_app; [done |]. repeat constructor. simpl. by apply tryMap_Unmarshal. }
  exists ph. split_and!; [done | done | |].
  - rewrite Hw, Hinh. simpl. rewrite zip_with_app by (by eapply Forall2_length). done.
  - rewrite He, Hw. simpl. f_equal. apply Forall2_length in HF.
    rewrite zip_with_app by done. rewrite map_app. simpl. f_equal. clear -HF.
    revert decoded HF. induction chunks; intros [|d ds] HF; simplify_eq/=; [done |]. f_equal. auto.
Qed.

Definition namedEvent (n : string) : HistoryEvent :=
  mkHistoryEvent (-1) None (Some (HistoryEvent_EventRaised (mkEventRaisedEvent n None))) None.

Lemma propagation_roundtrip_witness :
  let s := (addEach (emptyRuntimeState "child" None) [namedEvent "x"; namedEvent "y"]).1 in
  let recv := Some (mkPropagatedHistory SCOPE_LINEAGE
                [Some (mkPropagatedHistoryChunk ["p"] "app0" "parent" "P")]) in
  exists out ph,
    AssembleProtoPropagatedHistory s SCOPE_LINEAGE recv "app1" = inl (Some out) /\
    PropagatedHistoryFromProto (Some out) = inl (Some ph) /\
    map wr_events (GetWorkflows ph) =
      [[namedEvent "p"]; [namedEvent "x"; namedEvent "y"]].
Proof.
  cbv zeta. eexists. 
  edestruct (propagation_roundtrip
    (addEach (emptyRuntimeState "child" None) [namedEvent "x"; namedEvent "y"]).1
    SCOPE_LINEAGE (Some (mkPropagatedHistory SCOPE_LINEAGE
                [Some (mkPropagatedHistoryChunk ["p"] "app0" "parent" "P")]))
    _ "app1" _ ltac:(done) ltac:(done) ltac:(intros _; reflexivity) eq_refl)
    as (ph & HP & _ & Hw & _).
  exists ph. split_and!; [reflexivity | exact HP | by rewrite Hw].
Defined.

(** An activity result read from a propagated history is one of completed or
    failed, never both, when the history comes from a log the engine built; and it
    is completed exactly when the history holds a completion for that schedule. *)
Theorem resolveActivity_exclusive s e ts :
  hist_inv s -> GetTaskScheduled e = Some ts ->
  let r := resolveActivity (history s) e in
  ar_Name r = ts_Name ts /\ ar_Started r = true /\
  (ar_Completed r && ar_Failed r) = false /\
  (ar_Completed r = true <-> exists e' x, e' ∈ history s /\
     EventType e' = Some (HistoryEvent_TaskCompleted x) /\ tc_TaskScheduledId x = EventId e) /\
  (ar_Failed r = true <-> exists e' x, e' ∈ history s /\
     EventType e' = Some (HistoryEvent_TaskFailed x) /\ tf_TaskScheduledId x = EventId e).
Proof.
  intros Hi Hts. cbv zeta. unfold resolveActivity. rewrite Hts.
  edestruct resolveActivity_fold as (-> & -> & -> & _ & ->). simpl.
  rewrite existsb_completed_key, existsb_failed_key.
  split_and!; [done | done | | done | done].
  apply andb_false_iff. rewrite <- !not_true_iff_false, existsb_completed_key, existsb_failed_key.
  match goal with |- ~ ?P \/ ~ ?Q => enough (P -> Q -> False) as HPQ end.
  { match goal with |- ~ ?P \/ ~ ?Q =>
      destruct (existsb (fun e0 => match GetTaskCompleted e0 with
        | Some tc => tc_TaskScheduledId tc =? EventId e | None => false end) (history s)) eqn:B end.
    - right. intros HQ. apply HPQ; [by apply existsb_completed_key | done].
    - left. rewrite <- existsb_completed_key. congruence. }
  intros (e1 & x1 & H1 & E1 & K1) (e2 & x2 & H2 & E2 & K2).
  assert (e1 = e2) as ->; [| congruence].
  apply (NoDup_omap_inj Of (history s) e1 e2 (KindTask, EventId e)); try done.
  - apply (inv_keys s Hi).
  - unfold Of, GetTaskCompleted. by rewrite E1, K1.
  - unfold Of, GetTaskCompleted, GetTaskFailed. by rewrite E2, K2.
Qed.

Lemma resolveActivity_exclusive_witness :
  let e := ev 0 12 (HistoryEvent_TaskScheduled
             (mkTaskScheduledEvent "A" None None None "t0" None)) in
  ar_Completed (resolveActivity (history sampleState) e) = true /\
  (ar_Completed (resolveActivity (history sampleState) e) &&
   ar_Failed (resolveActivity (history sampleState) e)) = false.
Proof.
  cbv zeta. split; [reflexivity |].
  apply (resolveActivity_exclusive sampleState
    (ev 0 12 (HistoryEvent_TaskScheduled (mkTaskScheduledEvent "A" None None None "t0" None)))
    (mkTaskScheduledEvent "A" None None None "t0" None) (proj1 sampleState_inv) eq_refl).
Defined.
