(* ===== verification/Helpers.v ===== *)
(** * Helpers (api/helpers, api/orchestration.go, backend/child_generation.go)

    Naming, status strings and summaries.  Child instance ids are derived from a
    SHA-256 digest of a JSON array, so this file also holds the parts of the Go
    standard library that computation uses: [encoding/json] on a [[]string],
    [crypto/sha256] and the hexadecimal printer, on strings of bytes. *)

From stdpp Require Import base list option strings gmap pretty.
From Stdlib Require Import ZArith Lia Ascii.
From S2P Require Import Prelude Errors Protos.

(** ** Bytes *)

Definition byteOf (a : ascii) : Z := Z.of_N (N_of_ascii a).
Definition charOf (b : Z) : ascii := ascii_of_N (Z.to_N b).

Definition bytesOf (s : string) : list Z := map byteOf (String.list_ascii_of_string s).
Definition stringOf (l : list Z) : string := String.string_of_list_ascii (map charOf l).

(** One hexadecimal digit, lower case. *)
Definition hexDigit (d : Z) : string :=
  String.String (charOf (if d <? 10 then 48 + d else 87 + d)) String.EmptyString.

(** [fmt.Sprintf("%x", bytes)]: two digits per byte. *)
Fixpoint hexBytes (l : list Z) : string :=
  match l with
  | [] => ""
  | b :: rest => hexDigit (b / 16) +:+ hexDigit (b mod 16) +:+ hexBytes rest
  end.

(** [strconv.FormatInt(n, 16)]. *)
Fixpoint hexNatLoop (fuel : nat) (n : Z) (acc : string) : string :=
  match fuel with
  | O => acc
  | S fuel =>
      let acc := hexDigit (n mod 16) +:+ acc in
      if n / 16 =? 0 then acc else hexNatLoop fuel (n / 16) acc
  end.

Definition FormatInt16 (n : Z) : string :=
  if n <? 0 then "-" +:+ hexNatLoop 16 (- n) "" else hexNatLoop 16 n "".

(** ** encoding/json: a string literal

    [utf8Size l] is the length of the well-formed UTF-8 sequence [l] starts
    with, if any ([unicode/utf8.DecodeRuneInString]). *)

Definition inRange (lo hi b : Z) : bool := (lo <=? b) && (b <=? hi).
Definition isCont (b : Z) : bool := inRange 128 191 b.

Definition utf8Size (l : list Z) : option nat :=
  match l with
  | [] => None
  | b0 :: r =>
      if b0 <? 128 then Some 1%nat
      else if inRange 194 223 b0 then
        match r with b1 :: _ => if isCont b1 then Some 2%nat else None | _ => None end
      else if inRange 224 239 b0 then
        match r with
        | b1 :: b2 :: _ =>
            let lo := if b0 =? 224 then 160 else 128 in
            let hi := if b0 =? 237 then 159 else 191 in
            if inRange lo hi b1 && isCont b2 then Some 3%nat else None
        | _ => None
        end
      else if inRange 240 244 b0 then
        match r with
        | b1 :: b2 :: b3 :: _ =>
            let lo := if b0 =? 240 then 144 else 128 in
            let hi := if b0 =? 244 then 143 else 191 in
            if inRange lo hi b1 && isCont b2 && isCont b3 then Some 4%nat else None
        | _ => None
        end
      else None
  end.

(** The escape of one ASCII byte, with HTML escaping on (the default). *)
Definition escapeAscii (b : Z) : list Z :=
  if (b =? 34) || (b =? 92) then [92; b]
  else if b =? 8 then [92; 98]
  else if b =? 12 then [92; 102]
  else if b =? 10 then [92; 110]
  else if b =? 13 then [92; 114]
  else if b =? 9 then [92; 116]
  else if (b <? 32) || (b =? 60) || (b =? 62) || (b =? 38)
  then bytesOf ("\u00" +:+ hexDigit (b / 16) +:+ hexDigit (b mod 16))
  else [b].

Fixpoint escapeBytes (fuel : nat) (l : list Z) : list Z :=
  match fuel, l with
  | S fuel, b :: _ =>
      match utf8Size l with
      | None => bytesOf "\ufffd" ++ escapeBytes fuel (drop 1 l)
      | Some n =>
          let here := take n l in
          let out := if b <? 128 then escapeAscii b
                     else if bool_decide (here = [226; 128; 168]) then bytesOf "\u2028"
                     else if bool_decide (here = [226; 128; 169]) then bytesOf "\u2029"
                     else here in
          out ++ escapeBytes fuel (drop n l)
      end
  | _, _ => []
  end.

Definition jsonString (s : string) : list Z :=
  let l := bytesOf s in 34 :: escapeBytes (length l) l ++ [34].

(** [json.Marshal([]string{...})] on a non-nil slice. *)
Definition jsonStrings (l : list string) : list Z :=
  91 :: List.concat (List.map (fun p => (if (p.1 =? 0)%nat then [] else [44]) ++ jsonString p.2)
          (zip (seq 0 (length l)) l)) ++ [93].

(** ** crypto/sha256 *)

Definition word (z : Z) : Z := z mod 2 ^ 32.
Definition rotr (n x : Z) : Z := Z.lor (Z.shiftr x n) (word (Z.shiftl x (32 - n))).
Definition not32 (x : Z) : Z := Z.lxor x (2 ^ 32 - 1).
Definition xor3 (a b c : Z) : Z := Z.lxor a (Z.lxor b c).

(** The constants of the standard: the first 32 bits of the fractional parts of
    the cube roots of the first 64 primes and of the square roots of the first 8. *)
Definition isPrime (n : nat) : bool :=
  forallb (fun d => negb (n mod d =? 0)%nat) (seq 2 (n - 2)).

Definition firstPrimes : list Z := map Z.of_nat (List.filter isPrime (seq 2 310)).

(** The largest [r] below [2 ^ bits] more than [r] with [r ^ 3 <= n], bit by bit. *)
Fixpoint cubeRoot (bits : nat) (r n : Z) : Z :=
  match bits with
  | O => r
  | S bits =>
      let r' := r + 2 ^ Z.of_nat bits in
      cubeRoot bits (if r' ^ 3 <=? n then r' else r) n
  end.

Definition sha256_K : list Z := Eval vm_compute in
  map (fun p => word (cubeRoot 36 0 (p * 2 ^ 96))) firstPrimes.

Definition sha256_H0 : list Z := Eval vm_compute in
  map (fun p => word (Z.sqrt (p * 2 ^ 64))) (take 8 firstPrimes).

(** Message schedule; [w] holds the words so far, latest first. *)
Fixpoint sha256_schedule (n : nat) (w : list Z) : list Z :=
  match n with
  | O => w
  | S n =>
      let at_ i := nth i w 0 in
      let s0 := xor3 (rotr 7 (at_ 14%nat)) (rotr 18 (at_ 14%nat)) (Z.shiftr (at_ 14%nat) 3) in
      let s1 := xor3 (rotr 17 (at_ 1%nat)) (rotr 19 (at_ 1%nat)) (Z.shiftr (at_ 1%nat) 10) in
      sha256_schedule n (word (s1 + at_ 6%nat + s0 + at_ 15%nat) :: w)
  end.

Definition sha256_round (st : list Z) (kw : Z * Z) : list Z :=
  match st with
  | [a; b; c; d; e; f; g; h] =>
      let S1 := xor3 (rotr 6 e) (rotr 11 e) (rotr 25 e) in
      let ch := Z.lxor (Z.land e f) (Z.land (not32 e) g) in
      let t1 := h + S1 + ch + kw.1 + kw.2 in
      let S0 := xor3 (rotr 2 a) (rotr 13 a) (rotr 22 a) in
      let maj := xor3 (Z.land a b) (Z.land a c) (Z.land b c) in
      [word (t1 + S0 + maj); a; b; c; word (d + t1); e; f; g]
  | _ => st
  end.

(** Big-endian words of a byte list. *)
Fixpoint be32 (l : list Z) : list Z :=
  match l with
  | a :: b :: c :: d :: rest => (((a * 256 + b) * 256 + c) * 256 + d) :: be32 rest
  | _ => []
  end.

Definition sha256_block (st : list Z) (block : list Z) : list Z :=
  let w := rev (sha256_schedule 48 (rev (be32 block))) in
  zip_with (fun x y => word (x + y)) st (foldl sha256_round st (zip sha256_K w)).

Fixpoint sha256_blocks (fuel : nat) (st : list Z) (l : list Z) : list Z :=
  match fuel, l with
  | S fuel, _ :: _ => sha256_blocks fuel (sha256_block st (take 64 l)) (drop 64 l)
  | _, _ => st
  end.

Definition toBe (n : nat) (z : Z) : list Z :=
  map (fun i => (z / 256 ^ Z.of_nat i) mod 256) (rev (seq 0 n)).

Definition Sum256 (msg : list Z) : list Z :=
  let len := Z.of_nat (length msg) in
  let zeros := Z.to_nat ((55 - len) mod 64) in
  let padded := msg ++ [128] ++ replicate zeros 0 ++ toBe 8 (8 * len) in
  mjoin (map (toBe 4) (sha256_blocks (length padded) sha256_H0 padded)).

(** ** api/helpers/task.go *)

(** The JSON array the digest is taken of. *)
Definition childIDInput (parentInstanceID executionID : string) (actionID : Z) : list Z :=
  jsonStrings [parentInstanceID; executionID; pretty actionID].

Definition GenerateChildWorkflowInstanceIDForExecution
    (parentInstanceID executionID : string) (actionID : Z) : string :=
  parentInstanceID +:+ ":g:" +:+
    hexBytes (Sum256 (childIDInput parentInstanceID executionID actionID)).

(** [GenerateChildWorkflowInstanceID] keeps the last four digits; slicing a
    shorter string panics ([None]). *)
Definition GenerateChildWorkflowInstanceID (parentInstanceID : string) (actionID : Z)
    : option string :=
  let hex := FormatInt16 (0x10000 + actionID) in
  let n := String.length hex in
  if (n <? 4)%nat then None
  else Some (parentInstanceID +:+ ":" +:+ String.substring (n - 4) 4 hex).

(** ** api/helpers/history.go *)

Definition GetTaskId (e : HistoryEvent) : Z :=
  if 0 <=? EventId e then EventId e
  else match GetTaskCompleted e with
  | Some x => tc_TaskScheduledId x
  | None => match GetTaskFailed e with
  | Some x => tf_TaskScheduledId x
  | None => match GetChildWorkflowInstanceCompleted e with
  | Some x => cc_TaskScheduledId x
  | None => match GetChildWorkflowInstanceFailed e with
  | Some x => cf_TaskScheduledId x
  | None => match GetTimerFired e with
  | Some x => tfd_TimerId x
  | None => match GetExecutionStarted e ≫= es_ParentInstance with
  | Some x => pi_TaskScheduledId x
  | None => -1
  end end end end end end.

(** The generated enum names. *)
Definition OrchestrationStatus_name (s : OrchestrationStatus) : string :=
  match s with
  | RUNNING => "ORCHESTRATION_STATUS_RUNNING"
  | COMPLETED => "ORCHESTRATION_STATUS_COMPLETED"
  | CONTINUED_AS_NEW => "ORCHESTRATION_STATUS_CONTINUED_AS_NEW"
  | FAILED => "ORCHESTRATION_STATUS_FAILED"
  | CANCELED => "ORCHESTRATION_STATUS_CANCELED"
  | TERMINATED => "ORCHESTRATION_STATUS_TERMINATED"
  | PENDING => "ORCHESTRATION_STATUS_PENDING"
  | SUSPENDED => "ORCHESTRATION_STATUS_SUSPENDED"
  | STALLED => "ORCHESTRATION_STATUS_STALLED"
  end.

Definition allStatuses : list OrchestrationStatus :=
  [RUNNING; COMPLETED; CONTINUED_AS_NEW; FAILED; CANCELED; TERMINATED; PENDING; SUSPENDED; STALLED].

(** A missing key of the Go map reads as 0, which is [RUNNING]. *)
Definition OrchestrationStatus_value (name : string) : OrchestrationStatus :=
  default RUNNING (List.find (fun s => String.eqb (OrchestrationStatus_name s) name) allStatuses).

Definition ToRuntimeStatusString (status : OrchestrationStatus) : string :=
  let name := OrchestrationStatus_name status in
  String.substring 21 (String.length name - 21) name.

Definition FromRuntimeStatusString (status : string) : OrchestrationStatus :=
  OrchestrationStatus_value ("ORCHESTRATION_STATUS_" +:+ status).

Definition getHistoryEventTypeName (ty : HistoryEvent_EventType) : string :=
  match ty with
  | HistoryEvent_ExecutionStarted _ => "ExecutionStarted"
  | HistoryEvent_ExecutionCompleted _ => "ExecutionCompleted"
  | HistoryEvent_ExecutionTerminated _ => "ExecutionTerminated"
  | HistoryEvent_TaskScheduled _ => "TaskScheduled"
  | HistoryEvent_TaskCompleted _ => "TaskCompleted"
  | HistoryEvent_TaskFailed _ => "TaskFailed"
  | HistoryEvent_ChildWorkflowInstanceCreated _ => "ChildWorkflowInstanceCreated"
  | HistoryEvent_ChildWorkflowInstanceCompleted _ => "ChildWorkflowInstanceCompleted"
  | HistoryEvent_ChildWorkflowInstanceFailed _ => "ChildWorkflowInstanceFailed"
  | HistoryEvent_TimerCreated _ => "TimerCreated"
  | HistoryEvent_TimerFired _ => "TimerFired"
  | HistoryEvent_WorkflowStarted _ => "WorkflowStarted"
  | HistoryEvent_WorkflowCompleted => "WorkflowCompleted"
  | HistoryEvent_EventSent _ => "EventSent"
  | HistoryEvent_EventRaised _ => "EventRaised"
  | HistoryEvent_ContinueAsNew _ => "ContinueAsNew"
  | HistoryEvent_ExecutionSuspended _ => "ExecutionSuspended"
  | HistoryEvent_ExecutionResumed _ => "ExecutionResumed"
  | HistoryEvent_ExecutionStalled _ => "ExecutionStalled"
  | HistoryEvent_DetachedWorkflowInstanceCreated _ => "DetachedWorkflowInstanceCreated"
  end.

Definition getActionTypeName (ty : WorkflowActionType) : string :=
  match ty with
  | WorkflowAction_ScheduleTask _ => "ScheduleTask"
  | WorkflowAction_CreateChildWorkflow _ => "CreateChildWorkflow"
  | WorkflowAction_CreateTimer _ => "CreateTimer"
  | WorkflowAction_SendEvent _ => "SendEvent"
  | WorkflowAction_CompleteWorkflow _ => "CompleteWorkflow"
  | WorkflowAction_TerminateWorkflow _ => "TerminateWorkflow"
  | WorkflowAction_WorkflowVersionNotAvailable => "WorkflowVersionNotAvailable"
  | WorkflowAction_CreateDetachedWorkflow _ => "CreateDetachedWorkflow"
  end.

(** The summary of a list: at most ten entries, then an ellipsis.  A nil oneof
    makes the reflection call panic ([None]). *)
Fixpoint summaryLoop {A} (entry : A -> option string) (i : nat) (l : list A) : option string :=
  match l with
  | [] => Some ""
  | x :: rest =>
      let sep := if (0 <? i)%nat then ", " else "" in
      if (10 <=? i)%nat then Some (sep +:+ "...")
      else match entry x with
           | None => None
           | Some n => (fun r => sep +:+ n +:+ r) <$> summaryLoop entry (S i) rest
           end
  end.

Definition HistoryListSummary (l : list HistoryEvent) : option string :=
  (fun b => "[" +:+ b +:+ "]") <$>
  summaryLoop (fun e => ty ← EventType e;
    let taskID := GetTaskId e in
    Some (getHistoryEventTypeName ty +:+ if 0 <? taskID then "#" +:+ pretty taskID else "")) 0 l.

Definition ActionListSummary (actions : list WorkflowAction) : option string :=
  (fun b => "[" +:+ b +:+ "]") <$>
  summaryLoop (fun a => ty ← wa_Type a;
    Some (getActionTypeName ty +:+ if 0 <=? wa_Id a then "#" +:+ pretty (wa_Id a) else "")) 0 actions.

(** ** api/orchestration.go *)

Definition statusIsComplete (s : OrchestrationStatus) : bool :=
  bool_decide (s = COMPLETED) || bool_decide (s = FAILED) ||
  bool_decide (s = TERMINATED) || bool_decide (s = CANCELED).

(** [routerWithTargetAppID]: used by all the [With...AppID] options. *)
Definition routerWithTargetAppID (r : option TaskRouter) (appID : string) : option TaskRouter :=
  let r := default (mkTaskRouter "" None None) r in
  Some (mkTaskRouter (SourceAppID r) (Some appID) (TargetAppNamespace r)).

Definition ValidateTaskRouter (r : option TaskRouter) : option error :=
  if negb (String.eqb (GetTargetAppNamespace r) "") && String.eqb (GetTargetAppID r) ""
  then Some (errorNew "a target app namespace requires a target app ID") else None.

(** ** backend/child_generation.go *)

Definition IsChildResult (e : HistoryEvent) : bool :=
  match GetChildWorkflowInstanceCompleted e, GetChildWorkflowInstanceFailed e with
  | None, None => false
  | _, _ => true
  end.

Definition ChildResultExecutionID (state : WorkflowRuntimeState) (target : string)
    : string + error :=
  let parent := (StartEvent state ≫= es_ParentInstance) ≫= pi_WorkflowInstance in
  let parentId := match parent with Some p => wi_InstanceId p | None => "" end in
  let execId := GetValue (parent ≫= wi_ExecutionId) in
  if negb (String.eqb parentId target) || String.eqb execId ""
  then inr (errorWrap "missing captured parent identity" ErrChildExecutionProvenanceRequired)
  else inl execId.

(** ** Known answers *)

Example Sum256_abc :
  hexBytes (Sum256 (bytesOf "abc")) =
  "ba7816bf8f01cfea414140de5dae2223b00361a396177a9cb410ff61f20015ad".
Proof. vm_compute. reflexivity. Qed.

Example Sum256_two_blocks :
  hexBytes (Sum256 (bytesOf "abcdbcdecdefdefgefghfghighijhijkijkljklmklmnlmnomnopnopq")) =
  "248d6a61d20638b8e5c026930c3e6039a33ce45964ff2167f6ecedd419db06c1".
Proof. vm_compute. reflexivity. Qed.

Example legacy_id : GenerateChildWorkflowInstanceID "p" 10 = Some "p:000a".
Proof. vm_compute. reflexivity. Qed.

Example summary_history :
  HistoryListSummary [mkHistoryEvent 3 None (Some (HistoryEvent_TimerCreated
    (mkTimerCreatedEvent None None None))) None;
    mkHistoryEvent (-1) None (Some HistoryEvent_WorkflowCompleted) None]
  = Some "[TimerCreated#3, WorkflowCompleted]".
Proof. vm_compute. reflexivity. Qed.

Example child_id :
  GenerateChildWorkflowInstanceIDForExecution "wf1" "exec1" (-7) =
  "wf1:g:28dbe4090493f55ab989de83d5f7d4e081c47d065cd779a040e46b21b774dc62".
Proof. vm_compute. reflexivity. Qed.
