(* ===== verification/Applier.v ===== *)
(** * Applying a decision (backend/runtimestate/applier.go)

    [Applier.Actions] turns the actions a workflow execution decided on into
    history events and outbox entries (activities, timers, messages).  The Go
    method mutates the runtime state and returns a result and an error; here it
    is a computation over the state, the outside world and the result so far,
    all of which survive an error.  The mutation of the request's own fields
    ([action.Router], [createSO.InstanceId]) is local: the stamped router and the
    generated id are passed on, since nothing reads them from the request again. *)

From stdpp Require Import base list option strings gmap pretty.
From Stdlib Require Import ZArith Lia.
From S2P Require Import Prelude Errors Protos Dedup RuntimeState Propagation Helpers.

Record Applier := NewApplier {
  appID : string;
  namespace : string
}.

Record ActionsResult := mkActionsResult {
  ar_ContinuedAsNew : bool;
  ar_OutgoingHistory : gmap Z (option PropagatedHistory);
  ar_NewIncomingHistory : option PropagatedHistory
}.

Definition emptyResult : ActionsResult := mkActionsResult false ∅ None.

Record ApplySt := mkApplySt {
  as_state : WorkflowRuntimeState;
  as_world : World;
  as_result : ActionsResult
}.

Definition A (X : Type) : Type := M ApplySt error X.

(** ** Primitive effects *)

Definition modState (f : WorkflowRuntimeState -> WorkflowRuntimeState) : A unit :=
  modify (fun st => mkApplySt (f (as_state st)) (as_world st) (as_result st)).

Definition modResult (f : ActionsResult -> ActionsResult) : A unit :=
  modify (fun st => mkApplySt (as_state st) (as_world st) (f (as_result st))).

(** [timestamppb.Now()], [timestamppb.New(time.Now())]. *)
Definition readClock : A (option Z) := fun st =>
  let '(t, w) := now (as_world st) in
  (mkApplySt (as_state st) w (as_result st), Ok (Some t)).

(** [uuid.New().String()]. *)
Definition drawUUID : A string := fun st =>
  let '(u, w) := newUUID (as_world st) in
  (mkApplySt (as_state st) w (as_result st), Ok u).

(** [helpers.NewRootTraceContext()]: nil when the random source fails. *)
Definition NewRootTraceContext : A (option TraceContext) := fun st =>
  let w := as_world st in
  let w' := mkWorld (clock w) (uuids w) (rootTraces w) (ticks w) (drawn w) (S (traced w)) in
  let tc := (fun p => mkTraceContext ("00-" +:+ p.1 +:+ "-" +:+ p.2 +:+ "-01") "" None)
              <$> rootTraces w (traced w) in
  (mkApplySt (as_state st) w' (as_result st), Ok tc).

(** [_ = AddEvent(s, e)]: the error is ignored. *)
Definition addHistory (e : HistoryEvent) : A unit := modState (fun s => (AddEvent s e).1).

Definition addPendingMessage (m : WorkflowRuntimeStateMessage) : A unit :=
  modState (fun s => set_PendingMessages (PendingMessages s ++ [m]) s).

Definition liftErr {X} (msg : string) (r : X + error) : A X :=
  match r with inl x => mret x | inr err => throw (errorWrap msg err) end.

(** ** Helpers of the loop body *)

(** The router every event of the action carries: stamped with this app's id. *)
Definition stampRouter (a : Applier) (action : WorkflowAction) : TaskRouter :=
  match wa_Router action with
  | None => mkTaskRouter (appID a) None None
  | Some r => mkTaskRouter (appID a) (TargetAppID r) (TargetAppNamespace r)
  end.

Definition replaceWorkflowRuntimeState (source : WorkflowRuntimeState) : A unit :=
  modState (fun _ => mkWorkflowRuntimeState (InstanceId source) (NewEvents source)
    (OldEvents source) (PendingTasks source) (PendingTimers source) (PendingMessages source)
    (StartEvent source) (CompletedEvent source) (CreatedTime source) (LastUpdatedTime source)
    (CompletedTime source) (ContinuedAsNew source) (IsSuspended source) (CustomStatus source)
    (Stalled source)).

(** [parentInstanceInfo]; reading the name of a nil start event panics. *)
Definition parentInstanceInfo (parentNamespace : string) (id : Z) (router : TaskRouter)
    (s : WorkflowRuntimeState) : option ParentInstanceInfo :=
  es ← StartEvent s;
  Some (mkParentInstanceInfo id (Some (es_Name es)) None
    (Some (mkWorkflowInstance (InstanceId s) (startExecutionId (StartEvent s))))
    (Some (SourceAppID router))
    (if String.eqb parentNamespace "" then None else Some parentNamespace)).

Section Apply.
Context `{ProtoCodec}.
Variable a : Applier.
Variable customStatus : option string.
Variable currentTraceContext : option TraceContext.
Variable receivedHistory : option PropagatedHistory.

(** The state of the next generation: the two synthetic events, then the
    carried-over ones. *)
Definition newGeneration (s : WorkflowRuntimeState) (es : ExecutionStartedEvent)
    (input : option string) (router : TaskRouter) (t1 t2 : option Z) (uuid : string)
    (trace : option TraceContext) (carryover : list HistoryEvent) : WorkflowRuntimeState :=
  let newState := NewWorkflowRuntimeState (InstanceId s) customStatus [] in
  let newState := set_ContinuedAsNew true newState in
  let newState := (AddEvent newState (mkHistoryEvent (-1) t1
    (Some (HistoryEvent_WorkflowStarted (mkWorkflowStartedEvent None))) (Some router))).1 in
  let newState := (AddEvent newState (mkHistoryEvent (-1) t2
    (Some (HistoryEvent_ExecutionStarted
      (mkExecutionStartedEvent (es_Name es) None input
        (Some (mkWorkflowInstance (InstanceId s) (Some uuid)))
        (es_ParentInstance es) None trace None ∅))) (Some router))).1 in
  foldl (fun st e => (AddEvent st e).1) newState carryover.

(** The CONTINUED_AS_NEW branch. *)
Definition applyContinueAsNew (router : TaskRouter) (completedAction : CompleteWorkflowAction)
    : A bool :=
  s ← gets as_state;
  (match canForwardScope receivedHistory with
   | SCOPE_NONE => mret tt
   | scope =>
       ph ← liftErr "failed to assemble propagated history for ContinueAsNew"
              (AssembleProtoPropagatedHistory s scope receivedHistory (appID a));
       modResult (fun r => mkActionsResult (ar_ContinuedAsNew r) (ar_OutgoingHistory r) ph)
   end);;
  t1 ← readClock;
  es ← deref "nil StartEvent" (StartEvent s);
  trace ← match es_ParentTraceContext es with
          | Some _ => NewRootTraceContext
          | None => mret None
          end;
  t2 ← readClock;
  uuid ← drawUUID;
  replaceWorkflowRuntimeState
    (newGeneration s es (co_Result completedAction) router t1 t2 uuid trace
       (co_CarryoverEvents completedAction));;
  modResult (fun r => mkActionsResult true (ar_OutgoingHistory r) (ar_NewIncomingHistory r));;
  mret true.

(** What the parent of a completed child is told. *)
Definition childResult (parentInstance : ParentInstanceInfo)
    (completedAction : CompleteWorkflowAction) : HistoryEvent_EventType :=
  match co_WorkflowStatus completedAction with
  | COMPLETED =>
      HistoryEvent_ChildWorkflowInstanceCompleted
        (mkChildWorkflowInstanceCompletedEvent (pi_TaskScheduledId parentInstance)
           (co_Result completedAction))
  | status =>
      let failure :=
        match co_FailureDetails completedAction with
        | Some f => Some f
        | None => Some (mkTaskFailureDetails "ChildWorkflowFailed"
            ("child workflow ended with status " +:+ OrchestrationStatus_name status)
            None None false)
        end in
      HistoryEvent_ChildWorkflowInstanceFailed
        (mkChildWorkflowInstanceFailedEvent (pi_TaskScheduledId parentInstance) failure)
  end.

Definition completionRouter (parentInstance : ParentInstanceInfo) (router : TaskRouter)
    : TaskRouter :=
  match pi_AppID parentInstance with
  | Some app => mkTaskRouter (SourceAppID router) (Some app) (pi_AppNamespace parentInstance)
  | None => router
  end.

(** Any other completion: record it and notify the parent, if there is one. *)
Definition applyCompletion (id : Z) (router : TaskRouter)
    (completedAction : CompleteWorkflowAction) : A bool :=
  t ← readClock;
  addHistory (mkHistoryEvent id t (Some (HistoryEvent_ExecutionCompleted
    (mkExecutionCompletedEvent (co_WorkflowStatus completedAction) (co_Result completedAction)
       (co_FailureDetails completedAction)))) (Some router));;
  s ← gets as_state;
  match StartEvent s ≫= es_ParentInstance with
  | None => mret false
  | Some parentInstance =>
      t ← readClock;
      wi ← deref "nil WorkflowInstance" (pi_WorkflowInstance parentInstance);
      addPendingMessage (mkWorkflowRuntimeStateMessage
        (mkHistoryEvent (-1) t (Some (childResult parentInstance completedAction))
           (Some (completionRouter parentInstance router)))
        (wi_InstanceId wi) None);;
      mret false
  end.

Definition applyCompleteWorkflow (id : Z) (router : TaskRouter)
    (completedAction : CompleteWorkflowAction) : A bool :=
  s ← gets as_state;
  match CompletedEvent s with
  | Some _ => mret false
  | None =>
      match co_WorkflowStatus completedAction with
      | CONTINUED_AS_NEW => applyContinueAsNew router completedAction
      | _ => applyCompletion id router completedAction
      end
  end.

Definition applyCreateTimer (resolved : DedupSet) (id : Z) (router : TaskRouter)
    (timerAction : CreateTimerAction) : A bool :=
  t ← readClock;
  addHistory (mkHistoryEvent id t (Some (HistoryEvent_TimerCreated
    (mkTimerCreatedEvent (ta_FireAt timerAction) (ta_Name timerAction) (ta_Origin timerAction))))
    (Some router));;
  if Has (Some resolved) KindTimer id then mret false
  else
    t ← readClock;
    modState (fun s => set_PendingTimers (PendingTimers s ++
      [mkHistoryEvent (-1) t (Some (HistoryEvent_TimerFired
         (mkTimerFiredEvent (ta_FireAt timerAction) id))) None]) s);;
    mret false.

Definition applyScheduleTask (resolved : DedupSet) (id : Z) (router : TaskRouter)
    (scheduleTask : ScheduleTaskAction) : A bool :=
  t ← readClock;
  let scheduledEvent := mkHistoryEvent id t (Some (HistoryEvent_TaskScheduled
    (mkTaskScheduledEvent (sa_Name scheduleTask) (sa_Version scheduleTask)
       (sa_Input scheduleTask) currentTraceContext (sa_TaskExecutionId scheduleTask)
       (sa_HistoryPropagationScope scheduleTask)))) (Some router) in
  addHistory scheduledEvent;;
  if Has (Some resolved) KindTask id then mret false
  else
    modState (fun s => set_PendingTasks (PendingTasks s ++ [scheduledEvent]) s);;
    match default SCOPE_NONE (sa_HistoryPropagationScope scheduleTask) with
    | SCOPE_NONE => mret false
    | scope =>
        s ← gets as_state;
        ph ← liftErr "failed to assemble propagated history for activity"
               (AssembleProtoPropagatedHistory s scope receivedHistory (appID a));
        modResult (fun r => mkActionsResult (ar_ContinuedAsNew r)
          (<[id := ph]> (ar_OutgoingHistory r)) (ar_NewIncomingHistory r));;
        mret false
    end.

(** The id of a child: the requested one, or one derived from this execution. *)
Definition childInstanceId (s : WorkflowRuntimeState) (id : Z)
    (createSO : CreateChildWorkflowAction) : string :=
  if String.eqb (ca_InstanceId createSO) ""
  then GenerateChildWorkflowInstanceIDForExecution (InstanceId s)
         (GetValue (startExecutionId (StartEvent s))) id
  else ca_InstanceId createSO.

Definition applyCreateChildWorkflow (resolved : DedupSet) (id : Z) (router : TaskRouter)
    (createSO : CreateChildWorkflowAction) : A bool :=
  s ← gets as_state;
  let instanceId := childInstanceId s id createSO in
  t ← readClock;
  addHistory (mkHistoryEvent id t (Some (HistoryEvent_ChildWorkflowInstanceCreated
    (mkChildWorkflowInstanceCreatedEvent instanceId (ca_Name createSO) (ca_Version createSO)
       (ca_Input createSO) currentTraceContext (ca_HistoryPropagationScope createSO)
       (ca_RetryParentInstanceInfo createSO)))) (Some router));;
  if Has (Some resolved) KindChild id then mret false
  else
    s ← gets as_state;
    t ← readClock;
    parent ← deref "nil StartEvent" (parentInstanceInfo (namespace a) id router s);
    uuid ← drawUUID;
    let startEvent := mkHistoryEvent (-1) t (Some (HistoryEvent_ExecutionStarted
      (mkExecutionStartedEvent (ca_Name createSO) None (ca_Input createSO)
         (Some (mkWorkflowInstance instanceId (Some uuid))) (Some parent) None
         currentTraceContext None ∅))) (Some router) in
    ph ← match default SCOPE_NONE (ca_HistoryPropagationScope createSO) with
         | SCOPE_NONE => mret None
         | scope =>
             liftErr "failed to assemble propagated history for child workflow"
               (AssembleProtoPropagatedHistory s scope receivedHistory (appID a))
         end;
    addPendingMessage (mkWorkflowRuntimeStateMessage startEvent instanceId ph);;
    mret false.

(** The router of a detached workflow's start event: no reference back. *)
Definition spawnedRouter (router : TaskRouter) : option TaskRouter :=
  if negb (String.eqb (GetTargetAppID (Some router)) "") then
    Some (mkTaskRouter "" (Some (GetTargetAppID (Some router)))
      (if negb (String.eqb (GetTargetAppNamespace (Some router)) "")
       then Some (GetTargetAppNamespace (Some router)) else None))
  else None.

Definition applyCreateDetachedWorkflow (id : Z) (router : TaskRouter)
    (createDetached : CreateDetachedWorkflowAction) : A bool :=
  if String.eqb (da_InstanceId createDetached) ""
  then throw (errorNew "CreateDetachedWorkflowAction requires an instance ID")
  else
    t ← readClock;
    addHistory (mkHistoryEvent id t (Some (HistoryEvent_DetachedWorkflowInstanceCreated
      (mkDetachedWorkflowInstanceCreatedEvent (da_InstanceId createDetached)))) (Some router));;
    executionID ← (if String.eqb (GetValue (da_ExecutionId createDetached)) ""
                   then u ← drawUUID; mret (Some u)
                   else mret (da_ExecutionId createDetached));
    let traceContext := match da_ParentTraceContext createDetached with
                        | Some tc => Some tc
                        | None => currentTraceContext
                        end in
    t ← readClock;
    addPendingMessage (mkWorkflowRuntimeStateMessage
      (mkHistoryEvent (-1) t (Some (HistoryEvent_ExecutionStarted
        (mkExecutionStartedEvent (da_Name createDetached) None (da_Input createDetached)
           (Some (mkWorkflowInstance (da_InstanceId createDetached) executionID)) None
           (da_ScheduledStartTimestamp createDetached) traceContext None
           (da_Tags createDetached)))) (spawnedRouter router))
      (da_InstanceId createDetached) None);;
    mret false.

Definition applySendEvent (id : Z) (router : TaskRouter) (sendEvent : SendEventAction) : A bool :=
  t ← readClock;
  target ← deref "nil Instance" (se_Instance sendEvent);
  let e := mkHistoryEvent id t (Some (HistoryEvent_EventSent
    (mkEventSentEvent (wi_InstanceId target) (se_Name sendEvent) (se_Data sendEvent))))
    (Some router) in
  addHistory e;;
  addPendingMessage (mkWorkflowRuntimeStateMessage e (wi_InstanceId target) None);;
  mret false.

Definition applyTerminateWorkflow (router : TaskRouter) (terminate : TerminateWorkflowAction)
    : A bool :=
  t ← readClock;
  addPendingMessage (mkWorkflowRuntimeStateMessage
    (mkHistoryEvent (-1) t (Some (HistoryEvent_ExecutionTerminated
       (mkExecutionTerminatedEvent (tw_Reason terminate) (tw_Recurse terminate)))) (Some router))
    (tw_InstanceId terminate) None);;
  mret false.

(** The version recorded by the first WorkflowStarted event of the old log. *)
Fixpoint startedVersionName (events : list HistoryEvent) : string :=
  match events with
  | [] => ""
  | e :: rest => match GetWorkflowStarted e with
                 | Some ws => GetValue (ws_Version ws ≫= wv_Name)
                 | None => startedVersionName rest
                 end
  end.

Definition applyVersionNotAvailable (router : TaskRouter) : A bool :=
  s ← gets as_state;
  t ← readClock;
  addPendingMessage (mkWorkflowRuntimeStateMessage
    (mkHistoryEvent (-1) t (Some (HistoryEvent_ExecutionStalled
       (mkExecutionStalledEvent VERSION_NOT_AVAILABLE
          (Some ("Version not available: " +:+ startedVersionName (OldEvents s))))))
       (Some router)) "" None);;
  mret false.

(** One iteration of the loop; [true] leaves the function early. *)
Definition applyAction (resolved : DedupSet) (action : WorkflowAction) : A bool :=
  let router := stampRouter a action in
  let id := wa_Id action in
  match wa_Type action with
  | Some (WorkflowAction_CompleteWorkflow x) => applyCompleteWorkflow id router x
  | Some (WorkflowAction_CreateTimer x) => applyCreateTimer resolved id router x
  | Some (WorkflowAction_ScheduleTask x) => applyScheduleTask resolved id router x
  | Some (WorkflowAction_CreateChildWorkflow x) => applyCreateChildWorkflow resolved id router x
  | Some (WorkflowAction_CreateDetachedWorkflow x) => applyCreateDetachedWorkflow id router x
  | Some (WorkflowAction_SendEvent x) => applySendEvent id router x
  | Some (WorkflowAction_TerminateWorkflow x) => applyTerminateWorkflow router x
  | Some WorkflowAction_WorkflowVersionNotAvailable => applyVersionNotAvailable router
  | None => throw (errorNew "unknown action type")
  end.

Fixpoint applyLoop (resolved : DedupSet) (actions : list WorkflowAction) : A unit :=
  match actions with
  | [] => mret tt
  | action :: rest =>
      stop ← applyAction resolved action;
      if stop : bool then mret tt else applyLoop resolved rest
  end.

(** [Actions]: the final state, world and result, and the error or panic. *)
Definition Actions (s : WorkflowRuntimeState) (w : World) (actions : list WorkflowAction)
    : ApplySt * outcome error unit :=
  let s := set_Stalled None (set_CustomStatus customStatus s) in
  let resolved := NewForState s in
  applyLoop resolved actions (mkApplySt s w emptyResult).

End Apply.

(** ** Specification: the decision as a list of effects

    What a batch of actions means, without clocks, ids of the world, or the
    runtime state's representation. *)

Inductive Dispatch :=
| DStart (target name : string) (input : option string)
    (parent : option (string * option string * Z))
| DRaise (target name : string) (data : option string)
| DTerminate (target : string) (recurse : bool)
| DStall
| DChildDone (target : string) (taskId : Z) (result : option string)
| DChildFailed (target : string) (taskId : Z) (failure : option TaskFailureDetails)
| DOther.

Definition absMsg (m : WorkflowRuntimeStateMessage) : Dispatch :=
  let target := msg_TargetInstanceId m in
  match EventType (msg_HistoryEvent m) with
  | Some (HistoryEvent_ExecutionStarted x) =>
      DStart target (es_Name x) (es_Input x)
        (p ← es_ParentInstance x; wi ← pi_WorkflowInstance p;
         Some (wi_InstanceId wi, wi_ExecutionId wi, pi_TaskScheduledId p))
  | Some (HistoryEvent_EventSent x) => DRaise target (ev_Name x) (ev_Input x)
  | Some (HistoryEvent_ExecutionTerminated x) => DTerminate target (et_Recurse x)
  | Some (HistoryEvent_ExecutionStalled _) => DStall
  | Some (HistoryEvent_ChildWorkflowInstanceCompleted x) =>
      DChildDone target (cc_TaskScheduledId x) (cc_Result x)
  | Some (HistoryEvent_ChildWorkflowInstanceFailed x) =>
      DChildFailed target (cf_TaskScheduledId x) (cf_FailureDetails x)
  | _ => DOther
  end.

(** What a turn leaves behind: the ids of the recorded events, the activities
    and timers to dispatch, and the messages to send, each in order. *)
Record Outbox := mkOutbox {
  ob_recorded : list Z;
  ob_tasks : list (Z * string * option string);
  ob_timers : list (Z * option Z);
  ob_msgs : list Dispatch
}.

Definition ob_empty : Outbox := mkOutbox [] [] [] [].

Definition ob_app (x y : Outbox) : Outbox :=
  mkOutbox (ob_recorded x ++ ob_recorded y) (ob_tasks x ++ ob_tasks y)
    (ob_timers x ++ ob_timers y) (ob_msgs x ++ ob_msgs y).

Definition absTask (e : HistoryEvent) : Z * string * option string :=
  match GetTaskScheduled e with
  | Some x => (EventId e, ts_Name x, ts_Input x)
  | None => (EventId e, "", None)
  end.

Definition absTimer (e : HistoryEvent) : Z * option Z :=
  match GetTimerFired e with
  | Some x => (tfd_TimerId x, tfd_FireAt x)
  | None => (EventId e, None)
  end.

Definition outboxOf (s : WorkflowRuntimeState) : Outbox :=
  mkOutbox (map EventId (NewEvents s)) (map absTask (PendingTasks s))
    (map absTimer (PendingTimers s)) (map absMsg (PendingMessages s)).

(** The parent is told once, with its own task id. *)
Definition notifyParent (s : WorkflowRuntimeState) (x : CompleteWorkflowAction) : list Dispatch :=
  match StartEvent s ≫= es_ParentInstance with
  | None => []
  | Some p =>
      let target := match pi_WorkflowInstance p with
                    | Some wi => wi_InstanceId wi | None => "" end in
      [match co_WorkflowStatus x with
       | COMPLETED => DChildDone target (pi_TaskScheduledId p) (co_Result x)
       | status => DChildFailed target (pi_TaskScheduledId p)
           (Some (default (mkTaskFailureDetails "ChildWorkflowFailed"
              ("child workflow ended with status " +:+ OrchestrationStatus_name status)
              None None false) (co_FailureDetails x)))
       end]
  end.

(** The effect of one action; [done] says a completion was applied already. *)
Definition effect (s : WorkflowRuntimeState) (done : bool) (act : WorkflowAction) : Outbox :=
  let id := wa_Id act in
  match wa_Type act with
  | Some (WorkflowAction_CompleteWorkflow x) =>
      if done then ob_empty else mkOutbox [id] [] [] (notifyParent s x)
  | Some (WorkflowAction_CreateTimer x) =>
      mkOutbox [id] [] (if IsPresent (history s) KindTimer id then []
                        else [(id, ta_FireAt x)]) []
  | Some (WorkflowAction_ScheduleTask x) =>
      mkOutbox [id] (if IsPresent (history s) KindTask id then []
                     else [(id, sa_Name x, sa_Input x)]) [] []
  | Some (WorkflowAction_CreateChildWorkflow x) =>
      mkOutbox [id] [] [] (if IsPresent (history s) KindChild id then []
        else [DStart (childInstanceId s id x) (ca_Name x) (ca_Input x)
                (Some (InstanceId s, startExecutionId (StartEvent s), id))])
  | Some (WorkflowAction_CreateDetachedWorkflow x) =>
      mkOutbox [id] [] [] [DStart (da_InstanceId x) (da_Name x) (da_Input x) None]
  | Some (WorkflowAction_SendEvent x) =>
      let target := match se_Instance x with Some wi => wi_InstanceId wi | None => "" end in
      mkOutbox [id] [] [] [DRaise target (se_Name x) (se_Data x)]
  | Some (WorkflowAction_TerminateWorkflow x) =>
      mkOutbox [] [] [] [DTerminate (tw_InstanceId x) (tw_Recurse x)]
  | Some WorkflowAction_WorkflowVersionNotAvailable => mkOutbox [] [] [] [DStall]
  | None => ob_empty
  end.

Definition completes (act : WorkflowAction) : bool :=
  match GetCompleteWorkflow act with Some _ => true | None => false end.

Fixpoint effects (s : WorkflowRuntimeState) (done : bool) (acts : list WorkflowAction) : Outbox :=
  match acts with
  | [] => ob_empty
  | act :: rest => ob_app (effect s done act) (effects s (done || completes act) rest)
  end.

(** The completion that counts: the one already there, else the first. *)
Definition firstCompletion (c : option ExecutionCompletedEvent) (acts : list WorkflowAction)
    : option ExecutionCompletedEvent :=
  match c with
  | Some x => Some x
  | None => (fun x => mkExecutionCompletedEvent (co_WorkflowStatus x) (co_Result x)
                        (co_FailureDetails x)) <$> head (omap GetCompleteWorkflow acts)
  end.

(** ** Lemmas *)

Lemma ob_app_empty_r x : ob_app x ob_empty = x.
Proof. destruct x. unfold ob_app. simpl. by rewrite !app_nil_r. Qed.

Lemma ob_app_assoc x y z : ob_app x (ob_app y z) = ob_app (ob_app x y) z.
Proof. unfold ob_app. simpl. by rewrite !app_assoc. Qed.

(** What one iteration that does not end the turn guarantees. *)
Record stepped (s0 s s' : WorkflowRuntimeState) (act : WorkflowAction) : Prop := {
  sp_id : InstanceId s' = InstanceId s;
  sp_start : StartEvent s' = StartEvent s;
  sp_old : OldEvents s' = OldEvents s;
  sp_status : CustomStatus s' = CustomStatus s;
  sp_can : ContinuedAsNew s' = ContinuedAsNew s;
  sp_completed : CompletedEvent s' = firstCompletion (CompletedEvent s) [act];
  sp_outbox : outboxOf s' = ob_app (outboxOf s) (effect s0 (IsCompleted s) act)
}.

Lemma liftErr_Ok {X} msg (r : X + error) st st' x :
  liftErr msg r st = (st', Ok x) -> st' = st /\ r = inl x.
Proof. destruct r; intros [= -> ->]; auto. Qed.

#[local] Arguments liftErr : simpl never.
#[local] Arguments deref : simpl never.
#[local] Arguments Has : simpl never.
#[local] Arguments AssembleProtoPropagatedHistory : simpl never.
#[local] Arguments parentInstanceInfo : simpl never.
#[local] Arguments childInstanceId : simpl never.
#[local] Arguments childResult : simpl never.
#[local] Arguments completionRouter : simpl never.

(** Run an action: unfold the monad and evaluate. *)
Ltac run H :=
  unfold mbind, mret, M_bind, M_ret, gets, modify, throw, panic, readClock,
    drawUUID, addHistory, addPendingMessage, modState, modResult, newUUID, now in H;
  cbn in H.

Ltac run_goal :=
  unfold mbind, mret, M_bind, M_ret, gets, modify, throw, panic, readClock,
    drawUUID, addHistory, addPendingMessage, modState, modResult, newUUID, now; cbn.

Ltac run_cases :=
  repeat (case_match; simplify_eq/=);
  repeat match goal with
  | H : liftErr _ _ _ = (_, Ok _) |- _ => apply liftErr_Ok in H as [-> ?]
  | H : deref _ _ _ = (_, Ok _) |- _ => apply deref_Ok in H as [-> ?]
  end; simplify_eq/=.

(** One iteration, [false] as its result, from a state whose fixed part is [s0]'s. *)
Definition step_ok (s0 : WorkflowRuntimeState) (act : WorkflowAction) (st st' : ApplySt) : Prop :=
  stepped s0 (as_state st) (as_state st') act /\
  ar_ContinuedAsNew (as_result st') = ar_ContinuedAsNew (as_result st).

(** Close [step_ok] for an action of the given kind. *)
Ltac stepped_done Ht P :=
  split; [reflexivity |]; unfold step_ok; split; [split; cbn; try reflexivity | reflexivity];
  unfold firstCompletion, outboxOf, ob_app, effect, GetCompleteWorkflow; cbn; rewrite Ht, ?P; cbn;
  rewrite ?map_app, ?app_nil_r; cbn; try reflexivity; try (by case_match).

Section Runs.
Context `{HC : ProtoCodec}.
Variable a : Applier.
Variable customStatus : option string.
Variable tc : option TraceContext.
Variable rh : option PropagatedHistory.

Lemma applyScheduleTask_ok s0 resolved act router x st st' b :
  wa_Type act = Some (WorkflowAction_ScheduleTask x) ->
  Has (Some resolved) KindTask (wa_Id act) = IsPresent (history s0) KindTask (wa_Id act) ->
  applyScheduleTask a tc rh resolved (wa_Id act) router x st = (st', Ok b) ->
  b = false /\ step_ok s0 act st st'.
Proof.
  intros Ht Hr H. unfold applyScheduleTask in H. run H. rewrite Hr in H.
  destruct (IsPresent (history s0) KindTask (wa_Id act)) eqn:P; run_cases.
  all: stepped_done Ht P.
Qed.

Lemma applyCreateTimer_ok s0 resolved act router x st st' b :
  wa_Type act = Some (WorkflowAction_CreateTimer x) ->
  Has (Some resolved) KindTimer (wa_Id act) = IsPresent (history s0) KindTimer (wa_Id act) ->
  applyCreateTimer resolved (wa_Id act) router x st = (st', Ok b) ->
  b = false /\ step_ok s0 act st st'.
Proof.
  intros Ht Hr H. unfold applyCreateTimer in H. run H. rewrite Hr in H.
  destruct (IsPresent (history s0) KindTimer (wa_Id act)) eqn:P; run_cases.
  all: stepped_done Ht P.
Qed.

(** The fixed part of the state: identity and start event. *)
Definition same_origin (s0 s : WorkflowRuntimeState) : Prop :=
  InstanceId s = InstanceId s0 /\ StartEvent s = StartEvent s0.

Lemma childInstanceId_origin s0 s id x :
  same_origin s0 s -> childInstanceId s id x = childInstanceId s0 id x.
Proof. intros [H1 H2]. unfold childInstanceId. by rewrite H1, H2. Qed.

Lemma parentInstanceInfo_Some ns id router s p :
  parentInstanceInfo ns id router s = Some p ->
  pi_WorkflowInstance p = Some (mkWorkflowInstance (InstanceId s) (startExecutionId (StartEvent s)))
  /\ pi_TaskScheduledId p = id.
Proof. unfold parentInstanceInfo. destruct (StartEvent s); intros [= <-]. done. Qed.

Lemma applyCreateChildWorkflow_ok s0 resolved act router x st st' b :
  wa_Type act = Some (WorkflowAction_CreateChildWorkflow x) ->
  same_origin s0 (as_state st) ->
  Has (Some resolved) KindChild (wa_Id act) = IsPresent (history s0) KindChild (wa_Id act) ->
  applyCreateChildWorkflow a tc rh resolved (wa_Id act) router x st = (st', Ok b) ->
  b = false /\ step_ok s0 act st st'.
Proof.
  intros Ht Ho Hr H. unfold applyCreateChildWorkflow in H. run H. rewrite Hr in H.
  rewrite (childInstanceId_origin s0 _ _ _ Ho) in H.
  destruct (IsPresent (history s0) KindChild (wa_Id act)) eqn:P; run_cases.
  all: stepped_done Ht P.
  all: destruct Ho as [Hi Hs].
  all: match goal with Hp : parentInstanceInfo _ _ _ _ = Some _ |- _ =>
         apply parentInstanceInfo_Some in Hp as [E1 E2] end.
  all: cbn in E1; rewrite E1, E2; cbn; by rewrite Hi, Hs.
Qed.

Lemma applyCreateDetachedWorkflow_ok s0 act router x st st' b :
  wa_Type act = Some (WorkflowAction_CreateDetachedWorkflow x) ->
  applyCreateDetachedWorkflow tc (wa_Id act) router x st = (st', Ok b) ->
  b = false /\ step_ok s0 act st st'.
Proof.
  intros Ht H. unfold applyCreateDetachedWorkflow in H. run H.
  destruct (String.eqb (da_InstanceId x) "") eqn:P; run_cases.
  all: stepped_done Ht P.
Qed.

Lemma applySendEvent_ok s0 act router x st st' b :
  wa_Type act = Some (WorkflowAction_SendEvent x) ->
  applySendEvent (wa_Id act) router x st = (st', Ok b) ->
  b = false /\ step_ok s0 act st st'.
Proof.
  intros Ht H. unfold applySendEvent in H. run H. run_cases.
  all: stepped_done Ht H.
Qed.

Lemma applyTerminateWorkflow_ok s0 act router x st st' b :
  wa_Type act = Some (WorkflowAction_TerminateWorkflow x) ->
  applyTerminateWorkflow router x st = (st', Ok b) ->
  b = false /\ step_ok s0 act st st'.
Proof.
  intros Ht H. unfold applyTerminateWorkflow in H. run H. run_cases. stepped_done Ht H.
Qed.

Lemma applyVersionNotAvailable_ok s0 act router st st' b :
  wa_Type act = Some WorkflowAction_WorkflowVersionNotAvailable ->
  applyVersionNotAvailable router st = (st', Ok b) ->
  b = false /\ step_ok s0 act st st'.
Proof.
  intros Ht H. unfold applyVersionNotAvailable in H. run H. run_cases. stepped_done Ht H.
Qed.

Lemma applyCompletion_ok s0 act router x st st' b :
  wa_Type act = Some (WorkflowAction_CompleteWorkflow x) ->
  same_origin s0 (as_state st) -> CompletedEvent (as_state st) = None ->
  applyCompletion (wa_Id act) router x st = (st', Ok b) ->
  b = false /\ step_ok s0 act st st'.
Proof.
  intros Ht [Hi Hs] Hc H. unfold applyCompletion in H. run H.
  rewrite AddEvent_eq in H. unfold admissible in H. cbn in H. rewrite Hc in H. cbn in H.
  rewrite Hs in H. change (option_bind _ _ es_ParentInstance (StartEvent s0))
    with (StartEvent s0 ≫= es_ParentInstance) in H.
  destruct (StartEvent s0 ≫= es_ParentInstance) as [p|] eqn:P; run_cases.
  all: stepped_done Ht P; unfold IsCompleted; rewrite Hc; cbn; unfold notifyParent;
    rewrite P; cbn; rewrite ?app_nil_r; try done.
  unfold absMsg, childResult. cbn.
  match goal with Hp : pi_WorkflowInstance _ = Some _ |- _ => rewrite Hp end.
  by destruct (co_WorkflowStatus x), (co_FailureDetails x).
Qed.

Lemma applyContinueAsNew_true router x st st' b :
  applyContinueAsNew a customStatus rh router x st = (st', Ok b) ->
  b = true /\ ar_ContinuedAsNew (as_result st') = true.
Proof.
  intros H. unfold applyContinueAsNew, replaceWorkflowRuntimeState, NewRootTraceContext in H.
  run H. run_cases; done.
Qed.

(** One iteration: it either ends the turn by continuing as new, or is a step. *)
Lemma applyAction_ok s0 resolved act st st' b :
  same_origin s0 (as_state st) ->
  (forall k, Has (Some resolved) k (wa_Id act) = IsPresent (history s0) k (wa_Id act)) ->
  applyAction a customStatus tc rh resolved act st = (st', Ok b) ->
  if b then ar_ContinuedAsNew (as_result st') = true else step_ok s0 act st st'.
Proof.
  intros Ho Hr H. unfold applyAction in H.
  destruct (wa_Type act) as [[]|] eqn:Ht; [.. | discriminate].
  - by apply (applyScheduleTask_ok s0) in H as [-> ?].
  - by apply (applyCreateChildWorkflow_ok s0) in H as [-> ?].
  - by apply (applyCreateTimer_ok s0) in H as [-> ?].
  - by apply (applySendEvent_ok s0) in H as [-> ?].
  - unfold applyCompleteWorkflow, mbind, M_bind, gets in H.
    destruct (CompletedEvent (as_state st)) eqn:Hc.
    + unfold mret, M_ret in H. injection H as <- <-. unfold step_ok. split; [| done]. split; try done.
      * by rewrite Hc.
      * unfold effect, IsCompleted. by rewrite Ht, Hc, ob_app_empty_r.
    + destruct (co_WorkflowStatus x) eqn:Hw;
        try (by apply (applyCompletion_ok s0) in H as [-> ?]).
      by apply applyContinueAsNew_true in H as [-> ?].
  - by apply (applyTerminateWorkflow_ok s0 act) in H as [-> ?].
  - by apply (applyVersionNotAvailable_ok s0 act) in H as [-> ?].
  - by apply (applyCreateDetachedWorkflow_ok s0) in H as [-> ?].
Qed.

(** The effect of an action reads only the log, the identity and the start event. *)
Lemma firstCompletion_cons c act rest :
  firstCompletion c (act :: rest) = firstCompletion (firstCompletion c [act]) rest.
Proof.
  unfold firstCompletion. destruct c; [done |]. cbn.
  by destruct (GetCompleteWorkflow act).
Qed.

Lemma firstCompletion_completes c act :
  (if firstCompletion c [act] is Some _ then true else false)
  = ((if c is Some _ then true else false) || completes act).
Proof.
  unfold firstCompletion, completes. destruct c; [done |]. cbn.
  by destruct (GetCompleteWorkflow act).
Qed.

(** The whole loop, when it does not continue as new. *)
Lemma applyLoop_ok s0 resolved acts st st' :
  same_origin s0 (as_state st) ->
  Forall (fun act => forall k,
    Has (Some resolved) k (wa_Id act) = IsPresent (history s0) k (wa_Id act)) acts ->
  applyLoop a customStatus tc rh resolved acts st = (st', Ok tt) ->
  ar_ContinuedAsNew (as_result st') = false ->
  let s := as_state st in let s' := as_state st' in
  same_origin s0 s' /\ OldEvents s' = OldEvents s /\ CustomStatus s' = CustomStatus s /\
  CompletedEvent s' = firstCompletion (CompletedEvent s) acts /\
  outboxOf s' = ob_app (outboxOf s) (effects s0 (IsCompleted s) acts).
Proof.
  intros Ho Hr. revert st Ho. induction Hr as [|act rest Hact Hr IH]; intros st Ho H Hcan.
  - injection H as <-. cbn. rewrite ob_app_empty_r. split_and!; try done.
    by destruct (CompletedEvent (as_state st)).
  - cbn [applyLoop] in H. unfold mbind, M_bind in H.
    destruct (applyAction _ _ _ _ _ _ st) as [st1 [[]| |]] eqn:E; try discriminate.
    + apply (applyAction_ok s0) in E; [| done..]. injection H as <-. congruence.
    + apply (applyAction_ok s0) in E as [[H1 H2 H3 H4 H5 H6 H7] H8]; [| done..].
      assert (same_origin s0 (as_state st1)) as Ho1.
      { destruct Ho as [Ho1 Ho2]. split; congruence. }
      destruct (IH st1 Ho1 H Hcan) as (I1 & I2 & I3 & I4 & I5).
      split_and!; [done | congruence | congruence | |].
      * by rewrite firstCompletion_cons, <- H6.
      * rewrite I5, H7, <- ob_app_assoc. cbn. do 3 f_equal.
        unfold IsCompleted. rewrite H6. apply firstCompletion_completes.
Qed.
End Runs.

(** ** The log invariant *)

Lemma hist_inv_ext s s' :
  history s' = history s -> StartEvent s' = StartEvent s -> CreatedTime s' = CreatedTime s ->
  CompletedEvent s' = CompletedEvent s -> CompletedTime s' = CompletedTime s ->
  IsSuspended s' = IsSuspended s -> hist_inv s -> hist_inv s'.
Proof. intros H1 H2 H3 H4 H5 H6 []. split; rewrite H1, ?H2, ?H3, ?H4, ?H5, ?H6; done. Qed.

(** What a property of the runtime state has to satisfy to survive a pass of
    actions: it does not depend on the outbox and the status fields, events may be
    added, and every fresh generation has it. *)
Class LogProperty (P : WorkflowRuntimeState -> Prop) : Prop := {
  lp_ext s s' :
    OldEvents s' = OldEvents s -> NewEvents s' = NewEvents s -> StartEvent s' = StartEvent s ->
    CreatedTime s' = CreatedTime s -> CompletedEvent s' = CompletedEvent s ->
    CompletedTime s' = CompletedTime s -> IsSuspended s' = IsSuspended s ->
    ContinuedAsNew s' = ContinuedAsNew s -> P s -> P s';
  lp_add s e : P s -> P (AddEvent s e).1;
  lp_fresh cs s es input router t1 t2 u trace carry :
    P (newGeneration cs s es input router t1 t2 u trace carry)
}.

(** A computation keeps a property of the runtime state, however it ends. *)
Definition keeps {X} (P : WorkflowRuntimeState -> Prop) (m : A X) : Prop :=
  forall st, P (as_state st) -> P (as_state (m st).1).

Section Keeps.
Context (P : WorkflowRuntimeState -> Prop).

Lemma keeps_pure {X} (m : A X) :
  (forall st, as_state (m st).1 = as_state st) -> keeps P m.
Proof. intros H st Hs. by rewrite H. Qed.

Lemma keeps_ret {X} (x : X) : keeps P (mret x).
Proof. by apply keeps_pure. Qed.

Lemma keeps_bind {X Y} (m : A X) (k : X -> A Y) :
  keeps P m -> (forall x, keeps P (k x)) -> keeps P (mbind k m).
Proof.
  intros Hm Hk st Hs. unfold mbind, M_bind. specialize (Hm st Hs).
  destruct (m st) as [st1 [x | e | p]]; [by apply Hk | done | done].
Qed.

Lemma keeps_mod f : (forall s, P s -> P (f s)) -> keeps P (modState f).
Proof. intros Hf st Hs. by apply Hf. Qed.

Lemma keeps_liftErr {X} msg (r : X + error) : keeps P (liftErr msg r).
Proof. apply keeps_pure. by destruct r. Qed.

Lemma keeps_deref {X} what (p : option X) : keeps P (deref what p).
Proof. apply keeps_pure. by destruct p. Qed.
End Keeps.

Create HintDb keeps.
#[local] Hint Resolve keeps_ret keeps_liftErr keeps_deref : keeps.
#[local] Hint Extern 1 (keeps _ (mbind _ _)) => apply keeps_bind; [| intros ?] : keeps.
#[local] Hint Extern 2 (keeps _ readClock) => apply keeps_pure; reflexivity : keeps.
#[local] Hint Extern 2 (keeps _ drawUUID) => apply keeps_pure; reflexivity : keeps.
#[local] Hint Extern 2 (keeps _ NewRootTraceContext) => apply keeps_pure; reflexivity : keeps.
#[local] Hint Extern 2 (keeps _ (gets _)) => apply keeps_pure; reflexivity : keeps.
#[local] Hint Extern 2 (keeps _ (modResult _)) => apply keeps_pure; reflexivity : keeps.
#[local] Hint Extern 2 (keeps _ (throw _)) => apply keeps_pure; reflexivity : keeps.
#[local] Hint Extern 2 (keeps _ (addHistory _)) =>
  apply keeps_mod; intros; apply lp_add; assumption : keeps.
#[local] Hint Extern 2 (keeps _ (addPendingMessage _)) =>
  apply keeps_mod; intros ?; apply lp_ext; reflexivity : keeps.
#[local] Hint Extern 3 (keeps _ (modState _)) =>
  apply keeps_mod; intros ?; apply lp_ext; reflexivity : keeps.
#[local] Hint Extern 4 (keeps _ (match ?x with _ => _ end)) => destruct x : keeps.
#[local] Hint Extern 4 (keeps _ (if ?x then _ else _)) => destruct x : keeps.

Lemma foldl_AddEvent s events : foldl (fun st e => (AddEvent st e).1) s events = (addEach s events).1.
Proof.
  revert s. induction events as [|e rest IH]; intros s; [done |]. simpl.
  rewrite IH. destruct (AddEvent s e) as [s1 err]. simpl. by destruct (addEach s1 rest).
Qed.

Lemma newGeneration_inv cs s es input router t1 t2 u trace carry :
  let s' := newGeneration cs s es input router t1 t2 u trace carry in
  hist_inv s' /\ tail_inv s'.
Proof.
  cbv zeta. unfold newGeneration. rewrite foldl_AddEvent.
  split; [apply addEach_hist_inv | apply addEach_tail_inv]; split; try reflexivity.
  apply NoDup_nil_2.
Qed.

#[global] Instance hist_inv_log : LogProperty hist_inv.
Proof.
  split.
  - intros s s' H1 H2 H3 H4 H5 H6 H7 _. apply hist_inv_ext; try done.
    unfold history. congruence.
  - intros s e. apply AddEvent_hist_inv.
  - intros. apply newGeneration_inv.
Qed.

Section LoopInv.
Context (P : WorkflowRuntimeState -> Prop) `{HP : !LogProperty P}.
Context `{HC : ProtoCodec}.
Variable a : Applier.
Variable customStatus : option string.
Variable tc : option TraceContext.
Variable rh : option PropagatedHistory.

Lemma applyContinueAsNew_keeps router x :
  keeps P (applyContinueAsNew a customStatus rh router x).
Proof.
  unfold applyContinueAsNew. auto 9 with keeps.
  repeat (apply keeps_bind; [auto 9 with keeps | intros ?]); auto with keeps.
  apply keeps_mod. intros s _. eapply lp_ext; [.. | apply lp_fresh]; reflexivity.
Qed.

Lemma applyLoop_keeps resolved acts :
  keeps P (applyLoop a customStatus tc rh resolved acts).
Proof.
  induction acts as [|act rest IH]; cbn [applyLoop]; [apply keeps_ret |].
  apply keeps_bind; [| intros []; auto with keeps].
  unfold applyAction. destruct (wa_Type act) as [[]|]; [.. | auto with keeps].
  - unfold applyScheduleTask. auto 12 with keeps.
  - unfold applyCreateChildWorkflow. auto 14 with keeps.
  - unfold applyCreateTimer. auto 12 with keeps.
  - unfold applySendEvent. auto 12 with keeps.
  - unfold applyCompleteWorkflow. apply keeps_bind; [auto with keeps | intros s].
    destruct (CompletedEvent s); [auto with keeps |].
    destruct (co_WorkflowStatus x); try apply applyContinueAsNew_keeps.
    all: unfold applyCompletion; auto 14 with keeps.
  - unfold applyTerminateWorkflow. auto 12 with keeps.
  - unfold applyVersionNotAvailable. auto 12 with keeps.
  - unfold applyCreateDetachedWorkflow. auto 14 with keeps.
Qed.

Lemma Actions_keeps s w acts : P s -> P (as_state (Actions a customStatus tc rh s w acts).1).
Proof.
  intros Hi. unfold Actions. apply applyLoop_keeps. cbn. by eapply lp_ext; [.. | exact Hi].
Qed.
End LoopInv.

(** ** Growth

    Without a continue-as-new completion a turn only appends to the log,
    whatever its outcome. *)

Definition grows (st st' : ApplySt) : Prop :=
  OldEvents (as_state st') = OldEvents (as_state st) /\
  (exists l, NewEvents (as_state st') = NewEvents (as_state st) ++ l) /\
  ar_ContinuedAsNew (as_result st') = ar_ContinuedAsNew (as_result st).

Definition growing {X} (m : A X) : Prop := forall st, grows st (m st).1.

Lemma grows_refl st : grows st st.
Proof. split_and!; [done | by exists []; rewrite app_nil_r | done]. Qed.

Lemma grows_trans st1 st2 st3 : grows st1 st2 -> grows st2 st3 -> grows st1 st3.
Proof.
  intros (H1 & [l1 H2] & H3) (K1 & [l2 K2] & K3).
  split_and!; [congruence | | congruence]. exists (l1 ++ l2). by rewrite K2, H2, app_assoc.
Qed.

Lemma growing_bind {X Y} (m : A X) (k : X -> A Y) :
  growing m -> (forall x, growing (k x)) -> growing (mbind k m).
Proof.
  intros Hm Hk st. unfold mbind, M_bind. specialize (Hm st).
  destruct (m st) as [st1 [x | e | q]]; [| done | done].
  eapply grows_trans; [exact Hm | apply Hk].
Qed.

Lemma growing_same {X} (m : A X) :
  (forall st, as_state (m st).1 = as_state st) ->
  (forall st, ar_ContinuedAsNew (as_result (m st).1) = ar_ContinuedAsNew (as_result st)) ->
  growing m.
Proof.
  intros H1 H2 st. unfold grows. rewrite H1, H2.
  split_and!; [done | by exists []; rewrite app_nil_r | done].
Qed.

Lemma growing_addHistory e : growing (addHistory e).
Proof.
  intros st. unfold addHistory, modState, modify, grows. cbn [fst as_state as_result].
  rewrite AddEvent_eq. destruct (admissible _ e); cbn [fst]; [| apply grows_refl].
  destruct (appendAccepted_new (as_state st) e) as [-> ->]. eauto.
Qed.

Create HintDb growing.
#[local] Hint Resolve growing_addHistory : growing.
#[local] Hint Extern 1 (growing (mbind _ _)) => apply growing_bind; [| intros ?] : growing.
#[local] Hint Extern 2 (growing (liftErr _ ?r)) =>
  destruct r; apply growing_same; reflexivity : growing.
#[local] Hint Extern 2 (growing (deref _ ?q)) =>
  destruct q; apply growing_same; reflexivity : growing.
#[local] Hint Extern 4 (growing (match ?x with _ => _ end)) => destruct x : growing.
#[local] Hint Extern 4 (growing (if ?x then _ else _)) => destruct x : growing.
#[local] Hint Extern 5 (growing _) => apply growing_same; reflexivity : growing.
#[local] Hint Extern 6 (growing (modState _)) =>
  intros ?; split_and!; [reflexivity | exists []; symmetry; apply app_nil_r | reflexivity] : growing.
#[local] Hint Extern 6 (growing (addPendingMessage _)) =>
  intros ?; split_and!; [reflexivity | exists []; symmetry; apply app_nil_r | reflexivity] : growing.

Definition continuesAsNew (act : WorkflowAction) : bool :=
  match GetCompleteWorkflow act with
  | Some c => bool_decide (co_WorkflowStatus c = CONTINUED_AS_NEW)
  | None => false
  end.

Section Growth.
Context `{HC : ProtoCodec}.
Variable a : Applier.
Variable customStatus : option string.
Variable tc : option TraceContext.
Variable rh : option PropagatedHistory.

Lemma applyAction_growing resolved act :
  continuesAsNew act = false -> growing (applyAction a customStatus tc rh resolved act).
Proof.
  intros Hn. unfold applyAction, continuesAsNew, GetCompleteWorkflow in *.
  destruct (wa_Type act) as [[]|]; [.. | auto with growing].
  - unfold applyScheduleTask. auto 12 with growing.
  - unfold applyCreateChildWorkflow. auto 14 with growing.
  - unfold applyCreateTimer. auto 12 with growing.
  - unfold applySendEvent. auto 12 with growing.
  - unfold applyCompleteWorkflow. apply growing_bind; [auto with growing | intros s].
    destruct (CompletedEvent s); [auto with growing |].
    apply bool_decide_eq_false in Hn.
    destruct (co_WorkflowStatus x); try done; unfold applyCompletion; auto 14 with growing.
  - unfold applyTerminateWorkflow. auto 12 with growing.
  - unfold applyVersionNotAvailable. auto 12 with growing.
  - unfold applyCreateDetachedWorkflow. auto 14 with growing.
Qed.

Lemma Actions_grow s w acts :
  Forall (fun act => continuesAsNew act = false) acts ->
  grows (mkApplySt s w emptyResult) (Actions a customStatus tc rh s w acts).1.
Proof.
  intros HF. unfold Actions.
  match goal with |- context [applyLoop _ _ _ _ ?r _ _] => generalize r end. intros resolved.
  eapply (grows_trans _ (mkApplySt (set_Stalled None (set_CustomStatus customStatus s)) w emptyResult)).
  { split_and!; [done | by exists []; rewrite app_nil_r | done]. }
  match goal with |- grows ?st _ => generalize st end.
  induction HF as [|act rest Hact HF IH]; intros st; [apply grows_refl |].
  cbn [applyLoop]. apply growing_bind; [by apply applyAction_growing |].
  intros []; [intros st'; apply grows_refl | exact IH].
Qed.
End Growth.

(** ** Continue-as-new *)

(** [s'] is a fresh generation of the workflow [s], started by [x]. *)
Definition freshGeneration (cs : option string) (s s' : WorkflowRuntimeState)
    (x : CompleteWorkflowAction) : Prop :=
  InstanceId s' = InstanceId s /\ CustomStatus s' = cs /\ ContinuedAsNew s' = true /\
  PendingTasks s' = [] /\ PendingTimers s' = [] /\ PendingMessages s' = [] /\
  OldEvents s' = [] /\ hist_inv s' /\ tail_inv s' /\
  exists es es' uuid kept,
    StartEvent s = Some es /\ StartEvent s' = Some es' /\
    es_Name es' = es_Name es /\ es_ParentInstance es' = es_ParentInstance es /\
    es_Input es' = co_Result x /\
    es_WorkflowInstance es' = Some (mkWorkflowInstance (InstanceId s) (Some uuid)) /\
    (es_ParentTraceContext es = None -> es_ParentTraceContext es' = None) /\
    map EventType (NewEvents s') =
      Some (HistoryEvent_WorkflowStarted (mkWorkflowStartedEvent None)) ::
      Some (HistoryEvent_ExecutionStarted es') :: map EventType kept /\
    kept `sublist_of` co_CarryoverEvents x /\
    (Forall (fun e => is_Some (GetEventRaised e)) (co_CarryoverEvents x) ->
     kept = co_CarryoverEvents x).

Lemma accepted_sublist events errs : accepted events errs `sublist_of` events.
Proof.
  unfold accepted. revert errs. induction events as [|e rest IH]; intros errs; [done |].
  destruct errs as [|[]]; simpl; [apply sublist_nil_l | by apply sublist_cons | by apply sublist_skip].
Qed.

Lemma addEach_raised s events :
  Forall (fun e => is_Some (GetEventRaised e)) events ->
  accepted events (addEach s events).2 = events.
Proof.
  intros H. revert s. induction H as [|e rest [x He] H IH]; intros s; [done |]. simpl.
  assert (AddEvent s e = (appendAccepted (absorb s e) e true, None)) as ->.
  { rewrite AddEvent_eq. event_cases e; cbn in He; try discriminate. done. }
  specialize (IH (appendAccepted (absorb s e) e true)).
  destruct (addEach _ rest) as [s' errs]. exact (f_equal (cons e) IH).
Qed.

(** Adding events leaves the outboxes, the identity and the marker alone. *)
Lemma addEach_outboxes s events :
  let s' := (addEach s events).1 in
  InstanceId s' = InstanceId s /\ CustomStatus s' = CustomStatus s /\
  ContinuedAsNew s' = ContinuedAsNew s /\ PendingTasks s' = PendingTasks s /\
  PendingTimers s' = PendingTimers s /\ PendingMessages s' = PendingMessages s.
Proof.
  cbv zeta. rewrite <- foldl_AddEvent. revert s.
  induction events as [|e rest IH]; intros s; [done |]. cbn [foldl].
  destruct (IH (AddEvent s e).1) as (-> & -> & -> & -> & -> & ->).
  rewrite AddEvent_eq. destruct (admissible s e); [| done]. cbn [fst].
  destruct (accepted_frame s e true) as (-> & -> & -> & -> & -> & ->). done.
Qed.

Lemma newGeneration_fresh cs s es x router t1 t2 u trace :
  StartEvent s = Some es -> (es_ParentTraceContext es = None -> trace = None) ->
  freshGeneration cs s
    (newGeneration cs s es (co_Result x) router t1 t2 u trace (co_CarryoverEvents x)) x.
Proof.
  intros Hes Htr. unfold freshGeneration.
  pose proof (newGeneration_inv cs s es (co_Result x) router t1 t2 u trace
    (co_CarryoverEvents x)) as [Hh Ht].
  revert Hh Ht. unfold newGeneration. rewrite foldl_AddEvent. intros Hh Ht.
  match goal with |- context [addEach ?b (co_CarryoverEvents x)] => set (base := b) in * end.
  destruct (addEach_outboxes base (co_CarryoverEvents x)) as (-> & -> & -> & -> & -> & ->).
  pose proof (addEach_log base (co_CarryoverEvents x)) as HL.
  pose proof (addEach_raised base (co_CarryoverEvents x)) as HR.
  pose proof (addEach_start base (co_CarryoverEvents x)) as HS.
  destruct (addEach base (co_CarryoverEvents x)) as [s' errs]. cbn in Hh, Ht, HR, HS |- *.
  destruct HL as (_ & -> & HN & _). specialize (HS _ eq_refl).
  split_and!; try done. rewrite HN, HS.
  eexists es, _, u, (accepted (co_CarryoverEvents x) errs).
  split_and!; try reflexivity; try done. apply accepted_sublist.
Qed.

Section ContinueAsNew.
Context `{HC : ProtoCodec}.
Variable a : Applier.
Variable customStatus : option string.
Variable tc : option TraceContext.
Variable rh : option PropagatedHistory.

Lemma applyContinueAsNew_spec router x st st' b :
  applyContinueAsNew a customStatus rh router x st = (st', Ok b) ->
  freshGeneration customStatus (as_state st) (as_state st') x.
Proof.
  intros H. unfold applyContinueAsNew in H.
  apply bind_Ok in H as (st0 & s & E & H). injection E as <- <-.
  apply bind_Ok in H as (st1 & [] & E1 & H).
  assert (as_state st1 = as_state st) as Hst1.
  { destruct (canForwardScope rh); [by injection E1 as <- | ..].
    all: apply bind_Ok in E1 as (st0 & ph & E & E1); apply liftErr_Ok in E as [-> _].
    all: by injection E1 as <-. }
  clear E1. revert H. rewrite <- Hst1. clear Hst1. intros H.
  apply bind_Ok in H as (st2 & t1 & E & H). injection E as <- <-.
  apply bind_Ok in H as (st3 & es & E & H). apply deref_Ok in E as [-> Hes].
  apply bind_Ok in H as (st3 & trace & E3 & H).
  assert (es_ParentTraceContext es = None -> trace = None) as Htr.
  { intros Hn. rewrite Hn in E3. by injection E3 as _ <-. }
  apply bind_Ok in H as (st4 & t2 & E & H). injection E as <- <-.
  apply bind_Ok in H as (st5 & u & E & H). injection E as <- <-.
  apply bind_Ok in H as (st6 & [] & E & H). injection E as <-.
  apply bind_Ok in H as (st7 & [] & E & H). injection E as <-. injection H as <- <-.
  cbn [as_state].
  pose proof (newGeneration_fresh customStatus (as_state st1) es x router
    (Some (clock (as_world st1) (ticks (as_world st1))))
    (Some (clock (as_world st3) (ticks (as_world st3)))) (uuids (as_world st3) (drawn (as_world st3)))
    trace Hes Htr) as HF.
  by destruct (newGeneration _ _ _ _ _ _ _ _ _ _).
Qed.

Lemma applyAction_true s0 resolved act st st' :
  same_origin s0 (as_state st) ->
  (forall k, Has (Some resolved) k (wa_Id act) = IsPresent (history s0) k (wa_Id act)) ->
  applyAction a customStatus tc rh resolved act st = (st', Ok true) ->
  exists x, GetCompleteWorkflow act = Some x /\ co_WorkflowStatus x = CONTINUED_AS_NEW /\
    freshGeneration customStatus (as_state st) (as_state st') x.
Proof.
  intros Ho Hr H. unfold applyAction in H.
  destruct (wa_Type act) as [[]|] eqn:Ht; [.. | discriminate].
  - by apply (applyScheduleTask_ok a tc rh s0) in H as [? _].
  - by apply (applyCreateChildWorkflow_ok a tc rh s0) in H as [? _].
  - by apply (applyCreateTimer_ok s0) in H as [? _].
  - by apply (applySendEvent_ok s0) in H as [? _].
  - unfold applyCompleteWorkflow in H. apply bind_Ok in H as (? & s & E & H).
    injection E as <- <-. destruct (CompletedEvent (as_state st)) eqn:Hc; [discriminate |].
    destruct (co_WorkflowStatus x) eqn:Hw; try (by apply (applyCompletion_ok s0) in H as [? _]).
    exists x. unfold GetCompleteWorkflow. rewrite Ht.
    split_and!; [done | done | by apply applyContinueAsNew_spec in H].
  - by apply (applyTerminateWorkflow_ok s0 act) in H as [? _].
  - by apply (applyVersionNotAvailable_ok s0 act) in H as [? _].
  - by apply (applyCreateDetachedWorkflow_ok tc s0) in H as [? _].
Qed.

Lemma freshGeneration_origin s0 s s' x :
  same_origin s0 s -> freshGeneration customStatus s s' x -> freshGeneration customStatus s0 s' x.
Proof. intros [H1 H2]. unfold freshGeneration. by rewrite H1, H2. Qed.

Lemma applyLoop_continued s0 resolved acts st st' :
  same_origin s0 (as_state st) ->
  Forall (fun act => forall k,
    Has (Some resolved) k (wa_Id act) = IsPresent (history s0) k (wa_Id act)) acts ->
  ar_ContinuedAsNew (as_result st) = false ->
  applyLoop a customStatus tc rh resolved acts st = (st', Ok tt) ->
  ar_ContinuedAsNew (as_result st') = true ->
  exists x, x ∈ omap GetCompleteWorkflow acts /\ co_WorkflowStatus x = CONTINUED_AS_NEW /\
    freshGeneration customStatus s0 (as_state st') x.
Proof.
  intros Ho Hr. revert st Ho. induction Hr as [|act rest Hact Hr IH]; intros st Ho H0 H Hcan.
  { injection H as <-. congruence. }
  cbn [applyLoop] in H. apply bind_Ok in H as (st1 & [] & E & H).
  - apply (applyAction_true s0) in E as (x & Hx & Hw & HF); [| done..]. injection H as <-.
    exists x. split_and!; [| done | by eapply freshGeneration_origin].
    cbn. rewrite Hx. left.
  - apply (applyAction_ok a customStatus tc rh s0) in E as [[H1 H2 _ _ _ _ _] H8]; [| done..].
    destruct Ho as [Ho1 Ho2].
    destruct (IH st1) as (x & Hx & Hw & HF); [by split; congruence | congruence | done | done |].
    exists x. split_and!; [| done | done].
    cbn. destruct (GetCompleteWorkflow act); [by right | done].
Qed.
End ContinueAsNew.

(** ** Running to the end *)

(** What an action needs so that the loop neither fails nor panics; no history
    propagation is asked for. *)
Definition wf_action (s : WorkflowRuntimeState) (rh : option PropagatedHistory)
    (act : WorkflowAction) : Prop :=
  match wa_Type act with
  | None => False
  | Some (WorkflowAction_CreateDetachedWorkflow x) => da_InstanceId x <> ""
  | Some (WorkflowAction_SendEvent x) => is_Some (se_Instance x)
  | Some (WorkflowAction_ScheduleTask x) =>
      default SCOPE_NONE (sa_HistoryPropagationScope x) = SCOPE_NONE
  | Some (WorkflowAction_CreateChildWorkflow x) =>
      is_Some (StartEvent s) /\ default SCOPE_NONE (ca_HistoryPropagationScope x) = SCOPE_NONE
  | Some (WorkflowAction_CompleteWorkflow x) =>
      (co_WorkflowStatus x = CONTINUED_AS_NEW ->
       is_Some (StartEvent s) /\ canForwardScope rh = SCOPE_NONE) /\
      (forall p, StartEvent s ≫= es_ParentInstance = Some p -> is_Some (pi_WorkflowInstance p))
  | Some _ => True
  end.

Section Progress.
Context `{HC : ProtoCodec}.
Variable a : Applier.
Variable customStatus : option string.
Variable tc : option TraceContext.
Variable rh : option PropagatedHistory.

Lemma applyAction_progress s0 resolved act st :
  same_origin s0 (as_state st) -> wf_action s0 rh act ->
  exists st' b, applyAction a customStatus tc rh resolved act st = (st', Ok b).
Proof.
  intros [Hi Hs] Hwf. unfold applyAction, wf_action in *.
  destruct (wa_Type act) as [[]|] eqn:Ht; [.. | done].
  - unfold applyScheduleTask. rewrite Hwf. run_goal. case_match; eauto.
  - destruct Hwf as [[es Hes] Hn]. unfold applyCreateChildWorkflow. rewrite Hn. run_goal.
    case_match; [eauto |]. unfold parentInstanceInfo. cbn. rewrite Hs, Hes. cbn. eauto.
  - unfold applyCreateTimer. run_goal. case_match; eauto.
  - destruct Hwf as [wi Hwi]. unfold applySendEvent. rewrite Hwi. run_goal. eauto.
  - destruct Hwf as [Hc Hp]. unfold applyCompleteWorkflow, mbind, M_bind, gets.
    destruct (CompletedEvent (as_state st)) eqn:Hd; [eauto |].
    assert (exists st' b, applyCompletion (wa_Id act) (stampRouter a act) x st = (st', Ok b)) as Hok.
    { unfold applyCompletion. run_goal. rewrite AddEvent_eq. unfold admissible. cbn.
      rewrite Hd. cbn. rewrite Hs.
      destruct (StartEvent s0) as [es|] eqn:Hse; [| eauto]. cbn in Hp |- *.
      destruct (es_ParentInstance es) as [p|]; [| eauto].
      destruct (Hp p eq_refl) as [wi Hwi]. rewrite Hwi. cbn. eauto. }
    destruct (co_WorkflowStatus x) eqn:Hw; try done.
    destruct (Hc eq_refl) as [[es Hes] Hn].
    unfold applyContinueAsNew, replaceWorkflowRuntimeState, NewRootTraceContext.
    rewrite Hn. run_goal. rewrite Hs, Hes.
    unfold deref, mret, M_ret.
    destruct (es_ParentTraceContext es); cbn -[newGeneration]; eauto.
  - unfold applyTerminateWorkflow. run_goal. eauto.
  - unfold applyVersionNotAvailable. run_goal. eauto.
  - unfold applyCreateDetachedWorkflow. rewrite (proj2 (String.eqb_neq _ _) Hwf).
    destruct (String.eqb (GetValue (da_ExecutionId x)) ""); run_goal; eauto.
Qed.

Lemma applyLoop_progress s0 resolved acts st :
  same_origin s0 (as_state st) ->
  Forall (fun act => forall k,
    Has (Some resolved) k (wa_Id act) = IsPresent (history s0) k (wa_Id act)) acts ->
  Forall (wf_action s0 rh) acts ->
  exists st', applyLoop a customStatus tc rh resolved acts st = (st', Ok tt).
Proof.
  intros Ho Hr Hwf. revert st Ho.
  induction Hwf as [|act rest Hact Hwf IH]; intros st Ho; [by eexists |].
  inversion Hr as [|? ? Hr1 Hr2]; subst. cbn [applyLoop].
  destruct (applyAction_progress s0 resolved act st Ho Hact) as (st1 & b & E).
  unfold mbind, M_bind. rewrite E. destruct b; [by eexists |].
  apply (applyAction_ok a customStatus tc rh s0) in E as [[H1 H2 _ _ _ _ _] _]; [| done..].
  apply IH; [done |]. destruct Ho. split; congruence.
Qed.
End Progress.

(** ** Samples for the witnesses *)

Definition sampleWorld : World :=
  mkWorld (fun n => 100 + Z.of_nat n) (fun n => "uuid-" +:+ pretty (Z.of_nat n))
    (fun _ => None) 0 0 0.

Definition sampleApplier : Applier := NewApplier "app" "".

Definition act (id : Z) (ty : WorkflowActionType) : WorkflowAction :=
  mkWorkflowAction id (Some ty) None.

(** Activity 0 has its result already; activity 5 has not. *)
Definition sampleActs : list WorkflowAction :=
  [ act 0 (WorkflowAction_ScheduleTask (mkScheduleTaskAction "A" None None "t0" None));
    act 5 (WorkflowAction_ScheduleTask (mkScheduleTaskAction "B" None (Some "i") "t5" None));
    act 6 (WorkflowAction_CreateTimer (mkCreateTimerAction (Some 500) None None));
    act 7 (WorkflowAction_CreateChildWorkflow
             (mkCreateChildWorkflowAction "kid" "Child" None None None None));
    act 8 (WorkflowAction_SendEvent
             (mkSendEventAction (Some (mkWorkflowInstance "other" None)) "ping" None)) ].

Definition completeWith (status : OrchestrationStatus) (r : string) : WorkflowActionType :=
  WorkflowAction_CompleteWorkflow (mkCompleteWorkflowAction status (Some r) None None
    [ev (-1) 20 (HistoryEvent_EventRaised (mkEventRaisedEvent "x" None))] None).

Definition sampleDone : list WorkflowAction :=
  sampleActs ++ [act 9 (completeWith COMPLETED "r1"); act 10 (completeWith CONTINUED_AS_NEW "r2")].

Definition sampleAgain : list WorkflowAction :=
  sampleActs ++ [act 9 (completeWith CONTINUED_AS_NEW "r2")].

(** ** Properties *)

(** The dedup set of the start of the turn answers for every action. *)
Lemma resolved_agrees cs s acts :
  ids_ok (history s) -> Forall (fun act => in_int32 (wa_Id act)) acts ->
  Forall (fun act => forall k,
    Has (Some (NewForState (set_Stalled None (set_CustomStatus cs s)))) k (wa_Id act)
    = IsPresent (history s) k (wa_Id act)) acts.
Proof.
  intros Hok H. eapply Forall_impl; [exact H |]. intros act Hid k. by rewrite Has_NewForState.
Qed.

Section Properties.
Context `{HC : ProtoCodec}.
Variable a : Applier.
Variable cs : option string.
Variable tc : option TraceContext.
Variable rh : option PropagatedHistory.



(** Applying a decision keeps the log invariant, whether it succeeds, fails
    half way or panics: at most one start and one completion event, no two
    results for one correlator. *)
Theorem Actions_hist_inv s w acts :
  hist_inv s -> hist_inv (as_state (Actions a cs tc rh s w acts).1).
Proof. apply (Actions_keeps hist_inv). Qed.

End Properties.

#[local] Existing Instance nameCodec.



Lemma Actions_hist_inv_witness :
  hist_inv (as_state (Actions sampleApplier None None None sampleState sampleWorld sampleDone).1).
Proof. apply Actions_hist_inv, sampleState_inv. Defined.

