(* ===== verification/Backend.v ===== *)
(** * The backend contract and the purge driver (backend/backend.go, workitem.go, activity.go)

    Work items, the children a history records, cascading termination and the
    recursive purge.  The storage is an interface: [PurgeBackend] has the two
    operations the driver calls and [PurgeBackendOk] what their documentation
    promises.  A Go map is iterated in an unspecified order, so the order is a
    parameter too ([MapRange]). *)

From stdpp Require Import base list option strings gmap sets.
From Stdlib Require Import ZArith Lia.
From S2P Require Import Prelude Errors Protos Dedup RuntimeState Propagation Helpers.

(** ** workitem.go *)

Record WorkflowWorkItem := mkWorkflowWorkItem {
  owi_InstanceID : string;
  owi_NewEvents : list HistoryEvent;
  owi_LockedBy : string;
  owi_RetryCount : Z;
  owi_State : option WorkflowRuntimeState;
  owi_IncomingHistory : option PropagatedHistory;
  owi_OutgoingHistory : gmap Z (option PropagatedHistory)
}.

Record ActivityWorkItem := mkActivityWorkItem {
  awi_SequenceNumber : Z;
  awi_InstanceID : string;
  awi_NewEvent : HistoryEvent;
  awi_Result : option HistoryEvent;
  awi_LockedBy : string;
  awi_IncomingHistory : option PropagatedHistory
}.

(** [GetAbandonDelay]: nanoseconds. *)
Definition GetAbandonDelay (wi : WorkflowWorkItem) : Z :=
  if owi_RetryCount wi =? 0 then 0
  else if 100 <? owi_RetryCount wi then 5 * Minute
  else owi_RetryCount wi * Second.

(** ** backend.go *)

(** [range] over a map of child routers, in whatever order the runtime picks. *)
Class MapRange := {
  mapRange : gmap string (option TaskRouter) -> list (string * option TaskRouter);
  mapRange_perm : forall m, mapRange m ≡ₚ map_to_list m
}.

Definition isRemoteRouter (r : option TaskRouter) : bool :=
  negb (String.eqb (GetTargetAppID r) "").

(** The [collect] closure: the first record of an id wins. *)
Fixpoint collectChildren (m : gmap string (option TaskRouter)) (events : list HistoryEvent)
    : gmap string (option TaskRouter) :=
  match events with
  | [] => m
  | e :: rest =>
      match GetChildWorkflowInstanceCreated e with
      | None => collectChildren m rest
      | Some created =>
          match m !! cw_InstanceId created with
          | Some _ => collectChildren m rest
          | None => collectChildren (<[cw_InstanceId created := Router e]> m) rest
          end
      end
  end.

Definition getChildWorkflowInstances `{MapRange} (oldEvents newEvents : list HistoryEvent)
    : list (string * option TaskRouter) :=
  mapRange (collectChildren (collectChildren ∅ oldEvents) newEvents).

(** One message per child; the clock is read once per message. *)
Fixpoint cascadeLoop (et : ExecutionTerminatedEvent) (children : list (string * option TaskRouter))
    (s : WorkflowRuntimeState) (w : World) : WorkflowRuntimeState * World :=
  match children with
  | [] => (s, w)
  | (id, router) :: rest =>
      let '(t, w) := now w in
      let m := mkWorkflowRuntimeStateMessage
        (mkHistoryEvent (-1) (Some t) (Some (HistoryEvent_ExecutionTerminated
           (mkExecutionTerminatedEvent (et_Input et) (et_Recurse et)))) router) id None in
      cascadeLoop et rest (set_PendingMessages (PendingMessages s ++ [m]) s) w
  end.

Definition appendCascadeTerminateMessages `{MapRange} (s : WorkflowRuntimeState) (w : World)
    (et : ExecutionTerminatedEvent) : WorkflowRuntimeState * World :=
  if negb (et_Recurse et) then (s, w)
  else cascadeLoop et (getChildWorkflowInstances (OldEvents s) (NewEvents s)) s w.

(** The storage operations the purge driver uses. *)
Class PurgeBackend (S : Type) := {
  be_GetWorkflowRuntimeState : S -> string -> WorkflowRuntimeState + error;
  be_PurgeWorkflowState : S -> string -> option TaskRouter -> bool -> bool -> S * Z * option error
}.

Section Purge.
Context {S : Type} `{PurgeBackend S} `{MapRange}.

(** The last step: the instance itself. *)
Definition purgeRoot (st : S) (iid : string) (force : bool) (count : Z) : S * Z * option error :=
  match be_PurgeWorkflowState st iid None false force with
  | (st, _, Some err) => (st, count, Some err)
  | (st, n, None) => (st, count + n, None)
  end.

(** The loop over the children; [self] is the recursive call. *)
Fixpoint purgeChildren (self : S -> string -> option (S * Z * option error)) (force : bool)
    (children : list (string * option TaskRouter)) (st : S) (count : Z)
    : option (S * Z * option error) :=
  match children with
  | [] => Some (st, count, None)
  | (child, childRouter) :: rest =>
      if isRemoteRouter childRouter then
        let '(st, n, err) := be_PurgeWorkflowState st child childRouter true force in
        match err with
        | None => purgeChildren self force rest st (count + n)
        | Some err =>
            if errorsIs err ErrInstanceNotFound then purgeChildren self force rest st (count + n)
            else Some (st, count + n,
                       Some (errorWrap "failed to purge cross-app child workflow" err))
        end
      else
        match self st child with
        | None => None
        | Some (st, n, None) => purgeChildren self force rest st (count + n)
        | Some (st, n, Some err) =>
            if errorsIs err ErrInstanceNotFound then purgeChildren self force rest st (count + n)
            else Some (st, count + n, Some (errorWrap "failed to purge child workflow" err))
        end
  end.

(** [purgeWorkflowState]: the storage afterwards, the number of deleted instances
    and the error.  The recursion follows the child graph; [None] is a call
    that did not return within the fuel. *)
Fixpoint purgeWorkflowState (fuel : nat) (st : S) (iid : string) (router : option TaskRouter)
    (recursive force : bool) : option (S * Z * option error) :=
  match fuel with
  | O => None
  | Datatypes.S fuel =>
      if isRemoteRouter router then Some (be_PurgeWorkflowState st iid router recursive force)
      else if recursive then
        match be_GetWorkflowRuntimeState st iid with
        | inr err => Some (st, 0, Some (errorWrap "failed to fetch workflow state" err))
        | inl state =>
            if (length (NewEvents state) + length (OldEvents state) =? 0)%nat
            then Some (st, 0, Some ErrInstanceNotFound)
            else if negb force && negb (IsCompleted state) then Some (st, 0, Some ErrNotCompleted)
            else
              match purgeChildren
                      (fun st child => purgeWorkflowState fuel st child None recursive force) force
                      (getChildWorkflowInstances (OldEvents state) (NewEvents state)) st 0 with
              | Some (st, count, None) => Some (purgeRoot st iid force count)
              | failed => failed
              end
        end
      else Some (purgeRoot st iid force 0)
  end.

End Purge.

(** The documented behaviour of [PurgeWorkflowState] and
    [GetWorkflowRuntimeState]: a local purge deletes exactly one existing
    instance or nothing, reports a missing one, and a remote purge touches
    nothing here.  [instances] is the set of instances the store holds. *)
Class PurgeBackendOk (S : Type) `{PurgeBackend S} := {
  instances : S -> gset string;
  purge_local_ok : forall st id r rec force st' n, isRemoteRouter r = false ->
    be_PurgeWorkflowState st id r rec force = (st', n, None) ->
    n = 1 /\ id ∈ instances st /\ instances st' = instances st ∖ {[id]} /\
    (forall state, be_GetWorkflowRuntimeState st' id = inl state ->
       NewEvents state = [] /\ OldEvents state = []) /\
    forall id', id' <> id -> be_GetWorkflowRuntimeState st' id' = be_GetWorkflowRuntimeState st id';
  purge_local_err : forall st id r rec force st' n err, isRemoteRouter r = false ->
    be_PurgeWorkflowState st id r rec force = (st', n, Some err) ->
    st' = st /\ (errorsIs err ErrInstanceNotFound = true -> id ∉ instances st);
  purge_remote : forall st id r rec force st' n res, isRemoteRouter r = true ->
    be_PurgeWorkflowState st id r rec force = (st', n, res) ->
    instances st' = instances st /\
    forall id', be_GetWorkflowRuntimeState st' id' = be_GetWorkflowRuntimeState st id';
  load_missing : forall st id state, be_GetWorkflowRuntimeState st id = inl state ->
    NewEvents state = [] -> OldEvents state = [] -> id ∉ instances st;
  load_err_missing : forall st id err, be_GetWorkflowRuntimeState st id = inr err ->
    errorsIs err ErrInstanceNotFound = true -> id ∉ instances st
}.

(** ** activity.go *)

(** An activity executor returns the result event or an error, or panics; it is
    the user's code behind an interface. *)
Class ActivityExecutor := {
  ExecuteActivity : string -> HistoryEvent -> option PropagatedHistory -> outcome error HistoryEvent
}.

Record activityProcessor := newActivityProcessor {
  ap_executor : ActivityExecutor;
  ap_inProcessExecutor : option ActivityExecutor;
  ap_inProcessNamePrefix : string
}.

(** The executor an activity is dispatched to. *)
Definition selectActivityExecutor (p : activityProcessor) (name : string) : ActivityExecutor :=
  match ap_inProcessExecutor p with
  | Some ex =>
      if negb (String.eqb (ap_inProcessNamePrefix p) "") &&
         HasPrefix name (ap_inProcessNamePrefix p)
      then ex else ap_executor p
  | None => ap_executor p
  end.

(** [ProcessWorkItem]; [span] is the outcome of opening the tracing span: the
    trace context of the new span, or the error of an unreadable parent.  A panic
    of the executor is recovered by the deferred function that ends the span, and
    the method then returns nil without having set a result. *)
Definition activityProcessWorkItem (p : activityProcessor)
    (span : option TraceContext -> option TraceContext + error) (awi : ActivityWorkItem)
    : ActivityWorkItem * option error :=
  match GetTaskScheduled (awi_NewEvent awi) with
  | None => (awi, Some (errorNew "invalid TaskScheduled event"))
  | Some ts =>
      match span (ts_ParentTraceContext ts) with
      | inr err => (awi, Some (errorWrap "failed to parse activity trace context" err))
      | inl tc =>
          let e := awi_NewEvent awi in
          let e := mkHistoryEvent (EventId e) (Timestamp e)
            (Some (HistoryEvent_TaskScheduled (mkTaskScheduledEvent (ts_Name ts) (ts_Version ts)
               (ts_Input ts) tc (ts_TaskExecutionId ts) (ts_HistoryPropagationScope ts))))
            (Router e) in
          let withResult r := mkActivityWorkItem (awi_SequenceNumber awi) (awi_InstanceID awi) e
              r (awi_LockedBy awi) (awi_IncomingHistory awi) in
          match @ExecuteActivity (selectActivityExecutor p (ts_Name ts)) (awi_InstanceID awi) e
                  (awi_IncomingHistory awi) with
          | Ok result => (withResult (Some result), None)
          | Err err => (withResult (awi_Result awi), Some err)
          | Panic _ => (withResult (awi_Result awi), None)
          end
      end
  end.

(** The guards of [CompleteWorkItem]; [None] hands the item to the backend. *)
Definition activityCompleteGuard (awi : ActivityWorkItem) : option error :=
  match awi_Result awi with
  | None => Some (errorNew "can't complete work item with nil result")
  | Some r =>
      match GetTaskCompleted r, GetTaskFailed r with
      | None, None =>
          Some (errorNew "can't complete work item, which isn't TaskCompleted or TaskFailed")
      | _, _ => None
      end
  end.

(** ** Lemmas: the children of a log *)

Definition childIds (events : list HistoryEvent) : list string :=
  cw_InstanceId <$> omap GetChildWorkflowInstanceCreated events.

Lemma collectChildren_dom m events id :
  is_Some (collectChildren m events !! id) <-> is_Some (m !! id) \/ id ∈ childIds events.
Proof.
  unfold childIds. revert m. induction events as [|e rest IH]; intros m; cbn.
  - split; [auto | intros [?|Hn]; [done | by apply elem_of_nil in Hn]].
  - destruct (GetChildWorkflowInstanceCreated e) as [c|]; [| apply IH]. cbn.
    rewrite elem_of_cons. destruct (m !! cw_InstanceId c) eqn:E.
    + rewrite IH. split; [tauto |]. intros [?|[->|?]]; [tauto | left; by rewrite E | tauto].
    + rewrite IH, lookup_insert_is_Some. destruct (decide (id = cw_InstanceId c)); naive_solver.
Qed.

Lemma getChildWorkflowInstances_ids `{MapRange} old new id :
  id ∈ (getChildWorkflowInstances old new).*1 <-> id ∈ childIds (old ++ new).
Proof.
  unfold getChildWorkflowInstances. rewrite mapRange_perm.
  rewrite list_elem_of_fmap. unfold childIds. rewrite omap_app, fmap_app, elem_of_app.
  fold (childIds old) (childIds new).
  transitivity (is_Some (collectChildren (collectChildren ∅ old) new !! id)).
  - split.
    + intros ([i r] & -> & Hin%elem_of_map_to_list). by exists r.
    + intros [r Hr]. exists (id, r). split; [done | by apply elem_of_map_to_list].
  - rewrite !collectChildren_dom, lookup_empty. split; [| tauto].
    intros [[[? ?]|?]|?]; [discriminate | tauto | tauto].
Qed.

Lemma getChildWorkflowInstances_NoDup `{MapRange} old new :
  NoDup (getChildWorkflowInstances old new).*1.
Proof. unfold getChildWorkflowInstances. rewrite mapRange_perm. apply NoDup_fst_map_to_list. Qed.

Lemma cascadeLoop_spec et children s w :
  let s' := (cascadeLoop et children s w).1 in
  exists ms, s' = set_PendingMessages (PendingMessages s ++ ms) s /\
    map (fun m => (msg_TargetInstanceId m, Router (msg_HistoryEvent m))) ms = children /\
    Forall (fun m => GetExecutionTerminated (msg_HistoryEvent m) =
      Some (mkExecutionTerminatedEvent (et_Input et) (et_Recurse et))) ms.
Proof.
  revert s w. induction children as [|[id r] rest IH]; intros s w; cbn.
  - exists []. rewrite app_nil_r. split_and!; [by destruct s | done | done].
  - match goal with |- context [cascadeLoop et rest ?s1 ?w1] =>
      destruct (IH s1 w1) as (ms & -> & Hm & HF) end.
    eexists (_ :: ms). cbn. rewrite <- app_assoc. split_and!; [reflexivity | by rewrite Hm |].
    by constructor.
Qed.

(** ** Lemmas: the purge driver *)

Definition childRouters (state : WorkflowRuntimeState) : gmap string (option TaskRouter) :=
  collectChildren (collectChildren ∅ (OldEvents state)) (NewEvents state).

Section PurgeLemmas.
Context {S : Type} `{HB : PurgeBackend S} `{!PurgeBackendOk S} `{HM : MapRange}.

(** An instance whose state reads as empty. *)
Definition gone (st : S) (id : string) : Prop :=
  forall state, be_GetWorkflowRuntimeState st id = inl state ->
    NewEvents state = [] /\ OldEvents state = [].

(** [st'] is [st] after a purge that left no orphan: every instance that went
    took its local children along. *)
Record purged (st st' : S) : Prop := {
  pg_sub : instances st' ⊆ instances st;
  pg_frame : forall id,
    be_GetWorkflowRuntimeState st' id = be_GetWorkflowRuntimeState st id \/
    (id ∉ instances st') /\ gone st' id;
  pg_closed : forall m state c r, m ∈ instances st -> m ∉ instances st' ->
    be_GetWorkflowRuntimeState st m = inl state ->
    childRouters state !! c = Some r -> isRemoteRouter r = false -> c ∉ instances st'
}.

Definition noRemote (st : S) : Prop :=
  forall id state c r, be_GetWorkflowRuntimeState st id = inl state ->
    childRouters state !! c = Some r -> isRemoteRouter r = false.

Lemma childRouters_gone state :
  NewEvents state = [] /\ OldEvents state = [] -> childRouters state = ∅.
Proof. intros [H1 H2]. unfold childRouters. by rewrite H1, H2. Qed.

Lemma purged_refl st : purged st st.
Proof. split; [done | by left | done]. Qed.

(** A surviving instance reads as before. *)
Lemma pg_survives st st' id :
  purged st st' -> id ∈ instances st' ->
  be_GetWorkflowRuntimeState st' id = be_GetWorkflowRuntimeState st id.
Proof. intros Hp Hi. by destruct (pg_frame _ _ Hp id) as [|[]]. Qed.

(** Child edges after the purge were there before it. *)
Lemma pg_children st st' id state c r :
  purged st st' -> be_GetWorkflowRuntimeState st' id = inl state ->
  childRouters state !! c = Some r -> be_GetWorkflowRuntimeState st id = inl state.
Proof.
  intros Hp Hl Hc. destruct (pg_frame _ _ Hp id) as [<-|[_ Hg]]; [done |].
  by rewrite (childRouters_gone state (Hg state Hl)), lookup_empty in Hc.
Qed.

Lemma purged_trans st1 st2 st3 : purged st1 st2 -> purged st2 st3 -> purged st1 st3.
Proof.
  intros H12 H23. split.
  - etrans; [apply (pg_sub _ _ H23) | apply (pg_sub _ _ H12)].
  - intros id. destruct (pg_frame _ _ H23 id) as [->|?]; [| by right].
    destruct (pg_frame _ _ H12 id) as [->|[H1 H2]]; [by left |].
    destruct (decide (id ∈ instances st3)) as [Hi|Hi].
    + by apply (pg_sub _ _ H23) in Hi.
    + right. split; [done |]. intros state. unfold gone in H2.
      destruct (pg_frame _ _ H23 id) as [->|[_ Hg]]; [apply H2 | apply Hg].
  - intros m state c r Hm Hm3 Hl Hc Hr. destruct (decide (m ∈ instances st2)) as [Hm2|Hm2].
    + rewrite <- (pg_survives _ _ _ H12 Hm2) in Hl. by eapply (pg_closed _ _ H23).
    + intros Hc3%(pg_sub _ _ H23). revert Hc3. by eapply (pg_closed _ _ H12).
Qed.

Lemma noRemote_purged st st' : purged st st' -> noRemote st -> noRemote st'.
Proof.
  intros Hp Hn id state c r Hl Hc. eapply Hn; [| exact Hc]. by eapply pg_children.
Qed.

(** A remote purge leaves the local store alone. *)
Lemma purge_remote_purged st id r rec force st' n res :
  isRemoteRouter r = true -> be_PurgeWorkflowState st id r rec force = (st', n, res) ->
  purged st st' /\ instances st' = instances st.
Proof.
  intros Hr H. apply purge_remote in H as [H1 H2]; [| done].
  split; [| done]. split; [by rewrite H1 | intros id'; left; apply H2 |].
  intros m state c r' Hm Hm'. by rewrite H1 in Hm'.
Qed.

Definition removed (st st' : S) : Z := Z.of_nat (size (instances st)) - Z.of_nat (size (instances st')).

(** What one recursive call guarantees. *)
Definition call_ok (st : S) (id : string) (st' : S) (n : Z) (err : option error) : Prop :=
  purged st st' /\
  (match err with None => True | Some e => errorsIs e ErrInstanceNotFound = true end ->
   id ∉ instances st') /\
  (noRemote st -> n = removed st st').

(** The loop over the children. *)
Lemma purgeChildren_ok self force children st count st' n err :
  (forall st id st' n err, self st id = Some (st', n, err) -> call_ok st id st' n err) ->
  purgeChildren self force children st count = Some (st', n, err) ->
  purged st st' /\
  match err with Some e => errorsIs e ErrInstanceNotFound = false | None => True end /\
  (err = None -> forall c r, (c, r) ∈ children -> isRemoteRouter r = false -> c ∉ instances st') /\
  (noRemote st -> Forall (fun c => isRemoteRouter c.2 = false) children ->
   n = count + removed st st').
Proof.
  intros Hself. revert st count. induction children as [|[c r] rest IH]; intros st count H.
  { cbn in H. simplify_eq. split_and!; [apply purged_refl | done | | unfold removed; lia].
    intros _ c r Hn. by apply elem_of_nil in Hn. }
  cbn in H. destruct (isRemoteRouter r) eqn:Hr.
  - destruct (be_PurgeWorkflowState st c r true force) as [[st1 k] e] eqn:E.
    destruct (purge_remote_purged _ _ _ _ _ _ _ _ Hr E) as [Hp _].
    assert (purgeChildren self force rest st1 (count + k) = Some (st', n, err) \/
            st1 = st' /\ exists e', err = Some e' /\ errorsIs e' ErrInstanceNotFound = false)
      as [H1|(-> & e' & -> & He)].
    { destruct e as [e|]; [| by left]. destruct (errorsIs e ErrInstanceNotFound) eqn:He; [by left |].
      right. simplify_eq. eauto. }
    + destruct (IH _ _ H1) as (I1 & I0 & I2 & _). split_and!; [by eapply purged_trans | done | |].
      * intros He c' r' [Heq|Hin]%elem_of_cons Hr'; [simplify_eq; congruence | by eapply I2].
      * intros _ HF. apply Forall_cons in HF as [HF _]. cbn in HF. congruence.
    + split_and!; [done | done | done |]. intros _ HF. apply Forall_cons in HF as [HF _]. cbn in HF. congruence.
  - destruct (self st c) as [[[st1 k] e]|] eqn:E; [| done].
    destruct (Hself _ _ _ _ _ E) as (Hp & Hc & Hn).
    assert ((match e with None => True | Some e => errorsIs e ErrInstanceNotFound = true end) /\
            purgeChildren self force rest st1 (count + k) = Some (st', n, err) \/
            st1 = st' /\ n = count + k /\
            exists e', err = Some e' /\ errorsIs e' ErrInstanceNotFound = false)
      as [[Hcond H1]|(-> & -> & e' & -> & He)].
    { destruct e as [e|]; [| by left]. destruct (errorsIs e ErrInstanceNotFound) eqn:He; [by left |].
      right. simplify_eq. eauto. }
    + destruct (IH _ _ H1) as (I1 & I0 & I2 & I3). split_and!; [by eapply purged_trans | done | |].
      * intros He c' r' [Heq|Hin]%elem_of_cons Hr'; [| by eapply I2]. simplify_eq.
        intros Hin%(pg_sub _ _ I1). by apply Hc.
      * intros HnR HF. inversion HF as [|? ? ? HF']; subst.
        rewrite (I3 (noRemote_purged _ _ Hp HnR) HF'), (Hn HnR). unfold removed. lia.
    + split_and!; [done | done | done |]. intros HnR _. by rewrite (Hn HnR).
Qed.

(** The last step: the root goes once its children are gone. *)
Lemma purgeRoot_ok st iid force count st' n err state :
  (iid ∈ instances st -> be_GetWorkflowRuntimeState st iid = inl state) ->
  (forall c r, childRouters state !! c = Some r -> isRemoteRouter r = false ->
     c ∉ instances st) ->
  purgeRoot st iid force count = (st', n, err) ->
  purged st st' /\
  (match err with None => True | Some e => errorsIs e ErrInstanceNotFound = true end ->
   iid ∉ instances st') /\
  n = count + removed st st'.
Proof.
  intros Hl Hch H. unfold purgeRoot in H.
  destruct (be_PurgeWorkflowState st iid None false force) as [[st1 k] [e|]] eqn:E; simplify_eq.
  - apply purge_local_err in E as [-> He]; [| done].
    split_and!; [apply purged_refl | exact He | unfold removed; lia].
  - apply purge_local_ok in E as (-> & Hin & Hi & Hg & Hf); [| done].
    assert (forall m, m ∈ instances st' <-> m ∈ instances st /\ m <> iid) as Hm
      by (intros m; rewrite Hi, elem_of_difference, elem_of_singleton; done).
    split_and!.
    + split; [intros m; rewrite Hm; by intros [? _] | |].
      * intros id. destruct (decide (id = iid)) as [->|]; [| left; by apply Hf].
        right. split; [rewrite Hm; by intros [_ ?] | exact Hg].
      * intros m state' c r Hms Hms' Hl' Hc Hr. rewrite Hm in Hms' |- *.
        destruct (decide (m = iid)) as [->|]; [| tauto].
        rewrite (Hl Hin) in Hl'. simplify_eq. intros [Hcs _]. by eapply Hch.
    + rewrite Hm. by intros _ [_ ?].
    + assert ({[iid]} ⊆ instances st) as Hsub by (by apply singleton_subseteq_l).
      pose proof (subseteq_size _ _ Hsub) as Hs. rewrite size_singleton in Hs.
      unfold removed. rewrite Hi, size_difference, size_singleton by done. lia.
Qed.

Lemma childRouters_range state c r :
  (c, r) ∈ getChildWorkflowInstances (OldEvents state) (NewEvents state)
  <-> childRouters state !! c = Some r.
Proof.
  unfold getChildWorkflowInstances. rewrite mapRange_perm. apply elem_of_map_to_list.
Qed.

Lemma purgeWorkflowState_ok fuel st iid force st' n err :
  purgeWorkflowState fuel st iid None true force = Some (st', n, err) ->
  call_ok st iid st' n err.
Proof.
  revert st iid st' n err. induction fuel as [|fuel IH]; intros st iid st' n err H; [done |].
  cbn in H. unfold call_ok.
  destruct (be_GetWorkflowRuntimeState st iid) as [state|e] eqn:Hl.
  2: { simplify_eq. split_and!; [apply purged_refl | | unfold removed; lia].
       cbn. intros He. by eapply load_err_missing. }
  destruct (length (NewEvents state) + length (OldEvents state) =? 0)%nat eqn:Hlen.
  { simplify_eq. split_and!; [apply purged_refl | | unfold removed; lia].
    intros _. apply Nat.eqb_eq, Nat.eq_add_0 in Hlen as [H1%nil_length_inv H2%nil_length_inv].
    by eapply load_missing. }
  destruct (negb force && negb (IsCompleted state)).
  { simplify_eq. split_and!; [apply purged_refl | done | unfold removed; lia]. }
  destruct (purgeChildren _ force _ st 0) as [[[st1 k] e]|] eqn:E; [| done].
  apply purgeChildren_ok in E as (P1 & P0 & P2 & P3); [| intros; by apply IH].
  assert (noRemote st -> Forall (fun c => isRemoteRouter c.2 = false)
    (getChildWorkflowInstances (OldEvents state) (NewEvents state))) as HnR.
  { intros Hn. apply Forall_forall. intros [c r] Hin%childRouters_range. by eapply Hn. }
  destruct e as [e|].
  - simplify_eq. split_and!; [done | congruence | intros Hn; by apply P3, HnR].
  - injection H as H. apply (purgeRoot_ok st1 iid force k st' n err state) in H as (R1 & R2 & R3).
    + split_and!; [by eapply purged_trans | done |].
      intros Hn. rewrite R3, (P3 Hn (HnR Hn)). unfold removed. lia.
    + intros Hi. by rewrite (pg_survives _ _ _ P1 Hi).
    + intros c r Hc Hr. eapply P2; [done | by apply childRouters_range | done].
Qed.

(** What every call of the storage keeps, the whole purge keeps. *)
Lemma purgeChildren_keeps (P : S -> Prop) self force :
  (forall st id r rec f, P st -> P (be_PurgeWorkflowState st id r rec f).1.1) ->
  (forall st c st' n err, P st -> self st c = Some (st', n, err) -> P st') ->
  forall children st count st' n err,
    P st -> purgeChildren self force children st count = Some (st', n, err) -> P st'.
Proof.
  intros Hbe Hself children. induction children as [|[c r] rest IH]; intros st count st' n err Hst H;
    cbn in H; [by simplify_eq |]. destruct (isRemoteRouter r).
  - specialize (Hbe st c r true force Hst).
    destruct (be_PurgeWorkflowState st c r true force) as [[st1 k] [e|]]; cbn in Hbe; [| by eapply (IH st1)].
    destruct (errorsIs e ErrInstanceNotFound); [by eapply (IH st1) | by simplify_eq].
  - destruct (self st c) as [[[st1 k] e]|] eqn:E; [| done]. pose proof (Hself _ _ _ _ _ Hst E) as H1.
    destruct e as [e|]; [| by eapply (IH st1)].
    destruct (errorsIs e ErrInstanceNotFound); [by eapply (IH st1) | by simplify_eq].
Qed.

Lemma purgeWorkflowState_keeps (P : S -> Prop) :
  (forall st id r rec f, P st -> P (be_PurgeWorkflowState st id r rec f).1.1) ->
  forall fuel st iid force st' n err,
    P st -> purgeWorkflowState fuel st iid None true force = Some (st', n, err) -> P st'.
Proof.
  intros Hbe fuel. induction fuel as [|fuel IH]; intros st iid force st' n err Hst H; [done |].
  cbn in H. destruct (be_GetWorkflowRuntimeState st iid) as [state|e]; [| by simplify_eq].
  destruct (_ =? 0)%nat; [by simplify_eq |]. destruct (_ && _); [by simplify_eq |].
  destruct (purgeChildren _ force _ st 0) as [[[st1 k] e]|] eqn:E; [| done].
  apply purgeChildren_keeps with (P := P) in E; [| done | by intros; eapply IH | done].
  destruct e as [e|]; [by simplify_eq |]. unfold purgeRoot in H.
  specialize (Hbe st1 iid None false force E).
  destruct (be_PurgeWorkflowState st1 iid None false force) as [[st2 k2] [e|]]; by simplify_eq.
Qed.

(** Enough fuel: a rank that decreases along local child edges bounds the depth. *)
Definition acyclic (st : S) (rank : string -> nat) : Prop :=
  forall id state c r, be_GetWorkflowRuntimeState st id = inl state ->
    childRouters state !! c = Some r -> isRemoteRouter r = false -> (rank c < rank id)%nat.

Lemma acyclic_purged st st' rank : purged st st' -> acyclic st rank -> acyclic st' rank.
Proof. intros Hp Ha id state c r Hl Hc. eapply Ha; [| exact Hc]. by eapply pg_children. Qed.

Lemma purgeChildren_returns self force children st count rank (bound : nat) :
  acyclic st rank ->
  (forall st id, acyclic st rank -> (rank id < bound)%nat ->
     exists st' n err, self st id = Some (st', n, err) /\ purged st st') ->
  Forall (fun c => isRemoteRouter c.2 = false -> (rank c.1 < bound)%nat) children ->
  exists r, purgeChildren self force children st count = Some r.
Proof.
  intros Ha Hself HF. revert st count Ha.
  induction HF as [|[c r] rest Hc HF IH]; intros st count Ha; cbn; [eauto |].
  cbn in Hc. destruct (isRemoteRouter r) eqn:Hr.
  - destruct (be_PurgeWorkflowState st c r true force) as [[st1 k] [e|]] eqn:E;
      apply purge_remote_purged in E as [Hp _]; try done;
      repeat case_match; eauto using acyclic_purged.
  - destruct (Hself st c Ha (Hc eq_refl)) as (st1 & k & [e|] & -> & Hp);
      repeat case_match; eauto using acyclic_purged.
Qed.

Lemma purgeWorkflowState_returns fuel st iid force rank :
  acyclic st rank -> (rank iid < fuel)%nat ->
  exists st' n err, purgeWorkflowState fuel st iid None true force = Some (st', n, err).
Proof.
  revert st iid. induction fuel as [|fuel IH]; intros st iid Ha Hf; [lia |]. cbn.
  destruct (be_GetWorkflowRuntimeState st iid) as [state|e] eqn:Hl; [| eauto].
  repeat (case_match; [eauto; fail |]).
  edestruct (purgeChildren_returns
    (fun st child => purgeWorkflowState fuel st child None true force) force
    (getChildWorkflowInstances (OldEvents state) (NewEvents state)) st 0 rank fuel Ha)
    as [[[st1 k] e] ->].
  - intros st1 id Ha1 Hr. destruct (IH st1 id Ha1 Hr) as (st2 & k & e & E).
    exists st2, k, e. split; [done |]. by apply purgeWorkflowState_ok in E as [? _].
  - apply Forall_forall. intros [c r] Hin%childRouters_range Hr. cbn in *.
    specialize (Ha _ _ _ _ Hl Hin Hr). lia.
  - destruct e; [eauto |]. destruct (purgeRoot st1 iid force k) as [[? ?] ?]. eauto.
Qed.
(** Reachability through local child edges. *)
Inductive descendant (st : S) : string -> string -> Prop :=
| descendant_self id : descendant st id id
| descendant_child id state c r d :
    be_GetWorkflowRuntimeState st id = inl state ->
    childRouters state !! c = Some r -> isRemoteRouter r = false ->
    c ∈ instances st -> descendant st c d -> descendant st id d.

(** Whoever went took all descendants along. *)
Lemma purged_descendants st st' id d :
  purged st st' -> descendant st id d -> id ∈ instances st -> id ∉ instances st' ->
  d ∉ instances st'.
Proof.
  intros Hp. induction 1 as [id | id state c r d Hl Hc Hr Hi Hd IH]; intros H1 H2; [done |].
  apply IH; [done |]. by eapply (pg_closed _ _ Hp).
Qed.

(** A recursive purge leaves no orphan, however it ends: instances only
    disappear, and one that disappears takes every local descendant along (even
    when a later error stops the purge); the others read as before.  If it
    succeeds, the instance is gone, and with no cross-app child the returned
    count is exactly the number of instances deleted, on success and on error. *)
Theorem purge_leaves_no_orphans fuel st iid force st' n err :
  purgeWorkflowState fuel st iid None true force = Some (st', n, err) ->
  instances st' ⊆ instances st /\
  (forall id d, descendant st id d -> id ∈ instances st -> id ∉ instances st' ->
     d ∉ instances st') /\
  (forall id, id ∈ instances st' ->
     be_GetWorkflowRuntimeState st' id = be_GetWorkflowRuntimeState st id) /\
  (err = None -> iid ∉ instances st') /\
  (noRemote st -> n = removed st st').
Proof.
  intros (Hp & Hi & Hn)%purgeWorkflowState_ok.
  split_and!; [apply (pg_sub _ _ Hp) | | | | done].
  - intros id d Hd H1 H2. by eapply purged_descendants.
  - intros id Hid. by apply pg_survives.
  - intros ->. by apply Hi.
Qed.

(** The recursive purge returns whenever the local child graph is
    well-founded: a rank that decreases from parent to child bounds the depth of
    the recursion. *)
Theorem purge_terminates fuel st iid force rank :
  acyclic st rank -> (rank iid < fuel)%nat ->
  exists r, purgeWorkflowState fuel st iid None true force = Some r.
Proof. intros Ha Hf. destruct (purgeWorkflowState_returns fuel st iid force rank Ha Hf)
  as (st' & n & err & E). eauto. Qed.

(** The well-foundedness the termination of the purge asks for is needed:
    on a store in which a completed workflow recorded a child under its own
    instance id, the recursive purge calls itself on the same unchanged state for
    ever, because an instance is deleted only after its children. *)
Theorem purge_self_child_diverges fuel st iid force state r :
  be_GetWorkflowRuntimeState st iid = inl state ->
  IsCompleted state = true ->
  childRouters state = {[iid := r]} -> isRemoteRouter r = false ->
  purgeWorkflowState fuel st iid None true force = None.
Proof.
  intros Hl Hc Hch Hr. induction fuel as [|fuel IH]; [done |]. cbn. rewrite Hl, Hc.
  assert ((length (NewEvents state) + length (OldEvents state) =? 0) = false)%nat as ->.
  { apply Nat.eqb_neq. intros [H1%nil_length_inv H2%nil_length_inv]%Nat.eq_add_0.
    rewrite (childRouters_gone state (conj H1 H2)) in Hch.
    assert ((∅ : gmap string (option TaskRouter)) !! iid = Some r) as Hbad
      by (rewrite Hch; apply lookup_singleton_eq).
    by rewrite lookup_empty in Hbad. }
  rewrite andb_false_r.
  assert (getChildWorkflowInstances (OldEvents state) (NewEvents state) = [(iid, r)]) as ->.
  { apply Permutation_singleton_r. unfold getChildWorkflowInstances.
    fold (childRouters state). rewrite mapRange_perm, Hch. by rewrite map_to_list_singleton. }
  cbn. by rewrite Hr, IH.
Qed.
End PurgeLemmas.

(** Cascading termination addresses every child once: a recursive terminate
    appends one terminate message per distinct child id of the log, with the
    router recorded for that child and the terminate's reason, and nothing else;
    a non-recursive one appends nothing. *)
Theorem cascade_targets_each_child `{MapRange} s w et :
  let s' := (appendCascadeTerminateMessages s w et).1 in
  exists ms, s' = set_PendingMessages (PendingMessages s ++ ms) s /\
    (et_Recurse et = false -> ms = []) /\
    (et_Recurse et = true ->
      NoDup (map msg_TargetInstanceId ms) /\
      (forall id, id ∈ map msg_TargetInstanceId ms <-> id ∈ childIds (history s)) /\
      Forall (fun m => childRouters s !! msg_TargetInstanceId m = Some (Router (msg_HistoryEvent m)) /\
        GetExecutionTerminated (msg_HistoryEvent m) =
          Some (mkExecutionTerminatedEvent (et_Input et) true)) ms).
Proof.
  cbv zeta. unfold appendCascadeTerminateMessages. destruct (et_Recurse et) eqn:Hr; cbn [negb].
  - destruct (cascadeLoop_spec et (getChildWorkflowInstances (OldEvents s) (NewEvents s)) s w)
      as (ms & -> & Hm & HF).
    assert (map msg_TargetInstanceId ms
      = (getChildWorkflowInstances (OldEvents s) (NewEvents s)).*1) as Ht.
    { rewrite <- Hm. clear. induction ms; cbn; congruence. }
    exists ms. split_and!; [done | done |]. intros _. rewrite Ht. split_and!.
    + apply getChildWorkflowInstances_NoDup.
    + apply getChildWorkflowInstances_ids.
    + rewrite Hr in HF. apply Forall_forall. intros m Hin. split; [| by eapply Forall_forall in HF].
      unfold childRouters. apply elem_of_map_to_list. rewrite <- mapRange_perm.
      fold (getChildWorkflowInstances (OldEvents s) (NewEvents s)). rewrite <- Hm.
      by apply (list_elem_of_fmap_2
        (fun m => (msg_TargetInstanceId m, Router (msg_HistoryEvent m)))).
  - exists []. rewrite app_nil_r. split_and!; [by destruct s | done | done].
Qed.

(** ** A store for the witnesses: an in-memory map *)

#[local] Instance listRange : MapRange := {| mapRange := map_to_list; mapRange_perm := fun _ => reflexivity _ |}.

Definition memPurge (st : gmap string WorkflowRuntimeState) (id : string)
    (r : option TaskRouter) (recursive force : bool)
    : gmap string WorkflowRuntimeState * Z * option error :=
  if isRemoteRouter r then (st, 0, Some (errorNew "cross-app purge is not supported"))
  else match st !! id with
       | None => (st, 0, Some ErrInstanceNotFound)
       | Some s => if negb force && negb (IsCompleted s) then (st, 0, Some ErrNotCompleted)
                   else (delete id st, 1, None)
       end.

#[local] Instance memBackend : PurgeBackend (gmap string WorkflowRuntimeState) := {|
  be_GetWorkflowRuntimeState := fun st id =>
    match st !! id with
    | Some s => if (length (NewEvents s) + length (OldEvents s) =? 0)%nat
                then inr (errorNew "corrupt") else inl s
    | None => inl (emptyRuntimeState id None)
    end;
  be_PurgeWorkflowState := memPurge
|}.

#[local] Instance memBackendOk : PurgeBackendOk (gmap string WorkflowRuntimeState).
Proof.
  refine {| instances := fun st => dom st |}.
  - intros st id r rec force st' n Hr H. cbn in H. unfold memPurge in H. rewrite Hr in H.
    destruct (st !! id) eqn:E; [| done]. case_match; simplify_eq. split_and!.
    + done.
    + by apply elem_of_dom_2 in E.
    + by rewrite dom_delete_L.
    + cbn. rewrite lookup_delete_eq. by intros s [= <-].
    + intros id' Hne. cbn. by rewrite lookup_delete_ne by done.
  - intros st id r rec force st' n err Hr H. cbn in H. unfold memPurge in H. rewrite Hr in H.
    destruct (st !! id) eqn:E; [case_match; simplify_eq; done |]. simplify_eq.
    split; [done |]. intros _. by apply not_elem_of_dom.
  - intros st id r rec force st' n res Hr H. cbn in H. unfold memPurge in H. rewrite Hr in H.
    by simplify_eq.
  - intros st id state H H1 H2. cbn in H. apply not_elem_of_dom.
    destruct (st !! id) eqn:E; [| done]. case_match eqn:Hl; simplify_eq.
    rewrite H1, H2 in Hl. done.
  - intros st id err H He. cbn in H. repeat case_match; simplify_eq.
Defined.

Definition doneWith (id : string) (children : list string) : WorkflowRuntimeState :=
  (addEach (emptyRuntimeState id None)
    (ev (-1) 1 (HistoryEvent_ExecutionStarted sampleStart) ::
     map (fun c => ev 1 2 (HistoryEvent_ChildWorkflowInstanceCreated
       (mkChildWorkflowInstanceCreatedEvent c "C" None None None None None))) children ++
     [ev 2 3 (HistoryEvent_ExecutionCompleted (mkExecutionCompletedEvent COMPLETED None None))])).1.

Definition sampleStore : gmap string WorkflowRuntimeState :=
  {["p" := doneWith "p" ["c"; "d"]; "c" := doneWith "c" ["d"]; "d" := doneWith "d" [];
    "other" := doneWith "other" []]}.

Definition purgedStore : gmap string WorkflowRuntimeState := {["other" := doneWith "other" []]}.

Lemma purge_leaves_no_orphans_witness :
  purgeWorkflowState 4 sampleStore "p" None true false = Some (purgedStore, 3, None) /\
  "d" ∉ (dom purgedStore : gset string).
Proof.
  assert (purgeWorkflowState 4 sampleStore "p" None true false = Some (purgedStore, 3, None)) as E
    by (vm_compute; reflexivity).
  split; [exact E |]. change ("d" ∉ instances purgedStore).
  apply (proj1 (proj2 (purge_leaves_no_orphans 4 sampleStore "p" false purgedStore 3 None E))
    "p" "d"); [| decide_now | decide_now].
  apply (descendant_child _ "p" (doneWith "p" ["c"; "d"]) "d" None);
    [vm_compute; reflexivity | vm_compute; reflexivity | reflexivity | decide_now | constructor].
Defined.

Definition depthOf (id : string) : nat :=
  if String.eqb id "p" then 2 else if String.eqb id "c" then 1 else 0.

Lemma purge_terminates_witness :
  exists r, purgeWorkflowState 3 sampleStore "p" None true false = Some r.
Proof.
  apply (purge_terminates 3 sampleStore "p" false depthOf); [| decide_now].
  assert (map_Forall (fun id s => map_Forall (fun c _ => (depthOf c < depthOf id)%nat)
    (childRouters s)) sampleStore) as HF by decide_now.
  intros id state c r Hl Hc _. cbn [be_GetWorkflowRuntimeState memBackend] in Hl.
  destruct (sampleStore !! id) as [s|] eqn:E.
  - case_match; simplify_eq. exact (HF id _ E c r Hc).
  - by simplify_eq.
Defined.

Definition selfStore : gmap string WorkflowRuntimeState := {["p" := doneWith "p" ["p"]]}.

Lemma purge_self_child_diverges_witness :
  purgeWorkflowState 50 selfStore "p" None true false = None.
Proof.
  apply (purge_self_child_diverges 50 selfStore "p" false (doneWith "p" ["p"]) None);
    vm_compute; reflexivity.
Defined.
