(* ===== verification/HistoryCache.v ===== *)
(** * The worker's history cache (client/worker_history.go)

    A worker that advertised the stateful-history capability keeps, per instance,
    the committed history of its last turn, so that the service can send only
    what was added since.  The cache is bounded by a number of entries and by a
    byte budget, and evicts the least recently used entries.  The clock reading
    of an operation is its argument [tnow]. *)

From stdpp Require Import base list option strings gmap fin_maps relations.
From Stdlib Require Import ZArith Lia.
From S2P Require Import Prelude Errors Protos.

Definition maxCachedWorkflowHistories : Z := 100000.
Definition cachedWorkflowHistoryTTL : Z := Hour.
Definition cachedWorkflowHistorySweepInterval : Z := Minute.

Record workflowHistoryCacheConfig := mkHistoryCacheConfig {
  cfg_ttl : option Z;
  cfg_sweepInterval : option Z;
  cfg_maxInstances : option Z;
  cfg_maxBytes : option Z
}.

Record cachedWorkflowHistory := mkCachedHistory {
  ch_executionID : string;
  ch_events : list HistoryEvent;
  ch_lastAccess : Z;
  ch_bytes : Z
}.

Record workflowHistoryCache := mkHistoryCache {
  hc_entries : gmap string cachedWorkflowHistory;
  hc_totalBytes : Z;
  hc_ttl : Z;
  hc_sweepInterval : Z;
  hc_maxInstances : Z;
  hc_maxBytes : Z
}.

(** A configured positive value, or the default. *)
Definition configured (v : option Z) (dflt : Z) : Z :=
  match v with
  | Some x => if 0 <? x then x else dflt
  | None => dflt
  end.

Definition newWorkflowHistoryCache (cfg : workflowHistoryCacheConfig) : workflowHistoryCache :=
  mkHistoryCache ∅ 0
    (configured (cfg_ttl cfg) cachedWorkflowHistoryTTL)
    (configured (cfg_sweepInterval cfg) cachedWorkflowHistorySweepInterval)
    (configured (cfg_maxInstances cfg) maxCachedWorkflowHistories)
    (configured (cfg_maxBytes cfg) 0).

(** The first start event decides, also when it carries no execution id. *)
Fixpoint historyExecutionID (events : list HistoryEvent) : string :=
  match events with
  | [] => ""
  | event :: rest =>
      match GetExecutionStarted event with
      | Some started => GetValue (startExecutionId (Some started))
      | None => historyExecutionID rest
      end
  end.

Definition workflowHistoryReset (resp : WorkflowResponse) : bool :=
  existsb (fun a => match GetCompleteWorkflow a with Some _ => true | None => false end)
    (resp_Actions resp).

(** [t.Sub(u)] saturates at the ends of [time.Duration]. *)
Definition timeSub (t u : Z) : Z := Z.max (- 2 ^ 63) (Z.min int64_max (t - u)).

Definition with_entries (h : workflowHistoryCache) (m : gmap string cachedWorkflowHistory) (total : Z)
    : workflowHistoryCache :=
  mkHistoryCache m total (hc_ttl h) (hc_sweepInterval h) (hc_maxInstances h) (hc_maxBytes h).

(** [len(h.entries)] *)
Definition entryCount (h : workflowHistoryCache) : Z := Z.of_nat (size (hc_entries h)).

Definition removeEntry (iid : string) (h : workflowHistoryCache) : workflowHistoryCache :=
  match hc_entries h !! iid with
  | Some e => with_entries h (delete iid (hc_entries h)) (int64_of (hc_totalBytes h - ch_bytes e))
  | None => h
  end.

(** [delete] of the source. *)
Definition cacheDelete (iid : string) (h : workflowHistoryCache) : workflowHistoryCache :=
  removeEntry iid h.

Definition cacheReset (h : workflowHistoryCache) : workflowHistoryCache := with_entries h ∅ 0.

(** [get(iid, executionID...)]: a hit counts as an access. *)
Definition cacheGet (tnow : Z) (iid : string) (executionID : list string) (h : workflowHistoryCache)
    : workflowHistoryCache * option (list HistoryEvent) :=
  match hc_entries h !! iid with
  | None => (h, None)
  | Some e =>
      if match executionID with
         | [] => false
         | x :: _ => String.eqb x "" || negb (String.eqb (ch_executionID e) x)
         end
      then (h, None)
      else (with_entries h
              (<[iid := mkCachedHistory (ch_executionID e) (ch_events e) tnow (ch_bytes e)]> (hc_entries h))
              (hc_totalBytes h),
            Some (ch_events e))
  end.

Definition getForExecution (tnow : Z) (iid executionID : string) (h : workflowHistoryCache)
    : workflowHistoryCache * option (list HistoryEvent) :=
  cacheGet tnow iid [executionID] h.

Section Cache.
Context `{HR : RangeOrder}.

(** [proto.Size] *)
Variable Size : HistoryEvent -> Z.

Definition historyBytes (events : list HistoryEvent) : Z :=
  foldl (fun total e => int64_of (total + Size e)) 0 events.

(** The scan of [lruExcept], with the oldest entry so far. *)
Fixpoint lruLoop (keep : string) (l : list (string * cachedWorkflowHistory)) (oldest : option (string * Z))
    : option (string * Z) :=
  match l with
  | [] => oldest
  | (id, e) :: rest =>
      if String.eqb id keep then lruLoop keep rest oldest
      else if match oldest with Some (_, oldestAccess) => ch_lastAccess e <? oldestAccess | None => true end
      then lruLoop keep rest (Some (id, ch_lastAccess e))
      else lruLoop keep rest oldest
  end.

Definition lruExcept (keep : string) (h : workflowHistoryCache) : option string :=
  fst <$> lruLoop keep (rangeOrder (hc_entries h)) None.

Definition overBudget (h : workflowHistoryCache) : bool :=
  (hc_maxInstances h <? entryCount h) || ((0 <? hc_maxBytes h) && (hc_maxBytes h <? hc_totalBytes h)).

(** Every round removes an entry, so the number of entries is enough fuel. *)
Fixpoint evictLoop (fuel : nat) (keep : string) (h : workflowHistoryCache) : workflowHistoryCache :=
  match fuel with
  | O => h
  | S fuel =>
      if 1 <? entryCount h then
        if overBudget h then
          match lruExcept keep h with
          | Some victim => evictLoop fuel keep (removeEntry victim h)
          | None => h
          end
        else h
      else h
  end.

Definition evictToFit (keep : string) (h : workflowHistoryCache) : workflowHistoryCache :=
  evictLoop (size (hc_entries h)) keep h.

(** The entry is in place, before anything is evicted. *)
Definition storeEntry (tnow : Z) (iid executionID : string) (events : list HistoryEvent)
    (h : workflowHistoryCache) : workflowHistoryCache :=
  let sz := if 0 <? hc_maxBytes h then historyBytes events else 0 in
  let total := match hc_entries h !! iid with
               | Some old => int64_of (hc_totalBytes h - ch_bytes old)
               | None => hc_totalBytes h
               end in
  with_entries h (<[iid := mkCachedHistory executionID events tnow sz]> (hc_entries h))
    (int64_of (total + sz)).

Definition putForExecution (tnow : Z) (iid executionID : string) (events : list HistoryEvent)
    (h : workflowHistoryCache) : workflowHistoryCache :=
  evictToFit iid (storeEntry tnow iid executionID events h).

(** [put] of the source. *)
Definition cachePut (tnow : Z) (iid : string) (events : list HistoryEvent) (h : workflowHistoryCache)
    : workflowHistoryCache :=
  putForExecution tnow iid (historyExecutionID events) events h.

Definition sweepExpired (tnow : Z) (h : workflowHistoryCache) : workflowHistoryCache :=
  foldl (fun h '(iid, e) =>
           if hc_ttl h <? timeSub tnow (ch_lastAccess e) then removeEntry iid h else h)
    h (rangeOrder (hc_entries h)).

(** ** Accounting

    The byte total is the sum of the sizes of the entries, at the width of an
    [int64]. *)
Definition sumBytes (m : gmap string cachedWorkflowHistory) : Z :=
  map_fold (fun _ e acc => ch_bytes e + acc) 0 m.

Definition cache_wf (h : workflowHistoryCache) : Prop :=
  hc_totalBytes h = int64_of (sumBytes (hc_entries h)).

(** [same_limits h h']: the configuration of a cache does not change. *)
Definition same_limits (h h' : workflowHistoryCache) : Prop :=
  hc_ttl h' = hc_ttl h /\ hc_maxInstances h' = hc_maxInstances h /\ hc_maxBytes h' = hc_maxBytes h.

#[global] Instance same_limits_preorder : PreOrder same_limits.
Proof. split; [done | intros x y z (?&?&?) (?&?&?); unfold same_limits; split_and!; congruence]. Qed.

(** [fits h]: nothing is left to evict. *)
Definition fits (h : workflowHistoryCache) : Prop := entryCount h ≤ 1 \/ overBudget h = false.

Lemma sumBytes_delete m i e :
  m !! i = Some e -> sumBytes m = ch_bytes e + sumBytes (delete i m).
Proof. intros Hi. unfold sumBytes. rewrite (map_fold_delete_L _ _ i e) by (done || lia). done. Qed.

Lemma sumBytes_insert m i e :
  sumBytes (<[i := e]> m) = ch_bytes e + sumBytes (delete i m).
Proof.
  rewrite (sumBytes_delete _ i e) by apply lookup_insert_eq. by rewrite delete_insert_eq.
Qed.

Lemma removeEntry_wf i h : cache_wf h -> cache_wf (removeEntry i h).
Proof.
  unfold cache_wf, removeEntry. destruct (hc_entries h !! i) as [e|] eqn:E; [| done]. cbn.
  intros ->. rewrite int64_of_sub, (sumBytes_delete _ _ _ E). f_equal. lia.
Qed.

Lemma removeEntry_entries i h : hc_entries (removeEntry i h) = delete i (hc_entries h).
Proof.
  unfold removeEntry. destruct (hc_entries h !! i) eqn:E; [done |]. by rewrite delete_id.
Qed.

Lemma removeEntry_limits i h : same_limits h (removeEntry i h).
Proof. unfold removeEntry. by destruct (hc_entries h !! i). Qed.

Lemma storeEntry_wf tnow iid x events h : cache_wf h -> cache_wf (storeEntry tnow iid x events h).
Proof.
  unfold cache_wf, storeEntry. cbn. intros ->. rewrite sumBytes_insert. cbn.
  destruct (hc_entries h !! iid) as [old|] eqn:E.
  - rewrite int64_of_sub, int64_of_add, (sumBytes_delete _ _ _ E). f_equal. lia.
  - rewrite int64_of_add, delete_id by done. f_equal. lia.
Qed.

Lemma cacheGet_wf tnow iid x h : cache_wf h -> cache_wf (cacheGet tnow iid x h).1.
Proof.
  unfold cache_wf, cacheGet. destruct (hc_entries h !! iid) as [e|] eqn:E; [| done].
  case_match; [done |]. cbn. intros ->. rewrite sumBytes_insert, (sumBytes_delete _ _ _ E). done.
Qed.

Lemma map_Forall_sub {A} (P : string -> A -> Prop) (m1 m2 : gmap string A) :
  m1 ⊆ m2 -> map_Forall P m2 -> map_Forall P m1.
Proof. intros Hs Hm i x Hi. apply Hm. by eapply lookup_weaken. Qed.

(** ** Eviction *)

(** The scan finds an oldest entry other than [keep]. *)
Lemma lruLoop_spec keep l best :
  match lruLoop keep l best with
  | None => best = None /\ Forall (fun x => x.1 = keep) l
  | Some (v, t) =>
      (best = Some (v, t) \/ exists e, (v, e) ∈ l /\ v <> keep /\ ch_lastAccess e = t) /\
      (forall b, best = Some b -> t ≤ b.2) /\
      (forall id e, (id, e) ∈ l -> id <> keep -> t ≤ ch_lastAccess e)
  end.
Proof.
  revert best. induction l as [|[id e] rest IH]; intros best; cbn [lruLoop].
  { destruct best as [[v t]|]; split_and!; try done; [by left | intros b [= <-]; cbn; lia |].
    intros id e H%elem_of_nil. done. }
  destruct (String.eqb_spec id keep) as [->|Hne].
  { specialize (IH best). destruct (lruLoop keep rest best) as [[v t]|].
    - destruct IH as (H1 & H2 & H3). split_and!; [| done |].
      + destruct H1 as [?|(e' & ? & ?)]; [by left | right; exists e'; split; [by constructor | done]].
      + intros id e' [[= -> ->]|?]%elem_of_cons; [done | by eauto].
    - destruct IH. split; [done | by constructor]. }
  destruct (match best with Some (_, a) => ch_lastAccess e <? a | None => true end) eqn:C.
  - specialize (IH (Some (id, ch_lastAccess e))).
    destruct (lruLoop keep rest (Some (id, ch_lastAccess e))) as [[v t]|]; [| by destruct IH].
    destruct IH as (H1 & H2 & H3). specialize (H2 _ eq_refl). cbn in H2. split_and!.
    + right. destruct H1 as [[= <- <-]|(e' & ? & ? & ?)]; [exists e | exists e']; split_and!; try done; by constructor.
    + intros [b tb] ->. cbn. lia.
    + intros id' e' [[= -> ->]|?]%elem_of_cons; [done | by eauto].
  - specialize (IH best). destruct best as [[b tb]|]; [| done].
    destruct (lruLoop keep rest (Some (b, tb))) as [[v t]|]; [| by destruct IH].
    destruct IH as (H1 & H2 & H3). pose proof (H2 _ eq_refl) as H2'. cbn in H2'. split_and!; [| done |].
    + destruct H1 as [?|(e' & ? & ?)]; [by left | right; exists e'; split; [by constructor | done]].
    + intros id' e' [[= -> ->]|?]%elem_of_cons; [lia | by eauto].
Qed.

Lemma lruExcept_Some keep h v :
  lruExcept keep h = Some v ->
  v <> keep /\ exists e, hc_entries h !! v = Some e /\
    forall id e', hc_entries h !! id = Some e' -> id <> keep -> ch_lastAccess e ≤ ch_lastAccess e'.
Proof.
  unfold lruExcept. pose proof (lruLoop_spec keep (rangeOrder (hc_entries h)) None) as H.
  destruct (lruLoop keep (rangeOrder (hc_entries h)) None) as [[v' t]|]; [| done]. intros [= <-]. cbn.
  destruct H as ([?|(e & He & Hne & <-)] & _ & H3); [done |]. split; [done |].
  exists e. split; [by apply elem_of_rangeOrder |]. intros id e' Hl. apply H3. by apply elem_of_rangeOrder.
Qed.

(** More than one entry: there is one to evict. *)
Lemma lruExcept_None keep h : lruExcept keep h = None -> entryCount h ≤ 1.
Proof.
  unfold lruExcept. pose proof (lruLoop_spec keep (rangeOrder (hc_entries h)) None) as H.
  destruct (lruLoop keep (rangeOrder (hc_entries h)) None) as [[v' t]|]; [done |]. intros _.
  destruct H as [_ H]. unfold entryCount.
  assert (hc_entries h ⊆ (default ∅ ((fun e => {[keep := e]}) <$> (hc_entries h !! keep)))) as Hs.
  { apply map_subseteq_spec. intros id e He.
    assert (id = keep) as ->. { apply elem_of_rangeOrder in He. rewrite Forall_forall in H. apply (H _ He). }
    rewrite He. cbn. apply lookup_singleton_eq. }
  apply map_subseteq_size in Hs.
  destruct (hc_entries h !! keep); cbn in Hs; rewrite ?map_size_singleton, ?map_size_empty in Hs; lia.
Qed.

(** What eviction may do to a cache: it drops entries other than [keep], the least
    recently used ones first. *)
Record trimmed (keep : string) (h h' : workflowHistoryCache) : Prop := {
  tr_limits : same_limits h h';
  tr_sub : hc_entries h' ⊆ hc_entries h;
  tr_keep : hc_entries h' !! keep = hc_entries h !! keep;
  tr_lru : forall id e id' e',
    hc_entries h !! id = Some e -> hc_entries h' !! id = None ->
    hc_entries h' !! id' = Some e' -> id' <> keep -> ch_lastAccess e ≤ ch_lastAccess e'
}.

Lemma trimmed_refl keep h : trimmed keep h h.
Proof. split; try done. congruence. Qed.

Lemma trimmed_step keep v h h' :
  lruExcept keep h = Some v -> trimmed keep (removeEntry v h) h' -> trimmed keep h h'.
Proof.
  intros (Hne & e & He & Hmin)%lruExcept_Some [T1 T2 T3 T4]. rewrite removeEntry_entries in T2, T3, T4.
  assert (hc_entries h' ⊆ hc_entries h) as Hs by (etrans; [exact T2 | apply delete_subseteq]).
  split; [etrans; [apply removeEntry_limits | exact T1] | done | by rewrite T3, lookup_delete_ne |].
  intros id e1 id' e' H1 H2 H3 Hk. destruct (decide (id = v)) as [-> | Hv].
  - simplify_eq. eapply Hmin; [| done]. by eapply lookup_weaken.
  - eapply T4; [by rewrite lookup_delete_ne | done | exact H3 | done].
Qed.

Lemma evictLoop_spec fuel keep h :
  entryCount h ≤ Z.of_nat fuel ->
  trimmed keep h (evictLoop fuel keep h) /\ fits (evictLoop fuel keep h) /\
  (cache_wf h -> cache_wf (evictLoop fuel keep h)).
Proof.
  revert h. induction fuel as [|fuel IH]; intros h Hf; cbn [evictLoop].
  { split_and!; [apply trimmed_refl | left; lia | done]. }
  destruct (Z.ltb_spec 1 (entryCount h)) as [H1|H1];
    [| split_and!; [apply trimmed_refl | by left | done]].
  destruct (overBudget h) eqn:Ho; [| split_and!; [apply trimmed_refl | by right | done]].
  destruct (lruExcept keep h) as [v|] eqn:Hv; [| apply lruExcept_None in Hv; lia].
  pose proof (lruExcept_Some _ _ _ Hv) as (_ & e & He & _).
  destruct (IH (removeEntry v h)) as (I1 & I2 & I3).
  { unfold entryCount in *. rewrite removeEntry_entries, map_size_delete, He. lia. }
  split_and!; [by eapply trimmed_step | done |]. intros Hw. apply I3. by apply removeEntry_wf.
Qed.

Lemma evictToFit_spec keep h :
  trimmed keep h (evictToFit keep h) /\ fits (evictToFit keep h) /\
  (cache_wf h -> cache_wf (evictToFit keep h)).
Proof. apply evictLoop_spec. done. Qed.

Lemma evictToFit_id keep h : fits h -> evictToFit keep h = h.
Proof.
  unfold evictToFit. destruct (size (hc_entries h)); [done |]. cbn [evictLoop]. intros [H | ->].
  - by destruct (Z.ltb_spec 1 (entryCount h)); [lia |].
  - by destruct (1 <? entryCount h).
Qed.

(** ** The cache over time

    The operations of the cache, by whichever goroutine.  A history is put only
    when its size is below 2^62 bytes. *)
Definition totalSize (events : list HistoryEvent) : Z := foldr (fun e acc => Size e + acc) 0 events.

Inductive cache_step : workflowHistoryCache -> workflowHistoryCache -> Prop :=
| step_get tnow iid x h : cache_step h (cacheGet tnow iid x h).1
| step_put tnow iid x events h :
    totalSize events < 2 ^ 62 -> cache_step h (putForExecution tnow iid x events h)
| step_delete iid h : cache_step h (cacheDelete iid h)
| step_reset h : cache_step h (cacheReset h)
| step_sweep tnow h : cache_step h (sweepExpired tnow h).

Hypothesis Size_nonneg : forall e, 0 ≤ Size e.

Lemma totalSize_nonneg events : 0 ≤ totalSize events.
Proof.
  unfold totalSize. induction events as [|x r IH]; cbn; [done |]. pose proof (Size_nonneg x). lia.
Qed.

Lemma historyBytes_exact events :
  totalSize events < 2 ^ 62 -> historyBytes events = totalSize events.
Proof.
  unfold historyBytes. assert (forall acc, 0 ≤ acc -> acc + totalSize events < 2 ^ 62 ->
    foldl (fun total e => int64_of (total + Size e)) acc events = acc + totalSize events) as Hg;
    [| intros H; rewrite Hg; lia].
  induction events as [|e rest IH]; intros acc Ha Hs; cbn [foldl]; [cbn; lia |].
  change (totalSize (e :: rest)) with (Size e + totalSize rest) in *.
  pose proof (totalSize_nonneg rest). pose proof (Size_nonneg e).
  rewrite int64_of_id by (unfold int64_max; lia). rewrite IH; lia.
Qed.

(** What holds of a cache between operations. *)
Record cache_ok (h : workflowHistoryCache) : Prop := {
  ok_wf : cache_wf h;
  ok_max : 1 ≤ hc_maxInstances h;
  ok_budget : 0 ≤ hc_maxBytes h < 2 ^ 62;
  ok_bytes : map_Forall (fun _ e => 0 ≤ ch_bytes e < 2 ^ 62) (hc_entries h);
  ok_unsized : hc_maxBytes h = 0 -> map_Forall (fun _ e => ch_bytes e = 0) (hc_entries h);
  ok_count : entryCount h ≤ hc_maxInstances h;
  ok_sum : 0 < hc_maxBytes h -> entryCount h ≤ 1 \/ sumBytes (hc_entries h) ≤ hc_maxBytes h
}.

Lemma sumBytes_nonneg m : map_Forall (fun _ e => 0 ≤ ch_bytes e < 2 ^ 62) m -> 0 ≤ sumBytes m.
Proof.
  unfold sumBytes. induction m as [|i e m Hi Hf IH] using map_first_key_ind; [done |].
  intros [He Hm]%map_Forall_insert; [| done].
  rewrite map_fold_insert_L; [| lia | done]. specialize (IH Hm). lia.
Qed.

Lemma sumBytes_mono m1 m2 :
  map_Forall (fun _ e => 0 ≤ ch_bytes e < 2 ^ 62) m2 -> m1 ⊆ m2 -> sumBytes m1 ≤ sumBytes m2.
Proof.
  revert m2. induction m1 as [|i e m1 Hi _ IH] using map_first_key_ind; intros m2 Hb Hs.
  { by apply sumBytes_nonneg. }
  assert (m2 !! i = Some e) as He by (eapply lookup_weaken; [apply lookup_insert_eq | done]).
  rewrite sumBytes_insert, (sumBytes_delete m2 _ _ He), delete_id by done.
  assert (sumBytes m1 ≤ sumBytes (delete i m2)); [| lia].
  apply IH; [by apply map_Forall_delete |]. apply map_subseteq_spec. intros j x Hj.
  assert (i <> j) by (intros ->; congruence). rewrite lookup_delete_ne by done.
  eapply lookup_weaken; [| exact Hs]. by rewrite lookup_insert_ne.
Qed.

Lemma sumBytes_unsized m : map_Forall (fun _ e => ch_bytes e = 0) m -> sumBytes m = 0.
Proof.
  unfold sumBytes. induction m as [|i e m Hi Hf IH] using map_first_key_ind; [done |].
  intros [He Hm]%map_Forall_insert; [| done].
  rewrite map_fold_insert_L; [| lia | done]. rewrite (IH Hm). lia.
Qed.

Lemma sumBytes_single m :
  Z.of_nat (size m) ≤ 1 -> map_Forall (fun _ e => 0 ≤ ch_bytes e < 2 ^ 62) m -> sumBytes m < 2 ^ 62.
Proof.
  intros Hs Hb. destruct (decide (m = ∅)) as [-> | (i & e & He)%map_choose]; [done |].
  rewrite (sumBytes_delete _ _ _ He). assert (delete i m = ∅) as ->.
  { apply map_size_empty_inv. rewrite map_size_delete, He. lia. }
  destruct (Hb _ _ He). change (sumBytes ∅) with 0. lia.
Qed.

Lemma cache_ok_sum h : cache_ok h -> sumBytes (hc_entries h) < 2 ^ 62.
Proof.
  intros [_ _ Hb Hbytes Hu _ Hs]. destruct (decide (0 < hc_maxBytes h)) as [Hp|Hz].
  - destruct (Hs Hp) as [H1|H1]; [by apply sumBytes_single | lia].
  - rewrite sumBytes_unsized by (apply Hu; lia). lia.
Qed.

Lemma cache_ok_total h : cache_ok h -> hc_totalBytes h = sumBytes (hc_entries h).
Proof.
  intros H. pose proof (cache_ok_sum h H). pose proof (sumBytes_nonneg _ (ok_bytes h H)).
  rewrite (ok_wf h H). apply int64_of_id. unfold int64_max. lia.
Qed.

Lemma removeEntry_ok i h : cache_ok h -> cache_ok (removeEntry i h).
Proof.
  intros H. destruct (hc_entries h !! i) as [e|] eqn:E;
    [| by unfold removeEntry; rewrite E].
  destruct (removeEntry_limits i h) as (_ & L1 & L2). pose proof (removeEntry_entries i h) as He.
  destruct H as [H1 H2 H3 H4 H5 H6 H7].
  assert (entryCount (removeEntry i h) = entryCount h - 1) as Hc.
  { unfold entryCount. rewrite He, map_size_delete, E.
    assert (size (hc_entries h) <> 0%nat); [| lia]. intros Hz%map_size_empty_inv. by rewrite Hz in E. }
  split; rewrite ?L1, ?L2, ?He, ?Hc; try done; [by apply removeEntry_wf | | | lia |].
  - by apply map_Forall_delete.
  - intros Hz. by apply map_Forall_delete, H5.
  - intros Hp. destruct (H7 Hp) as [H|H]; [left; lia | right].
    rewrite (sumBytes_delete _ _ _ E) in H. destruct (H4 _ _ E). lia.
Qed.

Lemma sweepExpired_ok tnow h : cache_ok h -> cache_ok (sweepExpired tnow h).
Proof.
  unfold sweepExpired. generalize (rangeOrder (hc_entries h)). intros l. revert h.
  induction l as [|[iid e] rest IH]; intros h H; cbn [foldl]; [done |].
  apply IH. destruct (hc_ttl h <? _); [by apply removeEntry_ok | done].
Qed.

Lemma cacheGet_ok tnow iid x h : cache_ok h -> cache_ok (cacheGet tnow iid x h).1.
Proof.
  intros H. pose proof (cacheGet_wf tnow iid x h (ok_wf h H)) as Hw. unfold cacheGet in *.
  destruct (hc_entries h !! iid) as [e|] eqn:E; [| done]. case_match; [done |]. cbn in *.
  destruct H as [H1 H2 H3 H4 H5 H6 H7].
  assert (forall e', size (<[iid := e']> (hc_entries h)) = size (hc_entries h)) as Hs.
  { intros e'. by rewrite map_size_insert, E. }
  split; cbn; unfold entryCount in *; cbn; rewrite ?Hs; try done.
  - apply map_Forall_insert_2; [by apply (H4 _ _ E) | done].
  - intros Hz. apply map_Forall_insert_2; [by apply (H5 Hz _ _ E) | by apply H5].
  - intros Hp. destruct (H7 Hp) as [H|H']; [by left | right]. rewrite sumBytes_insert. cbn.
    by rewrite <- (sumBytes_delete _ _ _ E).
Qed.

Lemma putForExecution_ok tnow iid x events h :
  totalSize events < 2 ^ 62 -> cache_ok h -> cache_ok (putForExecution tnow iid x events h).
Proof.
  intros Hsz H. unfold putForExecution. set (h1 := storeEntry tnow iid x events h).
  destruct (evictToFit_spec iid h1) as ([(_ & L1 & L2) Hsub _ _] & Hfit & Hw).
  specialize (Hw (storeEntry_wf _ _ _ _ _ (ok_wf h H))). set (h2 := evictToFit iid h1) in *.
  assert (cache_wf h1) as Hw1 by by apply storeEntry_wf, ok_wf.
  pose proof (cache_ok_sum h H) as Hsum. destruct H as [H1 H2 H3 H4 H5 H6 H7].
  pose proof (totalSize_nonneg events) as Hsz0.
  assert (map_Forall (fun _ e => 0 ≤ ch_bytes e < 2 ^ 62) (hc_entries h1)) as Hb1.
  { apply map_Forall_insert_2; [| done]. cbn.
    destruct (0 <? hc_maxBytes h); [| lia]. by rewrite historyBytes_exact. }
  assert (map_Forall (fun _ e => 0 ≤ ch_bytes e < 2 ^ 62) (hc_entries h2)) as Hb2.
  { by eapply map_Forall_sub. }
  assert (sumBytes (hc_entries h2) < 2 ^ 63) as Hs2.
  { eapply Z.le_lt_trans; [exact (sumBytes_mono _ _ Hb1 Hsub) |].
    unfold h1, storeEntry, with_entries. cbn [hc_entries]. rewrite sumBytes_insert. cbn [ch_bytes].
    assert (sumBytes (delete iid (hc_entries h)) ≤ sumBytes (hc_entries h)) by
      by apply sumBytes_mono; [| apply delete_subseteq].
    destruct (0 <? hc_maxBytes h); [rewrite historyBytes_exact by done |]; lia. }
  split; rewrite ?L1, ?L2; try done.
  - intros Hz. eapply map_Forall_sub; [exact Hsub |]. apply map_Forall_insert_2; [| by apply H5].
    cbn in *. by rewrite Hz.
  - destruct Hfit as [Hf|Hf]; [cbn; lia |]. unfold overBudget in Hf.
    apply orb_false_iff in Hf as [Hf%Z.ltb_ge _]. by rewrite L1 in Hf.
  - intros Hp. destruct Hfit as [Hf|Hf]; [by left | right]. unfold overBudget in Hf.
    apply orb_false_iff in Hf as [_ Hf]. rewrite L2 in Hf.
    rewrite (proj2 (Z.ltb_lt 0 _) Hp) in Hf. apply Z.ltb_ge in Hf. rewrite Hw in Hf.
    rewrite int64_of_id in Hf; [done |]. pose proof (sumBytes_nonneg _ Hb2). unfold int64_max. lia.
Qed.

Lemma cache_step_ok h h' : cache_step h h' -> cache_ok h -> cache_ok h'.
Proof.
  destruct 1; intros Hok; [by apply cacheGet_ok | by apply putForExecution_ok | by apply removeEntry_ok | |
    by apply sweepExpired_ok].
  destruct Hok. split; try done; unfold entryCount; cbn [hc_entries cacheReset with_entries hc_maxInstances];
    rewrite map_size_empty; [lia | by left].
Qed.

Lemma cache_step_limits h h' : cache_step h h' -> same_limits h h'.
Proof.
  destruct 1; [| | apply removeEntry_limits | done |].
  - unfold cacheGet. destruct (hc_entries h !! iid); [case_match |]; done.
  - apply (tr_limits _ _ _ (proj1 (evictToFit_spec iid (storeEntry tnow iid x events h)))).
  - unfold sweepExpired. generalize (rangeOrder (hc_entries h)). intros l. revert h.
    induction l as [|[iid e] rest IH]; intros h; cbn [foldl]; [done |].
    destruct (hc_ttl h <? _); [etrans; [apply removeEntry_limits |] |]; apply IH.
Qed.

Lemma new_cache_ok cfg :
  configured (cfg_maxBytes cfg) 0 < 2 ^ 62 -> cache_ok (newWorkflowHistoryCache cfg).
Proof.
  intros Hb. assert (forall v d, 0 ≤ d -> d ≤ configured v d \/ 0 < configured v d) as Hc.
  { intros v d Hd. unfold configured. destruct v as [x|]; [| by left].
    destruct (Z.ltb_spec 0 x); [by right | by left]. }
  pose proof (Hc (cfg_maxInstances cfg) maxCachedWorkflowHistories ltac:(done)) as Hi.
  pose proof (Hc (cfg_maxBytes cfg) 0 ltac:(done)) as Hm.
  split; unfold entryCount, newWorkflowHistoryCache;
    cbn [hc_entries hc_maxInstances hc_maxBytes]; rewrite ?map_size_empty;
    try done; unfold maxCachedWorkflowHistories in *; lia.
Qed.

(** Over any sequence of operations of the worker's goroutines and the
    janitor, the history cache stays within its limits: never more entries than
    configured, and with a byte budget the accounted total is exactly the sum of
    the sizes of the entries and within the budget, unless a single entry is left.
    (Budget and stored histories below 2^62 bytes, so that the [int64] total cannot
    wrap.) *)
Theorem history_cache_bounded cfg h :
  configured (cfg_maxBytes cfg) 0 < 2 ^ 62 ->
  rtc cache_step (newWorkflowHistoryCache cfg) h ->
  entryCount h ≤ configured (cfg_maxInstances cfg) maxCachedWorkflowHistories /\
  hc_totalBytes h = sumBytes (hc_entries h) /\
  (0 < configured (cfg_maxBytes cfg) 0 ->
   entryCount h ≤ 1 \/ hc_totalBytes h ≤ configured (cfg_maxBytes cfg) 0).
Proof.
  intros Hb Hr.
  assert (cache_ok h /\ same_limits (newWorkflowHistoryCache cfg) h) as [Hok (_ & L1 & L2)].
  { eapply (rtc_ind_r (fun h => cache_ok h /\ same_limits (newWorkflowHistoryCache cfg) h)); [| | exact Hr].
    - by split; [apply new_cache_ok |].
    - intros h1 h2 _ Hs [? ?]. split; [by eapply cache_step_ok | etrans; [done | by apply cache_step_limits]]. }
  cbn in L1, L2. rewrite (cache_ok_total h Hok), <- L1, <- L2.
  split_and!; [apply Hok | done | apply Hok].
Qed.

(** Putting a history stores exactly it, keeps every other entry as it was or
    evicts it, evicts in least-recently-used order, and evicts nothing while the
    cache is within its limits. *)
Theorem put_evicts_oldest_first tnow iid x events h :
  let h' := putForExecution tnow iid x events h in
  (exists e, hc_entries h' !! iid = Some e /\ ch_events e = events /\ ch_executionID e = x /\
     ch_lastAccess e = tnow) /\
  (forall id e, id <> iid -> hc_entries h' !! id = Some e -> hc_entries h !! id = Some e) /\
  (forall id e id' e', id <> iid -> id' <> iid ->
     hc_entries h !! id = Some e -> hc_entries h' !! id = None ->
     hc_entries h' !! id' = Some e' -> ch_lastAccess e ≤ ch_lastAccess e') /\
  (overBudget (storeEntry tnow iid x events h) = false -> h' = storeEntry tnow iid x events h).
Proof.
  cbn. unfold putForExecution. set (h1 := storeEntry tnow iid x events h).
  destruct (evictToFit_spec iid h1) as ([_ Hsub Hkeep Hlru] & _ & _).
  assert (forall id, id <> iid -> hc_entries h1 !! id = hc_entries h !! id) as Hh1.
  { intros id Hne. unfold h1, storeEntry. cbn. by apply lookup_insert_ne. }
  split_and!.
  - rewrite Hkeep. unfold h1, storeEntry. cbn. rewrite lookup_insert_eq. by eexists.
  - intros id e Hne He. rewrite <- Hh1 by done. by eapply lookup_weaken.
  - intros id e id' e' Hne Hne' H1 H2 H3. eapply (Hlru id e id' e'); [by rewrite Hh1 | done | done | done].
  - intros Ho. apply evictToFit_id. by right.
Qed.

End Cache.

(** ** Witnesses *)

(** A cache for two instances; three turns put three histories. *)
Definition tinyConfig : workflowHistoryCacheConfig := mkHistoryCacheConfig None None (Some 2) (Some 100).

Definition sampleEvent : HistoryEvent := mkHistoryEvent 1 (Some 5) None None.

Definition sampleSize (_ : HistoryEvent) : Z := 30.

#[local] Existing Instance keyOrder.

Definition threeTurns : workflowHistoryCache :=
  putForExecution sampleSize 3 "c" "x3" [sampleEvent; sampleEvent]
    (putForExecution sampleSize 2 "b" "x2" [sampleEvent]
      (putForExecution sampleSize 1 "a" "x1" [sampleEvent] (newWorkflowHistoryCache tinyConfig))).

Lemma history_cache_bounded_witness :
  hc_entries threeTurns !! "a" = None /\
  entryCount threeTurns ≤ 2 /\ hc_totalBytes threeTurns = sumBytes (hc_entries threeTurns) /\
  (entryCount threeTurns ≤ 1 \/ hc_totalBytes threeTurns ≤ 100).
Proof.
  split; [by vm_compute |].
  destruct (history_cache_bounded sampleSize (fun _ => ltac:(done)) tinyConfig threeTurns) as (H1 & H2 & H3).
  - done.
  - eapply rtc_l; [by apply (step_put sampleSize 1 "a" "x1" [sampleEvent]) |].
    eapply rtc_l; [by apply (step_put sampleSize 2 "b" "x2" [sampleEvent]) |].
    apply rtc_once. by apply (step_put sampleSize 3 "c" "x3" [sampleEvent; sampleEvent]).
  - split_and!; [exact H1 | exact H2 | apply H3; done].
Defined.
