(* ===== verification/StatefulHistory.v ===== *)
(** * The service's side of stateful history (backend/executor_stateful.go)

    For every work-item stream the service remembers how much of each instance's
    committed history the worker at the other end was sent, and sends only the
    rest.  Instances are pinned to streams by rendezvous hashing.  The channel of a
    stream is not part of its state here: it is unbuffered, and who receives an item
    is the choice of a step in [HistoryProtocol]. *)

From stdpp Require Import base list option strings gmap fin_maps.
From Stdlib Require Import ZArith Lia.
From S2P Require Import Prelude Errors Protos Helpers HistoryCache.

Definition maxWarmInstancesPerStream : Z := 1000000.

Record warmHistory := mkWarmHistory {
  wm_executionID : string;
  wm_eventCount : Z
}.

Record streamState := mkStreamState {
  ss_id : string;
  ss_statefulHistory : bool;
  ss_warm : gmap string warmHistory;
  ss_maxWarm : Z
}.

Definition newStreamState (id : string) (capabilities : list WorkerCapability) : streamState :=
  mkStreamState id (existsb (fun c => bool_decide (c = WORKER_CAPABILITY_STATEFUL_HISTORY)) capabilities)
    ∅ maxWarmInstancesPerStream.

(** [executionID] of executor.go: the first start event with an execution id,
    looked for in the new events and then in the old ones. *)
Definition executionID (oldEvents newEvents : list HistoryEvent) : option string :=
  head (omap (fun e => startExecutionId (GetExecutionStarted e)) (newEvents ++ oldEvents)).

(** The request [ExecuteWorkflow] builds for a turn. *)
Definition workflowRequest (iid : string) (oldEvents newEvents : list HistoryEvent)
    (propagated : option PropagatedHistory) : WorkflowRequest :=
  mkWorkflowRequest iid (executionID oldEvents newEvents) oldEvents newEvents propagated None.

(** ** Affinity *)

(** [fnv.New64a]: offset basis, prime, and the sum over the written bytes. *)
Definition fnvOffset64 : Z := 14695981039346656037.
Definition fnvPrime64 : Z := 1099511628211.

Definition fnv64a (h : Z) (data : list Z) : Z :=
  foldl (fun h b => uint64_of (Z.lxor h b * fnvPrime64)) h data.

Definition rendezvousScore (iid streamID : string) : Z :=
  fnv64a (fnv64a (fnv64a fnvOffset64 (bytesOf iid)) [0]) (bytesOf streamID).

Section Stream.
Context `{HR : RangeOrder}.

(** [score > bestScore || (score == bestScore && ss.id < best.id)], or no best yet. *)
Definition betterOwner (ss : streamState) (score : Z) (best : option (streamState * Z)) : bool :=
  match best with
  | None => true
  | Some (b, bestScore) =>
      (bestScore <? score) || ((score =? bestScore) && String.ltb (ss_id ss) (ss_id b))
  end.

(** The scan of [affinityStreamOwner], with the best stream so far and its score. *)
Fixpoint ownerLoop (iid : string) (l : list (string * streamState)) (best : option (streamState * Z))
    : option (streamState * Z) :=
  match l with
  | [] => best
  | (_, ss) :: rest =>
      if negb (ss_statefulHistory ss) then ownerLoop iid rest best
      else
        let score := rendezvousScore iid (ss_id ss) in
        if betterOwner ss score best then ownerLoop iid rest (Some (ss, score))
        else ownerLoop iid rest best
  end.

Definition affinityStreamOwner (iid : string) (streams : gmap string streamState) : option streamState :=
  fst <$> ownerLoop iid (rangeOrder streams) None.

(** ** Deltas *)

(** The eviction loop over the warm map: every entry but [iid]'s, until it fits. *)
Fixpoint evictWarm (iid : string) (maxWarm : Z) (keys : list string) (warm : gmap string warmHistory)
    : gmap string warmHistory :=
  match keys with
  | [] => warm
  | k :: rest =>
      if String.eqb k iid then evictWarm iid maxWarm rest warm
      else
        let warm := delete k warm in
        if Z.of_nat (size warm) <=? maxWarm then warm else evictWarm iid maxWarm rest warm
  end.

(** What the warm map says about a request: the number of events to strip. *)
Definition warmPrefix (warm : gmap string warmHistory) (req : WorkflowRequest) : option Z :=
  let executionID := GetValue (req_ExecutionId req) in
  match warm !! req_InstanceId req with
  | Some cached =>
      if negb (String.eqb executionID "") && String.eqb (wm_executionID cached) executionID &&
         (0 <? wm_eventCount cached) && (wm_eventCount cached <=? Z.of_nat (length (req_PastEvents req)))
      then Some (wm_eventCount cached) else None
  | None => None
  end.

Definition stripPrefix (n : Z) (req : WorkflowRequest) : WorkflowRequest :=
  mkWorkflowRequest (req_InstanceId req) (req_ExecutionId req) (drop (Z.to_nat n) (req_PastEvents req))
    (req_NewEvents req) (req_PropagatedHistory req) (Some (int32_of n)).

(** The receiver may be nil; the request is rewritten in place. *)
Definition applyStatefulHistory (s : option streamState) (req : WorkflowRequest)
    : option streamState * WorkflowRequest :=
  match s with
  | None => (s, req)
  | Some ss =>
      if negb (ss_statefulHistory ss) then (s, req)
      else
        let iid := req_InstanceId req in
        let pastLen := Z.of_nat (length (req_PastEvents req)) in
        let req' := match warmPrefix (ss_warm ss) req with
                    | Some n => stripPrefix n req
                    | None => req
                    end in
        let warm := <[iid := mkWarmHistory (GetValue (req_ExecutionId req)) pastLen]> (ss_warm ss) in
        let warm := if ss_maxWarm ss <? Z.of_nat (size warm)
                    then evictWarm iid (ss_maxWarm ss) (rangeOrder warm).*1 warm else warm in
        (Some (mkStreamState (ss_id ss) (ss_statefulHistory ss) warm (ss_maxWarm ss)), req')
  end.

(** ** The owner of an instance *)

Lemma Ascii_compare_trans a b c :
  Ascii.compare a b = Lt -> Ascii.compare b c = Lt -> Ascii.compare a c = Lt.
Proof. unfold Ascii.compare. rewrite !N.compare_lt_iff. lia. Qed.

Lemma String_compare_trans a b c :
  String.compare a b = Lt -> String.compare b c = Lt -> String.compare a c = Lt.
Proof.
  revert b c. induction a as [|x a IH]; intros [|y b] [|z c]; cbn; try done.
  destruct (Ascii.compare x y) eqn:E1; try done; destruct (Ascii.compare y z) eqn:E2; try done.
  - apply Ascii.compare_eq_iff in E1, E2. subst.
    assert (Ascii.compare z z = Eq) as -> by (unfold Ascii.compare; apply N.compare_refl). apply IH.
  - apply Ascii.compare_eq_iff in E1. subst. by rewrite E2.
  - apply Ascii.compare_eq_iff in E2. subst. by rewrite E1.
  - by rewrite (Ascii_compare_trans _ _ _ E1 E2).
Qed.

(** [beats iid s t]: [s] has the higher score, or the same and the smaller id. *)
Definition beats (iid : string) (s t : streamState) : Prop :=
  rendezvousScore iid (ss_id t) < rendezvousScore iid (ss_id s) \/
  (rendezvousScore iid (ss_id t) = rendezvousScore iid (ss_id s) /\
   String.compare (ss_id s) (ss_id t) = Lt).

#[local] Instance beats_trans iid : Transitive (beats iid).
Proof.
  intros s t u [H|[H1 H2]] [H'|[H1' H2']]; unfold beats; [left; lia | left; lia | left; lia |].
  right. split; [lia | by eapply String_compare_trans].
Qed.

Lemma beats_total iid s t : ss_id s <> ss_id t -> beats iid s t \/ beats iid t s.
Proof.
  intros Hne. unfold beats. destruct (Z.lt_trichotomy (rendezvousScore iid (ss_id s)) (rendezvousScore iid (ss_id t)))
    as [H|[H|H]]; [right; left; lia | | left; left; lia].
  destruct (String.compare (ss_id s) (ss_id t)) eqn:E.
  - by apply String.compare_eq_iff in E.
  - left. right. split; [lia | done].
  - right. right. split; [lia |]. rewrite String.compare_antisym, E. done.
Qed.

Lemma beats_irrefl iid s : ~ beats iid s s.
Proof.
  intros [H|[_ H]]; [lia |]. pose proof (String.compare_antisym (ss_id s) (ss_id s)) as Ha.
  rewrite H in Ha. done.
Qed.

(** [owner_of iid streams s]: [s] is the one capable stream that beats every other
    capable one. *)
Definition owner_of (iid : string) (streams : gmap string streamState) (s : streamState) : Prop :=
  streams !! ss_id s = Some s /\ ss_statefulHistory s = true /\
  forall k t, streams !! k = Some t -> ss_statefulHistory t = true -> t = s \/ beats iid s t.

(** Every stream is stored under its own id. *)
Definition streams_wf (streams : gmap string streamState) : Prop :=
  map_Forall (fun k s => ss_id s = k) streams.

Lemma owner_unique iid streams s t : owner_of iid streams s -> owner_of iid streams t -> s = t.
Proof.
  intros (H1 & H2 & H3) (G1 & G2 & G3).
  destruct (H3 _ _ G1 G2) as [|Hb]; [done |]. destruct (G3 _ _ H1 H2) as [|Hb']; [done |].
  destruct (beats_irrefl iid s). by etrans.
Qed.

Lemma betterOwner_spec iid s b :
  ss_id s <> ss_id b ->
  if betterOwner s (rendezvousScore iid (ss_id s)) (Some (b, rendezvousScore iid (ss_id b)))
  then beats iid s b else beats iid b s.
Proof.
  intros Hne. cbn. destruct (beats_total iid s b Hne) as [Ht|Ht].
  - replace (_ || _) with true; [done |]. symmetry.
    destruct Ht as [Ht|[Ht1 Ht2]]; apply orb_true_iff; [left; lia | right].
    apply andb_true_iff. split; [lia |]. unfold String.ltb. by rewrite Ht2.
  - replace (_ || _) with false; [done |]. symmetry.
    destruct Ht as [Ht|[Ht1 Ht2]]; apply orb_false_iff; (split; [lia |]); apply andb_false_iff;
      [left; lia | right]. unfold String.ltb. by rewrite String.compare_antisym, Ht2.
Qed.

(** [best_of iid l o]: [o] is the best of the capable streams of [l]. *)
Definition best_of (iid : string) (l : list streamState) (o : option streamState) : Prop :=
  match o with
  | None => Forall (fun s => ss_statefulHistory s = false) l
  | Some o => o ∈ l /\ ss_statefulHistory o = true /\
              forall s, s ∈ l -> ss_statefulHistory s = true -> s = o \/ beats iid o s
  end.

Definition withScore (iid : string) (o : option streamState) : option (streamState * Z) :=
  (fun s => (s, rendezvousScore iid (ss_id s))) <$> o.

Lemma best_of_snoc iid seen o s :
  best_of iid seen o -> ss_id s ∉ (ss_id <$> seen) ->
  best_of iid (seen ++ [s])
    (if negb (ss_statefulHistory s) then o
     else if betterOwner s (rendezvousScore iid (ss_id s)) (withScore iid o) then Some s else o).
Proof.
  intros Ho Hs. destruct (ss_statefulHistory s) eqn:Es; cbn [negb]; destruct o as [b|]; cbn in Ho.
  - destruct Ho as (Hb1 & Hb2 & Hb3).
    assert (ss_id s <> ss_id b) as Hne by (intros E; apply Hs; rewrite E; by apply list_elem_of_fmap_2).
    pose proof (betterOwner_spec iid s b Hne) as Hbt.
    change (withScore iid (Some b)) with (Some (b, rendezvousScore iid (ss_id b))).
    destruct (betterOwner _ _ _); cbn; (split_and!; [rewrite elem_of_app, ?list_elem_of_singleton; by auto | done |]);
      intros t [Ht| ->%list_elem_of_singleton]%elem_of_app Hc; auto.
    destruct (Hb3 t Ht Hc) as [-> |?]; right; [done | by etrans].
  - cbn. split_and!; [rewrite elem_of_app, list_elem_of_singleton; by auto | done |].
    intros t [Ht| ->%list_elem_of_singleton]%elem_of_app Hc; [| by left].
    rewrite Forall_forall in Ho. by rewrite (Ho t Ht) in Hc.
  - destruct Ho as (Hb1 & Hb2 & Hb3). cbn. split_and!; [rewrite elem_of_app; by left | done |].
    intros t [Ht| ->%list_elem_of_singleton]%elem_of_app Hc; [by auto | congruence].
  - cbn. apply Forall_app. split; [done | by repeat constructor].
Qed.

Lemma ownerLoop_spec iid l seen o :
  NoDup (ss_id <$> seen ++ l.*2) -> best_of iid seen o ->
  exists o', ownerLoop iid l (withScore iid o) = withScore iid o' /\ best_of iid (seen ++ l.*2) o'.
Proof.
  revert seen o. induction l as [|[k s] rest IH]; intros seen o Hnd Ho; cbn [ownerLoop].
  { exists o. by rewrite app_nil_r. }
  change ((k, s) :: rest).*2 with ([s] ++ rest.*2) in *. rewrite app_assoc in *.
  assert (ss_id s ∉ (ss_id <$> seen)) as Hs.
  { rewrite !fmap_app in Hnd. apply NoDup_app in Hnd as [Hnd _].
    apply NoDup_app in Hnd as (_ & Hd & _). intros Hin. apply (Hd _ Hin). by constructor. }
  pose proof (best_of_snoc iid seen o s Ho Hs) as Hbo.
  destruct (negb (ss_statefulHistory s)); [by apply IH |].
  destruct (betterOwner _ _ _); [| by apply IH].
  change (Some (s, rendezvousScore iid (ss_id s))) with (withScore iid (Some s)). by apply IH.
Qed.

Lemma affinityStreamOwner_spec iid streams :
  streams_wf streams ->
  match affinityStreamOwner iid streams with
  | Some s => owner_of iid streams s
  | None => forall k s, streams !! k = Some s -> ss_statefulHistory s = false
  end.
Proof.
  intros Hw. unfold affinityStreamOwner.
  assert (forall s, s ∈ (rangeOrder streams).*2 <-> streams !! ss_id s = Some s) as Hin.
  { intros s. rewrite list_elem_of_fmap. split.
    - intros ([k t] & -> & Hk%elem_of_rangeOrder). cbn. by rewrite (Hw _ _ Hk).
    - intros Hl. exists (ss_id s, s). split; [done | by apply elem_of_rangeOrder]. }
  destruct (ownerLoop_spec iid (rangeOrder streams) [] None) as (o & Eo & Ho); [| by constructor |].
  { cbn. assert ((ss_id <$> (rangeOrder streams).*2) = (rangeOrder streams).*1) as ->.
    { rewrite <- list_fmap_compose. apply list_fmap_ext. intros i [k t] Hi%list_elem_of_lookup_2.
      by apply elem_of_rangeOrder, Hw in Hi. }
    rewrite rangeOrder_perm. apply NoDup_fst_map_to_list. }
  change (@None (streamState * Z)) with (withScore iid None). rewrite Eo.
  destruct o as [s|]; cbn in Ho |- *.
  - destruct Ho as (H1 & H2 & H3). split_and!; [by apply Hin | done |].
    intros k t Hk Hc. apply H3; [| done]. apply Hin. by rewrite (Hw _ _ Hk).
  - intros k t Hk. rewrite Forall_forall in Ho. apply Ho, Hin. by rewrite (Hw _ _ Hk).
Qed.

Lemma affinityStreamOwner_eq iid streams s :
  streams_wf streams -> owner_of iid streams s -> affinityStreamOwner iid streams = Some s.
Proof.
  intros Hw Ho. pose proof (affinityStreamOwner_spec iid streams Hw) as H.
  destruct (affinityStreamOwner iid streams) as [t|].
  - f_equal. by eapply owner_unique.
  - destruct Ho as (H1 & H2 & _). by rewrite (H _ _ H1) in H2.
Qed.

Lemma owner_of_delete iid streams s k :
  owner_of iid streams s -> k <> ss_id s -> owner_of iid (delete k streams) s.
Proof.
  intros (H1 & H2 & H3) Hk. split_and!; [by rewrite lookup_delete_ne | done |].
  intros k' t [_ Hl]%lookup_delete_Some. by apply (H3 k').
Qed.

(** A stream that connects takes the instance or leaves it where it was. *)
Lemma affinity_connect iid streams t :
  streams_wf streams -> streams !! ss_id t = None ->
  affinityStreamOwner iid (<[ss_id t := t]> streams) = affinityStreamOwner iid streams \/
  affinityStreamOwner iid (<[ss_id t := t]> streams) = Some t.
Proof.
  intros Hw Hn. assert (streams_wf (<[ss_id t := t]> streams)) as Hw' by by apply map_Forall_insert_2.
  pose proof (affinityStreamOwner_spec iid _ Hw') as H.
  destruct (affinityStreamOwner iid (<[ss_id t := t]> streams)) as [s|].
  - destruct (decide (ss_id s = ss_id t)) as [E|E].
    + right. destruct H as [H _]. rewrite E, lookup_insert_eq in H. by simplify_eq.
    + left. symmetry. apply affinityStreamOwner_eq; [done |].
      rewrite <- (delete_insert_id streams (ss_id t) t Hn). by apply owner_of_delete.
  - left. pose proof (affinityStreamOwner_spec iid _ Hw) as H'.
    destruct (affinityStreamOwner iid streams) as [s|]; [| done].
    destruct H' as (H1 & H2 & _). assert (ss_id t <> ss_id s) by congruence.
    rewrite (H (ss_id s) s) in H2; [done | by rewrite lookup_insert_ne].
Qed.

(** ** Deltas *)

(** A request without a cached prefix is sent in full or as a delta whose omitted
    part is a prefix of the history. *)
Lemma applyStatefulHistory_shape s req :
  req_CachedHistory req = None ->
  let req' := (applyStatefulHistory s req).2 in
  req' = req \/
  exists n, 0 < n ≤ Z.of_nat (length (req_PastEvents req)) /\ GetValue (req_ExecutionId req) <> "" /\
    req' = stripPrefix n req.
Proof.
  intros Hn. unfold applyStatefulHistory. destruct s as [ss|]; [| by left].
  destruct (ss_statefulHistory ss); cbn [negb snd]; [| by left].
  destruct (warmPrefix (ss_warm ss) req) as [n|] eqn:E; [right | by left]. exists n.
  unfold warmPrefix in E. destruct (ss_warm ss !! req_InstanceId req) as [c|]; [| done].
  case_match eqn:C; [| done]. injection E as <-.
  apply andb_true_iff in C as [[[C1 C2]%andb_true_iff C3]%andb_true_iff C4].
  split_and!; [lia | lia | | done]. intros E. by rewrite E in C1.
Qed.

Lemma evictWarm_spec iid maxWarm keys warm :
  warm !! iid <> None -> NoDup keys -> (forall k, warm !! k <> None -> k <> iid -> k ∈ keys) ->
  evictWarm iid maxWarm keys warm !! iid = warm !! iid /\ evictWarm iid maxWarm keys warm ⊆ warm /\
  Z.of_nat (size (evictWarm iid maxWarm keys warm)) ≤ Z.max 1 maxWarm.
Proof.
  revert warm. induction keys as [|k rest IH]; intros warm Hi Hnd Hk; cbn [evictWarm].
  { split_and!; [done | done |]. destruct (warm !! iid) as [w|] eqn:E; [| done].
    assert (warm ⊆ {[iid := w]}) as Hs%map_subseteq_size.
    { apply map_subseteq_spec. intros j x Hj. destruct (decide (j = iid)) as [-> | Hne].
      - rewrite E in Hj. simplify_eq. apply lookup_singleton_eq.
      - assert (j ∈ []) as []%elem_of_nil. apply Hk; congruence. }
    rewrite map_size_singleton in Hs. lia. }
  apply NoDup_cons in Hnd as [Hn Hnd]. destruct (String.eqb_spec k iid) as [-> | Hne].
  - apply IH; [done | done |]. intros j Hj Hji. specialize (Hk j Hj Hji). apply elem_of_cons in Hk as [->|?]; done.
  - assert (delete k warm !! iid = warm !! iid) as Hd by by apply lookup_delete_ne.
    destruct (Z.leb_spec (Z.of_nat (size (delete k warm))) maxWarm).
    { split_and!; [done | apply delete_subseteq | lia]. }
    destruct (IH (delete k warm)) as (I1 & I2 & I3); [congruence | done | |].
    + intros j Hj Hji. destruct (decide (j = k)) as [-> | Hjk]; [by rewrite lookup_delete_eq in Hj |].
      rewrite lookup_delete_ne in Hj by done. specialize (Hk j Hj Hji). apply elem_of_cons in Hk as [->|?]; done.
    + split_and!; [congruence | etrans; [exact I2 | apply delete_subseteq] | done].
Qed.

(** After a send the stream knows what it sent, and its map is within the cap. *)
Lemma applyStatefulHistory_warm ss req :
  ss_statefulHistory ss = true ->
  exists ss', (applyStatefulHistory (Some ss) req).1 = Some ss' /\
    ss_statefulHistory ss' = true /\ ss_maxWarm ss' = ss_maxWarm ss /\
    ss_warm ss' !! req_InstanceId req =
      Some (mkWarmHistory (GetValue (req_ExecutionId req)) (Z.of_nat (length (req_PastEvents req)))) /\
    Z.of_nat (size (ss_warm ss')) ≤ Z.max 1 (ss_maxWarm ss).
Proof.
  intros Hs. unfold applyStatefulHistory. rewrite Hs. cbn [negb fst].
  set (w := <[req_InstanceId req := _]> (ss_warm ss)).
  assert (w !! req_InstanceId req =
    Some (mkWarmHistory (GetValue (req_ExecutionId req)) (Z.of_nat (length (req_PastEvents req))))) as Hw
    by apply lookup_insert_eq.
  eexists. split_and!; [done | done | done | |]; cbn [ss_warm].
  all: destruct (Z.ltb_spec (ss_maxWarm ss) (Z.of_nat (size w))); [| done || lia].
  all: destruct (evictWarm_spec (req_InstanceId req) (ss_maxWarm ss) (rangeOrder w).*1 w) as (E1 & _ & E2);
    [congruence | rewrite rangeOrder_perm; apply NoDup_fst_map_to_list | | congruence || done].
  all: intros k Hk _; destruct (w !! k) as [x|] eqn:E; [| done];
    apply list_elem_of_fmap; exists (k, x); by rewrite elem_of_rangeOrder.
Qed.

End Stream.

(** Rendezvous affinity pins instances to streams: the owner does not depend
    on the order in which the streams are visited, the disconnect of another
    stream does not move an instance, and a stream that connects either takes the
    instance or leaves it where it was. *)
Theorem affinity_pins_instances (R1 R2 : RangeOrder) iid streams :
  streams_wf streams ->
  @affinityStreamOwner R1 iid streams = @affinityStreamOwner R2 iid streams /\
  (forall s k, affinityStreamOwner iid streams = Some s -> k <> ss_id s ->
     affinityStreamOwner iid (delete k streams) = Some s) /\
  (forall t, streams !! ss_id t = None ->
     affinityStreamOwner iid (<[ss_id t := t]> streams) = affinityStreamOwner iid streams \/
     affinityStreamOwner iid (<[ss_id t := t]> streams) = Some t).
Proof.
  intros Hw. split_and!; [| | intros t; by apply affinity_connect].
  - pose proof (@affinityStreamOwner_spec R1 iid _ Hw) as H1. pose proof (@affinityStreamOwner_spec R2 iid _ Hw) as H2.
    destruct (@affinityStreamOwner R1 iid streams) as [s|].
    + symmetry. by apply affinityStreamOwner_eq.
    + destruct (@affinityStreamOwner R2 iid streams) as [t|]; [| done].
      destruct H2 as (G1 & G2 & _). by rewrite (H1 _ _ G1) in G2.
  - intros s k Hs Hk. pose proof (affinityStreamOwner_spec iid _ Hw) as H. rewrite Hs in H.
    apply affinityStreamOwner_eq; [by apply map_Forall_delete | by apply owner_of_delete].
Qed.

(** ** Witness: three streams, one of them without the capability. *)

Definition capable (id : string) : streamState := newStreamState id [WORKER_CAPABILITY_STATEFUL_HISTORY].

Definition threeStreams : gmap string streamState :=
  <["s1" := capable "s1"]> (<["s2" := capable "s2"]> {["s3" := newStreamState "s3" []]}).

Lemma affinity_pins_instances_witness :
  @affinityStreamOwner keyOrder "wf1" threeStreams = Some (capable "s1") /\
  @affinityStreamOwner keyOrder "wf1" (delete "s2" threeStreams) = Some (capable "s1").
Proof.
  assert (@affinityStreamOwner keyOrder "wf1" threeStreams = Some (capable "s1")) as Ho by by vm_compute.
  split; [exact Ho |].
  destruct (affinity_pins_instances keyOrder keyOrder "wf1" threeStreams) as (_ & H & _).
  - apply (bool_decide_unpack _). by vm_compute.
  - by apply (H (capable "s1")).
Defined.

(** The published test vectors of 64-bit FNV-1a. *)
Example fnv64a_vectors :
  fnv64a fnvOffset64 (bytesOf "a") = 0xaf63dc4c8601ec8c /\
  fnv64a fnvOffset64 (bytesOf "foobar") = 0x85944171f73967e8.
Proof. by vm_compute. Qed.
