(* ===== verification/HistoryProtocol.v ===== *)
(** * Stateful history end to end (client/worker_history.go, client/worker_grpc.go)

    The worker's handler of a workflow work item, and the protocol between the
    service and one worker over its successive streams: what the service strips from
    a request the worker puts back, from its cache or by fetching the history.  The
    handlers of a worker run concurrently and share the cache, every operation of
    which holds its lock; a handler is three steps here (look up, fetch on a miss,
    refresh), and anything may happen in between. *)

From stdpp Require Import base list option strings gmap fin_maps relations.
From Stdlib Require Import ZArith Lia.
From S2P Require Import Prelude Errors Protos Helpers HistoryCache StatefulHistory.

(** ** The handler *)

(** The part of [resolveWorkflowHistory] before the fetch. *)
Definition resolveCached (tnow : Z) (historyCache : workflowHistoryCache) (workItem : WorkflowRequest)
    : workflowHistoryCache * option (list HistoryEvent) :=
  match req_CachedHistory workItem with
  | None => (historyCache, Some (req_PastEvents workItem))
  | Some eventCount =>
      let '(historyCache, found) :=
        getForExecution tnow (req_InstanceId workItem) (GetValue (req_ExecutionId workItem)) historyCache in
      (historyCache,
       match found with
       | Some cached =>
           if Z.of_nat (length cached) =? eventCount then Some (cached ++ req_PastEvents workItem) else None
       | None => None
       end)
  end.

(** The part after it: the answer must belong to the execution of the work item. *)
Definition resolveFetched (resp : list HistoryEvent + error) (workItem : WorkflowRequest)
    : list HistoryEvent + error :=
  let executionID := GetValue (req_ExecutionId workItem) in
  match resp with
  | inr err => inr err
  | inl events =>
      if negb (String.eqb executionID "") && negb (String.eqb (historyExecutionID events) executionID)
      then inr (errorNew ("history for " +:+ req_InstanceId workItem +:+ " no longer belongs to execution " +:+ executionID))
      else inl events
  end.

Definition resolveWorkflowHistory (tnow : Z) (fetch : string -> list HistoryEvent + error)
    (historyCache : workflowHistoryCache) (workItem : WorkflowRequest)
    : workflowHistoryCache * (list HistoryEvent + error) :=
  match resolveCached tnow historyCache workItem with
  | (historyCache, Some full) => (historyCache, inl full)
  | (historyCache, None) => (historyCache, resolveFetched (fetch (req_InstanceId workItem)) workItem)
  end.

(** A handler ends with a response to the service or by closing its stream. *)
Inductive handled :=
| Completed (resp : WorkflowResponse)
| TornDown (err : error).

Section Handler.
Context `{HR : RangeOrder}.
Variable Size : HistoryEvent -> Z.
(** [fmt.Sprintf] of an error with the verb for its type, and [err.Error()] *)
Variables errorTypeName errorText : error -> string.
Variable statefulHistoryEnabled : bool.

(** The cache after the executor ran on [pastEvents]. *)
Definition refreshCache (tnow : Z) (workItem : WorkflowRequest) (pastEvents : list HistoryEvent)
    (results : WorkflowResponse + error) (historyCache : workflowHistoryCache) : workflowHistoryCache :=
  match results with
  | inl results =>
      if statefulHistoryEnabled then
        if workflowHistoryReset results then cacheDelete (req_InstanceId workItem) historyCache
        else putForExecution Size tnow (req_InstanceId workItem) (GetValue (req_ExecutionId workItem))
               pastEvents historyCache
      else historyCache
  | inr _ => historyCache
  end.

Definition workflowReply (workItem : WorkflowRequest) (completionToken : string)
    (results : WorkflowResponse + error) : WorkflowResponse :=
  match results with
  | inr err =>
      mkWorkflowResponse (req_InstanceId workItem)
        [mkWorkflowAction (-1)
           (Some (WorkflowAction_CompleteWorkflow
              (mkCompleteWorkflowAction FAILED
                 (Some "An internal error occurred while executing the orchestration.") None None []
                 (Some (mkTaskFailureDetails (errorTypeName err) (errorText err) None None false)))))
           None]
        None completionToken None None
  | inl results =>
      mkWorkflowResponse (req_InstanceId workItem) (resp_Actions results) (resp_CustomStatus results)
        completionToken None (resp_Version results)
  end.

(** The whole handler, run without interference; [tget] and [tput] are its two
    clock readings. *)
Definition processWorkflowWorkItem (tget tput : Z)
    (executeWorkflow : string -> list HistoryEvent -> list HistoryEvent -> option PropagatedHistory ->
                       WorkflowResponse + error)
    (fetch : string -> list HistoryEvent + error)
    (historyCache : workflowHistoryCache) (workItem : WorkflowRequest) (completionToken : string)
    : workflowHistoryCache * handled :=
  match resolveWorkflowHistory tget fetch historyCache workItem with
  | (historyCache, inr err) => (historyCache, TornDown err)
  | (historyCache, inl pastEvents) =>
      let results := executeWorkflow (req_InstanceId workItem) pastEvents (req_NewEvents workItem)
                       (req_PropagatedHistory workItem) in
      (refreshCache tput workItem pastEvents results historyCache,
       Completed (workflowReply workItem completionToken results))
  end.

(** ** The protocol *)

(** A work item under way: the history the turn started from, and the request. *)
Definition item : Type := list HistoryEvent * WorkflowRequest.

(** The service and one worker.  [n_stored] is what GetInstanceHistory answers;
    [n_known] records, per instance and execution, the longest history the
    execution has had. *)
Record Net := mkNet {
  n_stored : gmap string (list HistoryEvent);
  n_known : gmap (string * string) (list HistoryEvent);
  n_stream : option streamState;
  n_cache : workflowHistoryCache;
  n_sent : list item;
  n_fetching : list item;
  n_running : list (item * list HistoryEvent)
}.

Definition known (n : Net) (iid x : string) : list HistoryEvent := default [] (n_known n !! (iid, x)).

Definition itemExecution (req : WorkflowRequest) : string := GetValue (req_ExecutionId req).

Definition storedExecution (n : Net) (iid : string) : string :=
  historyExecutionID (default [] (n_stored n !! iid)).

(** [startable n iid x past]: a turn of execution [x] may start from [past]: a
    history the execution has had (the turn may be that of a worker that lost its
    lease), or its first one, which no committed history of it shows yet. *)
Definition startable (n : Net) (iid x : string) (past : list HistoryEvent) : Prop :=
  x <> "" -> past `prefix_of` known n iid x \/ (known n iid x `prefix_of` past /\ storedExecution n iid <> x).

(** The longer of what was known and [past]. *)
Definition learn (n : Net) (iid x : string) (past : list HistoryEvent) : gmap (string * string) (list HistoryEvent) :=
  if decide (past `prefix_of` known n iid x) then n_known n else <[(iid, x) := past]> (n_known n).

Definition capabilities : list WorkerCapability :=
  if statefulHistoryEnabled then [WORKER_CAPABILITY_STATEFUL_HISTORY] else [].

Inductive net_step : Net -> Net -> Prop :=
(* a turn of some worker commits: the history of an execution only grows *)
| step_commit n iid h :
    (historyExecutionID h <> "" -> known n iid (historyExecutionID h) `prefix_of` h) ->
    net_step n (mkNet (<[iid := h]> (n_stored n)) (<[(iid, historyExecutionID h) := h]> (n_known n))
                 (n_stream n) (n_cache n) (n_sent n) (n_fetching n) (n_running n))
| step_purge n iid :
    net_step n (mkNet (delete iid (n_stored n)) (n_known n)
                 (n_stream n) (n_cache n) (n_sent n) (n_fetching n) (n_running n))
(* a turn is dispatched to the stream of this worker *)
| step_dispatch n iid past new prop ss' req :
    startable n iid (GetValue (executionID past new)) past ->
    Z.of_nat (length past) < 2 ^ 31 ->
    applyStatefulHistory (n_stream n) (workflowRequest iid past new prop) = (ss', req) ->
    net_step n (mkNet (n_stored n) (learn n iid (GetValue (executionID past new)) past)
                 ss' (n_cache n) ((past, req) :: n_sent n) (n_fetching n) (n_running n))
(* ... or to another worker *)
| step_elsewhere n iid x past :
    startable n iid x past ->
    net_step n (mkNet (n_stored n) (learn n iid x past)
                 (n_stream n) (n_cache n) (n_sent n) (n_fetching n) (n_running n))
(* the worker takes an item and looks into its cache *)
| step_lookup_hit n tnow l1 i l2 c h :
    n_sent n = l1 ++ i :: l2 -> resolveCached tnow (n_cache n) i.2 = (c, Some h) ->
    net_step n (mkNet (n_stored n) (n_known n) (n_stream n) c (l1 ++ l2) (n_fetching n)
                 ((i, h) :: n_running n))
| step_lookup_miss n tnow l1 i l2 c :
    n_sent n = l1 ++ i :: l2 -> resolveCached tnow (n_cache n) i.2 = (c, None) ->
    net_step n (mkNet (n_stored n) (n_known n) (n_stream n) c (l1 ++ l2) (i :: n_fetching n) (n_running n))
(* the answer to a fetch, which may also be an error *)
| step_fetched n l1 i l2 resp h :
    n_fetching n = l1 ++ i :: l2 ->
    (forall h, resp = inl h -> n_stored n !! req_InstanceId i.2 = Some h) ->
    resolveFetched resp i.2 = inl h ->
    net_step n (mkNet (n_stored n) (n_known n) (n_stream n) (n_cache n) (n_sent n) (l1 ++ l2)
                 ((i, h) :: n_running n))
| step_fetch_failed n l1 i l2 :
    n_fetching n = l1 ++ i :: l2 ->
    net_step n (mkNet (n_stored n) (n_known n) (n_stream n) (n_cache n) (n_sent n) (l1 ++ l2) (n_running n))
(* the executor returned *)
| step_finished n tnow l1 i h l2 results :
    n_running n = l1 ++ (i, h) :: l2 ->
    net_step n (mkNet (n_stored n) (n_known n) (n_stream n) (refreshCache tnow i.2 h results (n_cache n))
                 (n_sent n) (n_fetching n) (l1 ++ l2))
| step_janitor n tnow :
    net_step n (mkNet (n_stored n) (n_known n) (n_stream n) (sweepExpired tnow (n_cache n))
                 (n_sent n) (n_fetching n) (n_running n))
(* the stream breaks, items on it are lost unless the worker has taken them; it
   connects again *)
| step_connect n id sent :
    sent `sublist_of` n_sent n ->
    net_step n (mkNet (n_stored n) (n_known n) (Some (newStreamState id capabilities))
                 (cacheReset (n_cache n)) sent (n_fetching n) (n_running n)).

Definition initialNet (cfg : workflowHistoryCacheConfig) : Net :=
  mkNet ∅ ∅ None (newWorkflowHistoryCache cfg) [] [] [].

(** ** The invariant *)

(** A cached history is one its execution has had. *)
Definition cached_ok (n : Net) (c : workflowHistoryCache) : Prop :=
  map_Forall (fun iid e => ch_executionID e <> "" -> ch_events e `prefix_of` known n iid (ch_executionID e))
    (hc_entries c).

(** An item carries the history its turn started from, whole or without a prefix. *)
Definition item_ok (n : Net) (i : item) : Prop :=
  let '(past, req) := i in
  (itemExecution req <> "" -> past `prefix_of` known n (req_InstanceId req) (itemExecution req)) /\
  match req_CachedHistory req with
  | None => req_PastEvents req = past
  | Some k => itemExecution req <> "" /\ 0 < k ≤ Z.of_nat (length past) /\
              req_PastEvents req = drop (Z.to_nat k) past
  end.

Definition fetching_ok (n : Net) (i : item) : Prop :=
  item_ok n i /\ itemExecution i.2 <> "".

(** What a turn is run on extends what it started from, within the execution. *)
Definition running_ok (n : Net) (r : item * list HistoryEvent) : Prop :=
  let '(past, req, h) := r in
  past `prefix_of` h /\
  (itemExecution req = "" -> h = past) /\
  (itemExecution req <> "" -> h `prefix_of` known n (req_InstanceId req) (itemExecution req)).

Record net_inv (n : Net) : Prop := {
  ni_stored : forall iid h, n_stored n !! iid = Some h ->
    historyExecutionID h <> "" -> known n iid (historyExecutionID h) = h;
  ni_cache : cached_ok n (n_cache n);
  ni_sent : Forall (item_ok n) (n_sent n);
  ni_fetching : Forall (fetching_ok n) (n_fetching n);
  ni_running : Forall (running_ok n) (n_running n)
}.

(** [grows n n']: every execution keeps its history. *)
Definition grows (n n' : Net) : Prop :=
  forall iid x, x <> "" -> known n iid x `prefix_of` known n' iid x.

#[local] Instance grows_refl : Reflexive grows.
Proof. by intros n iid x _. Qed.

Lemma grows_known n n' : n_known n' = n_known n -> grows n n'.
Proof. intros E iid x _. unfold known. by rewrite E. Qed.

Lemma known_learn n iid x past st stream c sent fetching running iid' x' :
  x' <> "" -> startable n iid x past ->
  known (mkNet st (learn n iid x past) stream c sent fetching running) iid' x' = known n iid' x' \/
  (iid' = iid /\ x' = x /\ known n iid x `prefix_of` past /\ storedExecution n iid <> x /\
   known (mkNet st (learn n iid x past) stream c sent fetching running) iid' x' = past).
Proof.
  intros Hx Hs. unfold learn. destruct (decide _) as [Hp|Hp]; [by left |].
  destruct (decide ((iid', x') = (iid, x))) as [[= -> ->]|Hne].
  - right. destruct (Hs Hx) as [?|[? ?]]; [done |].
    split_and!; try done. unfold known. cbn. by rewrite lookup_insert_eq.
  - left. unfold known. cbn. by rewrite lookup_insert_ne.
Qed.

Lemma known_learned n iid x past st stream c sent fetching running :
  x <> "" -> startable n iid x past ->
  past `prefix_of` known (mkNet st (learn n iid x past) stream c sent fetching running) iid x.
Proof.
  intros Hx Hs. unfold learn. destruct (decide _) as [Hp|Hp]; [done |].
  unfold known. cbn. by rewrite lookup_insert_eq.
Qed.

Lemma grows_learn n iid x past st stream c sent fetching running :
  startable n iid x past -> grows n (mkNet st (learn n iid x past) stream c sent fetching running).
Proof.
  intros Hs iid' x' Hx'.
  destruct (known_learn n iid x past st stream c sent fetching running iid' x' Hx' Hs)
    as [-> |(-> & -> & ? & _ & ->)]; done.
Qed.

Lemma step_grows n n' : net_step n n' -> grows n n'.
Proof.
  destruct 1; try by apply grows_known.
  - intros iid' x Hx. unfold known at 2. cbn.
    destruct (decide ((iid', x) = (iid, historyExecutionID h))) as [[= -> ->]|Hne].
    + rewrite lookup_insert_eq. cbn. by apply H.
    + by rewrite lookup_insert_ne.
  - by apply grows_learn.
  - by apply grows_learn.
Qed.

Lemma cached_ok_grows n n' c : grows n n' -> cached_ok n c -> cached_ok n' c.
Proof. intros Hg Hc iid e He Hx. etrans; [by apply (Hc iid e) | by apply Hg]. Qed.

Lemma item_ok_grows n n' i : grows n n' -> item_ok n i -> item_ok n' i.
Proof. destruct i as [past req]. intros Hg [H1 H2]. split; [| done]. intros Hx. etrans; [by apply H1 | by apply Hg]. Qed.

Lemma fetching_ok_grows n n' i : grows n n' -> fetching_ok n i -> fetching_ok n' i.
Proof. intros Hg [? ?]. split; [by eapply item_ok_grows | done]. Qed.

Lemma running_ok_grows n n' r : grows n n' -> running_ok n r -> running_ok n' r.
Proof.
  destruct r as [[past req] h]. intros Hg (H1 & H2 & H3). split_and!; [done | done |].
  intros Hx. etrans; [by apply H3 | by apply Hg].
Qed.

(** ** The cache keeps histories of their executions *)

Lemma cached_ok_sub n c c' : hc_entries c' ⊆ hc_entries c -> cached_ok n c -> cached_ok n c'.
Proof. apply map_Forall_sub. Qed.

Lemma cached_ok_remove n c iid : cached_ok n c -> cached_ok n (removeEntry iid c).
Proof. apply cached_ok_sub. rewrite removeEntry_entries. apply delete_subseteq. Qed.

Lemma cached_ok_sweep n tnow c : cached_ok n c -> cached_ok n (sweepExpired tnow c).
Proof.
  unfold sweepExpired. generalize (rangeOrder (hc_entries c)). intros l. revert c.
  induction l as [|[iid e] rest IH]; intros c Hc; cbn [foldl]; [done |].
  apply IH. destruct (hc_ttl c <? _); [by apply cached_ok_remove | done].
Qed.

Lemma cached_ok_put n tnow iid x events c :
  (x <> "" -> events `prefix_of` known n iid x) -> cached_ok n c ->
  cached_ok n (putForExecution Size tnow iid x events c).
Proof.
  intros Hx Hc. unfold putForExecution. set (c1 := storeEntry Size tnow iid x events c).
  eapply (cached_ok_sub n c1); [apply (proj1 (evictToFit_spec iid c1)) |].
  unfold cached_ok. cbn. by apply map_Forall_insert_2.
Qed.

(** A lookup that succeeds returns a cached history of this very execution. *)
Lemma getForExecution_ok n tnow iid x c c' found :
  getForExecution tnow iid x c = (c', found) -> cached_ok n c ->
  cached_ok n c' /\ (forall h, found = Some h -> x <> "" /\ h `prefix_of` known n iid x).
Proof.
  unfold getForExecution, cacheGet. intros E Hc.
  destruct (hc_entries c !! iid) as [e|] eqn:Ee; [| by injection E as <- <-].
  case_match eqn:C; injection E as <- <-; [by split |].
  apply orb_false_iff in C as [C1%String.eqb_neq C2%negb_false_iff%String.eqb_eq]. subst x.
  pose proof (Hc iid e Ee C1) as He. split; [| by intros ? [= <-]].
  unfold cached_ok. cbn. by apply map_Forall_insert_2.
Qed.

(** ** Every step keeps the invariant *)

Lemma prefix_take_drop {A} (past l : list A) k :
  l `prefix_of` past -> length l = k -> l ++ drop k past = past.
Proof. intros [r ->] <-. by rewrite drop_app_length. Qed.

Lemma prefix_comparable {A} (a b l : list A) :
  a `prefix_of` l -> b `prefix_of` l -> (length a ≤ length b)%nat -> a `prefix_of` b.
Proof.
  intros Ha Hb Hl. destruct (prefix_weak_total a b l Ha Hb) as [?|H]; [done |].
  apply prefix_length_eq in H; [by subst | done].
Qed.

(** A hit in the cache rebuilds the history the turn started from. *)
Lemma resolveCached_ok n tnow c i c' found :
  item_ok n i -> cached_ok n c -> resolveCached tnow c i.2 = (c', found) ->
  cached_ok n c' /\
  match found with
  | Some h => h = i.1
  | None => itemExecution i.2 <> ""
  end.
Proof.
  destruct i as [past req]. intros [H1 H2] Hc. cbn [fst snd]. unfold resolveCached.
  destruct (req_CachedHistory req) as [k|]; [| intros [= <- <-]; by split].
  destruct (getForExecution tnow _ _ c) as [c1 f] eqn:Eg. intros [= <- <-].
  destruct (getForExecution_ok n _ _ _ _ _ _ Eg Hc) as [Hc1 Hf]. split; [done |].
  destruct H2 as (Hx & Hk & Hd). destruct f as [cached|]; [| done].
  destruct (Z.eqb_spec (Z.of_nat (length cached)) k) as [<-|]; [| done].
  destruct (Hf _ eq_refl) as [_ Hp]. rewrite Hd, Nat2Z.id. apply prefix_take_drop; [| done].
  eapply prefix_comparable; [exact Hp | by apply H1 | lia].
Qed.

(** A dispatched item is in order. *)
Lemma dispatched_ok n iid past new prop ss' req sent fetching running :
  startable n iid (GetValue (executionID past new)) past -> Z.of_nat (length past) < 2 ^ 31 ->
  applyStatefulHistory (n_stream n) (workflowRequest iid past new prop) = (ss', req) ->
  item_ok (mkNet (n_stored n) (learn n iid (GetValue (executionID past new)) past) ss' (n_cache n)
             sent fetching running) (past, req).
Proof.
  intros Hs Hl E. pose proof (applyStatefulHistory_shape (n_stream n) (workflowRequest iid past new prop) eq_refl) as Hsh.
  rewrite E in Hsh. cbn in Hsh. destruct Hsh as [-> |(k & Hk & Hx & ->)].
  - split; [| done]. intros Hx. by apply known_learned.
  - split; [intros _; by apply known_learned |]. cbn.
    rewrite int32_of_id by (unfold in_int32, int32_min, int32_max; lia). done.
Qed.

(** A fetched history of the right execution extends the one of the item. *)
Lemma fetched_ok n i resp h :
  net_inv n -> fetching_ok n i ->
  (forall h, resp = inl h -> n_stored n !! req_InstanceId i.2 = Some h) ->
  resolveFetched resp i.2 = inl h -> running_ok n (i, h).
Proof.
  destruct i as [past req]. intros Hi [[H1 _] Hx] Hr. cbn [snd] in *. unfold resolveFetched.
  destruct resp as [events|err]; [| done]. specialize (Hr _ eq_refl).
  destruct (negb (String.eqb (GetValue (req_ExecutionId req)) "")) eqn:C1.
  2: { apply negb_false_iff, String.eqb_eq in C1. done. }
  destruct (String.eqb_spec (historyExecutionID events) (GetValue (req_ExecutionId req))) as [C2|];
    cbn; [| done]. intros [= <-]. fold (itemExecution req) in *.
  pose proof (ni_stored n Hi _ _ Hr) as Hk. rewrite C2 in Hk. specialize (Hk Hx).
  split_and!; [rewrite <- Hk; by apply H1 | done | intros _; by rewrite Hk].
Qed.

(** What the invariant asks of a step beyond growth: the stored histories, the
    cache and the new items. *)
Lemma net_inv_step n n' :
  net_step n n' -> net_inv n ->
  (forall iid h, n_stored n' !! iid = Some h -> historyExecutionID h <> "" ->
     known n' iid (historyExecutionID h) = h) ->
  cached_ok n' (n_cache n') ->
  (forall i, i ∈ n_sent n' -> i ∈ n_sent n \/ item_ok n' i) ->
  (forall i, i ∈ n_fetching n' -> i ∈ n_fetching n \/ fetching_ok n' i) ->
  (forall r, r ∈ n_running n' -> r ∈ n_running n \/ running_ok n' r) -> net_inv n'.
Proof.
  intros Hs%step_grows [_ _ H1 H2 H3] Hst Hc G1 G2 G3.
  rewrite Forall_forall in H1. rewrite Forall_forall in H2. rewrite Forall_forall in H3.
  split; [done | done | | |]; apply Forall_forall.
  - intros i [Hi|?]%G1; [eapply item_ok_grows; [done | by apply H1] | done].
  - intros i [Hi|?]%G2; [eapply fetching_ok_grows; [done | by apply H2] | done].
  - intros r [Hi|?]%G3; [eapply running_ok_grows; [done | by apply H3] | done].
Qed.

Lemma stored_learn n iid x past stream c sent fetching running :
  net_inv n -> startable n iid x past ->
  forall iid' h, n_stored n !! iid' = Some h -> historyExecutionID h <> "" ->
  known (mkNet (n_stored n) (learn n iid x past) stream c sent fetching running) iid' (historyExecutionID h) = h.
Proof.
  intros Hi Hs iid' h Hl Hx.
  destruct (known_learn n iid x past (n_stored n) stream c sent fetching running iid' _ Hx Hs)
    as [-> |(-> & <- & _ & Hne & _)]; [by apply Hi |].
  unfold storedExecution in Hne. by rewrite Hl in Hne.
Qed.

Lemma stored_commit n iid h stream c sent fetching running :
  net_inv n ->
  forall iid' h', <[iid := h]> (n_stored n) !! iid' = Some h' -> historyExecutionID h' <> "" ->
  known (mkNet (<[iid := h]> (n_stored n)) (<[(iid, historyExecutionID h) := h]> (n_known n))
           stream c sent fetching running) iid' (historyExecutionID h') = h'.
Proof.
  intros Hi iid' h' Hl Hx. unfold known. cbn. apply lookup_insert_Some in Hl as [[<- <-]|[Hne Hl]].
  - by rewrite lookup_insert_eq.
  - rewrite lookup_insert_ne by congruence. by apply Hi.
Qed.

Lemma elem_of_middle {A} (l l1 l2 : list A) (x y : A) :
  l = l1 ++ x :: l2 -> y ∈ l1 ++ l2 -> y ∈ l.
Proof. intros ->. rewrite !elem_of_app, elem_of_cons. tauto. Qed.

Lemma lookup_inv n tnow l1 i l2 c found :
  net_inv n -> n_sent n = l1 ++ i :: l2 -> resolveCached tnow (n_cache n) i.2 = (c, found) ->
  item_ok n i /\ cached_ok n c /\ match found with Some h => h = i.1 | None => itemExecution i.2 <> "" end.
Proof.
  intros Hi E Hr. assert (item_ok n i) as Hok.
  { pose proof (ni_sent n Hi) as H. rewrite Forall_forall in H. apply H. rewrite E, elem_of_app, elem_of_cons. auto. }
  split; [done |]. eapply resolveCached_ok; [done | by apply Hi | done].
Qed.

Ltac keep_rest := first [by auto | intros ? ?; left; by eapply elem_of_middle].

Lemma net_step_inv n n' : net_step n n' -> net_inv n -> net_inv n'.
Proof.
  intros Hstep Hi. pose proof (step_grows _ _ Hstep) as Hg.
  pose proof (cached_ok_grows _ _ _ Hg (ni_cache n Hi)) as Hc.
  destruct Hstep; (eapply net_inv_step; [by econstructor | done | ..]); cbn [n_cache n_sent n_fetching n_running n_stored];
    try done; try (by apply Hi); try keep_rest.
  - by apply stored_commit.
  - intros iid' h [_ Hl]%lookup_delete_Some. by apply (ni_stored n Hi).
  - by apply stored_learn.
  - intros i [-> |?]%elem_of_cons; [right | by left]. by eapply dispatched_ok.
  - by apply stored_learn.
  - by destruct (lookup_inv _ _ _ _ _ _ _ Hi H H0) as (_ & ? & _).
  - intros r [-> |?]%elem_of_cons; [right | by left].
    destruct (lookup_inv _ _ _ _ _ _ _ Hi H H0) as (Ho & _ & ->). destruct i as [past req], Ho as [Ho _].
    by split_and!.
  - by destruct (lookup_inv _ _ _ _ _ _ _ Hi H H0) as (_ & ? & _).
  - intros j [-> |?]%elem_of_cons; [right | by left].
    destruct (lookup_inv _ _ _ _ _ _ _ Hi H H0) as (? & _ & ?). by split.
  - intros r [-> |?]%elem_of_cons; [right | by left].
    change (running_ok n (i, h)). eapply fetched_ok; try done.
    pose proof (ni_fetching n Hi) as Hf. rewrite Forall_forall in Hf. apply Hf.
    rewrite H, elem_of_app, elem_of_cons. auto.
  - unfold refreshCache. destruct results as [results|]; [| done]. destruct statefulHistoryEnabled; [| done].
    destruct (workflowHistoryReset results); [by apply cached_ok_remove |]. apply cached_ok_put; [| done].
    pose proof (ni_running n Hi) as Hf. rewrite Forall_forall in Hf.
    destruct i as [past req]. apply (Hf (past, req, h)). rewrite H, elem_of_app, elem_of_cons. auto.
  - by apply cached_ok_sweep.
  - intros j Hj. left. eapply elem_of_submseteq; [done | by apply sublist_submseteq].
Qed.

Lemma net_reachable_inv cfg n : rtc net_step (initialNet cfg) n -> net_inv n.
Proof.
  apply (rtc_ind_r net_inv); [| intros n1 n2 _ Hs Hi; by eapply net_step_inv].
  by split; cbn; [intros iid h; rewrite lookup_empty | apply map_Forall_empty | constructor | constructor | constructor].
Qed.

(** C29. The worker replays the right history.  In every interleaving of commits,
    purges, dispatches, cache lookups, fetches, evictions and reconnects, a turn is
    run on a history that extends the one it started from, never with a gap and
    never one of another execution: it is exactly that history when no execution id is
    known or when the stored history is still the one the turn started from (which
    the lease of a turn that can commit guarantees). *)
Theorem worker_replays_stored_history cfg n past req h :
  rtc net_step (initialNet cfg) n -> (past, req, h) ∈ n_running n ->
  past `prefix_of` h /\
  (itemExecution req = "" -> h = past) /\
  (itemExecution req <> "" -> h `prefix_of` known n (req_InstanceId req) (itemExecution req)) /\
  (n_stored n !! req_InstanceId req = Some past -> historyExecutionID past = itemExecution req -> h = past).
Proof.
  intros Hr Hin. pose proof (net_reachable_inv cfg n Hr) as Hi.
  pose proof (ni_running n Hi) as Hf. rewrite Forall_forall in Hf.
  destruct (Hf _ Hin) as (H1 & H2 & H3). split_and!; [done | done | done |].
  intros Hst Hx. destruct (decide (itemExecution req = "")) as [E|E]; [by apply H2 |].
  pose proof (ni_stored n Hi _ _ Hst) as Hk. rewrite Hx in Hk. specialize (H3 E). rewrite (Hk E) in H3.
  apply prefix_length_eq; [done |]. by apply prefix_length.
Qed.

(** A warm turn needs no fetch: after a turn of an execution was sent over a
    capable stream and its history cached, the next turn, whose history extends
    it, is sent as the added events only, and the worker rebuilds the whole
    history from its cache; the maps of both ends stay within their caps. *)
Theorem warm_turn_is_a_delta ss iid past1 new1 p1 past2 new2 p2 x c tput tget :
  ss_statefulHistory ss = true -> x <> "" ->
  executionID past1 new1 = Some x -> executionID past2 new2 = Some x ->
  past1 <> [] -> past1 `prefix_of` past2 -> Z.of_nat (length past2) < 2 ^ 31 ->
  let ss1 := (applyStatefulHistory (Some ss) (workflowRequest iid past1 new1 p1)).1 in
  let sent := (applyStatefulHistory ss1 (workflowRequest iid past2 new2 p2)).2 in
  req_PastEvents sent = drop (length past1) past2 /\ req_NewEvents sent = new2 /\
  (resolveCached tget (putForExecution Size tput iid x past1 c) sent).2 = Some past2 /\
  (forall ss', ss1 = Some ss' -> Z.of_nat (size (ss_warm ss')) ≤ Z.max 1 (ss_maxWarm ss)).
Proof.
  intros Hs Hx E1 E2 Hne Hp Hl.
  destruct (applyStatefulHistory_warm ss (workflowRequest iid past1 new1 p1) Hs) as (ss' & E & Hs' & _ & Hw & Hb).
  cbn zeta. rewrite E. cbn in Hw. rewrite E1 in Hw. cbn [GetValue default] in Hw.
  assert (0 < length past1)%nat as Hpos by (destruct past1; [done | cbn; lia]).
  pose proof (prefix_length _ _ Hp) as Hle.
  assert (warmPrefix (ss_warm ss') (workflowRequest iid past2 new2 p2) = Some (Z.of_nat (length past1))) as Hwp.
  { unfold warmPrefix. cbn. rewrite Hw, E2. cbn. rewrite (proj2 (String.eqb_neq x "") Hx), String.eqb_refl. cbn.
    rewrite (proj2 (Z.ltb_lt 0 _)), (proj2 (Z.leb_le _ _)) by lia. done. }
  unfold applyStatefulHistory. rewrite Hs', Hwp. cbn [negb snd].
  assert (int32_of (Z.of_nat (length past1)) = Z.of_nat (length past1)) as Hi32.
  { apply int32_of_id. unfold in_int32, int32_min, int32_max. lia. }
  split_and!; [cbn; by rewrite Nat2Z.id | done | | intros ? [= <-]; exact Hb].
  unfold resolveCached, getForExecution, cacheGet, stripPrefix. cbn. rewrite E2. cbn.
  unfold putForExecution. set (c1 := storeEntry Size tput iid x past1 c).
  rewrite (tr_keep _ _ _ (proj1 (evictToFit_spec iid c1))). unfold c1. cbn. rewrite lookup_insert_eq. cbn.
  rewrite (proj2 (String.eqb_neq x "") Hx), String.eqb_refl. cbn.
  rewrite Hi32, Z.eqb_refl, Nat2Z.id. f_equal. by apply prefix_take_drop.
Qed.

End Handler.

(** ** Witnesses

    Two turns of one workflow: the first is sent in full, the second as a delta. *)

#[local] Existing Instance keyOrder.

Definition startedAs (x : string) : HistoryEvent :=
  mkHistoryEvent (-1) (Some 1)
    (Some (HistoryEvent_ExecutionStarted
       (mkExecutionStartedEvent "wf" None None (Some (mkWorkflowInstance "wf1" (Some x))) None None None None ∅)))
    None.

Definition raised (s : string) : HistoryEvent :=
  mkHistoryEvent (-1) (Some 2) (Some (HistoryEvent_EventRaised (mkEventRaisedEvent s None))) None.

Definition turn1 : list HistoryEvent := [startedAs "x1"; raised "a"].
Definition turn2 : list HistoryEvent := turn1 ++ [raised "b"].

Definition idle : WorkflowResponse := mkWorkflowResponse "wf1" [] None "" None None.

Definition afterDispatch (n : Net) (past new : list HistoryEvent) : Net :=
  let '(ss, req) := applyStatefulHistory (n_stream n) (workflowRequest "wf1" past new None) in
  mkNet (n_stored n) (learn n "wf1" (GetValue (executionID past new)) past) ss (n_cache n)
    ((past, req) :: n_sent n) (n_fetching n) (n_running n).

Definition afterCommit (n : Net) (h : list HistoryEvent) : Net :=
  mkNet (<["wf1" := h]> (n_stored n)) (<[("wf1", historyExecutionID h) := h]> (n_known n))
    (n_stream n) (n_cache n) (n_sent n) (n_fetching n) (n_running n).

Definition netConnected : Net :=
  let n := afterCommit (initialNet tinyConfig) turn1 in
  mkNet (n_stored n) (n_known n) (Some (newStreamState "s1" (capabilities true)))
    (cacheReset (n_cache n)) [] (n_fetching n) (n_running n).
Definition netSent1 : Net := afterDispatch netConnected turn1 [raised "b"].
Definition request1 : WorkflowRequest := workflowRequest "wf1" turn1 [raised "b"] None.
Definition netRunning1 : Net :=
  mkNet (n_stored netSent1) (n_known netSent1) (n_stream netSent1) (n_cache netSent1) [] []
    [(turn1, request1, turn1)].
Definition netFinished1 : Net :=
  mkNet (n_stored netRunning1) (n_known netRunning1) (n_stream netRunning1)
    (refreshCache sampleSize true 7 request1 turn1 (inl idle) (n_cache netRunning1)) [] [] [].
Definition netSent2 : Net := afterDispatch (afterCommit netFinished1 turn2) turn2 [raised "c"].
Definition request2 : WorkflowRequest :=
  mkWorkflowRequest "wf1" (Some "x1") [raised "b"] [raised "c"] None (Some 2).
Definition netRunning2 : Net :=
  mkNet (n_stored netSent2) (n_known netSent2) (n_stream netSent2)
    (resolveCached 9 (n_cache netSent2) request2).1 [] [] [(turn2, request2, turn2)].

Lemma worker_replays_stored_history_witness :
  n_sent netSent2 = [(turn2, request2)] /\ turn2 `prefix_of` turn2 /\
  (n_stored netRunning2 !! "wf1" = Some turn2 -> historyExecutionID turn2 = "x1" -> turn2 = turn2).
Proof.
  split; [by vm_compute |].
  destruct (worker_replays_stored_history sampleSize true tinyConfig netRunning2 turn2 request2 turn2)
    as (H1 & _ & _ & H2); [| by constructor | split; [exact H1 | exact H2]].
  apply rtc_l with (afterCommit (initialNet tinyConfig) turn1).
  { apply (step_commit sampleSize true _ "wf1" turn1). intros _. apply prefix_nil. }
  apply rtc_l with netConnected. { by apply (step_connect sampleSize true _ "s1" []). }
  apply rtc_l with netSent1.
  { apply (step_dispatch sampleSize true _ "wf1" turn1 [raised "b"] None (n_stream netSent1) request1);
      [intros _; by left | done | by vm_compute]. }
  apply rtc_l with netRunning1.
  { apply (step_lookup_hit sampleSize true netSent1 5 [] (turn1, request1) [] (n_cache netSent1) turn1); by vm_compute. }
  apply rtc_l with netFinished1.
  { by apply (step_finished sampleSize true netRunning1 7 [] (turn1, request1) turn1 [] (inl idle)). }
  apply rtc_l with (afterCommit netFinished1 turn2).
  { apply (step_commit sampleSize true _ "wf1" turn2). intros _. by exists [raised "b"]. }
  apply rtc_l with netSent2.
  { apply (step_dispatch sampleSize true _ "wf1" turn2 [raised "c"] None (n_stream netSent2) request2);
      [intros _; by left | done | by vm_compute]. }
  apply rtc_once.
  apply (step_lookup_hit sampleSize true netSent2 9 [] (turn2, request2) []
    (resolveCached 9 (n_cache netSent2) request2).1 turn2); by vm_compute.
Defined.

Lemma warm_turn_is_a_delta_witness :
  let ss1 := (applyStatefulHistory (Some (capable "s1")) (workflowRequest "wf1" turn1 [] None)).1 in
  let sent := (applyStatefulHistory ss1 (workflowRequest "wf1" turn2 [raised "c"] None)).2 in
  req_PastEvents sent = [raised "b"] /\
  (resolveCached 9 (putForExecution sampleSize 7 "wf1" "x1" turn1 (newWorkflowHistoryCache tinyConfig)) sent).2 =
    Some turn2.
Proof.
  destruct (warm_turn_is_a_delta sampleSize (capable "s1") "wf1" turn1 [] None turn2 [raised "c"] None "x1"
    (newWorkflowHistoryCache tinyConfig) 7 9) as (H1 & _ & H2 & _).
  1, 3, 4: reflexivity.
  1, 2: discriminate.
  1: by exists [raised "b"].
  1: reflexivity.
  split; [exact H1 | exact H2].
Defined.
