(* ===== verification/Orchestration.v ===== *)
(** * Processing a workflow work item (backend/orchestration.go)

    One turn of a workflow: load the state, append the new events, run the
    workflow code, apply its decisions, start over on continue-as-new, and
    enforce termination.  The workflow code is behind an interface
    ([WorkflowExecutor], a function of the call number so that it may answer
    differently each time); the storage is the [loadState] argument; the trace
    context of each span comes from the tracing library ([spanTrace]).  Tracing
    itself and the log lines are not modelled, except that computing a log
    summary panics on an event or action without a type. *)

From stdpp Require Import base list option strings gmap pretty.
From Stdlib Require Import ZArith Lia.
From S2P Require Import Prelude Errors Protos Dedup RuntimeState Propagation Helpers.
From S2P Require Import Applier Backend.

Class WorkflowExecutor := {
  ExecuteWorkflow : nat -> string -> list HistoryEvent -> list HistoryEvent ->
    option PropagatedHistory -> outcome error WorkflowResponse
}.

Record workflowProcessor := mkWorkflowProcessor {
  wp_executor : WorkflowExecutor;
  wp_inProcessExecutor : option WorkflowExecutor;
  wp_inProcessNamePrefix : string;
  wp_applier : Applier
}.

(** What a turn works on: the work item, the world, how often workflow code ran
    and how many spans were opened. *)
Record TurnSt := mkTurnSt {
  t_wi : WorkflowWorkItem;
  t_world : World;
  t_calls : nat;
  t_spans : nat
}.

Definition T (X : Type) : Type := M TurnSt error X.

Definition setState (s : WorkflowRuntimeState) (wi : WorkflowWorkItem) : WorkflowWorkItem :=
  mkWorkflowWorkItem (owi_InstanceID wi) (owi_NewEvents wi) (owi_LockedBy wi) (owi_RetryCount wi)
    (Some s) (owi_IncomingHistory wi) (owi_OutgoingHistory wi).

Definition modWi (f : WorkflowWorkItem -> WorkflowWorkItem) : T unit :=
  modify (fun st => mkTurnSt (f (t_wi st)) (t_world st) (t_calls st) (t_spans st)).

(** [wi.State], which is non-nil once loaded. *)
Definition curState : T WorkflowRuntimeState :=
  wi ← gets t_wi; deref "nil State" (owi_State wi).

Definition putState (s : WorkflowRuntimeState) : T unit := modWi (setState s).

Definition tickClock : T Z := fun st =>
  let '(t, w) := now (t_world st) in
  (mkTurnSt (t_wi st) w (t_calls st) (t_spans st), Ok t).

Definition openSpan : T unit :=
  modify (fun st => mkTurnSt (t_wi st) (t_world st) (t_calls st) (S (t_spans st))).

Definition MaxContinueAsNewCount : nat := 20.

(** [os.Version = version] on the first WorkflowStarted event. *)
Fixpoint stampVersion (v : WorkflowVersion) (events : list HistoryEvent) : list HistoryEvent :=
  match events with
  | [] => []
  | e :: rest =>
      match GetWorkflowStarted e with
      | Some _ => mkHistoryEvent (EventId e) (Timestamp e)
          (Some (HistoryEvent_WorkflowStarted (mkWorkflowStartedEvent (Some v)))) (Router e) :: rest
      | None => e :: stampVersion v rest
      end
  end.

Definition versionToStamp (v : option WorkflowVersion) : option WorkflowVersion :=
  match v with
  | Some x => match wv_Patches x, wv_Name x with
              | [], None => None
              | _, _ => Some x
              end
  | None => None
  end.

(** The reported version, on the marker of the turn. *)
Definition stampState (v : option WorkflowVersion) (s : WorkflowRuntimeState) : WorkflowRuntimeState :=
  match versionToStamp v with
  | Some v => set_NewEvents (stampVersion v (NewEvents s)) s
  | None => s
  end.

(** The actions before the first continue-as-new completion. *)
Fixpoint beforeContinueAsNew (actions : list WorkflowAction) : list WorkflowAction :=
  match actions with
  | [] => []
  | act :: rest =>
      match GetCompleteWorkflow act with
      | Some c => match co_WorkflowStatus c with
                  | CONTINUED_AS_NEW => []
                  | _ => act :: beforeContinueAsNew rest
                  end
      | None => act :: beforeContinueAsNew rest
      end
  end.

Section Process.
Context `{ProtoCodec} `{MapRange}.
Variable p : workflowProcessor.
Variable loadState : string -> WorkflowRuntimeState + error.
Variable spanTrace : nat -> option TraceContext.

(** [w.applier.Actions] on the current state; the state and the world move on
    even when it fails. *)
Definition runActions (cs : option string) (actions : list WorkflowAction)
    (rh : option PropagatedHistory) : T ActionsResult :=
  s ← curState;
  st ← get;
  let '(ast, o) := Actions (wp_applier p) cs (spanTrace (t_spans st)) rh s (t_world st) actions in
  put (mkTurnSt (setState (as_state ast) (t_wi st)) (as_world ast) (t_calls st) (t_spans st));;
  match o with
  | Ok _ => mret (as_result ast)
  | Err err => throw err
  | Panic msg => panic msg
  end.

(** Wrap the error of a computation. *)
Definition wrapErr {X} (msg : string) (m : T X) : T X := fun st =>
  match m st with
  | (st, Err err) => (st, Err (errorWrap msg err))
  | r => r
  end.

(** The executor the workflow is dispatched to. *)
Definition selectExecutor (s : WorkflowRuntimeState) : WorkflowExecutor :=
  match wp_inProcessExecutor p with
  | Some ex =>
      let name := match StartEvent s with Some es => es_Name es | None => "" end in
      if negb (String.eqb (wp_inProcessNamePrefix p) "") &&
         HasPrefix name (wp_inProcessNamePrefix p)
      then ex else wp_executor p
  | None => wp_executor p
  end.

Definition execute (s : WorkflowRuntimeState) : T WorkflowResponse := fun st =>
  let wi := t_wi st in
  let r := @ExecuteWorkflow (selectExecutor s) (t_calls st) (owi_InstanceID wi)
             (OldEvents s) (NewEvents s) (owi_IncomingHistory wi) in
  (mkTurnSt wi (t_world st) (S (t_calls st)) (t_spans st), r).

(** [applyWorkItem]: [false] drops the work item. *)
Definition applyWorkItem : T bool :=
  wi ← gets t_wi;
  s ← curState;
  if negb (IsValid s) then mret false
  else if IsCompleted s then mret false
  else
    t ← tickClock;
    openSpan;;
    let s := (AddEvent s (mkHistoryEvent (-1) (Some t)
      (Some (HistoryEvent_WorkflowStarted (mkWorkflowStartedEvent None))) None)).1 in
    let s := (AddEvents s (owi_NewEvents wi)).1 in
    putState s;;
    (* the log line of a start event reads its instance id *)
    if forallb (fun e => match GetExecutionStarted e with
                         | Some es => if es_WorkflowInstance es is Some _ then true else false
                         | None => true end) (owi_NewEvents wi)
    then mret (negb (length (NewEvents s) =? 0)%nat)
    else panic "nil WorkflowInstance".

(** The continue-as-new loop.  [budget] is how many more generations the loop
    admits, [MaxContinueAsNewCount - continueAsNewCount]. *)
Fixpoint turnLoop (terminating : bool) (budget : nat) : T unit :=
  s ← curState;
  (if (budget =? MaxContinueAsNewCount)%nat then mret tt
   else deref "nil EventType" (HistoryListSummary (NewEvents s));; mret tt);;
  wi ← gets t_wi;
  let rh := owi_IncomingHistory wi in
  results ← wrapErr "error executing workflow" (execute s);
  deref "nil WorkflowActionType" (ActionListSummary (resp_Actions results));;
  putState (stampState (resp_Version results) s);;
  let actions := if terminating then beforeContinueAsNew (resp_Actions results)
                 else resp_Actions results in
  applyResult ← wrapErr "failed to apply the execution result actions"
                  (runActions (resp_CustomStatus results) actions rh);
  modWi (fun wi => mkWorkflowWorkItem (owi_InstanceID wi) (owi_NewEvents wi) (owi_LockedBy wi)
    (owi_RetryCount wi) (owi_State wi) (owi_IncomingHistory wi) (ar_OutgoingHistory applyResult));;
  if ar_ContinuedAsNew applyResult then
    match budget with
    | O => throw (errorNew "exceeded tight-loop continue-as-new limit of 20 iterations")
    | S budget =>
        (match ar_NewIncomingHistory applyResult with
         | Some h => modWi (fun wi => mkWorkflowWorkItem (owi_InstanceID wi) (owi_NewEvents wi)
             (owi_LockedBy wi) (owi_RetryCount wi) (owi_State wi) (Some h) (owi_OutgoingHistory wi))
         | None => mret tt
         end);;
        (tickClock;; openSpan);;
        turnLoop terminating budget
    end
  else mret tt.

(** Enforce a terminate the executor did not act on. *)
Definition forceTermination (et : ExecutionTerminatedEvent) : T unit :=
  s ← curState;
  if IsCompleted s then mret tt
  else
    putState (set_PendingMessages [] (set_PendingTimers [] (set_PendingTasks [] s)));;
    wrapErr "failed to apply forced termination"
      (runActions (CustomStatus s)
         [mkWorkflowAction (-1) (Some (WorkflowAction_CompleteWorkflow
            (mkCompleteWorkflowAction TERMINATED (et_Input et) None None [] None))) None] None);;
    mret tt.

(** Load the state unless the work item came with it. *)
Definition ensureState : T unit :=
  wi ← gets t_wi;
  match owi_State wi with
  | Some _ => mret tt
  | None => match loadState (owi_InstanceID wi) with
            | inr err => throw (errorWrap "failed to load workflow state" err)
            | inl s => putState s
            end
  end.

(** The first terminate event of the work item. *)
Definition terminateEventOf (wi : WorkflowWorkItem) : option ExecutionTerminatedEvent :=
  head (omap GetExecutionTerminated (owi_NewEvents wi)).

(** Run the turn unless the work item is dropped. *)
Definition runTurn (terminateEvent : option ExecutionTerminatedEvent) (ok : bool) : T unit :=
  if ok then
    turnLoop (if terminateEvent is Some _ then true else false) MaxContinueAsNewCount;;
    match terminateEvent with
    | Some et => forceTermination et
    | None => mret tt
    end
  else mret tt.

Definition cascade (terminateEvent : option ExecutionTerminatedEvent) : T unit :=
  match terminateEvent with
  | Some et =>
      s ← curState;
      if IsCompleted s then
        st ← get;
        let '(s, w) := appendCascadeTerminateMessages s (t_world st) et in
        put (mkTurnSt (setState s (t_wi st)) w (t_calls st) (t_spans st))
      else mret tt
  | None => mret tt
  end.

(** [ProcessWorkItem]. *)
Definition ProcessWorkItem : T unit :=
  wi ← gets t_wi;
  deref "nil EventType" (HistoryListSummary (owi_NewEvents wi));;
  ensureState;;
  ok ← applyWorkItem;
  runTurn (terminateEventOf wi) ok;;
  cascade (terminateEventOf wi).

End Process.

(** ** Lemmas *)

(** The runtime state of the work item. *)
Definition stateOf (st : TurnSt) : option WorkflowRuntimeState := owi_State (t_wi st).

(** A computation keeps a property of the turn, however it ends. *)
Definition keepsT {X} (P : TurnSt -> Prop) (m : T X) : Prop := forall st, P st -> P (m st).1.

Section KeepsT.
Context (P : TurnSt -> Prop).

Lemma keepsT_bind {X Y} (m : T X) (k : X -> T Y) :
  keepsT P m -> (forall x, keepsT P (k x)) -> keepsT P (mbind k m).
Proof.
  intros Hm Hk st Hs. unfold mbind, M_bind. specialize (Hm st Hs).
  destruct (m st) as [st1 [x | e | q]]; [by apply Hk | done | done].
Qed.

Lemma keepsT_same {X} (m : T X) : (forall st, (m st).1 = st) -> keepsT P m.
Proof. intros H st Hs. by rewrite H. Qed.

Lemma keepsT_wrapErr {X} msg (m : T X) : keepsT P m -> keepsT P (wrapErr msg m).
Proof. intros Hm st Hs. unfold wrapErr. specialize (Hm st Hs). by destruct (m st) as [? []]. Qed.
End KeepsT.

Lemma wrapErr_Ok {X} msg (m : T X) st st' x :
  wrapErr msg m st = (st', Ok x) -> m st = (st', Ok x).
Proof. unfold wrapErr. by destruct (m st) as [? []]. Qed.

Lemma curState_Ok st st' s : curState st = (st', Ok s) -> st' = st /\ stateOf st = Some s.
Proof.
  unfold curState, mbind, M_bind, gets. unfold stateOf.
  destruct (owi_State (t_wi st)); intros [= -> ->]; done.
Qed.

Lemma curState_same st : (curState st).1 = st.
Proof. unfold curState, mbind, M_bind, gets. by destruct (owi_State (t_wi st)). Qed.

Section Runs.
Context `{HC : ProtoCodec} `{HM : MapRange}.
Variable p : workflowProcessor.
Variable loadState : string -> WorkflowRuntimeState + error.
Variable spanTrace : nat -> option TraceContext.

(** Running the applier inside a turn. *)
Lemma runActions_eq cs acts rh st s :
  stateOf st = Some s ->
  let r := Actions (wp_applier p) cs (spanTrace (t_spans st)) rh s (t_world st) acts in
  runActions p spanTrace cs acts rh st =
  (mkTurnSt (setState (as_state r.1) (t_wi st)) (as_world r.1) (t_calls st) (t_spans st),
   match r.2 with Ok _ => Ok (as_result r.1) | Err err => Err err | Panic msg => Panic msg end).
Proof.
  intros Hs. unfold runActions, curState, mbind, M_bind, gets, get.
  unfold stateOf in Hs. rewrite Hs. cbn.
  by destruct (Actions _ _ _ _ _ _ _) as [ast [| |]].
Qed.

Lemma stampVersion_omap {Y} (g : HistoryEvent -> option Y) v l :
  (forall e, is_Some (GetWorkflowStarted e) -> g e = None) ->
  omap g (stampVersion v l) = omap g l.
Proof.
  intros Hg. induction l as [|e l IH]; [done |]. cbn [stampVersion].
  destruct (GetWorkflowStarted e) eqn:E; cbn.
  - rewrite !(Hg _) by done. done.
  - by rewrite IH.
Qed.

Lemma stampVersion_suspend v l b : foldl suspendStep b (stampVersion v l) = foldl suspendStep b l.
Proof.
  revert b. induction l as [|e l IH]; intros b; [done |]. cbn [stampVersion].
  destruct (GetWorkflowStarted e) eqn:E; cbn; [| apply IH].
  f_equal. by event_cases e.
Qed.

Lemma stampVersion_inv v s : hist_inv s -> hist_inv (set_NewEvents (stampVersion v (NewEvents s)) s).
Proof.
  intros [I1 I2 I3 I4 I5 I6]. unfold history in *.
  assert (forall Y (g : HistoryEvent -> option Y),
    (forall e, is_Some (GetWorkflowStarted e) -> g e = None) ->
    omap g (OldEvents s ++ stampVersion v (NewEvents s)) = omap g (OldEvents s ++ NewEvents s)) as Ho.
  { intros Y g Hg. by rewrite !omap_app, (stampVersion_omap g v _ Hg). }
  split; unfold history; cbn; rewrite ?Ho; try done.
  all: try (intros e [x Hx]; event_cases e; cbn in Hx; try discriminate; reflexivity).
  by rewrite foldl_app, stampVersion_suspend, <- foldl_app.
Qed.

Lemma keepsT_ret {X} P (x : X) : keepsT P (mret x).
Proof. by apply keepsT_same. Qed.

Lemma keepsT_deref {X} P what (q : option X) : keepsT P (deref what q).
Proof. apply keepsT_same. by destruct q. Qed.

(** *** What a turn keeps

    The identity of the work item, and any property of its runtime state that
    survives actions and the stamping of a version. *)

Class TurnProperty (P : WorkflowRuntimeState -> Prop) : Prop := {
  tp_log : LogProperty P;
  tp_stamp v s : P s -> P (set_NewEvents (stampVersion v (NewEvents s)) s)
}.
#[local] Existing Instance tp_log.

#[global] Instance hist_inv_turn : TurnProperty hist_inv.
Proof. split; [apply _ | apply stampVersion_inv]. Qed.

Section Kept.
Variable w0 : WorkflowWorkItem.
Context (P : WorkflowRuntimeState -> Prop) `{HP : !TurnProperty P}.

Definition Inv (st : TurnSt) : Prop :=
  owi_InstanceID (t_wi st) = owi_InstanceID w0 /\ owi_LockedBy (t_wi st) = owi_LockedBy w0 /\
  forall s, stateOf st = Some s -> P s.

Lemma keepsT_curState {X} (k : WorkflowRuntimeState -> T X) :
  (forall s, P s -> keepsT Inv (k s)) -> keepsT Inv (mbind k curState).
Proof.
  intros Hk st Hi. unfold mbind, M_bind. pose proof (curState_same st) as Hc.
  destruct (curState st) as [st1 [s | e | q]] eqn:E; cbn in Hc; subst st1; [| done | done].
  apply curState_Ok in E as [_ E]. by apply Hk; [apply Hi |].
Qed.

Lemma keepsT_putState s : P s -> keepsT Inv (putState s).
Proof. intros Hs st (H1 & H2 & _). split_and!; [done | done |]. by intros s' [= <-]. Qed.

Lemma runActions_Inv cs acts rh : keepsT Inv (runActions p spanTrace cs acts rh).
Proof.
  intros st Hi. destruct (stateOf st) as [s|] eqn:Hs.
  - rewrite (runActions_eq cs acts rh st s Hs). destruct Hi as (H1 & H2 & H3).
    split_and!; [done | done |]. intros s' [= <-]. apply (Actions_keeps P). by apply H3.
  - unfold runActions, curState, mbind, M_bind, gets. unfold stateOf in Hs. by rewrite Hs.
Qed.

(** Changing the work item outside its identity and state. *)
Lemma keepsT_modWi f :
  (forall wi, owi_State (f wi) = owi_State wi /\ owi_InstanceID (f wi) = owi_InstanceID wi /\
     owi_LockedBy (f wi) = owi_LockedBy wi) -> keepsT Inv (modWi f).
Proof.
  intros Hf st (H1 & H2 & H3). destruct (Hf (t_wi st)) as (F1 & F2 & F3).
  split_and!; cbn; [congruence | congruence |]. intros s Hs. apply H3. unfold stateOf in *. cbn in Hs. congruence.
Qed.

Lemma turnLoop_Inv terminating budget : keepsT Inv (turnLoop p spanTrace terminating budget).
Proof.
  induction budget as [|budget IH]; cbn [turnLoop]; apply keepsT_curState; intros s Hs.
  all: apply keepsT_bind; [case_match; [apply keepsT_ret |];
    apply keepsT_bind; [apply keepsT_deref | intros; apply keepsT_ret] | intros _].
  all: apply keepsT_bind; [by apply keepsT_same | intros wi].
  all: apply keepsT_bind; [apply keepsT_wrapErr; by intros st Hi | intros results].
  all: apply keepsT_bind; [apply keepsT_deref | intros _].
  all: apply keepsT_bind; [apply keepsT_putState; unfold stampState; case_match; [by apply tp_stamp | done]
                          | intros _].
  all: apply keepsT_bind; [apply keepsT_wrapErr, runActions_Inv | intros res].
  all: apply keepsT_bind; [by apply keepsT_modWi | intros _].
  all: case_match; [| apply keepsT_ret].
  - by apply keepsT_same.
  - apply keepsT_bind; [case_match; [by apply keepsT_modWi | apply keepsT_ret] | intros _].
    apply keepsT_bind; [| intros _; apply IH]. by intros st Hi.
Qed.

Lemma forceTermination_Inv et : keepsT Inv (forceTermination p spanTrace et).
Proof.
  unfold forceTermination. apply keepsT_curState. intros s Hs. case_match; [apply keepsT_ret |].
  apply keepsT_bind; [apply keepsT_putState; by eapply lp_ext; [.. | exact Hs] | intros _].
  apply keepsT_bind; [apply keepsT_wrapErr, runActions_Inv | intros; apply keepsT_ret].
Qed.

(** *** Opening a turn *)

(** Where [applyWorkItem] starts: a state whose ids fit, and events that do. *)
Definition Ready (st : TurnSt) : Prop :=
  ids_ok (owi_NewEvents (t_wi st)) /\ Inv st /\
  forall s, stateOf st = Some s -> ids_ok (history s).

(** The state after the turn-start marker and the new events were added. *)
Definition turnMarker (w : World) : HistoryEvent :=
  mkHistoryEvent (-1) (Some (clock w (ticks w))) (Some (HistoryEvent_WorkflowStarted (mkWorkflowStartedEvent None))) None.

Definition openedState (st : TurnSt) (s : WorkflowRuntimeState) : WorkflowRuntimeState :=
  (AddEvents (AddEvent s (turnMarker (t_world st))).1 (owi_NewEvents (t_wi st))).1.

Definition opened (st : TurnSt) (s : WorkflowRuntimeState) : TurnSt :=
  mkTurnSt (setState (openedState st s) (t_wi st)) (now (t_world st)).2 (t_calls st)
    (S (t_spans st)).

Lemma applyWorkItem_cases st s :
  stateOf st = Some s ->
  ((IsValid s = false \/ IsCompleted s = true) /\ applyWorkItem st = (st, Ok false)) \/
  (IsValid s = true /\ IsCompleted s = false /\ exists o, applyWorkItem st = (opened st s, o)).
Proof.
  intros Hs. unfold applyWorkItem, curState, mbind, M_bind, gets. unfold stateOf in Hs.
  rewrite Hs. cbn -[AddEvents AddEvent].
  destruct (IsValid s); cbn [negb]; [| left; auto].
  destruct (IsCompleted s); [left; auto |].
  right. split_and!; [done | done |]. cbn -[AddEvents AddEvent].
  destruct (forallb _ (owi_NewEvents (t_wi st))); eexists; reflexivity.
Qed.

Lemma openedState_inv st s :
  ids_ok (owi_NewEvents (t_wi st)) -> hist_inv s -> ids_ok (history s) ->
  hist_inv (openedState st s).
Proof.
  intros He Hi Hok. unfold openedState. rewrite AddEvents_addEach; [| | done].
  - by apply addEach_hist_inv, AddEvent_hist_inv.
  - rewrite AddEvent_eq. cbn [admissible EventType]. unfold Of. cbn [fst negb].
    destruct (appendAccepted_new s (turnMarker (t_world st))) as [HN HO].
    unfold history. cbn -[appendAccepted] in HN, HO |- *. rewrite HN, HO, app_assoc.
    apply Forall_app. split; [done |]. by repeat constructor.
Qed.

Lemma applyWorkItem_Inv st :
  (forall s, P s -> ids_ok (history s) -> ids_ok (owi_NewEvents (t_wi st)) -> P (openedState st s)) ->
  Ready st -> Inv (applyWorkItem st).1.
Proof.
  intros Ho (He & Hi & Hr). destruct (stateOf st) as [s|] eqn:Hs.
  - destruct (applyWorkItem_cases st s Hs) as [[_ ->]|(_ & _ & o & ->)]; [done |].
    destruct Hi as (H1 & H2 & H3). split_and!; [done | done |]. intros s' [= <-].
    apply Ho; [by apply H3 | by apply Hr | done].
  - unfold applyWorkItem, curState, mbind, M_bind, gets. unfold stateOf in Hs. by rewrite Hs.
Qed.

(** *** The whole turn *)

Lemma cascade_state te st s :
  stateOf st = Some s ->
  let st' := (cascade te st).1 in
  t_calls st' = t_calls st /\
  exists ms, stateOf st' = Some (set_PendingMessages (PendingMessages s ++ ms) s) /\
    (forall et, te = Some et -> IsCompleted s = true -> et_Recurse et = true ->
      forall c, c ∈ childIds (history s) -> exists m, m ∈ ms /\ msg_TargetInstanceId m = c /\
        GetExecutionTerminated (msg_HistoryEvent m) =
          Some (mkExecutionTerminatedEvent (et_Input et) true)).
Proof.
  intros Hs. assert (Some s = Some (set_PendingMessages (PendingMessages s ++ []) s)) as Hnil.
  { rewrite app_nil_r. by destruct s. }
  destruct te as [et|]; [| by split; [| exists []; rewrite <- Hnil]].
  unfold cascade, curState, mbind, M_bind, gets, get. unfold stateOf in Hs. rewrite Hs. cbn.
  destruct (IsCompleted s) eqn:Hc.
  2: { split; [done |]. exists []. unfold stateOf. cbn. rewrite Hs, <- Hnil. split; [done |].
       intros; congruence. }
  unfold appendCascadeTerminateMessages. destruct (et_Recurse et) eqn:Hr; cbn [negb].
  - pose proof (cascadeLoop_spec et (getChildWorkflowInstances (OldEvents s) (NewEvents s)) s
      (t_world st)) as Hsp. cbv zeta in Hsp. destruct Hsp as (ms & He & Hm & HF).
    destruct (cascadeLoop _ _ s (t_world st)) as [s' w']. cbn in He |- *. subst s'.
    split; [done |]. exists ms. split; [done |]. intros et' [= <-] _ _ c Hin.
    apply (getChildWorkflowInstances_ids (OldEvents s) (NewEvents s)) in Hin.
    rewrite <- Hm, <- list_fmap_compose in Hin. apply list_elem_of_fmap in Hin as (m & -> & Hin).
    exists m. split_and!; [done | done |]. rewrite Hr in HF. by eapply Forall_forall in HF.
  - split; [done |]. exists []. unfold stateOf. cbn. rewrite <- Hnil. split; [done |].
    intros et' [= <-]. congruence.
Qed.

Lemma cascade_None te st : stateOf st = None -> (cascade te st).1 = st.
Proof.
  intros Hs. destruct te; [| done].
  unfold cascade, curState, mbind, M_bind, gets. unfold stateOf in Hs. by rewrite Hs.
Qed.

Lemma cascade_wi te st :
  owi_InstanceID (t_wi (cascade te st).1) = owi_InstanceID (t_wi st) /\
  owi_LockedBy (t_wi (cascade te st).1) = owi_LockedBy (t_wi st).
Proof.
  destruct te as [et|]; [| done]. unfold cascade, curState, mbind, M_bind, gets, get.
  destruct (owi_State (t_wi st)) as [s|]; [| done]. cbn. destruct (IsCompleted s); [| done].
  by destruct (appendCascadeTerminateMessages s (t_world st) et).
Qed.

Lemma cascade_Inv te : keepsT Inv (cascade te).
Proof.
  intros st (H1 & H2 & H3). destruct (cascade_wi te st) as [C1 C2].
  split_and!; [congruence | congruence |]. intros s' Hs'. destruct (stateOf st) as [s|] eqn:Hs.
  - destruct (cascade_state te st s Hs) as (_ & ms & Hms & _). rewrite Hms in Hs'. simplify_eq.
    by eapply lp_ext; [.. | exact (H3 s eq_refl)].
  - rewrite cascade_None in Hs' by done. congruence.
Qed.

Lemma ensureState_cases st :
  let st1 := (ensureState loadState st).1 in
  t_world st1 = t_world st /\ t_calls st1 = t_calls st /\
  owi_NewEvents (t_wi st1) = owi_NewEvents (t_wi st) /\
  (owi_InstanceID (t_wi st1) = owi_InstanceID (t_wi st) /\
   owi_LockedBy (t_wi st1) = owi_LockedBy (t_wi st)) /\
  match stateOf st with
  | Some s => st1 = st
  | None => match loadState (owi_InstanceID (t_wi st)) with
            | inl s => stateOf st1 = Some s
            | inr _ => st1 = st
            end
  end.
Proof.
  unfold ensureState, mbind, M_bind, gets, stateOf.
  destruct (owi_State (t_wi st)); [done |]. by destruct (loadState _).
Qed.

Lemma runTurn_Inv te ok : keepsT Inv (runTurn p spanTrace te ok).
Proof.
  unfold runTurn. destruct ok; [| apply keepsT_ret].
  apply keepsT_bind; [apply turnLoop_Inv | intros _].
  destruct te; [apply forceTermination_Inv | apply keepsT_ret].
Qed.

End Kept.

(** The state a work item is processed from. *)
Definition loadedState (st : TurnSt) : option WorkflowRuntimeState :=
  match stateOf st with
  | Some s => Some s
  | None => match loadState (owi_InstanceID (t_wi st)) with inl s => Some s | inr _ => None end
  end.

Lemma openedState_log st s :
  ids_ok (owi_NewEvents (t_wi st)) -> ids_ok (history s) ->
  OldEvents (openedState st s) = OldEvents s /\
  exists errs, NewEvents (openedState st s) = NewEvents s ++ turnMarker (t_world st) :: accepted (owi_NewEvents (t_wi st)) errs.
Proof.
  intros He Hok. unfold openedState. set (m := turnMarker _).
  assert (AddEvent s m = (appendAccepted s m true, None)) as -> by done. cbn [fst].
  assert (NewEvents (appendAccepted s m true) = NewEvents s ++ [m] /\
          OldEvents (appendAccepted s m true) = OldEvents s) as [HN HO] by done.
  rewrite AddEvents_addEach; [| | done].
  - pose proof (addEach_log (appendAccepted s m true) (owi_NewEvents (t_wi st))) as HL.
    destruct (addEach _ _) as [s' errs]. destruct HL as (_ & H1 & H2 & _). cbn [fst].
    rewrite H1, H2, HN, HO, <- app_assoc. split; [done |]. eauto.
  - unfold history. rewrite HN, HO, app_assoc. apply Forall_app. split; [done |].
    by repeat constructor.
Qed.

Lemma applyWorkItem_true st s b st' :
  ids_ok (owi_NewEvents (t_wi st)) -> ids_ok (history s) ->
  stateOf st = Some s -> IsValid s = true -> IsCompleted s = false ->
  applyWorkItem st = (st', Ok b) -> b = true /\ st' = opened st s.
Proof.
  intros He Hok Hs Hv Hc H.
  destruct (applyWorkItem_cases st s Hs) as [[[Hn|Hn] _]|(_ & _ & o & E)]; [congruence.. |].
  split; [| congruence].
  revert H. unfold applyWorkItem, curState, mbind, M_bind, gets.
  unfold stateOf in Hs. rewrite Hs. cbn -[AddEvents AddEvent]. rewrite Hv, Hc. cbn -[AddEvents AddEvent].
  fold (turnMarker (t_world st)) (openedState st s). destruct (openedState_log st s He Hok) as (_ & errs & ->).
  case_match; [| done]. cbn -[AddEvents AddEvent]. intros [= _ <-].
  by rewrite length_app, Nat.add_comm.
Qed.

Lemma beforeContinueAsNew_none acts :
  Forall (fun act => continuesAsNew act = false) (beforeContinueAsNew acts).
Proof.
  induction acts as [|act rest IH]; cbn; [done |].
  destruct (GetCompleteWorkflow act) as [c|] eqn:E.
  - destruct (co_WorkflowStatus c) eqn:Hw; try constructor; try done.
    all: unfold continuesAsNew; rewrite E, Hw; reflexivity.
  - constructor; [| done]. unfold continuesAsNew. by rewrite E.
Qed.

(** One generation of a turn: the workflow is executed on the log, the version it reports
    is stamped, and its actions are applied; unless they continue as new, that is the turn. *)
Lemma turnLoop_once terminating budget st st' s :
  stateOf st = Some s -> turnLoop p spanTrace terminating budget st = (st', Ok tt) ->
  exists results ast,
    @ExecuteWorkflow (selectExecutor p s) (t_calls st) (owi_InstanceID (t_wi st)) (OldEvents s) (NewEvents s)
      (owi_IncomingHistory (t_wi st)) = Ok results /\
    Actions (wp_applier p) (resp_CustomStatus results) (spanTrace (t_spans st)) (owi_IncomingHistory (t_wi st))
      (stampState (resp_Version results) s) (t_world st)
      (if terminating then beforeContinueAsNew (resp_Actions results) else resp_Actions results) = (ast, Ok tt) /\
    (ar_ContinuedAsNew (as_result ast) = false ->
       t_calls st' = S (t_calls st) /\ stateOf st' = Some (as_state ast)).
Proof.
  intros Hs H. destruct budget; cbn [turnLoop] in H.
  all: apply bind_Ok in H as (st0 & s0 & E & H); apply curState_Ok in E as [-> E];
    rewrite Hs in E; injection E as <-.
  all: apply bind_Ok in H as (st1 & [] & E & H); assert (st1 = st) as ->
    by (clear H; revert E; case_match; [by intros [= <-] |]; unfold mbind, M_bind, deref;
        destruct (HistoryListSummary (NewEvents s)); by intros [= <-]); clear E.
  all: apply bind_Ok in H as (st2 & wi & E & H); injection E as <- <-.
  all: apply bind_Ok in H as (st2 & results & E & H); apply wrapErr_Ok in E;
    unfold execute in E; injection E as <- Hex.
  all: apply bind_Ok in H as (st2 & ? & E & H); apply deref_Ok in E as [-> _].
  all: apply bind_Ok in H as (st2 & [] & E & H); injection E as <-.
  all: apply bind_Ok in H as (st3 & res & E & H); apply wrapErr_Ok in E.
  all: match type of E with runActions _ _ _ _ _ ?st2 = _ =>
         rewrite (runActions_eq _ _ _ st2 (stampState (resp_Version results) s) ltac:(done)) in E end.
  all: match type of E with context [Actions ?a ?cs ?tc ?rh ?q ?w ?acts] =>
         destruct (Actions a cs tc rh q w acts) as [ast [[]| |]] eqn:EA end; cbn in E;
       try discriminate; injection E as <- <-.
  all: apply bind_Ok in H as (st4 & [] & E & H); injection E as <-.
  all: exists results, ast; split_and!; [done | done |]; intros Hc; rewrite Hc in H; by injection H as <-.
Qed.

(** A terminating turn runs the workflow once and keeps the old log. *)
Lemma turnLoop_terminating budget st st' s :
  stateOf st = Some s ->
  turnLoop p spanTrace true budget st = (st', Ok tt) ->
  t_calls st' = S (t_calls st) /\
  exists s', stateOf st' = Some s' /\ OldEvents s' = OldEvents s.
Proof.
  intros Hs H. destruct (turnLoop_once true budget st st' s Hs H) as (results & ast & _ & Ha & Hend).
  match type of Ha with Actions ?a ?cs ?tc ?rh ?q ?w ?acts = _ =>
    destruct (Actions_grow a cs tc rh q w acts (beforeContinueAsNew_none _)) as (G1 & _ & G3) end.
  rewrite Ha in G1, G3. cbn [fst as_state] in G1, G3. destruct (Hend G3) as [Hc Hs']. split; [done |].
  exists (as_state ast). split; [done |]. rewrite G1. unfold stampState. by case_match.
Qed.

Lemma forceTermination_completes et st st' s :
  stateOf st = Some s ->
  forceTermination p spanTrace et st = (st', Ok tt) ->
  t_calls st' = t_calls st /\
  exists s', stateOf st' = Some s' /\ OldEvents s' = OldEvents s /\ IsCompleted s' = true /\
    (IsCompleted s = true -> s' = s) /\
    (IsCompleted s = false ->
       CompletedEvent s' = Some (mkExecutionCompletedEvent TERMINATED (et_Input et) None) /\
       PendingTasks s' = [] /\ PendingTimers s' = []).
Proof.
  intros Hs H. unfold forceTermination in H.
  apply bind_Ok in H as (st0 & s0 & E & H). apply curState_Ok in E as [-> E].
  rewrite Hs in E. injection E as <-. destruct (IsCompleted s) eqn:Hc.
  { injection H as <-. split; [done |]. exists s. split_and!; done. }
  apply bind_Ok in H as (st1 & [] & E & H). injection E as <-.
  apply bind_Ok in H as (st2 & res & E & H). injection H as <-. apply wrapErr_Ok in E.
  match type of E with runActions _ _ ?cs ?acts ?rh ?st1 = _ =>
    rewrite (runActions_eq cs acts rh st1
      (set_PendingMessages [] (set_PendingTimers [] (set_PendingTasks [] s))) eq_refl) in E end.
  match type of E with context [Actions ?a ?cs ?tc ?rh ?q ?w ?acts] =>
    destruct (Actions a cs tc rh q w acts) as [ast [[]| |]] eqn:EA end; cbn in E; try discriminate.
  injection E as <- _. split; [done |]. exists (as_state ast). split; [done |].
  unfold Actions in EA. cbn [applyLoop] in EA.
  apply bind_Ok in EA as (ast1 & b & EA & EB). unfold applyAction in EA. cbn [wa_Type wa_Id] in EA.
  unfold applyCompleteWorkflow in EA. apply bind_Ok in EA as (? & q & E & EA).
  injection E as <- <-. cbn [as_state] in EA.
  unfold IsCompleted in Hc. cbn in EA. destruct (CompletedEvent s) eqn:Hce; [done |].
  apply (applyCompletion_ok s (mkWorkflowAction (-1) (Some (WorkflowAction_CompleteWorkflow
    (mkCompleteWorkflowAction TERMINATED (et_Input et) None None [] None))) None)) in EA
    as [-> [[_ _ A3 _ _ A6 A7] _]]; [| done | done | done].
  injection EB as <-. cbn in A3, A6, A7. rewrite Hce in A6. cbn in A6.
  unfold IsCompleted. rewrite A6. split_and!; [done | done | done |]. intros _.
  split_and!; [done | |].
  - apply (f_equal ob_tasks) in A7. cbn in A7. destruct (PendingTasks (as_state ast1)); [done |].
    cbn in A7. unfold effect, IsCompleted in A7. cbn in A7. rewrite Hce in A7. discriminate.
  - apply (f_equal ob_timers) in A7. cbn in A7. destruct (PendingTimers (as_state ast1)); [done |].
    cbn in A7. unfold effect, IsCompleted in A7. cbn in A7. rewrite Hce in A7. discriminate.
Qed.

(** A turn that is not asked to terminate and does not continue as new is one generation. *)
Lemma ProcessWorkItem_once st st' s :
  ids_ok (owi_NewEvents (t_wi st)) -> ids_ok (history s) -> terminateEventOf (t_wi st) = None ->
  loadedState st = Some s -> IsValid s = true -> IsCompleted s = false ->
  ProcessWorkItem p loadState spanTrace st = (st', Ok tt) ->
  let o := openedState st s in
  exists results ast tc w,
    @ExecuteWorkflow (selectExecutor p o) (t_calls st) (owi_InstanceID (t_wi st)) (OldEvents o) (NewEvents o)
      (owi_IncomingHistory (t_wi st)) = Ok results /\
    Actions (wp_applier p) (resp_CustomStatus results) tc (owi_IncomingHistory (t_wi st))
      (stampState (resp_Version results) o) w (resp_Actions results) = (ast, Ok tt) /\
    (ar_ContinuedAsNew (as_result ast) = false -> stateOf st' = Some (as_state ast)).
Proof.
  intros He Hok Het Hl Hv Hc H o. unfold ProcessWorkItem in H.
  apply bind_Ok in H as (? & wi & E & H). injection E as <- <-.
  apply bind_Ok in H as (? & ? & E & H). apply deref_Ok in E as [-> _].
  apply bind_Ok in H as (st1 & [] & E & H).
  assert (st1 = mkTurnSt (setState s (t_wi st)) (t_world st) (t_calls st) (t_spans st)) as ->.
  { revert E Hl. unfold ensureState, loadedState, stateOf, mbind, M_bind, gets.
    destruct (owi_State (t_wi st)) as [s0|] eqn:Es.
    - intros [= <-] [= ->]. destruct st as [[] ? ? ?]. cbn in Es |- *. by subst.
    - destruct (loadState _); [| done]. by intros [= <-] [= ->]. }
  rewrite Het in H. apply bind_Ok in H as (st2 & b & E6 & H).
  apply (applyWorkItem_true _ s) in E6 as [-> ->]; [| done ..].
  apply bind_Ok in H as (st3 & [] & E7 & H). injection H as <-. unfold runTurn in E7.
  apply bind_Ok in E7 as (st4 & [] & E8 & E9). injection E9 as <-.
  apply (turnLoop_once _ _ _ _ o) in E8 as (results & ast & Hex & Ha & Hend); [| done].
  do 4 eexists. split_and!; [exact Hex | exact Ha |]. intros Hcan. by apply Hend.
Qed.

(** *** How often workflow code runs *)

Definition callsAtMost {X} (k : nat) (m : T X) : Prop :=
  forall st, (t_calls st <= t_calls (m st).1 <= t_calls st + k)%nat.

Lemma calls_bind {X Y} k1 k2 (m : T X) (f : X -> T Y) :
  callsAtMost k1 m -> (forall x, callsAtMost k2 (f x)) -> callsAtMost (k1 + k2) (mbind f m).
Proof.
  intros Hm Hf st. unfold mbind, M_bind. specialize (Hm st).
  destruct (m st) as [st1 [x | e | q]]; cbn in *; [| lia | lia].
  specialize (Hf x st1). lia.
Qed.

Lemma calls_same {X} (m : T X) : (forall st, t_calls (m st).1 = t_calls st) -> callsAtMost 0 m.
Proof. intros H st. rewrite H. lia. Qed.

Lemma calls_curState : callsAtMost 0 curState.
Proof. apply calls_same. intros st. by rewrite curState_same. Qed.

Lemma calls_wrapErr {X} k msg (m : T X) : callsAtMost k m -> callsAtMost k (wrapErr msg m).
Proof. intros Hm st. unfold wrapErr. specialize (Hm st). by destruct (m st) as [? []]. Qed.

Lemma calls_runActions cs acts rh : callsAtMost 0 (runActions p spanTrace cs acts rh).
Proof.
  apply calls_same. intros st. destruct (stateOf st) as [s|] eqn:Hs.
  - by rewrite (runActions_eq cs acts rh st s Hs).
  - unfold runActions, curState, mbind, M_bind, gets. unfold stateOf in Hs. by rewrite Hs.
Qed.

(** Sequencing a computation that runs no workflow code. *)
Lemma calls_bind0 {X Y} k (m : T X) (f : X -> T Y) :
  callsAtMost 0 m -> (forall x, callsAtMost k (f x)) -> callsAtMost k (mbind f m).
Proof. apply (calls_bind 0). Qed.

Lemma calls_deref {X} what (q : option X) : callsAtMost 0 (deref what q).
Proof. apply calls_same. by destruct q. Qed.

Lemma calls_weaken {X} k (m : T X) : callsAtMost 0 m -> callsAtMost k m.
Proof. intros H st. specialize (H st). lia. Qed.

Lemma turnLoop_calls terminating budget :
  callsAtMost (S budget) (turnLoop p spanTrace terminating budget).
Proof.
  induction budget as [|budget IH]; cbn [turnLoop].
  all: apply calls_bind0; [apply calls_curState | intros s].
  all: apply calls_bind0; [case_match; [by apply calls_same |];
         apply (calls_bind 0 0); [apply calls_deref | intros; by apply calls_same] | intros _].
  all: apply calls_bind0; [by apply calls_same | intros wi].
  all: (apply (calls_bind 1 0) || apply (calls_bind 1 (S budget)));
         [apply calls_wrapErr; intros st; cbn; lia | intros results].
  all: apply calls_bind0; [apply calls_deref | intros _].
  all: apply calls_bind0; [by apply calls_same | intros _].
  all: apply calls_bind0; [apply calls_wrapErr, calls_runActions | intros res].
  all: apply calls_bind0; [by apply calls_same | intros _].
  all: case_match; try (apply calls_weaken; by apply calls_same).
  apply calls_bind0; [case_match; by apply calls_same | intros _].
  apply calls_bind0; [by apply calls_same | intros _; exact IH].
Qed.

Lemma forceTermination_calls et : callsAtMost 0 (forceTermination p spanTrace et).
Proof.
  unfold forceTermination. apply calls_bind0; [apply calls_curState | intros s].
  case_match; [by apply calls_same |].
  apply calls_bind0; [by apply calls_same | intros _].
  apply calls_bind0; [apply calls_wrapErr, calls_runActions | intros; by apply calls_same].
Qed.

Lemma cascade_calls te : callsAtMost 0 (cascade te).
Proof.
  apply calls_same. intros st. destruct (stateOf st) as [s|] eqn:Hs.
  - by destruct (cascade_state te st s Hs).
  - by rewrite cascade_None.
Qed.

Lemma applyWorkItem_calls : callsAtMost 0 applyWorkItem.
Proof.
  apply calls_same. intros st. destruct (stateOf st) as [s|] eqn:Hs.
  - by destruct (applyWorkItem_cases st s Hs) as [[_ ->]|(_ & _ & o & ->)].
  - unfold applyWorkItem, curState, mbind, M_bind, gets. unfold stateOf in Hs. by rewrite Hs.
Qed.

(** A property of the runtime state that survives opening a turn survives the
    whole turn, and the work item stays the same. *)
Lemma ProcessWorkItem_keeps P `{HP : !TurnProperty P} st :
  (forall st1 s, P s -> ids_ok (history s) -> ids_ok (owi_NewEvents (t_wi st1)) ->
     P (openedState st1 s)) ->
  ids_ok (owi_NewEvents (t_wi st)) ->
  (forall s, loadedState st = Some s -> P s /\ ids_ok (history s)) ->
  Inv (t_wi st) P (ProcessWorkItem p loadState spanTrace st).1.
Proof.
  intros Ho He Hl.
  assert (Inv (t_wi st) P st) as Hi.
  { split_and!; [done | done |]. intros s Hs. apply Hl. unfold loadedState. by rewrite Hs. }
  unfold ProcessWorkItem, mbind, M_bind, gets.
  destruct (HistoryListSummary (owi_NewEvents (t_wi st))) as [sum|]; [| done]. cbn.
  pose proof (ensureState_cases st) as (E1 & E2 & E3 & [E4 E4'] & E5).
  assert (forall s, stateOf (ensureState loadState st).1 = Some s -> P s /\ ids_ok (history s)) as Hld.
  { intros s Hs. apply Hl. unfold loadedState in *.
    destruct (stateOf st) eqn:Hst; [rewrite E5, Hst in Hs; done |].
    destruct (loadState (owi_InstanceID (t_wi st))); rewrite E5 in Hs; [done | congruence]. }
  assert (Ready (t_wi st) P (ensureState loadState st).1) as Hr.
  { split_and!; [by rewrite E3 | by split_and!; [.. | intros s Hs; by apply Hld] | intros s Hs; by apply Hld]. }
  destruct (ensureState loadState st) as [st1 [[]| |]]; cbn in Hr.
  2,3: by apply Hr.
  pose proof (applyWorkItem_Inv (t_wi st) P st1 (Ho st1) Hr) as Hi1.
  destruct (applyWorkItem st1) as [st2 [b| |]]; [| done | done].
  pose proof (runTurn_Inv (t_wi st) P (terminateEventOf (t_wi st)) b st2 Hi1) as Hi2.
  destruct (runTurn _ _ _ b st2) as [st3 [[]| |]]; [| done | done].
  by apply cascade_Inv.
Qed.

(** ** Properties *)

(** C15. A turn keeps the log invariant, whatever the workflow code answers and
    however the turn ends (success, error or panic, after any number of
    continue-as-new generations). *)
Theorem ProcessWorkItem_hist_inv st :
  ids_ok (owi_NewEvents (t_wi st)) ->
  (forall s, loadedState st = Some s -> hist_inv s /\ ids_ok (history s)) ->
  forall s', stateOf (ProcessWorkItem p loadState spanTrace st).1 = Some s' -> hist_inv s'.
Proof.
  intros He Hl s' Hs'.
  apply (ProcessWorkItem_keeps hist_inv st) in Hl as (_ & _ & Hi); [by apply Hi | | done].
  intros st1 s Hs Hok Hok'. by apply openedState_inv.
Qed.

(** C27. A terminate event is always honoured: when a work item of a running
    workflow carries one and the turn returns, the workflow is completed,
    whatever the workflow code answered (it ran exactly once, and asking to
    continue as new does not help); its old log is kept, so a recursive terminate
    reaches every child the log records, each with a terminate message. *)
Theorem terminate_completes st st' s et :
  ids_ok (owi_NewEvents (t_wi st)) -> ids_ok (history s) ->
  terminateEventOf (t_wi st) = Some et ->
  loadedState st = Some s -> IsValid s = true -> IsCompleted s = false ->
  ProcessWorkItem p loadState spanTrace st = (st', Ok tt) ->
  t_calls st' = S (t_calls st) /\
  exists s', stateOf st' = Some s' /\ IsCompleted s' = true /\ OldEvents s' = OldEvents s /\
    (et_Recurse et = true -> forall c, c ∈ childIds (history s') ->
       exists m, m ∈ PendingMessages s' /\ msg_TargetInstanceId m = c /\
         GetExecutionTerminated (msg_HistoryEvent m) =
           Some (mkExecutionTerminatedEvent (et_Input et) true)).
Proof.
  intros He Hok Het Hl Hv Hc H. unfold ProcessWorkItem in H.
  apply bind_Ok in H as (? & wi & E & H). injection E as <- <-.
  apply bind_Ok in H as (? & ? & E & H). apply deref_Ok in E as [-> _].
  apply bind_Ok in H as (st1 & [] & E & H).
  pose proof (ensureState_cases st) as (_ & E2 & E3 & _ & E5). rewrite E in E2, E3, E5. cbn in E2, E3, E5.
  assert (stateOf st1 = Some s) as Hs1.
  { unfold loadedState in Hl. destruct (stateOf st) eqn:Hst; [congruence |].
    destruct (loadState (owi_InstanceID (t_wi st))); [congruence | done]. }
  rewrite <- E3 in He. rewrite Het in H.
  apply bind_Ok in H as (st2 & b & E6 & H).
  apply (applyWorkItem_true st1 s) in E6 as [-> ->]; [| done..].
  destruct (openedState_log st1 s He Hok) as [HO _].
  apply bind_Ok in H as (st3 & [] & E7 & H). unfold runTurn in E7.
  apply bind_Ok in E7 as (st4 & [] & E8 & E9).
  apply (turnLoop_terminating _ _ _ (openedState st1 s)) in E8 as (C1 & s4 & S4 & O4); [| done].
  apply (forceTermination_completes _ _ _ s4) in E9 as (C2 & s5 & S5 & O5 & D5 & _); [| done].
  destruct (cascade_state (Some et) st3 s5 S5) as (C3 & ms & S6 & HM6).
  rewrite H in C3, S6. cbn in C3, S6. cbn in C1.
  split; [congruence |]. eexists. split; [exact S6 |]. cbn.
  split_and!; [exact D5 | congruence |]. intros Hr c Hin.
  destruct (HM6 et eq_refl D5 Hr c Hin) as (m & Hm & HR). exists m. split; [| done].
  rewrite elem_of_app. by right.
Qed.

(** The continue-as-new loop is bounded: one work item runs workflow code at
    most 21 times (the first run and 20 continuations), however often the code
    asks to continue as new. *)
Theorem continue_as_new_bounded st :
  (t_calls (ProcessWorkItem p loadState spanTrace st).1 <= t_calls st + 21)%nat.
Proof.
  assert (callsAtMost 21 (ProcessWorkItem p loadState spanTrace)) as H; [| apply H].
  unfold ProcessWorkItem. apply calls_bind0; [by apply calls_same | intros wi].
  apply calls_bind0; [apply calls_deref | intros _].
  apply calls_bind0; [apply calls_same; intros; by destruct (ensureState_cases st0) as (_ & ? & _)
                     | intros _].
  apply calls_bind0; [apply applyWorkItem_calls | intros b].
  apply (calls_bind 21 0); [| intros; apply cascade_calls].
  unfold runTurn. destruct b; [| apply calls_weaken; by apply calls_same].
  apply (calls_bind 21 0); [apply turnLoop_calls | intros _].
  destruct (terminateEventOf wi); [apply forceTermination_calls | by apply calls_same].
Qed.

(** A work item for a completed or corrupt workflow is dropped: no workflow
    code runs, and without a terminate event the state is left as it was
    loaded. *)
Theorem completed_work_item_dropped st s sum :
  HistoryListSummary (owi_NewEvents (t_wi st)) = Some sum ->
  loadedState st = Some s -> IsValid s = false \/ IsCompleted s = true ->
  exists st', ProcessWorkItem p loadState spanTrace st = (st', Ok tt) /\
    t_calls st' = t_calls st /\
    (terminateEventOf (t_wi st) = None -> stateOf st' = Some s).
Proof.
  intros Hsum Hl Hd. unfold ProcessWorkItem, mbind, M_bind, gets. rewrite Hsum. cbn.
  pose proof (ensureState_cases st) as (_ & E2 & E3 & _ & E5).
  assert (exists st1, ensureState loadState st = (st1, Ok tt) /\ stateOf st1 = Some s) as (st1 & E & Hs).
  { unfold loadedState in Hl. revert E5. unfold ensureState, mbind, M_bind, gets, stateOf in *.
    destruct (owi_State (t_wi st)) eqn:Ho; [cbn; intros _; exists st; split; [done | congruence] |].
    destruct (loadState _); [| done]. simplify_eq. cbn. intros _. eauto. }
  rewrite E in E2 |- *. cbn in E2.
  destruct (applyWorkItem_cases st1 s Hs) as [[_ ->]|(Hv & Hc & _)]; [| destruct Hd; congruence].
  cbn. destruct (cascade_state (terminateEventOf (t_wi st)) st1 s Hs) as (C1 & ms & C2 & _).
  assert ((cascade (terminateEventOf (t_wi st)) st1).2 = Ok tt) as Hok.
  { unfold cascade. destruct (terminateEventOf (t_wi st)); [| done].
    unfold curState, mbind, M_bind, gets, get. unfold stateOf in Hs. rewrite Hs. cbn.
    destruct (IsCompleted s); [| done]. by destruct (appendCascadeTerminateMessages _ _ _). }
  destruct (cascade (terminateEventOf (t_wi st)) st1) as [st' o] eqn:Ec. cbn in *. subst o.
  exists st'. split_and!; [done | congruence |]. intros Hn. rewrite Hn in Ec. cbn in Ec.
  injection Ec as <-. done.
Qed.
End Runs.

(** ** Witnesses: a workflow that continues as new for ever *)

#[local] Existing Instance nameCodec.
#[local] Instance anyRange : MapRange :=
  {| mapRange := map_to_list; mapRange_perm := fun _ => reflexivity _ |}.

Definition respond (acts : list WorkflowAction) : WorkflowResponse :=
  mkWorkflowResponse "wf1" acts None "" None None.

(** It also starts a child each time. *)
Definition restless : WorkflowExecutor := {|
  ExecuteWorkflow := fun _ _ _ _ _ => Ok (respond
    [act 7 (WorkflowAction_CreateChildWorkflow
       (mkCreateChildWorkflowAction "kid" "Child" None None None None));
     act 8 (completeWith CONTINUED_AS_NEW "next")])
|}.

Definition sampleProcessor : workflowProcessor :=
  mkWorkflowProcessor restless None "" sampleApplier.

Definition sampleTurn (events : list HistoryEvent) (s : WorkflowRuntimeState) : TurnSt :=
  mkTurnSt (mkWorkflowWorkItem "wf1" events "me" 0 (Some s) None ∅) sampleWorld 0 0.

Definition terminateEvents : list HistoryEvent :=
  [ev (-1) 30 (HistoryEvent_ExecutionTerminated (mkExecutionTerminatedEvent (Some "stop") true));
   ev (-1) 31 (HistoryEvent_EventRaised (mkEventRaisedEvent "x" None))].

Definition sampleTerminated : TurnSt * outcome error unit :=
  ProcessWorkItem sampleProcessor (fun _ => inr ErrInstanceNotFound) (fun _ => None)
    (sampleTurn terminateEvents sampleState).

Lemma terminate_completes_witness :
  exists s', stateOf sampleTerminated.1 = Some s' /\ RuntimeStatus s' = TERMINATED /\
    exists m, m ∈ PendingMessages s' /\ msg_TargetInstanceId m = "kid".
Proof.
  destruct (terminate_completes sampleProcessor (fun _ => inr ErrInstanceNotFound) (fun _ => None)
    (sampleTurn terminateEvents sampleState) sampleTerminated.1 sampleState
    (mkExecutionTerminatedEvent (Some "stop") true)) as (_ & s' & Hs & _ & _ & HR);
    [decide_now | decide_now | vm_compute; reflexivity.. |].
  exists s'. split_and!; [exact Hs | |].
  - vm_compute in Hs. injection Hs as <-. reflexivity.
  - destruct (HR eq_refl "kid") as (m & Hm & Ht & _); [| eauto].
    vm_compute in Hs. injection Hs as <-. decide_now.
Defined.

Definition sampleAfter : WorkflowRuntimeState :=
  default sampleState (stateOf (ProcessWorkItem sampleProcessor (fun _ => inr ErrInstanceNotFound)
    (fun _ => None) (sampleTurn sampleEvents sampleState)).1).

Lemma ProcessWorkItem_hist_inv_witness : length (history sampleAfter) = 3%nat /\ hist_inv sampleAfter.
Proof.
  split; [vm_compute; reflexivity |].
  apply (ProcessWorkItem_hist_inv sampleProcessor (fun _ => inr ErrInstanceNotFound) (fun _ => None)
    (sampleTurn sampleEvents sampleState)); [decide_now | | vm_compute; reflexivity].
  intros s Hs. rewrite <- (Some_inj sampleState s Hs).
  split; [apply sampleState_inv | decide_now].
Defined.

(** The 21st generation is refused. *)
Example restless_is_stopped :
  let r := ProcessWorkItem sampleProcessor (fun _ => inr ErrInstanceNotFound)
             (fun _ => None) (sampleTurn sampleEvents sampleState) in
  t_calls r.1 = 21%nat /\ is_Ok r.2 = false.
Proof. vm_compute. auto. Qed.

Lemma completed_work_item_dropped_witness :
  exists st', ProcessWorkItem sampleProcessor (fun _ => inr ErrInstanceNotFound) (fun _ => None)
    (sampleTurn sampleEvents sampleCompleted) = (st', Ok tt) /\ t_calls st' = 0%nat /\
    (terminateEventOf (t_wi (sampleTurn sampleEvents sampleCompleted)) = None ->
     stateOf st' = Some sampleCompleted).
Proof.
  apply (completed_work_item_dropped sampleProcessor (fun _ => inr ErrInstanceNotFound)
    (fun _ => None) (sampleTurn sampleEvents sampleCompleted) sampleCompleted
    "[WorkflowStarted, ExecutionStarted, TaskScheduled, TaskCompleted, TaskFailed, ExecutionStarted, ExecutionSuspended]");
    [vm_compute; reflexivity | reflexivity | right; reflexivity].
Defined.
