(* ===== verification/Worker.v ===== *)
(** * Workers and the task hub (backend/worker.go, backend/taskhub.go)

    A worker is one polling goroutine and up to [MaxParallelWorkItems] goroutines
    that process work items, synchronised by a buffered channel, a mutex and two
    completion channels.  Their interleavings are a step relation; one processed
    work item is a function.  The task hub is the mutex-protected life cycle
    around two workers and a backend. *)

From stdpp Require Import base list option strings sets relations.
From Stdlib Require Import ZArith Lia.
From S2P Require Import Prelude Errors.

(** ** Options and delays (worker.go) *)

Definition minDefaultMaxParallelism : Z := 16.
Definition maxDefaultMaxParallelism : Z := 64.
Definition workerRetryInitialDelay : Z := 100 * Millisecond.
Definition workerRetryMaxDelay : Z := 5 * Second.

(** [DefaultMaxParallelism]; [procs] is [runtime.GOMAXPROCS(0)]. *)
Definition DefaultMaxParallelism (procs : Z) : Z :=
  let maxParallelism := int32_of (4 * procs) in
  if maxParallelism <? minDefaultMaxParallelism then minDefaultMaxParallelism
  else if maxDefaultMaxParallelism <? maxParallelism then maxDefaultMaxParallelism
  else maxParallelism.

(** [NewTaskWorker]: the capacity of the worker; the options are applied in
    order, each replacing the limit, and a limit that is not positive panics. *)
Definition workerCapacity (procs : Z) (opts : list Z) : option nat :=
  let limit := foldl (fun _ n => n) (DefaultMaxParallelism procs) opts in
  if limit <=? 0 then None else Some (Z.to_nat limit).

(** The doubling loop of [retryDelay].  The delay doubles at least once per
    iteration up to its cap, so the loop ends on its own; [attempt] counts it. *)
Fixpoint baseDelayLoop (attempt : nat) (delay : Z) : Z :=
  match attempt with
  | O => delay
  | S attempt =>
      if delay <? workerRetryMaxDelay then
        let delay := delay * 2 in
        let delay := if workerRetryMaxDelay <? delay then workerRetryMaxDelay else delay in
        baseDelayLoop attempt delay
      else delay
  end.

Definition baseDelay (attempt : nat) : Z := baseDelayLoop attempt workerRetryInitialDelay.

(** [retryDelay]; [jitter d] is [time.Duration(rand.Float64()*float64(d)/2)]. *)
Definition retryDelay (jitter : Z -> Z) (attempt : nat) : Z :=
  let delay := baseDelay attempt in delay / 2 + jitter delay.

(** ** Processing one work item (worker.go) *)

(** What a worker asks of a processor; each call acts on a store. *)
Class TaskProcessor (W S : Type) := {
  tp_ProcessWorkItem : W -> M S error unit;
  tp_CompleteWorkItem : W -> M S error unit;
  tp_AbandonWorkItem : W -> M S error unit
}.

Inductive Call := CProcess | CComplete | CAbandon.

Section ProcessItem.
Context {W S : Type} `{TaskProcessor W S}.

(** The calls made, in order, with whether each one succeeded. *)
Definition abandonWorkItem (wi : W) (st : S) : option (S * list (Call * bool)) :=
  match tp_AbandonWorkItem wi st with
  | (_, Panic _) => None
  | (st, o) => Some (st, [(CAbandon, is_Ok o)])
  end.

(** [processWorkItem]; a panic of the processor crashes the process, so it is
    [None]. *)
Definition processWorkItem (wi : W) (st : S) : option (S * list (Call * bool)) :=
  match tp_ProcessWorkItem wi st with
  | (_, Panic _) => None
  | (st, Err _) =>
      '(st, calls) ← abandonWorkItem wi st; Some (st, (CProcess, false) :: calls)
  | (st, Ok _) =>
      match tp_CompleteWorkItem wi st with
      | (_, Panic _) => None
      | (st, Err _) =>
          '(st, calls) ← abandonWorkItem wi st;
          Some (st, (CProcess, true) :: (CComplete, false) :: calls)
      | (st, Ok _) => Some (st, [(CProcess, true); (CComplete, true)])
      end
  end.
End ProcessItem.

(** ** The polling loop as a step relation (worker.go, Start) *)

(** Where the polling goroutine is. *)
Inductive PollPhase :=
| PollAcquire      (* waiting for a slot of parallelLock, or cancellation *)
| PollFetching     (* holds a slot, inside NextWorkItem *)
| PollBackoff      (* waiting in waitForWorkerRetry *)
| PollStopped.     (* returned: pollDone is closed *)

Record WorkerSt := mkWorkerSt {
  w_running : bool;            (* w.running *)
  w_cancelled : bool;          (* the worker context is done *)
  w_poll : PollPhase;
  w_slots : nat;               (* len(w.parallelLock) *)
  w_inflight : list nat;       (* work item goroutines, by item number *)
  w_retryAttempt : nat;
  w_dispatched : nat           (* items handed to goroutines so far *)
}.

Definition initialWorker : WorkerSt := mkWorkerSt false false PollStopped 0 [] 0 0.

Section Worker.
Variable capacity : nat.

Inductive worker_step : WorkerSt -> WorkerSt -> Prop :=
(* Start: ignored while running *)
| ws_start s :
    w_running s = false ->
    worker_step s (mkWorkerSt true false PollAcquire (w_slots s) (w_inflight s) 0 (w_dispatched s))
(* StopAndDrain or ForceStop cancels, or the caller's context ends *)
| ws_cancel s :
    w_running s = true ->
    worker_step s (mkWorkerSt true true (w_poll s) (w_slots s) (w_inflight s)
                     (w_retryAttempt s) (w_dispatched s))
(* w.parallelLock <- struct{}{} *)
| ws_acquire s :
    w_poll s = PollAcquire -> (w_slots s < capacity)%nat ->
    worker_step s (mkWorkerSt (w_running s) (w_cancelled s) PollFetching (S (w_slots s))
                     (w_inflight s) (w_retryAttempt s) (w_dispatched s))
(* <-ctx.Done() in the select *)
| ws_acquire_stop s :
    w_poll s = PollAcquire -> w_cancelled s = true ->
    worker_step s (mkWorkerSt (w_running s) true PollStopped (w_slots s) (w_inflight s)
                     (w_retryAttempt s) (w_dispatched s))
(* NextWorkItem returned an item *)
| ws_dispatch s :
    w_poll s = PollFetching ->
    worker_step s (mkWorkerSt (w_running s) (w_cancelled s) PollAcquire (w_slots s)
                     (w_dispatched s :: w_inflight s) 0 (S (w_dispatched s)))
(* NextWorkItem failed: release the slot, then stop or back off *)
| ws_fetch_error s n :
    w_poll s = PollFetching -> w_slots s = S n ->
    worker_step s (mkWorkerSt (w_running s) (w_cancelled s)
                     (if w_cancelled s then PollStopped else PollBackoff) n
                     (w_inflight s) (w_retryAttempt s) (w_dispatched s))
| ws_backoff_done s :
    w_poll s = PollBackoff ->
    worker_step s (mkWorkerSt (w_running s) (w_cancelled s) PollAcquire (w_slots s)
                     (w_inflight s) (S (w_retryAttempt s)) (w_dispatched s))
| ws_backoff_stop s :
    w_poll s = PollBackoff -> w_cancelled s = true ->
    worker_step s (mkWorkerSt (w_running s) true PollStopped (w_slots s) (w_inflight s)
                     (w_retryAttempt s) (w_dispatched s))
(* a work item goroutine returns: <-w.parallelLock; w.workWG.Done() *)
| ws_done s l1 i l2 n :
    w_inflight s = l1 ++ i :: l2 -> w_slots s = S n ->
    worker_step s (mkWorkerSt (w_running s) (w_cancelled s) (w_poll s) n (l1 ++ l2)
                     (w_retryAttempt s) (w_dispatched s))
(* the drain goroutine: pollDone closed, workWG.Wait() returned *)
| ws_drained s :
    w_running s = true -> w_poll s = PollStopped -> w_inflight s = [] ->
    worker_step s (mkWorkerSt false (w_cancelled s) PollStopped (w_slots s) []
                     (w_retryAttempt s) (w_dispatched s)).

(** A slot is held by each work item goroutine and by the poller while it
    fetches; items are distinct and numbered in order; a worker that is not
    running has nothing going on. *)
Record worker_inv (s : WorkerSt) : Prop := {
  wi_slots : w_slots s =
    (length (w_inflight s) + (if w_poll s is PollFetching then 1 else 0))%nat;
  wi_cap : (w_slots s <= capacity)%nat;
  wi_nodup : NoDup (w_inflight s);
  wi_bound : Forall (fun i => (i < w_dispatched s)%nat) (w_inflight s);
  wi_idle : w_running s = false -> w_poll s = PollStopped /\ w_inflight s = []
}.

Lemma worker_step_inv s s' : worker_step s s' -> worker_inv s -> worker_inv s'.
Proof.
  intros Hst [I1 I2 I3 I4 I5]. destruct Hst; split; cbn in *; try done; simplify_eq.
  all: try (destruct (I5 ltac:(assumption)) as [Hp Hi]; rewrite ?Hp, ?Hi in *; cbn in *; lia).
  all: repeat match goal with H : w_poll ?x = _ |- _ => rewrite H in * end.
  all: repeat match goal with H : w_inflight ?x = [] |- _ => rewrite H in * end.
  all: try (destruct (w_cancelled _); cbn in *; lia).
  all: try lia.
  all: try (intros Hr; destruct (I5 Hr); congruence).
  - constructor; [| done]. intros Hin. eapply Forall_forall in I4; [| exact Hin]. lia.
  - constructor; [lia |]. eapply Forall_impl; [exact I4 |]. cbn. lia.
  - rewrite H in I1. rewrite length_app in *. cbn in *. lia.
  - rewrite H, <- Permutation_middle in I3. by apply NoDup_cons in I3 as [_ ?].
  - rewrite H in I4. apply Forall_app in I4 as [? [? ?]%Forall_cons]. by apply Forall_app.
  - intros Hr. destruct (I5 Hr) as [? Hi]. rewrite Hi in H. by destruct l1.
  - exact I1.
  - apply NoDup_nil_2.
Qed.

Lemma worker_reachable_inv s : rtc worker_step initialWorker s -> worker_inv s.
Proof.
  revert s. apply rtc_ind_r; [| by eauto using worker_step_inv].
  split; cbn; try done; [lia | apply NoDup_nil_2].
Qed.

(** A step of a worker that runs: anything but a start. *)
Definition live_step (s s' : WorkerSt) : Prop := w_running s = true /\ worker_step s s'.

(** In-flight items finish one after another. *)
Lemma finish_all s :
  worker_inv s -> w_running s = true -> w_poll s <> PollFetching ->
  rtc live_step s (mkWorkerSt (w_running s) (w_cancelled s) (w_poll s) 0 []
                       (w_retryAttempt s) (w_dispatched s)).
Proof.
  intros Hi Hr Hp. remember (w_inflight s) as l eqn:Hl. revert s Hi Hr Hp Hl.
  induction l as [|i l IH]; intros s Hi Hr Hp Hl.
  - destruct Hi as [I1 _ _ _ _]. rewrite <- Hl in I1.
    destruct s as [r c ph sl inf ra d]; cbn in *. subst inf. destruct ph; try done; cbn in I1; by subst.
  - assert (w_slots s = S (length l)) as Hs.
    { destruct Hi as [I1 _ _ _ _]. rewrite I1, <- Hl. cbn. destruct (w_poll s); try done; lia. }
    pose proof (ws_done s [] i l (length l) (eq_sym Hl) Hs) as Hst. cbn in Hst.
    eapply rtc_l; [by split; [| exact Hst] |].
    apply (IH (mkWorkerSt (w_running s) (w_cancelled s) (w_poll s) (length l) l
      (w_retryAttempt s) (w_dispatched s))); [by eapply worker_step_inv | done..].
Qed.

(** Concurrency is bounded and draining means drained: in every reachable
    state at most [capacity] work items are in flight and every one of them
    holds its own slot; when the worker is no longer running (which is what
    [StopAndDrain] and [ForceStop] wait for) nothing is in flight and the poller
    has returned. *)
Theorem worker_bounded_and_drained s :
  rtc worker_step initialWorker s ->
  (length (w_inflight s) <= w_slots s <= capacity)%nat /\
  NoDup (w_inflight s) /\
  (w_running s = false -> w_poll s = PollStopped /\ w_inflight s = [] /\ w_slots s = 0%nat).
Proof.
  intros [I1 I2 I3 I4 I5]%worker_reachable_inv. split_and!; [lia | done | done |].
  intros Hr. destruct (I5 Hr) as [Hp Hi]. rewrite Hp, Hi in I1. done.
Qed.

(** A cancelled worker can always drain: finitely many steps lead to a stopped worker,
    without a new start and without a new item. *)
Lemma cancelled_drains s :
  worker_inv s -> w_running s = true -> w_cancelled s = true ->
  exists s', rtc live_step s s' /\ w_running s' = false /\ w_dispatched s' = w_dispatched s.
Proof.
  intros Hi Hr Hc.
  assert (exists s1, rtc live_step s s1 /\ worker_inv s1 /\ w_running s1 = true /\
    w_poll s1 = PollStopped /\ w_dispatched s1 = w_dispatched s) as (s1 & R1 & I1 & Hr1 & Hp1 & Hd1).
  { destruct (w_poll s) eqn:Hp.
    - pose proof (ws_acquire_stop s Hp Hc) as Hst.
      eexists. split_and!; [by apply rtc_once; split | by eapply worker_step_inv | done..].
    - pose proof (wi_slots s Hi) as Hs. rewrite Hp, Nat.add_comm in Hs.
      pose proof (ws_fetch_error s _ Hp Hs) as Hst.
      eexists. split_and!; [by apply rtc_once; split | by eapply worker_step_inv | done | | done].
      cbn. by rewrite Hc.
    - pose proof (ws_backoff_stop s Hp Hc) as Hst.
      eexists. split_and!; [by apply rtc_once; split | by eapply worker_step_inv | done..].
    - exists s. by split_and!. }
  pose proof (finish_all s1 I1 Hr1 ltac:(by rewrite Hp1)) as R2.
  exists (mkWorkerSt false (w_cancelled s1) PollStopped 0 [] (w_retryAttempt s1) (w_dispatched s1)).
  split_and!; [| done | exact Hd1].
  etrans; [exact R1 |]. etrans; [exact R2 |]. apply rtc_once. split; [done |]. by apply (ws_drained (mkWorkerSt _ _ _ _ _ _ _)).
Qed.
End Worker.

(** The witnesses run a worker with two slots. *)
Definition busyWorker : WorkerSt := mkWorkerSt true true PollAcquire 2 [1; 0]%nat 0 2.

Lemma busyWorker_reachable : rtc (worker_step 2) initialWorker busyWorker.
Proof.
  eapply rtc_l; [by apply (ws_start 2 initialWorker) |].
  eapply rtc_l; [apply ws_acquire; [done | cbn; lia] |].
  eapply rtc_l; [by apply ws_dispatch |].
  eapply rtc_l; [apply ws_acquire; [done | cbn; lia] |].
  eapply rtc_l; [by apply ws_dispatch |].
  eapply rtc_l; [by apply ws_cancel |]. cbn. apply rtc_refl.
Qed.

Lemma worker_bounded_and_drained_witness :
  (length (w_inflight busyWorker) <= w_slots busyWorker <= 2)%nat.
Proof. apply (worker_bounded_and_drained 2 busyWorker), busyWorker_reachable. Defined.

Lemma busyWorker_drains :
  exists s', rtc (live_step 2) busyWorker s' /\ w_running s' = false /\
    w_dispatched s' = w_dispatched busyWorker.
Proof. apply (cancelled_drains 2 busyWorker); [by apply worker_reachable_inv, busyWorker_reachable | done | done]. Qed.

(** *** One work item *)

(** Every processed work item is settled exactly once: either it was
    processed and completed, or the processor was asked to abandon it, once,
    after the failure; never both. *)
Theorem work_item_settled_once {W S} `{TaskProcessor W S} (wi : W) (st st' : S) calls :
  processWorkItem wi st = Some (st', calls) ->
  (calls = [(CProcess, true); (CComplete, true)]) \/
  (exists b, calls = [(CProcess, false); (CAbandon, b)]) \/
  (exists b, calls = [(CProcess, true); (CComplete, false); (CAbandon, b)]).
Proof.
  unfold processWorkItem, abandonWorkItem. intros Hrun.
  destruct (tp_ProcessWorkItem wi st) as [st1 [[] | e | q]]; [| | done].
  - destruct (tp_CompleteWorkItem wi st1) as [st2 [[] | e | q]]; [| | done].
    + by simplify_eq; left.
    + destruct (tp_AbandonWorkItem wi st2) as [st3 [[] | |]]; simplify_eq/=; eauto.
  - destruct (tp_AbandonWorkItem wi st1) as [st3 [[] | |]]; simplify_eq/=; eauto.
Qed.

#[local] Instance flakyProcessor : TaskProcessor nat nat := {|
  tp_ProcessWorkItem := fun wi => mret tt;
  tp_CompleteWorkItem := fun wi => throw ErrWorkItemLockLost;
  tp_AbandonWorkItem := fun wi => modify Nat.succ
|}.

Lemma work_item_settled_once_witness :
  let calls := [(CProcess, true); (CComplete, false); (CAbandon, true)] in
  (calls = [(CProcess, true); (CComplete, true)]) \/
  (exists b, calls = [(CProcess, false); (CAbandon, b)]) \/
  (exists b, calls = [(CProcess, true); (CComplete, false); (CAbandon, b)]).
Proof. apply (work_item_settled_once 0%nat 0%nat 1%nat). reflexivity. Defined.

(** *** Delays and limits *)

Lemma baseDelayLoop_spec attempt delay :
  0 < delay ≤ workerRetryMaxDelay ->
  baseDelayLoop attempt delay = Z.min (delay * 2 ^ Z.of_nat attempt) workerRetryMaxDelay.
Proof.
  revert delay. induction attempt as [|attempt IH]; intros delay Hd; cbn [baseDelayLoop].
  - rewrite Z.pow_0_r. lia.
  - rewrite Nat2Z.inj_succ, Z.pow_succ_r by lia.
    assert (1 ≤ 2 ^ Z.of_nat attempt) by (pose proof (Z.pow_pos_nonneg 2 (Z.of_nat attempt)); lia).
    destruct (Z.ltb_spec delay workerRetryMaxDelay); [| nia].
    destruct (Z.ltb_spec workerRetryMaxDelay (delay * 2)); rewrite IH by lia; nia.
Qed.

(** Retries back off exponentially and stay within bounds: the base delay
    of attempt [n] is [min(100ms * 2^n, 5s)] and the delay slept lies between
    half of it and all of it, so never below 50ms nor above 5s, and never
    overflows; the default limit of parallel work items is always between 16 and
    64. *)
Theorem retryDelay_bounds jitter attempt procs :
  (forall d, 0 ≤ d -> 0 ≤ jitter d ≤ d / 2) ->
  let base := Z.min (workerRetryInitialDelay * 2 ^ Z.of_nat attempt) workerRetryMaxDelay in
  base / 2 ≤ retryDelay jitter attempt ≤ base /\
  50 * Millisecond ≤ retryDelay jitter attempt ≤ workerRetryMaxDelay /\
  16 ≤ DefaultMaxParallelism procs ≤ 64.
Proof.
  intros Hj. cbv zeta. unfold retryDelay, baseDelay.
  rewrite baseDelayLoop_spec by (unfold workerRetryInitialDelay, workerRetryMaxDelay,
    Millisecond, Second; lia).
  set (base := Z.min _ _).
  assert (workerRetryInitialDelay ≤ base ≤ workerRetryMaxDelay) as Hb.
  { unfold base. assert (1 ≤ 2 ^ Z.of_nat attempt)
      by (pose proof (Z.pow_pos_nonneg 2 (Z.of_nat attempt)); lia).
    unfold workerRetryInitialDelay, workerRetryMaxDelay, Millisecond, Second. nia. }
  clearbody base. unfold workerRetryInitialDelay, workerRetryMaxDelay, Millisecond, Second in *.
  specialize (Hj base ltac:(lia)).
  pose proof (Z.div_mod base 2 ltac:(lia)). pose proof (Z.mod_pos_bound base 2 ltac:(lia)).
  split_and!; try lia.
  all: unfold DefaultMaxParallelism, minDefaultMaxParallelism, maxDefaultMaxParallelism.
  all: repeat case_match; lia.
Qed.

Lemma retryDelay_bounds_witness :
  retryDelay (fun d => d / 2) 3 = 800 * Millisecond /\
  50 * Millisecond ≤ retryDelay (fun d => d / 2) 3 ≤ workerRetryMaxDelay.
Proof.
  split; [reflexivity |].
  apply (retryDelay_bounds (fun d => d / 2) 3 8).
  intros d Hd. split; [apply Z.div_pos; lia | lia].
Defined.

(** ** The task hub (taskhub.go)

    Every method takes the mutex for its decision, so each is one atomic step;
    [finishShutdown] runs in a goroutine of its own and is a later step.  The
    answers of the backend and of the workers are arguments. *)

Inductive HubCall :=
| HCreateTaskHub
| HOpenTaskHub
| HBackendStart
| HWorkersStart
| HWorkersDrain
| HBackendStop.

Record HubSt := mkHubSt {
  h_started : bool;
  h_stopping : bool;
  h_done : option bool;          (* shutdownDone: nil, or a channel that is closed or not *)
  h_shutdownErr : option error;
  h_finishing : bool             (* a finishShutdown goroutine is running *)
}.

Definition NewTaskHubWorker : HubSt := mkHubSt false false None None false.

(** [start]; [opens] is [None] for a backend without [OpenTaskHub]. *)
Definition hubStart (create : bool) (createRes : option error)
    (opens : option (option error)) (startRes : option error) (h : HubSt)
    : HubSt * list HubCall * option error :=
  if h_stopping h then (h, [], Some ErrTaskHubStopping)
  else if h_started h then (h, [], None)
  else
    let launch (calls : list HubCall) :=
      match startRes with
      | Some err => (h, calls ++ [HBackendStart], Some err)
      | None => (mkHubSt true (h_stopping h) (h_done h) (h_shutdownErr h) (h_finishing h),
                 calls ++ [HBackendStart; HWorkersStart], None)
      end in
    if create then
      match createRes with
      | Some err => if bool_decide (err = ErrTaskHubExists) then launch [HCreateTaskHub]
                    else (h, [HCreateTaskHub], Some err)
      | None => launch [HCreateTaskHub]
      end
    else
      match opens with
      | None => (h, [], Some ErrTaskHubNotFound)
      | Some (Some err) => (h, [HOpenTaskHub], Some err)
      | Some None => launch [HOpenTaskHub]
      end.

(** The first half of [Shutdown] and of [ForceShutdown]: ask for the shutdown
    once.  The rest of both only waits. *)
Definition hubRequestShutdown (h : HubSt) : HubSt :=
  if negb (h_started h) then h
  else if h_stopping h then h
  else mkHubSt true true (Some false) None true.

(** [finishShutdown] with the answers of the two drains and of [Stop]. *)
Definition hubFinishShutdown (workflowErr activityErr stopErr : option error) (h : HubSt)
    : HubSt * list HubCall :=
  match (match workflowErr with Some e => Some e | None => activityErr end) with
  | Some err => (mkHubSt (h_started h) (h_stopping h) (Some true) (Some err) false, [HWorkersDrain])
  | None => (mkHubSt false false (Some true) stopErr false, [HWorkersDrain; HBackendStop])
  end.

Inductive hub_step : HubSt -> list HubCall -> HubSt -> Prop :=
| hs_start h create c o r h' calls err :
    hubStart create c o r h = (h', calls, err) -> hub_step h calls h'
| hs_shutdown h : hub_step h [] (hubRequestShutdown h)
| hs_finish h we ae se h' calls :
    h_finishing h = true -> hubFinishShutdown we ae se h = (h', calls) -> hub_step h calls h'.

(** A run of the hub: the calls it made, in order, and its state. *)
Inductive hub_run : list HubCall -> HubSt -> Prop :=
| hr_init : hub_run [] NewTaskHubWorker
| hr_step l h calls h' : hub_run l h -> hub_step h calls h' -> hub_run (l ++ calls) h'.

(** The life cycle the calls must follow: workers start only after the backend,
    the backend stops only after a drain of started workers. *)
Inductive Phase := Down | Primed | Up | Drained | Broken.

Definition phaseStep (ph : Phase) (c : HubCall) : Phase :=
  match c, ph with
  | HCreateTaskHub, (Down | Primed) => Down
  | HOpenTaskHub, (Down | Primed) => Down
  | HBackendStart, Down => Primed
  | HWorkersStart, Primed => Up
  | HWorkersDrain, Up => Drained
  | HBackendStop, Drained => Down
  | _, _ => Broken
  end.

Definition phaseOf (l : list HubCall) : Phase := foldl phaseStep Down l.

(** The phase a hub state stands for; a failed drain leaves it drained for ever. *)
Record hub_inv (l : list HubCall) (h : HubSt) : Prop := {
  hi_down : h_started h = false -> h_stopping h = false /\ h_finishing h = false /\
    (phaseOf l = Down \/ phaseOf l = Primed);
  hi_up : h_started h = true -> h_stopping h = false -> phaseOf l = Up /\ h_finishing h = false;
  hi_stopping : h_stopping h = true -> h_started h = true /\
    (if h_finishing h then phaseOf l = Up /\ h_done h = Some false
     else phaseOf l = Drained /\ h_done h = Some true)
}.

Lemma phaseOf_app l calls : phaseOf (l ++ calls) = foldl phaseStep (phaseOf l) calls.
Proof. apply foldl_app. Qed.

Lemma hub_step_inv l h calls h' : hub_inv l h -> hub_step h calls h' -> hub_inv (l ++ calls) h'.
Proof.
  intros [I1 I2 I3] Hst.
  destruct Hst as [h create c o r h' calls err Hs | h | h we ae se h' calls Hf Hs].
  - unfold hubStart in Hs. destruct (h_stopping h) eqn:Hp.
    { simplify_eq. rewrite app_nil_r. split; rewrite ?Hp; auto. }
    destruct (h_started h) eqn:Hr.
    { simplify_eq. rewrite app_nil_r. split; rewrite ?Hp, ?Hr; auto. }
    destruct (I1 eq_refl) as (_ & F & P).
    repeat case_match; simplify_eq.
    all: split; cbn; rewrite ?Hr, ?Hp, ?phaseOf_app; try done.
    all: intros; split_and!; try done; destruct P as [P|P]; rewrite ?P; cbn; auto.
  - rewrite app_nil_r. unfold hubRequestShutdown.
    destruct (h_started h) eqn:Hr; cbn [negb]; [| by split; rewrite ?Hr; auto].
    destruct (h_stopping h) eqn:Hp; [by split; rewrite ?Hr, ?Hp; auto |].
    destruct (I2 eq_refl eq_refl). split; cbn; auto; done.
  - assert (h_stopping h = true) as Hp.
    { destruct (h_started h) eqn:Hr, (h_stopping h) eqn:Hp; try done.
      - destruct (I2 eq_refl eq_refl). congruence.
      - destruct (I1 eq_refl) as (_ & ? & _). congruence. }
    destruct (I3 Hp) as [Hr HF]. rewrite Hf in HF. destruct HF as [HU HD].
    unfold hubFinishShutdown in Hs. repeat case_match; simplify_eq.
    all: split; cbn; rewrite ?Hr, ?Hp, ?phaseOf_app, ?HU; try done; auto.
Qed.

(** The task hub keeps the order of the life cycle in every interleaving of
    starts, shutdowns and forced shutdowns: whatever the backend and the workers
    answer, the workers are started only on a started backend, the backend is
    stopped only once both workers have drained, nothing is started twice, and a
    hub that reports itself stopped has been stopped (or never came up). *)
Theorem hub_life_cycle l h :
  hub_run l h -> phaseOf l <> Broken /\
  (h_started h = false -> phaseOf l = Down \/ phaseOf l = Primed) /\
  (h_started h = true -> h_stopping h = false -> phaseOf l = Up).
Proof.
  intros Hr. assert (hub_inv l h) as [I1 I2 I3].
  { induction Hr as [| l h calls h' Hr IH Hst]; [by split; cbn; auto | by eapply hub_step_inv]. }
  split_and!.
  - destruct (h_started h) eqn:Hs.
    + destruct (h_stopping h) eqn:Hp; [destruct (I3 eq_refl) as [_ HF]; case_match|
        destruct (I2 eq_refl eq_refl)]; destruct_and?; congruence.
    + destruct (I1 eq_refl) as (_ & _ & [P|P]); congruence.
  - intros Hs. by destruct (I1 Hs) as (_ & _ & ?).
  - intros Hs Hp. by destruct (I2 Hs Hp).
Qed.

Lemma hub_life_cycle_witness :
  phaseOf [HCreateTaskHub; HBackendStart; HWorkersStart; HWorkersDrain; HBackendStop] <> Broken.
Proof.
  apply (hub_life_cycle _ (mkHubSt false false (Some true) None false)).
  apply (hr_step [HCreateTaskHub; HBackendStart; HWorkersStart] (mkHubSt true true (Some false) None true)
    [HWorkersDrain; HBackendStop]); [| by apply (hs_finish _ None None None)].
  apply (hr_step [HCreateTaskHub; HBackendStart; HWorkersStart] (mkHubSt true false None None false)
    []); [| apply (hs_shutdown (mkHubSt true false None None false))].
  apply (hr_step [] NewTaskHubWorker); [constructor |].
  by apply (hs_start _ true (Some ErrTaskHubExists) None None _ _ None).
Defined.
