(* ===== verification/Sqlite.v ===== *)
(** * The SQLite backend: tables and statements (backend/sqlite)

    The five tables of schema.sql as lists of rows in rowid order, and each
    method of [sqliteBackend] as the statements it runs.  A transaction is a
    computation over the tables: [transact] keeps the old tables unless the body
    reaches its commit.  SQL statements are total except for constraint
    violations; losing the connection or the disk is not modelled.  The clock
    ([now], nanoseconds) and the fresh lease token are arguments.  Columns that
    no statement reads (NewEvents.Timestamp, NewTasks.Timestamp,
    Instances.ParentInstanceID) are left out. *)

From stdpp Require Import base list option strings gmap.
From Stdlib Require Import ZArith Lia.
From S2P Require Import Prelude Errors Protos Dedup RuntimeState Propagation Helpers Backend.

(** ** Tables (schema.sql) *)

Record InstanceRow := mkInstanceRow {
  ir_InstanceID : string;
  ir_ExecutionID : string;
  ir_Name : string;
  ir_Version : option string;
  ir_RuntimeStatus : string;
  ir_CreatedTime : Z;
  ir_LastUpdatedTime : Z;
  ir_CompletedTime : option Z;
  ir_LockedBy : option string;
  ir_LockExpiration : option Z;
  ir_Input : option string;
  ir_Output : option string;
  ir_CustomStatus : option string;
  ir_FailureDetails : option string
}.

Record HistoryRow := mkHistoryRow {
  hr_InstanceID : string;
  hr_SequenceNumber : Z;
  hr_EventPayload : string
}.

Record NewEventRow := mkNewEventRow {
  ne_SequenceNumber : Z;
  ne_InstanceID : string;
  ne_ExecutionID : option string;
  ne_VisibleTime : option Z;
  ne_DequeueCount : Z;
  ne_LockedBy : option string;
  ne_EventPayload : string
}.

Record NewTaskRow := mkNewTaskRow {
  nt_SequenceNumber : Z;
  nt_InstanceID : string;
  nt_DequeueCount : Z;
  nt_LockedBy : option string;
  nt_LockExpiration : option Z;
  nt_EventPayload : string
}.

Record DB := mkDB {
  Instances : list InstanceRow;
  History : list HistoryRow;
  NewEventsT : list NewEventRow;
  ExternalEventDeliveries : list (string * string * string);
  NewTasks : list NewTaskRow
}.

(** The freshly created schema. *)
Definition emptyDB : DB := mkDB [] [] [] [] [].

Definition set_Instances (v : list InstanceRow) (d : DB) : DB :=
  mkDB v (History d) (NewEventsT d) (ExternalEventDeliveries d) (NewTasks d).
Definition set_History (v : list HistoryRow) (d : DB) : DB :=
  mkDB (Instances d) v (NewEventsT d) (ExternalEventDeliveries d) (NewTasks d).
Definition set_NewEventsT (v : list NewEventRow) (d : DB) : DB :=
  mkDB (Instances d) (History d) v (ExternalEventDeliveries d) (NewTasks d).
Definition set_Deliveries (v : list (string * string * string)) (d : DB) : DB :=
  mkDB (Instances d) (History d) (NewEventsT d) v (NewTasks d).
Definition set_NewTasks (v : list NewTaskRow) (d : DB) : DB :=
  mkDB (Instances d) (History d) (NewEventsT d) (ExternalEventDeliveries d) v.

(** ** SQL primitives *)

(** [UPDATE ... WHERE p]: the rows and the number of rows affected. *)
Definition updateWhere {R} (p : R -> bool) (f : R -> R) (rows : list R) : list R * nat :=
  (map (fun r => if p r then f r else r) rows, length (List.filter p rows)).

(** [DELETE ... WHERE p]. *)
Definition deleteWhere {R} (p : R -> bool) (rows : list R) : list R * nat :=
  (List.filter (fun r => negb (p r)) rows, length (List.filter p rows)).

(** The rowid SQLite assigns: one more than the largest in the table. *)
Definition nextRowid {R} (key : R -> Z) (rows : list R) : Z :=
  1 + foldr Z.max 0 (map key rows).

(** [ORDER BY key ASC]: a stable insertion sort. *)
Fixpoint insertBy {R} (key : R -> Z) (r : R) (l : list R) : list R :=
  match l with
  | [] => [r]
  | x :: rest => if key r <=? key x then r :: l else x :: insertBy key r rest
  end.

Definition orderBy {R} (key : R -> Z) (l : list R) : list R := foldr (insertBy key) [] l.

(** SQL comparison with a NULL operand is not true. *)
Definition sqlEq (col : option string) (v : string) : bool :=
  match col with Some x => String.eqb x v | None => false end.

(** [col IS NULL OR col < v] and [col IS NULL OR col <= v]. *)
Definition nullOrLt (col : option Z) (v : Z) : bool :=
  match col with Some x => x <? v | None => true end.
Definition nullOrLe (col : option Z) (v : Z) : bool :=
  match col with Some x => x <=? v | None => true end.

(** ** The backend object *)

Record SqliteOptions := mkSqliteOptions {
  WorkflowLockTimeout : Z;
  ActivityLockTimeout : Z
}.

(** [NewSqliteOptions]. *)
Definition NewSqliteOptions : SqliteOptions := mkSqliteOptions (2 * Minute) (2 * Minute).

(** The open database, or nil before [CreateTaskHub] and after [Stop]. *)
Definition Sqlite : Type := option DB.

Definition D (X : Type) : Type := M DB error X.

(** [ensureDB], [BeginTx], the body, and [Commit] or the deferred [Rollback]. *)
Definition transact {X} (body : D X) (be : Sqlite) : Sqlite * outcome error X :=
  match be with
  | None => (be, Err ErrNotInitialized)
  | Some db =>
      match body db with
      | (db', Ok x) => (Some db', Ok x)
      | (_, Err err) => (be, Err err)
      | (_, Panic msg) => (be, Panic msg)
      end
  end.

(** A read-only method. *)
Definition query {X} (f : DB -> X + error) (be : Sqlite) : X + error :=
  match be with
  | None => inr ErrNotInitialized
  | Some db => f db
  end.

(** Failure details are stored as protobuf bytes of their own. *)
Class FailureCodec := {
  MarshalFailure : TaskFailureDetails -> string + error;
  UnmarshalFailure : string -> TaskFailureDetails + error
}.

Section Backend.
Context `{ProtoCodec} `{FailureCodec}.

(** [backend.MarshalHistoryEvent] and [backend.UnmarshalHistoryEvent]. *)
Definition MarshalHistoryEvent (e : HistoryEvent) : string + error :=
  match Marshal e with
  | inr err => inr (errorWrap "failed to marshal history event" err)
  | inl b => inl b
  end.

Definition UnmarshalHistoryEvent (b : string) : HistoryEvent + error :=
  match Unmarshal b with
  | inr err => inr (errorWrap "unreadable history event payload" err)
  | inl e => inl e
  end.

Definition liftD {X} (r : X + error) : D X :=
  match r with inl x => mret x | inr err => throw err end.

(** ** Reading a history *)

(** [SELECT EventPayload FROM History WHERE InstanceID = ? ORDER BY SequenceNumber]. *)
Definition historyPayloads (db : DB) (iid : string) : list string :=
  map hr_EventPayload
    (orderBy hr_SequenceNumber (List.filter (fun r => String.eqb (hr_InstanceID r) iid) (History db))).

Definition readHistory (db : DB) (iid : string) : list HistoryEvent + error :=
  tryMap UnmarshalHistoryEvent (historyPayloads db iid).

(** [GetWorkflowRuntimeState]. *)
Definition GetWorkflowRuntimeState (iid : string) (be : Sqlite) : WorkflowRuntimeState + error :=
  query (fun db =>
    match readHistory db iid with
    | inr err => inr err
    | inl existingEvents => inl (NewWorkflowRuntimeState iid None existingEvents)
    end) be.

(** [GetInstanceHistory]. *)
Definition GetInstanceHistory (iid : string) (be : Sqlite) : list HistoryEvent + error :=
  query (fun db => readHistory db iid) be.

(** [ListInstanceIDs]. *)
Definition ListInstanceIDs (be : Sqlite) : list string + error :=
  query (fun db => inl (map ir_InstanceID (Instances db))) be.

Definition findInstance (db : DB) (iid : string) : option InstanceRow :=
  List.find (fun r => String.eqb (ir_InstanceID r) iid) (Instances db).

(** [getStartEvent]: row 1 of the history, if it is a start event. *)
Definition getStartEvent (db : DB) (iid : string) : option ExecutionStartedEvent + error :=
  match historyPayloads db iid !! 1%nat with
  | None => inl None
  | Some payload =>
      match UnmarshalHistoryEvent payload with
      | inr err => inr (errorWrap "failed to unmarshal start event" err)
      | inl e => inl (GetExecutionStarted e)
      end
  end.

(** [getStartedAt]: the timestamp of row 0. *)
Definition getStartedAt (db : DB) (iid : string) : option Z + error :=
  match head (historyPayloads db iid) with
  | None => inl None
  | Some payload =>
      match UnmarshalHistoryEvent payload with
      | inr err => inr (errorWrap "failed to unmarshal first history event" err)
      | inl e => inl (Timestamp e)
      end
  end.

Record WorkflowMetadata := mkWorkflowMetadata {
  md_InstanceId : string;
  md_Name : string;
  md_RuntimeStatus : OrchestrationStatus;
  md_CreatedAt : Z;
  md_LastUpdatedAt : Z;
  md_Input : option string;
  md_Output : option string;
  md_CustomStatus : option string;
  md_FailureDetails : option TaskFailureDetails;
  md_Version : option string;
  md_ParentInstanceId : string;
  md_ParentAppId : option string;
  md_StartedAt : option Z;
  (* never set: see [GetWorkflowMetadata] *)
  md_CompletedAt : option Z
}.

(** The failure details column; no bytes means none. *)
Definition decodeFailure (payload : option string) : option TaskFailureDetails + error :=
  match payload with
  | None => inl None
  | Some b =>
      if String.eqb b "" then inl None
      else match UnmarshalFailure b with
           | inr err => inr (errorWrap "failed to unmarshal failure details" err)
           | inl fd => inl (Some fd)
           end
  end.

(** [GetWorkflowMetadata]. *)
Definition GetWorkflowMetadata (iid : string) (router : option TaskRouter) (be : Sqlite)
    : WorkflowMetadata + error :=
  if negb (String.eqb (GetTargetAppID router) "")
  then inr (errorNew "sqlite backend does not support cross-app workflow metadata reads")
  else query (fun db =>
    match findInstance db iid with
    | None => inr ErrInstanceNotFound
    | Some r =>
        match decodeFailure (ir_FailureDetails r) with
        | inr err => inr err
        | inl failureDetails =>
            match getStartedAt db iid with
            | inr err => inr err
            | inl startedAt =>
                match getStartEvent db iid with
                | inr err => inr err
                | inl startEvent =>
                    let parent := startEvent ≫= es_ParentInstance in
                    let parentWi := parent ≫= pi_WorkflowInstance in
                    let app := GetValue (parent ≫= pi_AppID) in
                    inl (mkWorkflowMetadata iid (ir_Name r)
                      (FromRuntimeStatusString (ir_RuntimeStatus r))
                      (ir_CreatedTime r) (ir_LastUpdatedTime r) (ir_Input r) (ir_Output r)
                      (ir_CustomStatus r) failureDetails (ir_Version r)
                      (match parentWi with Some wi => wi_InstanceId wi | None => "" end)
                      (if String.eqb app "" then None else Some app) startedAt None)
                end
            end
        end
    end) be.

(** ** Statements shared by the methods *)

(** Insert one row into NewEvents; the sequence number is the new rowid. *)
Definition insertNewEvent (iid : string) (generation : option string) (payload : string)
    (visibleTime : option Z) : D unit :=
  modify (fun db => set_NewEventsT (NewEventsT db ++
    [mkNewEventRow (nextRowid ne_SequenceNumber (NewEventsT db)) iid generation visibleTime 0 None
       payload]) db).

Definition insertNewTask (iid : string) (payload : string) : D unit :=
  modify (fun db => set_NewTasks (NewTasks db ++
    [mkNewTaskRow (nextRowid nt_SequenceNumber (NewTasks db)) iid 0 None None payload]) db).

(** [CURRENT_TIMESTAMP] has a resolution of one second. *)
Definition currentTimestamp (now : Z) : Z := now / Second * Second.

(** [insertOrIgnoreInstanceTableInternal]: [false] when the id is taken. *)
Definition insertOrIgnoreInstance (now : Z) (e : HistoryEvent) (startEvent : ExecutionStartedEvent)
    (wi : WorkflowInstance) : D bool := fun db =>
  match findInstance db (wi_InstanceId wi) with
  | Some _ => (db, Ok false)
  | None =>
      (set_Instances (Instances db ++
         [mkInstanceRow (wi_InstanceId wi) (GetValue (wi_ExecutionId wi)) (es_Name startEvent)
            (Some (GetValue (es_Version startEvent))) "PENDING" (AsTime (Timestamp e))
            (currentTimestamp now) None None None (Some (GetValue (es_Input startEvent)))
            None None None]) db, Ok true)
  end.

(** [createWorkflowInstanceInternal]. *)
Definition createWorkflowInstanceInternal (now : Z) (e : option HistoryEvent) : D string :=
  match e with
  | None => throw (errorNew "HistoryEvent must be non-nil")
  | Some e =>
      match Timestamp e with
      | None => throw (errorNew "HistoryEvent must have a non-nil timestamp")
      | Some _ =>
          match GetExecutionStarted e with
          | None => throw (errorNew "HistoryEvent must be an ExecutionStartedEvent")
          | Some startEvent =>
              wi ← deref "nil WorkflowInstance" (es_WorkflowInstance startEvent);
              inserted ← insertOrIgnoreInstance now e startEvent wi;
              if (inserted : bool) then mret (wi_InstanceId wi) else throw ErrDuplicateInstance
          end
      end
  end.

(** When a start event becomes visible. *)
Definition scheduledStart (e : HistoryEvent) : option Z :=
  GetExecutionStarted e ≫= es_ScheduledStartTimestamp.

(** [CreateWorkflowInstance].  Its [ErrIgnoreInstance] case is not reachable:
    [createWorkflowInstanceInternal] never returns that error. *)
Definition CreateWorkflowInstance (now : Z) (e : option HistoryEvent)
    : Sqlite -> Sqlite * outcome error unit :=
  transact (
    instanceID ← createWorkflowInstanceInternal now e;
    ev ← deref "nil event" e;
    eventPayload ← liftD (MarshalHistoryEvent ev);
    insertNewEvent instanceID None eventPayload (scheduledStart ev)).

(** [cleanupWorkflowStateInternal]. *)
Definition isFinalStatus (s : string) : bool :=
  String.eqb s "COMPLETED" || String.eqb s "FAILED" || String.eqb s "TERMINATED".

Definition cleanupWorkflowStateInternal (id : string) (requireCompleted : bool) : D unit := fun db =>
  match findInstance db id with
  | None => (db, Err ErrInstanceNotFound)
  | Some _ =>
      let p r := String.eqb (ir_InstanceID r) id &&
                 (negb requireCompleted || isFinalStatus (ir_RuntimeStatus r)) in
      let '(rows, affected) := deleteWhere p (Instances db) in
      if requireCompleted && (affected =? 0)%nat then (db, Err ErrNotCompleted)
      else
        (mkDB rows
           (deleteWhere (fun r => String.eqb (hr_InstanceID r) id) (History db)).1
           (deleteWhere (fun r => String.eqb (ne_InstanceID r) id) (NewEventsT db)).1
           (deleteWhere (fun r => String.eqb r.1.1 id) (ExternalEventDeliveries db)).1
           (deleteWhere (fun r => String.eqb (nt_InstanceID r) id) (NewTasks db)).1, Ok tt)
  end.

(** [PurgeWorkflowState] and [purgeWorkflowStateLocal]; [force] is not used. *)
Definition PurgeWorkflowState (id : string) (router : option TaskRouter) (recursive force : bool)
    (be : Sqlite) : Sqlite * Z * option error :=
  if negb (String.eqb (GetTargetAppID router) "")
  then (be, 0, Some (errorNew "sqlite backend does not support cross-app purge dispatch"))
  else match transact (cleanupWorkflowStateInternal id true) be with
       | (be, Ok _) => (be, 1, None)
       | (be, Err err) => (be, 0, Some err)
       | (be, Panic _) => (be, 0, None)
       end.

(** ** New events *)

Definition checkNewEvent (e : option HistoryEvent) : HistoryEvent + error :=
  match e with
  | None => inr (errorNew "HistoryEvent must be non-nil")
  | Some e =>
      if IsChildResult e then inr ErrChildExecutionProvenanceRequired
      else match Timestamp e with
           | None => inr (errorNew "HistoryEvent must have a non-nil timestamp")
           | Some _ => inl e
           end
  end.

(** Methods that use the connection without [ensureDB]: a nil one panics. *)
Definition unchecked {X} (body : D X) (be : Sqlite) : Sqlite * outcome error X :=
  match be with
  | None => (be, Panic "nil *sql.DB")
  | Some _ => transact body be
  end.

(** [AddNewWorkflowEvent]. *)
Definition AddNewWorkflowEvent (iid : string) (e : option HistoryEvent) (be : Sqlite)
    : Sqlite * outcome error unit :=
  match checkNewEvent e with
  | inr err => (be, Err err)
  | inl e =>
      match MarshalHistoryEvent e with
      | inr err => (be, Err err)
      | inl payload => unchecked (insertNewEvent iid None payload None) be
      end
  end.

(** [AddNewWorkflowEventWithExternalDelivery]. *)
Definition AddNewWorkflowEventWithExternalDelivery (iid eventName deliveryID : string)
    (e : option HistoryEvent) (be : Sqlite) : Sqlite * outcome error unit :=
  match checkNewEvent e with
  | inr err => (be, Err err)
  | inl e =>
      match MarshalHistoryEvent e with
      | inr err => (be, Err err)
      | inl payload =>
          unchecked (
            db ← get;
            if bool_decide ((iid, eventName, deliveryID) ∈ ExternalEventDeliveries db)
            then mret tt
            else
              modify (fun db => set_Deliveries
                (ExternalEventDeliveries db ++ [(iid, eventName, deliveryID)]) db);;
              insertNewEvent iid None payload None) be
      end
  end.

(** ** Leasing a workflow work item *)

(** [validateChildDestination]: the first start event of the committed history
    must be of the given execution. *)
Fixpoint validateChildLoop (payloads : list string) (executionID : string) : option error :=
  match payloads with
  | [] => None
  | payload :: rest =>
      match UnmarshalHistoryEvent payload with
      | inr err => Some err
      | inl e =>
          match GetExecutionStarted e with
          | Some start =>
              if String.eqb (GetValue (startExecutionId (Some start))) executionID then None
              else Some (errorWrap "parent instance and committed history disagree"
                           ErrChildExecutionProvenanceRequired)
          | None => validateChildLoop rest executionID
          end
      end
  end.

Definition validateChildDestination (instanceID executionID : string) : D unit := fun db =>
  match validateChildLoop (historyPayloads db instanceID) executionID with
  | Some err => (db, Err err)
  | None => (db, Ok tt)
  end.

(** An instance whose lock is free at [now] and that has a visible event. *)
Definition lockable (db : DB) (now : Z) (r : InstanceRow) : bool :=
  nullOrLt (ir_LockExpiration r) now &&
  existsb (fun e => String.eqb (ne_InstanceID e) (ir_InstanceID r) && nullOrLt (ne_VisibleTime e) now)
    (NewEventsT db).

Definition lockInstance (token : string) (expiration : Z) (r : InstanceRow) : InstanceRow :=
  mkInstanceRow (ir_InstanceID r) (ir_ExecutionID r) (ir_Name r) (ir_Version r)
    (ir_RuntimeStatus r) (ir_CreatedTime r) (ir_LastUpdatedTime r) (ir_CompletedTime r)
    (Some token) (Some expiration) (ir_Input r) (ir_Output r) (ir_CustomStatus r)
    (ir_FailureDetails r).

Definition unlockInstance (r : InstanceRow) : InstanceRow :=
  mkInstanceRow (ir_InstanceID r) (ir_ExecutionID r) (ir_Name r) (ir_Version r)
    (ir_RuntimeStatus r) (ir_CreatedTime r) (ir_LastUpdatedTime r) (ir_CompletedTime r)
    None None (ir_Input r) (ir_Output r) (ir_CustomStatus r) (ir_FailureDetails r).

Definition lockEvent (token : string) (e : NewEventRow) : NewEventRow :=
  mkNewEventRow (ne_SequenceNumber e) (ne_InstanceID e) (ne_ExecutionID e) (ne_VisibleTime e)
    (ne_DequeueCount e + 1) (Some token) (ne_EventPayload e).

(** The sequence numbers of the (at most 1000) events a lease takes. *)
Definition leasedEvents (db : DB) (instanceID : string) (now : Z) : list Z :=
  map ne_SequenceNumber (take 1000 (orderBy ne_SequenceNumber
    (List.filter (fun e => String.eqb (ne_InstanceID e) instanceID && nullOrLe (ne_VisibleTime e) now)
       (NewEventsT db)))).

(** The scan over the leased rows: the events to deliver with their sequence
    numbers, the stale child results, whether there was a child result, and the
    largest dequeue count. *)
Fixpoint scanLeased (executionID : string) (rows : list NewEventRow)
    (dequeued : list (Z * HistoryEvent)) (stale : list Z) (hasChild : bool) (maxCount : Z)
    : (list (Z * HistoryEvent) * list Z * bool * Z) + error :=
  match rows with
  | [] => inl (dequeued, stale, hasChild, maxCount)
  | r :: rest =>
      let maxCount := if maxCount <? ne_DequeueCount r then ne_DequeueCount r else maxCount in
      match UnmarshalHistoryEvent (ne_EventPayload r) with
      | inr err => inr err
      | inl e =>
          if IsChildResult e then
            let generation := GetValue (ne_ExecutionID r) in
            if String.eqb generation "" then inr ErrChildExecutionProvenanceRequired
            else if negb (String.eqb generation executionID)
            then scanLeased executionID rest dequeued (stale ++ [ne_SequenceNumber r]) true maxCount
            else scanLeased executionID rest (dequeued ++ [(ne_SequenceNumber r, e)]) stale true maxCount
          else scanLeased executionID rest (dequeued ++ [(ne_SequenceNumber r, e)]) stale hasChild maxCount
      end
  end.

(** The body of [getWorkflowWorkItem]; [None] is the committed "no work" exit. *)
Definition leaseWorkflow (now : Z) (token : string) (timeout : Z) : D (option WorkflowWorkItem) :=
  db ← get;
  match List.find (lockable db now) (Instances db) with
  | None => throw errNoWorkItems
  | Some inst =>
      let instanceID := ir_InstanceID inst in
      let executionID := ir_ExecutionID inst in
      modify (fun db => set_Instances
        (updateWhere (fun r => String.eqb (ir_InstanceID r) instanceID)
           (lockInstance token (now + timeout)) (Instances db)).1 db);;
      let leased := leasedEvents db instanceID now in
      modify (fun db => set_NewEventsT
        (updateWhere (fun e => bool_decide (ne_SequenceNumber e ∈ leased)) (lockEvent token)
           (NewEventsT db)).1 db);;
      db ← get;
      scan ← liftD (scanLeased executionID
               (List.filter (fun e => bool_decide (ne_SequenceNumber e ∈ leased)) (NewEventsT db))
               [] [] false 0);
      let '(dequeued, stale, hasChild, maxCount) := scan in
      (if (hasChild : bool) then validateChildDestination instanceID executionID else mret tt);;
      modify (fun db => set_NewEventsT
        (deleteWhere (fun e => String.eqb (ne_InstanceID e) instanceID &&
           bool_decide (ne_SequenceNumber e ∈ stale) && sqlEq (ne_LockedBy e) token)
           (NewEventsT db)).1 db);;
      match dequeued with
      | [] =>
          modify (fun db => set_Instances
            (updateWhere (fun r => String.eqb (ir_InstanceID r) instanceID &&
               sqlEq (ir_LockedBy r) token) unlockInstance (Instances db)).1 db);;
          mret None
      | _ =>
          mret (Some (mkWorkflowWorkItem instanceID (map snd (orderBy fst dequeued)) token
            (int32_of (maxCount - 1)) None None ∅))
      end
  end.

(** [getWorkflowWorkItem]. *)
Definition getWorkflowWorkItem (opts : SqliteOptions) (now : Z) (token : string) (be : Sqlite)
    : Sqlite * outcome error WorkflowWorkItem :=
  match transact (leaseWorkflow now token (WorkflowLockTimeout opts)) be with
  | (be, Ok (Some wi)) => (be, Ok wi)
  | (be, Ok None) => (be, Err errNoWorkItems)
  | (be, Err err) => (be, Err err)
  | (be, Panic msg) => (be, Panic msg)
  end.

(** [AbandonWorkflowWorkItem]. *)
Definition AbandonWorkflowWorkItem (now : Z) (wi : WorkflowWorkItem)
    : Sqlite -> Sqlite * outcome error unit :=
  transact (
    let delay := GetAbandonDelay wi in
    let visibleTime := if 0 <? delay then Some (now + delay) else None in
    db ← get;
    let '(rows, affected) := updateWhere
      (fun e => String.eqb (ne_InstanceID e) (owi_InstanceID wi) && sqlEq (ne_LockedBy e) (owi_LockedBy wi))
      (fun e => mkNewEventRow (ne_SequenceNumber e) (ne_InstanceID e) (ne_ExecutionID e) visibleTime
                  (ne_DequeueCount e) None (ne_EventPayload e)) (NewEventsT db) in
    if (affected =? 0)%nat then throw ErrWorkItemLockLost
    else
      put (set_NewEventsT rows db);;
      let '(irows, iaffected) := updateWhere
        (fun r => String.eqb (ir_InstanceID r) (owi_InstanceID wi) && sqlEq (ir_LockedBy r) (owi_LockedBy wi))
        unlockInstance (Instances db) in
      if (iaffected =? 0)%nat then throw ErrWorkItemLockLost
      else modify (set_Instances irows)).

(** ** Activity work items *)

Definition lockTask (token : string) (expiration : Z) (t : NewTaskRow) : NewTaskRow :=
  mkNewTaskRow (nt_SequenceNumber t) (nt_InstanceID t) (nt_DequeueCount t + 1) (Some token)
    (Some expiration) (nt_EventPayload t).

(** [getActivityWorkItem]: a single UPDATE, committed before the payload is
    decoded, so an unreadable payload is reported with the task already locked. *)
Definition getActivityWorkItem (opts : SqliteOptions) (now : Z) (token : string) (be : Sqlite)
    : Sqlite * outcome error ActivityWorkItem :=
  match be with
  | None => (be, Err ErrNotInitialized)
  | Some db =>
      match head (orderBy nt_SequenceNumber
                    (List.filter (fun t => nullOrLt (nt_LockExpiration t) now) (NewTasks db))) with
      | None => (be, Err errNoWorkItems)
      | Some t =>
          let db := set_NewTasks
            (updateWhere (fun r => nt_SequenceNumber r =? nt_SequenceNumber t)
               (lockTask token (now + ActivityLockTimeout opts)) (NewTasks db)).1 db in
          (Some db,
           match UnmarshalHistoryEvent (nt_EventPayload t) with
           | inr err => Err err
           | inl e => Ok (mkActivityWorkItem (nt_SequenceNumber t) (nt_InstanceID t) e None token None)
           end)
      end
  end.

(** [CompleteActivityWorkItem]; marshalling a nil result yields no bytes. *)
Definition CompleteActivityWorkItem (wi : ActivityWorkItem) : Sqlite -> Sqlite * outcome error unit :=
  transact (
    bytes ← liftD (match awi_Result wi with Some r => MarshalHistoryEvent r | None => inl "" end);
    insertNewEvent (awi_InstanceID wi) None bytes None;;
    db ← get;
    let '(rows, affected) := deleteWhere
      (fun t => (nt_SequenceNumber t =? awi_SequenceNumber wi) && sqlEq (nt_LockedBy t) (awi_LockedBy wi))
      (NewTasks db) in
    if (affected =? 0)%nat then throw ErrWorkItemLockLost else put (set_NewTasks rows db)).

(** [AbandonActivityWorkItem]. *)
Definition AbandonActivityWorkItem (wi : ActivityWorkItem) : Sqlite -> Sqlite * outcome error unit :=
  transact (
    db ← get;
    let '(rows, affected) := updateWhere
      (fun t => (nt_SequenceNumber t =? awi_SequenceNumber wi) && sqlEq (nt_LockedBy t) (awi_LockedBy wi))
      (fun t => mkNewTaskRow (nt_SequenceNumber t) (nt_InstanceID t) (nt_DequeueCount t) None None
                  (nt_EventPayload t)) (NewTasks db) in
    if (affected =? 0)%nat then throw ErrWorkItemLockLost else put (set_NewTasks rows db)).

(** ** Completing a workflow work item *)

(** The columns a start or completion event among the new events sets. *)
Record InstanceUpdate := mkInstanceUpdate {
  iu_created : option (Z * string * string);           (* CreatedTime, Input, ExecutionID *)
  iu_completed : option (string * option string)       (* Output, FailureDetails *)
}.

Fixpoint scanNewEvents (u : InstanceUpdate) (events : list HistoryEvent) : InstanceUpdate + error :=
  match events with
  | [] => inl u
  | e :: rest =>
      match GetExecutionStarted e with
      | Some es =>
          match iu_created u with
          | Some _ => scanNewEvents u rest
          | None => scanNewEvents (mkInstanceUpdate
              (Some (AsTime (Timestamp e), GetValue (es_Input es), GetValue (startExecutionId (Some es))))
              (iu_completed u)) rest
          end
      | None =>
          match GetExecutionCompleted e with
          | Some ec =>
              match iu_completed u with
              | Some _ => scanNewEvents u rest
              | None =>
                  match ec_FailureDetails ec with
                  | None => scanNewEvents (mkInstanceUpdate (iu_created u)
                              (Some (GetValue (ec_Result ec), None))) rest
                  | Some fd =>
                      match MarshalFailure fd with
                      | inr err => inr (errorWrap "failed to marshal FailureDetails" err)
                      | inl b => scanNewEvents (mkInstanceUpdate (iu_created u)
                                   (Some (GetValue (ec_Result ec), Some b))) rest
                      end
                  end
              end
          | None => scanNewEvents u rest
          end
      end
  end.

Definition applyInstanceUpdate (u : InstanceUpdate) (s : WorkflowRuntimeState) (now : Z)
    (r : InstanceRow) : InstanceRow :=
  let '(created, input, exec) :=
    match iu_created u with
    | Some (t, i, x) => (t, Some i, x)
    | None => (ir_CreatedTime r, ir_Input r, ir_ExecutionID r)
    end in
  let '(completed, output, failure) :=
    match iu_completed u with
    | Some (o, f) => (Some now, Some o, f)
    | None => (ir_CompletedTime r, ir_Output r, ir_FailureDetails r)
    end in
  mkInstanceRow (ir_InstanceID r) exec (ir_Name r) (ir_Version r)
    (ToRuntimeStatusString (RuntimeStatus s)) created now completed (ir_LockedBy r) None input output
    (match CustomStatus s with Some v => Some v | None => ir_CustomStatus r end) failure.

(** The UPDATE of the Instances row, which also checks the lease. *)
Definition updateInstance (now : Z) (wi : WorkflowWorkItem) (s : WorkflowRuntimeState) : D unit :=
  u ← liftD (scanNewEvents (mkInstanceUpdate None None) (NewEvents s));
  db ← get;
  let '(rows, count) := updateWhere
    (fun r => String.eqb (ir_InstanceID r) (owi_InstanceID wi) && sqlEq (ir_LockedBy r) (owi_LockedBy wi))
    (applyInstanceUpdate u s now) (Instances db) in
  if (count =? 0)%nat then throw ErrWorkItemLockLost else put (set_Instances rows db).

(** [discardPreviousExecutionWork]: drop the tasks and the queued results of the
    execution that ends, keeping external events and the current batch. *)
Fixpoint obsoleteEvents (rows : list NewEventRow) : list Z + error :=
  match rows with
  | [] => inl []
  | r :: rest =>
      match UnmarshalHistoryEvent (ne_EventPayload r) with
      | inr err => inr err
      | inl e =>
          match obsoleteEvents rest with
          | inr err => inr err
          | inl l => inl (match Of e with Some _ => ne_SequenceNumber r :: l | None => l end)
          end
      end
  end.

Definition discardPreviousExecutionWork (wi : WorkflowWorkItem) : D unit :=
  modify (fun db => set_NewTasks
    (deleteWhere (fun t => String.eqb (nt_InstanceID t) (owi_InstanceID wi)) (NewTasks db)).1 db);;
  db ← get;
  obsolete ← liftD (obsoleteEvents (List.filter
    (fun e => String.eqb (ne_InstanceID e) (owi_InstanceID wi) &&
       match ne_LockedBy e with None => true | Some t => negb (String.eqb t (owi_LockedBy wi)) end)
    (NewEventsT db)));
  modify (fun db => set_NewEventsT
    (deleteWhere (fun e => bool_decide (ne_SequenceNumber e ∈ obsolete)) (NewEventsT db)).1 db).

(** On continue-as-new the committed history goes as well. *)
Definition retireGeneration (wi : WorkflowWorkItem) (s : WorkflowRuntimeState) : D unit :=
  if ContinuedAsNew s then
    discardPreviousExecutionWork wi;;
    modify (fun db => set_History
      (deleteWhere (fun r => String.eqb (hr_InstanceID r) (owi_InstanceID wi)) (History db)).1 db)
  else mret tt.

(** Number the payloads from the length of the old log. *)
Fixpoint historyRows (iid : string) (seq : Z) (payloads : list string) : list HistoryRow :=
  match payloads with
  | [] => []
  | p :: rest => mkHistoryRow iid seq p :: historyRows iid (seq + 1) rest
  end.

Definition clashes (rows : list HistoryRow) (r : HistoryRow) : bool :=
  existsb (fun x => String.eqb (hr_InstanceID x) (hr_InstanceID r) &&
                    (hr_SequenceNumber x =? hr_SequenceNumber r)) rows.

(** The primary key of History refuses a sequence number that is taken. *)
Definition saveHistory (wi : WorkflowWorkItem) (s : WorkflowRuntimeState) : D unit :=
  payloads ← liftD (tryMap MarshalHistoryEvent (NewEvents s));
  let rows := historyRows (owi_InstanceID wi) (Z.of_nat (length (OldEvents s))) payloads in
  db ← get;
  if existsb (clashes (History db)) rows
  then throw (errorNew "failed to insert into the History table")
  else put (set_History (History db ++ rows) db).

Fixpoint insertTasks (iid : string) (payloads : list string) : D unit :=
  match payloads with
  | [] => mret tt
  | p :: rest => insertNewTask iid p;; insertTasks iid rest
  end.

Definition saveTasks (wi : WorkflowWorkItem) (s : WorkflowRuntimeState) : D unit :=
  payloads ← liftD (tryMap MarshalHistoryEvent (PendingTasks s));
  insertTasks (owi_InstanceID wi) payloads.

(** Child results: queued for the parent only if the parent is still the
    execution that created this child. *)
Fixpoint saveChildResults (s : WorkflowRuntimeState) (msgs : list WorkflowRuntimeStateMessage)
    : D unit :=
  match msgs with
  | [] => mret tt
  | msg :: rest =>
      if negb (IsChildResult (msg_HistoryEvent msg)) then saveChildResults s rest
      else
        generation ← liftD (ChildResultExecutionID s (msg_TargetInstanceId msg));
        payload ← liftD (MarshalHistoryEvent (msg_HistoryEvent msg));
        db ← get;
        match findInstance db (msg_TargetInstanceId msg) with
        | None => saveChildResults s rest
        | Some target =>
            validateChildDestination (msg_TargetInstanceId msg) (ir_ExecutionID target);;
            (if String.eqb (ir_ExecutionID target) generation
             then insertNewEvent (msg_TargetInstanceId msg) (Some (ir_ExecutionID target)) payload None
             else mret tt);;
            saveChildResults s rest
        end
  end.

(** Create the instance a start message is for.  An existing completed instance
    is replaced; a collision with an unfinished one fails a child's parent and is
    only logged for a detached start. *)
Definition createTarget (now : Z) (e : HistoryEvent) (es : ExecutionStartedEvent) : D unit := fun db =>
  match createWorkflowInstanceInternal now (Some e) db with
  | (db, Ok _) => (db, Ok tt)
  | (db, Panic msg) => (db, Panic msg)
  | (db, Err err) =>
      if bool_decide (err = ErrDuplicateEvent) || errorsIs err ErrDuplicateInstance then
        match es_WorkflowInstance es with
        | None => (db, Panic "nil WorkflowInstance")
        | Some wi =>
            match cleanupWorkflowStateInternal (wi_InstanceId wi) true db with
            | (db, Panic msg) => (db, Panic msg)
            | (db, Err _) =>
                match es_ParentInstance es with
                | Some _ => (db, Err (errorWrap "child instance collision" err))
                | None => (db, Ok tt)
                end
            | (db, Ok _) =>
                match createWorkflowInstanceInternal now (Some e) db with
                | (db, Ok _) => (db, Ok tt)
                | (db, Panic msg) => (db, Panic msg)
                | (db, Err retryErr) =>
                    match es_ParentInstance es with
                    | Some _ => (db, Err retryErr)
                    | None => (db, Ok tt)
                    end
                end
            end
        end
      else (db, Err err)
  end.

(** The rows to insert for the other messages, creating instances on the way. *)
Fixpoint prepareMessages (now : Z) (msgs : list WorkflowRuntimeStateMessage)
    : D (list (string * string * option Z)) :=
  match msgs with
  | [] => mret []
  | msg :: rest =>
      if IsChildResult (msg_HistoryEvent msg) then prepareMessages now rest
      else
        (match GetExecutionStarted (msg_HistoryEvent msg) with
         | Some es => createTarget now (msg_HistoryEvent msg) es
         | None => mret tt
         end);;
        payload ← liftD (MarshalHistoryEvent (msg_HistoryEvent msg));
        rows ← prepareMessages now rest;
        mret ((msg_TargetInstanceId msg, payload, scheduledStart (msg_HistoryEvent msg)) :: rows)
  end.

Fixpoint prepareTimers (iid : string) (timers : list HistoryEvent)
    : list (string * string * option Z) + error :=
  match timers with
  | [] => inl []
  | e :: rest =>
      match MarshalHistoryEvent e with
      | inr err => inr err
      | inl payload =>
          match prepareTimers iid rest with
          | inr err => inr err
          | inl rows => inl ((iid, payload, Some (AsTime (GetTimerFired e ≫= tfd_FireAt))) :: rows)
          end
      end
  end.

Fixpoint insertEvents (rows : list (string * string * option Z)) : D unit :=
  match rows with
  | [] => mret tt
  | (iid, payload, visible) :: rest => insertNewEvent iid None payload visible;; insertEvents rest
  end.

Definition saveEvents (now : Z) (wi : WorkflowWorkItem) (s : WorkflowRuntimeState) : D unit :=
  timers ← liftD (prepareTimers (owi_InstanceID wi) (PendingTimers s));
  messages ← prepareMessages now (PendingMessages s);
  insertEvents (timers ++ messages).

(** Acknowledge the events of the lease. *)
Definition deleteInbound (wi : WorkflowWorkItem) : D unit :=
  db ← get;
  let '(rows, affected) := deleteWhere
    (fun e => String.eqb (ne_InstanceID e) (owi_InstanceID wi) && sqlEq (ne_LockedBy e) (owi_LockedBy wi))
    (NewEventsT db) in
  if (affected =? 0)%nat then throw ErrWorkItemLockLost else put (set_NewEventsT rows db).

(** [CompleteWorkflowWorkItem]. *)
Definition CompleteWorkflowWorkItem (now : Z) (wi : WorkflowWorkItem)
    : Sqlite -> Sqlite * outcome error unit :=
  transact (
    s ← deref "nil State" (owi_State wi);
    updateInstance now wi s;;
    retireGeneration wi s;;
    saveHistory wi s;;
    saveTasks wi s;;
    saveChildResults s (PendingMessages s);;
    saveEvents now wi s;;
    deleteInbound wi).

End Backend.
