(* ===== verification/SqliteCorrect.v ===== *)
(** * The SQLite backend: correctness

    What the storage promises to the workers: leases exclude each other and
    fence stale holders, a completed turn is committed exactly once and reloads
    as it was, external deliveries are idempotent, child results reach only the
    execution that created the child, and a purge removes one finished instance
    and nothing else. *)

From stdpp Require Import base list option strings gmap sets sorting.
From Stdlib Require Import ZArith Lia.
From S2P Require Import Prelude Errors Protos Dedup RuntimeState Propagation Helpers Backend Sqlite.

(** ** Lemmas on the SQL primitives *)

Lemma updateWhere_rows {R} (p : R -> bool) f rows r :
  r ∈ (updateWhere p f rows).1 <->
  exists x, x ∈ rows /\ r = (if p x then f x else x).
Proof.
  unfold updateWhere. cbn [fst]. rewrite list_elem_of_fmap. naive_solver.
Qed.

Lemma deleteWhere_rows {R} (p : R -> bool) rows r :
  r ∈ (deleteWhere p rows).1 <-> r ∈ rows /\ p r = false.
Proof.
  unfold deleteWhere. cbn [fst]. rewrite !list_elem_of_In, filter_In, negb_true_iff. done.
Qed.

Lemma filter_none {R} (p : R -> bool) rows :
  length (List.filter p rows) = 0%nat <-> forall r, r ∈ rows -> p r = false.
Proof.
  induction rows as [|x rows IH]; cbn; [split; [intros _ r Hr; by apply elem_of_nil in Hr | done] |].
  destruct (p x) eqn:E; cbn.
  - split; [done |]. intros H. rewrite (H x) in E by (by left). done.
  - rewrite IH. split; intros H r; [intros [->|Hr]%elem_of_cons; auto | intros Hr; apply H; by right].
Qed.

Lemma find_Some_elem {R} (p : R -> bool) rows r : List.find p rows = Some r -> r ∈ rows /\ p r = true.
Proof. intros [H1 H2]%List.find_some. by rewrite list_elem_of_In. Qed.

Lemma find_None_all {R} (p : R -> bool) rows :
  List.find p rows = None <-> forall r, r ∈ rows -> p r = false.
Proof.
  split.
  - intros H r Hr. rewrite list_elem_of_In in Hr. by eapply List.find_none.
  - intros H. destruct (List.find p rows) as [r|] eqn:E; [| done].
    apply find_Some_elem in E as [H1 H2]. rewrite H in H2 by done. done.
Qed.

Lemma findInstance_Some db id r :
  findInstance db id = Some r -> r ∈ Instances db /\ ir_InstanceID r = id.
Proof. intros [H1 H2%String.eqb_eq]%find_Some_elem. done. Qed.

Lemma sqlEq_true c v : sqlEq c v = true <-> c = Some v.
Proof.
  destruct c as [x|]; cbn; [| done]. rewrite String.eqb_eq. split; congruence.
Qed.

(** *** Sorting *)

Lemma insertBy_perm {R} (key : R -> Z) r l : insertBy key r l ≡ₚ r :: l.
Proof.
  induction l as [|x l IH]; cbn; [done |]. destruct (key r <=? key x); [done |].
  rewrite IH. apply Permutation_swap.
Qed.

Lemma orderBy_perm {R} (key : R -> Z) l : orderBy key l ≡ₚ l.
Proof. induction l as [|x l IH]; cbn; [done |]. by rewrite insertBy_perm, IH. Qed.

(** A list in order is left as it is. *)
Lemma orderBy_sorted {R} (key : R -> Z) l :
  StronglySorted (fun a b => key a ≤ key b) l -> orderBy key l = l.
Proof.
  induction 1 as [|x l Hl IH HF]; [done |].
  change (orderBy key (x :: l)) with (insertBy key x (orderBy key l)). rewrite IH.
  destruct l as [|y l]; cbn; [done |]. apply Forall_cons in HF as [HF _].
  by destruct (Z.leb_spec (key x) (key y)); [| lia].
Qed.

Lemma insertBy_sorted {R} (key : R -> Z) r l :
  StronglySorted (fun a b => key a ≤ key b) l ->
  StronglySorted (fun a b => key a ≤ key b) (insertBy key r l).
Proof.
  induction 1 as [|x l Hl IH HF]; cbn; [repeat constructor |].
  destruct (Z.leb_spec (key r) (key x)).
  - constructor; [by constructor |]. constructor; [done |].
    eapply Forall_impl; [exact HF |]. cbn. lia.
  - constructor; [done |]. rewrite insertBy_perm. constructor; [lia | done].
Qed.

Lemma orderBy_StronglySorted {R} (key : R -> Z) l :
  StronglySorted (fun a b => key a ≤ key b) (orderBy key l).
Proof. induction l as [|x l IH]; cbn; [constructor | by apply insertBy_sorted]. Qed.

Lemma sorted_keys {R} (key : R -> Z) l :
  StronglySorted (fun a b => key a ≤ key b) l -> StronglySorted Z.le (map key l).
Proof. induction 1 as [|x l Hl IH HF]; cbn; constructor; [done |]. by apply Forall_map. Qed.

(** ** Transactions *)

Lemma transact_Ok {X} (body : D X) be be' x :
  transact body be = (be', Ok x) ->
  exists db db', be = Some db /\ be' = Some db' /\ body db = (db', Ok x).
Proof.
  unfold transact. destruct be as [db|]; [| done].
  destruct (body db) as [db' [y | e | q]] eqn:E; intros [= <- <-]. eauto.
Qed.

(** Whatever does not commit changes nothing. *)
Lemma transact_rollback {X} (body : D X) be :
  is_Ok (transact body be).2 = false -> (transact body be).1 = be.
Proof.
  unfold transact. destruct be as [db|]; [| done]. by destruct (body db) as [db' [y | e | q]].
Qed.

(** A computation keeps a property of the tables, however it ends. *)
Definition keepsD {X} (P : DB -> Prop) (m : D X) : Prop := forall db, P db -> P (m db).1.

Section KeepsD.
Context (P : DB -> Prop).

Lemma keepsD_bind {X Y} (m : D X) (k : X -> D Y) :
  keepsD P m -> (forall x, keepsD P (k x)) -> keepsD P (mbind k m).
Proof.
  intros Hm Hk db Hdb. unfold mbind, M_bind. specialize (Hm db Hdb).
  destruct (m db) as [db1 [x | e | q]]; [by apply Hk | done | done].
Qed.

Lemma keepsD_same {X} (m : D X) : (forall db, (m db).1 = db) -> keepsD P m.
Proof. intros H db Hdb. by rewrite H. Qed.

Lemma keepsD_liftD {X} (r : X + error) : keepsD P (liftD r).
Proof. apply keepsD_same. by destruct r. Qed.

Lemma keepsD_ret {X} (x : X) : keepsD P (mret x).
Proof. by apply keepsD_same. Qed.

Lemma keepsD_Ok {X} (m : D X) db db' x : keepsD P m -> P db -> m db = (db', Ok x) -> P db'.
Proof. intros Hm Hdb E. specialize (Hm db Hdb). by rewrite E in Hm. Qed.
End KeepsD.

Lemma liftD_Ok {X} (r : X + error) db db' x : liftD r db = (db', Ok x) -> db' = db /\ r = inl x.
Proof. destruct r; intros [= -> ->]; auto. Qed.

(** ** Leases *)

Section Leases.
Context `{HC : ProtoCodec} `{HF : FailureCodec}.
Variable opts : SqliteOptions.

(** What a successful lease did. *)
Lemma getWorkflowWorkItem_Ok now token be be' wi :
  getWorkflowWorkItem opts now token be = (be', Ok wi) ->
  exists db db' inst,
    be = Some db /\ be' = Some db' /\ inst ∈ Instances db /\ lockable db now inst = true /\
    owi_InstanceID wi = ir_InstanceID inst /\ owi_LockedBy wi = token /\
    Instances db' = (updateWhere (fun r => String.eqb (ir_InstanceID r) (ir_InstanceID inst))
      (lockInstance token (now + WorkflowLockTimeout opts)) (Instances db)).1 /\
    History db' = History db /\
    exists dequeued stale hasChild maxCount,
      scanLeased (ir_ExecutionID inst)
        (List.filter (fun e => bool_decide (ne_SequenceNumber e ∈ leasedEvents db (ir_InstanceID inst) now))
           (updateWhere (fun e => bool_decide (ne_SequenceNumber e ∈ leasedEvents db (ir_InstanceID inst) now))
              (lockEvent token) (NewEventsT db)).1) [] [] false 0
        = inl (dequeued, stale, hasChild, maxCount) /\
      owi_NewEvents wi = map snd (orderBy fst dequeued) /\ owi_State wi = None.
Proof.
  intros H. unfold getWorkflowWorkItem in H.
  destruct (transact _ be) as [be1 [[w|] | e | q]] eqn:E; simplify_eq.
  apply transact_Ok in E as (db & db' & -> & -> & E). unfold leaseWorkflow in E.
  apply bind_Ok in E as (? & ? & E0 & E). injection E0 as <- <-.
  destruct (List.find (lockable db now) (Instances db)) as [inst|] eqn:Ei; [| done].
  apply find_Some_elem in Ei as [Hin Hl].
  apply bind_Ok in E as (db1 & [] & E1 & E). injection E1 as <-.
  apply bind_Ok in E as (db2 & [] & E1 & E). injection E1 as <-.
  apply bind_Ok in E as (? & ? & E0 & E). injection E0 as <- <-.
  apply bind_Ok in E as (? & [[[dq stale] hasChild] maxCount] & E0 & E).
  apply liftD_Ok in E0 as [-> Hscan].
  apply bind_Ok in E as (db3 & [] & E1 & E).
  assert (db3 = set_NewEventsT (updateWhere
    (fun e => bool_decide (ne_SequenceNumber e ∈ leasedEvents db (ir_InstanceID inst) now))
    (lockEvent token) (NewEventsT db)).1 (set_Instances
      (updateWhere (fun r => String.eqb (ir_InstanceID r) (ir_InstanceID inst))
      (lockInstance token (now + WorkflowLockTimeout opts)) (Instances db)).1 db)) as ->.
  { revert E1. destruct hasChild; [| by intros [= <-]].
    unfold validateChildDestination. intros E1; case_match; by simplify_eq. }
  apply bind_Ok in E as (db4 & [] & E2 & E). injection E2 as <-.
  destruct dq as [|d0 dq]; [by apply bind_Ok in E as (? & [] & _ & E) |].
  injection E as <- <-.
  exists db. eexists. exists inst. split_and!; try reflexivity; try done.
  exists (d0 :: dq), stale, hasChild, maxCount. done.
Qed.

(** After a lease every row of the instance carries it. *)
Lemma lease_locks now token be be' wi db' r :
  getWorkflowWorkItem opts now token be = (be', Ok wi) -> be' = Some db' ->
  r ∈ Instances db' -> ir_InstanceID r = owi_InstanceID wi ->
  ir_LockedBy r = Some token /\ ir_LockExpiration r = Some (now + WorkflowLockTimeout opts).
Proof.
  intros H -> Hr Hid. apply getWorkflowWorkItem_Ok in H
    as (db & db2 & inst & _ & [= <-] & _ & _ & Hw & _ & HI & _).
  rewrite HI in Hr. apply updateWhere_rows in Hr as (x & Hx & ->).
  destruct (String.eqb (ir_InstanceID x) (ir_InstanceID inst)) eqn:E; [done |].
  apply String.eqb_neq in E. congruence.
Qed.

(** A lease is only taken on an instance whose lock is free. *)
Lemma lease_free now token be be' wi db :
  getWorkflowWorkItem opts now token be = (be', Ok wi) -> be = Some db ->
  exists r, r ∈ Instances db /\ ir_InstanceID r = owi_InstanceID wi /\
    nullOrLt (ir_LockExpiration r) now = true.
Proof.
  intros H ->. apply getWorkflowWorkItem_Ok in H
    as (db2 & db' & inst & [= <-] & _ & Hin & Hl & Hw & _).
  exists inst. unfold lockable in Hl. apply andb_true_iff in Hl as [Hl _]. done.
Qed.

(** A lease is recorded on the instance and comes without a state. *)
Lemma lease_granted now token db db' wi :
  getWorkflowWorkItem opts now token (Some db) = (Some db', Ok wi) ->
  owi_LockedBy wi = token /\ owi_State wi = None /\
  exists r, r ∈ Instances db' /\ ir_InstanceID r = owi_InstanceID wi /\ ir_LockedBy r = Some token.
Proof.
  intros H. pose proof H as (db2 & db3 & inst & [= <-] & [= <-] & Hin & _ & Hid & Ht & HI & _ & ? & ? & ? & ? & _ & _ & Hs)%getWorkflowWorkItem_Ok.
  split_and!; [done | done |]. exists (lockInstance token (now + WorkflowLockTimeout opts) inst).
  split_and!; [| done | done]. rewrite HI. apply updateWhere_rows. exists inst.
  split; [done |]. by rewrite String.eqb_refl.
Qed.

(** Leases exclude each other: while a lease on an instance has not expired,
    no other worker is given that instance. *)
Theorem lease_mutual_exclusion now token be be' wi now' token' be'' wi' :
  getWorkflowWorkItem opts now token be = (be', Ok wi) ->
  now' ≤ now + WorkflowLockTimeout opts ->
  getWorkflowWorkItem opts now' token' be' = (be'', Ok wi') ->
  owi_InstanceID wi' <> owi_InstanceID wi.
Proof.
  intros H1 Ht H2 Heq.
  pose proof H1 as (_ & db' & _ & _ & Hbe & _)%getWorkflowWorkItem_Ok.
  destruct (lease_free _ _ _ _ _ db' H2 Hbe) as (r & Hr & Hid & Hl).
  destruct (lease_locks _ _ _ _ _ db' r H1 Hbe Hr) as [_ He]; [congruence |].
  rewrite He in Hl. cbn in Hl. apply Z.ltb_lt in Hl. lia.
Qed.

(** A stale holder is fenced off: once an instance was leased to another
    worker, completing or abandoning it with the old token fails and leaves the
    database exactly as it was. *)
Theorem stale_lease_is_fenced now token be be' wi stale now' :
  getWorkflowWorkItem opts now token be = (be', Ok wi) ->
  owi_InstanceID stale = owi_InstanceID wi -> owi_LockedBy stale <> token ->
  (CompleteWorkflowWorkItem now' stale be').1 = be' /\
  is_Ok (CompleteWorkflowWorkItem now' stale be').2 = false /\
  AbandonWorkflowWorkItem now' stale be' = (be', Err ErrWorkItemLockLost).
Proof.
  intros H Hid Hne.
  pose proof H as (_ & db & _ & _ & Hbe & _)%getWorkflowWorkItem_Ok.
  assert (forall f, (updateWhere (fun r => String.eqb (ir_InstanceID r) (owi_InstanceID stale) &&
    sqlEq (ir_LockedBy r) (owi_LockedBy stale)) f (Instances db)).2 = 0%nat) as Hnone.
  { intros f. cbn. apply filter_none. intros r Hr.
    destruct (String.eqb_spec (ir_InstanceID r) (owi_InstanceID stale)) as [E|]; [| done]. cbn.
    destruct (lease_locks _ _ _ _ _ db r H Hbe Hr) as [-> _]; [congruence |]. cbn.
    apply String.eqb_neq. congruence. }
  assert (is_Ok (CompleteWorkflowWorkItem now' stale be').2 = false) as HC'.
  { destruct (CompleteWorkflowWorkItem now' stale be') as [be2 [[] | e | q]] eqn:E; [| done..].
    exfalso. apply transact_Ok in E as (db1 & db2 & E1 & _ & E). rewrite Hbe in E1. simplify_eq.
    apply bind_Ok in E as (? & s & E0 & E). apply deref_Ok in E0 as [-> _].
    apply bind_Ok in E as (? & [] & E0 & _). unfold updateInstance in E0.
    apply bind_Ok in E0 as (? & u & E1 & E0). apply liftD_Ok in E1 as [-> _].
    apply bind_Ok in E0 as (? & ? & E1 & E0). injection E1 as <- <-.
    specialize (Hnone (applyInstanceUpdate u s now')).
    destruct (updateWhere _ _ _) as [rows n]. cbn in Hnone. subst n. done. }
  split_and!; [by apply transact_rollback | done |].
  unfold AbandonWorkflowWorkItem, transact. rewrite Hbe. unfold mbind, M_bind, get, put. cbn [fst snd].
  specialize (Hnone unlockInstance).
  destruct (updateWhere _ _ (NewEventsT db)) as [rows [|n]]; [done |]. cbn.
  destruct (updateWhere _ _ (Instances db)) as [irows m] eqn:E. cbn in Hnone.
  injection E as <- <-. rewrite Hnone. done.
Qed.
End Leases.

(** ** External deliveries *)

Section Deliveries.
Context `{HC : ProtoCodec}.

(** External deliveries are idempotent: after a delivery was accepted,
    delivering again under the same instance, event name and delivery id
    succeeds and changes nothing, whatever event comes along; the first
    acceptance queued exactly one event. *)
Theorem external_delivery_idempotent iid name did e be be1 e2 p2 x2 :
  AddNewWorkflowEventWithExternalDelivery iid name did e be = (be1, Ok tt) ->
  checkNewEvent e2 = inl x2 -> MarshalHistoryEvent x2 = inl p2 ->
  AddNewWorkflowEventWithExternalDelivery iid name did e2 be1 = (be1, Ok tt) /\
  exists db db1, be = Some db /\ be1 = Some db1 /\
    ((iid, name, did) ∈ ExternalEventDeliveries db /\ db1 = db \/
     (iid, name, did) ∉ ExternalEventDeliveries db /\
     exists row, NewEventsT db1 = NewEventsT db ++ [row] /\ ne_InstanceID row = iid /\
       ne_LockedBy row = None /\ ne_VisibleTime row = None).
Proof.
  intros H Hc Hp. unfold AddNewWorkflowEventWithExternalDelivery in H |- *. rewrite Hc, Hp.
  destruct (checkNewEvent e) as [x|]; [| done].
  destruct (MarshalHistoryEvent x) as [p|]; [| done].
  destruct be as [db|]; [| done]. cbn in H. unfold mbind, M_bind, get, modify, mret, M_ret in H.
  destruct (bool_decide ((iid, name, did) ∈ ExternalEventDeliveries db)) eqn:B.
  - cbn in H. simplify_eq. cbn. unfold mbind, M_bind, get. rewrite B. cbn. split; [done |].
    exists db, db. split_and!; [done | done |]. left. split; [by apply bool_decide_eq_true in B | done].
  - cbn in H. simplify_eq. cbn. unfold mbind, M_bind, get. cbn.
    rewrite bool_decide_eq_true_2 by (apply elem_of_app; right; by left). cbn. split; [done |].
    eexists db, _. split_and!; [done | done |]. right.
    split; [by apply bool_decide_eq_false in B |]. cbn. eexists. split_and!; reflexivity.
Qed.
End Deliveries.

(** ** What a lease delivers *)

Section Delivery.
Context `{HC : ProtoCodec} `{HF : FailureCodec}.
Variable opts : SqliteOptions.

(** [delivers exec q e r]: row [r] with sequence number [q] holds event [e], and
    a child result is of execution [exec]. *)
Definition delivers (exec : string) (q : Z) (e : HistoryEvent) (r : NewEventRow) : Prop :=
  ne_SequenceNumber r = q /\ UnmarshalHistoryEvent (ne_EventPayload r) = inl e /\
  (IsChildResult e = true -> ne_ExecutionID r = Some exec /\ exec <> "").

Lemma scanLeased_spec exec rows dq st hc mx dq' st' hc' mx' :
  scanLeased exec rows dq st hc mx = inl (dq', st', hc', mx') ->
  Forall (fun p => p ∈ dq \/ exists r, r ∈ rows /\ delivers exec p.1 p.2 r) dq'.
Proof.
  revert dq st hc mx. induction rows as [|r rows IH]; intros dq st hc mx H; cbn in H.
  { simplify_eq. apply Forall_forall. auto. }
  destruct (UnmarshalHistoryEvent (ne_EventPayload r)) as [e|] eqn:Hu; [| done].
  assert (forall dq1 st1 hc1 mx1,
    scanLeased exec rows dq1 st1 hc1 mx1 = inl (dq', st', hc', mx') ->
    (forall p, p ∈ dq1 -> p ∈ dq \/ p = (ne_SequenceNumber r, e) /\
       (IsChildResult e = true -> ne_ExecutionID r = Some exec /\ exec <> "")) ->
    Forall (fun p => p ∈ dq \/ exists r0, r0 ∈ r :: rows /\ delivers exec p.1 p.2 r0) dq') as Hgen.
  { intros dq1 st1 hc1 mx1 H1 Hsub. eapply Forall_impl; [by eapply IH |].
    intros p [Hp|(r0 & Hr0 & Hd)].
    - destruct (Hsub p Hp) as [?|[-> Hch]]; [by left | right]. exists r.
      split; [by left | by split_and!].
    - right. exists r0. split; [by right | done]. }
  destruct (IsChildResult e) eqn:Hch.
  - destruct (ne_ExecutionID r) as [g|] eqn:Hg; [| done]. cbn in H.
    destruct (String.eqb_spec g ""); [done |].
    destruct (String.eqb_spec g exec); cbn in H; (eapply Hgen; [exact H |]).
    + intros p [?|Hq%list_elem_of_singleton]%elem_of_app; [by left | subst p; right].
      split; [done |]. intros _. split; congruence.
    + intros p Hp. by left.
  - eapply Hgen; [exact H |].
    intros p [?|Hq%list_elem_of_singleton]%elem_of_app; [by left | subst p; right]. split; [done | congruence].
Qed.

(** Rows of one table are told apart by their key. *)
Lemma key_inj {R K} (key : R -> K) (rows : list R) a b :
  NoDup (map key rows) -> a ∈ rows -> b ∈ rows -> key a = key b -> a = b.
Proof.
  intros Hn Ha Hb Hk. induction rows as [|x rows IH]; [by apply elem_of_nil in Ha |].
  cbn in Hn. apply NoDup_cons in Hn as [Hx Hn].
  assert (forall y, y ∈ rows -> key y ∈ map key rows) as Hin
    by (intros y Hy; by apply list_elem_of_fmap_2).
  apply elem_of_cons in Ha as [->|Ha], Hb as [->|Hb]; [done | | | by apply IH].
  - exfalso. apply Hx. rewrite Hk. by apply Hin.
  - exfalso. apply Hx. rewrite <- Hk. by apply Hin.
Qed.

Lemma leasedEvents_elem db id now q :
  q ∈ leasedEvents db id now -> exists r, r ∈ NewEventsT db /\ ne_SequenceNumber r = q /\
    ne_InstanceID r = id /\ nullOrLe (ne_VisibleTime r) now = true.
Proof.
  unfold leasedEvents. intros (r & -> & Hr)%list_elem_of_fmap.
  assert (r ∈ orderBy ne_SequenceNumber (List.filter (fun e => String.eqb (ne_InstanceID e) id &&
    nullOrLe (ne_VisibleTime e) now) (NewEventsT db))) as Hin.
  { rewrite <- (take_drop 1000). apply elem_of_app. by left. }
  rewrite orderBy_perm, list_elem_of_In, filter_In, <- list_elem_of_In in Hin.
  destruct Hin as [Hin [Hid%String.eqb_eq Hv]%andb_true_iff]. eauto.
Qed.

(** C24. What a lease delivers: the events of a work item are visible events of
    the leased instance, in the order they were queued, and a child result among
    them was queued for the execution that is current at the lease; a result for
    an older execution of the same instance id is never delivered. *)
Theorem lease_delivers_in_order now token be be' wi db :
  getWorkflowWorkItem opts now token be = (be', Ok wi) -> be = Some db ->
  NoDup (map ne_SequenceNumber (NewEventsT db)) ->
  exists inst seqs, inst ∈ Instances db /\ ir_InstanceID inst = owi_InstanceID wi /\
    StronglySorted Z.le seqs /\
    Forall2 (fun q e => exists r, r ∈ NewEventsT db /\ ne_InstanceID r = owi_InstanceID wi /\
      nullOrLe (ne_VisibleTime r) now = true /\ delivers (ir_ExecutionID inst) q e r)
      seqs (owi_NewEvents wi).
Proof.
  intros H -> Hnd. apply getWorkflowWorkItem_Ok in H
    as (db2 & db' & inst & [= <-] & _ & Hin & _ & Hid & _ & _ & _ & dq & st & hc & mx & Hs & Hev & _).
  exists inst, (map fst (orderBy fst dq)). split_and!; [done | done | |].
  - apply sorted_keys, orderBy_StronglySorted.
  - rewrite Hev. apply Forall2_fmap_l, Forall2_fmap_r, Forall_Forall2_diag.
    apply scanLeased_spec in Hs.
    eapply Forall_impl; [rewrite (orderBy_perm fst dq); exact Hs |]. intros [q e] [Hn|(r & Hr & Hd)]; [by apply elem_of_nil in Hn |].
    rewrite list_elem_of_In, filter_In, <- list_elem_of_In in Hr.
    destruct Hr as [Hr Hl%bool_decide_eq_true]. cbn in *.
    apply updateWhere_rows in Hr as (x & Hx & ->).
    assert (ne_SequenceNumber x ∈ leasedEvents db (ir_InstanceID inst) now /\
            delivers (ir_ExecutionID inst) q e x) as [Hlx Hdx].
    { revert Hl Hd. destruct (bool_decide _) eqn:B; [| done]. intros _ Hd.
      split; [by apply bool_decide_eq_true in B | done]. }
    destruct (leasedEvents_elem _ _ _ _ Hlx) as (y & Hy & Hk & Hyid & Hyv).
    assert (y = x) as -> by (by eapply (key_inj ne_SequenceNumber)).
    exists x. split_and!; [done | congruence | done | done].
Qed.
End Delivery.
