(* ===== verification/SqliteCommit.v ===== *)
(** * The SQLite backend: what a committed turn leaves behind

    The well-formedness invariant of the tables, which every method preserves,
    the commit of a turn and its reload, and the purge as an implementation of
    the storage interface of the purge driver. *)

From stdpp Require Import base list option strings gmap sets sorting.
From Stdlib Require Import ZArith Lia.
From S2P Require Import Prelude Errors Protos Dedup RuntimeState Propagation Helpers Backend Sqlite.
From S2P Require Import SqliteCorrect.

(** ** Rows of one instance *)

Definition ownHistory (db : DB) (id : string) : list HistoryRow :=
  List.filter (fun r => String.eqb (hr_InstanceID r) id) (History db).

Definition ownInstance (db : DB) (id : string) : list InstanceRow :=
  List.filter (fun r => String.eqb (ir_InstanceID r) id) (Instances db).

(** Consecutive numbers from 0. *)
Definition numbered (rows : list HistoryRow) : Prop :=
  map hr_SequenceNumber rows = map Z.of_nat (seq 0 (length rows)).

(** ** The invariant of the tables *)

Record db_wf (db : DB) : Prop := {
  (* primary keys *)
  wf_ids : NoDup (map ir_InstanceID (Instances db));
  wf_events : NoDup (map ne_SequenceNumber (NewEventsT db));
  wf_tasks : NoDup (map nt_SequenceNumber (NewTasks db));
  (* each history is numbered without gaps, in order *)
  wf_seqs : forall id, numbered (ownHistory db id);
  (* a history belongs to an instance *)
  wf_owner : forall h, h ∈ History db -> hr_InstanceID h ∈ map ir_InstanceID (Instances db);
  (* an instance with a final status has a history *)
  wf_final : forall r, r ∈ Instances db -> isFinalStatus (ir_RuntimeStatus r) = true ->
    ownHistory db (ir_InstanceID r) <> []
}.

Lemma db_wf_empty : db_wf emptyDB.
Proof.
  split; cbn; try apply NoDup_nil_2; try done; intros ? Hn; by apply elem_of_nil in Hn.
Qed.

(** *** Lemmas on filters and keys *)

Lemma filter_filter_keep {R} (p q : R -> bool) l :
  (forall r, q r = true -> p r = true) -> List.filter q (List.filter p l) = List.filter q l.
Proof.
  intros H. induction l as [|x l IH]; cbn; [done |]. destruct (p x) eqn:E; cbn; [by rewrite IH |].
  rewrite IH. destruct (q x) eqn:Eq; [| done]. rewrite H in E by done. done.
Qed.

Lemma filter_nil_iff {R} (p : R -> bool) l : List.filter p l = [] <-> forall r, r ∈ l -> p r = false.
Proof. rewrite <- filter_none. destruct (List.filter p l); cbn; split; intros; (done || lia || congruence). Qed.

Lemma map_filter_sublist {R K} (key : R -> K) (p : R -> bool) l :
  map key (List.filter p l) `sublist_of` map key l.
Proof. induction l as [|x l IH]; cbn; [done |]. destruct (p x); cbn; by constructor. Qed.

Lemma NoDup_filter_key {R K} (key : R -> K) (p : R -> bool) l :
  NoDup (map key l) -> NoDup (map key (List.filter p l)).
Proof. intros H. eapply sublist_NoDup; [exact H | apply map_filter_sublist]. Qed.

Lemma map_key_update {R K} (key : R -> K) (p : R -> bool) f l :
  (forall r, key (f r) = key r) -> map key (updateWhere p f l).1 = map key l.
Proof.
  intros H. unfold updateWhere. cbn. rewrite map_map. apply map_ext. intros r. by destruct (p r).
Qed.

Lemma nextRowid_fresh {R} (key : R -> Z) l : nextRowid key l ∉ map key l.
Proof.
  unfold nextRowid. assert (forall k, k ∈ map key l -> k ≤ foldr Z.max 0 (map key l)) as H.
  { induction (map key l) as [|x xs IH]; intros k Hk; [by apply elem_of_nil in Hk |].
    apply elem_of_cons in Hk as [->|Hk]; cbn; [lia |]. specialize (IH k Hk). lia. }
  intros Hin%H. lia.
Qed.

Lemma NoDup_snoc {K} (l : list K) k : NoDup l -> k ∉ l -> NoDup (l ++ [k]).
Proof.
  intros Hl Hk. apply NoDup_app. split_and!; [done | | apply NoDup_singleton].
  intros x Hx ->%list_elem_of_singleton. done.
Qed.

Lemma findInstance_None db id :
  findInstance db id = None <-> id ∉ map ir_InstanceID (Instances db).
Proof.
  unfold findInstance. rewrite find_None_all, list_elem_of_fmap. split.
  - intros H (r & -> & Hr). specialize (H r Hr). by rewrite String.eqb_refl in H.
  - intros H r Hr. apply String.eqb_neq. intros <-. eauto.
Qed.

(** The row of an instance, by its unique id. *)
Lemma findInstance_unique db r :
  NoDup (map ir_InstanceID (Instances db)) -> r ∈ Instances db ->
  findInstance db (ir_InstanceID r) = Some r.
Proof.
  intros Hn Hr. destruct (findInstance db (ir_InstanceID r)) as [x|] eqn:E.
  - apply findInstance_Some in E as [Hx Hid]. f_equal. by eapply key_inj.
  - apply findInstance_None in E. exfalso. apply E. by apply list_elem_of_fmap_2.
Qed.

(** ** Each statement keeps the invariant *)

(** Replacing the queue, by a list of rows with distinct keys. *)
Lemma wf_set_events db v :
  db_wf db -> NoDup (map ne_SequenceNumber v) -> db_wf (set_NewEventsT v db).
Proof. intros [] H. by split. Qed.

Lemma wf_set_tasks db v :
  db_wf db -> NoDup (map nt_SequenceNumber v) -> db_wf (set_NewTasks v db).
Proof. intros [] H. by split. Qed.

(** Updating instances without touching their ids or their status. *)
Lemma wf_set_instances db p f :
  (forall r, ir_InstanceID (f r) = ir_InstanceID r) ->
  (forall r, ir_RuntimeStatus (f r) = ir_RuntimeStatus r) ->
  db_wf db -> db_wf (set_Instances (updateWhere p f (Instances db)).1 db).
Proof.
  intros H1 H2 [W1 W2 W3 W4 W5 W6]. split; try done.
  - cbn [Instances set_Instances]. by rewrite map_key_update.
  - intros h Hh. cbn [Instances set_Instances]. rewrite map_key_update by done. by apply W5.
  - intros r (x & Hx & ->)%updateWhere_rows Hf. change (ownHistory db (ir_InstanceID (if p x then f x else x)) <> []).
    destruct (p x); [| by apply W6]. rewrite H1. rewrite H2 in Hf. by apply W6.
Qed.

Lemma insertNewEvent_wf iid g payload v : keepsD db_wf (insertNewEvent iid g payload v).
Proof.
  intros db Hw. apply wf_set_events; [done |]. rewrite map_app. cbn.
  apply NoDup_snoc; [apply (wf_events db Hw) | apply nextRowid_fresh].
Qed.

Lemma insertTasks_wf iid payloads : keepsD db_wf (insertTasks iid payloads).
Proof.
  induction payloads as [|p rest IH]; cbn [insertTasks]; [apply keepsD_ret |].
  apply keepsD_bind; [| intros _; exact IH]. intros db Hw. apply wf_set_tasks; [done |].
  rewrite map_app. cbn. apply NoDup_snoc; [apply (wf_tasks db Hw) | apply nextRowid_fresh].
Qed.

Lemma insertEvents_wf rows : keepsD db_wf (insertEvents rows).
Proof.
  induction rows as [|[[i p] v] rest IH]; cbn [insertEvents]; [apply keepsD_ret |].
  apply keepsD_bind; [apply insertNewEvent_wf | intros _; exact IH].
Qed.

Lemma create_wf now e : keepsD db_wf (createWorkflowInstanceInternal now e).
Proof.
  unfold createWorkflowInstanceInternal.
  destruct e as [e|]; [| by apply keepsD_same]. destruct (Timestamp e); [| by apply keepsD_same].
  destruct (GetExecutionStarted e) as [es|]; [| by apply keepsD_same].
  apply keepsD_bind; [apply keepsD_same; by destruct (es_WorkflowInstance es) | intros wi].
  apply keepsD_bind; [| intros []; by apply keepsD_same].
  intros db Hw. unfold insertOrIgnoreInstance.
  destruct (findInstance db (wi_InstanceId wi)) eqn:E; [done |]. apply findInstance_None in E.
  destruct Hw as [W1 W2 W3 W4 W5 W6]. split; cbn; try done.
  - rewrite map_app. cbn. by apply NoDup_snoc.
  - intros h Hh. rewrite map_app, elem_of_app. left. by apply W5.
  - intros r [Hr|Hr%list_elem_of_singleton]%elem_of_app; [by apply W6 | by subst r].
Qed.

(** What a cleanup does when it succeeds. *)
Lemma cleanup_Ok id req db db' :
  cleanupWorkflowStateInternal id req db = (db', Ok tt) ->
  NoDup (map ir_InstanceID (Instances db)) ->
  exists r, r ∈ Instances db /\ ir_InstanceID r = id /\
    (req = true -> isFinalStatus (ir_RuntimeStatus r) = true) /\
    Instances db' = (deleteWhere (fun r => String.eqb (ir_InstanceID r) id) (Instances db)).1 /\
    History db' = (deleteWhere (fun r => String.eqb (hr_InstanceID r) id) (History db)).1 /\
    NewEventsT db' = (deleteWhere (fun r => String.eqb (ne_InstanceID r) id) (NewEventsT db)).1 /\
    ExternalEventDeliveries db' =
      (deleteWhere (fun r => String.eqb r.1.1 id) (ExternalEventDeliveries db)).1 /\
    NewTasks db' = (deleteWhere (fun r => String.eqb (nt_InstanceID r) id) (NewTasks db)).1.
Proof.
  intros H Hn. unfold cleanupWorkflowStateInternal in H.
  destruct (findInstance db id) as [r|] eqn:E; [| done].
  apply findInstance_Some in E as [Hr <-].
  destruct (deleteWhere _ (Instances db)) as [rows affected] eqn:Ed.
  destruct (req && (affected =? 0)%nat) eqn:B; [done |]. simplify_eq. injection Ed as <- Ha.
  assert (req = true -> isFinalStatus (ir_RuntimeStatus r) = true) as Hfin.
  { intros ->. cbn in B. apply Nat.eqb_neq in B.
    destruct (isFinalStatus (ir_RuntimeStatus r)) eqn:F; [done |]. exfalso. apply B. rewrite <- Ha.
    apply filter_none. intros x Hx. destruct (String.eqb_spec (ir_InstanceID x) (ir_InstanceID r));
      [| done]. rewrite (key_inj ir_InstanceID _ _ _ Hn Hx Hr) by done. by rewrite F. }
  exists r. split_and!; try done. cbn. unfold deleteWhere. cbn.
  apply filter_ext_in. intros x Hx%list_elem_of_In. f_equal.
  destruct (String.eqb_spec (ir_InstanceID x) (ir_InstanceID r)); [| done].
  rewrite (key_inj ir_InstanceID _ _ _ Hn Hx Hr) by done. cbn.
  destruct req; [| done]. by rewrite Hfin.
Qed.

Lemma cleanup_err id req db db' err :
  cleanupWorkflowStateInternal id req db = (db', Err err) -> db' = db.
Proof.
  unfold cleanupWorkflowStateInternal. destruct (findInstance db id); [| by intros [= <-]].
  destruct (deleteWhere _ (Instances db)). case_match; by intros [= <-].
Qed.

(** A history after the rows of one instance were deleted. *)
Lemma ownHistory_delete db id id' :
  List.filter (fun r => String.eqb (hr_InstanceID r) id')
    (deleteWhere (fun r => String.eqb (hr_InstanceID r) id) (History db)).1
  = if String.eqb id' id then [] else ownHistory db id'.
Proof.
  unfold deleteWhere. cbn. destruct (String.eqb_spec id' id) as [->|Hne].
  - apply filter_nil_iff. intros r Hr. rewrite list_elem_of_In, filter_In in Hr.
    by destruct Hr as [_ Hr%negb_true_iff].
  - apply filter_filter_keep. intros r Hr%String.eqb_eq. subst id'.
    by apply negb_true_iff, String.eqb_neq.
Qed.

Lemma cleanup_wf id req : keepsD db_wf (cleanupWorkflowStateInternal id req).
Proof.
  intros db Hw. destruct (cleanupWorkflowStateInternal id req db) as [db' [[] | err | q]] eqn:E.
  - destruct (cleanup_Ok _ _ _ _ E (wf_ids db Hw)) as (r & Hr & Hid & _ & HI & HH & HN & HD & HT).
    destruct Hw as [W1 W2 W3 W4 W5 W6]. cbn. split.
    + rewrite HI. by apply NoDup_filter_key.
    + rewrite HN. by apply NoDup_filter_key.
    + rewrite HT. by apply NoDup_filter_key.
    + intros id'. unfold ownHistory. rewrite HH, ownHistory_delete. case_match; [done | apply W4].
    + intros h Hh. rewrite HH in Hh. apply deleteWhere_rows in Hh as [Hh Hne]. rewrite HI.
      specialize (W5 h Hh). rewrite list_elem_of_fmap in W5 |- *. destruct W5 as (x & Hx1 & Hx2).
      exists x. split; [done |]. apply deleteWhere_rows. split; [done | by rewrite <- Hx1].
    + intros x Hx Hf. rewrite HI in Hx. apply deleteWhere_rows in Hx as [Hx Hne].
      unfold ownHistory. rewrite HH, ownHistory_delete, Hne. by apply W6.
  - apply cleanup_err in E as ->. done.
  - exfalso. revert E. unfold cleanupWorkflowStateInternal. destruct (findInstance db id); [| done].
    destruct (deleteWhere _ (Instances db)). by case_match.
Qed.

Section Steps.
Context `{HC : ProtoCodec} `{HF : FailureCodec}.

Lemma validate_same iid exec db : (validateChildDestination iid exec db).1 = db.
Proof. unfold validateChildDestination. by case_match. Qed.

(** Any property that insertions into the queue, cleanups and creations keep is
    kept by the part of a commit after the history was saved. *)
Section Rest.
Context (P : DB -> Prop).
Hypothesis P_insert : forall iid g payload v, keepsD P (insertNewEvent iid g payload v).

Lemma saveChildResults_keeps s msgs : keepsD P (saveChildResults s msgs).
Proof.
  induction msgs as [|msg rest IH]; cbn [saveChildResults]; [apply keepsD_ret |].
  case_match; [exact IH |]. apply keepsD_bind; [apply keepsD_liftD | intros generation].
  apply keepsD_bind; [apply keepsD_liftD | intros payload].
  intros db Hdb. unfold mbind, M_bind, get.
  destruct (findInstance db (msg_TargetInstanceId msg)) as [target|]; [| by apply IH].
  revert db Hdb. apply keepsD_bind; [apply keepsD_same, validate_same | intros _].
  apply keepsD_bind; [case_match; [apply P_insert | apply keepsD_ret] | intros _; exact IH].
Qed.

Lemma insertEvents_keeps rows : keepsD P (insertEvents rows).
Proof.
  induction rows as [|[[i p] v] rest IH]; cbn [insertEvents]; [apply keepsD_ret |].
  apply keepsD_bind; [apply P_insert | intros _; exact IH].
Qed.

(** The start messages among [msgs] create instances that [P] does not mind. *)
Lemma prepareMessages_keeps now msgs :
  (forall msg es, msg ∈ msgs -> GetExecutionStarted (msg_HistoryEvent msg) = Some es ->
     keepsD P (createTarget now (msg_HistoryEvent msg) es)) ->
  keepsD P (prepareMessages now msgs).
Proof.
  induction msgs as [|msg rest IH]; intros Hc; cbn [prepareMessages]; [apply keepsD_ret |].
  assert (keepsD P (prepareMessages now rest)) as Hrest
    by (apply IH; intros; eapply Hc; [by right | done]).
  case_match; [exact Hrest |].
  apply keepsD_bind; [case_match eqn:E; [by eapply Hc; [left | exact E] | apply keepsD_ret] | intros _].
  apply keepsD_bind; [apply keepsD_liftD | intros payload].
  apply keepsD_bind; [exact Hrest | intros rows; apply keepsD_ret].
Qed.
End Rest.

Lemma createTarget_keeps P now e es :
  keepsD P (createWorkflowInstanceInternal now (Some e)) ->
  (forall wi, es_WorkflowInstance es = Some wi ->
     keepsD P (cleanupWorkflowStateInternal (wi_InstanceId wi) true)) ->
  keepsD P (createTarget now e es).
Proof.
  intros H1 H2 db Hdb. unfold createTarget. pose proof (H1 db Hdb) as Hc.
  destruct (createWorkflowInstanceInternal now (Some e) db) as [db1 [i | err | q]]; [done | | done].
  case_match; [| done]. destruct (es_WorkflowInstance es) as [wi|] eqn:Hw; [| done].
  pose proof (H2 wi eq_refl db1 Hc) as Hl.
  destruct (cleanupWorkflowStateInternal (wi_InstanceId wi) true db1) as [db2 [[] | err2 | q]].
  - pose proof (H1 db2 Hl) as Hc2.
    destruct (createWorkflowInstanceInternal now (Some e) db2) as [db3 [i | err3 | q]];
      [done | by case_match | done].
  - by case_match.
  - done.
Qed.

Lemma createTarget_wf now e es : keepsD db_wf (createTarget now e es).
Proof. apply createTarget_keeps; [apply create_wf | intros; apply cleanup_wf]. Qed.

Lemma saveEvents_keeps P now wi s :
  (forall iid g payload v, keepsD P (insertNewEvent iid g payload v)) ->
  (forall msg es, msg ∈ PendingMessages s -> GetExecutionStarted (msg_HistoryEvent msg) = Some es ->
     keepsD P (createTarget now (msg_HistoryEvent msg) es)) ->
  keepsD P (saveEvents now wi s).
Proof.
  intros H1 H2. unfold saveEvents. apply keepsD_bind; [apply keepsD_liftD | intros timers].
  apply keepsD_bind; [by apply prepareMessages_keeps | intros rows].
  by apply insertEvents_keeps.
Qed.

Lemma saveTasks_keeps P wi s :
  (forall iid payload, keepsD P (insertNewTask iid payload)) -> keepsD P (saveTasks wi s).
Proof.
  intros H. unfold saveTasks. apply keepsD_bind; [apply keepsD_liftD | intros payloads].
  induction payloads as [|p rest IH]; cbn [insertTasks]; [apply keepsD_ret |].
  apply keepsD_bind; [apply H | intros _; exact IH].
Qed.

Lemma deleteInbound_Ok wi db db' :
  deleteInbound wi db = (db', Ok tt) ->
  db' = set_NewEventsT (deleteWhere (fun e => String.eqb (ne_InstanceID e) (owi_InstanceID wi) &&
    sqlEq (ne_LockedBy e) (owi_LockedBy wi)) (NewEventsT db)).1 db /\
  exists e, e ∈ NewEventsT db /\ ne_InstanceID e = owi_InstanceID wi /\
    ne_LockedBy e = Some (owi_LockedBy wi).
Proof.
  intros H. unfold deleteInbound, mbind, M_bind, get in H.
  destruct (deleteWhere _ (NewEventsT db)) as [rows n] eqn:E. injection E as <- Hn.
  destruct (n =? 0)%nat eqn:B; [done |]. injection H as <-. split; [done |].
  apply Nat.eqb_neq in B. rewrite <- Hn in B.
  destruct (List.filter _ (NewEventsT db)) as [|e l] eqn:Ef; [done |].
  assert (e ∈ e :: l) as He by (by left). rewrite <- Ef, list_elem_of_In, filter_In, <- list_elem_of_In in He.
  destruct He as [He [Hi%String.eqb_eq Hl%sqlEq_true]%andb_true_iff]. eauto.
Qed.

(** *** The stages of a commit *)

Definition ownedBy (wi : WorkflowWorkItem) (r : InstanceRow) : bool :=
  String.eqb (ir_InstanceID r) (owi_InstanceID wi) && sqlEq (ir_LockedBy r) (owi_LockedBy wi).

Lemma updateInstance_Ok now wi s db db' :
  updateInstance now wi s db = (db', Ok tt) ->
  exists u, scanNewEvents (mkInstanceUpdate None None) (NewEvents s) = inl u /\
    db' = set_Instances (updateWhere (ownedBy wi) (applyInstanceUpdate u s now) (Instances db)).1 db /\
    exists r, r ∈ Instances db /\ ir_InstanceID r = owi_InstanceID wi /\
      ir_LockedBy r = Some (owi_LockedBy wi).
Proof.
  intros H. unfold updateInstance in H. apply bind_Ok in H as (? & u & E & H).
  apply liftD_Ok in E as [-> Hu]. apply bind_Ok in H as (? & ? & E & H). injection E as <- <-.
  change (fun r => String.eqb (ir_InstanceID r) (owi_InstanceID wi) &&
    sqlEq (ir_LockedBy r) (owi_LockedBy wi)) with (ownedBy wi) in H.
  destruct (updateWhere (ownedBy wi) _ (Instances db)) as [rows n] eqn:E. injection E as <- Hn.
  destruct (n =? 0)%nat eqn:B; [done |]. injection H as <-. exists u. split_and!; [done | done |].
  apply Nat.eqb_neq in B. rewrite <- Hn in B.
  destruct (List.filter (ownedBy wi) (Instances db)) as [|r l] eqn:Ef; [done |].
  assert (r ∈ r :: l) as He by (by left). rewrite <- Ef, list_elem_of_In, filter_In, <- list_elem_of_In in He.
  destruct He as [He [Hi%String.eqb_eq Hl%sqlEq_true]%andb_true_iff]. eauto.
Qed.

Lemma retireGeneration_Ok wi s db db' :
  retireGeneration wi s db = (db', Ok tt) ->
  Instances db' = Instances db /\
  History db' = (if ContinuedAsNew s
    then (deleteWhere (fun r => String.eqb (hr_InstanceID r) (owi_InstanceID wi)) (History db)).1
    else History db) /\
  (exists p, NewEventsT db' = List.filter p (NewEventsT db)) /\
  (exists p, NewTasks db' = List.filter p (NewTasks db)).
Proof.
  intros H. unfold retireGeneration in H. destruct (ContinuedAsNew s).
  - apply bind_Ok in H as (db1 & [] & E & H). injection H as <-.
    unfold discardPreviousExecutionWork in E. apply bind_Ok in E as (? & [] & E0 & E).
    injection E0 as <-. apply bind_Ok in E as (? & ? & E0 & E). injection E0 as <- <-.
    apply bind_Ok in E as (? & obs & E0 & E). apply liftD_Ok in E0 as [-> _]. injection E as <-.
    split_and!; [done | done | |]; eexists; reflexivity.
  - injection H as <-. split_and!; [done | done | |]; exists (fun _ => true);
      symmetry; [induction (NewEventsT db) | induction (NewTasks db)]; cbn; congruence.
Qed.

Lemma saveHistory_Ok wi s db db' :
  saveHistory wi s db = (db', Ok tt) ->
  exists payloads, tryMap MarshalHistoryEvent (NewEvents s) = inl payloads /\
    db' = set_History (History db ++ historyRows (owi_InstanceID wi)
      (Z.of_nat (length (OldEvents s))) payloads) db.
Proof.
  intros H. unfold saveHistory in H. apply bind_Ok in H as (? & payloads & E & H).
  apply liftD_Ok in E as [-> Hp]. apply bind_Ok in H as (? & ? & E & H). injection E as <- <-.
  case_match; [done |]. injection H as <-. eauto.
Qed.

Lemma historyRows_own iid n payloads id :
  List.filter (fun r => String.eqb (hr_InstanceID r) id) (historyRows iid n payloads)
  = if String.eqb iid id then historyRows iid n payloads else [].
Proof.
  revert n. induction payloads as [|p rest IH]; intros n; cbn; [by case_match |].
  rewrite IH. by case_match.
Qed.

Lemma historyRows_seqs iid n payloads :
  map hr_SequenceNumber (historyRows iid (Z.of_nat n) payloads)
  = map Z.of_nat (seq n (length payloads)).
Proof.
  revert n. induction payloads as [|p rest IH]; intros n; cbn; [done |].
  replace (Z.of_nat n + 1) with (Z.of_nat (S n)) by lia. by rewrite IH.
Qed.

Lemma historyRows_payloads iid n payloads :
  map hr_EventPayload (historyRows iid n payloads) = payloads.
Proof. revert n. induction payloads as [|p rest IH]; intros n; cbn; [done | by rewrite IH]. Qed.

Lemma historyRows_length iid n payloads : length (historyRows iid n payloads) = length payloads.
Proof. by rewrite <- (length_map hr_EventPayload), historyRows_payloads. Qed.

(** Appending the next rows keeps a history numbered. *)
Lemma numbered_app rows iid payloads :
  numbered rows -> numbered (rows ++ historyRows iid (Z.of_nat (length rows)) payloads).
Proof.
  intros H. unfold numbered in *. rewrite map_app, H, historyRows_seqs.
  by rewrite length_app, historyRows_length, seq_app, map_app.
Qed.

Lemma numbered_sorted rows :
  numbered rows -> StronglySorted (fun a b => hr_SequenceNumber a ≤ hr_SequenceNumber b) rows.
Proof.
  unfold numbered. generalize 0%nat. induction rows as [|r rows IH]; intros n H; [constructor |].
  cbn in H. injection H as H1 H2. constructor; [by eapply IH |].
  apply Forall_forall. intros x Hx%(list_elem_of_fmap_2 hr_SequenceNumber).
  change (hr_SequenceNumber x ∈ map hr_SequenceNumber rows) in Hx. rewrite H2 in Hx.
  apply list_elem_of_fmap in Hx as (k & -> & Hk). apply elem_of_seq in Hk. lia.
Qed.

Lemma historyPayloads_numbered db id :
  numbered (ownHistory db id) -> historyPayloads db id = map hr_EventPayload (ownHistory db id).
Proof. intros H. unfold historyPayloads. f_equal. by apply orderBy_sorted, numbered_sorted. Qed.
End Steps.

(** ** Committing a turn *)

Section Commit.
Context `{HC : ProtoCodec} `{HF : FailureCodec}.

(** The part of a commit after the history. *)
Definition commitRest (now : Z) (wi : WorkflowWorkItem) (s : WorkflowRuntimeState) : D unit :=
  saveTasks wi s;; saveChildResults s (PendingMessages s);; saveEvents now wi s;; deleteInbound wi.

(** The stages of a successful commit. *)
Lemma commit_stages now wi s be be' :
  owi_State wi = Some s -> CompleteWorkflowWorkItem now wi be = (be', Ok tt) ->
  exists db db1 db2 db3 db',
    be = Some db /\ be' = Some db' /\
    updateInstance now wi s db = (db1, Ok tt) /\ retireGeneration wi s db1 = (db2, Ok tt) /\
    saveHistory wi s db2 = (db3, Ok tt) /\ commitRest now wi s db3 = (db', Ok tt).
Proof.
  intros Hs H. apply transact_Ok in H as (db & db' & -> & -> & H). rewrite Hs in H.
  apply bind_Ok in H as (? & ? & E & H). injection E as <- <-.
  apply bind_Ok in H as (db1 & [] & E1 & H). apply bind_Ok in H as (db2 & [] & E2 & H).
  apply bind_Ok in H as (db3 & [] & E3 & H). exists db, db1, db2, db3, db'. done.
Qed.

Lemma commitRest_keeps P now wi s db db' :
  (forall iid payload, keepsD P (insertNewTask iid payload)) ->
  (forall iid g payload v, keepsD P (insertNewEvent iid g payload v)) ->
  (forall msg es, msg ∈ PendingMessages s -> GetExecutionStarted (msg_HistoryEvent msg) = Some es ->
     keepsD P (createTarget now (msg_HistoryEvent msg) es)) ->
  (forall p db, P db -> P (set_NewEventsT (List.filter p (NewEventsT db)) db)) ->
  P db -> commitRest now wi s db = (db', Ok tt) -> P db'.
Proof.
  intros H1 H2 H3 H4 Hdb H. apply bind_Ok in H as (db1 & [] & E1 & H).
  apply bind_Ok in H as (db2 & [] & E2 & H). apply bind_Ok in H as (db3 & [] & E3 & H).
  apply deleteInbound_Ok in H as [-> _]. apply H4.
  eapply keepsD_Ok; [by apply saveEvents_keeps | | exact E3].
  eapply keepsD_Ok; [by apply saveChildResults_keeps | | exact E2].
  by eapply keepsD_Ok; [by apply saveTasks_keeps | | exact E1].
Qed.

(** [startsSelf wi msg]: the message starts an instance under the id of the work
    item itself. *)
Definition startsSelf (wi : WorkflowWorkItem) (msg : WorkflowRuntimeStateMessage) : bool :=
  match GetExecutionStarted (msg_HistoryEvent msg) with
  | Some es => match es_WorkflowInstance es with
               | Some w => String.eqb (wi_InstanceId w) (owi_InstanceID wi)
               | None => false
               end
  | None => false
  end.

(** Creating and cleaning up other instances leaves this one's rows alone. *)
Definition ownRows (id : string) (rows : list InstanceRow * list HistoryRow) (db : DB) : Prop :=
  ownInstance db id = rows.1 /\ ownHistory db id = rows.2.

Lemma create_ownRows id rows now e :
  (forall es w, GetExecutionStarted e = Some es -> es_WorkflowInstance es = Some w ->
     wi_InstanceId w <> id) ->
  keepsD (ownRows id rows) (createWorkflowInstanceInternal now (Some e)).
Proof.
  intros Hne db [H1 H2]. unfold createWorkflowInstanceInternal.
  destruct (Timestamp e); [| done]. destruct (GetExecutionStarted e) as [es|]; [| done].
  unfold mbind, M_bind. destruct (es_WorkflowInstance es) as [w|] eqn:Hw; [| done]. cbn.
  unfold insertOrIgnoreInstance. destruct (findInstance db (wi_InstanceId w)); [done |]. cbn.
  split; [| done]. unfold ownInstance in *. cbn. rewrite List.filter_app, H1. cbn.
  specialize (Hne es w eq_refl Hw). apply String.eqb_neq in Hne. by rewrite Hne, app_nil_r.
Qed.

Lemma cleanup_ownRows id rows id' req :
  id' <> id -> keepsD (ownRows id rows) (cleanupWorkflowStateInternal id' req).
Proof.
  intros Hne db [H1 H2]. unfold cleanupWorkflowStateInternal. destruct (findInstance db id'); [| done].
  destruct (deleteWhere _ (Instances db)) as [irows n] eqn:E. injection E as <- _.
  case_match; [done |]. split; cbn.
  - unfold ownInstance in *. cbn. rewrite filter_filter_keep; [done |].
    intros r Hr%String.eqb_eq. subst id. apply negb_true_iff.
    by rewrite (proj2 (String.eqb_neq _ _) (not_eq_sym Hne)).
  - unfold ownHistory in *. cbn. rewrite filter_filter_keep; [done |].
    intros r Hr%String.eqb_eq. subst id. by apply negb_true_iff, String.eqb_neq, not_eq_sym.
Qed.

Lemma commitRest_ownRows now wi s db db' rows :
  Forall (fun m => startsSelf wi m = false) (PendingMessages s) ->
  ownRows (owi_InstanceID wi) rows db -> commitRest now wi s db = (db', Ok tt) ->
  ownRows (owi_InstanceID wi) rows db'.
Proof.
  intros HFs. apply commitRest_keeps; [by intros ??? | by intros ????? | | by intros ??].
  intros msg es Hm He. eapply Forall_forall in HFs; [| exact Hm].
  unfold startsSelf in HFs. rewrite He in HFs. apply createTarget_keeps.
  - apply create_ownRows. intros es' w He' Hw. rewrite He in He'. simplify_eq. rewrite Hw in HFs.
    by apply String.eqb_neq.
  - intros w Hw. rewrite Hw in HFs. apply cleanup_ownRows. by apply String.eqb_neq.
Qed.

(** The rows of the instance right after its history was saved. *)
Lemma saved_ownHistory now wi s db db1 db2 db3 :
  updateInstance now wi s db = (db1, Ok tt) -> retireGeneration wi s db1 = (db2, Ok tt) ->
  saveHistory wi s db2 = (db3, Ok tt) ->
  exists payloads, tryMap MarshalHistoryEvent (NewEvents s) = inl payloads /\
    ownHistory db3 (owi_InstanceID wi) =
      (if ContinuedAsNew s then [] else ownHistory db (owi_InstanceID wi)) ++
      historyRows (owi_InstanceID wi) (Z.of_nat (length (OldEvents s))) payloads.
Proof.
  intros (u & _ & -> & _)%updateInstance_Ok (HI & HH & _)%retireGeneration_Ok
    (payloads & Hp & ->)%saveHistory_Ok.
  exists payloads. split; [done |]. unfold ownHistory at 1. cbn. rewrite HH, List.filter_app.
  rewrite historyRows_own, String.eqb_refl. f_equal. destruct (ContinuedAsNew s); [| done].
  rewrite ownHistory_delete. by rewrite String.eqb_refl.
Qed.

(** The work item's state continues the committed history. *)
Definition continues (db : DB) (wi : WorkflowWorkItem) (s : WorkflowRuntimeState) : Prop :=
  if ContinuedAsNew s then OldEvents s = []
  else readHistory db (owi_InstanceID wi) = inl (OldEvents s).

Lemma tryMap_length {X Y} (f : X -> Y + error) l r : tryMap f l = inl r -> length r = length l.
Proof.
  revert r. induction l as [|x l IH]; intros r H; cbn in H; [by simplify_eq |].
  destruct (f x); [| done]. destruct (tryMap f l) as [ys|]; [| done]. simplify_eq. cbn. by rewrite IH.
Qed.

Lemma tryMap_app {X Y} (f : X -> Y + error) l1 l2 r1 r2 :
  tryMap f l1 = inl r1 -> tryMap f l2 = inl r2 -> tryMap f (l1 ++ l2) = inl (r1 ++ r2).
Proof.
  revert r1. induction l1 as [|x l1 IH]; intros r1 H1 H2; cbn in H1; [by simplify_eq |]. cbn.
  destruct (f x); [| done]. destruct (tryMap f l1) as [ys|]; [| done]. simplify_eq.
  by rewrite (IH ys).
Qed.

Lemma history_codec `{HCok : !ProtoCodecOk} l raw :
  tryMap MarshalHistoryEvent l = inl raw -> tryMap UnmarshalHistoryEvent raw = inl l.
Proof.
  revert raw. induction l as [|e l IH]; intros raw H; cbn in H; [by simplify_eq |].
  unfold MarshalHistoryEvent in H at 1. destruct (Marshal e) as [b|] eqn:E; [| done].
  destruct (tryMap MarshalHistoryEvent l) as [bs|]; [| done]. simplify_eq. cbn.
  unfold UnmarshalHistoryEvent at 1. rewrite (Unmarshal_Marshal e b E). by rewrite (IH bs).
Qed.

(** After the commit the history is numbered and reads as the turn left it. *)
Lemma saved_numbered db db3 wi s payloads :
  numbered (ownHistory db (owi_InstanceID wi)) -> continues db wi s ->
  ownHistory db3 (owi_InstanceID wi) =
    (if ContinuedAsNew s then [] else ownHistory db (owi_InstanceID wi)) ++
    historyRows (owi_InstanceID wi) (Z.of_nat (length (OldEvents s))) payloads ->
  numbered (ownHistory db3 (owi_InstanceID wi)).
Proof.
  intros Hn Hc ->. unfold continues in Hc. destruct (ContinuedAsNew s).
  - rewrite Hc. apply (numbered_app []). done.
  - assert (length (OldEvents s) = length (ownHistory db (owi_InstanceID wi))) as ->;
      [| by apply numbered_app].
    unfold readHistory in Hc. rewrite historyPayloads_numbered in Hc by done.
    apply tryMap_length in Hc. by rewrite Hc, length_map.
Qed.

Lemma saved_reads `{HCok : !ProtoCodecOk} db db3 wi s payloads :
  numbered (ownHistory db (owi_InstanceID wi)) -> continues db wi s ->
  tryMap MarshalHistoryEvent (NewEvents s) = inl payloads ->
  ownHistory db3 (owi_InstanceID wi) =
    (if ContinuedAsNew s then [] else ownHistory db (owi_InstanceID wi)) ++
    historyRows (owi_InstanceID wi) (Z.of_nat (length (OldEvents s))) payloads ->
  readHistory db3 (owi_InstanceID wi) = inl (history s).
Proof.
  intros Hn Hc Hp Ho. pose proof (saved_numbered db db3 wi s payloads Hn Hc Ho) as Hn3.
  unfold readHistory. rewrite historyPayloads_numbered, Ho, map_app, historyRows_payloads by done.
  unfold history. apply tryMap_app; [| by apply history_codec].
  unfold continues in Hc. destruct (ContinuedAsNew s); [by rewrite Hc |].
  unfold readHistory in Hc. by rewrite historyPayloads_numbered in Hc.
Qed.

(** The instance row after the UPDATE. *)
Lemma updated_row now wi s db db1 :
  NoDup (map ir_InstanceID (Instances db)) -> updateInstance now wi s db = (db1, Ok tt) ->
  exists r, ownInstance db1 (owi_InstanceID wi) = [r] /\
    ir_InstanceID r = owi_InstanceID wi /\
    ir_RuntimeStatus r = ToRuntimeStatusString (RuntimeStatus s) /\
    ir_LockExpiration r = None /\ ir_LastUpdatedTime r = now /\
    ir_LockedBy r = Some (owi_LockedBy wi).
Proof.
  intros Hn (u & Hu & -> & r & Hr & Hid & Hl)%updateInstance_Ok.
  exists (applyInstanceUpdate u s now r).
  assert (forall x, x = applyInstanceUpdate u s now r -> ir_InstanceID x = owi_InstanceID wi /\
    ir_RuntimeStatus x = ToRuntimeStatusString (RuntimeStatus s) /\ ir_LockExpiration x = None /\
    ir_LastUpdatedTime x = now /\ ir_LockedBy x = Some (owi_LockedBy wi)) as Hf.
  { intros x ->. unfold applyInstanceUpdate. repeat case_match; cbn; by split_and!. }
  split; [| by apply Hf]. unfold ownInstance. cbn. clear Hf.
  induction (Instances db) as [|x l IH]; [by apply elem_of_nil in Hr |]. cbn in *.
  apply NoDup_cons in Hn as [Hx Hn].
  assert (forall y, y ∈ l -> ir_InstanceID y <> ir_InstanceID x) as Hother.
  { intros y Hy Heq. apply Hx. rewrite <- Heq. by apply list_elem_of_fmap_2. }
  assert (forall y, ir_InstanceID (if ownedBy wi y then applyInstanceUpdate u s now y else y)
    = ir_InstanceID y) as Hkey.
  { intros y. case_match; [| done]. unfold applyInstanceUpdate. by repeat case_match. }
  rewrite Hkey. apply elem_of_cons in Hr as [<-|Hr].
  - rewrite Hid, String.eqb_refl. unfold ownedBy at 1.
    rewrite Hid, String.eqb_refl, (proj2 (sqlEq_true _ _) Hl). cbn. f_equal.
    apply filter_nil_iff. intros y Hy. apply list_elem_of_fmap in Hy as (z & -> & Hz).
    rewrite Hkey. apply String.eqb_neq. rewrite <- Hid. by apply Hother.
  - assert (ir_InstanceID x <> owi_InstanceID wi) as Hne
      by (rewrite <- Hid; apply not_eq_sym; by apply Hother).
    rewrite (proj2 (String.eqb_neq _ _) Hne). by apply IH.
Qed.

(** The tables once the history was saved are well-formed again. *)
Lemma saved_others db db1 db2 db3 now wi s id :
  updateInstance now wi s db = (db1, Ok tt) -> retireGeneration wi s db1 = (db2, Ok tt) ->
  saveHistory wi s db2 = (db3, Ok tt) -> id <> owi_InstanceID wi ->
  ownHistory db3 id = ownHistory db id.
Proof.
  intros (u & _ & -> & _)%updateInstance_Ok (_ & HH & _)%retireGeneration_Ok
    (payloads & _ & ->)%saveHistory_Ok Hne.
  unfold ownHistory at 1. cbn. rewrite HH, List.filter_app, historyRows_own.
  rewrite (proj2 (String.eqb_neq _ _) (not_eq_sym Hne)), app_nil_r.
  destruct (ContinuedAsNew s); [| done].
  by rewrite ownHistory_delete, (proj2 (String.eqb_neq _ _) Hne).
Qed.

Lemma saved_nonempty db db3 wi s payloads :
  numbered (ownHistory db (owi_InstanceID wi)) -> continues db wi s ->
  tryMap MarshalHistoryEvent (NewEvents s) = inl payloads -> history s <> [] ->
  ownHistory db3 (owi_InstanceID wi) =
    (if ContinuedAsNew s then [] else ownHistory db (owi_InstanceID wi)) ++
    historyRows (owi_InstanceID wi) (Z.of_nat (length (OldEvents s))) payloads ->
  ownHistory db3 (owi_InstanceID wi) <> [].
Proof.
  intros Hn Hc Hp Hne -> [H1 H2]%app_eq_nil. apply Hne. unfold history.
  apply (f_equal length) in H2. rewrite historyRows_length in H2. apply tryMap_length in Hp.
  rewrite Hp in H2. apply nil_length_inv in H2. rewrite H2, app_nil_r.
  unfold continues in Hc. destruct (ContinuedAsNew s); [done |].
  unfold readHistory in Hc. rewrite historyPayloads_numbered in Hc by done. rewrite H1 in Hc.
  by injection Hc as <-.
Qed.

Lemma updated_keys now wi s db db1 :
  updateInstance now wi s db = (db1, Ok tt) ->
  map ir_InstanceID (Instances db1) = map ir_InstanceID (Instances db).
Proof.
  intros (u & _ & -> & _)%updateInstance_Ok. cbn [Instances set_Instances].
  apply map_key_update. intros r. unfold applyInstanceUpdate. by repeat case_match.
Qed.

Lemma saved_wf now wi s db db1 db2 db3 :
  db_wf db -> continues db wi s ->
  (isFinalStatus (ToRuntimeStatusString (RuntimeStatus s)) = true -> history s <> []) ->
  updateInstance now wi s db = (db1, Ok tt) -> retireGeneration wi s db1 = (db2, Ok tt) ->
  saveHistory wi s db2 = (db3, Ok tt) -> db_wf db3.
Proof.
  intros [W1 W2 W3 W4 W5 W6] Hc Hf E1 E2 E3.
  destruct (saved_ownHistory _ _ _ _ _ _ _ E1 E2 E3) as (payloads & Hp & Ho).
  pose proof (saved_numbered _ _ _ _ _ (W4 (owi_InstanceID wi)) Hc Ho) as Hnum.
  pose proof (fun id => saved_others _ _ _ _ _ _ _ id E1 E2 E3) as Hoth.
  pose proof (updated_keys _ _ _ _ _ E1) as Hk.
  destruct (updateInstance_Ok _ _ _ _ _ E1) as (u & _ & -> & r0 & Hr0 & Hid0 & Hl0).
  destruct (retireGeneration_Ok _ _ _ _ E2) as (HI & HH & (pe & HE) & (pt & HT)).
  destruct (saveHistory_Ok _ _ _ _ E3) as (payloads' & _ & ->).
  split; cbn [Instances History NewEventsT NewTasks set_History].
  - by rewrite HI, Hk.
  - rewrite HE. by apply NoDup_filter_key.
  - rewrite HT. by apply NoDup_filter_key.
  - intros id. destruct (decide (id = owi_InstanceID wi)) as [->|Hne]; [done |].
    rewrite Hoth by done. apply W4.
  - intros h [Hh|Hh]%elem_of_app; rewrite HI, Hk.
    + apply W5. rewrite HH in Hh. destruct (ContinuedAsNew s); [| done].
      by apply deleteWhere_rows in Hh as [Hh _].
    + assert (hr_InstanceID h = owi_InstanceID wi) as ->.
      { clear -Hh. revert Hh. generalize (Z.of_nat (length (OldEvents s))).
        induction payloads' as [|x l IH]; intros n Hh; cbn in Hh; [by apply elem_of_nil in Hh |].
        apply elem_of_cons in Hh as [->|Hh]; [done | by eapply IH]. }
      rewrite <- Hid0. by apply list_elem_of_fmap_2.
  - intros r Hr Hfin. rewrite HI in Hr. cbn [Instances set_Instances] in Hr.
    apply updateWhere_rows in Hr as (x & Hx & ->).
    destruct (decide (ir_InstanceID x = owi_InstanceID wi)) as [Hown|Hne].
    + assert (x = r0) as -> by (eapply (key_inj ir_InstanceID); [exact W1 | done | done | congruence]).
      assert (ownedBy wi r0 = true) as Hb.
      { unfold ownedBy. rewrite Hid0, String.eqb_refl. by apply sqlEq_true. }
      rewrite Hb in Hfin |- *.
      assert (ir_InstanceID (applyInstanceUpdate u s now r0) = owi_InstanceID wi /\
        ir_RuntimeStatus (applyInstanceUpdate u s now r0) = ToRuntimeStatusString (RuntimeStatus s))
        as [-> Hst] by (unfold applyInstanceUpdate; by repeat case_match).
      rewrite Hst in Hfin. eapply saved_nonempty; [apply W4 | done | exact Hp | auto | exact Ho].
    + assert (ownedBy wi x = false) as Hb.
      { unfold ownedBy. by rewrite (proj2 (String.eqb_neq _ _) Hne). }
      rewrite Hb in Hfin |- *. rewrite Hoth by done. by apply W6.
Qed.

Lemma insertNewTask_wf iid payload : keepsD db_wf (insertNewTask iid payload).
Proof.
  intros db Hw. apply wf_set_tasks; [done |].
  rewrite map_app. cbn. apply NoDup_snoc; [apply (wf_tasks db Hw) | apply nextRowid_fresh].
Qed.

Lemma commit_wf now wi s db db' :
  db_wf db -> owi_State wi = Some s -> continues db wi s ->
  (isFinalStatus (ToRuntimeStatusString (RuntimeStatus s)) = true -> history s <> []) ->
  CompleteWorkflowWorkItem now wi (Some db) = (Some db', Ok tt) -> db_wf db'.
Proof.
  intros Hw Hs Hc Hf H.
  destruct (commit_stages _ _ _ _ _ Hs H) as (d0 & db1 & db2 & db3 & d' & [= <-] & [= <-] & E1 & E2 & E3 & E4).
  pose proof (saved_wf _ _ _ _ _ _ _ Hw Hc Hf E1 E2 E3) as H3.
  eapply commitRest_keeps; [| | | | exact H3 | exact E4].
  - apply insertNewTask_wf.
  - apply insertNewEvent_wf.
  - intros. apply createTarget_wf.
  - intros p d Hd. apply wf_set_events; [done |]. apply NoDup_filter_key. apply (wf_events d Hd).
Qed.
End Commit.

(** ** The backend as a transition system *)

Section Reach.
Context `{HC : ProtoCodec} `{HF : FailureCodec}.
Variable opts : SqliteOptions.

(** One call of a method on an open database.  [who] says which lease tokens the
    workers that take part use; a completion brings a state that continues the
    committed history. *)
Inductive sqlite_step (who : string -> Prop) : DB -> DB -> Prop :=
| step_create now e db db' :
    CreateWorkflowInstance now e (Some db) = (Some db', Ok tt) -> sqlite_step who db db'
| step_add iid e db db' :
    AddNewWorkflowEvent iid e (Some db) = (Some db', Ok tt) -> sqlite_step who db db'
| step_deliver iid name did e db db' :
    AddNewWorkflowEventWithExternalDelivery iid name did e (Some db) = (Some db', Ok tt) ->
    sqlite_step who db db'
| step_lease now token db db' r :
    who token -> getWorkflowWorkItem opts now token (Some db) = (Some db', r) -> sqlite_step who db db'
| step_abandon now wi db db' :
    AbandonWorkflowWorkItem now wi (Some db) = (Some db', Ok tt) -> sqlite_step who db db'
| step_complete now wi s db db' :
    who (owi_LockedBy wi) -> owi_State wi = Some s -> continues db wi s -> hist_inv s ->
    CompleteWorkflowWorkItem now wi (Some db) = (Some db', Ok tt) -> sqlite_step who db db'
| step_lease_task now token db db' r :
    getActivityWorkItem opts now token (Some db) = (Some db', r) -> sqlite_step who db db'
| step_complete_task wi db db' :
    CompleteActivityWorkItem wi (Some db) = (Some db', Ok tt) -> sqlite_step who db db'
| step_abandon_task wi db db' :
    AbandonActivityWorkItem wi (Some db) = (Some db', Ok tt) -> sqlite_step who db db'
| step_purge id router recursive force db db' n res :
    PurgeWorkflowState id router recursive force (Some db) = (Some db', n, res) -> sqlite_step who db db'.

Lemma transact_keeps {X} P (body : D X) db db' (r : outcome error X) :
  keepsD P body -> transact body (Some db) = (Some db', r) -> P db -> P db'.
Proof.
  intros Hk H Hw. specialize (Hk db Hw). unfold transact in H.
  destruct (body db) as [d [x | e | q]]; simplify_eq; done.
Qed.

(** What a lease keeps. *)
Lemma lease_keeps P now token timeout :
  (forall p (db : DB), P db ->
     P (set_NewEventsT (updateWhere p (lockEvent token) (NewEventsT db)).1 db)) ->
  (forall p (db : DB), P db -> P (set_NewEventsT (deleteWhere p (NewEventsT db)).1 db)) ->
  (forall p f (db : DB), f = lockInstance token (now + timeout) \/ f = unlockInstance -> P db ->
     P (set_Instances (updateWhere p f (Instances db)).1 db)) ->
  keepsD P (leaseWorkflow now token timeout).
Proof.
  intros H1 H2 H3. unfold leaseWorkflow. apply keepsD_bind; [by apply keepsD_same | intros db0].
  destruct (List.find (lockable db0 now) (Instances db0)) as [inst|]; [| by apply keepsD_same].
  apply keepsD_bind; [intros db Hw; apply H3; auto | intros _].
  apply keepsD_bind; [intros db Hw; by apply H1 | intros _].
  apply keepsD_bind; [by apply keepsD_same | intros db1].
  apply keepsD_bind; [apply keepsD_liftD | intros [[[dq stale] hasChild] mx]].
  apply keepsD_bind; [destruct hasChild; [apply keepsD_same, validate_same | apply keepsD_ret] | intros _].
  apply keepsD_bind; [intros db Hw; by apply H2 | intros _]. destruct dq; [| apply keepsD_ret].
  apply keepsD_bind; [intros db Hw; apply H3; auto | intros _; apply keepsD_ret].
Qed.

Lemma lease_wf now token timeout : keepsD db_wf (leaseWorkflow now token timeout).
Proof.
  apply lease_keeps.
  - intros p db Hw. apply wf_set_events; [done |]. rewrite map_key_update by done. apply (wf_events db Hw).
  - intros p db Hw. apply wf_set_events; [done |]. apply NoDup_filter_key, (wf_events db Hw).
  - intros p f db [-> | ->] Hw; by apply wf_set_instances.
Qed.

(** A final status is only reached with a history. *)
Lemma final_has_history s :
  hist_inv s -> isFinalStatus (ToRuntimeStatusString (RuntimeStatus s)) = true -> history s <> [].
Proof.
  intros Hi Hf Hh. pose proof (inv_start s Hi) as H1. pose proof (inv_completed s Hi) as H2.
  rewrite Hh in H1, H2. destruct (StartEvent s) eqn:E1; [done |]. destruct (CompletedEvent s) eqn:E2; [done |].
  unfold RuntimeStatus in Hf. rewrite E1 in Hf. repeat case_match; done.
Qed.

Lemma abandon_wf now wi db db' :
  AbandonWorkflowWorkItem now wi (Some db) = (Some db', Ok tt) -> db_wf db -> db_wf db'.
Proof.
  intros H Hw. unfold AbandonWorkflowWorkItem in H.
  apply transact_Ok in H as (d & d' & [= <-] & [= <-] & H).
  apply bind_Ok in H as (? & ? & E & H). injection E as <- <-.
  destruct (updateWhere _ _ (NewEventsT db)) as [rows n] eqn:Er. injection Er as <- _.
  destruct (n =? 0)%nat; [done |]. apply bind_Ok in H as (? & [] & E & H). injection E as <-.
  destruct (updateWhere _ unlockInstance (Instances db)) as [irows m] eqn:Ei.
  destruct (m =? 0)%nat; [done |]. injection H as <-. injection Ei as <- _.
  apply (wf_set_instances (set_NewEventsT _ db)); [done | done |].
  apply wf_set_events; [done |].
  rewrite map_map, (map_ext _ ne_SequenceNumber); [apply (wf_events db Hw) | intros r; by case_match].
Qed.

Lemma set_task_rows_wf db rows f p :
  (forall r, nt_SequenceNumber (f r) = nt_SequenceNumber r) -> db_wf db ->
  rows = (updateWhere p f (NewTasks db)).1 \/ rows = (deleteWhere p (NewTasks db)).1 ->
  db_wf (set_NewTasks rows db).
Proof.
  intros Hf Hw [-> | ->]; (apply wf_set_tasks; [done |]).
  - rewrite map_key_update by done. apply (wf_tasks db Hw).
  - apply NoDup_filter_key, (wf_tasks db Hw).
Qed.

Lemma complete_task_wf wi : keepsD db_wf (
  bytes ← liftD (match awi_Result wi with Some r => MarshalHistoryEvent r | None => inl "" end);
  insertNewEvent (awi_InstanceID wi) None bytes None;;
  db ← get;
  let '(rows, affected) := deleteWhere
    (fun t => (nt_SequenceNumber t =? awi_SequenceNumber wi) && sqlEq (nt_LockedBy t) (awi_LockedBy wi))
    (NewTasks db) in
  if (affected =? 0)%nat then throw ErrWorkItemLockLost else put (set_NewTasks rows db)).
Proof.
  apply keepsD_bind; [apply keepsD_liftD | intros bytes].
  apply keepsD_bind; [apply insertNewEvent_wf | intros _].
  intros db Hw. unfold mbind, M_bind, get. destruct (deleteWhere _ _) as [rows n] eqn:E.
  injection E as <- _. case_match; [done |]. by eapply (set_task_rows_wf _ _ id); [| | right].
Qed.

Lemma add_wf iid e db db' :
  AddNewWorkflowEvent iid e (Some db) = (Some db', Ok tt) -> db_wf db -> db_wf db'.
Proof.
  unfold AddNewWorkflowEvent. destruct (checkNewEvent e) as [x|]; [| done].
  destruct (MarshalHistoryEvent x); [| done]. apply transact_keeps, insertNewEvent_wf.
Qed.

Lemma deliver_wf iid name did e db db' :
  AddNewWorkflowEventWithExternalDelivery iid name did e (Some db) = (Some db', Ok tt) ->
  db_wf db -> db_wf db'.
Proof.
  unfold AddNewWorkflowEventWithExternalDelivery. destruct (checkNewEvent e) as [x|]; [| done].
  destruct (MarshalHistoryEvent x); [| done]. apply transact_keeps.
  apply keepsD_bind; [by apply keepsD_same | intros d]. case_match; [apply keepsD_ret |].
  apply keepsD_bind; [| intros _; apply insertNewEvent_wf]. intros d1 []. by split.
Qed.

Lemma sqlite_step_wf who db db' : sqlite_step who db db' -> db_wf db -> db_wf db'.
Proof.
  destruct 1 as [now e ? ? H | iid e ? ? H | iid name did e ? ? H | now token ? ? r _ H | now wi ? ? H
    | now wi s ? ? _ Hs Hc Hi H | now token ? ? r H | wi ? ? H | wi ? ? H | id rt rec force ? ? n res H];
    intros Hw.
  - eapply transact_keeps; [| exact H | done].
    apply keepsD_bind; [apply create_wf | intros i]. apply keepsD_bind; [by apply keepsD_same; destruct e | intros x].
    apply keepsD_bind; [apply keepsD_liftD | intros payload]. apply insertNewEvent_wf.
  - by eapply add_wf.
  - by eapply deliver_wf.
  - unfold getWorkflowWorkItem in H. destruct (transact _ _) as [be1 res] eqn:E.
    assert (be1 = Some db') as -> by (repeat case_match; by simplify_eq).
    eapply transact_keeps; [apply lease_wf | exact E | done].
  - by eapply abandon_wf.
  - eapply commit_wf; [exact Hw | exact Hs | exact Hc | by apply final_has_history | exact H].
  - unfold getActivityWorkItem in H. destruct (head _) as [t|]; [| by simplify_eq].
    injection H as <- _. by eapply (set_task_rows_wf _ _ (lockTask _ _)); [| | left].
  - eapply transact_keeps; [apply complete_task_wf | exact H | done].
  - eapply transact_keeps; [| exact H | done]. intros d Hd. unfold mbind, M_bind, get.
    destruct (updateWhere _ _ (NewTasks d)) as [rows n] eqn:E. injection E as <- _.
    case_match; [done |]. eapply set_task_rows_wf; [| done | left; reflexivity]. done.
  - unfold PurgeWorkflowState in H. case_match; [by simplify_eq |].
    destruct (transact _ _) as [be1 r] eqn:E. assert (be1 = Some db') as -> by (repeat case_match; by simplify_eq).
    eapply transact_keeps; [apply cleanup_wf | exact E | done].
Qed.

(** *** What a lease protects *)

Section Protected.
Variables (id token : string) (h : list HistoryRow).

(** The instance is locked under [token]. *)
Definition holdsLease (db : DB) : Prop :=
  exists r, r ∈ Instances db /\ ir_InstanceID r = id /\ ir_LockedBy r = Some token.

(** While it is, its history is [h]. *)
Definition protected (db : DB) : Prop := db_wf db /\ (holdsLease db -> ownHistory db id = h).

Lemma protected_frame db db' :
  protected db -> db_wf db' -> History db' = History db ->
  (forall r, r ∈ Instances db' -> ir_LockedBy r = Some token ->
     exists x, x ∈ Instances db /\ ir_InstanceID x = ir_InstanceID r /\ ir_LockedBy x = Some token) ->
  protected db'.
Proof.
  intros [Hw Hp] Hw' HH HI. split; [done |]. intros (r & Hr & Hid & Hl).
  unfold ownHistory. rewrite HH. apply Hp. destruct (HI r Hr Hl) as (x & Hx & E & Hxl).
  exists x. split_and!; [done | congruence | done].
Qed.

(** Rows that are kept, or updated without being locked under [token]. *)
Lemma update_not_granting p f (rows : list InstanceRow) :
  (forall r, ir_InstanceID (f r) = ir_InstanceID r) ->
  (forall r, p r = true -> ir_LockedBy (f r) = Some token -> ir_LockedBy r = Some token) ->
  forall r, r ∈ (updateWhere p f rows).1 -> ir_LockedBy r = Some token ->
  exists x, x ∈ rows /\ ir_InstanceID x = ir_InstanceID r /\ ir_LockedBy x = Some token.
Proof.
  intros H1 H2 r (x & Hx & ->)%updateWhere_rows Hl. exists x.
  destruct (p x) eqn:E; split_and!; rewrite ?H1; auto.
Qed.

Lemma create_protected now e : keepsD protected (createWorkflowInstanceInternal now e).
Proof.
  intros db Hp. pose proof (create_wf now e db (proj1 Hp)) as Hw.
  eapply protected_frame; [exact Hp | exact Hw | |]; revert Hw;
    unfold createWorkflowInstanceInternal, mbind, M_bind;
    (destruct e as [e|]; [| by eauto]); (destruct (Timestamp e); [| by eauto]);
    (destruct (GetExecutionStarted e) as [es|]; [| by eauto]);
    (destruct (es_WorkflowInstance es) as [w|]; [| by eauto]); cbn;
    unfold insertOrIgnoreInstance; (destruct (findInstance db (wi_InstanceId w)); [by eauto |]);
    cbn; [done |].
  intros _ r [Hr|Hr%list_elem_of_singleton]%elem_of_app Hl; [by eauto | by subst r].
Qed.

Lemma cleanup_protected id' req : keepsD protected (cleanupWorkflowStateInternal id' req).
Proof.
  intros db [Hw Hp]. pose proof (cleanup_wf id' req db Hw) as Hw'.
  destruct (cleanupWorkflowStateInternal id' req db) as [db' [[] | err | q]] eqn:E; cbn [fst] in *.
  - destruct (cleanup_Ok _ _ _ _ E (wf_ids db Hw)) as (r & _ & _ & _ & HI & HH & _).
    split; [done |]. intros (x & Hx & Hid & Hl). rewrite HI in Hx.
    apply deleteWhere_rows in Hx as [Hx Hne]. unfold ownHistory.
    rewrite HH, ownHistory_delete. rewrite Hid in Hne. rewrite Hne. apply Hp. by exists x.
  - apply cleanup_err in E as ->. by split.
  - revert E. unfold cleanupWorkflowStateInternal. destruct (findInstance db id'); [| done].
    destruct (deleteWhere _ (Instances db)). by case_match.
Qed.

Lemma commitRest_protected now wi s db db' :
  protected db -> commitRest now wi s db = (db', Ok tt) -> protected db'.
Proof.
  apply commitRest_keeps.
  - intros iid payload d Hd. eapply protected_frame; [exact Hd | | done | by eauto].
    apply insertNewTask_wf, Hd.
  - intros iid g payload v d Hd. eapply protected_frame; [exact Hd | | done | by eauto].
    apply insertNewEvent_wf, Hd.
  - intros msg es _ _. apply createTarget_keeps; [apply create_protected | intros; apply cleanup_protected].
  - intros p d Hd. eapply protected_frame; [exact Hd | | done | by eauto].
    apply wf_set_events; [apply Hd |]. apply NoDup_filter_key, wf_events, Hd.
Qed.

(** Commits under other tokens. *)
Lemma commit_protected now wi s db db' :
  protected db -> owi_LockedBy wi <> token -> owi_State wi = Some s -> continues db wi s ->
  hist_inv s -> CompleteWorkflowWorkItem now wi (Some db) = (Some db', Ok tt) -> protected db'.
Proof.
  intros [Hw Hp] Hne Hs Hc Hi H.
  destruct (commit_stages _ _ _ _ _ Hs H)
    as (d0 & db1 & db2 & db3 & d' & [= <-] & [= <-] & E1 & E2 & E3 & E4).
  eapply commitRest_protected; [| exact E4]. split.
  { eapply saved_wf; [exact Hw | exact Hc | by apply final_has_history | exact E1 | exact E2 | exact E3]. }
  intros (r & Hr & Hid & Hl).
  pose proof (saveHistory_Ok _ _ _ _ E3) as (payloads & _ & ->). cbn [Instances set_History] in Hr.
  pose proof (retireGeneration_Ok _ _ _ _ E2) as (HI & _). rewrite HI in Hr.
  pose proof (updateInstance_Ok _ _ _ _ _ E1) as (u & _ & Hdb1 & r0 & Hr0 & Hid0 & Hl0). subst db1.
  cbn [Instances set_Instances] in Hr.
  assert (exists x, x ∈ Instances db /\ ir_InstanceID x = ir_InstanceID r /\ ir_LockedBy x = Some token)
    as (x & Hx & Hxid & Hxl).
  { eapply update_not_granting; [| | exact Hr | exact Hl]; intros y; unfold applyInstanceUpdate;
      by repeat case_match. }
  assert (id <> owi_InstanceID wi) as Hother.
  { intros Heq. assert (x = r0) as ->; [| congruence].
    eapply (key_inj ir_InstanceID); [apply (wf_ids db Hw) | done | done | congruence]. }
  rewrite (saved_others _ _ _ _ _ _ _ id E1 E2 E3) by done. apply Hp. exists x. by rewrite Hxid.
Qed.

(** Steps that do not touch the history and do not grant the lease. *)
Definition harmless (db db' : DB) : Prop :=
  History db' = History db /\
  forall r, r ∈ Instances db' -> ir_LockedBy r = Some token ->
    exists x, x ∈ Instances db /\ ir_InstanceID x = ir_InstanceID r /\ ir_LockedBy x = Some token.

Lemma harmless_same db db' :
  History db' = History db -> Instances db' = Instances db -> harmless db db'.
Proof. intros H1 H2. split; [done |]. rewrite H2. eauto. Qed.

Lemma harmless_update db0 db p f :
  harmless db0 db -> (forall r, ir_InstanceID (f r) = ir_InstanceID r) ->
  (forall r, ir_LockedBy (f r) = Some token -> ir_LockedBy r = Some token) ->
  harmless db0 (set_Instances (updateWhere p f (Instances db)).1 db).
Proof.
  intros [H1 H2] Hf1 Hf2. split; [done |]. intros r Hr Hl.
  destruct (update_not_granting p f (Instances db) Hf1 (fun r _ => Hf2 r) r Hr Hl)
    as (x & Hx & Hid & Hxl).
  destruct (H2 x Hx Hxl) as (y & ? & ? & ?). exists y. split_and!; congruence.
Qed.

Lemma lease_harmless now token' timeout db0 :
  token' <> token -> keepsD (harmless db0) (leaseWorkflow now token' timeout).
Proof.
  intros Hne. apply lease_keeps; [done.. |]. intros p f db [-> | ->] Hd;
    (apply harmless_update; [done | done |]); cbn; congruence.
Qed.

Lemma abandon_harmless now wi db db' :
  AbandonWorkflowWorkItem now wi (Some db) = (Some db', Ok tt) -> harmless db db'.
Proof.
  intros H. unfold AbandonWorkflowWorkItem in H.
  apply transact_Ok in H as (d & d' & [= <-] & [= <-] & H).
  apply bind_Ok in H as (? & ? & E & H). injection E as <- <-.
  destruct (updateWhere _ _ (NewEventsT db)) as [rows n].
  destruct (n =? 0)%nat; [done |]. apply bind_Ok in H as (? & [] & E & H). injection E as <-.
  destruct (updateWhere _ unlockInstance (Instances db)) as [irows m] eqn:Ei.
  destruct (m =? 0)%nat; [done |]. injection H as <-. injection Ei as <- _.
  apply (harmless_update _ (set_NewEventsT rows db)); [by apply harmless_same | done | done].
Qed.

Lemma step_protected db db' :
  sqlite_step (fun t => t <> token) db db' -> protected db -> protected db'.
Proof.
  intros Hstep Hp. pose proof (sqlite_step_wf _ _ _ Hstep (proj1 Hp)) as Hw'.
  assert (harmless db db' -> protected db') as Hfr.
  { intros [HH HI]. by eapply protected_frame. }
  destruct Hstep as [now e ? ? H | iid e ? ? H | iid name did e ? ? H | now tok ? ? r Ht H | now wi ? ? H
    | now wi s ? ? Ht Hs Hc Hi H | now tok ? ? r H | wi ? ? H | wi ? ? H | id' rt rec force ? ? n res H].
  - eapply transact_keeps; [| exact H | exact Hp].
    apply keepsD_bind; [apply create_protected | intros i].
    apply keepsD_bind; [by apply keepsD_same; destruct e | intros x].
    apply keepsD_bind; [apply keepsD_liftD | intros payload].
    intros d Hd. eapply protected_frame; [exact Hd | apply insertNewEvent_wf, Hd | done | eauto].
  - apply Hfr. unfold AddNewWorkflowEvent in H. repeat case_match; try done. cbn in H. simplify_eq.
    by apply harmless_same.
  - apply Hfr. unfold AddNewWorkflowEventWithExternalDelivery in H.
    destruct (checkNewEvent e) as [x|]; [| done]. destruct (MarshalHistoryEvent x) as [pl|]; [| done].
    unfold unchecked in H. apply transact_Ok in H as (? & ? & [= <-] & [= <-] & H). apply bind_Ok in H as (? & ? & E & H).
    injection E as <- <-. case_match; injection H as <-; by apply harmless_same.
  - apply Hfr. unfold getWorkflowWorkItem in H. destruct (transact _ _) as [be1 res] eqn:E.
    assert (be1 = Some db') as -> by (repeat case_match; by simplify_eq).
    eapply transact_keeps; [by apply lease_harmless | exact E | by apply harmless_same].
  - apply Hfr. by eapply abandon_harmless.
  - by eapply commit_protected.
  - apply Hfr. unfold getActivityWorkItem in H. destruct (head _) as [t|]; [| simplify_eq; by apply harmless_same].
    injection H as <- _. by apply harmless_same.
  - apply Hfr. unfold CompleteActivityWorkItem in H.
    apply transact_Ok in H as (? & ? & [= <-] & [= <-] & H).
    apply bind_Ok in H as (? & bytes & E & H). apply liftD_Ok in E as [-> _].
    apply bind_Ok in H as (? & [] & E & H). injection E as <-.
    apply bind_Ok in H as (? & ? & E & H). injection E as <- <-.
    destruct (deleteWhere _ _) as [rows n]. case_match; [done |]. injection H as <-. by apply harmless_same.
  - apply Hfr. unfold AbandonActivityWorkItem in H.
    apply transact_Ok in H as (? & ? & [= <-] & [= <-] & H).
    apply bind_Ok in H as (? & ? & E & H). injection E as <- <-.
    destruct (updateWhere _ _ _) as [rows n]. case_match; [done |]. injection H as <-. by apply harmless_same.
  - unfold PurgeWorkflowState in H. case_match; [by simplify_eq |].
    destruct (transact _ _) as [be1 r] eqn:E. assert (be1 = Some db') as -> by (repeat case_match; by simplify_eq).
    eapply transact_keeps; [apply cleanup_protected | exact E | exact Hp].
Qed.
End Protected.
End Reach.
