(* ===== verification/SqliteTheorems.v ===== *)
(** * The SQLite backend: its contract

    What the engine relies on: the tables stay well-formed, a lease protects the
    history it was taken for, a committed turn is what is read back, a work item
    is settled at most once, and a purge removes exactly one finished instance. *)

From stdpp Require Import base list option strings gmap sets sorting relations.
From Stdlib Require Import ZArith Lia.
From S2P Require Import Prelude Errors Protos Dedup RuntimeState Propagation Helpers Backend Sqlite.
From S2P Require Import SqliteCorrect SqliteCommit.

(** ** Acknowledged work items *)

Section Settled.
Context `{HC : ProtoCodec} `{HF : FailureCodec}.
Variable opts : SqliteOptions.
Variables id token : string.

(** No queued event of the instance is leased under [token]. *)
Definition notLeased (db : DB) : Prop :=
  forall e, e ∈ NewEventsT db -> ne_InstanceID e = id -> ne_LockedBy e <> Some token.

Lemma notLeased_filter db p v :
  notLeased db -> NewEventsT v = List.filter p (NewEventsT db) -> notLeased v.
Proof.
  intros H E e He. rewrite E, list_elem_of_In, filter_In, <- list_elem_of_In in He. by apply H, He.
Qed.

Lemma notLeased_same db v : notLeased db -> NewEventsT v = NewEventsT db -> notLeased v.
Proof. intros H E e He. rewrite E in He. by apply H. Qed.

Lemma notLeased_insert iid g payload v : keepsD notLeased (insertNewEvent iid g payload v).
Proof.
  intros db H e [He|He%list_elem_of_singleton]%elem_of_app; [by apply H | by subst e].
Qed.

Lemma create_events now e db : NewEventsT (createWorkflowInstanceInternal now e db).1 = NewEventsT db.
Proof.
  unfold createWorkflowInstanceInternal, mbind, M_bind, insertOrIgnoreInstance.
  destruct e as [e|]; [| done]. destruct (Timestamp e); [| done].
  destruct (GetExecutionStarted e) as [es|]; [| done].
  destruct (es_WorkflowInstance es) as [w|]; [| done]. cbn. by destruct (findInstance db _).
Qed.

Lemma create_notLeased now e : keepsD notLeased (createWorkflowInstanceInternal now e).
Proof. intros db H. eapply notLeased_same; [exact H | apply create_events]. Qed.

Lemma cleanup_notLeased id' req : keepsD notLeased (cleanupWorkflowStateInternal id' req).
Proof.
  intros db H. unfold cleanupWorkflowStateInternal. destruct (findInstance db id'); [| done].
  destruct (deleteWhere _ (Instances db)). case_match; [done |]. by eapply notLeased_filter.
Qed.

Lemma commitRest_notLeased now wi s db db' :
  notLeased db -> commitRest now wi s db = (db', Ok tt) -> notLeased db'.
Proof.
  apply commitRest_keeps.
  - intros iid payload d Hd. by eapply notLeased_same.
  - apply notLeased_insert.
  - intros msg es _ _. apply createTarget_keeps; [apply create_notLeased | intros; apply cleanup_notLeased].
  - intros p d Hd. by eapply notLeased_filter.
Qed.

(** Until the acknowledgement a commit only drops leases. *)
Lemma commit_notLeased now wi s db db' :
  owi_State wi = Some s -> notLeased db ->
  CompleteWorkflowWorkItem now wi (Some db) = (Some db', Ok tt) -> notLeased db'.
Proof.
  intros Hs Hd H. destruct (commit_stages _ _ _ _ _ Hs H)
    as (d0 & db1 & db2 & db3 & d' & [= <-] & [= <-] & E1 & E2 & E3 & E4).
  eapply commitRest_notLeased; [| exact E4].
  pose proof (saveHistory_Ok _ _ _ _ E3) as (payloads & _ & ->).
  pose proof (retireGeneration_Ok _ _ _ _ E2) as (_ & _ & (p & HE) & _).
  pose proof (updateInstance_Ok _ _ _ _ _ E1) as (u & _ & -> & _).
  eapply notLeased_filter; [exact Hd | exact HE].
Qed.

Lemma lease_notLeased now token' timeout :
  token' <> token -> keepsD notLeased (leaseWorkflow now token' timeout).
Proof.
  intros Hne. apply lease_keeps.
  - intros p db Hd e (x & Hx & ->)%updateWhere_rows. cbn.
    destruct (p x); [cbn; congruence | by apply Hd].
  - intros p db Hd. by eapply notLeased_filter.
  - intros p f db _ Hd. by eapply notLeased_same.
Qed.

(** What an abandoned lease leaves in the queue. *)
Lemma abandon_events now wi db db' :
  AbandonWorkflowWorkItem now wi (Some db) = (Some db', Ok tt) ->
  exists v, NewEventsT db' = (updateWhere
    (fun e => String.eqb (ne_InstanceID e) (owi_InstanceID wi) && sqlEq (ne_LockedBy e) (owi_LockedBy wi))
    (fun e => mkNewEventRow (ne_SequenceNumber e) (ne_InstanceID e) (ne_ExecutionID e) v
                (ne_DequeueCount e) None (ne_EventPayload e)) (NewEventsT db)).1.
Proof.
  intros H. unfold AbandonWorkflowWorkItem in H.
  apply transact_Ok in H as (d & d' & [= <-] & [= <-] & H).
  apply bind_Ok in H as (? & ? & E & H). injection E as <- <-.
  destruct (updateWhere _ _ (NewEventsT db)) as [rows n] eqn:Er. injection Er as <- _.
  destruct (n =? 0)%nat; [done |]. apply bind_Ok in H as (? & [] & E & H). injection E as <-.
  destruct (updateWhere _ unlockInstance (Instances db)) as [irows m].
  destruct (m =? 0)%nat; [done |]. injection H as <-. eexists. reflexivity.
Qed.

Lemma abandon_notLeased now wi db db' :
  AbandonWorkflowWorkItem now wi (Some db) = (Some db', Ok tt) -> notLeased db -> notLeased db'.
Proof.
  intros (v & E)%abandon_events Hd e He. rewrite E in He. apply updateWhere_rows in He as (x & Hx & ->).
  case_match; [done | by apply Hd].
Qed.

Lemma step_notLeased db db' :
  sqlite_step opts (fun t => t <> token) db db' -> notLeased db -> notLeased db'.
Proof.
  destruct 1 as [now e ? ? H | iid e ? ? H | iid name did e ? ? H | now tok ? ? r Ht H | now wi ? ? H
    | now wi s ? ? Ht Hs Hc Hi H | now tok ? ? r H | wi ? ? H | wi ? ? H | id' rt rec force ? ? n res H];
    intros Hd.
  - eapply transact_keeps; [| exact H | exact Hd].
    apply keepsD_bind; [apply create_notLeased | intros i].
    apply keepsD_bind; [by apply keepsD_same; destruct e | intros x].
    apply keepsD_bind; [apply keepsD_liftD | intros payload; apply notLeased_insert].
  - unfold AddNewWorkflowEvent in H. destruct (checkNewEvent e) as [x|]; [| done].
    destruct (MarshalHistoryEvent x); [| done].
    eapply transact_keeps; [| exact H | exact Hd]. apply notLeased_insert.
  - unfold AddNewWorkflowEventWithExternalDelivery in H. destruct (checkNewEvent e) as [x|]; [| done].
    destruct (MarshalHistoryEvent x); [| done]. eapply transact_keeps; [| exact H | exact Hd].
    apply keepsD_bind; [by apply keepsD_same | intros d]. case_match; [apply keepsD_ret |].
    apply keepsD_bind; [intros d1 Hd1; by eapply notLeased_same | intros _; apply notLeased_insert].
  - unfold getWorkflowWorkItem in H. destruct (transact _ _) as [be1 res] eqn:E.
    assert (be1 = Some db') as -> by (repeat case_match; by simplify_eq).
    eapply transact_keeps; [by apply lease_notLeased | exact E | exact Hd].
  - by eapply abandon_notLeased.
  - by eapply commit_notLeased.
  - unfold getActivityWorkItem in H. destruct (head _) as [t|]; [| by simplify_eq].
    injection H as <- _. by eapply notLeased_same.
  - eapply transact_keeps; [| exact H | exact Hd].
    apply keepsD_bind; [apply keepsD_liftD | intros bytes].
    apply keepsD_bind; [apply notLeased_insert | intros _]. intros d Hd1. unfold mbind, M_bind, get.
    destruct (deleteWhere _ _). case_match; [done | by eapply notLeased_same].
  - eapply transact_keeps; [| exact H | exact Hd]. intros d Hd1. unfold mbind, M_bind, get.
    destruct (updateWhere _ _ _). case_match; [done | by eapply notLeased_same].
  - unfold PurgeWorkflowState in H. case_match; [by simplify_eq |].
    destruct (transact _ _) as [be1 r] eqn:E. assert (be1 = Some db') as -> by (repeat case_match; by simplify_eq).
    eapply transact_keeps; [apply cleanup_notLeased | exact E | exact Hd].
Qed.
End Settled.

Section Once.
Context `{HC : ProtoCodec} `{HF : FailureCodec}.
Variable opts : SqliteOptions.

(** Only a work item with a state can be committed, to an open database. *)
Lemma commit_has_state now wi db be' :
  CompleteWorkflowWorkItem now wi (Some db) = (be', Ok tt) ->
  exists s db', owi_State wi = Some s /\ be' = Some db'.
Proof.
  intros H. unfold CompleteWorkflowWorkItem in H. apply transact_Ok in H as (d & d' & _ & -> & H).
  apply bind_Ok in H as (? & s & H & _). apply deref_Ok in H as [_ H]. eauto.
Qed.

(** Settling a work item releases its events. *)
Lemma settled_notLeased now wi db db' :
  CompleteWorkflowWorkItem now wi (Some db) = (Some db', Ok tt) \/
  AbandonWorkflowWorkItem now wi (Some db) = (Some db', Ok tt) ->
  notLeased (owi_InstanceID wi) (owi_LockedBy wi) db'.
Proof.
  intros [H|H] e He Hid.
  - destruct (commit_has_state _ _ _ _ H) as (s & ? & Hs & _).
    destruct (commit_stages _ _ _ _ _ Hs H) as (? & ? & ? & db3 & ? & _ & [= <-] & _ & _ & _ & E).
    apply bind_Ok in E as (? & [] & _ & E). apply bind_Ok in E as (? & [] & _ & E).
    apply bind_Ok in E as (db4 & [] & _ & E). apply deleteInbound_Ok in E as [-> _].
    apply deleteWhere_rows in He as [_ Hne]. rewrite Hid, String.eqb_refl in Hne. cbn in Hne.
    intros Hl. by rewrite (proj2 (sqlEq_true _ _) Hl) in Hne.
  - apply abandon_events in H as (v & E). rewrite E in He. apply updateWhere_rows in He as (x & Hx & ->).
    revert Hid. case_match eqn:B; [done |]. intros Hid Hl. rewrite Hid, String.eqb_refl in B. cbn in B.
    by rewrite (proj2 (sqlEq_true _ _) Hl) in B.
Qed.

(** Without leased events neither settlement goes through. *)
Lemma notLeased_refused now wi db :
  notLeased (owi_InstanceID wi) (owi_LockedBy wi) db ->
  is_Ok (CompleteWorkflowWorkItem now wi (Some db)).2 = false /\
  AbandonWorkflowWorkItem now wi (Some db) = (Some db, Err ErrWorkItemLockLost).
Proof.
  intros Hd. split.
  - destruct (CompleteWorkflowWorkItem now wi (Some db)) as [be2 [[] | e | q]] eqn:H; [| done..].
    exfalso. destruct (commit_has_state _ _ _ _ H) as (s & ? & Hs & ->).
    destruct (commit_stages _ _ _ _ _ Hs H)
      as (? & db1 & db2 & db3 & ? & [= <-] & [= <-] & E1 & E2 & E3 & E4).
    apply bind_Ok in E4 as (db4 & [] & E4 & E). apply bind_Ok in E as (db5 & [] & E5 & E).
    apply bind_Ok in E as (db6 & [] & E6 & E). apply deleteInbound_Ok in E as [_ (e & He & Hid & Hl)].
    assert (notLeased (owi_InstanceID wi) (owi_LockedBy wi) db6) as Hd6; [| by eapply Hd6].
    eapply keepsD_Ok; [| | exact E6].
    { apply saveEvents_keeps; [apply notLeased_insert |]. intros msg es _ _.
      apply createTarget_keeps; [apply create_notLeased | intros; apply cleanup_notLeased]. }
    eapply keepsD_Ok; [apply saveChildResults_keeps, notLeased_insert | | exact E5].
    eapply keepsD_Ok; [apply saveTasks_keeps; intros iid pl d0 Hd0; by eapply notLeased_same | | exact E4].
    pose proof (saveHistory_Ok _ _ _ _ E3) as (payloads & _ & ->).
    pose proof (retireGeneration_Ok _ _ _ _ E2) as (_ & _ & (p & HE) & _).
    pose proof (updateInstance_Ok _ _ _ _ _ E1) as (u & _ & -> & _).
    eapply notLeased_filter; [exact Hd | exact HE].
  - unfold AbandonWorkflowWorkItem, transact, mbind, M_bind, get.
    destruct (updateWhere _ _ (NewEventsT db)) as [rows n] eqn:E.
    assert (n = 0%nat) as ->; [| done]. injection E as _ <-. apply filter_none. intros e He.
    destruct (String.eqb_spec (ne_InstanceID e) (owi_InstanceID wi)) as [Hid|]; [| done]. cbn.
    specialize (Hd e He Hid). destruct (ne_LockedBy e) as [t|]; [| done]. cbn.
    apply String.eqb_neq. congruence.
Qed.


(** Between a lease and its commit the history does not change. *)
Lemma leased_history_stable now wi token db db1 db2 :
  db_wf db -> rtc (sqlite_step opts (fun t => t <> token)) db db1 ->
  holdsLease (owi_InstanceID wi) token db -> owi_LockedBy wi = token ->
  CompleteWorkflowWorkItem now wi (Some db1) = (Some db2, Ok tt) ->
  readHistory db1 (owi_InstanceID wi) = readHistory db (owi_InstanceID wi).
Proof.
  intros Hw Hr Hl Ht H.
  assert (protected (owi_InstanceID wi) token (ownHistory db (owi_InstanceID wi)) db1) as [Hw1 Hp].
  { assert (protected (owi_InstanceID wi) token (ownHistory db (owi_InstanceID wi)) db) as Hp by done.
    revert Hp. generalize (ownHistory db (owi_InstanceID wi)). intros h. clear -Hr HC HF.
    induction Hr as [|d1 d2 d3 Hs _ IH]; [done |]. intros Hp. apply IH. by eapply step_protected. }
  destruct (commit_has_state _ _ _ _ H) as (s & ? & Hs & _).
  destruct (commit_stages _ _ _ _ _ Hs H) as (? & ? & ? & ? & ? & [= <-] & _ & E1 & _).
  apply updateInstance_Ok in E1 as (_ & _ & _ & r & Hr1 & Hr2 & Hr3).
  unfold readHistory. rewrite !historyPayloads_numbered by (by apply wf_seqs).
  rewrite Hp; [done |]. exists r. split_and!; congruence.
Qed.

(** C6. A lease protects the history: if the holder of a lease can still commit
    after other workers, clients and purges did whatever they like under other
    tokens, then the history of the instance is still the one the lease saw. *)
Theorem lease_protects_history now wi token db db1 db2 :
  db_wf db -> rtc (sqlite_step opts (fun t => t <> token)) db db1 ->
  holdsLease (owi_InstanceID wi) token db -> owi_LockedBy wi = token ->
  CompleteWorkflowWorkItem now wi (Some db1) = (Some db2, Ok tt) ->
  readHistory db1 (owi_InstanceID wi) = readHistory db (owi_InstanceID wi).
Proof. apply leased_history_stable. Qed.

(** The single row of an instance is the one that is found. *)
Lemma ownInstance_find db id r :
  ownInstance db id = [r] -> findInstance db id = Some r.
Proof.
  unfold ownInstance, findInstance. induction (Instances db) as [|x l IH]; cbn; [done |].
  destruct (String.eqb (ir_InstanceID x) id); [by intros [= ->] | exact IH].
Qed.

(** The rows a commit leaves behind. *)
Lemma commit_reads_back `{HCok : !ProtoCodecOk} now wi s db db' :
  db_wf db -> owi_State wi = Some s -> continues db wi s ->
  Forall (fun m => startsSelf wi m = false) (PendingMessages s) ->
  CompleteWorkflowWorkItem now wi (Some db) = (Some db', Ok tt) ->
  readHistory db' (owi_InstanceID wi) = inl (history s) /\
  exists r, ownInstance db' (owi_InstanceID wi) = [r] /\
    ir_RuntimeStatus r = ToRuntimeStatusString (RuntimeStatus s) /\
    ir_LastUpdatedTime r = now /\ ir_LockExpiration r = None.
Proof.
  intros Hw Hs Hc HS H.
  destruct (commit_stages _ _ _ _ _ Hs H)
    as (d0 & db1 & db2 & db3 & d' & [= <-] & [= <-] & E1 & E2 & E3 & E4).
  destruct (saved_ownHistory _ _ _ _ _ _ _ E1 E2 E3) as (payloads & Hp & Ho).
  destruct (updated_row _ _ _ _ _ (wf_ids db Hw) E1) as (r & Hr & Hid & Hst & Hle & Hlu & _).
  assert (ownRows (owi_InstanceID wi) ([r], ownHistory db3 (owi_InstanceID wi)) db') as [HI HH].
  { eapply commitRest_ownRows; [exact HS | | exact E4]. split; [| done]. cbn. rewrite <- Hr.
    pose proof (saveHistory_Ok _ _ _ _ E3) as (? & _ & ->).
    pose proof (retireGeneration_Ok _ _ _ _ E2) as (HI & _). unfold ownInstance. cbn. by rewrite HI. }
  pose proof (saved_reads db db' wi s payloads (wf_seqs db Hw _) Hc Hp) as Hrd.
  cbn in HH. rewrite HH in Hrd. split; [exact (Hrd Ho) |]. exists r. by split_and!.
Qed.

(** C4. A committed turn is what is read back: after the commit of a turn that
    continues the stored history (and starts no instance under its own id), the
    stored history is the log of the turn's final state, a reload is the reload of
    that log, the metadata row has the turn's status and time and is unlocked, and
    the events of the lease are acknowledged. *)
Theorem commit_roundtrip `{HCok : !ProtoCodecOk} now wi s db db' :
  db_wf db -> owi_State wi = Some s -> continues db wi s ->
  Forall (fun m => startsSelf wi m = false) (PendingMessages s) ->
  CompleteWorkflowWorkItem now wi (Some db) = (Some db', Ok tt) ->
  GetInstanceHistory (owi_InstanceID wi) (Some db') = inl (history s) /\
  GetWorkflowRuntimeState (owi_InstanceID wi) (Some db') =
    inl (NewWorkflowRuntimeState (owi_InstanceID wi) None (history s)) /\
  (exists r, findInstance db' (owi_InstanceID wi) = Some r /\
     ir_RuntimeStatus r = ToRuntimeStatusString (RuntimeStatus s) /\
     ir_LastUpdatedTime r = now /\ ir_LockExpiration r = None) /\
  notLeased (owi_InstanceID wi) (owi_LockedBy wi) db'.
Proof.
  intros Hw Hs Hc HS H. destruct (commit_reads_back now wi s db db' Hw Hs Hc HS H) as (Hrd & r & HI & Hr).
  split_and!; [exact Hrd | cbn; by rewrite Hrd | | by eapply settled_notLeased; left].
  exists r. split; [by apply ownInstance_find | exact Hr].
Qed.

(** A work item is settled at most once: after it was completed or abandoned,
    and whatever happens under other tokens, completing it again fails without
    changing the tables, and abandoning it reports the lost lease. *)
Theorem work_item_settles_once now now' wi wi' db db1 db2 :
  CompleteWorkflowWorkItem now wi (Some db) = (Some db1, Ok tt) \/
  AbandonWorkflowWorkItem now wi (Some db) = (Some db1, Ok tt) ->
  rtc (sqlite_step opts (fun t => t <> owi_LockedBy wi)) db1 db2 ->
  owi_InstanceID wi' = owi_InstanceID wi -> owi_LockedBy wi' = owi_LockedBy wi ->
  (CompleteWorkflowWorkItem now' wi' (Some db2)).1 = Some db2 /\
  is_Ok (CompleteWorkflowWorkItem now' wi' (Some db2)).2 = false /\
  AbandonWorkflowWorkItem now' wi' (Some db2) = (Some db2, Err ErrWorkItemLockLost).
Proof.
  intros Hset Hr Hid Ht. apply settled_notLeased in Hset.
  assert (notLeased (owi_InstanceID wi') (owi_LockedBy wi') db2) as Hd.
  { rewrite Hid, Ht. clear -Hr Hset. induction Hr as [|d1 d2 d3 Hs _ IH]; [done |].
    apply IH. by eapply step_notLeased. }
  destruct (notLeased_refused now' wi' db2 Hd) as [H1 H2].
  split_and!; [by apply transact_rollback | done | done].
Qed.
End Once.

(** ** Restarting under the own id *)

Section SelfRestart.
Context `{HC : ProtoCodec} `{HF : FailureCodec}.
Variables id token : string.

(** Either the lease is gone, or the instance has a final status. *)
Definition doomed (db : DB) : Prop :=
  notLeased id token db \/
  NoDup (map ir_InstanceID (Instances db)) /\
  exists r, r ∈ Instances db /\ ir_InstanceID r = id /\ isFinalStatus (ir_RuntimeStatus r) = true.

Lemma create_doomed now e : keepsD doomed (createWorkflowInstanceInternal now e).
Proof.
  intros db [Hd|[Hn (r & Hr & Hid & Hf)]]; [left; by apply create_notLeased | right].
  unfold createWorkflowInstanceInternal, mbind, M_bind, insertOrIgnoreInstance.
  destruct e as [e|]; [| by eauto]. destruct (Timestamp e); [| by eauto].
  destruct (GetExecutionStarted e) as [es|]; [| by eauto].
  destruct (es_WorkflowInstance es) as [w|]; [| by eauto]. cbn.
  destruct (findInstance db (wi_InstanceId w)) eqn:E; [by eauto |]. apply findInstance_None in E.
  cbn. rewrite map_app. split; [by apply NoDup_snoc |]. exists r. rewrite elem_of_app. auto.
Qed.

Lemma cleanup_doomed id' req : keepsD doomed (cleanupWorkflowStateInternal id' req).
Proof.
  intros db [Hd|[Hn (r & Hr & Hid & Hf)]]; [left; by apply cleanup_notLeased |].
  destruct (cleanupWorkflowStateInternal id' req db) as [db' [[] | err | q]] eqn:E; cbn [fst].
  - destruct (cleanup_Ok _ _ _ _ E Hn) as (x & _ & _ & _ & HI & _ & HE & _).
    destruct (String.eqb_spec id id') as [<-|Hne].
    + left. intros e He Heid. rewrite HE in He. apply deleteWhere_rows in He as [_ He].
      by rewrite Heid, String.eqb_refl in He.
    + right. rewrite HI. split; [by apply NoDup_filter_key |]. exists r. split; [| done].
      apply deleteWhere_rows. split; [done |]. rewrite Hid. by apply String.eqb_neq.
  - apply cleanup_err in E as ->. right. eauto.
  - right. revert E. unfold cleanupWorkflowStateInternal. destruct (findInstance db id'); [| done].
    destruct (deleteWhere _ (Instances db)). by case_match.
Qed.

(** A start message for the own id deletes the lease. *)
Lemma createTarget_self now e es w db db' :
  GetExecutionStarted e = Some es -> es_WorkflowInstance es = Some w -> wi_InstanceId w = id ->
  doomed db -> createTarget now e es db = (db', Ok tt) -> notLeased id token db'.
Proof.
  intros He Hw Hid [Hd|[Hn (r & Hr & Hrid & Hf)]] H.
  { eapply keepsD_Ok; [| exact Hd | exact H].
    apply createTarget_keeps; [apply create_notLeased | intros; apply cleanup_notLeased]. }
  unfold createTarget in H.
  destruct (createWorkflowInstanceInternal now (Some e) db) as [d1 res] eqn:E1.
  assert (d1 = db /\ forall i, res <> Ok i) as [-> Hres].
  { revert E1. unfold createWorkflowInstanceInternal, mbind, M_bind, insertOrIgnoreInstance.
    destruct (Timestamp e); [| by intros [= <- <-]]. rewrite He, Hw. cbn.
    destruct (findInstance db (wi_InstanceId w)) eqn:F; [by intros [= <- <-] |].
    apply findInstance_None in F. exfalso. apply F. rewrite Hid, <- Hrid. by apply list_elem_of_fmap_2. }
  destruct res as [i | err | q]; [by destruct (Hres i) | | done].
  destruct (bool_decide _ || _); [| done]. rewrite Hw, Hid in H.
  destruct (cleanupWorkflowStateInternal id true db) as [d2 [[] | err2 | q]] eqn:E2; [| | done].
  - assert (notLeased id token d2) as Hd2.
    { destruct (cleanup_Ok _ _ _ _ E2 Hn) as (x & _ & _ & _ & _ & _ & HE & _).
      intros ev Hev Heid. rewrite HE in Hev. apply deleteWhere_rows in Hev as [_ Hev].
      by rewrite Heid, String.eqb_refl in Hev. }
    pose proof (create_notLeased id token now (Some e) d2 Hd2) as Hd3.
    destruct (createWorkflowInstanceInternal now (Some e) d2) as [d3 [i | err3 | q]];
      [by simplify_eq | case_match; by simplify_eq | done].
  - exfalso. revert E2. unfold cleanupWorkflowStateInternal.
    pose proof (findInstance_unique db r Hn Hr) as F. rewrite Hrid in F. rewrite F.
    destruct (deleteWhere _ (Instances db)) as [rows n] eqn:Ed.
    destruct (true && (n =? 0)%nat) eqn:B; [| done]. cbn in B. apply Nat.eqb_eq in B.
    injection Ed as _ Hlen. rewrite B in Hlen. intros _.
    assert (forall x, x ∈ Instances db -> (String.eqb (ir_InstanceID x) id &&
      (negb true || isFinalStatus (ir_RuntimeStatus x)) = false)) as Hnone by (by apply filter_none).
    specialize (Hnone r Hr). rewrite Hrid, String.eqb_refl in Hnone. cbn in Hnone. congruence.
Qed.

Lemma start_not_result e es : GetExecutionStarted e = Some es -> IsChildResult e = false.
Proof.
  unfold GetExecutionStarted, IsChildResult, GetChildWorkflowInstanceCompleted,
    GetChildWorkflowInstanceFailed. by repeat case_match.
Qed.

Lemma prepareMessages_self now msgs db db' rows :
  Exists (fun m => exists es w, GetExecutionStarted (msg_HistoryEvent m) = Some es /\
    es_WorkflowInstance es = Some w /\ wi_InstanceId w = id) msgs ->
  doomed db -> prepareMessages now msgs db = (db', Ok rows) -> notLeased id token db'.
Proof.
  intros Hex. revert db rows. induction Hex as [m rest (es & w & He & Hw & Hid) | m rest _ IH];
    intros db rows Hd H; cbn [prepareMessages] in H.
  - rewrite (start_not_result _ _ He), He in H. apply bind_Ok in H as (d1 & [] & E1 & H).
    pose proof (createTarget_self _ _ _ _ _ _ He Hw Hid Hd E1) as Hd1.
    eapply keepsD_Ok; [| exact Hd1 | exact H].
    apply keepsD_bind; [apply keepsD_liftD | intros payload].
    apply keepsD_bind; [| intros; apply keepsD_ret]. apply prepareMessages_keeps. intros msg es' _ _.
    apply createTarget_keeps; [apply create_notLeased | intros; apply cleanup_notLeased].
  - destruct (IsChildResult (msg_HistoryEvent m)); [by eapply IH |].
    apply bind_Ok in H as (d1 & [] & E1 & H). apply bind_Ok in H as (? & payload & E & H).
    apply liftD_Ok in E as [-> _]. apply bind_Ok in H as (d2 & rows' & E2 & H). injection H as <- _.
    eapply IH; [| exact E2]. eapply keepsD_Ok; [| exact Hd | exact E1].
    case_match; [| apply keepsD_ret].
    apply createTarget_keeps; [apply create_doomed | intros; apply cleanup_doomed].
Qed.
End SelfRestart.

Section SelfRestartTheorem.
Context `{HC : ProtoCodec} `{HF : FailureCodec}.

Lemma startsSelf_spec wi m : startsSelf wi m = true ->
  exists es w, GetExecutionStarted (msg_HistoryEvent m) = Some es /\
    es_WorkflowInstance es = Some w /\ wi_InstanceId w = owi_InstanceID wi.
Proof.
  unfold startsSelf. destruct (GetExecutionStarted (msg_HistoryEvent m)) as [es|]; [| done].
  destruct (es_WorkflowInstance es) as [w|] eqn:E; [| done]. intros H%String.eqb_eq. eauto.
Qed.

(** C39. A workflow that finishes and starts a workflow under its own instance id
    in the same turn can never be committed: replacing the finished instance
    deletes the leased events of the very work item, whose acknowledgement then
    finds none and rolls everything back. *)
Theorem self_restart_never_commits now wi s db :
  db_wf db -> owi_State wi = Some s ->
  isFinalStatus (ToRuntimeStatusString (RuntimeStatus s)) = true ->
  Exists (fun m => startsSelf wi m = true) (PendingMessages s) ->
  (CompleteWorkflowWorkItem now wi (Some db)).1 = Some db /\
  is_Ok (CompleteWorkflowWorkItem now wi (Some db)).2 = false.
Proof.
  intros Hw Hs Hf Hex.
  assert (is_Ok (CompleteWorkflowWorkItem now wi (Some db)).2 = false) as Hno;
    [| split; [by apply transact_rollback | done]].
  destruct (CompleteWorkflowWorkItem now wi (Some db)) as [be2 [[] | e | q]] eqn:H; [| done..].
  exfalso. destruct (commit_stages _ _ _ _ _ Hs H)
    as (? & db1 & db2 & db3 & ? & [= <-] & -> & E1 & E2 & E3 & E4).
  set (D := doomed (owi_InstanceID wi) (owi_LockedBy wi)).
  assert (D db3) as Hd.
  { destruct (updated_row _ _ _ _ _ (wf_ids db Hw) E1) as (r & Hr & Hid & Hst & _).
    right. pose proof (saveHistory_Ok _ _ _ _ E3) as (? & _ & ->).
    pose proof (retireGeneration_Ok _ _ _ _ E2) as (HI & _). cbn. rewrite HI.
    rewrite (updated_keys _ _ _ _ _ E1). split; [apply (wf_ids db Hw) |]. exists r.
    assert (r ∈ [r]) as Hin by (by left). rewrite <- Hr in Hin. unfold ownInstance in Hin.
    rewrite list_elem_of_In, filter_In, <- list_elem_of_In in Hin.
    split_and!; [apply Hin | done | by rewrite Hst]. }
  assert (forall d d', D d -> NewEventsT d' = NewEventsT d -> Instances d' = Instances d -> D d') as Hsame.
  { intros d d' [Hd0|[Hn Hr]] HE HI; [left; by eapply notLeased_same | right; rewrite HI; eauto]. }
  assert (forall iid g payload v, keepsD D (insertNewEvent iid g payload v)) as Hins.
  { intros iid g payload v d [Hd0|Hr]; [left; by apply notLeased_insert | by right]. }
  apply bind_Ok in E4 as (db4 & [] & E4 & E). apply bind_Ok in E as (db5 & [] & E5 & E).
  apply bind_Ok in E as (db6 & [] & E6 & E). apply deleteInbound_Ok in E as [_ (e & He & Hid & Hl)].
  assert (D db5) as Hd5.
  { eapply keepsD_Ok; [apply saveChildResults_keeps, Hins | | exact E5].
    eapply keepsD_Ok; [apply saveTasks_keeps | exact Hd | exact E4].
    intros iid pl d Hd0. by eapply Hsame. }
  unfold saveEvents in E6. apply bind_Ok in E6 as (? & timers & E7 & E6).
  apply liftD_Ok in E7 as [-> _]. apply bind_Ok in E6 as (db7 & rows & E7 & E6).
  assert (notLeased (owi_InstanceID wi) (owi_LockedBy wi) db7) as Hd7.
  { eapply prepareMessages_self; [| exact Hd5 | exact E7].
    eapply Exists_impl; [exact Hex |]. intros m. apply startsSelf_spec. }
  assert (notLeased (owi_InstanceID wi) (owi_LockedBy wi) db6) as Hd6; [| by eapply Hd6].
  eapply keepsD_Ok; [apply insertEvents_keeps, notLeased_insert | exact Hd7 | exact E6].
Qed.
End SelfRestartTheorem.
