(* ===== verification/SqlitePurge.v ===== *)
(** * The SQLite backend behind the recursive purge

    What one purge call does to the tables, and that the SQLite backend keeps the
    promises ([PurgeBackendOk]) the recursive purge driver is verified against. *)

From stdpp Require Import base list option strings gmap sets sorting relations.
From Stdlib Require Import ZArith Lia.
From S2P Require Import Prelude Errors Protos Dedup RuntimeState Propagation Helpers Backend Sqlite.
From S2P Require Import SqliteCorrect SqliteCommit.

(** ** One purge *)

(** The rows of [id] in each table. *)
Definition rowsOf (db : DB) (id : string) : nat :=
  length (List.filter (fun r => String.eqb (ir_InstanceID r) id) (Instances db)) +
  length (List.filter (fun r => String.eqb (hr_InstanceID r) id) (History db)) +
  length (List.filter (fun r => String.eqb (ne_InstanceID r) id) (NewEventsT db)) +
  length (List.filter (fun r => String.eqb r.1.1 id) (ExternalEventDeliveries db)) +
  length (List.filter (fun r => String.eqb (nt_InstanceID r) id) (NewTasks db)).

(** The tables without the rows of [id]. *)
Definition without (id : string) (db : DB) : DB :=
  mkDB (deleteWhere (fun r => String.eqb (ir_InstanceID r) id) (Instances db)).1
       (deleteWhere (fun r => String.eqb (hr_InstanceID r) id) (History db)).1
       (deleteWhere (fun r => String.eqb (ne_InstanceID r) id) (NewEventsT db)).1
       (deleteWhere (fun r => String.eqb r.1.1 id) (ExternalEventDeliveries db)).1
       (deleteWhere (fun r => String.eqb (nt_InstanceID r) id) (NewTasks db)).1.

Lemma deleted_none {R} (p : R -> bool) (l : list R) :
  length (List.filter p (deleteWhere p l).1) = 0%nat.
Proof. apply filter_none. intros r Hr%deleteWhere_rows. apply Hr. Qed.

Lemma without_rows id db : rowsOf (without id db) id = 0%nat.
Proof. unfold rowsOf, without. cbn [Instances History NewEventsT ExternalEventDeliveries NewTasks].
  by rewrite !deleted_none. Qed.

(** The cleanup by cases. *)
Lemma cleanup_cases id db :
  db_wf db ->
  cleanupWorkflowStateInternal id true db =
    match findInstance db id with
    | None => (db, Err ErrInstanceNotFound)
    | Some r => if isFinalStatus (ir_RuntimeStatus r) then (without id db, Ok tt)
                else (db, Err ErrNotCompleted)
    end.
Proof.
  intros Hw. unfold cleanupWorkflowStateInternal.
  destruct (findInstance db id) as [r|] eqn:E; [| done]. apply findInstance_Some in E as [Hr Hid].
  assert (forall x, x ∈ Instances db -> String.eqb (ir_InstanceID x) id = true -> x = r) as Huniq.
  { intros x Hx Hxid%String.eqb_eq.
    by apply (key_inj ir_InstanceID _ _ _ (wf_ids db Hw) Hx Hr); congruence. }
  destruct (isFinalStatus (ir_RuntimeStatus r)) eqn:F.
  - assert (forall x, x ∈ Instances db -> String.eqb (ir_InstanceID x) id &&
      (negb true || isFinalStatus (ir_RuntimeStatus x)) = String.eqb (ir_InstanceID x) id) as Hp.
    { intros x Hx. destruct (String.eqb (ir_InstanceID x) id) eqn:Ex; [| done].
      rewrite (Huniq x Hx Ex). cbn. by rewrite F. }
    assert (deleteWhere (fun x => String.eqb (ir_InstanceID x) id &&
      (negb true || isFinalStatus (ir_RuntimeStatus x))) (Instances db) =
      deleteWhere (fun x => String.eqb (ir_InstanceID x) id) (Instances db)) as ->.
    { unfold deleteWhere. f_equal; [| f_equal]; apply filter_ext_in; intros x Hx%list_elem_of_In;
        by rewrite Hp. }
    destruct (deleteWhere _ (Instances db)) as [rows n] eqn:Ed.
    assert (n <> 0%nat) as Hn.
    { injection Ed as _ <-. intros Hz. pose proof (proj1 (filter_none _ _) Hz r Hr) as Hf.
      cbn beta in Hf. by rewrite Hid, String.eqb_refl in Hf. }
    apply Nat.eqb_neq in Hn. rewrite Hn. cbn. unfold without. by rewrite Ed.
  - destruct (deleteWhere _ (Instances db)) as [rows n] eqn:Ed. injection Ed as _ Hn.
    assert (n = 0%nat) as ->; [| done]. rewrite <- Hn. apply filter_none. intros x Hx.
    destruct (String.eqb (ir_InstanceID x) id) eqn:Ex; [| done].
    rewrite (Huniq x Hx Ex). cbn. done.
Qed.

Lemma purge_cases id router recursive force db :
  db_wf db -> GetTargetAppID router = "" ->
  PurgeWorkflowState id router recursive force (Some db) =
    match findInstance db id with
    | None => (Some db, 0, Some ErrInstanceNotFound)
    | Some r => if isFinalStatus (ir_RuntimeStatus r) then (Some (without id db), 1, None)
                else (Some db, 0, Some ErrNotCompleted)
    end.
Proof.
  intros Hw Hr. unfold PurgeWorkflowState, transact. rewrite Hr. cbn [String.eqb negb].
  rewrite cleanup_cases by done. destruct (findInstance db id) as [r|]; [| done].
  by destruct (isFinalStatus (ir_RuntimeStatus r)).
Qed.

(** A local purge removes exactly one finished instance: it reports one only
    if the instance was there with a final status, deletes its rows from all five
    tables and no other row; otherwise it reports the reason and changes nothing,
    also when the purge is forced. *)
Theorem purge_removes_one id router recursive force db :
  db_wf db -> GetTargetAppID router = "" ->
  match PurgeWorkflowState id router recursive force (Some db) with
  | (be', n, err) =>
      exists db', be' = Some db' /\
      (n = 1 /\ err = None /\ db' = without id db /\ rowsOf db' id = 0%nat /\
         (exists r, findInstance db id = Some r /\ isFinalStatus (ir_RuntimeStatus r) = true) \/
       n = 0 /\ db' = db /\ err = Some ErrInstanceNotFound /\ findInstance db id = None \/
       n = 0 /\ db' = db /\ err = Some ErrNotCompleted /\
         exists r, findInstance db id = Some r /\ isFinalStatus (ir_RuntimeStatus r) = false)
  end.
Proof.
  intros Hw Hr. rewrite purge_cases by done. destruct (findInstance db id) as [r|] eqn:E.
  - destruct (isFinalStatus (ir_RuntimeStatus r)) eqn:F; eexists; (split; [done |]).
    + left. split_and!; [done.. | apply without_rows | by exists r].
    + right; right. split_and!; [done.. | by exists r].
  - eexists. split; [done |]. right; left. done.
Qed.

(** ** The promises of the purge interface *)

Section Interface.
Context `{HC : ProtoCodec} `{HF : FailureCodec}.
(** A payload that does not decode is not reported as a missing instance. *)
Hypothesis decode_error : forall b err, Unmarshal b = inr err -> errorsIs err ErrInstanceNotFound = false.

(** The tables of a well-formed database. *)
Definition Store : Type := { db : DB | db_wf db }.

Lemma purge_wf id r recursive force db db' n err :
  db_wf db -> PurgeWorkflowState id r recursive force (Some db) = (Some db', n, err) -> db_wf db'.
Proof.
  intros Hw H. unfold PurgeWorkflowState, transact in H. case_match; [by simplify_eq |].
  pose proof (cleanup_wf id true db Hw) as Hk.
  destruct (cleanupWorkflowStateInternal id true db) as [d [x | e | q]]; simplify_eq; done.
Qed.

(** The backend's purge on well-formed tables, with the proof that the new tables
    are well-formed. *)
Definition storeResult (st : Store) id r recursive force (res : Sqlite * Z * option error)
    : PurgeWorkflowState id r recursive force (Some (proj1_sig st)) = res -> Store * Z * option error :=
  match res with
  | (Some db', n, None) => fun E => (exist _ db' (purge_wf _ _ _ _ _ _ _ _ (proj2_sig st) E), n, None)
  | (_, n, err) => fun _ => (st, n, err)
  end.

Lemma storeResult_spec st id r recursive force res E :
  match res with
  | (Some db', n, None) =>
      proj1_sig (storeResult st id r recursive force res E).1.1 = db' /\
      (storeResult st id r recursive force res E).1.2 = n /\
      (storeResult st id r recursive force res E).2 = None
  | (_, n, err) => storeResult st id r recursive force res E = (st, n, err)
  end.
Proof. by destruct res as [[[db'|] n] [err|]]. Qed.

#[global] Instance sqlitePurge : PurgeBackend Store := {|
  be_GetWorkflowRuntimeState st id := GetWorkflowRuntimeState id (Some (proj1_sig st));
  be_PurgeWorkflowState st id r recursive force :=
    storeResult st id r recursive force _ eq_refl
|}.

(** *** Histories and what is loaded from them *)

(** The log of a load only grows, and the first event is always accepted. *)
Lemma addEventsLoop_old_grows events s seen :
  exists l, OldEvents (addEventsLoop s events false seen).1 = OldEvents s ++ l.
Proof.
  revert s seen. induction events as [|e rest IH]; intros s seen; cbn; [by exists []; rewrite app_nil_r |].
  assert (exists l, OldEvents (addEventWithDedup s e false seen).1.1 = OldEvents s ++ l) as [l1 H1].
  { unfold addEventWithDedup, appendAccepted.
    repeat case_match; simplify_eq; cbn; try (by exists [e]); by exists []; rewrite app_nil_r. }
  destruct (addEventWithDedup s e false seen) as [[s1 seen1] err]. cbn in H1.
  destruct (IH s1 seen1) as [l2 H2]. destruct (addEventsLoop s1 rest false seen1) as [s2 errs].
  cbn in *. exists (l1 ++ l2). by rewrite H2, H1, app_assoc.
Qed.

Lemma loaded_nonempty id cs e rest : OldEvents (NewWorkflowRuntimeState id cs (e :: rest)) <> [].
Proof.
  unfold NewWorkflowRuntimeState. cbn.
  assert (OldEvents (addEventWithDedup (emptyRuntimeState id cs) e false (Some dedup_New)).1.1 = [e]) as H1.
  { unfold addEventWithDedup, appendAccepted, Add, dedup_New.
    repeat case_match; simplify_eq; try done;
      match goal with H : bool_decide (_ ∈ ∅) = true |- _ => apply bool_decide_eq_true in H; by apply not_elem_of_empty in H end. }
  destruct (addEventWithDedup _ e false _) as [[s1 seen1] err]. cbn in H1.
  destruct (addEventsLoop_old_grows rest s1 seen1) as [l H2].
  destruct (addEventsLoop s1 rest false seen1) as [s2 errs]. cbn in *. by rewrite H2, H1.
Qed.

Definition storeInstances (st : Store) : gset string :=
  list_to_set (map hr_InstanceID (History (proj1_sig st))).

Lemma storeInstances_elem st id : id ∈ storeInstances st <-> ownHistory (proj1_sig st) id <> [].
Proof.
  unfold storeInstances. rewrite elem_of_list_to_set. unfold ownHistory. split.
  - intros (r & -> & Hr)%list_elem_of_fmap Hn. rewrite filter_nil_iff in Hn.
    specialize (Hn r Hr). by rewrite String.eqb_refl in Hn.
  - intros Hn. destruct (List.filter _ _) as [|r l] eqn:E; [done |].
    assert (r ∈ r :: l) as Hr by (by left). rewrite <- E, list_elem_of_In, filter_In, <- list_elem_of_In in Hr.
    destruct Hr as [Hr <-%String.eqb_eq]. by apply list_elem_of_fmap_2.
Qed.

Lemma ownHistory_without id db id' :
  ownHistory (without id db) id' = if String.eqb id' id then [] else ownHistory db id'.
Proof. apply ownHistory_delete. Qed.

Lemma payloads_of_own db db' id :
  ownHistory db' id = ownHistory db id -> historyPayloads db' id = historyPayloads db id.
Proof. unfold ownHistory, historyPayloads. by intros ->. Qed.

Lemma load_without id id' db :
  id' <> id ->
  GetWorkflowRuntimeState id' (Some (without id db)) = GetWorkflowRuntimeState id' (Some db).
Proof.
  intros Hne. unfold GetWorkflowRuntimeState, query, readHistory.
  rewrite (payloads_of_own db (without id db)); [done |].
  by rewrite ownHistory_without, (proj2 (String.eqb_neq _ _) Hne).
Qed.

Lemma load_gone id db : GetWorkflowRuntimeState id (Some (without id db)) = inl (emptyRuntimeState id None).
Proof.
  pose proof (ownHistory_without id db id) as H. rewrite String.eqb_refl in H. unfold ownHistory in H.
  unfold GetWorkflowRuntimeState, query, readHistory, historyPayloads. by rewrite H.
Qed.

(** What a local purge returns, by cases. *)
Lemma storePurge_local st id r recursive force st' n err :
  isRemoteRouter r = false -> be_PurgeWorkflowState st id r recursive force = (st', n, err) ->
  (exists row, findInstance (proj1_sig st) id = Some row /\
     isFinalStatus (ir_RuntimeStatus row) = true /\
     proj1_sig st' = without id (proj1_sig st) /\ n = 1 /\ err = None) \/
  st' = st /\ (err = Some ErrNotCompleted \/
     err = Some ErrInstanceNotFound /\ findInstance (proj1_sig st) id = None).
Proof.
  unfold isRemoteRouter. intros Hr%negb_false_iff%String.eqb_eq H. cbn in H.
  pose proof (storeResult_spec st id r recursive force _ eq_refl) as Hs. rewrite H in Hs. cbn in Hs.
  rewrite (purge_cases id r recursive force _ (proj2_sig st) Hr) in Hs.
  destruct (findInstance (proj1_sig st) id) as [row|] eqn:E.
  - destruct (isFinalStatus (ir_RuntimeStatus row)) eqn:F.
    + destruct Hs as (-> & -> & ->). left. by exists row.
    + simplify_eq. right. auto.
  - simplify_eq. right. auto.
Qed.

Lemma storePurge_remote st id r recursive force st' n err :
  isRemoteRouter r = true -> be_PurgeWorkflowState st id r recursive force = (st', n, err) -> st' = st.
Proof.
  unfold isRemoteRouter. intros Hr H. cbn in H.
  pose proof (storeResult_spec st id r recursive force _ eq_refl) as Hs. rewrite H in Hs. cbn in Hs.
  unfold PurgeWorkflowState in Hs. rewrite Hr in Hs. by simplify_eq.
Qed.

Lemma missing_no_history st id : findInstance (proj1_sig st) id = None -> id ∉ storeInstances st.
Proof.
  intros E Hin. apply findInstance_None in E. apply E. unfold storeInstances in Hin.
  rewrite elem_of_list_to_set in Hin. apply list_elem_of_fmap in Hin as (h & -> & Hh).
  by apply (wf_owner _ (proj2_sig st)).
Qed.

Lemma decoded_err l err : tryMap UnmarshalHistoryEvent l = inr err -> errorsIs err ErrInstanceNotFound = false.
Proof.
  revert err. induction l as [|b l IH]; intros err; cbn; [done |]. unfold UnmarshalHistoryEvent at 1.
  destruct (Unmarshal b) as [ev|uerr] eqn:U.
  - destruct (tryMap UnmarshalHistoryEvent l) as [evs|e']; [done |]. intros [= ->]. by apply IH.
  - intros [= <-]. cbn. by apply decode_error in U.
Qed.

Lemma load_err st id err :
  be_GetWorkflowRuntimeState st id = inr err -> errorsIs err ErrInstanceNotFound = false.
Proof.
  cbn. unfold readHistory. destruct (tryMap UnmarshalHistoryEvent _) as [evs|e] eqn:E; [done |]. intros [= <-]. by eapply decoded_err.
Qed.

(** The SQLite backend keeps the promises of the purge interface; an instance is
    known to the driver once it has a history. *)
#[global] Instance sqlitePurgeOk : PurgeBackendOk Store.
Proof.
  refine {| instances := storeInstances |}.
  - intros st id r rec force st' n Hr H.
    destruct (storePurge_local _ _ _ _ _ _ _ _ Hr H) as [(row & Hf & Hfin & Hst & -> & _)|[-> [He|[He _]]]];
      [| done..].
    split_and!; [done | | | |].
    + apply storeInstances_elem. apply findInstance_Some in Hf as [Hin <-].
      by apply (wf_final _ (proj2_sig st)).
    + apply leibniz_equiv. intros x. rewrite elem_of_difference, elem_of_singleton, !storeInstances_elem, Hst.
      rewrite ownHistory_without. destruct (String.eqb_spec x id); naive_solver.
    + intros state Hl. cbn [be_GetWorkflowRuntimeState sqlitePurge] in Hl.
      rewrite Hst, load_gone in Hl. by simplify_eq.
    + intros id' Hne. cbn [be_GetWorkflowRuntimeState sqlitePurge]. rewrite Hst. by apply load_without.
  - intros st id r rec force st' n err Hr H.
    destruct (storePurge_local _ _ _ _ _ _ _ _ Hr H) as [(row & _ & _ & _ & _ & He)|[-> [He|[He Hf]]]];
      simplify_eq; (split; [done |]); [done |]. intros _. by apply missing_no_history.
  - intros st id r rec force st' n res Hr H. by rewrite (storePurge_remote _ _ _ _ _ _ _ _ Hr H).
  - intros st id state Hl _ Ho. rewrite storeInstances_elem. intros Hne. cbn in Hl. unfold readHistory in Hl.
    rewrite historyPayloads_numbered in Hl by apply (wf_seqs _ (proj2_sig st)).
    destruct (ownHistory (proj1_sig st) id) as [|h rest]; [done |]. cbn in Hl.
    destruct (UnmarshalHistoryEvent (hr_EventPayload h)) as [e|]; [| done].
    destruct (tryMap UnmarshalHistoryEvent (map hr_EventPayload rest)) as [es|]; [| done].
    simplify_eq. by apply loaded_nonempty in Ho.
  - intros st id err Hl He. by rewrite (load_err _ _ _ Hl) in He.
Defined.

(** C28. The recursive purge of a stored instance through the SQLite backend: if
    it succeeds, no local descendant (by the recorded child creations) and not the
    instance itself has a history row left, whatever the order in which the
    children are visited. *)
Theorem sqlite_recursive_purge `{MapRange} fuel st iid force st' n :
  iid ∈ storeInstances st ->
  purgeWorkflowState fuel st iid None true force = Some (st', n, None) ->
  forall d, descendant st iid d -> ownHistory (proj1_sig st') d = [].
Proof.
  intros Hin (Hp & Hi & _)%purgeWorkflowState_ok d Hd.
  assert (d ∉ instances st') as Hnot by (eapply purged_descendants; [exact Hp | exact Hd | exact Hin | by apply Hi]).
  change (d ∉ storeInstances st') in Hnot. rewrite storeInstances_elem in Hnot.
  by destruct (ownHistory (proj1_sig st') d); [| destruct Hnot].
Qed.

(** An instance without a history is not purged: the recursive purge takes it
    for a missing one, so a child that was created but has not run yet keeps its
    row whatever ancestor is purged, and however the purge ends. *)
Theorem pending_instance_outlives_purge `{HM : MapRange} fuel st iid force st' n err c row :
  purgeWorkflowState fuel st iid None true force = Some (st', n, err) ->
  findInstance (proj1_sig st) c = Some row -> ownHistory (proj1_sig st) c = [] ->
  findInstance (proj1_sig st') c = Some row.
Proof.
  intros H Hf Hh.
  assert (row ∈ Instances (proj1_sig st') /\ ownHistory (proj1_sig st') c = []) as [Hin _].
  { eapply (purgeWorkflowState_keeps (fun s => row ∈ Instances (proj1_sig s) /\
      ownHistory (proj1_sig s) c = [])); [| | exact H].
    2: { apply findInstance_Some in Hf as [Hf _]. done. }
    intros s id r rec f [Hr Ho]. destruct (be_PurgeWorkflowState s id r rec f) as [[s1 k] e] eqn:E. cbn.
    destruct (isRemoteRouter r) eqn:Er; [by rewrite (storePurge_remote _ _ _ _ _ _ _ _ Er E) |].
    destruct (storePurge_local _ _ _ _ _ _ _ _ Er E) as [(x & Hx & Hfin & -> & _)|[-> _]]; [| done].
    apply findInstance_Some in Hx as [Hx <-]. apply findInstance_Some in Hf as [_ Hc].
    assert (ir_InstanceID row <> ir_InstanceID x) as Hne.
    { intros Heq. apply (wf_final _ (proj2_sig s) x Hx Hfin). congruence. }
    split.
    - apply deleteWhere_rows. split; [done | by apply String.eqb_neq].
    - rewrite ownHistory_without, (proj2 (String.eqb_neq _ _)); congruence. }
  apply findInstance_Some in Hf as [_ <-]. apply findInstance_unique; [apply (wf_ids _ (proj2_sig st')) | done].
Qed.
End Interface.
