(* ===== verification/System.v ===== *)
(** * One turn, end to end

    The parts put together: a worker leases a work item from the SQLite backend,
    loads the history, processes the work item and commits it, while others use
    the same database. *)

From stdpp Require Import base list option strings gmap sets relations.
From Stdlib Require Import ZArith Lia.
From S2P Require Import Prelude Errors Protos Dedup RuntimeState Propagation Helpers Applier Backend.
From S2P Require Import Orchestration Sqlite SqliteCorrect SqliteCommit SqliteTheorems.

(** [followsLog l s]: the old events of [s] are the committed log [l], or [s] is a
    new generation without old events. *)
Definition followsLog (l : list HistoryEvent) (s : WorkflowRuntimeState) : Prop :=
  if ContinuedAsNew s then OldEvents s = [] else OldEvents s = l.

Lemma AddEvent_frame s e :
  OldEvents (AddEvent s e).1 = OldEvents s /\ ContinuedAsNew (AddEvent s e).1 = ContinuedAsNew s.
Proof.
  rewrite AddEvent_eq. destruct (admissible s e); [| done]. cbn [fst].
  destruct (accepted_frame s e true) as (_ & _ & _ & _ & -> & _). split; [| done].
  by destruct (appendAccepted_new s e) as [_ ->].
Qed.

Lemma followsLog_addEach l s events : followsLog l s -> followsLog l (addEach s events).1.
Proof.
  rewrite <- foldl_AddEvent. revert s. induction events as [|e rest IH]; intros s Hs; [done |].
  cbn [foldl]. apply IH. unfold followsLog in *. by destruct (AddEvent_frame s e) as [-> ->].
Qed.

#[global] Instance followsLog_turn l : TurnProperty (followsLog l).
Proof.
  split; [split |].
  - intros s s' H1 _ _ _ _ _ _ H2. unfold followsLog. by rewrite H1, H2.
  - intros s e. unfold followsLog. by destruct (AddEvent_frame s e) as [-> ->].
  - intros. unfold newGeneration. rewrite foldl_AddEvent. by apply followsLog_addEach.
  - done.
Qed.

Lemma followsLog_opened l st s :
  followsLog l s -> ids_ok (history s) -> ids_ok (owi_NewEvents (t_wi st)) ->
  followsLog l (openedState st s).
Proof.
  intros Hs Hok He. pose proof (openedState_log st s He Hok) as [Ho _].
  unfold openedState in *. set (m := turnMarker _) in *.
  assert (ContinuedAsNew (AddEvents (AddEvent s m).1 (owi_NewEvents (t_wi st))).1 = ContinuedAsNew s) as Hc.
  { rewrite AddEvents_addEach; [| | done].
    - destruct (addEach_outboxes (AddEvent s m).1 (owi_NewEvents (t_wi st))) as (_ & _ & -> & _).
      apply AddEvent_frame.
    - unfold history. assert (NewEvents (AddEvent s m).1 = NewEvents s ++ [m]) as -> by done.
      destruct (AddEvent_frame s m) as [-> _]. rewrite app_assoc. apply Forall_app.
      split; [done | by repeat constructor]. }
  unfold followsLog in *. by rewrite Hc, Ho.
Qed.

(** What is loaded from a clean log. *)
Lemma load_clean id cs l :
  ids_ok l -> clean_log l ->
  hist_inv (NewWorkflowRuntimeState id cs l) /\ followsLog l (NewWorkflowRuntimeState id cs l) /\
  history (NewWorkflowRuntimeState id cs l) = l.
Proof.
  intros Hok Hc. pose proof (load_frame id cs l Hok) as (Hi & _).
  rewrite NewWorkflowRuntimeState_loop, load_clean_log in * by done.
  split_and!; [done | done |]. apply app_nil_r.
Qed.

Section System.
Context `{HC : ProtoCodec} `{HCok : !ProtoCodecOk} `{HF : FailureCodec} `{HM : MapRange}.
Variable opts : SqliteOptions.
Variable p : workflowProcessor.
Variable spanTrace : nat -> option TraceContext.

(** Loading reads the database of the lease. *)
Definition loader (db : DB) (id : string) : WorkflowRuntimeState + error :=
  GetWorkflowRuntimeState id (Some db).

(** The turn of a worker that leased [wi] from [db]. *)
Definition serveTurn (db : DB) (wi : WorkflowWorkItem) (w : World) : TurnSt * outcome error unit :=
  ProcessWorkItem p (loader db) spanTrace (mkTurnSt wi w 0 0).

(** The state a turn ends in continues the log it started from. *)
Lemma serveTurn_keeps db wi w l :
  owi_State wi = None -> readHistory db (owi_InstanceID wi) = inl l ->
  ids_ok l -> clean_log l -> ids_ok (owi_NewEvents wi) ->
  Inv wi (fun s => hist_inv s /\ followsLog l s) (serveTurn db wi w).1.
Proof.
  intros Hs Hl Hok Hc He.
  assert (forall s, loadedState (loader db) (mkTurnSt wi w 0 0) = Some s ->
    s = NewWorkflowRuntimeState (owi_InstanceID wi) None l) as Hld.
  { intros s. unfold loadedState, stateOf. cbn. rewrite Hs, Hl. by intros [= <-]. }
  destruct (load_clean (owi_InstanceID wi) None l Hok Hc) as (L1 & L2 & L3).
  destruct (ProcessWorkItem_keeps p (loader db) spanTrace hist_inv (mkTurnSt wi w 0 0)
    (fun st1 s Hi Hi1 Hi2 => openedState_inv st1 s Hi2 Hi Hi1) He) as (H1 & H2 & H3).
  { intros s ->%Hld. by rewrite L3. }
  destruct (ProcessWorkItem_keeps p (loader db) spanTrace (followsLog l) (mkTurnSt wi w 0 0)
    (fun st1 s => followsLog_opened l st1 s) He) as (_ & _ & H4).
  { intros s ->%Hld. by rewrite L3. }
  split_and!; [done | done |]. intros s Hs'. split; [by apply H3 | by apply H4].
Qed.

(** A committed turn is stored. *)
Lemma leased_turn_stored lnow token db0 db wi w l st' now' db1 db2 :
  db_wf db0 -> getWorkflowWorkItem opts lnow token (Some db0) = (Some db, Ok wi) ->
  readHistory db (owi_InstanceID wi) = inl l -> ids_ok l -> clean_log l ->
  ids_ok (owi_NewEvents wi) ->
  serveTurn db wi w = (st', Ok tt) ->
  rtc (sqlite_step opts (fun t => t <> token)) db db1 ->
  CompleteWorkflowWorkItem now' (t_wi st') (Some db1) = (Some db2, Ok tt) ->
  exists s', stateOf st' = Some s' /\
    (Forall (fun m => startsSelf wi m = false) (PendingMessages s') ->
     GetInstanceHistory (owi_InstanceID wi) (Some db2) = inl (history s')) /\
    db_wf db2 /\ clean_log (history s') /\
    (ContinuedAsNew s' = false -> l `prefix_of` history s').
Proof.
  intros Hw0 Hlease Hl Hok Hc He Hturn Hr Hcommit.
  assert (db_wf db) as Hw.
  { eapply sqlite_step_wf; [| exact Hw0]. eapply (step_lease opts (fun _ => True)); [done | exact Hlease]. }
  destruct (lease_granted _ _ _ _ _ _ Hlease) as (Htok & Hnone & Hhold).
  destruct (serveTurn_keeps db wi w l Hnone Hl Hok Hc He) as (Hid & Hlk & Hs).
  rewrite Hturn in Hid, Hlk, Hs. cbn [fst] in Hid, Hlk, Hs.
  destruct (commit_has_state _ _ _ _ Hcommit) as (s' & ? & Hst & _).
  destruct (Hs s' Hst) as [Hi Hf].
  assert (db_wf db1) as Hw1.
  { clear -Hr Hw HC HF. induction Hr as [|d1 d2 d3 Hstep _ IH]; [done |].
    apply IH. by eapply sqlite_step_wf. }
  assert (readHistory db1 (owi_InstanceID (t_wi st')) = inl l) as Hl1.
  { rewrite (leased_history_stable opts now' (t_wi st') token db db1 db2); try done; try congruence.
    unfold holdsLease. by rewrite Hid. }
  assert (continues db1 (t_wi st') s') as Hcont.
  { unfold continues. unfold followsLog in Hf. destruct (ContinuedAsNew s'); [done | by rewrite Hf]. }
  exists s'. split_and!; [done | | | by apply hist_inv_clean |].
  - intros HS. rewrite <- Hid. eapply (commit_reads_back now' (t_wi st') s' db1 db2); try done.
    eapply Forall_impl; [exact HS |]. intros m. unfold startsSelf. by rewrite Hid.
  - eapply commit_wf; [exact Hw1 | exact Hst | exact Hcont | by apply final_has_history | exact Hcommit].
  - intros Hcan. unfold followsLog in Hf. rewrite Hcan in Hf. unfold history. rewrite Hf. by exists (NewEvents s').
Qed.

(** C2. A turn, end to end: a worker leases an instance with a clean log, runs
    the turn and commits it, while others do what they like with the database
    under other tokens.  If the commit succeeds, the stored history is exactly the
    log of the state the turn ended in; that log is clean again, and it extends the
    log the turn started from unless the workflow continued as new.  (The turn
    must not start an instance under its own id.) *)
Theorem turn_end_to_end lnow token db0 db wi w l st' now' db1 db2 :
  db_wf db0 -> getWorkflowWorkItem opts lnow token (Some db0) = (Some db, Ok wi) ->
  readHistory db (owi_InstanceID wi) = inl l -> ids_ok l -> clean_log l ->
  ids_ok (owi_NewEvents wi) ->
  serveTurn db wi w = (st', Ok tt) ->
  rtc (sqlite_step opts (fun t => t <> token)) db db1 ->
  CompleteWorkflowWorkItem now' (t_wi st') (Some db1) = (Some db2, Ok tt) ->
  exists s', stateOf st' = Some s' /\
    (Forall (fun m => startsSelf wi m = false) (PendingMessages s') ->
     GetInstanceHistory (owi_InstanceID wi) (Some db2) = inl (history s')) /\
    db_wf db2 /\ clean_log (history s') /\
    (ContinuedAsNew s' = false -> l `prefix_of` history s').
Proof. apply leased_turn_stored. Qed.
End System.
