(* ===== verification/SqliteWitness.v ===== *)
(** * The SQLite backend on concrete tables

    A workflow is created, leased, run and committed on concrete tables, with a
    catalogue of events as codec; the theorems of the backend are applied to the
    tables this produces. *)

From stdpp Require Import base list option strings gmap sets sorting relations.
From Stdlib Require Import ZArith Lia.
From S2P Require Import Prelude Errors Protos Dedup RuntimeState Propagation Helpers Applier Backend.
From S2P Require Import Orchestration Sqlite SqliteCorrect SqliteCommit SqliteTheorems SqlitePurge System.

Definition startOf (id : string) (exec : string) : HistoryEvent :=
  ev (-1) 5 (HistoryEvent_ExecutionStarted (mkExecutionStartedEvent "wf" None (Some "in")
    (Some (mkWorkflowInstance id (Some exec))) None None None None ∅)).

Definition doneEvent : HistoryEvent :=
  ev 1 30 (HistoryEvent_ExecutionCompleted (mkExecutionCompletedEvent COMPLETED (Some "out") None)).

Definition raised : HistoryEvent := ev (-1) 12 (HistoryEvent_EventRaised (mkEventRaisedEvent "go" None)).

(** Parent [wf1] records a child [wf2] with event id 0. *)
Definition childCreated : HistoryEvent :=
  ev 0 25 (HistoryEvent_ChildWorkflowInstanceCreated
    (mkChildWorkflowInstanceCreatedEvent "wf2" "child" None None None None None)).

(** What the engine itself writes in the served turn below. *)
Definition turnStarted : HistoryEvent :=
  ev (-1) 100 (HistoryEvent_WorkflowStarted (mkWorkflowStartedEvent None)).
Definition turnDone : HistoryEvent := mkHistoryEvent 9 (Some 101)
  (Some (HistoryEvent_ExecutionCompleted (mkExecutionCompletedEvent COMPLETED (Some "r1") None)))
  (Some (mkTaskRouter "app" None None)).

#[local] Instance sampleCodec : ProtoCodec :=
  catalogCodec [startOf "wf1" "x1"; startOf "wf2" "x2"; doneEvent; raised; childCreated;
                turnStarted; turnDone].
#[local] Instance sampleCodecOk : ProtoCodecOk := catalogCodecOk _.
#[local] Instance noFailures : FailureCodec := {|
  MarshalFailure _ := inr (errorNew "unsupported");
  UnmarshalFailure _ := inr (errorNew "unsupported")
|}.

Definition tables {X} (r : Sqlite * X) : DB := match r.1 with Some db => db | None => emptyDB end.
Definition opts : SqliteOptions := NewSqliteOptions.

(** Two instances, then a lease for [wf1]. *)
Definition db1 : DB := tables (CreateWorkflowInstance 5 (Some (startOf "wf1" "x1")) (Some emptyDB)).
Definition db2 : DB := tables (CreateWorkflowInstance 6 (Some (startOf "wf2" "x2")) (Some db1)).
Definition lease1 := getWorkflowWorkItem opts 10 "t1" (Some db2).
Definition db3 : DB := tables lease1.

Definition workItem (token : string) (s : option WorkflowRuntimeState) : WorkflowWorkItem :=
  mkWorkflowWorkItem "wf1" [startOf "wf1" "x1"] token 0 s None ∅.

(** The turn: it takes in the start event, records a child and completes. *)
Definition turn (msgs : list WorkflowRuntimeStateMessage) : WorkflowRuntimeState :=
  set_PendingMessages msgs
    (AddEvents (NewWorkflowRuntimeState "wf1" None []) [startOf "wf1" "x1"; childCreated; doneEvent]).1.

Definition db4 : DB := tables (AddNewWorkflowEvent "wf1" (Some raised) (Some db3)).
Definition db5 : DB := tables (CompleteWorkflowWorkItem 40 (workItem "t1" (Some (turn []))) (Some db4)).

Example turn_runs :
  lease1.2 = Ok (workItem "t1" None) /\
  length (History db5) = 3%nat /\ map ir_RuntimeStatus (Instances db5) = ["COMPLETED"; "PENDING"].
Proof. vm_compute. done. Qed.

Lemma db1_step who : sqlite_step opts who emptyDB db1.
Proof. apply (step_create _ _ 5 (Some (startOf "wf1" "x1"))). vm_compute. reflexivity. Qed.

Lemma db2_step who : sqlite_step opts who db1 db2.
Proof. apply (step_create _ _ 6 (Some (startOf "wf2" "x2"))). vm_compute. reflexivity. Qed.

Lemma db3_step : sqlite_step opts (fun _ => True) db2 db3.
Proof. eapply (step_lease _ _ 10 "t1"); [done |]. vm_compute. reflexivity. Qed.

Lemma db4_step who : sqlite_step opts who db3 db4.
Proof. apply (step_add _ _ "wf1" (Some raised)). vm_compute. reflexivity. Qed.

Lemma turn_inv msgs : hist_inv (turn msgs).
Proof. split; vm_compute; try reflexivity. decide_now. Qed.

Lemma db5_step : sqlite_step opts (fun _ => True) db4 db5.
Proof.
  eapply (step_complete _ _ 40 (workItem "t1" (Some (turn []))) (turn [])); [done | done | | | ].
  - vm_compute. reflexivity.
  - apply turn_inv.
  - vm_compute. reflexivity.
Qed.

Lemma db3_wf : db_wf db3.
Proof.
  eapply sqlite_step_wf; [apply db3_step |]. eapply sqlite_step_wf; [apply (db2_step (fun _ => True)) |].
  eapply sqlite_step_wf; [apply (db1_step (fun _ => True)) | apply db_wf_empty].
Qed.

Lemma db4_wf : db_wf db4.
Proof. eapply sqlite_step_wf; [apply (db4_step (fun _ => True)) | apply db3_wf]. Qed.

Lemma db5_wf : db_wf db5.
Proof. eapply sqlite_step_wf; [apply db5_step | apply db4_wf]. Qed.

(** ** Leases *)

(** A second worker gets the other instance. *)
Lemma lease_mutual_exclusion_witness :
  exists be wi, getWorkflowWorkItem opts 11 "t2" lease1.1 = (be, Ok wi) /\
    owi_InstanceID wi <> owi_InstanceID (workItem "t1" None).
Proof.
  eexists _, _. split; [vm_compute; reflexivity |].
  eapply (lease_mutual_exclusion opts 10 "t1" (Some db2) lease1.1 _ 11 "t2");
    [vm_compute; reflexivity | vm_compute; discriminate | vm_compute; reflexivity].
Defined.

(** The lease of the first worker expires and a second one takes over. *)
Definition late : Z := 10 + 2 * Minute + 1.
Definition lease2 := getWorkflowWorkItem opts late "t2" (Some db3).

Lemma stale_lease_is_fenced_witness :
  is_Ok lease2.2 = true /\
  (CompleteWorkflowWorkItem 40 (workItem "t1" (Some (turn []))) lease2.1).1 = lease2.1 /\
  is_Ok (CompleteWorkflowWorkItem 40 (workItem "t1" (Some (turn []))) lease2.1).2 = false /\
  AbandonWorkflowWorkItem 40 (workItem "t1" (Some (turn []))) lease2.1
    = (lease2.1, Err ErrWorkItemLockLost).
Proof.
  split; [vm_compute; reflexivity |].
  eapply (stale_lease_is_fenced opts late "t2" (Some db3));
    [vm_compute; reflexivity | vm_compute; reflexivity | vm_compute; discriminate].
Defined.

Lemma external_delivery_idempotent_witness :
  let be1 := (AddNewWorkflowEventWithExternalDelivery "wf1" "go" "d1" (Some raised) (Some db3)).1 in
  AddNewWorkflowEventWithExternalDelivery "wf1" "go" "d1" (Some raised) be1 = (be1, Ok tt) /\
  exists db db1', Some db3 = Some db /\ be1 = Some db1' /\
    (("wf1", "go", "d1") ∈ ExternalEventDeliveries db /\ db1' = db \/
     ("wf1", "go", "d1") ∉ ExternalEventDeliveries db /\
     exists row, NewEventsT db1' = NewEventsT db ++ [row] /\ ne_InstanceID row = "wf1" /\
       ne_LockedBy row = None /\ ne_VisibleTime row = None).
Proof.
  eapply (external_delivery_idempotent "wf1" "go" "d1" (Some raised));
    vm_compute; reflexivity.
Defined.

Lemma lease_delivers_in_order_witness :
  exists inst seqs, inst ∈ Instances db2 /\ ir_InstanceID inst = "wf1" /\ StronglySorted Z.le seqs /\
    Forall2 (fun q e => exists r, r ∈ NewEventsT db2 /\ ne_InstanceID r = "wf1" /\
      nullOrLe (ne_VisibleTime r) 10 = true /\ delivers (ir_ExecutionID inst) q e r)
      seqs [startOf "wf1" "x1"].
Proof.
  eapply (lease_delivers_in_order opts 10 "t1" (Some db2) _ (workItem "t1" None) db2);
    [vm_compute; reflexivity | reflexivity | decide_now].
Defined.

(** ** Commits *)


Lemma lease_protects_history_witness : readHistory db4 "wf1" = readHistory db3 "wf1".
Proof.
  eapply (lease_protects_history opts 40 (workItem "t1" (Some (turn []))) "t1" db3 db4 db5).
  - apply db3_wf.
  - eapply rtc_l; [apply db4_step | apply rtc_refl].
  - vm_compute. eexists. split; [left | split; reflexivity].
  - reflexivity.
  - vm_compute. reflexivity.
Defined.

Lemma commit_roundtrip_witness :
  GetInstanceHistory "wf1" (Some db5) = inl [startOf "wf1" "x1"; childCreated; doneEvent].
Proof.
  eapply (commit_roundtrip 40 (workItem "t1" (Some (turn []))) (turn []) db4 db5).
  - apply db4_wf.
  - reflexivity.
  - vm_compute. reflexivity.
  - apply Forall_nil_2.
  - vm_compute. reflexivity.
Defined.

Lemma work_item_settles_once_witness :
  is_Ok (CompleteWorkflowWorkItem 50 (workItem "t1" (Some (turn []))) (Some db5)).2 = false /\
  AbandonWorkflowWorkItem 50 (workItem "t1" (Some (turn []))) (Some db5)
    = (Some db5, Err ErrWorkItemLockLost).
Proof.
  eapply (work_item_settles_once opts 40 50 (workItem "t1" (Some (turn []))) _ db4 db5 db5).
  - left. vm_compute. reflexivity.
  - apply rtc_refl.
  - reflexivity.
  - reflexivity.
Defined.

(** The turn completes and starts [wf1] again. *)
Definition restart : WorkflowRuntimeState :=
  turn [mkWorkflowRuntimeStateMessage (startOf "wf1" "x1") "wf1" None].

Lemma self_restart_never_commits_witness :
  RuntimeStatus restart = COMPLETED /\
  (CompleteWorkflowWorkItem 40 (workItem "t1" (Some restart)) (Some db4)).1 = Some db4 /\
  is_Ok (CompleteWorkflowWorkItem 40 (workItem "t1" (Some restart)) (Some db4)).2 = false.
Proof.
  split; [vm_compute; reflexivity |].
  apply (self_restart_never_commits 40 (workItem "t1" (Some restart)) restart db4).
  - apply db4_wf.
  - reflexivity.
  - vm_compute. reflexivity.
  - vm_compute. left. reflexivity.
Defined.

(** ** A served turn *)

#[local] Instance anyRange : MapRange :=
  {| mapRange := map_to_list; mapRange_perm := fun _ => reflexivity _ |}.

(** An executor that completes the workflow at once. *)
Definition finisher : WorkflowExecutor := {|
  ExecuteWorkflow := fun _ _ _ _ _ => Ok (respond [act 9 (completeWith COMPLETED "r1")])
|}.

Definition served : TurnSt * outcome error unit :=
  serveTurn (mkWorkflowProcessor finisher None "" sampleApplier) (fun _ => None) db3
    (workItem "t1" None) sampleWorld.

Definition db6 : DB := tables (CompleteWorkflowWorkItem 60 (t_wi served.1) (Some db4)).

Lemma turn_end_to_end_witness :
  exists s', GetInstanceHistory "wf1" (Some db6) = inl (history s') /\
    history s' = [turnStarted; startOf "wf1" "x1"; turnDone] /\ clean_log (history s').
Proof.
  destruct (turn_end_to_end opts (mkWorkflowProcessor finisher None "" sampleApplier) (fun _ => None)
    10 "t1" db2 db3 (workItem "t1" None) sampleWorld [] served.1 60 db4 db6) as (s' & Hs & Hh & _ & Hc & _).
  - eapply sqlite_step_wf; [apply (db2_step (fun _ => True)) |].
    eapply sqlite_step_wf; [apply (db1_step (fun _ => True)) | apply db_wf_empty].
  - vm_compute. reflexivity.
  - vm_compute. reflexivity.
  - decide_now.
  - split_and!; [vm_compute; auto.. | apply NoDup_nil_2].
  - decide_now.
  - vm_compute. reflexivity.
  - eapply rtc_l; [apply db4_step | apply rtc_refl].
  - vm_compute. reflexivity.
  - exists s'.
    split_and!; [apply Hh | | exact Hc].
    + vm_compute in Hs. injection Hs as <-. apply Forall_nil_2.
    + vm_compute in Hs. injection Hs as <-. reflexivity.
Defined.

(** ** Purges *)

Lemma purge_removes_one_witness :
  (PurgeWorkflowState "wf1" None false false (Some db5)).1.2 = 1 /\
  exists db', Some (without "wf1" db5) = Some db' /\ rowsOf db' "wf1" = 0%nat.
Proof.
  split; [vm_compute; reflexivity |].
  pose proof (purge_removes_one "wf1" None false false db5 db5_wf eq_refl) as H.
  assert (PurgeWorkflowState "wf1" None false false (Some db5) = (Some (without "wf1" db5), 1, None))
    as E by (vm_compute; reflexivity).
  rewrite E in H. destruct H as (db' & Hdb & [(_ & _ & _ & H & _)|[(H & _)|(H & _)]]).
  - eauto.
  - exfalso. clear -H. discriminate H.
  - exfalso. clear -H. discriminate H.
Defined.

Lemma sample_decode_error b err :
  Unmarshal b = inr err -> errorsIs err ErrInstanceNotFound = false.
Proof. cbn. intros H. repeat case_match; by simplify_eq. Qed.

(** The recursive purge of [wf1], whose recorded child [wf2] is still pending. *)
Definition store5 : Store := exist _ db5 db5_wf.

Lemma purged5_ok : exists st', purgeWorkflowState 3 store5 "wf1" None true false = Some (st', 1, None) /\
  map ir_InstanceID (Instances (proj1_sig st')) = ["wf2"] /\ History (proj1_sig st') = [].
Proof.
  assert (match purgeWorkflowState 3 store5 "wf1" None true false with
          | Some (st', n, None) => Some (n, map ir_InstanceID (Instances (proj1_sig st')), History (proj1_sig st'))
          | _ => None
          end = Some (1, ["wf2"], [])) as E by (vm_compute; reflexivity).
  destruct (purgeWorkflowState 3 store5 "wf1" None true false) as [[[st' n] [err|]]|];
    [discriminate E | | discriminate E].
  exists st'. injection E as -> -> ->. done.
Qed.

Lemma store5_has : "wf1" ∈ storeInstances store5.
Proof. apply storeInstances_elem. vm_compute. discriminate. Qed.

Lemma sqlite_recursive_purge_witness :
  exists st' : Store, forall d, @descendant Store _ (sqlitePurgeOk sample_decode_error) store5 "wf1" d ->
    ownHistory (proj1_sig st') d = [].
Proof.
  destruct purged5_ok as (st' & E & _). exists st'.
  exact (sqlite_recursive_purge sample_decode_error 3 store5 "wf1" false st' 1 store5_has E).
Defined.

(** The recorded child [wf2] is pending when its parent is purged. *)
Lemma pending_instance_outlives_purge_witness :
  exists (st' : Store) row, findInstance db5 "wf2" = Some row /\ findInstance (proj1_sig st') "wf2" = Some row.
Proof.
  destruct purged5_ok as (st' & E & _). exists st'. eexists. split; [vm_compute; reflexivity |].
  apply (pending_instance_outlives_purge 3 store5 "wf1" false st' 1 None "wf2" _ E);
    vm_compute; reflexivity.
Defined.
