(* ===== verification/TaskRegistry.v ===== *)
(** * Registry and retry policies (task/registry.go, task/activity.go)

    The registry maps names to workflow and activity functions; workflows may be
    registered in versions.  The lock of the registry makes every method atomic, so a
    method is a function of the registry.  [W] and [A] are the types of the two
    kinds of functions. *)

From stdpp Require Import base list option strings gmap.
From Stdlib Require Import ZArith Lia QArith Qpower Qround.
From S2P Require Import Prelude Errors.

(** ** Names of functions (api/helpers/task.go) *)

(** [strings.LastIndexByte]: -1 when there is none. *)
Fixpoint lastIndexFrom (i : Z) (s : string) (c : Ascii.ascii) (found : Z) : Z :=
  match s with
  | EmptyString => found
  | String a s => lastIndexFrom (i + 1) s c (if Ascii.eqb a c then i else found)
  end.
Definition LastIndexByte (s : string) (c : Ascii.ascii) : Z := lastIndexFrom 0 s c (-1).

Definition dot : Ascii.ascii := Ascii.ascii_of_nat 46.

(** [f] is a name, or a function, of which the runtime knows the full name
    (github.com/org/module/package.function). *)
Definition GetTaskFunctionName (f : string + string) : string :=
  match f with
  | inl name => name
  | inr name =>
      let startIndex := LastIndexByte name dot in
      if 0 <? startIndex
      then String.substring (Z.to_nat (startIndex + 1)) (String.length name - Z.to_nat (startIndex + 1)) name
      else name
  end.

(** ** Registry *)

Section Registry.
Context {W A : Type}.

Record TaskRegistry := mkTaskRegistry {
  reg_workflows : gmap string W;
  reg_versionedWorkflows : gmap string (gmap string W);
  reg_latestVersionedWorkflows : gmap string string;
  reg_activities : gmap string A
}.

Definition NewTaskRegistry : TaskRegistry := mkTaskRegistry ∅ ∅ ∅ ∅.

Definition AddWorkflowN (name : string) (o : W) (r : TaskRegistry) : TaskRegistry * option error :=
  match reg_workflows r !! name with
  | Some _ => (r, Some (errorNew ("workflow named '" +:+ name +:+ "' is already registered")))
  | None =>
      (mkTaskRegistry (<[name := o]> (reg_workflows r)) (reg_versionedWorkflows r)
         (reg_latestVersionedWorkflows r) (reg_activities r), None)
  end.

(** The assignments the two versioned registrations share. *)
Definition setVersion (canonicalName name : string) (isLatest : bool) (o : W) (r : TaskRegistry)
    : TaskRegistry :=
  let versions := default ∅ (reg_versionedWorkflows r !! canonicalName) in
  mkTaskRegistry (reg_workflows r) (<[canonicalName := <[name := o]> versions]> (reg_versionedWorkflows r))
    (if isLatest then <[canonicalName := name]> (reg_latestVersionedWorkflows r)
     else reg_latestVersionedWorkflows r)
    (reg_activities r).

Definition AddVersionedWorkflowN (canonicalName name : string) (isLatest : bool) (o : W) (r : TaskRegistry)
    : TaskRegistry * option error :=
  match reg_versionedWorkflows r !! canonicalName ≫= lookup name with
  | Some _ => (r, Some (errorNew ("versioned workflow named '" +:+ name +:+ "' is already registered")))
  | None => (setVersion canonicalName name isLatest o r, None)
  end.

Definition UpsertVersionedWorkflowN (canonicalName name : string) (isLatest : bool) (o : W) (r : TaskRegistry)
    : TaskRegistry :=
  setVersion canonicalName name isLatest o r.

Definition UpsertActivityN (name : string) (a : A) (r : TaskRegistry) : TaskRegistry :=
  mkTaskRegistry (reg_workflows r) (reg_versionedWorkflows r) (reg_latestVersionedWorkflows r)
    (<[name := a]> (reg_activities r)).

Definition AddActivityN (name : string) (a : A) (r : TaskRegistry) : TaskRegistry * option error :=
  match reg_activities r !! name with
  | Some _ => (r, Some (errorNew ("activity named '" +:+ name +:+ "' is already registered")))
  | None => (UpsertActivityN name a r, None)
  end.

(** Registration under the name of the function itself; [fullName] is what the runtime
    calls it. *)
Definition AddWorkflow (fullName : string) (o : W) : TaskRegistry -> TaskRegistry * option error :=
  AddWorkflowN (GetTaskFunctionName (inr fullName)) o.
Definition AddVersionedWorkflow (canonicalName : string) (isLatest : bool) (fullName : string) (o : W)
    : TaskRegistry -> TaskRegistry * option error :=
  AddVersionedWorkflowN canonicalName (GetTaskFunctionName (inr fullName)) isLatest o.
Definition AddActivity (fullName : string) (a : A) : TaskRegistry -> TaskRegistry * option error :=
  AddActivityN (GetTaskFunctionName (inr fullName)) a.

(** Exact match, then versions, then the wildcard. *)
Definition ResolveWorkflow (name : string) (pinnedVersion : option string) (r : TaskRegistry)
    : (W * option string) + error :=
  match reg_workflows r !! name with
  | Some w => inl (w, None)
  | None =>
      match reg_versionedWorkflows r !! name with
      | Some versions =>
          match (match pinnedVersion with
                 | Some v => Some v
                 | None => reg_latestVersionedWorkflows r !! name
                 end) with
          | None => inr (errorNew ("versioned workflow '" +:+ name +:+ "' does not have a latest version registered"))
          | Some versionToUse =>
              match versions !! versionToUse with
              | Some w => inl (w, Some versionToUse)
              | None => inr UnsupportedVersionError
              end
          end
      | None =>
          match pinnedVersion with
          | Some _ => inr UnsupportedVersionError
          | None =>
              match reg_workflows r !! "*" with
              | Some w => inl (w, None)
              | None => inr (errorNew ("workflow named '" +:+ name +:+ "' is not registered"))
              end
          end
      end
  end.

Definition getActivity (name : string) (r : TaskRegistry) : option A := reg_activities r !! name.

Definition RemoveVersionedWorkflow (canonicalName : string) (r : TaskRegistry) : TaskRegistry :=
  mkTaskRegistry (reg_workflows r) (delete canonicalName (reg_versionedWorkflows r))
    (delete canonicalName (reg_latestVersionedWorkflows r)) (reg_activities r).

Definition RemoveActivity (name : string) (r : TaskRegistry) : TaskRegistry :=
  mkTaskRegistry (reg_workflows r) (reg_versionedWorkflows r) (reg_latestVersionedWorkflows r)
    (delete name (reg_activities r)).

(** *** A version once pinned stays resolvable *)

(** Registrations by which a running program may change its registry. *)
Inductive reg_step : TaskRegistry -> TaskRegistry -> Prop :=
| reg_addWorkflow name o r : reg_step r (AddWorkflowN name o r).1
| reg_addVersioned c name latest o r : reg_step r (AddVersionedWorkflowN c name latest o r).1
| reg_addActivity name a r : reg_step r (AddActivityN name a r).1
| reg_upsertActivity name a r : reg_step r (UpsertActivityN name a r)
| reg_removeActivity name r : reg_step r (RemoveActivity name r).

Lemma setVersion_lookup c name latest o r c' v :
  reg_versionedWorkflows (setVersion c name latest o r) !! c' ≫= lookup v =
    (if decide (c' = c /\ v = name) then Some o else reg_versionedWorkflows r !! c' ≫= lookup v).
Proof.
  unfold setVersion. cbn. destruct (decide (c' = c)) as [-> | Hc].
  - rewrite lookup_insert_eq. cbn. destruct (decide (v = name)) as [-> | Hv].
    + rewrite decide_True by done. apply lookup_insert_eq.
    + rewrite decide_False by tauto. rewrite lookup_insert_ne by done.
      by destruct (reg_versionedWorkflows r !! c).
  - rewrite lookup_insert_ne by done. by rewrite decide_False by tauto.
Qed.

Lemma reg_step_versions r r' c v o :
  reg_step r r' -> reg_versionedWorkflows r !! c ≫= lookup v = Some o ->
  reg_versionedWorkflows r' !! c ≫= lookup v = Some o.
Proof.
  destruct 1 as [name o' r | c' name latest o' r | name a r | name a r | name r]; intros Hv; try done.
  - unfold AddWorkflowN. by destruct (reg_workflows r !! name).
  - unfold AddVersionedWorkflowN. destruct (reg_versionedWorkflows r !! c' ≫= lookup name) eqn:E; [done |].
    cbn [fst]. rewrite setVersion_lookup. destruct (decide _) as [[-> ->]|]; [congruence | done].
  - unfold AddActivityN. by destruct (reg_activities r !! name).
Qed.

Lemma resolve_pinned r name v o :
  reg_workflows r !! name = None -> reg_versionedWorkflows r !! name ≫= lookup v = Some o ->
  ResolveWorkflow name (Some v) r = inl (o, Some v).
Proof.
  intros Hn Hv. unfold ResolveWorkflow. rewrite Hn.
  destruct (reg_versionedWorkflows r !! name) as [versions|]; [| done]. cbn in Hv. by rewrite Hv.
Qed.

(** A version once chosen stays the version: when a name resolved to version [v] of a
    workflow, and the program then registers further workflows, versions and activities
    in any order, also a new latest version, an execution pinned to [v] still runs the
    same function (unless an unversioned workflow took the name). *)
Theorem pinned_version_stable r r' name pinned v o :
  ResolveWorkflow name pinned r = inl (o, Some v) -> rtc reg_step r r' -> reg_workflows r' !! name = None ->
  ResolveWorkflow name (Some v) r' = inl (o, Some v).
Proof.
  intros Hr Hs Hn. apply resolve_pinned; [done |].
  assert (reg_versionedWorkflows r !! name ≫= lookup v = Some o) as Hv.
  { unfold ResolveWorkflow in Hr. destruct (reg_workflows r !! name); [done |].
    destruct (reg_versionedWorkflows r !! name) as [versions|]; cbn; [| by repeat case_match; simplify_eq].
    case_match; [| done]. by destruct (versions !! _) eqn:E; simplify_eq. }
  clear Hr Hn. induction Hs as [r | r r1 r' Hstep Hs IH]; [done |]. by apply IH, (reg_step_versions r).
Qed.

End Registry.
Arguments TaskRegistry : clear implicits.

(** ** Retry policies

    [float64] with the operations of the delay computation.  The conversion to an
    integer truncates; integers up to 2^53 are floats. *)
Class Float64 := {
  float : Type;
  fofZ : Z -> float;
  fmul : float -> float -> float;
  fpow : float -> float -> float;
  fltb : float -> float -> bool;
  ftrunc : float -> Z;
  ftrunc_lt : forall x y, - 2 ^ 53 ≤ y ≤ 2 ^ 53 -> fltb x (fofZ y) = true -> ftrunc x ≤ y;
  ftrunc_nonneg : forall x, fltb x (fofZ 0) = false -> 0 ≤ ftrunc x
}.

Section Retry.
Context `{HF : Float64}.

Record RetryPolicy := mkRetryPolicy {
  rp_MaxAttempts : Z;
  rp_InitialRetryInterval : Z;
  rp_BackoffCoefficient : float;
  rp_MaxRetryInterval : Z;
  rp_RetryTimeout : Z;
  rp_Handle : option (error -> bool)
}.

(** [policy.Validate()] fills in defaults, in place. *)
Definition Validate (policy : RetryPolicy) : RetryPolicy * option error :=
  if rp_InitialRetryInterval policy <=? 0
  then (policy, Some (errorNew "InitialRetryInterval must be greater than 0"))
  else
    (mkRetryPolicy
       (if rp_MaxAttempts policy <=? 0 then 1 else rp_MaxAttempts policy)
       (rp_InitialRetryInterval policy)
       (if fltb (fofZ 0) (rp_BackoffCoefficient policy) then rp_BackoffCoefficient policy else fofZ 1)
       (if rp_MaxRetryInterval policy <=? 0 then int64_max else rp_MaxRetryInterval policy)
       (if rp_RetryTimeout policy <=? 0 then int64_max else rp_RetryTimeout policy)
       (Some (default (fun _ => true) (rp_Handle policy))), None).

(** [d.Milliseconds()] *)
Definition Milliseconds (d : Z) : Z := Z.quot d Millisecond.

Definition computeNextDelay (currentTimeUtc : Z) (policy : RetryPolicy) (attempt : Z) (firstAttempt : Z)
    (err : error) : Z :=
  if default (fun _ => true) (rp_Handle policy) err then
    let isExpired :=
      if rp_RetryTimeout policy =? int64_max then false
      else firstAttempt + rp_RetryTimeout policy <? currentTimeUtc in
    if isExpired then 0
    else
      let nextDelayMs := fmul (fofZ (Milliseconds (rp_InitialRetryInterval policy)))
                              (fpow (rp_BackoffCoefficient policy) (fofZ attempt)) in
      if fltb nextDelayMs (fofZ (Milliseconds (rp_MaxRetryInterval policy)))
      then int64_of (ftrunc nextDelayMs * Millisecond)
      else rp_MaxRetryInterval policy
  else 0.

(** A validated policy has its fields in range. *)
Definition policy_ok (policy : RetryPolicy) : Prop :=
  1 ≤ rp_MaxAttempts policy /\ 0 < rp_InitialRetryInterval policy /\
  0 < rp_MaxRetryInterval policy ≤ int64_max /\ 0 < rp_RetryTimeout policy.

Lemma Validate_ok policy :
  rp_MaxRetryInterval policy ≤ int64_max ->
  match Validate policy with
  | (p, None) => policy_ok p
  | (_, Some _) => rp_InitialRetryInterval policy ≤ 0
  end.
Proof.
  intros Hm. unfold Validate, policy_ok. destruct (Z.leb_spec (rp_InitialRetryInterval policy) 0) as [|Hi]; [done |].
  cbn. split_and!; [| done | | |].
  - destruct (Z.leb_spec (rp_MaxAttempts policy) 0); lia.
  - destruct (Z.leb_spec (rp_MaxRetryInterval policy) 0); [done | lia].
  - destruct (Z.leb_spec (rp_MaxRetryInterval policy) 0); [done | lia].
  - destruct (Z.leb_spec (rp_RetryTimeout policy) 0); [done | lia].
Qed.

(** A delay is at most the maximal interval of the policy, and never negative
    unless the float computation was. *)
Lemma computeNextDelay_bounds now policy attempt first err :
  policy_ok policy ->
  fltb (fmul (fofZ (Milliseconds (rp_InitialRetryInterval policy)))
             (fpow (rp_BackoffCoefficient policy) (fofZ attempt))) (fofZ 0) = false ->
  0 ≤ computeNextDelay now policy attempt first err ≤ rp_MaxRetryInterval policy.
Proof.
  intros (_ & _ & Hm & _) Hnn. unfold computeNextDelay.
  destruct (default _ _ err); [| lia]. destruct (if _ =? _ then _ else _); [lia |].
  set (x := fmul _ _) in *. destruct (fltb x (fofZ (Milliseconds (rp_MaxRetryInterval policy)))) eqn:E; [| lia].
  assert (0 ≤ Milliseconds (rp_MaxRetryInterval policy) ≤ 2 ^ 53) as Hms.
  { unfold Milliseconds, Millisecond. unfold int64_max in Hm. split; [apply Z.quot_pos; lia |].
    transitivity (Z.quot (2 ^ 63 - 1) (10 ^ 6)); [apply Z.quot_le_mono; lia | done]. }
  assert (ftrunc x ≤ Milliseconds (rp_MaxRetryInterval policy)) as Ht by (apply ftrunc_lt; [lia | done]).
  pose proof (ftrunc_nonneg x Hnn) as H0.
  assert (Milliseconds (rp_MaxRetryInterval policy) * Millisecond ≤ rp_MaxRetryInterval policy) as Hq.
  { unfold Milliseconds. rewrite Z.mul_comm. apply Z.mul_quot_le; [lia | done]. }
  assert (0 ≤ ftrunc x * Millisecond ≤ rp_MaxRetryInterval policy) by
    (change Millisecond with 1000000 in *; nia).
  rewrite int64_of_id; [lia |]. unfold int64_max in *. lia.
Qed.

(** An interval below a millisecond is rounded to zero. *)
Lemma computeNextDelay_submillisecond now policy attempt first err :
  0 < rp_InitialRetryInterval policy < Millisecond -> Millisecond ≤ rp_MaxRetryInterval policy ->
  fmul (fofZ 0) (fpow (rp_BackoffCoefficient policy) (fofZ attempt)) = fofZ 0 -> ftrunc (fofZ 0) = 0 ->
  (forall y, 0 < y -> fltb (fofZ 0) (fofZ y) = true) ->
  computeNextDelay now policy attempt first err = 0.
Proof.
  intros Hi Hm Hz Ht Hl. unfold computeNextDelay. destruct (default _ _ err); [| done].
  destruct (if _ =? _ then _ else _); [done |].
  assert (Milliseconds (rp_InitialRetryInterval policy) = 0) as -> by (apply Z.quot_small; lia).
  rewrite Hz, Hl, Ht; [done |]. apply Z.quot_str_pos. split; [done | lia].
Qed.

(** The delay before a retry of a validated policy is within zero and the maximal
    interval; and an initial interval below a millisecond is accepted by [Validate] but
    gives the delay zero on every attempt, which the retry loops take for the end of the
    retries. *)
Theorem retry_delay_bounds now policy policy' attempt first err :
  Validate policy = (policy', None) -> rp_MaxRetryInterval policy ≤ int64_max ->
  let x := fmul (fofZ (Milliseconds (rp_InitialRetryInterval policy')))
                (fpow (rp_BackoffCoefficient policy') (fofZ attempt)) in
  fltb x (fofZ 0) = false ->
  0 ≤ computeNextDelay now policy' attempt first err ≤ rp_MaxRetryInterval policy' /\
  (rp_InitialRetryInterval policy < Millisecond -> Millisecond ≤ rp_MaxRetryInterval policy' ->
   fmul (fofZ 0) (fpow (rp_BackoffCoefficient policy') (fofZ attempt)) = fofZ 0 -> ftrunc (fofZ 0) = 0 ->
   (forall y, 0 < y -> fltb (fofZ 0) (fofZ y) = true) -> computeNextDelay now policy' attempt first err = 0).
Proof.
  intros Hv Hm x Hx. pose proof (Validate_ok policy Hm) as Hok. rewrite Hv in Hok.
  split; [by apply computeNextDelay_bounds |]. intros Hi. apply computeNextDelay_submillisecond. split; [apply Hok |].
  unfold Validate in Hv. case_match; simplify_eq. done.
Qed.

End Retry.

(** Exact rationals are one such arithmetic. *)
Definition exactFloat : Float64.
Proof.
  refine {| float := Q; fofZ := inject_Z; fmul := Qmult; fpow x y := Qpower x (Qfloor y);
    fltb x y := negb (Qle_bool y x); ftrunc x := Z.quot (Qnum x) (Zpos (Qden x)) |}.
  - intros x y _ H. apply negb_true_iff in H.
    assert (~ (inject_Z y <= x)%Q) as Hn by (rewrite <- Qle_bool_iff; congruence).
    unfold Qle in Hn. cbn in Hn. destruct (Z.le_gt_cases 0 (Qnum x)).
    + rewrite Z.quot_div_nonneg by lia. apply Z.div_le_upper_bound; lia.
    + rewrite <- (Z.opp_involutive (Qnum x)), Z.quot_opp_l, Z.quot_div_nonneg by lia.
      assert (- y ≤ - Qnum x / Zpos (Qden x)) by (apply Z.div_le_lower_bound; lia). lia.
  - intros x H. apply negb_false_iff, Qle_bool_iff in H. unfold Qle in H. cbn in H. apply Z.quot_pos; lia.
Defined.
