(* ===== verification/TaskTable.v ===== *)
(** * Pending work of a workflow execution (task/task.go, task/orchestrator.go)

    While a workflow function runs, its context keeps the actions it has decided and
    that history does not show yet, the tasks that wait for a result, results that
    came early, and external events and their waiters.  Tasks, actions and lists are
    shared objects: they live in a heap and are named by pointers.  This file has the
    part of [WorkflowContext] that handlers and scheduling calls change; the rest of
    the context and the running of the function are in [TaskProgram] and
    [TaskExecutor]. *)

From stdpp Require Import base list option strings gmap sorting pretty.
From Stdlib Require Import ZArith Lia.
From S2P Require Import Prelude Errors Protos Dedup.

#[global] Instance Kind_countable : Countable Kind.
Proof.
  refine (inj_countable' (fun k => Z.to_nat (kindValue k))
    (fun n => match n with 0%nat => KindNone | 1%nat => KindTask | 2%nat => KindTimer | _ => KindChild end) _).
  by intros [].
Defined.

(** ** Tasks *)

(** The closure [WaitForSingleEvent] registers on its timer: the task it waits
    with, the list of waiters it is in, and the key of that list. *)
Record timeoutCallback := mkTimeoutCallback {
  cb_task : nat;
  cb_list : nat;
  cb_key : string
}.

Record completableTask := mkCompletableTask {
  ct_isCompleted : bool;
  ct_isCanceled : bool;
  ct_rawResult : string;
  ct_failureDetails : option TaskFailureDetails;
  ct_completedCallback : option timeoutCallback;
  ct_taskExecutionId : string;
  ct_childInstanceID : string;
  ct_childAction : option nat;
  ct_kind : Kind
}.

Definition newTask (kind : Kind) : completableTask :=
  mkCompletableTask false false "" None None "" "" None kind.

Definition set_completed (t : completableTask) : completableTask :=
  mkCompletableTask true (ct_isCanceled t) (ct_rawResult t) (ct_failureDetails t) (ct_completedCallback t)
    (ct_taskExecutionId t) (ct_childInstanceID t) (ct_childAction t) (ct_kind t).
Definition set_canceled (t : completableTask) : completableTask :=
  mkCompletableTask (ct_isCompleted t) true (ct_rawResult t) (ct_failureDetails t) (ct_completedCallback t)
    (ct_taskExecutionId t) (ct_childInstanceID t) (ct_childAction t) (ct_kind t).
Definition set_rawResult (v : string) (t : completableTask) : completableTask :=
  mkCompletableTask (ct_isCompleted t) (ct_isCanceled t) v (ct_failureDetails t) (ct_completedCallback t)
    (ct_taskExecutionId t) (ct_childInstanceID t) (ct_childAction t) (ct_kind t).
Definition set_failureDetails (v : TaskFailureDetails) (t : completableTask) : completableTask :=
  mkCompletableTask (ct_isCompleted t) (ct_isCanceled t) (ct_rawResult t) (Some v) (ct_completedCallback t)
    (ct_taskExecutionId t) (ct_childInstanceID t) (ct_childAction t) (ct_kind t).
Definition set_callback (v : timeoutCallback) (t : completableTask) : completableTask :=
  mkCompletableTask (ct_isCompleted t) (ct_isCanceled t) (ct_rawResult t) (ct_failureDetails t) (Some v)
    (ct_taskExecutionId t) (ct_childInstanceID t) (ct_childAction t) (ct_kind t).
Definition set_taskExecutionId (v : string) (t : completableTask) : completableTask :=
  mkCompletableTask (ct_isCompleted t) (ct_isCanceled t) (ct_rawResult t) (ct_failureDetails t)
    (ct_completedCallback t) v (ct_childInstanceID t) (ct_childAction t) (ct_kind t).
Definition set_childInstanceID (v : string) (t : completableTask) : completableTask :=
  mkCompletableTask (ct_isCompleted t) (ct_isCanceled t) (ct_rawResult t) (ct_failureDetails t)
    (ct_completedCallback t) (ct_taskExecutionId t) v (ct_childAction t) (ct_kind t).
Definition set_childAction (v : nat) (t : completableTask) : completableTask :=
  mkCompletableTask (ct_isCompleted t) (ct_isCanceled t) (ct_rawResult t) (ct_failureDetails t)
    (ct_completedCallback t) (ct_taskExecutionId t) (ct_childInstanceID t) (Some v) (ct_kind t).

(** ** Resolutions

    The event a buffered resolution's [redeliver] closure hands to its handler. *)
Inductive resolution :=
| ResTaskCompleted (tc : TaskCompletedEvent)
| ResTaskFailed (tf : TaskFailedEvent)
| ResTimerFired (tf : TimerFiredEvent)
| ResChildCompleted (soc : ChildWorkflowInstanceCompletedEvent)
| ResChildFailed (sof : ChildWorkflowInstanceFailedEvent).

(** ** The table *)

Record Heap := mkHeap {
  h_actions : gmap nat WorkflowAction;
  h_tasks : gmap nat completableTask;
  h_lists : gmap nat (list nat);
  h_next : nat
}.

Record Table := mkTable {
  tb_sequenceNumber : Z;
  tb_pendingActions : gmap Z nat;
  tb_pendingTasks : gmap Z nat;
  tb_optionalTimerIDs : gset Z;
  tb_bufferedResolutions : gmap (Kind * Z) resolution;
  tb_resolvedResolutions : gset (Kind * Z);
  tb_bufferedExternalEvents : gmap string (list HistoryEvent);
  tb_pendingExternalEventTasks : gmap string nat;
  tb_heap : Heap
}.

(** Field assignment. *)
Definition set_sequenceNumber (v : Z) (b : Table) : Table :=
  mkTable v (tb_pendingActions b) (tb_pendingTasks b) (tb_optionalTimerIDs b) (tb_bufferedResolutions b)
    (tb_resolvedResolutions b) (tb_bufferedExternalEvents b) (tb_pendingExternalEventTasks b) (tb_heap b).
Definition set_pendingActions (v : gmap Z nat) (b : Table) : Table :=
  mkTable (tb_sequenceNumber b) v (tb_pendingTasks b) (tb_optionalTimerIDs b) (tb_bufferedResolutions b)
    (tb_resolvedResolutions b) (tb_bufferedExternalEvents b) (tb_pendingExternalEventTasks b) (tb_heap b).
Definition set_pendingTasks (v : gmap Z nat) (b : Table) : Table :=
  mkTable (tb_sequenceNumber b) (tb_pendingActions b) v (tb_optionalTimerIDs b) (tb_bufferedResolutions b)
    (tb_resolvedResolutions b) (tb_bufferedExternalEvents b) (tb_pendingExternalEventTasks b) (tb_heap b).
Definition set_optionalTimerIDs (v : gset Z) (b : Table) : Table :=
  mkTable (tb_sequenceNumber b) (tb_pendingActions b) (tb_pendingTasks b) v (tb_bufferedResolutions b)
    (tb_resolvedResolutions b) (tb_bufferedExternalEvents b) (tb_pendingExternalEventTasks b) (tb_heap b).
Definition set_bufferedResolutions (v : gmap (Kind * Z) resolution) (b : Table) : Table :=
  mkTable (tb_sequenceNumber b) (tb_pendingActions b) (tb_pendingTasks b) (tb_optionalTimerIDs b) v
    (tb_resolvedResolutions b) (tb_bufferedExternalEvents b) (tb_pendingExternalEventTasks b) (tb_heap b).
Definition set_resolvedResolutions (v : gset (Kind * Z)) (b : Table) : Table :=
  mkTable (tb_sequenceNumber b) (tb_pendingActions b) (tb_pendingTasks b) (tb_optionalTimerIDs b)
    (tb_bufferedResolutions b) v (tb_bufferedExternalEvents b) (tb_pendingExternalEventTasks b) (tb_heap b).
Definition set_bufferedExternalEvents (v : gmap string (list HistoryEvent)) (b : Table) : Table :=
  mkTable (tb_sequenceNumber b) (tb_pendingActions b) (tb_pendingTasks b) (tb_optionalTimerIDs b)
    (tb_bufferedResolutions b) (tb_resolvedResolutions b) v (tb_pendingExternalEventTasks b) (tb_heap b).
Definition set_pendingExternalEventTasks (v : gmap string nat) (b : Table) : Table :=
  mkTable (tb_sequenceNumber b) (tb_pendingActions b) (tb_pendingTasks b) (tb_optionalTimerIDs b)
    (tb_bufferedResolutions b) (tb_resolvedResolutions b) (tb_bufferedExternalEvents b) v (tb_heap b).
Definition set_heap (v : Heap) (b : Table) : Table :=
  mkTable (tb_sequenceNumber b) (tb_pendingActions b) (tb_pendingTasks b) (tb_optionalTimerIDs b)
    (tb_bufferedResolutions b) (tb_resolvedResolutions b) (tb_bufferedExternalEvents b)
    (tb_pendingExternalEventTasks b) v.

(** Objects: allocation, reading and writing through a pointer. *)
Definition getAction (p : nat) (b : Table) : option WorkflowAction := h_actions (tb_heap b) !! p.
Definition getTask (p : nat) (b : Table) : option completableTask := h_tasks (tb_heap b) !! p.
Definition getList (p : nat) (b : Table) : list nat := default [] (h_lists (tb_heap b) !! p).

Definition allocAction (a : WorkflowAction) (b : Table) : nat * Table :=
  let h := tb_heap b in
  (h_next h, set_heap (mkHeap (<[h_next h := a]> (h_actions h)) (h_tasks h) (h_lists h) (S (h_next h))) b).
Definition allocTask (t : completableTask) (b : Table) : nat * Table :=
  let h := tb_heap b in
  (h_next h, set_heap (mkHeap (h_actions h) (<[h_next h := t]> (h_tasks h)) (h_lists h) (S (h_next h))) b).
Definition allocList (b : Table) : nat * Table :=
  let h := tb_heap b in
  (h_next h, set_heap (mkHeap (h_actions h) (h_tasks h) (<[h_next h := []]> (h_lists h)) (S (h_next h))) b).

Definition modAction (f : WorkflowAction -> WorkflowAction) (p : nat) (b : Table) : Table :=
  let h := tb_heap b in
  set_heap (mkHeap (alter f p (h_actions h)) (h_tasks h) (h_lists h) (h_next h)) b.
Definition modTask (f : completableTask -> completableTask) (p : nat) (b : Table) : Table :=
  let h := tb_heap b in
  set_heap (mkHeap (h_actions h) (alter f p (h_tasks h)) (h_lists h) (h_next h)) b.
Definition setList (p : nat) (l : list nat) (b : Table) : Table :=
  let h := tb_heap b in
  set_heap (mkHeap (h_actions h) (h_tasks h) (<[p := l]> (h_lists h)) (h_next h)) b.

(** ** Completing tasks *)

(** What the timer of a waiter does when it completes: nothing if the event came
    first, else it cancels the task and takes it off its list. *)
Definition onTimeout (cancel : nat -> Table -> Table) (cb : timeoutCallback) (b : Table) : Table :=
  match getTask (cb_task cb) b with
  | Some task =>
      if ct_isCompleted task then b
      else
        let b := cancel (cb_task cb) b in
        let taskList := getList (cb_list cb) b in
        if (1 <? length taskList)%nat
        then setList (cb_list cb) (filter (fun p => p <> cb_task cb) taskList) b
        else set_pendingExternalEventTasks (delete (cb_key cb) (tb_pendingExternalEventTasks b)) b
  | None => b
  end.

(** [completeInternal], with the callback it runs.  The only callback is the one of a
    waiter's timer, and the waiter it cancels has none, so a depth of two is
    enough ([completeInternal_depth]). *)
Fixpoint completeInternal (depth : nat) (p : nat) (b : Table) : Table :=
  match depth with
  | O => b
  | S depth =>
      let b := modTask set_completed p b in
      match getTask p b ≫= ct_completedCallback with
      | Some cb => onTimeout (fun q b => completeInternal depth q (modTask set_canceled q b)) cb b
      | None => b
      end
  end.

Definition callbackDepth : nat := 2.

(** [complete], [fail] and [cancel] of task.go. *)
Definition taskComplete (rawResult : string) (p : nat) (b : Table) : Table :=
  completeInternal callbackDepth p (modTask (set_rawResult rawResult) p b).

Definition noFailureDetails : TaskFailureDetails :=
  mkTaskFailureDetails "TaskFailed" "task failed without failure details" None None false.

Definition taskFail (fd : option TaskFailureDetails) (p : nat) (b : Table) : Table :=
  completeInternal callbackDepth p (modTask (set_failureDetails (default noFailureDetails fd)) p b).

Definition taskCancel (p : nat) (b : Table) : Table :=
  completeInternal callbackDepth p (modTask set_canceled p b).

Definition onCompleted (p : nat) (cb : timeoutCallback) (b : Table) : Table :=
  match getTask p b with
  | Some t => if ct_isCompleted t then onTimeout taskCancel cb b else modTask (set_callback cb) p b
  | None => b
  end.

(** ** Resolutions *)

Definition getNextSequenceNumber (b : Table) : Z * Table :=
  (tb_sequenceNumber b, set_sequenceNumber (int32_of (tb_sequenceNumber b + 1)) b).

(** Ids at or after an optional timer are provisional. *)
Definition resolutionIDProvisional (id : Z) (b : Table) : bool :=
  existsb (fun timerID => timerID <=? id) (elements (tb_optionalTimerIDs b)).

Definition bufferResolution (key : Kind * Z) (r : resolution) (b : Table) : Table :=
  if bool_decide (key ∈ tb_resolvedResolutions b) then b
  else match tb_bufferedResolutions b !! key with
       | Some _ => b
       | None => set_bufferedResolutions (<[key := r]> (tb_bufferedResolutions b)) b
       end.

Definition GetScheduleTask (a : WorkflowAction) : option ScheduleTaskAction :=
  match wa_Type a with Some (WorkflowAction_ScheduleTask x) => Some x | _ => None end.
Definition GetCreateChildWorkflow (a : WorkflowAction) : option CreateChildWorkflowAction :=
  match wa_Type a with Some (WorkflowAction_CreateChildWorkflow x) => Some x | _ => None end.
Definition GetCreateTimer (a : WorkflowAction) : option CreateTimerAction :=
  match wa_Type a with Some (WorkflowAction_CreateTimer x) => Some x | _ => None end.
Definition GetCreateDetachedWorkflow (a : WorkflowAction) : option CreateDetachedWorkflowAction :=
  match wa_Type a with Some (WorkflowAction_CreateDetachedWorkflow x) => Some x | _ => None end.

Definition setTaskExecutionId (executionID : string) (a : WorkflowAction) : WorkflowAction :=
  match wa_Type a with
  | Some (WorkflowAction_ScheduleTask x) =>
      mkWorkflowAction (wa_Id a)
        (Some (WorkflowAction_ScheduleTask
          (mkScheduleTaskAction (sa_Name x) (sa_Version x) (sa_Input x) executionID
             (sa_HistoryPropagationScope x)))) (wa_Router a)
  | _ => a
  end.

Definition restoreActivityScheduleIdentity (taskID : Z) (executionID : string) (b : Table) : Table :=
  match tb_pendingActions b !! taskID with
  | Some p => modAction (setTaskExecutionId executionID) p b
  | None => b
  end.

(** What the five handlers share: the pending task of the right kind is taken out and
    finished, anything else is buffered. *)
Definition onResolution (key : Kind * Z) (r : resolution) (finish : nat -> Table -> Table) (b : Table)
    : Table :=
  match tb_pendingTasks b !! key.2 with
  | Some p =>
      if bool_decide (ct_kind <$> getTask p b = Some key.1) && negb (resolutionIDProvisional key.2 b)
      then finish p (set_resolvedResolutions ({[key]} ∪ tb_resolvedResolutions b)
                       (set_pendingTasks (delete key.2 (tb_pendingTasks b)) b))
      else bufferResolution key r b
  | None => bufferResolution key r b
  end.

Definition onTaskCompleted (tc : TaskCompletedEvent) (b : Table) : Table :=
  let taskID := tc_TaskScheduledId tc in
  onResolution (KindTask, taskID) (ResTaskCompleted tc)
    (fun p b => taskComplete (GetValue (tc_Result tc)) p
                  (restoreActivityScheduleIdentity taskID (tc_TaskExecutionId tc) b)) b.

Definition onTaskFailed (tf : TaskFailedEvent) (b : Table) : Table :=
  let taskID := tf_TaskScheduledId tf in
  onResolution (KindTask, taskID) (ResTaskFailed tf)
    (fun p b => taskFail (tf_FailureDetails tf) p
                  (modTask (set_taskExecutionId (tf_TaskExecutionId tf)) p
                    (restoreActivityScheduleIdentity taskID (tf_TaskExecutionId tf) b))) b.

Definition onChildWorkflowCompleted (soc : ChildWorkflowInstanceCompletedEvent) (b : Table) : Table :=
  onResolution (KindChild, cc_TaskScheduledId soc) (ResChildCompleted soc)
    (taskComplete (GetValue (cc_Result soc))) b.

Definition onChildWorkflowFailed (sof : ChildWorkflowInstanceFailedEvent) (b : Table) : Table :=
  onResolution (KindChild, cf_TaskScheduledId sof) (ResChildFailed sof)
    (taskFail (cf_FailureDetails sof)) b.

Definition onTimerFired (tf : TimerFiredEvent) (b : Table) : Table :=
  onResolution (KindTimer, tfd_TimerId tf) (ResTimerFired tf) (taskComplete "") b.

(** [br.redeliver()] *)
Definition redeliver (r : resolution) (b : Table) : Table :=
  match r with
  | ResTaskCompleted tc => onTaskCompleted tc b
  | ResTaskFailed tf => onTaskFailed tf b
  | ResTimerFired tf => onTimerFired tf b
  | ResChildCompleted soc => onChildWorkflowCompleted soc b
  | ResChildFailed sof => onChildWorkflowFailed sof b
  end.

Definition consumeBufferedResolution (kind : Kind) (id : Z) (b : Table) : Table :=
  match tb_bufferedResolutions b !! (kind, id) with
  | Some br =>
      if resolutionIDProvisional id b then b
      else redeliver br (set_bufferedResolutions (delete (kind, id) (tb_bufferedResolutions b)) b)
  | None => b
  end.

(** Deliver what is buffered for the pending tasks [ids]. *)
Definition consumeAt (ids : list Z) (b : Table) : Table :=
  foldl (fun b id =>
    match tb_pendingTasks b !! id ≫= fun p => getTask p b with
    | Some task => consumeBufferedResolution (ct_kind task) id b
    | None => b
    end) b ids.

(** Ids of a map in ascending order, as [sort.Slice] leaves them. *)
Definition sortedIds {A} (m : gmap Z A) : list Z := merge_sort Z.le (map_to_list m).*1.

Definition consumeReadyBufferedResolutions (b : Table) : Table :=
  if bool_decide (tb_bufferedResolutions b = ∅) then b
  else consumeAt (sortedIds (tb_pendingTasks b)) b.

(** ** Optional timers *)

(** [time.Date(9999, 12, 31, 23, 59, 59, 999999999, time.UTC)] *)
Definition externalEventIndefiniteFireAt : Z := 253402300799 * Second + 999999999.

Definition isOptionalExternalEventTimerAction (a : WorkflowAction) : bool :=
  match GetCreateTimer a with
  | Some ct =>
      match ta_Origin ct, ta_FireAt ct with
      | Some (Origin_ExternalEvent _), Some fa => fa =? externalEventIndefiniteFireAt
      | _, _ => false
      end
  | None => false
  end.

Definition isOptionalExternalEventTimerCreatedEvent (tc : TimerCreatedEvent) : bool :=
  match tcr_Origin tc, tcr_FireAt tc with
  | Some (Origin_ExternalEvent _), Some fa => fa =? externalEventIndefiniteFireAt
  | _, _ => false
  end.

Definition pendingAction (id : Z) (b : Table) : option WorkflowAction :=
  tb_pendingActions b !! id ≫= fun p => getAction p b.

(** Move the pending action [id] down by one. *)
Definition shiftAction (b : Table) (id : Z) : Table :=
  match tb_pendingActions b !! id with
  | Some p =>
      let b := set_pendingActions (<[int32_of (id - 1) := p]> (delete id (tb_pendingActions b)))
                 (modAction (fun a => mkWorkflowAction (int32_of (id - 1)) (wa_Type a) (wa_Router a)) p b) in
      if bool_decide (id ∈ tb_optionalTimerIDs b)
      then set_optionalTimerIDs ({[int32_of (id - 1)]} ∪ (tb_optionalTimerIDs b ∖ {[id]})) b
      else b
  | None => b
  end.

Definition shiftTask (b : Table) (id : Z) : Table :=
  match tb_pendingTasks b !! id with
  | Some p => set_pendingTasks (<[int32_of (id - 1) := p]> (delete id (tb_pendingTasks b))) b
  | None => b
  end.

Definition laterIds {A} (atID : Z) (m : gmap Z A) : list Z := filter (fun id => atID < id) (sortedIds m).

Definition dropOptionalExternalEventTimerAt (atID : Z) (b : Table) : bool * Table :=
  match pendingAction atID b with
  | Some a =>
      if isOptionalExternalEventTimerAction a then
        let b := set_optionalTimerIDs (tb_optionalTimerIDs b ∖ {[atID]})
                   (set_pendingTasks (delete atID (tb_pendingTasks b))
                     (set_pendingActions (delete atID (tb_pendingActions b)) b)) in
        let b := foldl shiftAction b (laterIds atID (tb_pendingActions b)) in
        let taskIDs := laterIds atID (tb_pendingTasks b) in
        let b := foldl shiftTask b taskIDs in
        let b := set_sequenceNumber (int32_of (tb_sequenceNumber b - 1)) b in
        (true, consumeAt ((fun id => int32_of (id - 1)) <$> taskIDs) b)
      else (false, b)
  | None => (false, b)
  end.

(** [for ctx.dropOptionalExternalEventTimerAt(taskID) { }]: every round removes a
    pending action, so their number is enough fuel. *)
Fixpoint dropLoop (fuel : nat) (taskID : Z) (b : Table) : Table :=
  match fuel with
  | O => b
  | S fuel =>
      match dropOptionalExternalEventTimerAt taskID b with
      | (true, b) => dropLoop fuel taskID b
      | (false, b) => b
      end
  end.

Definition dropAllAt (taskID : Z) (b : Table) : Table :=
  dropLoop (S (size (tb_pendingActions b))) taskID b.

(** ** Scheduling events of the history *)

Definition removePendingAction (taskID : Z) (b : Table) : Table :=
  set_pendingActions (delete taskID (tb_pendingActions b)) b.

(** The pending action [taskID] has kind [get], after optional timers were dropped. *)
Definition alignAction {X} (get : WorkflowAction -> option X) (drop : Z -> Table -> Table) (taskID : Z)
    (b : Table) : Table * option (WorkflowAction * X) :=
  let found b := a ← pendingAction taskID b; x ← get a; Some (a, x) in
  match found b with
  | Some r => (b, Some r)
  | None => let b := drop taskID b in (b, found b)
  end.

Definition onTaskScheduled (taskID : Z) (ts : TaskScheduledEvent) (b : Table) : Table * option error :=
  match alignAction GetScheduleTask dropAllAt taskID b with
  | (b, Some _) => (removePendingAction taskID b, None)
  | (b, None) =>
      (b, Some (errorNew ("a previous execution called CallActivity for '" +:+ ts_Name ts +:+
        "' and sequence number " +:+ pretty taskID +:+ " at this point in the workflow logic, but the current " +:+
        "execution doesn't have this action with this sequence number")))
  end.

Definition onChildWorkflowScheduled (taskID : Z) (ts : ChildWorkflowInstanceCreatedEvent) (b : Table)
    : Table * option error :=
  match alignAction GetCreateChildWorkflow dropAllAt taskID b with
  | (b, Some _) =>
      let b := match tb_pendingTasks b !! taskID with
               | Some p =>
                   if bool_decide (ct_kind <$> getTask p b = Some KindChild)
                   then modTask (set_childInstanceID (cw_InstanceId ts)) p b else b
               | None => b
               end in
      (removePendingAction taskID b, None)
  | (b, None) =>
      (b, Some (errorNew ("a previous execution called CallChildWorkflow for '" +:+ cw_Name ts +:+
        "' and sequence number " +:+ pretty taskID +:+ " at this point in the workflow logic, but the current " +:+
        "execution doesn't have this action with this sequence number")))
  end.

(** Here a single optional timer is dropped. *)
Definition onDetachedWorkflowCreated (taskID : Z) (dw : DetachedWorkflowInstanceCreatedEvent) (b : Table)
    : Table * option error :=
  match alignAction GetCreateDetachedWorkflow (fun id b => (dropOptionalExternalEventTimerAt id b).2) taskID b with
  | (b, Some (_, scheduled)) =>
      if String.eqb (da_InstanceId scheduled) (dw_InstanceId dw) then (removePendingAction taskID b, None)
      else
        (b, Some (errorNew ("a previous execution called ScheduleNewWorkflow for instance ID '" +:+
          dw_InstanceId dw +:+ "' and sequence number " +:+ pretty taskID +:+ " at this point in the workflow " +:+
          "logic, but the current execution scheduled instance ID '" +:+ da_InstanceId scheduled +:+ "'")))
  | (b, None) =>
      (b, Some (errorNew ("a previous execution called ScheduleNewWorkflow for instance ID '" +:+
        dw_InstanceId dw +:+ "' and sequence number " +:+ pretty taskID +:+ " at this point in the workflow " +:+
        "logic, but the current execution doesn't have this action with this sequence number")))
  end.

(** An optional timer gives way to a timer that is not optional; a confirmed timer
    releases the results held back after it. *)
Definition onTimerCreated (eventID : Z) (tc : TimerCreatedEvent) (b : Table) : Table * option error :=
  let b := if isOptionalExternalEventTimerCreatedEvent tc then b else dropAllAt eventID b in
  match pendingAction eventID b ≫= GetCreateTimer with
  | Some _ =>
      (consumeReadyBufferedResolutions
         (set_optionalTimerIDs (tb_optionalTimerIDs b ∖ {[eventID]}) (removePendingAction eventID b)), None)
  | None =>
      (b, Some (errorNew ("a previous execution called CreateTimer with sequence number " +:+ pretty eventID +:+
        ", but the current execution doesn't have this action with this sequence number")))
  end.

(** ** Scheduling *)

(** A new action under the next sequence number, with the task that waits for its
    result; a result that came early is delivered at once. *)
Definition scheduleAction (ty : WorkflowActionType) (router : option TaskRouter) (b : Table) : Z * nat * Table :=
  let '(id, b) := getNextSequenceNumber b in
  let '(a, b) := allocAction (mkWorkflowAction id (Some ty) router) b in
  (id, a, set_pendingActions (<[id := a]> (tb_pendingActions b)) b).

Definition registerTask (t : completableTask) (id : Z) (b : Table) : nat * Table :=
  let '(p, b) := allocTask t b in
  (p, consumeBufferedResolution (ct_kind t) id (set_pendingTasks (<[id := p]> (tb_pendingTasks b)) b)).

Definition createTimerInternal (currentTimeUtc : Z) (name : option string) (delay : Z) (b : Table)
    : nat * nat * Table :=
  let '(id, a, b) := scheduleAction
    (WorkflowAction_CreateTimer (mkCreateTimerAction (Some (currentTimeUtc + delay)) name (Some Origin_CreateTimer)))
    None b in
  let '(p, b) := registerTask (newTask KindTimer) id b in
  (p, a, b).

Definition createExternalEventTimerInternal (eventName : string) (fireAt : Z) (b : Table) : nat * Table :=
  let timer := WorkflowAction_CreateTimer
    (mkCreateTimerAction (Some fireAt) (Some eventName) (Some (Origin_ExternalEvent eventName))) in
  let '(id, a, b) := scheduleAction timer None b in
  let b := if isOptionalExternalEventTimerAction (mkWorkflowAction id (Some timer) None)
           then set_optionalTimerIDs ({[id]} ∪ tb_optionalTimerIDs b) b else b in
  registerTask (newTask KindTimer) id b.

(** [setTimerOrigin] assigns through the pointer to the action. *)
Definition setTimerOriginAt (origin : TimerOrigin) (a : nat) (b : Table) : Table :=
  modAction (fun act =>
    match wa_Type act with
    | Some (WorkflowAction_CreateTimer x) =>
        mkWorkflowAction (wa_Id act)
          (Some (WorkflowAction_CreateTimer (mkCreateTimerAction (ta_FireAt x) (ta_Name x) (Some origin))))
          (wa_Router act)
    | _ => act
    end) a b.

(** ** External events

    Names are compared in upper case; [ToUpper] is [strings.ToUpper]. *)

Section Events.
Variable ToUpper : string -> string.

Definition WaitForSingleEvent (currentTimeUtc : Z) (eventName : string) (timeout : Z) (b : Table) : nat * Table :=
  let '(task, b) := allocTask (newTask KindNone) b in
  let key := ToUpper eventName in
  match tb_bufferedExternalEvents b !! key with
  | Some eventList =>
      let b := if (1 <? length eventList)%nat
               then set_bufferedExternalEvents (<[key := tail eventList]> (tb_bufferedExternalEvents b)) b
               else set_bufferedExternalEvents (delete key (tb_bufferedExternalEvents b)) b in
      let rawValue := GetValue ((head eventList ≫= GetEventRaised) ≫= er_Input) in
      (task, taskComplete rawValue task b)
  | None =>
      if timeout =? 0 then (task, taskCancel task b)
      else
        let '(l, b) := match tb_pendingExternalEventTasks b !! key with
                       | Some l => (l, b)
                       | None =>
                           let '(l, b) := allocList b in
                           (l, set_pendingExternalEventTasks (<[key := l]> (tb_pendingExternalEventTasks b)) b)
                       end in
        let b := setList l (getList l b ++ [task]) b in
        let fireAt := if 0 <? timeout then currentTimeUtc + timeout else externalEventIndefiniteFireAt in
        let '(timer, b) := createExternalEventTimerInternal eventName fireAt b in
        (task, onCompleted timer (mkTimeoutCallback task l key) b)
  end.

(** A registered list is never empty. *)
Definition onExternalEventRaised (e : HistoryEvent) (b : Table) : Table :=
  let key := ToUpper (default "" (er_Name <$> GetEventRaised e)) in
  match tb_pendingExternalEventTasks b !! key with
  | Some l =>
      match getList l b with
      | task :: rest =>
          let b := if (1 <? length (task :: rest))%nat then setList l rest b
                   else set_pendingExternalEventTasks (delete key (tb_pendingExternalEventTasks b)) b in
          taskComplete (GetValue (GetEventRaised e ≫= er_Input)) task b
      | [] => b
      end
  | None =>
      set_bufferedExternalEvents
        (<[key := default [] (tb_bufferedExternalEvents b !! key) ++ [e]]> (tb_bufferedExternalEvents b)) b
  end.

End Events.

(** ** The decisions of a turn *)

Definition actionIDProvisional (id : Z) (b : Table) : bool :=
  negb (bool_decide (tb_bufferedResolutions b = ∅)) &&
  existsb (fun timerID =>
    (timerID <=? id) && existsb (fun kr => timerID <=? kr.1.2) (map_to_list (tb_bufferedResolutions b)))
    (elements (tb_optionalTimerIDs b)).

Definition isVersionNotAvailable (a : WorkflowAction) : bool :=
  match wa_Type a with Some WorkflowAction_WorkflowVersionNotAvailable => true | _ => false end.

Definition addCarryover (events : list HistoryEvent) (a : WorkflowAction) : WorkflowAction :=
  match wa_Type a with
  | Some (WorkflowAction_CompleteWorkflow co) =>
      mkWorkflowAction (wa_Id a)
        (Some (WorkflowAction_CompleteWorkflow
          (mkCompleteWorkflowAction (co_WorkflowStatus co) (co_Result co) (co_Details co) (co_NewVersion co)
             (co_CarryoverEvents co ++ events) (co_FailureDetails co)))) (wa_Router a)
  | _ => a
  end.

(** [actions[i].Id < actions[j].Id], as the order of [sort.Slice]. *)
Definition action_le (x y : WorkflowAction) : Prop := wa_Id x ≤ wa_Id y.
#[global] Instance action_le_dec : RelDecision action_le.
Proof. intros x y. unfold action_le. apply _. Defined.

(** Is the action emitted, rather than held back? *)
Definition emitted (b : Table) (a : WorkflowAction) : bool :=
  match GetCompleteWorkflow a with
  | Some _ => true
  | None => isVersionNotAvailable a || negb (actionIDProvisional (wa_Id a) b)
  end.

Definition tableActions `{RangeOrder} (carry : bool) (b : Table) : list WorkflowAction :=
  let pending := omap (fun kp => getAction kp.2 b) (rangeOrder (tb_pendingActions b)) in
  let events := if carry then concat (rangeOrder (tb_bufferedExternalEvents b)).*2 else [] in
  merge_sort action_le (addCarryover events <$> filter (fun a => emitted b a = true) pending).
