(* ===== verification/TaskProgram.v ===== *)
(** * Workflow functions (task/orchestrator.go, task/task.go, task/retry.go, task/detached.go)

    A workflow function is user code that calls methods of its context and awaits
    tasks.  Here it is a tree ([Workflow]) whose nodes are those calls, with the answer
    as argument of the rest: every function that makes finitely many calls between
    its start and its end.  The methods are programs ([Prog]) over the context,
    with one primitive that may consume history, the await of a task; [TaskExecutor]
    runs them. *)

From stdpp Require Import base list option strings gmap pretty.
From Stdlib Require Import ZArith Lia.
From S2P Require Import Prelude Errors Protos Dedup Propagation Helpers TaskRegistry TaskTable.

(** Values of type [any], and [marshalData] of a value that is not nil. *)
Class Marshaler := {
  any : Type;
  marshalAny : any -> string + error
}.

Definition marshalData `{Marshaler} (v : option any) : string + error :=
  match v with
  | None => inl ""
  | Some v => marshalAny v
  end.

Section Program.
Context `{HF : Float64} `{HM : Marshaler}.

(** ** Options *)

Record callActivityOptions := mkCallActivityOptions {
  ao_rawInput : option string;
  ao_retryPolicy : option RetryPolicy;
  ao_targetAppID : option string;
  ao_targetAppNamespace : option string;
  ao_propagationScope : option HistoryPropagationScope
}.

Definition CallActivityOption : Type := callActivityOptions -> callActivityOptions + error.

Record callChildWorkflowOptions := mkCallChildWorkflowOptions {
  wo_instanceID : string;
  wo_rawInput : option string;
  wo_targetAppID : option string;
  wo_targetAppNamespace : option string;
  wo_retryPolicy : option RetryPolicy;
  wo_propagationScope : option HistoryPropagationScope
}.

Definition ChildWorkflowOption : Type := callChildWorkflowOptions -> callChildWorkflowOptions + error.

Record scheduleNewWorkflowOptions := mkScheduleNewWorkflowOptions {
  no_instanceID : option string;
  no_rawInput : option string;
  no_scheduledStartTimestamp : option Z;
  no_parentTraceContext : option TraceContext;
  no_targetAppID : option string;
  no_targetAppNamespace : option string
}.

Definition DetachedWorkflowOptions : Type := scheduleNewWorkflowOptions -> scheduleNewWorkflowOptions + error.

(** [for _, configure := range opts]: the first error ends it. *)
Fixpoint applyOptions {O} (opts : list (O -> O + error)) (o : O) : O + error :=
  match opts with
  | [] => inl o
  | configure :: rest =>
      match configure o with
      | inl o => applyOptions rest o
      | inr err => inr err
      end
  end.

Definition WithActivityAppID (targetAppID : string) : CallActivityOption := fun o =>
  inl (mkCallActivityOptions (ao_rawInput o) (ao_retryPolicy o) (Some targetAppID) (ao_targetAppNamespace o)
         (ao_propagationScope o)).
Definition WithActivityAppNamespace (namespace : string) : CallActivityOption := fun o =>
  inl (mkCallActivityOptions (ao_rawInput o) (ao_retryPolicy o) (ao_targetAppID o) (Some namespace)
         (ao_propagationScope o)).
Definition WithActivityInput (input : option any) : CallActivityOption := fun o =>
  match marshalData input with
  | inl data => inl (mkCallActivityOptions (Some data) (ao_retryPolicy o) (ao_targetAppID o)
                       (ao_targetAppNamespace o) (ao_propagationScope o))
  | inr err => inr err
  end.
Definition WithRawActivityInput (input : option string) : CallActivityOption := fun o =>
  inl (mkCallActivityOptions input (ao_retryPolicy o) (ao_targetAppID o) (ao_targetAppNamespace o)
         (ao_propagationScope o)).
Definition WithActivityRetryPolicy (policy : option RetryPolicy) : CallActivityOption := fun o =>
  match policy with
  | None => inl o
  | Some policy =>
      match Validate policy with
      | (_, Some err) => inr err
      | (policy, None) => inl (mkCallActivityOptions (ao_rawInput o) (Some policy) (ao_targetAppID o)
                                 (ao_targetAppNamespace o) (ao_propagationScope o))
      end
  end.
(** Options of history propagation (api/propagation.go): they overwrite a scope. *)
Definition PropagationOption : Type := HistoryPropagationScope -> HistoryPropagationScope.
Definition PropagateOwnHistory : PropagationOption := fun _ => SCOPE_OWN_HISTORY.
Definition PropagateLineage : PropagationOption := fun _ => SCOPE_LINEAGE.
Definition NewHistoryPropagationScope (opt : option PropagationOption) : HistoryPropagationScope :=
  match opt with
  | Some opt => opt SCOPE_NONE
  | None => SCOPE_NONE
  end.

(** The option for both kinds of calls is the scope. *)
Definition WithHistoryPropagation (opt : option PropagationOption) : HistoryPropagationScope :=
  NewHistoryPropagationScope opt.

(** [WithHistoryPropagation] applied to an activity. *)
Definition propagateToActivity (scope : HistoryPropagationScope) : CallActivityOption := fun o =>
  inl (mkCallActivityOptions (ao_rawInput o) (ao_retryPolicy o) (ao_targetAppID o) (ao_targetAppNamespace o)
         (Some scope)).

Definition WithChildWorkflowAppID (appID : string) : ChildWorkflowOption := fun o =>
  inl (mkCallChildWorkflowOptions (wo_instanceID o) (wo_rawInput o) (Some appID) (wo_targetAppNamespace o)
         (wo_retryPolicy o) (wo_propagationScope o)).
Definition WithChildWorkflowAppNamespace (namespace : string) : ChildWorkflowOption := fun o =>
  inl (mkCallChildWorkflowOptions (wo_instanceID o) (wo_rawInput o) (wo_targetAppID o) (Some namespace)
         (wo_retryPolicy o) (wo_propagationScope o)).
Definition WithChildWorkflowInput (input : option any) : ChildWorkflowOption := fun o =>
  match marshalData input with
  | inl data => inl (mkCallChildWorkflowOptions (wo_instanceID o) (Some data) (wo_targetAppID o)
                       (wo_targetAppNamespace o) (wo_retryPolicy o) (wo_propagationScope o))
  | inr err => inr (errorWrap "failed to marshal input to JSON" err)
  end.
Definition WithRawChildWorkflowInput (input : option string) : ChildWorkflowOption := fun o =>
  inl (mkCallChildWorkflowOptions (wo_instanceID o) input (wo_targetAppID o) (wo_targetAppNamespace o)
         (wo_retryPolicy o) (wo_propagationScope o)).
Definition WithChildWorkflowInstanceID (instanceID : string) : ChildWorkflowOption := fun o =>
  inl (mkCallChildWorkflowOptions instanceID (wo_rawInput o) (wo_targetAppID o) (wo_targetAppNamespace o)
         (wo_retryPolicy o) (wo_propagationScope o)).
Definition WithChildWorkflowRetryPolicy (policy : option RetryPolicy) : ChildWorkflowOption := fun o =>
  match policy with
  | None => inl o
  | Some policy =>
      match Validate policy with
      | (_, Some err) => inr err
      | (policy, None) => inl (mkCallChildWorkflowOptions (wo_instanceID o) (wo_rawInput o) (wo_targetAppID o)
                                 (wo_targetAppNamespace o) (Some policy) (wo_propagationScope o))
      end
  end.
(** [WithHistoryPropagation] applied to a child workflow. *)
Definition propagateToChild (scope : HistoryPropagationScope) : ChildWorkflowOption := fun o =>
  inl (mkCallChildWorkflowOptions (wo_instanceID o) (wo_rawInput o) (wo_targetAppID o) (wo_targetAppNamespace o)
         (wo_retryPolicy o) (Some scope)).

Definition WithDetachedWorkflowInstanceID (instanceID : string) : DetachedWorkflowOptions := fun o =>
  inl (mkScheduleNewWorkflowOptions (Some instanceID) (no_rawInput o) (no_scheduledStartTimestamp o)
         (no_parentTraceContext o) (no_targetAppID o) (no_targetAppNamespace o)).
Definition WithDetachedWorkflowInput (input : option any) : DetachedWorkflowOptions := fun o =>
  match marshalData input with
  | inl data => inl (mkScheduleNewWorkflowOptions (no_instanceID o) (Some data) (no_scheduledStartTimestamp o)
                       (no_parentTraceContext o) (no_targetAppID o) (no_targetAppNamespace o))
  | inr err => inr (errorWrap "failed to marshal input to JSON" err)
  end.
Definition WithRawDetachedWorkflowInput (input : option string) : DetachedWorkflowOptions := fun o =>
  inl (mkScheduleNewWorkflowOptions (no_instanceID o) input (no_scheduledStartTimestamp o)
         (no_parentTraceContext o) (no_targetAppID o) (no_targetAppNamespace o)).
Definition WithDetachedWorkflowStartTime (startTime : Z) : DetachedWorkflowOptions := fun o =>
  inl (mkScheduleNewWorkflowOptions (no_instanceID o) (no_rawInput o) (Some startTime)
         (no_parentTraceContext o) (no_targetAppID o) (no_targetAppNamespace o)).
Definition WithDetachedWorkflowAppID (appID : string) : DetachedWorkflowOptions := fun o =>
  inl (mkScheduleNewWorkflowOptions (no_instanceID o) (no_rawInput o) (no_scheduledStartTimestamp o)
         (no_parentTraceContext o) (Some appID) (no_targetAppNamespace o)).
Definition WithDetachedWorkflowAppNamespace (namespace : string) : DetachedWorkflowOptions := fun o =>
  inl (mkScheduleNewWorkflowOptions (no_instanceID o) (no_rawInput o) (no_scheduledStartTimestamp o)
         (no_parentTraceContext o) (no_targetAppID o) (Some namespace)).

(** ** Retried tasks *)

(** The [schedule] closure of a retried call.  For a child workflow it shares two
    variables with [setTimerOrigin], kept in a cell. *)
Inductive scheduler :=
| SchedActivity (activityName : string) (options : callActivityOptions)
| SchedChild (workflowName : string) (options : callChildWorkflowOptions) (cell : nat).

Record childCell := mkChildCell {
  cell_firstInstanceID : string;
  cell_firstTask : option nat
}.

(** What stays the same over the attempts. *)
Record retryChain := mkRetryChain {
  rc_name : string;
  rc_initialAttempt : Z;
  rc_schedule : scheduler;
  rc_policy : RetryPolicy
}.

Record retryTask := mkRetryTask {
  rt_chain : retryChain;
  rt_current : nat;
  rt_dispatchExecutionID : string;
  rt_recordedExecutionID : string;
  rt_retryCount : Z;
  rt_finished : bool;
  rt_terminalError : option error
}.

(** A [Task]: a completable task, a legacy retry wrapper (delegate and number of
    retries so far), or a retry task. *)
Inductive Task :=
| TaskC (p : nat)
| TaskW (chain : retryChain) (delegate : nat) (retryCount : Z)
| TaskR (r : nat).

(** ** The context *)

(** Position in the history, and suspension. *)
Record Cursor := mkCursor {
  cu_oldEvents : list HistoryEvent;
  cu_newEvents : list HistoryEvent;
  cu_historyIndex : nat;
  cu_IsReplaying : bool;
  cu_suspendedEvents : list HistoryEvent;
  cu_isSuspended : bool;
  cu_isTerminated : bool
}.

Record Patches := mkPatches {
  pa_history : gset string;
  pa_applied : gmap string bool;
  pa_encountered : list string
}.

(** What a turn reports besides its actions, and the counter of default ids. *)
Record Report := mkReport {
  re_customStatus : string;
  re_continuedAsNew : bool;
  re_continuedAsNewInput : option any;
  re_saveBufferedExternalEvents : bool;
  re_detachedCounter : Z
}.

Record RetryHeap := mkRetryHeap {
  rh_tasks : gmap nat retryTask;
  rh_cells : gmap nat childCell;
  rh_next : nat
}.

Record WorkflowContext := mkWorkflowContext {
  wc_ID : string;
  wc_Name : string;
  wc_VersionName : option string;
  wc_CurrentTimeUtc : Z;
  wc_rawInput : string;
  wc_propagatedHistory : option ApiPropagatedHistory;
  wc_cursor : Cursor;
  wc_table : Table;
  wc_patches : Patches;
  wc_report : Report;
  wc_retries : RetryHeap;
  wc_world : World
}.

Definition set_Name (v : string) (c : WorkflowContext) : WorkflowContext :=
  mkWorkflowContext (wc_ID c) v (wc_VersionName c) (wc_CurrentTimeUtc c) (wc_rawInput c)
    (wc_propagatedHistory c) (wc_cursor c) (wc_table c) (wc_patches c) (wc_report c) (wc_retries c) (wc_world c).
Definition set_VersionName (v : option string) (c : WorkflowContext) : WorkflowContext :=
  mkWorkflowContext (wc_ID c) (wc_Name c) v (wc_CurrentTimeUtc c) (wc_rawInput c)
    (wc_propagatedHistory c) (wc_cursor c) (wc_table c) (wc_patches c) (wc_report c) (wc_retries c) (wc_world c).
Definition set_CurrentTimeUtc (v : Z) (c : WorkflowContext) : WorkflowContext :=
  mkWorkflowContext (wc_ID c) (wc_Name c) (wc_VersionName c) v (wc_rawInput c)
    (wc_propagatedHistory c) (wc_cursor c) (wc_table c) (wc_patches c) (wc_report c) (wc_retries c) (wc_world c).
Definition set_rawInput (v : string) (c : WorkflowContext) : WorkflowContext :=
  mkWorkflowContext (wc_ID c) (wc_Name c) (wc_VersionName c) (wc_CurrentTimeUtc c) v
    (wc_propagatedHistory c) (wc_cursor c) (wc_table c) (wc_patches c) (wc_report c) (wc_retries c) (wc_world c).
Definition set_cursor (v : Cursor) (c : WorkflowContext) : WorkflowContext :=
  mkWorkflowContext (wc_ID c) (wc_Name c) (wc_VersionName c) (wc_CurrentTimeUtc c) (wc_rawInput c)
    (wc_propagatedHistory c) v (wc_table c) (wc_patches c) (wc_report c) (wc_retries c) (wc_world c).
Definition set_table (v : Table) (c : WorkflowContext) : WorkflowContext :=
  mkWorkflowContext (wc_ID c) (wc_Name c) (wc_VersionName c) (wc_CurrentTimeUtc c) (wc_rawInput c)
    (wc_propagatedHistory c) (wc_cursor c) v (wc_patches c) (wc_report c) (wc_retries c) (wc_world c).
Definition set_patches (v : Patches) (c : WorkflowContext) : WorkflowContext :=
  mkWorkflowContext (wc_ID c) (wc_Name c) (wc_VersionName c) (wc_CurrentTimeUtc c) (wc_rawInput c)
    (wc_propagatedHistory c) (wc_cursor c) (wc_table c) v (wc_report c) (wc_retries c) (wc_world c).
Definition set_report (v : Report) (c : WorkflowContext) : WorkflowContext :=
  mkWorkflowContext (wc_ID c) (wc_Name c) (wc_VersionName c) (wc_CurrentTimeUtc c) (wc_rawInput c)
    (wc_propagatedHistory c) (wc_cursor c) (wc_table c) (wc_patches c) v (wc_retries c) (wc_world c).
Definition set_retries (v : RetryHeap) (c : WorkflowContext) : WorkflowContext :=
  mkWorkflowContext (wc_ID c) (wc_Name c) (wc_VersionName c) (wc_CurrentTimeUtc c) (wc_rawInput c)
    (wc_propagatedHistory c) (wc_cursor c) (wc_table c) (wc_patches c) (wc_report c) v (wc_world c).
Definition set_world (v : World) (c : WorkflowContext) : WorkflowContext :=
  mkWorkflowContext (wc_ID c) (wc_Name c) (wc_VersionName c) (wc_CurrentTimeUtc c) (wc_rawInput c)
    (wc_propagatedHistory c) (wc_cursor c) (wc_table c) (wc_patches c) (wc_report c) (wc_retries c) v.

(** ** Programs *)

(** [PAwait t k] is [t.Await(nil)] on a completable task; [k] gets its error. *)
Inductive Prog (A : Type) : Type :=
| PRet (a : A)
| PPanic (msg : string)
| PGet (k : WorkflowContext -> Prog A)
| PPut (c : WorkflowContext) (k : Prog A)
| PAwait (t : nat) (k : option error -> Prog A).
Arguments PRet {A} a.
Arguments PPanic {A} msg.
Arguments PGet {A} k.
Arguments PPut {A} c k.
Arguments PAwait {A} t k.

Fixpoint pbind {A B} (m : Prog A) (f : A -> Prog B) : Prog B :=
  match m with
  | PRet a => f a
  | PPanic msg => PPanic msg
  | PGet k => PGet (fun c => pbind (k c) f)
  | PPut c k => PPut c (pbind k f)
  | PAwait t k => PAwait t (fun e => pbind (k e) f)
  end.

#[global] Instance Prog_ret : MRet Prog := fun A a => PRet a.
#[global] Instance Prog_bind : MBind Prog := fun A B f m => pbind m f.

Definition asks {A} (f : WorkflowContext -> A) : Prog A := PGet (fun c => PRet (f c)).
Definition modC (f : WorkflowContext -> WorkflowContext) : Prog unit := PGet (fun c => PPut (f c) (PRet tt)).
Definition onT {A} (f : Table -> A * Table) : Prog A :=
  PGet (fun c => let '(a, b) := f (wc_table c) in PPut (set_table b c) (PRet a)).
Definition modT (f : Table -> Table) : Prog unit := modC (fun c => set_table (f (wc_table c)) c).
Definition NewUUID : Prog string :=
  PGet (fun c => let '(u, w) := newUUID (wc_world c) in PPut (set_world w c) (PRet u)).

(** ** Await *)

(** [v], when it is not nil: decoding the raw result into it, or the error. *)
Definition decoder : Type := string -> option error.

Definition taskAt (p : nat) : Prog completableTask :=
  asks (fun c => default (newTask KindNone) (getTask p (wc_table c))).

(** [t.Await(v)] on a completable task: the raw result it decodes, or the error. *)
Definition awaitC (p : nat) (v : option decoder) : Prog (string + error) :=
  err ← PAwait p PRet;
  match err with
  | Some err => mret (inr err)
  | None =>
      t ← taskAt p;
      match v ≫= fun decode => if String.eqb (ct_rawResult t) "" then None else decode (ct_rawResult t) with
      | Some e => mret (inr (errorWrap "failed to decode task result" e))
      | None => mret (inl (ct_rawResult t))
      end
  end.

End Program.
Arguments PRet {_ _ _} a.
Arguments PPanic {_ _ _} msg.
Arguments PGet {_ _ _} k.
Arguments PPut {_ _ _} c k.
Arguments PAwait {_ _ _} t k.
