(* ===== verification/TaskMethods.v ===== *)
(** * Methods of the workflow context (task/orchestrator.go, task/retry.go, task/detached.go)

    Scheduling activities, child and detached workflows, timers and event waits,
    retries, patches and continue-as-new, as programs over the context; and the type
    of workflow functions with their meaning as programs. *)

From stdpp Require Import base list option strings gmap pretty.
From Stdlib Require Import ZArith Lia.
From S2P Require Import Prelude Errors Protos Dedup Propagation Helpers TaskRegistry TaskTable TaskProgram.

Section Methods.
Context `{HF : Float64} `{HM : Marshaler}.
(** [strings.ToUpper], [reflect.TypeOf(err).String()] and [err.Error()] *)
Variable ToUpper : string -> string.
Variables errorTypeName errorText : error -> string.

(** ** Scheduling *)

Definition taskRouterFromTarget (targetAppID targetAppNamespace : option string) : option TaskRouter :=
  match targetAppID with
  | None => None
  | Some appID => Some (mkTaskRouter "" (Some appID) targetAppNamespace)
  end.

Definition newFailedTask (fd : TaskFailureDetails) : Prog Task :=
  onT (fun b => let '(p, b) := allocTask (newTask KindNone) b in (TaskC p, taskFail (Some fd) p b)).

Definition failureOf (err : error) : TaskFailureDetails :=
  mkTaskFailureDetails (errorTypeName err) (errorText err) None None false.

(** [Some t] is the failed task to return. *)
Definition validateAppNamespaceRequiresAppID (targetAppID targetAppNamespace : option string)
    (errorType nsOptName appIDOptName : string) : Prog (option Task) :=
  match targetAppNamespace, targetAppID with
  | Some _, None =>
      t ← newFailedTask (mkTaskFailureDetails errorType
            (nsOptName +:+ " requires " +:+ appIDOptName +:+ " to also be set") None None false);
      mret (Some t)
  | _, _ => mret None
  end.

Definition internalScheduleActivity (activityName taskExecutionId : string) (options : callActivityOptions)
    : Prog nat :=
  onT (fun b =>
    let '(id, _, b) := scheduleAction
      (WorkflowAction_ScheduleTask (mkScheduleTaskAction activityName None (ao_rawInput options) taskExecutionId
         (ao_propagationScope options)))
      (taskRouterFromTarget (ao_targetAppID options) (ao_targetAppNamespace options)) b in
    registerTask (newTask KindTask) id b).

Definition internalCallChildWorkflow (workflowName : string) (options : callChildWorkflowOptions)
    (retryParentInstanceID : option string) : Prog nat :=
  onT (fun b =>
    let '(id, a, b) := scheduleAction
      (WorkflowAction_CreateChildWorkflow (mkCreateChildWorkflowAction (wo_instanceID options) workflowName None
         (wo_rawInput options) (wo_propagationScope options) (mkRetryParentInstanceInfo <$> retryParentInstanceID)))
      (taskRouterFromTarget (wo_targetAppID options) (wo_targetAppNamespace options)) b in
    registerTask (set_childAction a (newTask KindChild)) id b).

Definition createTimer (name : option string) (delay : Z) : Prog (nat * nat) :=
  now ← asks wc_CurrentTimeUtc;
  onT (fun b => let '(p, a, b) := createTimerInternal now name delay b in (p, a, b)).

(** ** Retries *)

Definition getCell (cell : nat) : Prog childCell :=
  asks (fun c => default (mkChildCell "" None) (rh_cells (wc_retries c) !! cell)).
Definition putCell (cell : nat) (v : childCell) : Prog unit :=
  modC (fun c => let h := wc_retries c in
    set_retries (mkRetryHeap (rh_tasks h) (<[cell := v]> (rh_cells h)) (rh_next h)) c).
Definition newCell (v : childCell) : Prog nat :=
  PGet (fun c => let h := wc_retries c in
    PPut (set_retries (mkRetryHeap (rh_tasks h) (<[rh_next h := v]> (rh_cells h)) (S (rh_next h))) c)
      (PRet (rh_next h))).

(** [schedule(taskExecutionId, isRetry)] *)
Definition schedule (s : scheduler) (taskExecutionId : string) (isRetry : bool) : Prog nat :=
  match s with
  | SchedActivity activityName options => internalScheduleActivity activityName taskExecutionId options
  | SchedChild workflowName options cell =>
      v ← getCell cell;
      if isRetry then internalCallChildWorkflow workflowName options (Some (cell_firstInstanceID v))
      else
        p ← internalCallChildWorkflow workflowName options None;
        putCell cell (mkChildCell (cell_firstInstanceID v) (Some p));;
        mret p
  end.

(** The last recorded instance id of the child scheduled under [actionID]. *)
Definition recordedChildID (actionID : Z) (events : list HistoryEvent) (dflt : string) : string :=
  foldl (fun acc e =>
    match GetChildWorkflowInstanceCreated e with
    | Some created =>
        if (EventId e =? actionID) && negb (String.eqb (cw_InstanceId created) "")
        then cw_InstanceId created else acc
    | None => acc
    end) dflt events.

(** [setTimerOrigin(action, execID)] *)
Definition setTimerOrigin (s : scheduler) (action : nat) (execID : string) : Prog unit :=
  match s with
  | SchedActivity _ _ => modT (setTimerOriginAt (Origin_ActivityRetry execID) action)
  | SchedChild _ _ cell =>
      v ← getCell cell;
      c ← asks id;
      let b := wc_table c in
      let cu := wc_cursor c in
      let firstTask := cell_firstTask v ≫= fun p => getTask p b in
      let first := match firstTask with
                   | Some t => if String.eqb (ct_childInstanceID t) "" then cell_firstInstanceID v
                               else ct_childInstanceID t
                   | None => cell_firstInstanceID v
                   end in
      let first := match (firstTask ≫= ct_childAction) ≫= fun a => getAction a b with
                   | Some act => recordedChildID (wa_Id act) (cu_oldEvents cu ++ cu_newEvents cu) first
                   | None => first
                   end in
      putCell cell (mkChildCell first (cell_firstTask v));;
      modT (setTimerOriginAt (Origin_ChildWorkflowRetry first) action)
  end.

Definition getRetry (r : nat) : Prog (option retryTask) := asks (fun c => rh_tasks (wc_retries c) !! r).
Definition putRetry (r : nat) (v : retryTask) : Prog unit :=
  modC (fun c => let h := wc_retries c in
    set_retries (mkRetryHeap (<[r := v]> (rh_tasks h)) (rh_cells h) (rh_next h)) c).
Definition newRetry (v : retryTask) : Prog nat :=
  PGet (fun c => let h := wc_retries c in
    PPut (set_retries (mkRetryHeap (<[rh_next h := v]> (rh_tasks h)) (rh_cells h) (S (rh_next h))) c)
      (PRet (rh_next h))).

Definition finishRetry (err : option error) (rt : retryTask) : retryTask :=
  mkRetryTask (rt_chain rt) (rt_current rt) (rt_dispatchExecutionID rt) (rt_recordedExecutionID rt)
    (rt_retryCount rt) true err.

(** The identity a failed attempt leaves behind. *)
Definition observeAttempt (current : completableTask) (rt : retryTask) : retryTask :=
  if negb (ct_isCanceled current) || negb (String.eqb (ct_taskExecutionId current) "")
  then mkRetryTask (rt_chain rt) (rt_current rt) (ct_taskExecutionId current) (ct_taskExecutionId current)
         (rt_retryCount rt) (rt_finished rt) (rt_terminalError rt)
  else rt.

Definition nextAttempt (current : nat) (rt : retryTask) : retryTask :=
  mkRetryTask (rt_chain rt) current (rt_dispatchExecutionID rt) (rt_recordedExecutionID rt)
    (rt_retryCount rt + 1) (rt_finished rt) (rt_terminalError rt).

(** The back-off before the next attempt: a timer that is awaited. *)
Definition backOff (chain : retryChain) (delay : Z) (execID : string) : Prog (string + error) :=
  '(timer, action) ← createTimer (Some (rc_name chain)) delay;
  setTimerOrigin (rc_schedule chain) action execID;;
  awaitC timer None.

(** The loop of [retryTask.Await].  A round that goes on has counted a retry below
    MaxAttempts, so MaxAttempts is enough fuel. *)
Fixpoint retryLoop (fuel : nat) (r : nat) : Prog unit :=
  match fuel with
  | O => mret tt
  | S fuel =>
      rt ← getRetry r;
      match rt with
      | None => PPanic "nil retry task"
      | Some rt =>
          if rt_finished rt then mret tt
          else
            let chain := rt_chain rt in
            err ← awaitC (rt_current rt) None;
            match err with
            | inl _ => putRetry r (finishRetry None rt)
            | inr err =>
                current ← taskAt (rt_current rt);
                if negb (ct_isCompleted current) then putRetry r (finishRetry (Some err) rt)
                else
                  let rt := observeAttempt current rt in
                  putRetry r rt;;
                  if rp_MaxAttempts (rc_policy chain) <=? rt_retryCount rt + 1
                  then putRetry r (finishRetry (Some err) rt)
                  else
                    now ← asks wc_CurrentTimeUtc;
                    let delay := computeNextDelay now (rc_policy chain) (rt_retryCount rt)
                                   (rc_initialAttempt chain) err in
                    if delay =? 0 then putRetry r (finishRetry (Some err) rt)
                    else
                      timerErr ← backOff chain delay (rt_dispatchExecutionID rt);
                      match timerErr with
                      | inr timerErr => putRetry r (finishRetry (Some (errorWrap (errorText timerErr) err)) rt)
                      | inl _ =>
                          p ← schedule (rc_schedule chain) (rt_dispatchExecutionID rt) true;
                          putRetry r (nextAttempt p rt);;
                          retryLoop fuel r
                      end
            end
      end
  end.

Definition awaitRetry (r : nat) (v : option decoder) : Prog (string + error) :=
  rt ← getRetry r;
  match rt with
  | None => PPanic "nil retry task"
  | Some rt =>
      retryLoop (S (Z.to_nat (rp_MaxAttempts (rc_policy (rt_chain rt))))) r;;
      rt ← getRetry r;
      match rt with
      | None => PPanic "nil retry task"
      | Some rt =>
          match rt_terminalError rt with
          | Some err => mret (inr err)
          | None => awaitC (rt_current rt) v
          end
      end
  end.

(** [Await] of the legacy wrapper: every await retries again. *)
Fixpoint awaitLegacy (fuel : nat) (chain : retryChain) (delegate : nat) (retryCount : Z) (v : option decoder)
    : Prog (string + error) :=
  match fuel with
  | O => mret (inl "")
  | S fuel =>
      err ← awaitC delegate v;
      t ← taskAt delegate;
      match err with
      | inl raw => mret (inl raw)
      | inr err =>
          if rp_MaxAttempts (rc_policy chain) <=? retryCount + 1 then mret (inr err)
          else
            now ← asks wc_CurrentTimeUtc;
            let nextDelay := computeNextDelay now (rc_policy chain) retryCount (rc_initialAttempt chain) err in
            if nextDelay =? 0 then mret (inr err)
            else
              timerErr ← backOff chain nextDelay (ct_taskExecutionId t);
              match timerErr with
              | inr timerErr => mret (inr (errorWrap (errorText timerErr) err))
              | inl _ =>
                  p ← schedule (rc_schedule chain) (ct_taskExecutionId t) true;
                  awaitLegacy fuel chain p (retryCount + 1) v
              end
      end
  end.

(** [t.Await(v)] *)
Definition Await (t : Task) (v : option decoder) : Prog (string + error) :=
  match t with
  | TaskC p => awaitC p v
  | TaskW chain delegate retryCount =>
      awaitLegacy (S (Z.to_nat (rp_MaxAttempts (rc_policy chain)))) chain delegate retryCount v
  | TaskR r => awaitRetry r v
  end.

(** [t.TaskExecutionId()] *)
Definition TaskExecutionId (t : Task) : Prog string :=
  match t with
  | TaskC p => t ← taskAt p; mret (ct_taskExecutionId t)
  | TaskW _ delegate _ => t ← taskAt delegate; mret (ct_taskExecutionId t)
  | TaskR r =>
      rt ← getRetry r;
      match rt with
      | None => PPanic "nil retry task"
      | Some rt =>
          t ← taskAt (rt_current rt);
          mret (if String.eqb (ct_taskExecutionId t) "" then rt_recordedExecutionID rt else ct_taskExecutionId t)
      end
  end.

(** ** Patches *)

Definition isPatchedIn (patchName : string) (c : WorkflowContext) : bool * WorkflowContext :=
  let pa := wc_patches c in
  match pa_applied pa !! patchName with
  | Some patched => (patched, c)
  | None =>
      let decide_ patched :=
        (patched, set_patches (mkPatches (pa_history pa) (<[patchName := patched]> (pa_applied pa))
                    (pa_encountered pa)) c) in
      if bool_decide (patchName ∈ pa_history pa) then decide_ true
      else
        let cu := wc_cursor c in
        if (cu_historyIndex cu <? length (cu_oldEvents cu) + length (cu_newEvents cu))%nat
        then decide_ false else decide_ true
  end.

Definition IsPatched (patchName : string) : Prog bool :=
  PGet (fun c =>
    let '(patched, c) := isPatchedIn patchName c in
    let pa := wc_patches c in
    PPut (if patched then set_patches (mkPatches (pa_history pa) (pa_applied pa) (pa_encountered pa ++ [patchName])) c
          else c) (PRet patched)).

Definition retryChainPatch : string := "durabletask-go/retry-chain-v1".

Definition internalScheduleTaskWithRetries (chain : retryChain) (taskExecutionId : string) : Prog Task :=
  applied ← asks (fun c => pa_applied (wc_patches c) !! retryChainPatch);
  patched ← match applied with Some patched => mret patched | None => IsPatched retryChainPatch end;
  p ← schedule (rc_schedule chain) taskExecutionId false;
  if patched : bool then
    r ← newRetry (mkRetryTask chain p taskExecutionId "" 0 false None);
    mret (TaskR r)
  else mret (TaskW chain p 0).

(** ** The methods *)

Definition CallActivity (activityName : string) (opts : list CallActivityOption) : Prog Task :=
  match applyOptions opts (mkCallActivityOptions None None None None None) with
  | inr err => newFailedTask (failureOf err)
  | inl options =>
      bad ← validateAppNamespaceRequiresAppID (ao_targetAppID options) (ao_targetAppNamespace options)
              "InvalidActivityOptions" "WithActivityAppNamespace" "WithActivityAppID";
      match bad with
      | Some t => mret t
      | None =>
          match ao_retryPolicy options with
          | Some policy =>
              now ← asks wc_CurrentTimeUtc;
              u ← NewUUID;
              internalScheduleTaskWithRetries
                (mkRetryChain (activityName +:+ "-retry") now (SchedActivity activityName options) policy) u
          | None =>
              u ← NewUUID;
              p ← internalScheduleActivity activityName u options;
              mret (TaskC p)
          end
      end
  end.

(** The execution id of the last list of events that has a start event. *)
Definition firstStartID (events : list HistoryEvent) : option string :=
  (fun es => GetValue (startExecutionId (Some es))) <$> head (omap GetExecutionStarted events).

Definition CallChildWorkflow (workflowName : string) (opts : list ChildWorkflowOption) : Prog Task :=
  match applyOptions opts (mkCallChildWorkflowOptions "" None None None None None) with
  | inr err => newFailedTask (failureOf err)
  | inl options =>
      bad ← validateAppNamespaceRequiresAppID (wo_targetAppID options) (wo_targetAppNamespace options)
              "InvalidChildWorkflowOptions" "WithChildWorkflowAppNamespace" "WithChildWorkflowAppID";
      match bad with
      | Some t => mret t
      | None =>
          match wo_retryPolicy options with
          | Some policy =>
              c ← asks id;
              let cu := wc_cursor c in
              let executionID := match firstStartID (cu_newEvents cu) with
                                 | Some x => x
                                 | None => default "" (firstStartID (cu_oldEvents cu))
                                 end in
              let firstInstanceID :=
                if String.eqb (wo_instanceID options) ""
                then GenerateChildWorkflowInstanceIDForExecution (wc_ID c) executionID
                       (tb_sequenceNumber (wc_table c))
                else wo_instanceID options in
              cell ← newCell (mkChildCell firstInstanceID None);
              u ← NewUUID;
              internalScheduleTaskWithRetries
                (mkRetryChain (workflowName +:+ "-retry") (wc_CurrentTimeUtc c)
                   (SchedChild workflowName options cell) policy) u
          | None =>
              p ← internalCallChildWorkflow workflowName options None;
              mret (TaskC p)
          end
      end
  end.

(** Options of a timer set its name. *)
Definition CreateTimer (delay : Z) (opts : list (option string -> option string + error)) : Prog Task :=
  match applyOptions opts None with
  | inr err => newFailedTask (failureOf err)
  | inl name => '(p, _) ← createTimer name delay; mret (TaskC p)
  end.

Definition WithTimerName (name : string) : option string -> option string + error := fun _ => inl (Some name).

Definition waitForSingleEvent (eventName : string) (timeout : Z) : Prog Task :=
  now ← asks wc_CurrentTimeUtc;
  p ← onT (WaitForSingleEvent ToUpper now eventName timeout);
  mret (TaskC p).

Definition ScheduleNewWorkflow (workflowName : string) (opts : list DetachedWorkflowOptions)
    : Prog (string + error) :=
  match applyOptions opts (mkScheduleNewWorkflowOptions None None None None None None) with
  | inr err => mret (inr err)
  | inl options =>
      match no_targetAppNamespace options, no_targetAppID options with
      | Some _, None =>
          mret (inr (errorNew "WithDetachedWorkflowAppNamespace requires WithDetachedWorkflowAppID to also be set"))
      | _, _ =>
          c ← asks id;
          let re := wc_report c in
          match no_instanceID options with
          | Some "" =>
              mret (inr (errorNew "WithDetachedWorkflowInstanceID was passed an empty string; omit the option to opt into the default ID"))
          | given =>
              let instanceID := match given with
                                | Some i => i
                                | None => wc_ID c +:+ "-" +:+ pretty (re_detachedCounter re)
                                end in
              match given with
              | Some _ => mret tt
              | None => modC (set_report (mkReport (re_customStatus re) (re_continuedAsNew re)
                          (re_continuedAsNewInput re) (re_saveBufferedExternalEvents re)
                          (int32_of (re_detachedCounter re + 1))))
              end;;
              onT (fun b =>
                let '(_, _, b) := scheduleAction
                  (WorkflowAction_CreateDetachedWorkflow (mkCreateDetachedWorkflowAction instanceID workflowName None
                     (no_rawInput options) (no_scheduledStartTimestamp options) None ∅
                     (no_parentTraceContext options)))
                  (taskRouterFromTarget (no_targetAppID options) (no_targetAppNamespace options)) b in
                (inl instanceID, b))
          end
      end
  end.

Inductive ContinueAsNewOption := WithKeepUnprocessedEvents.

Definition ContinueAsNew (newInput : option any) (options : list ContinueAsNewOption) : Prog unit :=
  modC (fun c => let re := wc_report c in
    set_report (mkReport (re_customStatus re) true newInput
      (match options with [] => re_saveBufferedExternalEvents re | _ => true end) (re_detachedCounter re)) c).

Definition SetCustomStatus (cs : string) : Prog unit :=
  modC (fun c => let re := wc_report c in
    set_report (mkReport cs (re_continuedAsNew re) (re_continuedAsNewInput re)
      (re_saveBufferedExternalEvents re) (re_detachedCounter re)) c).

(** ** Workflow functions *)

(** The exported fields of the context. *)
Record wfInfo := mkWfInfo {
  in_ID : string;
  in_Name : string;
  in_VersionName : option string;
  in_IsReplaying : bool;
  in_CurrentTimeUtc : Z
}.

Definition infoOf (c : WorkflowContext) : wfInfo :=
  mkWfInfo (wc_ID c) (wc_Name c) (wc_VersionName c) (cu_IsReplaying (wc_cursor c)) (wc_CurrentTimeUtc c).

(** The rest of the function gets what the call returns; an await that succeeds
    returns the raw result. *)
Inductive Workflow :=
| WReturn (output : option any) (err : option error)
| WPanic (msg : string)
| WInfo (k : wfInfo -> Workflow)
| WGetInput (k : string -> Workflow)
| WGetPropagatedHistory (k : option ApiPropagatedHistory -> Workflow)
| WSetCustomStatus (cs : string) (k : Workflow)
| WCallActivity (name : string) (opts : list CallActivityOption) (k : Task -> Workflow)
| WCallChildWorkflow (name : string) (opts : list ChildWorkflowOption) (k : Task -> Workflow)
| WCreateTimer (delay : Z) (opts : list (option string -> option string + error)) (k : Task -> Workflow)
| WWaitForSingleEvent (name : string) (timeout : Z) (k : Task -> Workflow)
| WScheduleNewWorkflow (name : string) (opts : list DetachedWorkflowOptions) (k : string + error -> Workflow)
| WContinueAsNew (input : option any) (opts : list ContinueAsNewOption) (k : Workflow)
| WIsPatched (name : string) (k : bool -> Workflow)
| WAwait (t : Task) (v : option decoder) (k : string + error -> Workflow)
| WTaskExecutionId (t : Task) (k : string -> Workflow).

Fixpoint denote (w : Workflow) : Prog (option any * option error) :=
  match w with
  | WReturn output err => mret (output, err)
  | WPanic msg => PPanic msg
  | WInfo k => i ← asks infoOf; denote (k i)
  | WGetInput k => i ← asks wc_rawInput; denote (k i)
  | WGetPropagatedHistory k => ph ← asks wc_propagatedHistory; denote (k ph)
  | WSetCustomStatus cs k => SetCustomStatus cs;; denote k
  | WCallActivity name opts k => t ← CallActivity name opts; denote (k t)
  | WCallChildWorkflow name opts k => t ← CallChildWorkflow name opts; denote (k t)
  | WCreateTimer delay opts k => t ← CreateTimer delay opts; denote (k t)
  | WWaitForSingleEvent name timeout k => t ← waitForSingleEvent name timeout; denote (k t)
  | WScheduleNewWorkflow name opts k => r ← ScheduleNewWorkflow name opts; denote (k r)
  | WContinueAsNew input opts k => ContinueAsNew input opts;; denote k
  | WIsPatched name k => r ← IsPatched name; denote (k r)
  | WAwait t v k => r ← Await t v; denote (k r)
  | WTaskExecutionId t k => x ← TaskExecutionId t; denote (k x)
  end.

End Methods.
