(* ===== verification/TaskExecutor.v ===== *)
(** * Running workflow functions on a history (task/orchestrator.go, task/executor.go)

    The executor hands the events of the history to the context one by one.  A
    workflow function runs inside the handler of its start event; when it awaits a
    task that is not complete, it takes further events itself.  An await at the end
    of the history ends the turn (the panic [ErrTaskBlocked] of the source, here the
    outcome [RBlocked]). *)

From stdpp Require Import base list option strings gmap.
From Stdlib Require Import ZArith Lia.
From S2P Require Import Prelude Errors Protos Dedup Propagation Helpers TaskRegistry TaskTable TaskProgram.
From S2P Require Import TaskMethods.

(** How a call ends: a value, blocked at the end of history, another panic, or out
    of fuel ([start_total] shows that the last never happens). *)
Inductive res (A : Type) :=
| RRet (a : A)
| RBlocked
| RPanic (msg : string)
| RFuel.
Arguments RRet {A} a.
Arguments RBlocked {A}.
Arguments RPanic {A} msg.
Arguments RFuel {A}.

Section Executor.
Context `{HF : Float64} `{HM : Marshaler} `{HR : RangeOrder} `{HC : ProtoCodec}.
Variable ToUpper : string -> string.
Variables errorTypeName errorText : error -> string.

(** The context of an activity, and what calling one does. *)
Record activityContext := mkActivityContext {
  ac_TaskID : Z;
  ac_TaskExecutionID : string;
  ac_Name : string;
  ac_TraceContext : option TraceContext;
  ac_rawInput : string;
  ac_propagatedHistory : option ApiPropagatedHistory
}.

Definition Activity : Type := activityContext -> outcome error (option any).

Variable registry : TaskRegistry Workflow Activity.

(** ** Events *)

Definition historyOf (c : WorkflowContext) : list HistoryEvent :=
  cu_oldEvents (wc_cursor c) ++ cu_newEvents (wc_cursor c).

Definition getNextHistoryEvent (c : WorkflowContext) : option (HistoryEvent * WorkflowContext) :=
  let cu := wc_cursor c in
  e ← historyOf c !! cu_historyIndex cu;
  Some (e, set_cursor (mkCursor (cu_oldEvents cu) (cu_newEvents cu) (S (cu_historyIndex cu))
                         (cu_historyIndex cu <? length (cu_oldEvents cu))%nat
                         (cu_suspendedEvents cu) (cu_isSuspended cu) (cu_isTerminated cu)) c).

Definition remaining (c : WorkflowContext) : nat := length (historyOf c) - cu_historyIndex (wc_cursor c).

Definition processNextEvent (processEvent : HistoryEvent -> WorkflowContext -> WorkflowContext * res (option error))
    (c : WorkflowContext) : WorkflowContext * res (bool * option error) :=
  match getNextHistoryEvent c with
  | None => (c, RRet (false, None))
  | Some (e, c) =>
      match processEvent e c with
      | (c, RRet err) => (c, RRet (true, err))
      | (c, RBlocked) => (c, RBlocked)
      | (c, RPanic msg) => (c, RPanic msg)
      | (c, RFuel) => (c, RFuel)
      end
  end.

(** ** Running a program *)

(** The error of a completed task. *)
Definition awaitResult (t : completableTask) : option error :=
  match ct_failureDetails t with
  | Some fd => Some (errorNew ("task failed with an error: " +:+ ErrorMessage fd))
  | None => if ct_isCanceled t then Some ErrTaskCanceled else None
  end.

(** The loop of [completableTask.Await]; every round takes an event. *)
Fixpoint awaitLoop (fuel : nat) (next : WorkflowContext -> WorkflowContext * res (bool * option error))
    (p : nat) (c : WorkflowContext) : WorkflowContext * res (option error) :=
  match fuel with
  | O => (c, RFuel)
  | S fuel =>
      let t := default (newTask KindNone) (getTask p (wc_table c)) in
      if ct_isCompleted t then (c, RRet (awaitResult t))
      else
        match next c with
        | (c, RRet (_, Some err)) => (c, RRet (Some err))
        | (c, RRet (true, None)) => awaitLoop fuel next p c
        | (c, RRet (false, None)) => (c, RBlocked)
        | (c, RBlocked) => (c, RBlocked)
        | (c, RPanic msg) => (c, RPanic msg)
        | (c, RFuel) => (c, RFuel)
        end
  end.

Fixpoint run {A} (next : WorkflowContext -> WorkflowContext * res (bool * option error)) (m : Prog A)
    (c : WorkflowContext) : WorkflowContext * res A :=
  match m with
  | PRet a => (c, RRet a)
  | PPanic msg => (c, RPanic msg)
  | PGet k => run next (k c) c
  | PPut c' k => run next k c'
  | PAwait p k =>
      match awaitLoop (S (remaining c)) next p c with
      | (c, RRet err) => run next (k err) c
      | (c, RBlocked) => (c, RBlocked)
      | (c, RPanic msg) => (c, RPanic msg)
      | (c, RFuel) => (c, RFuel)
      end
  end.

(** ** Completion *)

Definition setCompleteInternal (rawResult : option string) (status : OrchestrationStatus)
    (failureDetails : option TaskFailureDetails) (c : WorkflowContext) : WorkflowContext :=
  let '(_, _, b) := scheduleAction
    (WorkflowAction_CompleteWorkflow (mkCompleteWorkflowAction status rawResult None None [] failureDetails))
    None (wc_table c) in
  set_table b c.

Definition setFailed (appError : error) (c : WorkflowContext) : WorkflowContext :=
  setCompleteInternal None FAILED (Some (failureOf errorTypeName errorText appError)) c.

Definition setVersionNotRegistered (c : WorkflowContext) : WorkflowContext :=
  let '(_, _, b) := scheduleAction WorkflowAction_WorkflowVersionNotAvailable None (wc_table c) in
  set_table b c.

(** [setComplete] and [setContinuedAsNew]: marshalling may fail. *)
Definition setComplete (output : option any) (c : WorkflowContext) : WorkflowContext * option error :=
  match output with
  | None => (setCompleteInternal None COMPLETED None c, None)
  | Some v =>
      match marshalAny v with
      | inl data => (setCompleteInternal (Some data) COMPLETED None c, None)
      | inr err => (c, Some (errorWrap "failed to marshal output to JSON" err))
      end
  end.

Definition setContinuedAsNew (c : WorkflowContext) : WorkflowContext * option error :=
  match re_continuedAsNewInput (wc_report c) with
  | None => (setCompleteInternal None CONTINUED_AS_NEW None c, None)
  | Some v =>
      match marshalAny v with
      | inl data => (setCompleteInternal (Some data) CONTINUED_AS_NEW None c, None)
      | inr err => (c, Some (errorWrap "failed to marshal continue-as-new payload to JSON" err))
      end
  end.

(** What [onExecutionStarted] does with the outcome of the function. *)
Definition concludeWorkflow (output : option any) (appError : option error) (c : WorkflowContext)
    : WorkflowContext :=
  match appError with
  | Some err => setFailed err c
  | None =>
      let '(c, err) := if re_continuedAsNew (wc_report c) then setContinuedAsNew c else setComplete output c in
      match err with
      | None => c
      | Some err => setFailed (errorWrap "failed to complete the workflow" err) c
      end
  end.

Definition prepareStart (es : ExecutionStartedEvent) (version : option string) (c : WorkflowContext)
    : WorkflowContext :=
  let c := match version with Some _ => set_VersionName version c | None => c end in
  let c := set_Name (es_Name es) c in
  match es_Input es with Some v => set_rawInput v c | None => c end.

Definition onExecutionStarted (next : WorkflowContext -> WorkflowContext * res (bool * option error))
    (es : ExecutionStartedEvent) (c : WorkflowContext) : WorkflowContext * res (option error) :=
  match ResolveWorkflow (es_Name es) (wc_VersionName c) registry with
  | inr err => (c, RRet (Some err))
  | inl (workflow, version) =>
      match run next (denote ToUpper errorTypeName errorText workflow) (prepareStart es version c) with
      | (c, RRet (output, appError)) => (concludeWorkflow output appError c, RRet None)
      | (c, RBlocked) => (c, RBlocked)
      | (c, RPanic msg) => (c, RPanic msg)
      | (c, RFuel) => (c, RFuel)
      end
  end.

(** ** The other handlers *)

Definition set_suspension (suspended : bool) (events : list HistoryEvent) (c : WorkflowContext) : WorkflowContext :=
  let cu := wc_cursor c in
  set_cursor (mkCursor (cu_oldEvents cu) (cu_newEvents cu) (cu_historyIndex cu) (cu_IsReplaying cu) events
                suspended (cu_isTerminated cu)) c.

Definition set_terminated (c : WorkflowContext) : WorkflowContext :=
  let cu := wc_cursor c in
  set_cursor (mkCursor (cu_oldEvents cu) (cu_newEvents cu) (cu_historyIndex cu) (cu_IsReplaying cu)
                (cu_suspendedEvents cu) (cu_isSuspended cu) true) c.

(** The loop over the buffered events of [onExecutionResumed]. *)
Fixpoint resumeLoop (processEvent : HistoryEvent -> WorkflowContext -> WorkflowContext * res (option error))
    (events : list HistoryEvent) (c : WorkflowContext) : WorkflowContext * res (option error) :=
  match events with
  | [] => (set_suspension (cu_isSuspended (wc_cursor c)) [] c, RRet None)
  | e :: rest =>
      match processEvent e c with
      | (c, RRet None) => resumeLoop processEvent rest c
      | (c, r) => (c, r)
      end
  end.

Definition onExecutionResumed (processEvent : HistoryEvent -> WorkflowContext -> WorkflowContext * res (option error))
    (c : WorkflowContext) : WorkflowContext * res (option error) :=
  let events := cu_suspendedEvents (wc_cursor c) in
  resumeLoop processEvent events (set_suspension false events c).

(** The loop over the pending actions of [onExecutionTerminated]: [None] when a
    completion wins, else the pending actions without a continue-as-new. *)
Fixpoint terminateScan (b : Table) (l : list (Z * nat)) : option (gmap Z nat) :=
  match l with
  | [] => Some (tb_pendingActions b)
  | (id, p) :: rest =>
      match getAction p b ≫= GetCompleteWorkflow with
      | None => terminateScan b rest
      | Some co =>
          if bool_decide (co_WorkflowStatus co = CONTINUED_AS_NEW)
          then Some (delete id (tb_pendingActions b)) else None
      end
  end.

Definition onExecutionTerminated (et : ExecutionTerminatedEvent) (c : WorkflowContext) : WorkflowContext :=
  let c := set_terminated c in
  let b := wc_table c in
  match terminateScan b (rangeOrder (tb_pendingActions b)) with
  | None => c
  | Some actions => setCompleteInternal (et_Input et) TERMINATED None (set_table (set_pendingActions actions b) c)
  end.

Definition onWorkflowStarted (e : HistoryEvent) (os : WorkflowStartedEvent) (c : WorkflowContext) : WorkflowContext :=
  let c := set_CurrentTimeUtc (AsTime (Timestamp e)) c in
  match ws_Version os with
  | None => c
  | Some version =>
      let pa := wc_patches c in
      let c := set_patches (mkPatches (list_to_set (wv_Patches version) ∪ pa_history pa) (pa_applied pa)
                              (pa_encountered pa)) c in
      match wv_Name version with Some n => set_VersionName (Some n) c | None => c end
  end.

(** A handler that works on the table only. *)
Definition onTable (f : Table -> Table) (c : WorkflowContext) : WorkflowContext * res (option error) :=
  (set_table (f (wc_table c)) c, RRet None).
Definition onTableErr (f : Table -> Table * option error) (c : WorkflowContext)
    : WorkflowContext * res (option error) :=
  let '(b, err) := f (wc_table c) in (set_table b c, RRet err).

(** Is the event held back while the workflow is suspended? *)
Definition heldWhileSuspended (e : HistoryEvent) : bool :=
  match EventType e with
  | Some (HistoryEvent_ExecutionResumed _) | Some (HistoryEvent_ExecutionTerminated _) => false
  | _ => true
  end.

(** [processEvent]; the fuel bounds how deep handlers nest. *)
Fixpoint processEvent (fuel : nat) (e : HistoryEvent) (c : WorkflowContext) {struct fuel}
    : WorkflowContext * res (option error) :=
  match fuel with
  | O => (c, RFuel)
  | S fuel =>
      let cu := wc_cursor c in
      if cu_isTerminated cu then (c, RRet None)
      else if cu_isSuspended cu && heldWhileSuspended e
      then (set_suspension true (cu_suspendedEvents cu ++ [e]) c, RRet None)
      else
        match EventType e with
        | Some (HistoryEvent_WorkflowStarted os) => (onWorkflowStarted e os c, RRet None)
        | Some (HistoryEvent_ExecutionStarted es) => onExecutionStarted (processNextEvent (processEvent fuel)) es c
        | Some (HistoryEvent_TaskScheduled ts) => onTableErr (onTaskScheduled (EventId e) ts) c
        | Some (HistoryEvent_TaskCompleted tc) => onTable (onTaskCompleted tc) c
        | Some (HistoryEvent_TaskFailed tf) => onTable (onTaskFailed tf) c
        | Some (HistoryEvent_ChildWorkflowInstanceCreated ts) => onTableErr (onChildWorkflowScheduled (EventId e) ts) c
        | Some (HistoryEvent_ChildWorkflowInstanceCompleted sc) => onTable (onChildWorkflowCompleted sc) c
        | Some (HistoryEvent_ChildWorkflowInstanceFailed sf) => onTable (onChildWorkflowFailed sf) c
        | Some (HistoryEvent_DetachedWorkflowInstanceCreated dw) => onTableErr (onDetachedWorkflowCreated (EventId e) dw) c
        | Some (HistoryEvent_TimerCreated tc) => onTableErr (onTimerCreated (EventId e) tc) c
        | Some (HistoryEvent_TimerFired tf) => onTable (onTimerFired tf) c
        | Some (HistoryEvent_EventRaised _) => onTable (onExternalEventRaised ToUpper e) c
        | Some (HistoryEvent_ExecutionSuspended _) => (set_suspension true (cu_suspendedEvents cu) c, RRet None)
        | Some (HistoryEvent_ExecutionResumed _) => onExecutionResumed (processEvent fuel) c
        | Some (HistoryEvent_ExecutionTerminated et) => (onExecutionTerminated et c, RRet None)
        | Some (HistoryEvent_ExecutionStalled _) => (c, RRet None)
        | Some HistoryEvent_WorkflowCompleted => (c, RRet None)
        | _ => (c, RRet (Some (errorNew "don't know how to handle event")))
        end
  end.

(** Nesting is at most two handlers per event that is left. *)
Definition eventFuel (c : WorkflowContext) : nat := S (S (2 * remaining c)).

(** ** A turn *)

Definition emptyTable : Table := mkTable 0 ∅ ∅ ∅ ∅ ∅ ∅ ∅ (mkHeap ∅ ∅ ∅ 0).

(** The context [NewWorkflowContext] makes and [start] resets, with the propagated
    history [ExecuteWorkflow] sets. *)
Definition NewWorkflowContext (id : string) (oldEvents newEvents : list HistoryEvent)
    (propagated : option ApiPropagatedHistory) (w : World) : WorkflowContext :=
  mkWorkflowContext id "" None zeroTime "" propagated (mkCursor oldEvents newEvents 0 false [] false false)
    emptyTable (mkPatches ∅ ∅ []) (mkReport "" false None false 0) (mkRetryHeap ∅ ∅ 0) w.

Definition actions (c : WorkflowContext) : list WorkflowAction :=
  let cu := wc_cursor c in
  let re := wc_report c in
  if cu_isSuspended cu && negb (cu_isTerminated cu) then []
  else tableActions (re_continuedAsNew re && re_saveBufferedExternalEvents re) (wc_table c).

(** An error of a handler outside the workflow function. *)
Definition onHistoryError (err : error) (c : WorkflowContext) : WorkflowContext :=
  if IsUnsupportedVersionError err then setVersionNotRegistered c else setFailed err c.

Fixpoint startLoop (fuel : nat) (next : WorkflowContext -> WorkflowContext * res (bool * option error))
    (c : WorkflowContext) : WorkflowContext * res unit :=
  match fuel with
  | O => (c, RFuel)
  | S fuel =>
      match next c with
      | (c, RRet (_, Some err)) => (onHistoryError err c, RRet tt)
      | (c, RRet (true, None)) => startLoop fuel next c
      | (c, RRet (false, None)) => (c, RRet tt)
      | (c, RBlocked) => (c, RRet tt)
      | (c, RPanic msg) => (c, RPanic msg)
      | (c, RFuel) => (c, RFuel)
      end
  end.

(** [start]: the recovered [ErrTaskBlocked] is a normal end. *)
Definition start (c : WorkflowContext) : WorkflowContext * res (list WorkflowAction) :=
  match startLoop (S (remaining c)) (processNextEvent (processEvent (eventFuel c))) c with
  | (c, RRet _) => (c, RRet (actions c))
  | (c, RBlocked) => (c, RBlocked)
  | (c, RPanic msg) => (c, RPanic msg)
  | (c, RFuel) => (c, RFuel)
  end.

Definition responseVersion (c : WorkflowContext) : option WorkflowVersion :=
  match pa_encountered (wc_patches c), wc_VersionName c with
  | [], None => None
  | patches, name => Some (mkWorkflowVersion patches name)
  end.

Definition executeWorkflow (id : string) (oldEvents newEvents : list HistoryEvent)
    (propagated : option PropagatedHistory) (w : World) : res (WorkflowResponse + error) :=
  match (match propagated with
         | None => inl None
         | Some ph => PropagatedHistoryFromProto (Some ph)
         end) with
  | inr err => RRet (inr (errorWrap "invalid propagated history" err))
  | inl ph =>
      match start (NewWorkflowContext id oldEvents newEvents ph w) with
      | (c, RRet acts) =>
          RRet (inl (mkWorkflowResponse id acts (Some (re_customStatus (wc_report c))) "" None (responseVersion c)))
      | (_, RBlocked) => RBlocked
      | (_, RPanic msg) => RPanic msg
      | (_, RFuel) => RFuel
      end
  end.

(** ** Activities *)

Definition newTaskActivityContext (taskID : Z) (ts : TaskScheduledEvent) (ph : option ApiPropagatedHistory)
    : activityContext :=
  mkActivityContext taskID (ts_TaskExecutionId ts) (ts_Name ts) (ts_ParentTraceContext ts)
    (GetValue (ts_Input ts)) ph.

Definition taskFailed (now : Z) (e : HistoryEvent) (ts : TaskScheduledEvent) (errorType msg : string) : HistoryEvent :=
  mkHistoryEvent (-1) (Some now) (Some (HistoryEvent_TaskFailed
    (mkTaskFailedEvent (EventId e) (Some (mkTaskFailureDetails errorType msg None None false))
       (ts_TaskExecutionId ts)))) None.

(** [now] is the clock when the response is made. *)
Definition executeActivity (now : Z) (e : HistoryEvent) (propagated : option PropagatedHistory)
    : HistoryEvent + error :=
  match GetTaskScheduled e with
  | None => inr (errorNew "Unexpected event type for ExecuteActivity")
  | Some ts =>
      match (match getActivity (ts_Name ts) registry with
             | Some invoker => Some invoker
             | None => getActivity "*" registry
             end) with
      | None => inl (taskFailed now e ts "TaskActivityNotRegistered"
                       ("no task activity named '" +:+ ts_Name ts +:+ "' was registered"))
      | Some invoker =>
          match PropagatedHistoryFromProto propagated with
          | inr err => inl (taskFailed now e ts "InvalidPropagatedHistory" (errorText err))
          | inl ph =>
              match invoker (newTaskActivityContext (EventId e) ts ph) with
              | Panic msg => inl (taskFailed now e ts "TaskActivityPanic" ("panic: " +:+ msg))
              | Err err => inl (taskFailed now e ts (errorTypeName err) (errorText err))
              | Ok result =>
                  match marshalData result with
                  | inr err => inl (taskFailed now e ts (errorTypeName err) (errorText err))
                  | inl data =>
                      inl (mkHistoryEvent (-1) (Some now) (Some (HistoryEvent_TaskCompleted
                        (mkTaskCompletedEvent (EventId e) (if String.eqb data "" then None else Some data)
                           (ts_TaskExecutionId ts)))) None)
                  end
              end
          end
      end
  end.

End Executor.
