(* ===== verification/TaskGuard.v ===== *)
(** * What workflow functions may change

    A workflow function reaches its context only through the methods of
    [TaskMethods].  [guarded R] says that every change a program makes between two
    awaits is a step of [R]; [Guarded_denote] lists what the steps of any workflow
    function are, so that an invariant of the context is proved once per kind of
    step and holds for every workflow function. *)

From stdpp Require Import base list option strings gmap.
From Stdlib Require Import ZArith Lia.
From S2P Require Import Prelude Errors Protos Dedup Propagation Helpers TaskRegistry TaskTable TaskProgram.
From S2P Require Import TaskMethods.

(** The kinds of action a workflow function can decide, or end with. *)
Definition decisionType (ty : WorkflowActionType) : bool :=
  match ty with
  | WorkflowAction_ScheduleTask _ | WorkflowAction_CreateTimer _ | WorkflowAction_CreateChildWorkflow _
  | WorkflowAction_CreateDetachedWorkflow _ => true
  | _ => false
  end.

Definition conclusionType (ty : WorkflowActionType) : bool :=
  match ty with
  | WorkflowAction_CompleteWorkflow _ | WorkflowAction_WorkflowVersionNotAvailable => true
  | _ => false
  end.

Definition emittable (a : WorkflowAction) : bool :=
  match wa_Type a with
  | Some ty => decisionType ty || conclusionType ty
  | None => false
  end.

Section Guarded.
Context `{HF : Float64} `{HM : Marshaler}.

(** Started in [c], the changes of [m] are steps of [R]; an await may return in any
    context. *)
Fixpoint guarded {A} (R : WorkflowContext -> WorkflowContext -> Prop) (c : WorkflowContext) (m : Prog A) : Prop :=
  match m with
  | PRet _ | PPanic _ => True
  | PGet k => guarded R c (k c)
  | PPut c' k => R c c' /\ guarded R c' k
  | PAwait _ k => forall c' e, guarded R c' (k e)
  end.

Definition Guarded (R : WorkflowContext -> WorkflowContext -> Prop) {A} (m : Prog A) : Prop :=
  forall c, guarded R c m.

Lemma Guarded_bind R {A B} (m : Prog A) (f : A -> Prog B) :
  Guarded R m -> (forall a, Guarded R (f a)) -> Guarded R (mbind f m).
Proof.
  intros Hm Hf c. specialize (Hm c). revert c Hm. cbn.
  induction m as [a | msg | k IH | c' k IH | p k IH]; cbn; intros c Hm; try done.
  - apply Hf.
  - by apply IH.
  - destruct Hm. split; [done | by apply IH].
  - intros c' e. by apply IH.
Qed.

Lemma Guarded_weaken R R' {A} (m : Prog A) :
  (forall c c', R c c' -> R' c c') -> Guarded R m -> Guarded R' m.
Proof.
  intros HR Hm c. specialize (Hm c). revert c Hm.
  induction m as [a | msg | k IH | c' k IH | p k IH]; cbn; intros c Hm; try done.
  - by apply IH.
  - destruct Hm. split; [by apply HR | by apply IH].
  - intros c' e. by apply IH.
Qed.

(** *** The steps of workflow functions *)

(** Changes of the table, with the action types they schedule. *)
Inductive methodStep (ToUpper : string -> string) (b : Table) : Table -> Prop :=
| StepFailed fd : methodStep ToUpper b (let '(p, b) := allocTask (newTask KindNone) b in taskFail (Some fd) p b)
| StepSchedule ty router :
    decisionType ty || conclusionType ty = true -> methodStep ToUpper b (scheduleAction ty router b).2
| StepRegister ty router t :
    decisionType ty = true -> ct_completedCallback t = None -> ct_kind t <> KindNone -> ct_isCompleted t = false ->
    methodStep ToUpper b
      (let '(id, a, b) := scheduleAction ty router b in
       (registerTask (if bool_decide (ct_kind t = KindChild) then set_childAction a t else t) id b).2)
| StepOrigin origin a : methodStep ToUpper b (setTimerOriginAt origin a b)
| StepWait now name timeout : methodStep ToUpper b (WaitForSingleEvent ToUpper now name timeout b).2.

(** Answers about patches are kept, and those that are reported were given. *)
Record patchesGrow (pa pa' : Patches) : Prop := {
  pg_history : pa_history pa' = pa_history pa;
  pg_applied : forall x v, pa_applied pa !! x = Some v -> pa_applied pa' !! x = Some v;
  pg_encountered : pa_encountered pa `prefix_of` pa_encountered pa';
  pg_reported : (forall x, x ∈ pa_encountered pa -> pa_applied pa !! x = Some true) ->
    forall x, x ∈ pa_encountered pa' -> pa_applied pa' !! x = Some true
}.

(** Everything a method changes: one step of the table, or fields that are not in it. *)
Inductive contextStep (ToUpper : string -> string) (c : WorkflowContext) : WorkflowContext -> Prop :=
| StepTable b : methodStep ToUpper (wc_table c) b -> contextStep ToUpper c (set_table b c)
| StepRetries h : contextStep ToUpper c (set_retries h c)
| StepWorld w : contextStep ToUpper c (set_world w c)
| StepPatches p : patchesGrow (wc_patches c) p -> contextStep ToUpper c (set_patches p c)
| StepReport r : contextStep ToUpper c (set_report r c)
| StepSame : contextStep ToUpper c c.

End Guarded.

Create HintDb guarded discriminated.

Section Methods.
Context `{HF : Float64} `{HM : Marshaler}.
Variable ToUpper : string -> string.
Variables errorTypeName errorText : error -> string.

Local Abbreviation G := (Guarded (contextStep ToUpper)).

Lemma Guarded_ret {A} (a : A) : G (mret a).
Proof. done. Qed.
Lemma Guarded_panic {A} msg : G (PPanic (A := A) msg).
Proof. done. Qed.
Lemma Guarded_asks {A} (f : WorkflowContext -> A) : G (asks f).
Proof. done. Qed.
Lemma Guarded_modC f : (forall c, contextStep ToUpper c (f c)) -> G (modC f).
Proof. intros Hf c. by split. Qed.
Lemma Guarded_onT {A} (f : Table -> A * Table) : (forall b, methodStep ToUpper b (f b).2) -> G (onT f).
Proof.
  intros Hf c. cbn. specialize (Hf (wc_table c)). destruct (f (wc_table c)) as [a b]. split; [by constructor | done].
Qed.
Lemma Guarded_modT f : (forall b, methodStep ToUpper b (f b)) -> G (modT f).
Proof. intros Hf. apply Guarded_modC. intros c. by constructor. Qed.
Lemma Guarded_NewUUID : G NewUUID.
Proof. intros c. cbn. destruct (newUUID (wc_world c)). split; [constructor | done]. Qed.
Lemma Guarded_awaitC p v : G (awaitC p v).
Proof.
  unfold awaitC. apply Guarded_bind; [done |]. intros [e|]; [done |].
  apply Guarded_bind; [done |]. intros t. by case_match.
Qed.
#[local] Hint Resolve Guarded_ret Guarded_panic Guarded_asks Guarded_NewUUID Guarded_awaitC : guarded.

(** Walk through a program. *)
Ltac guarded_step :=
  first
    [ solve [auto with guarded]
    | apply Guarded_modC; intros ?; solve [constructor]
    | apply Guarded_bind; [| intros ?]
    | match goal with
      | |- Guarded _ (match ?x with _ => _ end) => destruct x
      | |- Guarded _ (if ?x then _ else _) => destruct x
      | |- Guarded _ (let '_ := ?x in _) => destruct x
      end ].
Ltac guarded := repeat guarded_step.

Lemma Guarded_newFailedTask fd : G (newFailedTask fd).
Proof. apply Guarded_onT. intros b. apply (StepFailed ToUpper b fd). Qed.
#[local] Hint Resolve Guarded_newFailedTask : guarded.
Lemma Guarded_validate a b x y z : G (validateAppNamespaceRequiresAppID a b x y z).
Proof. unfold validateAppNamespaceRequiresAppID. guarded. Qed.
Lemma Guarded_activity x y z : G (internalScheduleActivity x y z).
Proof. apply Guarded_onT. intros b. by apply (StepRegister ToUpper b _ _ (newTask KindTask)). Qed.
Lemma Guarded_child x y z : G (internalCallChildWorkflow x y z).
Proof. apply Guarded_onT. intros b. by apply (StepRegister ToUpper b _ _ (newTask KindChild)). Qed.
Lemma Guarded_createTimer x y : G (createTimer x y).
Proof.
  unfold createTimer. apply Guarded_bind; [done |]. intros now. apply Guarded_onT. intros b.
  by apply (StepRegister ToUpper b _ _ (newTask KindTimer)).
Qed.
Lemma Guarded_getCell x : G (getCell x).
Proof. done. Qed.
Lemma Guarded_putCell x y : G (putCell x y).
Proof. unfold putCell. guarded. Qed.
Lemma Guarded_newCell x : G (newCell x).
Proof. intros c. split; [constructor | done]. Qed.
Lemma Guarded_getRetry x : G (getRetry x).
Proof. done. Qed.
Lemma Guarded_putRetry x y : G (putRetry x y).
Proof. unfold putRetry. guarded. Qed.
Lemma Guarded_newRetry x : G (newRetry x).
Proof. intros c. split; [constructor | done]. Qed.
Lemma Guarded_taskAt x : G (taskAt x).
Proof. done. Qed.
Lemma Guarded_origin o a : G (modT (setTimerOriginAt o a)).
Proof. apply Guarded_modT. intros b. constructor. Qed.
#[local] Hint Resolve Guarded_validate Guarded_activity Guarded_child Guarded_createTimer Guarded_getCell
  Guarded_putCell Guarded_newCell Guarded_getRetry Guarded_putRetry Guarded_newRetry Guarded_taskAt
  Guarded_origin : guarded.

Lemma Guarded_schedule x y z : G (schedule x y z).
Proof. unfold schedule. guarded. Qed.
Lemma Guarded_setTimerOrigin x y z : G (setTimerOrigin x y z).
Proof. unfold setTimerOrigin. guarded. Qed.
#[local] Hint Resolve Guarded_schedule Guarded_setTimerOrigin : guarded.
Lemma Guarded_backOff x y z : G (backOff x y z).
Proof. unfold backOff. guarded. Qed.
#[local] Hint Resolve Guarded_backOff : guarded.

Lemma Guarded_retryLoop fuel r : G (retryLoop errorText fuel r).
Proof. induction fuel as [|fuel IH]; cbn [retryLoop]; guarded. Qed.
#[local] Hint Resolve Guarded_retryLoop : guarded.
Lemma Guarded_awaitLegacy fuel x y z v : G (awaitLegacy errorText fuel x y z v).
Proof. revert y z. induction fuel as [|fuel IH]; intros y z; cbn [awaitLegacy]; guarded. Qed.
#[local] Hint Resolve Guarded_awaitLegacy : guarded.
Lemma Guarded_Await t v : G (Await errorText t v).
Proof. unfold Await, awaitRetry. guarded. Qed.
Lemma Guarded_TaskExecutionId t : G (TaskExecutionId t).
Proof. unfold TaskExecutionId. guarded. Qed.

Lemma isPatchedIn_patches x c :
  exists pa, (isPatchedIn x c).2 = set_patches pa c /\ patchesGrow (wc_patches c) pa /\ pa_applied pa !! x = Some (isPatchedIn x c).1.
Proof.
  assert (forall v, pa_applied (wc_patches c) !! x = None ->
    patchesGrow (wc_patches c) (mkPatches (pa_history (wc_patches c)) (<[x := v]> (pa_applied (wc_patches c))) (pa_encountered (wc_patches c)))) as Hg.
  { intros v Hn. split; cbn; [done | | done |].
    - intros y u Hy. rewrite lookup_insert_ne; [done |]. congruence.
    - intros Hr y Hy. rewrite lookup_insert_ne; [by apply Hr |]. intros ->. by rewrite Hr in Hn. }
  unfold isPatchedIn. destruct (pa_applied (wc_patches c) !! x) as [v|] eqn:E.
  { exists (wc_patches c). split_and!; [by destruct c | | done]. split; auto. }
  repeat case_match; eexists; (split_and!; [reflexivity | by apply Hg | apply lookup_insert_eq]).
Qed.
Lemma Guarded_IsPatched x : G (IsPatched x).
Proof.
  intros c. cbn [IsPatched guarded]. destruct (isPatchedIn_patches x c) as (pa & E & [G1 G2 G3 G4] & Ea).
  destruct (isPatchedIn x c) as [[] c']; cbn in E, Ea; subst c'; (split; [| done]); [| by constructor].
  apply (StepPatches ToUpper c (mkPatches (pa_history pa) (pa_applied pa) (pa_encountered pa ++ [x]))). split; cbn; [done | done | |].
  - by apply prefix_app_r.
  - intros Hr y [Hy | ->%list_elem_of_singleton]%elem_of_app; [by apply G4 | done].
Qed.
#[local] Hint Resolve Guarded_Await Guarded_TaskExecutionId Guarded_IsPatched : guarded.
Lemma Guarded_retries x y : G (internalScheduleTaskWithRetries x y).
Proof. unfold internalScheduleTaskWithRetries. guarded. Qed.
#[local] Hint Resolve Guarded_retries : guarded.
Lemma Guarded_CallActivity x y : G (CallActivity errorTypeName errorText x y).
Proof. unfold CallActivity. guarded. Qed.
Lemma Guarded_CallChildWorkflow x y : G (CallChildWorkflow errorTypeName errorText x y).
Proof. unfold CallChildWorkflow. guarded. Qed.
Lemma Guarded_CreateTimer x y : G (CreateTimer errorTypeName errorText x y).
Proof. unfold CreateTimer. guarded. Qed.
Lemma Guarded_wait x y : G (waitForSingleEvent ToUpper x y).
Proof.
  unfold waitForSingleEvent. apply Guarded_bind; [done |]. intros now. apply Guarded_bind; [| done].
  apply Guarded_onT. intros b. constructor.
Qed.
Lemma Guarded_detached x r (i : string) :
  let ty := WorkflowAction_CreateDetachedWorkflow x in
  G (onT (fun b => let '(_, _, b) := scheduleAction ty r b in (inl i : string + error, b))).
Proof. apply Guarded_onT. intros b. by apply (StepSchedule ToUpper b). Qed.
#[local] Hint Resolve Guarded_detached : guarded.
Lemma Guarded_ScheduleNewWorkflow x y : G (ScheduleNewWorkflow x y).
Proof. unfold ScheduleNewWorkflow. guarded. Qed.
Lemma Guarded_ContinueAsNew x y : G (ContinueAsNew x y).
Proof. unfold ContinueAsNew. guarded. Qed.
Lemma Guarded_SetCustomStatus x : G (SetCustomStatus x).
Proof. unfold SetCustomStatus. guarded. Qed.
#[local] Hint Resolve Guarded_CallActivity Guarded_CallChildWorkflow Guarded_CreateTimer Guarded_wait
  Guarded_ScheduleNewWorkflow Guarded_ContinueAsNew Guarded_SetCustomStatus : guarded.

(** Every change of every workflow function is one of the steps. *)
Lemma Guarded_denote w : G (denote ToUpper errorTypeName errorText w).
Proof. induction w; cbn [denote]; guarded. Qed.

End Methods.
