(* ===== verification/TaskTotal.v ===== *)
(** * Every turn of the executor ends

    Handlers nest: a workflow function runs inside the handler of its start event and
    takes further events while it awaits, and resuming replays the events held back.
    The fuel of [TaskExecutor.start] is enough for every workflow function and every
    history, because every level of nesting but one has taken an event. *)

From stdpp Require Import base list option strings gmap.
From Stdlib Require Import ZArith Lia.
From S2P Require Import Prelude Errors Protos Dedup Propagation Helpers TaskRegistry TaskTable TaskProgram.
From S2P Require Import TaskMethods TaskExecutor TaskGuard.

(** ** Nesting takes events *)

Section Total.
Context `{HF : Float64} `{HM : Marshaler} `{HR : RangeOrder} `{HC : ProtoCodec}.
Variable ToUpper : string -> string.
Variables errorTypeName errorText : error -> string.
Variable registry : TaskRegistry Workflow Activity.

Local Abbreviation processEvent := (processEvent ToUpper errorTypeName errorText registry).

(** Only events that suspension holds back are kept for later. *)
Definition holding (c : WorkflowContext) : Prop :=
  Forall (fun e => heldWhileSuspended e = true) (cu_suspendedEvents (wc_cursor c)).

(** [c'] is further in the same history. *)
Definition advances (c c' : WorkflowContext) : Prop :=
  historyOf c' = historyOf c /\
  (cu_historyIndex (wc_cursor c) <= cu_historyIndex (wc_cursor c'))%nat /\
  (holding c -> holding c').

#[local] Instance advances_preorder : PreOrder advances.
Proof.
  split; [by intros c |]. intros x y z (E1 & L1 & H1) (E2 & L2 & H2).
  split_and!; [congruence | lia | auto].
Qed.

Lemma advances_remaining c c' : advances c c' -> (remaining c' <= remaining c)%nat.
Proof. intros (E & L & _). unfold remaining. rewrite E. lia. Qed.

Lemma advances_cursor c c' : wc_cursor c' = wc_cursor c -> advances c c'.
Proof. intros E. unfold advances, historyOf, holding. by rewrite E. Qed.

(** A call that ends, further in the history. *)
Definition ends {A} (c : WorkflowContext) (r : WorkflowContext * res A) : Prop :=
  r.2 <> RFuel /\ advances c r.1.

Lemma ends_here {A} c c' (r : res A) : wc_cursor c' = wc_cursor c -> r <> RFuel -> ends c (c', r).
Proof. intros E Hr. split; [done | by apply advances_cursor]. Qed.

Lemma ends_after {A} c c' (r : WorkflowContext * res A) : advances c c' -> ends c' r -> ends c r.
Proof. intros H [? ?]. split; [done | by etrans]. Qed.

(** A step that ends on contexts with at most [n] events left, and takes one. *)
Definition nextEnds (n : nat) (next : WorkflowContext -> WorkflowContext * res (bool * option error)) : Prop :=
  forall c, holding c -> (remaining c <= n)%nat ->
    ends c (next c) /\
    (forall c' b err, next c = (c', RRet (b, err)) -> b = true -> (remaining c' < remaining c)%nat).

Lemma awaitLoop_ends n next p fuel c :
  nextEnds n next -> holding c -> (remaining c <= n)%nat -> (remaining c < fuel)%nat ->
  ends c (awaitLoop fuel next p c).
Proof.
  intros Hn. revert c. induction fuel as [|fuel IH]; intros c Hh Hr Hf; [lia |]. cbn [awaitLoop].
  case_match; [by apply ends_here |].
  destruct (Hn c Hh Hr) as [[Hok Ha] Hlt].
  destruct (next c) as [c' r]. cbn in Hok, Ha.
  destruct r as [[[] [err|]] | | msg |]; try (by split).
  pose proof (advances_remaining _ _ Ha). specialize (Hlt c' true None eq_refl eq_refl).
  eapply ends_after; [exact Ha |]. apply IH; [by apply Ha | lia | lia].
Qed.

(** No method moves the cursor. *)
Definition sameCursor (c c' : WorkflowContext) : Prop := wc_cursor c' = wc_cursor c.

Lemma contextStep_sameCursor c c' : contextStep ToUpper c c' -> sameCursor c c'.
Proof. by intros []. Qed.

Lemma run_ends {A} n next (m : Prog A) c :
  nextEnds n next -> guarded sameCursor c m -> holding c -> (remaining c <= n)%nat -> ends c (run next m c).
Proof.
  intros Hn. revert c. induction m as [a | msg | k IH | c' k IH | p k IH]; cbn [run guarded]; intros c Hs Hh Hr.
  - by apply ends_here.
  - by apply ends_here.
  - by apply IH.
  - destruct Hs as [E Hs]. pose proof (advances_cursor _ _ E) as Ha.
    eapply ends_after; [exact Ha |]. apply IH; [done | by apply Ha |].
    pose proof (advances_remaining _ _ Ha). lia.
  - pose proof (awaitLoop_ends n next p (S (remaining c)) c Hn Hh Hr ltac:(lia)) as [Hok Ha].
    destruct (awaitLoop _ _ _ _) as [c' [err | | msg |]]; try (by split). cbn in Ha.
    eapply ends_after; [exact Ha |]. apply IH; [apply Hs | by apply Ha |].
    pose proof (advances_remaining _ _ Ha). lia.
Qed.

Lemma processNextEvent_ends n f :
  (forall e c, holding c -> (remaining c < n)%nat -> ends c (f e c)) -> nextEnds n (processNextEvent f).
Proof.
  intros Hf c Hh Hr. unfold processNextEvent, getNextHistoryEvent.
  destruct (historyOf c !! cu_historyIndex (wc_cursor c)) as [e|] eqn:He; cbn [mbind option_bind option_map];
    [| by split; [apply ends_here | intros ? ? ? [= <- <- <-]]].
  set (c1 := set_cursor _ c). apply lookup_lt_Some in He.
  assert (advances c c1) as Ha by (split_and!; cbn; [done | lia | done]).
  assert (remaining c1 < remaining c)%nat as Hlt 
    by (unfold remaining; change (historyOf c1) with (historyOf c); cbn; lia).
  destruct (Hf e c1) as [Hok Ha']; [by apply Ha | lia |].
  pose proof (advances_remaining _ _ Ha'). assert (advances c (f e c1).1) by by etrans.
  destruct (f e c1) as [c2 [err | | msg |]]; cbn [fst snd] in *; (split; [by split |]);
    intros c3 b0 err0 E _; simplify_eq; lia.
Qed.

Lemma resumeLoop_ends f l c :
  Forall (fun e => heldWhileSuspended e = true) l -> holding c ->
  (forall e c', heldWhileSuspended e = true -> advances c c' -> ends c' (f e c')) ->
  ends c (resumeLoop f l c).
Proof.
  intros Hl. revert c. induction Hl as [|e l He Hl IH]; intros c Hh Hf; cbn [resumeLoop].
  - split; [done |]. split_and!; cbn; try done. intros _. constructor.
  - destruct (Hf e c He) as [Hok Ha]; [done |].
    destruct (f e c) as [c1 [[err|] | | msg |]]; try (by split). cbn in Ha.
    eapply ends_after; [exact Ha |]. apply IH; [by apply Ha |].
    intros e' c' He' Ha'. apply Hf; [done | by etrans].
Qed.

Lemma onTableErr_ends f c : ends c (onTableErr f c).
Proof. unfold onTableErr. destruct (f _). by apply ends_here. Qed.

Lemma setCompleteInternal_cursor r s f c : wc_cursor (setCompleteInternal r s f c) = wc_cursor c.
Proof. done. Qed.

Lemma concludeWorkflow_cursor output err c :
  wc_cursor (concludeWorkflow errorTypeName errorText output err c) = wc_cursor c.
Proof. unfold concludeWorkflow, setContinuedAsNew, setComplete. by repeat case_match; simplify_eq. Qed.

Lemma onExecutionTerminated_ends et c : ends c (onExecutionTerminated et c, RRet (A := option error) None).
Proof. split; [done |]. unfold onExecutionTerminated. by case_match. Qed.

Lemma prepareStart_cursor es v c : wc_cursor (prepareStart es v c) = wc_cursor c.
Proof. unfold prepareStart. by repeat case_match. Qed.

Lemma onExecutionStarted_ends next n es c :
  nextEnds n next -> holding c -> (remaining c <= n)%nat ->
  ends c (onExecutionStarted ToUpper errorTypeName errorText registry next es c).
Proof.
  intros Hn Hh Hr. unfold onExecutionStarted.
  destruct (ResolveWorkflow _ _ _) as [[w v]|err]; [| by apply ends_here].
  set (c0 := prepareStart es v c). assert (wc_cursor c0 = wc_cursor c) as E by apply prepareStart_cursor.
  assert (advances c c0) as Ha0 by by apply advances_cursor.
  destruct (run_ends n next (denote ToUpper errorTypeName errorText w) c0) as [Hok Ha];
    [done | by apply (Guarded_weaken _ _ _ contextStep_sameCursor), Guarded_denote | by apply Ha0 | by pose proof (advances_remaining _ _ Ha0); lia |].
  destruct (run _ _ _) as [c1 [[output err] | | msg |]]; cbn in *;
    split; cbn; try done; repeat (etrans; [eassumption |]); try done.
  apply advances_cursor, concludeWorkflow_cursor.
Qed.

(** Events that are not a resume nest once less. *)
Lemma processEvent_ends fuel e c :
  holding c -> (2 * remaining c + (if heldWhileSuspended e then 1 else 2) <= fuel)%nat ->
  ends c (processEvent fuel e c).
Proof.
  revert e c. induction fuel as [|fuel IH]; intros e c Hh Hf; [case_match; lia |]. cbn [TaskExecutor.processEvent].
  destruct (cu_isTerminated (wc_cursor c)); [by apply ends_here |].
  destruct (cu_isSuspended (wc_cursor c) && heldWhileSuspended e) eqn:Hs.
  { split; [done |]. split_and!; cbn; [done | lia |]. intros _. apply Forall_app. split; [done |].
    apply andb_true_iff in Hs as [_ Hs]. by constructor. }
  destruct (EventType e) as [ty|] eqn:Ety; [| by apply ends_here].
  destruct ty; try (by apply ends_here); try apply onTableErr_ends; try apply onExecutionTerminated_ends.
  - apply onExecutionStarted_ends with (n := remaining c); [| done | lia].
    apply processNextEvent_ends. intros e' c' Hh' Hr'. apply IH; [done |]. repeat case_match; lia.
  - apply ends_here; [| done]. unfold onWorkflowStarted. by repeat case_match.
  - split; [done |]. by split_and!.
  - unfold heldWhileSuspended in Hf. rewrite Ety in Hf. unfold onExecutionResumed.
    set (c1 := set_suspension _ _ c). assert (advances c c1) as Ha by done.
    eapply ends_after; [exact Ha |]. apply resumeLoop_ends; [done | by apply Ha |].
    intros e' c' He' Ha'. apply IH; [by apply Ha', Ha |]. rewrite He'.
    pose proof (advances_remaining _ _ Ha). pose proof (advances_remaining _ _ Ha'). lia.
Qed.

Lemma startLoop_ends n next fuel c :
  nextEnds n next -> holding c -> (remaining c <= n)%nat -> (remaining c < fuel)%nat ->
  exists c' r, startLoop errorTypeName errorText fuel next c = (c', r) /\ (r = RRet tt \/ exists msg, r = RPanic msg).
Proof.
  intros Hn. revert c. induction fuel as [|fuel IH]; intros c Hh Hr Hf; [lia |]. cbn [startLoop].
  destruct (Hn c Hh Hr) as [[Hok Ha] Hlt]. destruct (next c) as [c' r]. cbn in Hok, Ha.
  destruct r as [[[] [err|]] | | msg |]; try done; try (by eauto 6).
  pose proof (advances_remaining _ _ Ha). specialize (Hlt c' true None eq_refl eq_refl).
  apply IH; [by apply Ha | lia | lia].
Qed.


End Total.
