(* ===== verification/TaskPreserve.v ===== *)
(** * Invariants of the table over a whole turn

    A property of the table that every method and every table handler keeps holds in
    every context a turn passes through, whatever the workflow function and the
    history are. *)

From stdpp Require Import base list option strings gmap.
From Stdlib Require Import ZArith Lia.
From S2P Require Import Prelude Errors Protos Dedup Propagation Helpers TaskRegistry TaskTable TaskProgram.
From S2P Require Import TaskMethods TaskExecutor TaskGuard.

(** ** Handlers that only touch the table *)

Definition tableEvent (ToUpper : string -> string) (e : HistoryEvent) : option (Table -> Table * option error) :=
  match EventType e with
  | Some (HistoryEvent_TaskScheduled ts) => Some (onTaskScheduled (EventId e) ts)
  | Some (HistoryEvent_TaskCompleted tc) => Some (fun b => (onTaskCompleted tc b, None))
  | Some (HistoryEvent_TaskFailed tf) => Some (fun b => (onTaskFailed tf b, None))
  | Some (HistoryEvent_ChildWorkflowInstanceCreated ts) => Some (onChildWorkflowScheduled (EventId e) ts)
  | Some (HistoryEvent_ChildWorkflowInstanceCompleted sc) => Some (fun b => (onChildWorkflowCompleted sc b, None))
  | Some (HistoryEvent_ChildWorkflowInstanceFailed sf) => Some (fun b => (onChildWorkflowFailed sf b, None))
  | Some (HistoryEvent_DetachedWorkflowInstanceCreated dw) => Some (onDetachedWorkflowCreated (EventId e) dw)
  | Some (HistoryEvent_TimerCreated tc) => Some (onTimerCreated (EventId e) tc)
  | Some (HistoryEvent_TimerFired tf) => Some (fun b => (onTimerFired tf b, None))
  | Some (HistoryEvent_EventRaised _) => Some (fun b => (onExternalEventRaised ToUpper e b, None))
  | _ => None
  end.

Section Preserve.
Context `{HF : Float64} `{HM : Marshaler} `{HR : RangeOrder} `{HC : ProtoCodec}.
Variable ToUpper : string -> string.
Variables errorTypeName errorText : error -> string.
Variable registry : TaskRegistry Workflow Activity.

Local Abbreviation processEvent := (processEvent ToUpper errorTypeName errorText registry).

Lemma tableEvent_held e f : tableEvent ToUpper e = Some f -> heldWhileSuspended e = true.
Proof. unfold tableEvent, heldWhileSuspended. by repeat case_match. Qed.

(** An event of the table that is not held back. *)
Lemma processEvent_table fuel e c f :
  cu_isTerminated (wc_cursor c) = false -> cu_isSuspended (wc_cursor c) = false ->
  tableEvent ToUpper e = Some f -> processEvent (S fuel) e c = onTableErr f c.
Proof.
  intros Ht Hs He. cbn [TaskExecutor.processEvent]. rewrite Ht, Hs. cbn [andb].
  unfold tableEvent in He. by repeat case_match; simplify_eq.
Qed.

(** ** Preservation *)

Variable I : Table -> Prop.
Hypothesis I_method : forall b b', methodStep ToUpper b b' -> I b -> I b'.
Hypothesis I_event : forall e f b, tableEvent ToUpper e = Some f -> I b -> I (f b).1.
Hypothesis I_delete : forall id b, I b -> I (set_pendingActions (delete id (tb_pendingActions b)) b).

Local Abbreviation holds := (fun c => I (wc_table c)).

Lemma contextStep_holds c c' : contextStep ToUpper c c' -> holds c -> holds c'.
Proof. intros []; try done. by apply I_method. Qed.

Lemma setCompleteInternal_holds r s f c : holds c -> holds (setCompleteInternal r s f c).
Proof. by apply I_method, (StepSchedule ToUpper (wc_table c)). Qed.

Lemma onHistoryError_holds err c : holds c -> holds (onHistoryError errorTypeName errorText err c).
Proof.
  unfold onHistoryError. case_match; [| apply setCompleteInternal_holds].
  by apply I_method, (StepSchedule ToUpper (wc_table c)).
Qed.

Lemma concludeWorkflow_holds o e c : holds c -> holds (concludeWorkflow errorTypeName errorText o e c).
Proof.
  intros H. unfold concludeWorkflow, setContinuedAsNew, setComplete, setFailed.
  repeat case_match; simplify_eq; by repeat apply setCompleteInternal_holds.
Qed.

Lemma onExecutionTerminated_holds et c : holds c -> holds (onExecutionTerminated et c).
Proof.
  intros H. unfold onExecutionTerminated.
  destruct (terminateScan _ _) as [m|] eqn:E; [| done]. apply setCompleteInternal_holds. cbn in *.
  revert E. generalize (rangeOrder (tb_pendingActions (wc_table c))). intros l.
  induction l as [|[id p] l IH]; cbn; [intros [= <-]; by destruct (wc_table c) |].
  do 2 (case_match; [| done || exact IH]). intros [= <-]. by apply I_delete.
Qed.

(** A step that keeps the property. *)
Definition keeps {A} (f : WorkflowContext -> WorkflowContext * res A) : Prop := forall c, holds c -> holds (f c).1.

Lemma awaitLoop_keeps next p fuel : keeps next -> keeps (awaitLoop fuel next p).
Proof.
  intros Hn. induction fuel as [|fuel IH]; intros c H; cbn [awaitLoop]; [done |]. case_match; [done |].
  specialize (Hn c H). destruct (next c) as [c' [[[] []] | | |]]; auto.
Qed.

Lemma run_keeps {A} next (m : Prog A) c : keeps next -> guarded (contextStep ToUpper) c m -> holds c -> holds (run next m c).1.
Proof.
  intros Hn. revert c. induction m as [a | msg | k IH | c' k IH | p k IH]; cbn [run guarded]; intros c Hg H; try done.
  - by apply IH.
  - destruct Hg as [Hs Hg]. apply IH; [done |]. by apply (contextStep_holds c).
  - pose proof (awaitLoop_keeps next p (S (remaining c)) Hn c H) as H'.
    destruct (awaitLoop _ next p c) as [c' [err | | |]]; try done. by apply IH.
Qed.

Lemma processNextEvent_keeps f : (forall e, keeps (f e)) -> keeps (processNextEvent f).
Proof.
  intros Hf c H. unfold processNextEvent, getNextHistoryEvent.
  destruct (historyOf c !! _) as [e|]; cbn [mbind option_bind option_map]; [| done]. set (c1 := set_cursor _ c).
  specialize (Hf e c1 H). by destruct (f e c1) as [c2 [| | |]].
Qed.

Lemma resumeLoop_keeps f l : (forall e, keeps (f e)) -> keeps (resumeLoop f l).
Proof.
  intros Hf. induction l as [|e l IH]; intros c H; cbn [resumeLoop]; [done |].
  specialize (Hf e c H). destruct (f e c) as [c' [[|] | | |]]; auto.
Qed.

Lemma processEvent_keeps fuel e : keeps (processEvent fuel e).
Proof.
  revert e. induction fuel as [|fuel IH]; intros e c H; cbn [TaskExecutor.processEvent]; [done |].
  do 2 (case_match; [done |]).
  destruct (tableEvent ToUpper e) as [f|] eqn:Ef.
  - pose proof (I_event e f (wc_table c) Ef H) as H'. unfold tableEvent in Ef.
    repeat case_match; simplify_eq; try done; unfold onTableErr;
      by destruct (onTaskScheduled _ _ _) || destruct (onChildWorkflowScheduled _ _ _) ||
         destruct (onDetachedWorkflowCreated _ _ _) || destruct (onTimerCreated _ _ _).
  - unfold tableEvent in Ef. destruct (EventType e) as [[]|]; try done.
    + unfold onExecutionStarted. destruct (ResolveWorkflow _ _ _) as [[w v]|]; [| done].
      set (c0 := prepareStart x v c). assert (holds c0) as Hc0 by (unfold c0, prepareStart; by repeat case_match).
      pose proof (run_keeps (processNextEvent (processEvent fuel)) (denote ToUpper errorTypeName errorText w) c0
        (processNextEvent_keeps _ IH) (Guarded_denote ToUpper errorTypeName errorText w c0) Hc0) as Hrun.
      destruct (run _ _ _) as [c1 [[output err] | | |]]; try done. by apply concludeWorkflow_holds.
    + by apply onExecutionTerminated_holds.
    + unfold onWorkflowStarted. by repeat case_match.
    + by apply resumeLoop_keeps.
Qed.

Lemma start_keeps : keeps (start ToUpper errorTypeName errorText registry).
Proof.
  intros c. unfold start. set (next := processNextEvent (processEvent (eventFuel c))).
  assert (keeps next) as Hn by apply processNextEvent_keeps, processEvent_keeps.
  generalize (S (remaining c)) as fuel. clearbody next. intros fuel. revert c.
  induction fuel as [|fuel IH]; intros c H; cbn [startLoop]; [done |].
  specialize (Hn c H). destruct (next c) as [c' [[[] []] | | |]]; try done; [by apply onHistoryError_holds | | by apply onHistoryError_holds].
  by apply IH.
Qed.

End Preserve.
