(* ===== verification/TaskInv.v ===== *)
(** * The pending work of a workflow is well formed

    Type invariant of the table of [TaskTable]: pending actions are listed under
    their own id, pending tasks exist and are not event waiters, and the lists of
    event waiters are consistent with the timers that cancel them.  Every handler and
    every method keeps it, so the pointers the code follows are never nil, a
    registered list of waiters is never empty, the callbacks of tasks nest at most
    once, and the actions of a turn have distinct, ascending ids. *)

From stdpp Require Import base list option strings gmap sorting.
From Stdlib Require Import ZArith Lia.
From S2P Require Import Prelude Errors Protos Dedup Propagation Helpers TaskRegistry TaskTable TaskProgram.
From S2P Require Import TaskMethods TaskExecutor TaskGuard TaskPreserve.

(** ** The invariant *)

(** A task that waits for an external event, not completed yet. *)
Definition waiting (b : Table) (p : nat) : Prop :=
  exists t, getTask p b = Some t /\ ct_kind t = KindNone /\ ct_isCompleted t = false.

Record table_wf (b : Table) : Prop := {
  wf_actions id p : tb_pendingActions b !! id = Some p ->
    exists a, getAction p b = Some a /\ wa_Id a = id /\ emittable a = true;
  wf_tasks id p : tb_pendingTasks b !! id = Some p -> exists t, getTask p b = Some t /\ ct_kind t <> KindNone;
  wf_fresh p : (h_next (tb_heap b) <= p)%nat ->
    getAction p b = None /\ getTask p b = None /\ h_lists (tb_heap b) !! p = None;
  (** only timers have callbacks; an open waiter is in the registered list of its key *)
  wf_callbacks p t cb : getTask p b = Some t -> ct_completedCallback t = Some cb ->
    ct_kind t = KindTimer /\
    exists w, getTask (cb_task cb) b = Some w /\ ct_kind w = KindNone /\
      (ct_isCompleted w = false ->
       tb_pendingExternalEventTasks b !! cb_key cb = Some (cb_list cb) /\ cb_task cb ∈ getList (cb_list cb) b);
  wf_waiters key l : tb_pendingExternalEventTasks b !! key = Some l ->
    getList l b <> [] /\ NoDup (getList l b) /\ (forall p, p ∈ getList l b -> waiting b p);
  wf_disjoint k1 k2 l1 l2 p :
    tb_pendingExternalEventTasks b !! k1 = Some l1 -> tb_pendingExternalEventTasks b !! k2 = Some l2 ->
    p ∈ getList l1 b -> p ∈ getList l2 b -> k1 = k2
}.

(** Updates that touch nothing the invariant reads. *)
Lemma wf_frame b b' :
  tb_pendingActions b' = tb_pendingActions b -> tb_pendingTasks b' = tb_pendingTasks b ->
  tb_pendingExternalEventTasks b' = tb_pendingExternalEventTasks b -> tb_heap b' = tb_heap b ->
  table_wf b -> table_wf b'.
Proof.
  intros E1 E2 E3 E4 [H1 H2 H3 H4 H5 H6].
  split; unfold waiting, getAction, getTask, getList in *; rewrite ?E1, ?E2, ?E3, ?E4; done.
Qed.

(** Deleting what is pending. *)
Lemma wf_pendingActions m b :
  m ⊆ tb_pendingActions b -> table_wf b -> table_wf (set_pendingActions m b).
Proof. intros Hm []. split; try done. intros id p Hp. by eapply wf_actions0, lookup_weaken. Qed.

Lemma wf_pendingTasks m b :
  (forall id p, m !! id = Some p -> exists t, getTask p b = Some t /\ ct_kind t <> KindNone) ->
  table_wf b -> table_wf (set_pendingTasks m b).
Proof. intros Hm []. by split. Qed.

Lemma wf_deleteTask id b : table_wf b -> table_wf (set_pendingTasks (delete id (tb_pendingTasks b)) b).
Proof. intros H. apply wf_pendingTasks; [| done]. intros ? ? [_ Hp]%lookup_delete_Some. by eapply wf_tasks. Qed.

(** Pointers to pending actions are distinct. *)
Lemma wf_actions_inj b id1 id2 p :
  table_wf b -> tb_pendingActions b !! id1 = Some p -> tb_pendingActions b !! id2 = Some p -> id1 = id2.
Proof.
  intros H H1 H2. apply (wf_actions _ H) in H1 as (a1 & E1 & <- & _), H2 as (a2 & E2 & <- & _). congruence.
Qed.

Lemma wf_modAction f p b :
  (forall a, wa_Id (f a) = wa_Id a /\ emittable (f a) = emittable a) ->
  table_wf b -> table_wf (modAction f p b).
Proof.
  intros Hf H. pose proof H as [H1 H2 H3 H4 H5 H6]. split; try done.
  - intros id q Hq. destruct (H1 id q Hq) as (a & Ea & <- & Hty). unfold getAction in *. cbn.
    destruct (decide (p = q)) as [-> |].
    + rewrite lookup_alter_eq, Ea. exists (f a). destruct (Hf a) as [? ->]. by split_and!; auto.
    + rewrite lookup_alter_ne by done. by exists a.
  - intros q Hq. destruct (H3 q Hq) as (Ea & Et & El). split_and!; try done.
    unfold getAction in *. cbn. destruct (decide (p = q)) as [-> |].
    + by rewrite lookup_alter_eq, Ea.
    + by rewrite lookup_alter_ne.
Qed.

(** *** Tasks *)

Lemma getTask_modTask f p q b :
  getTask q (modTask f p b) = if decide (p = q) then f <$> getTask q b else getTask q b.
Proof.
  unfold getTask. cbn. case_decide as E; [subst; by rewrite lookup_alter_eq | by rewrite lookup_alter_ne].
Qed.

(** What every assignment to a task keeps. *)
Definition keepsTask (f : completableTask -> completableTask) : Prop :=
  forall t, ct_kind (f t) = ct_kind t /\ ct_completedCallback (f t) = ct_completedCallback t.

Lemma modTask_Some f p q b t' :
  getTask q (modTask f p b) = Some t' -> keepsTask f ->
  exists t, getTask q b = Some t /\ ct_kind t' = ct_kind t /\
    ct_completedCallback t' = ct_completedCallback t /\ (q <> p -> t' = t) /\ (q = p -> t' = f t).
Proof.
  rewrite getTask_modTask. intros H Hf. destruct (decide (p = q)) as [-> |]; [| by exists t'].
  apply fmap_Some in H as (t & Ht & ->). exists t. destruct (Hf t). by split_and!.
Qed.

Lemma modTask_exists f p q b t :
  getTask q b = Some t -> keepsTask f ->
  exists t', getTask q (modTask f p b) = Some t' /\ ct_kind t' = ct_kind t /\
    ct_completedCallback t' = ct_completedCallback t /\ (q <> p -> t' = t) /\ (q = p -> t' = f t).
Proof.
  intros H Hf. rewrite getTask_modTask, H. destruct (Hf t). case_decide; [subst; exists (f t) | exists t]; by split_and!.
Qed.

(** Assigning to a task that is in no registered list, or without completing it. *)
Lemma wf_modTask f p b :
  keepsTask f ->
  (forall t, getTask p b = Some t -> ct_kind t = KindNone ->
     (ct_isCompleted (f t) = ct_isCompleted t) \/
     (ct_isCompleted (f t) = true /\ forall key l, tb_pendingExternalEventTasks b !! key = Some l -> p ∉ getList l b)) ->
  table_wf b -> table_wf (modTask f p b).
Proof.
  intros Hf Hp [H1 H2 H3 H4 H5 H6]. split; try done.
  - intros id q Hq. destruct (H2 id q Hq) as (t & Ht & Hk).
    destruct (modTask_exists f p q b t Ht Hf) as (t' & Ht' & Hk' & _). exists t'. by rewrite Hk'.
  - intros q Hq. destruct (H3 q Hq) as (? & Ht & ?). split_and!; try done.
    rewrite getTask_modTask. case_decide; by rewrite Ht.
  - intros q t' cb Ht' Hcb. destruct (modTask_Some _ _ _ _ _ Ht' Hf) as (t & Ht & Hk & Hc & _).
    rewrite Hc in Hcb. destruct (H4 q t cb Ht Hcb) as (Hkt & w & Hw & Hkw & Hopen). rewrite Hk. split; [done |].
    destruct (modTask_exists f p _ b w Hw Hf) as (w' & Hw' & Hkw' & _ & Hne & Heq).
    exists w'. rewrite Hkw'. split_and!; try done. intros Hnc. apply Hopen.
    destruct (decide (cb_task cb = p)) as [E|E]; [| by rewrite <- (Hne E)].
    rewrite (Heq E) in Hnc. rewrite E in Hw. destruct (Hp w Hw Hkw) as [<- | [Hc' _]]; [done | congruence].
  - intros key l Hl. destruct (H5 key l Hl) as (Hn & Hd & Hw). split_and!; try done.
    intros q Hq. destruct (Hw q Hq) as (t & Ht & Hk & Hnc).
    destruct (modTask_exists f p _ b t Ht Hf) as (t' & Ht' & Hk' & _ & Hne & Heq).
    exists t'. rewrite Hk'. split_and!; try done.
    destruct (decide (q = p)) as [E|E]; [| by rewrite (Hne E)].
    rewrite (Heq E). subst q. destruct (Hp t Ht Hk) as [-> | [_ Hnot]]; [done | by destruct (Hnot key l Hl)].
Qed.

(** *** Waiters *)

Lemma filter_ne_id (w : nat) (l : list nat) : w ∉ l -> filter (fun p => p <> w) l = l.
Proof.
  induction l as [|x l IH]; [done |]. intros [Hx Hl]%not_elem_of_cons.
  rewrite filter_cons_True by congruence. by rewrite IH.
Qed.

(** Take the waiter [w] off the list [l] of [key]. *)
Definition unlink (key : string) (l w : nat) (b : Table) : Table :=
  if (1 <? length (getList l b))%nat then setList l (filter (fun p => p <> w) (getList l b)) b
  else set_pendingExternalEventTasks (delete key (tb_pendingExternalEventTasks b)) b.

Lemma getList_setList l x k b : getList k (setList l x b) = if decide (l = k) then x else getList k b.
Proof.
  unfold getList. cbn. case_decide as E; [subst; by rewrite lookup_insert_eq | by rewrite lookup_insert_ne].
Qed.

Lemma unlink_frame key l w b :
  let b' := unlink key l w b in
  tb_pendingActions b' = tb_pendingActions b /\ tb_pendingTasks b' = tb_pendingTasks b /\
  h_next (tb_heap b') = h_next (tb_heap b) /\ (forall p, getAction p b' = getAction p b) /\
  (forall p, getTask p b' = getTask p b).
Proof. unfold unlink. by case_match. Qed.

(** The registered lists afterwards. *)
Lemma unlink_registered key l w b k l' :
  table_wf b -> tb_pendingExternalEventTasks b !! key = Some l -> w ∈ getList l b ->
  tb_pendingExternalEventTasks (unlink key l w b) !! k = Some l' ->
  tb_pendingExternalEventTasks b !! k = Some l' /\
  getList l' (unlink key l w b) = filter (fun p => p <> w) (getList l' b) /\
  getList l' (unlink key l w b) <> [].
Proof.
  intros H Hl Hw. destruct (wf_waiters b H key l Hl) as (Hn & Hd & _).
  assert (forall k l', tb_pendingExternalEventTasks b !! k = Some l' -> k <> key -> w ∉ getList l' b) as Hother.
  { intros k0 l0 Hl0 Hk Hin. by apply Hk, (wf_disjoint b H k0 key l0 l w). }
  assert (forall k l', tb_pendingExternalEventTasks b !! k = Some l' -> k <> key ->
            filter (fun p => p <> w) (getList l' b) = getList l' b) as Hid.
  { intros k0 l0 Hl0 Hk. by eapply filter_ne_id, Hother. }
  unfold unlink. destruct (1 <? length (getList l b))%nat eqn:E; intros Hk.
  - cbn in Hk. split; [done |]. rewrite getList_setList.
    destruct (decide (k = key)) as [-> |Hne].
    + replace l' with l by congruence. rewrite decide_True by done. split; [done |].
      apply Nat.ltb_lt in E. destruct (getList l b) as [|x [|y r]] eqn:El; cbn in E; [lia | lia |].
      intros Hnil. assert (forall z, z ∈ x :: y :: r -> z = w) as Hall.
      { intros z Hz. destruct (decide (z = w)) as [|Hz']; [done |].
        assert (z ∈ filter (fun p => p <> w) (x :: y :: r)) as Hin by by apply list_elem_of_filter.
        rewrite Hnil in Hin. by apply not_elem_of_nil in Hin. }
      rewrite (Hall x), (Hall y) in Hd by set_solver. by apply NoDup_cons in Hd as [[]%not_elem_of_cons _].
    + rewrite decide_False by (intros ->; by eapply Hother). rewrite (Hid k l' Hk Hne).
      split; [done |]. by apply (wf_waiters b H k).
  - cbn in Hk. apply lookup_delete_Some in Hk as [Hne Hk]. split; [done |].
    rewrite (Hid k l' Hk) by done. split; [done |]. by apply (wf_waiters b H k).
Qed.

(** The other waiters stay where they are. *)
Lemma unlink_keeps key l w b k l' p :
  table_wf b -> tb_pendingExternalEventTasks b !! key = Some l -> w ∈ getList l b ->
  tb_pendingExternalEventTasks b !! k = Some l' -> p ∈ getList l' b -> p <> w ->
  tb_pendingExternalEventTasks (unlink key l w b) !! k = Some l' /\ p ∈ getList l' (unlink key l w b).
Proof.
  intros H Hl Hw Hk Hp Hne. unfold unlink. destruct (1 <? length (getList l b))%nat eqn:E.
  - cbn. split; [done |]. rewrite getList_setList. case_decide; [| done]. subst. by apply list_elem_of_filter.
  - apply Nat.ltb_ge in E. cbn. rewrite lookup_delete_ne; [done |]. intros ->.
    replace l' with l in Hp by congruence.
    destruct (getList l b) as [|x [|y r]]; [by apply not_elem_of_nil in Hp | set_solver | cbn in E; lia].
Qed.

(** Completing a waiter and taking it off its list. *)
Lemma wf_release f key l w b :
  keepsTask f -> (forall t, ct_isCompleted (f t) = true) -> table_wf b ->
  tb_pendingExternalEventTasks b !! key = Some l -> w ∈ getList l b ->
  table_wf (modTask f w (unlink key l w b)).
Proof.
  intros Hf Hdone H Hl Hw. set (b0 := unlink key l w b).
  destruct (unlink_frame key l w b) as (Ea & Ep & Eh & Ha0 & Ht0). fold b0 in Ea, Ep, Eh, Ha0, Ht0.
  assert (forall k l', tb_pendingExternalEventTasks b0 !! k = Some l' ->
    tb_pendingExternalEventTasks b !! k = Some l' /\ getList l' b0 = filter (fun p => p <> w) (getList l' b) /\
    getList l' b0 <> []) as Hreg by (intros; by apply unlink_registered).
  pose proof H as [H1 H2 H3 H4 H5 H6]. split.
  - intros id p. change (getAction p (modTask f w b0)) with (getAction p b0). cbn. rewrite Ea, Ha0. apply H1.
  - intros id p Hp. cbn in Hp. rewrite Ep in Hp. destruct (H2 id p Hp) as (t & Ht & Hk).
    rewrite <- Ht0 in Ht. destruct (modTask_exists f w _ _ _ Ht Hf) as (t' & ? & E & _). exists t'. by rewrite E.
  - intros p Hp. cbn in Hp. rewrite Eh in Hp. destruct (H3 p Hp) as (E1 & E2 & E3).
    change (getAction p (modTask f w b0)) with (getAction p b0). rewrite Ha0, getTask_modTask, Ht0, E2.
    split_and!; [done | by case_decide |]. unfold b0, unlink. case_match; [| done]. cbn.
    rewrite lookup_insert_ne; [done |]. intros ->. unfold getList in Hw. rewrite E3 in Hw.
    by apply not_elem_of_nil in Hw.
  - intros q t' cb Ht' Hcb. destruct (modTask_Some _ _ _ _ _ Ht' Hf) as (t & Ht & Hk & Hc & _).
    rewrite Ht0 in Ht. rewrite Hc in Hcb. destruct (H4 q t cb Ht Hcb) as (Hkt & x & Hx & Hkx & Hopen).
    rewrite Hk. split; [done |]. rewrite <- Ht0 in Hx.
    destruct (modTask_exists f w _ _ _ Hx Hf) as (x' & Hx' & Hkx' & _ & Hne & Heq).
    exists x'. rewrite Hkx'. split_and!; try done. intros Hnc.
    destruct (decide (cb_task cb = w)) as [E|E]; [rewrite (Heq E), Hdone in Hnc; done |].
    rewrite (Hne E) in Hnc. destruct (Hopen Hnc) as [Hp Hin]. by apply (unlink_keeps key l w b).
  - intros k l' Hk. destruct (Hreg k l' Hk) as (Hk' & E & Hn). destruct (H5 k l' Hk') as (_ & Hd & Hall).
    change (getList l' (modTask f w b0)) with (getList l' b0). split_and!; [done | rewrite E; by apply NoDup_filter |].
    intros p Hp. rewrite E in Hp. apply list_elem_of_filter in Hp as [Hne Hp].
    destruct (Hall p Hp) as (t & Ht & ? & ?). exists t. rewrite getTask_modTask, decide_False, Ht0 by done. done.
  - intros k1 k2 l1 l2 p Hk1 Hk2. destruct (Hreg k1 l1 Hk1) as (Hk1' & E1 & _), (Hreg k2 l2 Hk2) as (Hk2' & E2 & _).
    change (getList l1 (modTask f w b0)) with (getList l1 b0). change (getList l2 (modTask f w b0)) with (getList l2 b0).
    rewrite E1, E2. intros [_ ?]%list_elem_of_filter [_ ?]%list_elem_of_filter. by eapply H6.
Qed.

(** *** Completing tasks *)

Lemma keeps_completed : keepsTask set_completed.
Proof. done. Qed.
Lemma keeps_canceled : keepsTask set_canceled.
Proof. done. Qed.
Lemma keeps_rawResult v : keepsTask (set_rawResult v).
Proof. done. Qed.
Lemma keeps_failureDetails v : keepsTask (set_failureDetails v).
Proof. done. Qed.
Lemma keeps_taskExecutionId v : keepsTask (set_taskExecutionId v).
Proof. done. Qed.
Lemma keeps_childInstanceID v : keepsTask (set_childInstanceID v).
Proof. done. Qed.
#[local] Hint Resolve keeps_completed keeps_canceled keeps_rawResult keeps_failureDetails keeps_taskExecutionId
  keeps_childInstanceID : core.

(** An assignment that does not complete the task. *)
Lemma wf_assign f p b :
  keepsTask f -> (forall t, ct_isCompleted (f t) = ct_isCompleted t) -> table_wf b -> table_wf (modTask f p b).
Proof. intros Hf Hc. apply wf_modTask; [done |]. intros t _ _. left. apply Hc. Qed.

(** [completeInternal] without recursion: the callback of a waiter's timer cancels the
    waiter, which has no callback of its own. *)
Definition finishTask (p : nat) (b : Table) : Table :=
  let b := modTask set_completed p b in
  match getTask p b ≫= ct_completedCallback with
  | Some cb =>
      let w := cb_task cb in
      if default true (ct_isCompleted <$> getTask w b) then b
      else unlink (cb_key cb) (cb_list cb) w (modTask set_completed w (modTask set_canceled w b))
  | None => b
  end.

Lemma modTask_callback f p q b cb :
  keepsTask f -> getTask q (modTask f p b) ≫= ct_completedCallback = Some cb <->
  getTask q b ≫= ct_completedCallback = Some cb.
Proof.
  intros Hf. rewrite getTask_modTask. case_decide; [subst | done].
  destruct (getTask q b) as [t|]; cbn; [| done]. by rewrite (proj2 (Hf t)).
Qed.

(** Depth two is enough. *)
Lemma completeInternal_depth n p b : table_wf b -> completeInternal (S (S n)) p b = finishTask p b.
Proof.
  intros H. unfold finishTask. cbn [completeInternal].
  destruct (getTask p (modTask set_completed p b) ≫= ct_completedCallback) as [cb|] eqn:E; [| done].
  apply modTask_callback in E; [| done]. apply bind_Some in E as (t & Ht & Hcb).
  destruct (wf_callbacks b H p t cb Ht Hcb) as (_ & w & Hw & Hk & _).
  unfold onTimeout.
  destruct (modTask_exists set_completed p _ _ _ Hw keeps_completed) as (w' & -> & Hk' & _ & _ & _). cbn.
  destruct (ct_isCompleted w'); [done |].
  match goal with |- context [match ?m with Some _ => _ | None => _ end] => assert (m = None) as -> end; [| done].
  apply eq_None_not_Some. intros [cb' E]. do 3 (apply modTask_callback in E; [| done]).
  rewrite Hw in E. cbn in E. destruct (wf_callbacks b H _ w cb' Hw E) as (E' & _). congruence.
Qed.

(** A task that may be completed: not a waiter that is still registered. *)
Definition unregistered (b : Table) (p : nat) : Prop :=
  forall key l, tb_pendingExternalEventTasks b !! key = Some l -> p ∉ getList l b.

Lemma unlink_modTask key l w f p b : unlink key l w (modTask f p b) = modTask f p (unlink key l w b).
Proof. unfold unlink. change (getList l (modTask f p b)) with (getList l b). by case_match. Qed.

(** Cancelling a registered waiter. *)
Lemma wf_timeout key l w b :
  table_wf b -> tb_pendingExternalEventTasks b !! key = Some l -> w ∈ getList l b ->
  table_wf (unlink key l w (modTask set_completed w (modTask set_canceled w b))).
Proof.
  intros H Hl Hin. rewrite unlink_modTask. apply wf_release; try done. by apply wf_assign.
Qed.

Lemma wf_finishTask p b : table_wf b -> unregistered b p -> table_wf (finishTask p b).
Proof.
  intros H Hu. unfold finishTask.
  assert (table_wf (modTask set_completed p b)) as H1.
  { apply wf_modTask; [done | | done]. intros t _ _. by right. }
  set (b1 := modTask set_completed p b) in *.
  destruct (getTask p b1 ≫= ct_completedCallback) as [cb|] eqn:E; [| done].
  apply bind_Some in E as (t & Ht & Hcb). destruct (wf_callbacks b1 H1 p t cb Ht Hcb) as (_ & w & Hw & Hk & Hopen).
  rewrite Hw. cbn. destruct (ct_isCompleted w) eqn:Ew; [done |]. destruct (Hopen eq_refl) as [Hl Hin].
  by apply wf_timeout.
Qed.

Lemma unregistered_kind b p t : table_wf b -> getTask p b = Some t -> ct_kind t <> KindNone -> unregistered b p.
Proof.
  intros H Ht Hk key l Hl Hin. destruct (wf_waiters b H key l Hl) as (_ & _ & Hw).
  destruct (Hw p Hin) as (t' & ? & ? & _). congruence.
Qed.

Lemma wf_completeInternal p b :
  table_wf b -> unregistered b p -> table_wf (completeInternal callbackDepth p b).
Proof. intros H Hu. unfold callbackDepth. rewrite completeInternal_depth by done. by apply wf_finishTask. Qed.

Lemma wf_taskComplete v p b : table_wf b -> unregistered b p -> table_wf (taskComplete v p b).
Proof. intros H Hu. apply wf_completeInternal; [by apply wf_assign | done]. Qed.
Lemma wf_taskFail v p b : table_wf b -> unregistered b p -> table_wf (taskFail v p b).
Proof. intros H Hu. apply wf_completeInternal; [by apply wf_assign | done]. Qed.
Lemma wf_taskCancel p b : table_wf b -> unregistered b p -> table_wf (taskCancel p b).
Proof. intros H Hu. apply wf_completeInternal; [by apply wf_assign | done]. Qed.

(** *** Resolutions *)

Lemma wf_restoreActivityScheduleIdentity id x b : table_wf b -> table_wf (restoreActivityScheduleIdentity id x b).
Proof.
  intros H. unfold restoreActivityScheduleIdentity. case_match; [| done]. apply wf_modAction; [| done].
  by intros [? [[]|] ?].
Qed.

Lemma restoreActivityScheduleIdentity_frame id x b :
  let b' := restoreActivityScheduleIdentity id x b in
  (forall p, getTask p b' = getTask p b) /\ (forall p, unregistered b p -> unregistered b' p) /\
  tb_pendingActions b' = tb_pendingActions b.
Proof. unfold restoreActivityScheduleIdentity. by case_match. Qed.

Lemma wf_bufferResolution key r b : table_wf b -> table_wf (bufferResolution key r b).
Proof. intros H. unfold bufferResolution. repeat case_match; try done. by revert H; apply wf_frame. Qed.

Lemma wf_onResolution key r finish b :
  key.1 <> KindNone ->
  (forall p b, table_wf b -> unregistered b p -> table_wf (finish p b)) ->
  table_wf b -> table_wf (onResolution key r finish b).
Proof.
  intros Hk Hf H. unfold onResolution.
  destruct (tb_pendingTasks b !! key.2) as [p|] eqn:Hp; [| by apply wf_bufferResolution].
  case_match; [| by apply wf_bufferResolution].
  assert (table_wf (set_pendingTasks (delete key.2 (tb_pendingTasks b)) b)) by by apply wf_deleteTask.
  destruct (wf_tasks b H _ _ Hp) as (t & Ht & Hkt).
  apply Hf; [by eapply (wf_frame (set_pendingTasks (delete key.2 (tb_pendingTasks b)) b)) |].
  by apply (unregistered_kind b p t).
Qed.

Lemma wf_redeliver r b : table_wf b -> table_wf (redeliver r b).
Proof.
  intros H. destruct r; cbn; apply wf_onResolution; try done; intros p b' H' Hu.
  - apply wf_taskComplete; [by apply wf_restoreActivityScheduleIdentity |].
    by apply restoreActivityScheduleIdentity_frame.
  - apply wf_taskFail; [apply wf_assign; [done | done |]; by apply wf_restoreActivityScheduleIdentity |].
    by apply restoreActivityScheduleIdentity_frame.
  - by apply wf_taskComplete.
  - by apply wf_taskComplete.
  - by apply wf_taskFail.
Qed.

Lemma wf_consumeBufferedResolution k id b : table_wf b -> table_wf (consumeBufferedResolution k id b).
Proof. intros H. unfold consumeBufferedResolution. repeat case_match; try done. apply wf_redeliver. by revert H; apply wf_frame. Qed.

Lemma wf_consumeAt ids b : table_wf b -> table_wf (consumeAt ids b).
Proof.
  unfold consumeAt. revert b. induction ids as [|id ids IH]; intros b H; cbn; [done |]. apply IH.
  case_match; [by apply wf_consumeBufferedResolution | done].
Qed.

Lemma wf_consumeReady b : table_wf b -> table_wf (consumeReadyBufferedResolutions b).
Proof. intros H. unfold consumeReadyBufferedResolutions. case_match; [done | by apply wf_consumeAt]. Qed.

(** *** Optional timers *)

Lemma wf_shiftAction b id : table_wf b -> table_wf (shiftAction b id).
Proof.
  intros H. unfold shiftAction. destruct (tb_pendingActions b !! id) as [p|] eqn:Hp; [| done].
  set (b1 := set_pendingActions _ _). assert (table_wf b1) as H1; [| case_match; [by eapply (wf_frame b1) | done]].
  pose proof H as [A T F C W D]. split; try done.
  - intros k q Hq. cbn in Hq. unfold getAction. cbn. apply lookup_insert_Some in Hq as [[<- <-] | [Hk Hq]].
    + destruct (A id p Hp) as (a & Ea & _ & Hty). rewrite lookup_alter_eq. unfold getAction in Ea. rewrite Ea. eauto.
    + apply lookup_delete_Some in Hq as [Hid Hq]. destruct (A k q Hq) as (a & Ea & <- & Hty).
      rewrite lookup_alter_ne; [by exists a |]. intros <-. by eapply Hid, (wf_actions_inj b).
  - intros q Hq. destruct (F q Hq) as (E & ? & ?). split_and!; try done. unfold getAction in *. cbn.
    destruct (decide (p = q)) as [-> |]; [by rewrite lookup_alter_eq, E | by rewrite lookup_alter_ne].
Qed.

Lemma wf_shiftTask b id : table_wf b -> table_wf (shiftTask b id).
Proof.
  intros H. unfold shiftTask. destruct (tb_pendingTasks b !! id) as [p|] eqn:Hp; [| done].
  apply wf_pendingTasks; [| done]. intros k q [[<- <-] | [_ [_ Hq]%lookup_delete_Some]]%lookup_insert_Some;
    by eapply wf_tasks.
Qed.

Lemma wf_foldl {A} (f : Table -> A -> Table) l b :
  (forall b x, table_wf b -> table_wf (f b x)) -> table_wf b -> table_wf (foldl f b l).
Proof. intros Hf. revert b. induction l as [|x l IH]; intros b H; cbn; auto. Qed.

Lemma wf_removePendingAction id b : table_wf b -> table_wf (removePendingAction id b).
Proof. apply wf_pendingActions, delete_subseteq. Qed.

Lemma wf_sequenceNumber v b : table_wf b -> table_wf (set_sequenceNumber v b).
Proof. by apply wf_frame. Qed.
Lemma wf_optionalTimerIDs v b : table_wf b -> table_wf (set_optionalTimerIDs v b).
Proof. by apply wf_frame. Qed.

Lemma wf_drop id b : table_wf b -> table_wf (dropOptionalExternalEventTimerAt id b).2.
Proof.
  intros H. unfold dropOptionalExternalEventTimerAt. do 2 (case_match; [| done]). cbn.
  apply wf_consumeAt, wf_sequenceNumber.
  apply wf_foldl; [by intros; apply wf_shiftTask |]. apply wf_foldl; [by intros; apply wf_shiftAction |].
  apply wf_optionalTimerIDs. apply (wf_deleteTask id (removePendingAction id b)), wf_removePendingAction, H.
Qed.

Lemma wf_dropLoop fuel id b : table_wf b -> table_wf (dropLoop fuel id b).
Proof.
  revert b. induction fuel as [|fuel IH]; intros b H; cbn; [done |].
  pose proof (wf_drop id b H) as H'. destruct (dropOptionalExternalEventTimerAt id b) as [[] b']; auto.
Qed.

Lemma wf_alignAction {X} (get : WorkflowAction -> option X) drop id b :
  (forall b, table_wf b -> table_wf (drop id b)) -> table_wf b -> table_wf (alignAction get drop id b).1.
Proof. intros Hd H. unfold alignAction. case_match; [done | by apply Hd]. Qed.

Lemma wf_dropAllAt id b : table_wf b -> table_wf (dropAllAt id b).
Proof. apply wf_dropLoop. Qed.

(** *** Dropping ends

    Delivering results keeps the pending actions, and dropping an optional timer
    removes one, so the loop of [dropAllAt] has enough fuel. *)

Lemma completeInternal_pendingActions n p b :
  tb_pendingActions (completeInternal n p b) = tb_pendingActions b.
Proof.
  revert p b. induction n as [|n IH]; intros p b; cbn [completeInternal]; [done |].
  case_match; [| done]. unfold onTimeout. case_match; [| done]. case_match; [done |].
  case_match; cbn; by rewrite IH.
Qed.

Lemma redeliver_pendingActions r b : tb_pendingActions (redeliver r b) = tb_pendingActions b.
Proof.
  destruct r; cbn; unfold onTaskCompleted, onTaskFailed, onTimerFired, onChildWorkflowCompleted, onChildWorkflowFailed,
    onResolution, bufferResolution, taskComplete, taskFail; repeat case_match; try done;
    rewrite completeInternal_pendingActions; cbn; try done;
    by rewrite (proj2 (proj2 (restoreActivityScheduleIdentity_frame _ _ _))).
Qed.

Lemma consumeAt_pendingActions ids b : tb_pendingActions (consumeAt ids b) = tb_pendingActions b.
Proof.
  unfold consumeAt. revert b. induction ids as [|id ids IH]; intros b; cbn; [done |]. rewrite IH.
  case_match; [| done]. unfold consumeBufferedResolution. do 2 (case_match; try done).
  by rewrite redeliver_pendingActions.
Qed.

Lemma shiftAction_size b id : (size (tb_pendingActions (shiftAction b id)) <= size (tb_pendingActions b))%nat.
Proof.
  unfold shiftAction. destruct (tb_pendingActions b !! id) as [p|] eqn:Hp; [| done].
  transitivity (size (<[int32_of (id - 1) := p]> (delete id (tb_pendingActions b)))); [by case_match |].
  rewrite map_size_insert, map_size_delete, Hp.
  assert (size (tb_pendingActions b) <> 0)%nat by (rewrite map_size_ne_0_lookup; eauto).
  destruct (delete id _ !! _); cbn; lia.
Qed.

Lemma foldl_shiftAction_size ids b :
  (size (tb_pendingActions (foldl shiftAction b ids)) <= size (tb_pendingActions b))%nat.
Proof.
  revert b. induction ids as [|id ids IH]; intros b; cbn; [done |].
  etrans; [apply IH | apply shiftAction_size].
Qed.

Lemma foldl_shiftTask_pendingActions ids b : tb_pendingActions (foldl shiftTask b ids) = tb_pendingActions b.
Proof.
  revert b. induction ids as [|id ids IH]; intros b; cbn; [done |]. rewrite IH. unfold shiftTask. by case_match.
Qed.

Lemma drop_size id b b' :
  dropOptionalExternalEventTimerAt id b = (true, b') ->
  (size (tb_pendingActions b') < size (tb_pendingActions b))%nat.
Proof.
  unfold dropOptionalExternalEventTimerAt. destruct (pendingAction id b) as [a|] eqn:Ha; [| done].
  case_match; [| done]. intros [= <-]. rewrite consumeAt_pendingActions. cbn.
  rewrite foldl_shiftTask_pendingActions. apply bind_Some in Ha as (p & Hp & _).
  eapply Nat.le_lt_trans; [apply foldl_shiftAction_size |]. cbn. rewrite map_size_delete, Hp.
  assert (size (tb_pendingActions b) <> 0)%nat by (rewrite map_size_ne_0_lookup; eauto). cbn. lia.
Qed.

Lemma dropLoop_done fuel id b :
  (size (tb_pendingActions b) < fuel)%nat -> (dropOptionalExternalEventTimerAt id (dropLoop fuel id b)).1 = false.
Proof.
  revert b. induction fuel as [|fuel IH]; intros b Hf; [lia |]. cbn [dropLoop].
  destruct (dropOptionalExternalEventTimerAt id b) as [[] b'] eqn:E.
  - apply IH. pose proof (drop_size _ _ _ E). lia.
  - assert (b' = b) as -> by (revert E; unfold dropOptionalExternalEventTimerAt; repeat case_match; by intros [= <-]).
    by rewrite E.
Qed.

Lemma dropAllAt_done id b : (dropOptionalExternalEventTimerAt id (dropAllAt id b)).1 = false.
Proof. apply dropLoop_done. lia. Qed.

(** *** Scheduling events *)

Lemma wf_onTaskScheduled id ts b : table_wf b -> table_wf (onTaskScheduled id ts b).1.
Proof.
  intros H. unfold onTaskScheduled. pose proof (wf_alignAction GetScheduleTask _ id b (wf_dropAllAt id) H).
  destruct (alignAction _ _ _ _) as [b' []]; [by apply wf_removePendingAction | done].
Qed.

Lemma wf_onChildWorkflowScheduled id ts b : table_wf b -> table_wf (onChildWorkflowScheduled id ts b).1.
Proof.
  intros H. unfold onChildWorkflowScheduled. pose proof (wf_alignAction GetCreateChildWorkflow _ id b (wf_dropAllAt id) H).
  destruct (alignAction _ _ _ _) as [b' []]; [| done]. apply wf_removePendingAction.
  do 2 (case_match; try done). by apply wf_assign.
Qed.

Lemma wf_onDetachedWorkflowCreated id dw b : table_wf b -> table_wf (onDetachedWorkflowCreated id dw b).1.
Proof.
  intros H. unfold onDetachedWorkflowCreated.
  pose proof (wf_alignAction GetCreateDetachedWorkflow
    (fun id b => (dropOptionalExternalEventTimerAt id b).2) id b (wf_drop id) H) as H'.
  destruct (alignAction _ _ _ _) as [b' [[a scheduled]|]]; [| done]. case_match; [by apply wf_removePendingAction | done].
Qed.

Lemma wf_onTimerCreated id tc b : table_wf b -> table_wf (onTimerCreated id tc b).1.
Proof.
  intros H. unfold onTimerCreated.
  assert (table_wf (if isOptionalExternalEventTimerCreatedEvent tc then b else dropAllAt id b)) as H'.
  { case_match; [done | by apply wf_dropAllAt]. }
  revert H'. generalize (if isOptionalExternalEventTimerCreatedEvent tc then b else dropAllAt id b). clear b H.
  intros b H. case_match; [| done]. apply wf_consumeReady.
  apply (wf_frame (removePendingAction id b)); try done. by apply wf_removePendingAction.
Qed.

(** *** New objects *)

Lemma wf_scheduleAction ty r b :
  decisionType ty || conclusionType ty = true -> table_wf b -> table_wf (scheduleAction ty r b).2.
Proof.
  intros Hty0 [A T F C W D]. split; try done; unfold getAction in *; cbn.
  - intros id p [[<- <-] | [Hid Hp]]%lookup_insert_Some; [rewrite lookup_insert_eq; by eexists |].
    destruct (A id p Hp) as (a & Ea & <- & Hty). rewrite lookup_insert_ne; [by exists a |]. intros <-.
    destruct (F (h_next (tb_heap b)) ltac:(lia)) as (E & _). congruence.
  - intros p Hp. destruct (F p ltac:(lia)) as (? & ? & ?). rewrite lookup_insert_ne by lia. done.
Qed.

Lemma wf_allocTask t b :
  ct_completedCallback t = None -> table_wf b -> table_wf (allocTask t b).2 /\
  getTask (allocTask t b).1 (allocTask t b).2 = Some t /\ unregistered (allocTask t b).2 (allocTask t b).1 /\
  (forall p x cb, getTask p (allocTask t b).2 = Some x -> ct_completedCallback x = Some cb ->
     cb_task cb <> (allocTask t b).1).
Proof.
  intros Hc [A T F C W D]. destruct (F (h_next (tb_heap b)) ltac:(lia)) as (_ & Hnone & _).
  assert (forall p x, getTask p b = Some x -> getTask p (allocTask t b).2 = Some x) as Hold.
  { intros p x Hx. unfold getTask in *. cbn. rewrite lookup_insert_ne; [done |]. congruence. }
  split; [split; try done | split_and!; [unfold getTask; cbn; by rewrite lookup_insert_eq | |]].
  - intros id p Hp. destruct (T id p Hp) as (x & Hx & Hk). eauto.
  - intros p Hp. cbn in Hp. destruct (F p ltac:(lia)) as (? & ? & ?). split_and!; try done.
    unfold getTask in *. cbn. by rewrite lookup_insert_ne by lia.
  - intros p x cb Hx Hcb. unfold getTask in Hx. cbn in Hx.
    apply lookup_insert_Some in Hx as [[<- <-] | [_ Hx]]; [congruence |].
    destruct (C p x cb Hx Hcb) as (? & w & Hw & ?). split; [done |]. exists w. split; [by apply Hold | done].
  - intros key l Hl. destruct (W key l Hl) as (? & ? & Hw). split_and!; try done.
    intros p Hp. destruct (Hw p Hp) as (x & Hx & ?). exists x. split; [by apply Hold | done].
  - intros key l Hl Hin. destruct (W key l Hl) as (_ & _ & Hw). destruct (Hw _ Hin) as (x & Hx & _).
    change (getTask (h_next (tb_heap b)) b = Some x) in Hx. congruence.
  - intros p x cb Hx Hcb E. unfold getTask in Hx. cbn in Hx.
    apply lookup_insert_Some in Hx as [[<- <-] | [_ Hx]]; [congruence |].
    destruct (C p x cb Hx Hcb) as (_ & y & Hy & _). cbn in E. congruence.
Qed.

Lemma wf_registerTask t id b :
  ct_completedCallback t = None -> ct_kind t <> KindNone -> table_wf b -> table_wf (registerTask t id b).2.
Proof.
  intros Hc Hk H. unfold registerTask. destruct (wf_allocTask t b Hc H) as (H1 & Ht & _ & _).
  destruct (allocTask t b) as [p b1]. cbn in *. apply wf_consumeBufferedResolution.
  apply wf_pendingTasks; [| done]. intros k q [[<- <-] | [_ Hq]]%lookup_insert_Some; [eauto | by eapply wf_tasks].
Qed.

Lemma wf_setTimerOriginAt o a b : table_wf b -> table_wf (setTimerOriginAt o a b).
Proof. apply wf_modAction. by intros [? [[]|] ?]. Qed.

(** *** Waiting for events *)

Lemma waiter_callback b w t : table_wf b -> getTask w b = Some t -> ct_kind t = KindNone -> ct_completedCallback t = None.
Proof.
  intros H Ht Hk. destruct (ct_completedCallback t) as [cb|] eqn:E; [| done].
  destruct (wf_callbacks b H w t cb Ht E) as (E' & _). congruence.
Qed.

(** Completing a task without callback. *)
Lemma completeInternal_plain n p b :
  (forall t, getTask p b = Some t -> ct_completedCallback t = None) ->
  completeInternal (S n) p b = modTask set_completed p b.
Proof.
  intros H. cbn [completeInternal].
  destruct (getTask p (modTask set_completed p b) ≫= ct_completedCallback) as [cb|] eqn:E; [| done].
  apply modTask_callback in E; [| done]. apply bind_Some in E as (t & Ht & E). rewrite (H t Ht) in E. done.
Qed.

(** A waiter that no timer cancels yet. *)
Definition enlisted (key : string) (l w : nat) (b : Table) : Prop :=
  waiting b w /\ tb_pendingExternalEventTasks b !! key = Some l /\ w ∈ getList l b /\
  (forall p t cb, getTask p b = Some t -> ct_completedCallback t = Some cb -> cb_task cb <> w).

Lemma enlisted_modTask key l w f p b :
  keepsTask f -> p <> w -> enlisted key l w b -> enlisted key l w (modTask f p b).
Proof.
  intros Hf Hp ((t & Ht & Hk & Hc) & Hl & Hin & Hno). split_and!; try done.
  - exists t. by rewrite getTask_modTask, decide_False.
  - intros q x cb Hx Hcb. destruct (modTask_Some _ _ _ _ _ Hx Hf) as (y & Hy & _ & E & _).
    rewrite E in Hcb. by eapply Hno.
Qed.

Lemma enlisted_frame key l w b b' :
  (forall p, getTask p b' = getTask p b) -> getList l b' = getList l b ->
  tb_pendingExternalEventTasks b' !! key = tb_pendingExternalEventTasks b !! key ->
  enlisted key l w b -> enlisted key l w b'.
Proof.
  intros E1 E2 E3 ((t & Ht) & Hl & Hin & Hno). unfold enlisted, waiting. rewrite E2, E3. split_and!; try done.
  - exists t. by rewrite E1.
  - intros p x cb. rewrite E1. apply Hno.
Qed.

Lemma enlisted_finishTask key l w p b :
  table_wf b -> p <> w -> unregistered b p -> enlisted key l w b -> enlisted key l w (finishTask p b).
Proof.
  intros H Hp Hu He. unfold finishTask.
  assert (table_wf (modTask set_completed p b)) as H1 by (apply wf_modTask; [done | | done]; intros t _ _; by right).
  apply (enlisted_modTask _ _ _ set_completed p) in He; [| done | done].
  set (b1 := modTask set_completed p b) in *.
  destruct (getTask p b1 ≫= ct_completedCallback) as [cb|] eqn:E; [| done].
  apply bind_Some in E as (t & Ht & Hcb). destruct (wf_callbacks b1 H1 p t cb Ht Hcb) as (_ & x & Hx & Hk & Hopen).
  rewrite Hx. cbn. destruct (ct_isCompleted x) eqn:Ex; [done |]. destruct (Hopen eq_refl) as [Hl Hin].
  assert (cb_task cb <> w) as Hne by (destruct He as (_ & _ & _ & Hno); exact (Hno p t cb Ht Hcb)).
  rewrite !unlink_modTask. do 2 (apply enlisted_modTask; [done | done |]).
  destruct He as (Hw & Hlw & Hinw & Hno).
  destruct (unlink_keeps (cb_key cb) (cb_list cb) (cb_task cb) b1 key l w) as [Hl' Hin']; try done.
  destruct (unlink_frame (cb_key cb) (cb_list cb) (cb_task cb) b1) as (_ & _ & _ & _ & Et).
  split_and!; [| done | done |].
  - destruct Hw as (y & Hy). exists y. by rewrite Et.
  - intros q y cb'. rewrite Et. apply Hno.
Qed.

Lemma enlisted_onResolution key l w k r finish b :
  k.1 <> KindNone ->
  (forall p b, table_wf b -> unregistered b p -> p <> w -> enlisted key l w b -> enlisted key l w (finish p b)) ->
  table_wf b -> enlisted key l w b -> enlisted key l w (onResolution k r finish b).
Proof.
  intros Hk Hf H He. unfold onResolution.
  assert (enlisted key l w (bufferResolution k r b)) by (unfold bufferResolution; by repeat case_match).
  destruct (tb_pendingTasks b !! k.2) as [p|] eqn:Hp; [| done]. case_match; [| done].
  destruct (wf_tasks b H _ _ Hp) as (t & Ht & Hkt).
  apply Hf; [| by apply (unregistered_kind b p t) | | done].
  - eapply wf_frame with (b := set_pendingTasks (delete k.2 (tb_pendingTasks b)) b); try done. by apply wf_deleteTask.
  - intros ->. destruct He as ((t' & Ht' & Hk' & _) & _). congruence.
Qed.

Lemma enlisted_complete key l w f p b :
  keepsTask f -> (forall t, ct_isCompleted (f t) = ct_isCompleted t) ->
  table_wf b -> unregistered b p -> p <> w -> enlisted key l w b ->
  enlisted key l w (completeInternal callbackDepth p (modTask f p b)).
Proof.
  intros Hf Hc H Hu Hp He. unfold callbackDepth.
  rewrite completeInternal_depth by by apply wf_assign.
  apply enlisted_finishTask; [by apply wf_assign | done | done | by apply enlisted_modTask].
Qed.

Lemma enlisted_redeliver key l w r b : table_wf b -> enlisted key l w b -> enlisted key l w (redeliver r b).
Proof.
  intros H He. destruct r; cbn; apply enlisted_onResolution; try done; intros p b' H' Hu Hp He'.
  - destruct (restoreActivityScheduleIdentity_frame (tc_TaskScheduledId tc) (tc_TaskExecutionId tc) b') as (Et & Eu & _).
    apply enlisted_complete; try done; [by apply wf_restoreActivityScheduleIdentity | by apply Eu |].
    revert He'. apply enlisted_frame; [done | |]; unfold restoreActivityScheduleIdentity; by case_match.
  - destruct (restoreActivityScheduleIdentity_frame (tf_TaskScheduledId tf) (tf_TaskExecutionId tf) b') as (Et & Eu & _).
    apply enlisted_complete; try done;
      [apply wf_assign; [done | done | by apply wf_restoreActivityScheduleIdentity] | by apply Eu |].
    apply enlisted_modTask; [done | done |].
    revert He'. apply enlisted_frame; [done | |]; unfold restoreActivityScheduleIdentity; by case_match.
  - by apply enlisted_complete.
  - by apply enlisted_complete.
  - by apply enlisted_complete.
Qed.

(** Registering the waiter [w] under [key], in the list of the key or in a new one. *)
Definition enlist (key : string) (w : nat) (b : Table) : nat * Table :=
  let '(l, b) := match tb_pendingExternalEventTasks b !! key with
                 | Some l => (l, b)
                 | None =>
                     let '(l, b) := allocList b in
                     (l, set_pendingExternalEventTasks (<[key := l]> (tb_pendingExternalEventTasks b)) b)
                 end in
  (l, setList l (getList l b ++ [w]) b).

(** What it changes. *)
Lemma enlist_frame key w b :
  table_wf b ->
  let l := (enlist key w b).1 in let b' := (enlist key w b).2 in
  tb_pendingActions b' = tb_pendingActions b /\ tb_pendingTasks b' = tb_pendingTasks b /\
  (forall p, getAction p b' = getAction p b) /\ (forall p, getTask p b' = getTask p b) /\
  (h_next (tb_heap b) <= h_next (tb_heap b'))%nat /\
  (forall p, (h_next (tb_heap b') <= p)%nat -> h_lists (tb_heap b') !! p = None) /\
  tb_pendingExternalEventTasks b' = <[key := l]> (tb_pendingExternalEventTasks b) /\
  (tb_pendingExternalEventTasks b !! key = Some l \/
   tb_pendingExternalEventTasks b !! key = None /\ getList l b = []) /\
  (forall k, getList k b' = if decide (l = k) then getList l b ++ [w] else getList k b).
Proof.
  intros H. unfold enlist. destruct (tb_pendingExternalEventTasks b !! key) as [l|] eqn:E.
  - cbn [fst snd]. split_and!; try done.
    + intros p Hp. cbn in Hp |- *. destruct (wf_fresh b H p Hp) as (_ & _ & El). rewrite lookup_insert_ne; [done |].
      intros ->. destruct (wf_waiters b H key p E) as (Hn & _). unfold getList in Hn. by rewrite El in Hn.
    + symmetry. by apply insert_id.
    + by left.
    + intros k. by rewrite getList_setList.
  - cbn [fst snd allocList]. destruct (wf_fresh b H (h_next (tb_heap b)) ltac:(lia)) as (_ & _ & Hnil).
    assert (getList (h_next (tb_heap b)) b = []) as El by (unfold getList; by rewrite Hnil).
    split_and!; try done; [cbn; lia | | by right |].
    + intros p Hp. cbn in Hp |- *. rewrite !lookup_insert_ne by lia. apply (wf_fresh b H). lia.
    + intros k. rewrite getList_setList. unfold getList. cbn.
      case_decide; [subst | by rewrite lookup_insert_ne]. rewrite lookup_insert_eq. by rewrite Hnil.
Qed.

Lemma wf_enlist key w b :
  table_wf b -> waiting b w -> unregistered b w ->
  (forall p t cb, getTask p b = Some t -> ct_completedCallback t = Some cb -> cb_task cb <> w) ->
  table_wf (enlist key w b).2 /\ enlisted key (enlist key w b).1 w (enlist key w b).2.
Proof.
  intros H Hw Hu Hno. destruct (enlist_frame key w b H) as (E1 & E2 & E3 & E4 & E5 & E6 & E7 & E8 & E9).
  destruct (enlist key w b) as [l b']. cbn [fst snd] in *.
  assert (NoDup (getList l b ++ [w]) /\ forall p, p ∈ getList l b -> waiting b p) as [Hd Hall].
  { destruct E8 as [Hl | [_ ->]]; [| split; [apply NoDup_singleton | by intros p ?%not_elem_of_nil]].
    destruct (wf_waiters b H key l Hl) as (_ & ? & ?). split; [| done]. apply NoDup_app.
    split_and!; [done | | apply NoDup_singleton]. intros x Hx ->%list_elem_of_singleton. by eapply Hu. }
  assert (forall k l', k <> key -> tb_pendingExternalEventTasks b !! k = Some l' -> l' <> l) as Hsep.
  { intros k l' Hk Hl' ->. destruct (wf_waiters b H k l Hl') as (Hn & _). destruct E8 as [Hl | [_ ?]]; [| done].
    destruct (getList l b) as [|x r] eqn:El; [done |]. apply Hk. eapply (wf_disjoint b H k key l l x); try done;
      rewrite El; left. }
  assert (forall k l', k <> key -> tb_pendingExternalEventTasks b !! k = Some l' -> getList l' b' = getList l' b) as Hother.
  { intros k l' Hk Hl'. rewrite E9, decide_False; [done |]. intros <-. by eapply Hsep. }
  assert (getList l b' = getList l b ++ [w]) as Hlist by (by rewrite E9, decide_True).
  pose proof H as [A T F C W D]. split; [split |].
  - intros id p. rewrite E1, E3. apply A.
  - intros id p. rewrite E2, E4. apply T.
  - intros p Hp. rewrite E3, E4. destruct (F p ltac:(lia)) as (? & ? & _). split_and!; [done | done | by apply E6].
  - intros p t cb. rewrite !E4. intros Ht Hcb. destruct (C p t cb Ht Hcb) as (Hk & x & Hx & Hkx & Hopen).
    split; [done |]. exists x. split_and!; try done. intros Hc. destruct (Hopen Hc) as [Hl Hin].
    rewrite E7. destruct (decide (cb_key cb = key)) as [Ek|Ek].
    + rewrite Ek in *. destruct E8 as [Hl' | [Hl' _]]; [| congruence].
      replace (cb_list cb) with l in * by congruence. rewrite lookup_insert_eq, Hlist. set_solver.
    + by rewrite lookup_insert_ne, (Hother (cb_key cb)).
  - intros k l'. rewrite E7. assert (forall p, waiting b p -> waiting b' p) as Hw'.
    { intros p (t & Ht). exists t. by rewrite E4. }
    intros [[<- <-] | [Hk Hl']]%lookup_insert_Some.
    + rewrite Hlist. split_and!; [by intros []%app_nil | done |].
      intros p [Hp | ->%list_elem_of_singleton]%elem_of_app; auto.
    + destruct (W k l' Hl') as (? & ? & ?). rewrite (Hother k) by done. split_and!; auto.
  - intros k1 k2 l1 l2 p. rewrite E7.
    assert (forall k l' q, k <> key -> tb_pendingExternalEventTasks b !! k = Some l' -> q ∈ getList l' b ->
              q ∉ getList l b ++ [w]) as Hnot.
    { intros k l' q Hk Hl' Hq [Hq' | ->%list_elem_of_singleton]%elem_of_app; [| by eapply Hu].
      destruct E8 as [Hl | [_ Hnil]]; [by eapply Hk, (D k key l' l q) |]. rewrite Hnil in Hq'.
      by apply not_elem_of_nil in Hq'. }
    intros [[<- <-] | [Hk1 Hl1]]%lookup_insert_Some [[<- <-] | [Hk2 Hl2]]%lookup_insert_Some; [done | | |].
    + rewrite Hlist, (Hother k2) by done. intros Hp1 Hp2. by destruct (Hnot k2 l2 p).
    + rewrite Hlist, (Hother k1) by done. intros Hp1 Hp2. by destruct (Hnot k1 l1 p).
    + rewrite (Hother k1), (Hother k2) by done. by eapply D.
  - split_and!.
    + destruct Hw as (t & Ht). exists t. by rewrite E4.
    + rewrite E7. by rewrite lookup_insert_eq.
    + rewrite Hlist. set_solver.
    + intros p t cb. rewrite E4. apply Hno.
Qed.

(** *** Tasks keep their kind *)

Definition kindOf (p : nat) (b : Table) : option Kind := ct_kind <$> getTask p b.

Lemma kindOf_modTask f p q b : keepsTask f -> kindOf q (modTask f p b) = kindOf q b.
Proof.
  intros Hf. unfold kindOf. rewrite getTask_modTask. case_decide; [| done].
  destruct (getTask q b) as [t|]; cbn; [| done]. by rewrite (proj1 (Hf t)).
Qed.

Lemma kindOf_completeInternal q n p b : kindOf q (completeInternal n p b) = kindOf q b.
Proof.
  revert p b. induction n as [|n IH]; intros p b; cbn [completeInternal]; [done |].
  rewrite <- (kindOf_modTask set_completed p q b) by done. case_match; [| done].
  unfold onTimeout. case_match; [| done]. case_match; [done |].
  match goal with |- kindOf q (if _ then setList _ _ ?x else _) = _ => trans (kindOf q x); [by case_match |] end.
  by rewrite IH, kindOf_modTask.
Qed.

Lemma kindOf_redeliver q r b : kindOf q (redeliver r b) = kindOf q b.
Proof.
  destruct r; cbn; unfold onTaskCompleted, onTaskFailed, onTimerFired, onChildWorkflowCompleted, onChildWorkflowFailed,
    onResolution, bufferResolution, taskComplete, taskFail; repeat case_match; try done;
    rewrite kindOf_completeInternal, ?kindOf_modTask by done; try done;
    unfold kindOf; by rewrite (proj1 (restoreActivityScheduleIdentity_frame _ _ _)).
Qed.

(** The timer of a waiter leaves the waiter alone. *)
Lemma enlisted_eventTimer key l w name fireAt b :
  table_wf b -> enlisted key l w b ->
  let r := createExternalEventTimerInternal name fireAt b in
  table_wf r.2 /\ enlisted key l w r.2 /\ kindOf r.1 r.2 = Some KindTimer.
Proof.
  intros H He. unfold createExternalEventTimerInternal. set (timer := WorkflowAction_CreateTimer _).
  pose proof (wf_scheduleAction timer None b eq_refl H) as H1.
  assert (enlisted key l w (scheduleAction timer None b).2) as He1 by done.
  destruct (scheduleAction timer None b) as [[id a] b1]. cbn [snd] in H1, He1.
  set (b2 := if isOptionalExternalEventTimerAction _ then _ else b1).
  assert (table_wf b2 /\ enlisted key l w b2) as [H2 He2].
  { unfold b2. case_match; [| done]. split; [by apply wf_optionalTimerIDs | done]. }
  clearbody b2. clear b1 H1 He1. unfold registerTask.
  destruct (wf_allocTask (newTask KindTimer) b2 eq_refl H2) as (H3 & Ht & Hu & Hc).
  assert (enlisted key l w (allocTask (newTask KindTimer) b2).2) as He3.
  { destruct He2 as ((t & Ht' & ?) & Hl & Hin & Hno). split_and!; try done.
    - exists t. split; [| done]. unfold getTask in *. cbn. rewrite lookup_insert_ne; [done |].
      intros <-. destruct (wf_fresh b2 H2 (h_next (tb_heap b2)) ltac:(lia)) as (_ & E & _). unfold getTask in E. congruence.
    - intros p x cb Hx Hcb. unfold getTask in Hx. cbn in Hx.
      apply lookup_insert_Some in Hx as [[<- <-] | [_ Hx]]; [done | by eapply Hno]. }
  destruct (allocTask (newTask KindTimer) b2) as [p b3]. cbn [fst snd] in *.
  set (b4 := set_pendingTasks _ b3).
  assert (table_wf b4) as H4.
  { apply wf_pendingTasks; [| done]. intros k q [[<- <-] | [_ Hq]]%lookup_insert_Some; [eauto | by eapply wf_tasks]. }
  unfold consumeBufferedResolution. cbn [ct_kind newTask].
  assert (kindOf p b4 = Some KindTimer) as Hk by (unfold kindOf; change (getTask p b4) with (getTask p b3); by rewrite Ht).
  destruct (tb_bufferedResolutions b4 !! (KindTimer, id)) as [br|]; [| by split_and!].
  destruct (resolutionIDProvisional id b4); [by split_and! |].
  assert (table_wf (set_bufferedResolutions (delete (KindTimer, id) (tb_bufferedResolutions b4)) b4)) by by revert H4; apply wf_frame.
  split_and!; [by apply wf_redeliver | by apply enlisted_redeliver |].
  cbn [fst snd]. by rewrite kindOf_redeliver.
Qed.

(** Registering the callback that cancels a waiter. *)
Lemma wf_onCompleted key l w timer b :
  table_wf b -> enlisted key l w b -> kindOf timer b = Some KindTimer ->
  table_wf (onCompleted timer (mkTimeoutCallback w l key) b).
Proof.
  intros H He Hk. unfold onCompleted. apply fmap_Some in Hk as (t & Ht & Hkt). rewrite Ht.
  destruct He as ((x & Hx & Hkx & Hcx) & Hl & Hin & Hno). destruct (ct_isCompleted t) eqn:Ec.
  - unfold onTimeout, taskCancel, callbackDepth. cbn [cb_task cb_list cb_key]. rewrite Hx, Hcx.
    rewrite completeInternal_plain; [by apply wf_timeout |].
    rewrite getTask_modTask, decide_True, Hx by done. intros y [= <-]. exact (waiter_callback b w x H Hx Hkx).
  - pose proof H as [A T F C W D]. set (f := set_callback _).
    assert (timer <> w) as Hne by (intros ->; congruence).
    assert (forall q y, getTask q b = Some y -> exists y', getTask q (modTask f timer b) = Some y' /\
      ct_kind y' = ct_kind y /\ ct_isCompleted y' = ct_isCompleted y) as Hold.
    { intros q y Hy. rewrite getTask_modTask, Hy. case_decide; [by exists (f y) | by exists y]. }
    split; try done.
    + intros id p Hp. destruct (T id p Hp) as (y & Hy & Hky). destruct (Hold p y Hy) as (y' & ? & E & _).
      exists y'. by rewrite E.
    + intros p Hp. destruct (F p Hp) as (? & E & ?). split_and!; try done.
      rewrite getTask_modTask, E. by case_decide.
    + intros p y cb Hy Hcb. rewrite getTask_modTask in Hy. case_decide as Ep.
      * subst p. rewrite Ht in Hy. injection Hy as <-. injection Hcb as <-. split; [done |]. cbn [cb_task cb_key cb_list].
        exists x. by rewrite getTask_modTask, decide_False.
      * destruct (C p y cb Hy Hcb) as (? & z & Hz & Hkz & Hopen). split; [done |].
        destruct (Hold _ z Hz) as (z' & Hz' & E1 & E2). exists z'. rewrite E1, E2. done.
    + intros k l' Hl'. destruct (W k l' Hl') as (? & ? & Hall). split_and!; try done.
      intros p Hp. destruct (Hall p Hp) as (y & Hy & ? & ?). destruct (Hold p y Hy) as (y' & ? & E1 & E2).
      exists y'. by rewrite E1, E2.
Qed.

Lemma wf_WaitForSingleEvent ToUpper now name timeout b :
  table_wf b -> table_wf (WaitForSingleEvent ToUpper now name timeout b).2.
Proof.
  intros H. unfold WaitForSingleEvent.
  destruct (wf_allocTask (newTask KindNone) b eq_refl H) as (H1 & Ht & Hu & Hc).
  destruct (allocTask (newTask KindNone) b) as [w b1]. cbn [fst snd] in *. set (key := ToUpper name).
  destruct (tb_bufferedExternalEvents b1 !! key) as [evs|].
  { cbn [snd]. apply wf_taskComplete; case_match; try done; by revert H1; apply wf_frame. }
  destruct (timeout =? 0); [by apply wf_taskCancel |].
  destruct (wf_enlist key w b1 H1) as [H2 He]; [by eexists | done | done |]. revert H2 He. unfold enlist.
  destruct (match tb_pendingExternalEventTasks b1 !! key with Some _ => _ | None => _ end) as [l b2].
  cbn [fst snd]. set (b3 := setList l _ b2). intros H2 He.
  destruct (enlisted_eventTimer key l w name
    (if 0 <? timeout then now + timeout else externalEventIndefiniteFireAt) b3 H2 He) as (H3 & He3 & Hk).
  destruct (createExternalEventTimerInternal _ _ b3) as [timer b4]. by apply wf_onCompleted.
Qed.

Lemma wf_onExternalEventRaised ToUpper e b : table_wf b -> table_wf (onExternalEventRaised ToUpper e b).
Proof.
  intros H. unfold onExternalEventRaised. set (key := ToUpper _).
  destruct (tb_pendingExternalEventTasks b !! key) as [l|] eqn:Hl; [| by revert H; apply wf_frame].
  destruct (getList l b) as [|w rest] eqn:El; [done |].
  assert (w ∈ getList l b) as Hin by (rewrite El; left).
  destruct (wf_waiters b H key l Hl) as (_ & Hd & Hall). destruct (Hall w Hin) as (t & Ht & Hk & _).
  replace (if (1 <? length (w :: rest))%nat then _ else _) with (unlink key l w b).
  - unfold taskComplete, callbackDepth. rewrite completeInternal_plain.
    + rewrite <- unlink_modTask. apply wf_release; try done. by apply wf_assign.
    + intros x. rewrite getTask_modTask, decide_True by done.
      destruct (unlink_frame key l w b) as (_ & _ & _ & _ & ->). rewrite Ht. intros [= <-].
      exact (waiter_callback b w t H Ht Hk).
  - unfold unlink. rewrite El in *. apply NoDup_cons in Hd as [Hd _]. rewrite filter_cons_False by tauto.
    by rewrite filter_ne_id.
Qed.

(** ** Every table of a turn *)

Lemma wf_methodStep ToUpper b b' : methodStep ToUpper b b' -> table_wf b -> table_wf b'.
Proof.
  intros Hs H. destruct Hs.
  - destruct (wf_allocTask (newTask KindNone) b eq_refl H) as (H1 & _ & Hu & _). by apply wf_taskFail.
  - by apply wf_scheduleAction.
  - pose proof (wf_scheduleAction ty router b ltac:(by rewrite orb_true_intro; auto) H) as Hb. destruct (scheduleAction ty router b) as [[id a] b1].
    apply wf_registerTask; [by case_match | by case_match | done].
  - by apply wf_setTimerOriginAt.
  - by apply wf_WaitForSingleEvent.
Qed.

Lemma wf_tableEvent ToUpper e f b : tableEvent ToUpper e = Some f -> table_wf b -> table_wf (f b).1.
Proof.
  unfold tableEvent. intros E H. destruct (EventType e) as [[]|]; simplify_eq; cbn.
  - by apply wf_onTaskScheduled.
  - by apply (wf_redeliver (ResTaskCompleted x)).
  - by apply (wf_redeliver (ResTaskFailed x)).
  - by apply wf_onChildWorkflowScheduled.
  - by apply (wf_redeliver (ResChildCompleted x)).
  - by apply (wf_redeliver (ResChildFailed x)).
  - by apply wf_onTimerCreated.
  - by apply (wf_redeliver (ResTimerFired x)).
  - by apply wf_onExternalEventRaised.
  - by apply wf_onDetachedWorkflowCreated.
Qed.

Lemma wf_emptyTable : table_wf emptyTable.
Proof.
  split; unfold waiting, getAction, getTask, getList, emptyTable; cbn; try done.
Qed.

Section Turn.
Context `{HF : Float64} `{HM : Marshaler} `{HR : RangeOrder} `{HC : ProtoCodec}.
Variable ToUpper : string -> string.
Variables errorTypeName errorText : error -> string.
Variable registry : TaskRegistry Workflow Activity.

Lemma start_wf c : table_wf (wc_table c) -> table_wf (wc_table (start ToUpper errorTypeName errorText registry c).1).
Proof.
  apply start_keeps; [by apply wf_methodStep | by apply wf_tableEvent | by intros; apply wf_removePendingAction].
Qed.

(** ** The actions of a turn *)

Lemma addCarryover_Id events a : wa_Id (addCarryover events a) = wa_Id a.
Proof. unfold addCarryover. by repeat case_match. Qed.

Lemma pending_ids b l :
  table_wf b -> (forall kp, kp ∈ l -> tb_pendingActions b !! kp.1 = Some kp.2) ->
  wa_Id <$> omap (fun kp => getAction kp.2 b) l = l.*1.
Proof.
  intros H. induction l as [|[id p] l IH]; [done |]. intros Hl.
  destruct (wf_actions b H id p) as (a & Ea & <- & _); [by apply (Hl (id, p)); left |].
  unfold getAction in *. cbn. rewrite Ea. cbn. f_equal.
  apply IH. intros kp Hkp. apply Hl. by right.
Qed.

Lemma sorted_ids l : StronglySorted action_le l -> NoDup (wa_Id <$> l) -> StronglySorted Z.lt (wa_Id <$> l).
Proof.
  induction 1 as [|a l Hs IH Ha]; cbn; [constructor |]. intros [Hn Hd]%NoDup_cons. constructor; [auto |].
  apply Forall_fmap. rewrite Forall_forall in *. intros x Hx. specialize (Ha x Hx). unfold action_le in Ha. cbn.
  assert (wa_Id a <> wa_Id x); [| lia]. intros E. apply Hn. rewrite E. by apply list_elem_of_fmap_2.
Qed.

#[local] Instance action_le_total : Total action_le.
Proof. intros x y. unfold action_le. lia. Qed.
#[local] Instance action_le_trans : Transitive action_le.
Proof. intros x y z. unfold action_le. lia. Qed.

Lemma tableActions_ordered carry b :
  table_wf b -> StronglySorted Z.lt (wa_Id <$> tableActions carry b) /\
  Forall (fun a => emittable a = true) (tableActions carry b).
Proof.
  intros H. unfold tableActions. set (pending := omap _ _).
  assert (wa_Id <$> pending = (rangeOrder (tb_pendingActions b)).*1) as Hids.
  { apply pending_ids; [done |]. intros [id p] Hp. by apply elem_of_rangeOrder. }
  set (l := addCarryover _ <$> _). split.
  - apply sorted_ids; [apply StronglySorted_merge_sort; apply _ |].
    rewrite (merge_sort_Permutation action_le l). unfold l. rewrite <- list_fmap_compose.
    rewrite (list_fmap_ext _ wa_Id) by (intros; apply addCarryover_Id).
    eapply sublist_NoDup; [| apply fmap_sublist, sublist_filter]. rewrite Hids, rangeOrder_perm. apply NoDup_fst_map_to_list.
  - rewrite (merge_sort_Permutation action_le l). apply Forall_fmap, Forall_forall. intros a [_ Ha]%list_elem_of_filter.
    apply list_elem_of_omap in Ha as ([id p] & Hin & Ha). apply elem_of_rangeOrder in Hin.
    destruct (wf_actions b H id p Hin) as (a' & Ha' & _ & Hty). cbn [snd] in Ha. assert (a' = a) as -> by congruence.
    clear -Hty. by destruct a as [? [[]|] ?].
Qed.

(** C13. The actions of a turn have strictly ascending, so distinct, ids, and every one of
    them is an activity, a timer, a child or detached workflow, a completion or a
    version error, for every workflow function and every history: the table under
    which they were collected lists each action under its own id. *)
Theorem response_actions_ordered id oldEvents newEvents propagated w resp :
  executeWorkflow ToUpper errorTypeName errorText registry id oldEvents newEvents propagated w = RRet (inl resp) ->
  StronglySorted Z.lt (wa_Id <$> resp_Actions resp) /\
  Forall (fun a => emittable a = true) (resp_Actions resp).
Proof.
  unfold executeWorkflow. destruct (match propagated with None => _ | _ => _ end) as [ph|err]; [| done].
  pose proof (start_wf (NewWorkflowContext id oldEvents newEvents ph w) wf_emptyTable) as H.
  unfold start in *. destruct (startLoop _ _ _ _ _) as [c [[] | | |]]; try done. cbn in H. intros [= <-]. cbn.
  unfold actions. case_match; [by split; constructor |]. by apply tableActions_ordered.
Qed.

End Turn.
