(* ===== verification/TaskMachine.v ===== *)
(** * A turn, one event at a time

    In the code the workflow function runs inside the handler of its start event and
    pulls further events while it awaits, so handlers nest.  This file has a flat
    machine for the same turn: a context and a mode, where an event is handled first
    and then wakes the function if the awaited task is complete.  [start_ticks] shows
    that, for a history with one start event that is not held back, the code computes
    what the machine computes.  Replay is studied on the machine. *)

From stdpp Require Import base list option strings gmap.
From Stdlib Require Import ZArith Lia.
From S2P Require Import Prelude Errors Protos Dedup Propagation Helpers TaskRegistry TaskTable TaskProgram.
From S2P Require Import TaskMethods TaskExecutor TaskGuard TaskTotal TaskPreserve.

Section Machine.
Context `{HF : Float64} `{HM : Marshaler} `{HR : RangeOrder} `{HC : ProtoCodec}.
Variable ToUpper : string -> string.
Variables errorTypeName errorText : error -> string.
Variable registry : TaskRegistry Workflow Activity.

Local Abbreviation processEvent := (processEvent ToUpper errorTypeName errorText registry).
Local Abbreviation conclude := (concludeWorkflow errorTypeName errorText).

(** ** The machine *)

(** Not started; waiting for task [p]; returned; ended by an error; panicked. *)
Inductive Mode :=
| MIdle
| MWait (p : nat) (k : option error -> Prog (option any * option error))
| MDone
| MEnd
| MPanic (msg : string).

(** Run the function up to its next await of a task that is not complete. *)
Fixpoint settle (m : Prog (option any * option error)) (c : WorkflowContext) : WorkflowContext * Mode :=
  match m with
  | PRet (output, err) => (conclude output err c, MDone)
  | PPanic msg => (c, MPanic msg)
  | PGet k => settle (k c) c
  | PPut c' k => settle k c'
  | PAwait p k =>
      let t := default (newTask KindNone) (getTask p (wc_table c)) in
      if ct_isCompleted t then settle (k (awaitResult t)) c else (c, MWait p k)
  end.

(** Handle an event that is not a start event. *)
Definition handle (e : HistoryEvent) (c : WorkflowContext) : WorkflowContext * option error :=
  match processEvent 2 e c with
  | (c, RRet err) => (c, err)
  | (c, _) => (c, None)
  end.

Definition begin (es : ExecutionStartedEvent) (c : WorkflowContext) : WorkflowContext * Mode :=
  match ResolveWorkflow (es_Name es) (wc_VersionName c) registry with
  | inr err => (onHistoryError errorTypeName errorText err c, MEnd)
  | inl (workflow, version) => settle (denote ToUpper errorTypeName errorText workflow) (prepareStart es version c)
  end.

(** An event while the function does not run. *)
Definition stepOutside (mode : Mode) (e : HistoryEvent) (c : WorkflowContext) : WorkflowContext * Mode :=
  match handle e c with
  | (c, Some err) => (onHistoryError errorTypeName errorText err c, MEnd)
  | (c, None) => (c, mode)
  end.

Definition step (e : HistoryEvent) (st : WorkflowContext * Mode) : WorkflowContext * Mode :=
  let '(c, mode) := st in
  match mode with
  | MIdle =>
      match GetExecutionStarted e with
      | Some es => if cu_isTerminated (wc_cursor c) then (c, MIdle) else begin es c
      | None => stepOutside MIdle e c
      end
  | MWait p k =>
      match handle e c with
      | (c, Some err) => settle (k (Some err)) c
      | (c, None) => settle (PAwait p k) c
      end
  | MDone => stepOutside MDone e c
  | MEnd | MPanic _ => st
  end.

(** Take the next event of the history. *)
Definition tick (st : WorkflowContext * Mode) : WorkflowContext * Mode :=
  match st.2, getNextHistoryEvent st.1 with
  | MEnd, _ | MPanic _, _ | _, None => st
  | _, Some (e, c) => step e (c, st.2)
  end.

Fixpoint ticks (n : nat) (st : WorkflowContext * Mode) : WorkflowContext * Mode :=
  match n with
  | O => st
  | S n => ticks n (tick st)
  end.

(** The turn: to the end of the history. *)
Definition outcomeOf (st : WorkflowContext * Mode) : WorkflowContext * res (list WorkflowAction) :=
  let '(c, mode) := st in
  match mode with
  | MPanic msg => (c, RPanic msg)
  | _ => (c, RRet (actions c))
  end.

Lemma ticks_end n c mode : (mode = MEnd \/ exists msg, mode = MPanic msg) -> ticks n (c, mode) = (c, mode).
Proof. intros Hm. induction n as [|n IH]; cbn [ticks]; [done |]. unfold tick. cbn. destruct Hm as [-> | [msg ->]]; done. Qed.

Lemma ticks_add n m st : ticks (n + m) st = ticks m (ticks n st).
Proof. revert st. induction n as [|n IH]; intros st; cbn; [done | apply IH]. Qed.

(** ** Histories with one start *)

(** The events held back are no start events. *)
Definition quiet (c : WorkflowContext) : Prop :=
  Forall (fun e => heldWhileSuspended e = true /\ GetExecutionStarted e = None) (cu_suspendedEvents (wc_cursor c)).

(** Nor are those still to come. *)
Definition startFree (c : WorkflowContext) : Prop :=
  Forall (fun e => GetExecutionStarted e = None) (drop (cu_historyIndex (wc_cursor c)) (historyOf c)).

(** Handlers of events that are not start events do not nest. *)
Lemma held_event_fuel n e c :
  heldWhileSuspended e = true -> GetExecutionStarted e = None ->
  processEvent (S n) e c = processEvent 1 e c /\ exists c' err, processEvent 1 e c = (c', RRet err).
Proof.
  intros Hh Hs. cbn [TaskExecutor.processEvent]. do 2 (case_match; [by eauto |]).
  unfold GetExecutionStarted in Hs. unfold heldWhileSuspended in Hh.
  repeat case_match; simplify_eq; split; eauto; unfold onTable, onTableErr; repeat case_match; eauto.
Qed.

Lemma resumeLoop_fuel n l c :
  Forall (fun e => heldWhileSuspended e = true /\ GetExecutionStarted e = None) l ->
  resumeLoop (processEvent (S n)) l c = resumeLoop (processEvent 1) l c /\
  exists c' err, resumeLoop (processEvent 1) l c = (c', RRet err).
Proof.
  intros Hl. revert c. induction Hl as [|e l [He Hes] Hl IH]; intros c; cbn [resumeLoop]; [by eauto |].
  destruct (held_event_fuel n e c He Hes) as [-> (c' & err & ->)]. destruct err; [by eauto | by apply IH].
Qed.

Lemma handle_fuel n e c :
  quiet c -> GetExecutionStarted e = None ->
  processEvent (S (S n)) e c = ((handle e c).1, RRet (handle e c).2).
Proof.
  intros Hq He. unfold handle.
  assert (processEvent (S (S n)) e c = processEvent 2 e c /\ exists c' err, processEvent 2 e c = (c', RRet err))
    as [-> (c' & err & E)]; [| by rewrite E].
  destruct (heldWhileSuspended e) eqn:Eh.
  { destruct (held_event_fuel (S n) e c Eh He) as [-> H]. by destruct (held_event_fuel 1 e c Eh He) as [-> _]. }
  unfold heldWhileSuspended in Eh. cbn [TaskExecutor.processEvent]. unfold heldWhileSuspended.
  destruct (EventType e) as [[]|]; try done; rewrite andb_false_r; case_match; eauto.
  unfold onExecutionResumed. by apply resumeLoop_fuel.
Qed.

(** *** What handling an event does to the cursor *)

(** [c'] is at the same place of the same history. *)
Definition samePlace (c c' : WorkflowContext) : Prop :=
  cu_oldEvents (wc_cursor c') = cu_oldEvents (wc_cursor c) /\
  cu_newEvents (wc_cursor c') = cu_newEvents (wc_cursor c) /\
  cu_historyIndex (wc_cursor c') = cu_historyIndex (wc_cursor c).

#[global] Instance samePlace_preorder : PreOrder samePlace.
Proof. split; [done |]. intros x y z (? & ? & ?) (? & ? & ?). split_and!; congruence. Qed.

Lemma samePlace_history c c' : samePlace c c' -> historyOf c' = historyOf c /\ remaining c' = remaining c.
Proof. intros (E1 & E2 & E3). unfold remaining, historyOf. by rewrite E1, E2, E3. Qed.

Lemma samePlace_startFree c c' : samePlace c c' -> startFree c -> startFree c'.
Proof. intros (E1 & E2 & E3). unfold startFree, historyOf. by rewrite E1, E2, E3. Qed.

Lemma samePlace_cursor c c' : wc_cursor c' = wc_cursor c -> samePlace c c'.
Proof. unfold samePlace. by intros ->. Qed.

(** A handler that keeps the place and what is held back. *)
Definition calm (c c' : WorkflowContext) : Prop := samePlace c c' /\ (quiet c -> quiet c').

Lemma calm_cursor c c' : wc_cursor c' = wc_cursor c -> calm c c'.
Proof. intros E. split; [by apply samePlace_cursor |]. unfold quiet. by rewrite E. Qed.

Lemma held_event_calm e c :
  heldWhileSuspended e = true -> GetExecutionStarted e = None -> calm c (processEvent 1 e c).1.
Proof.
  intros Hh Hs. cbn [TaskExecutor.processEvent]. case_match; [by apply calm_cursor |].
  case_match; [split; [done |]; intros Hq; apply Forall_app; split; [done |]; by constructor |].
  unfold GetExecutionStarted in Hs. unfold heldWhileSuspended in Hh.
  destruct (EventType e) as [[]|]; try done;
    try (apply calm_cursor; unfold onTableErr, onWorkflowStarted; by repeat case_match).
Qed.

Lemma resumeLoop_calm l c :
  Forall (fun e => heldWhileSuspended e = true /\ GetExecutionStarted e = None) l ->
  calm c (resumeLoop (processEvent 1) l c).1.
Proof.
  intros Hl. revert c. induction Hl as [|e l [He Hes] Hl IH]; intros c; cbn [resumeLoop].
  { split; [done |]. intros _. constructor. }
  pose proof (held_event_calm e c He Hes) as [Hp Hq].
  destruct (processEvent 1 e c) as [c1 [[err|] | | |]]; try done.
  destruct (IH c1) as [Hp' Hq']. split; [by etrans | auto].
Qed.

Lemma handle_calm e c : quiet c -> GetExecutionStarted e = None -> calm c (handle e c).1.
Proof.
  intros Hq He. unfold handle. assert (calm c (processEvent 2 e c).1) as H.
  { destruct (heldWhileSuspended e) eqn:Eh.
    { rewrite (proj1 (held_event_fuel 1 e c Eh He)). by apply held_event_calm. }
    unfold heldWhileSuspended in Eh. cbn [TaskExecutor.processEvent]. unfold heldWhileSuspended.
    destruct (EventType e) as [[]|]; try done; rewrite andb_false_r; (case_match; [done |]).
    - split; [| intros _]; unfold onExecutionTerminated; by case_match.
    - set (c0 := set_suspension false (cu_suspendedEvents (wc_cursor c)) c).
      destruct (resumeLoop_calm (cu_suspendedEvents (wc_cursor c)) c0 Hq) as [Hp Hq']. split; [by etrans | auto]. }
  by destruct (processEvent 2 e c) as [c' []].
Qed.

(** Before the start nothing is held back unless the workflow is suspended. *)
Definition awake (c : WorkflowContext) : Prop :=
  cu_isSuspended (wc_cursor c) = false /\ cu_suspendedEvents (wc_cursor c) = [].

Lemma handle_awake e c :
  awake c -> GetExecutionStarted e = None -> GetExecutionSuspended e = None -> awake (handle e c).1.
Proof.
  intros [Hs Hn] He Hsu. unfold handle. assert (awake (processEvent 2 e c).1) as H.
  { cbn [TaskExecutor.processEvent]. case_match; [done |]. rewrite Hs. cbn [andb].
    unfold GetExecutionStarted in He. unfold GetExecutionSuspended in Hsu.
    destruct (EventType e) as [[]|]; try done; cbn [fst];
      try (unfold awake, onTableErr, onWorkflowStarted, onExecutionTerminated; by repeat case_match).
    unfold onExecutionResumed. rewrite Hn. done. }
  by destruct (processEvent 2 e c) as [c' []].
Qed.

Lemma awake_quiet c : awake c -> quiet c.
Proof. intros [_ E]. unfold quiet. rewrite E. constructor. Qed.

(** ** The code computes what the machine computes *)

Definition fin (r : WorkflowContext * res unit) : WorkflowContext * res (list WorkflowAction) :=
  match r with
  | (c, RRet _) => (c, RRet (actions c))
  | (c, RBlocked) => (c, RBlocked)
  | (c, RPanic msg) => (c, RPanic msg)
  | (c, RFuel) => (c, RFuel)
  end.

Local Abbreviation next n := (processNextEvent (processEvent (S (S n)))).
Local Abbreviation outer := (startLoop errorTypeName errorText).

Lemma getNext_None c : getNextHistoryEvent c = None -> remaining c = 0%nat.
Proof.
  unfold getNextHistoryEvent, remaining. destruct (historyOf c !! _) eqn:E; [done |]. intros _.
  apply lookup_ge_None in E. lia.
Qed.

Lemma getNext_Some c e c1 :
  getNextHistoryEvent c = Some (e, c1) ->
  remaining c = S (remaining c1) /\ historyOf c !! cu_historyIndex (wc_cursor c) = Some e /\
  historyOf c1 = historyOf c /\ cu_historyIndex (wc_cursor c1) = S (cu_historyIndex (wc_cursor c)) /\
  cu_suspendedEvents (wc_cursor c1) = cu_suspendedEvents (wc_cursor c) /\
  cu_isSuspended (wc_cursor c1) = cu_isSuspended (wc_cursor c) /\
  cu_isTerminated (wc_cursor c1) = cu_isTerminated (wc_cursor c) /\ wc_table c1 = wc_table c.
Proof.
  unfold getNextHistoryEvent. destruct (historyOf c !! _) as [e0|] eqn:E; [| done]. intros [= <- <-].
  split_and!; try done. apply lookup_lt_Some in E. unfold remaining.
  change (historyOf (set_cursor _ c)) with (historyOf c). cbn. lia.
Qed.

Lemma getNext_startFree c e c1 :
  getNextHistoryEvent c = Some (e, c1) -> startFree c -> GetExecutionStarted e = None /\ startFree c1.
Proof.
  intros (_ & He & Eh & Ei & _)%getNext_Some Hf. unfold startFree in *. rewrite Eh, Ei.
  rewrite (drop_S _ _ _ He) in Hf. by apply Forall_cons in Hf as [? ?].
Qed.

(** One event of the code, when it is not a start event. *)
Lemma next_handle n c e c1 :
  getNextHistoryEvent c = Some (e, c1) -> quiet c -> GetExecutionStarted e = None ->
  next n c = ((handle e c1).1, RRet (true, (handle e c1).2)).
Proof.
  intros E Hq He. unfold processNextEvent. rewrite E, handle_fuel; [done | | done].
  apply getNext_Some in E as (_ & _ & _ & _ & Es & _). unfold quiet. by rewrite Es.
Qed.

(** What the machine needs of a context. *)
Definition ready (c : WorkflowContext) : Prop := quiet c /\ startFree c.

Lemma ready_handle c e c1 :
  getNextHistoryEvent c = Some (e, c1) -> ready c ->
  GetExecutionStarted e = None /\ ready (handle e c1).1 /\ remaining c = S (remaining (handle e c1).1).
Proof.
  intros E [Hq Hf]. destruct (getNext_startFree c e c1 E Hf) as [He Hf1].
  apply getNext_Some in E as (Hr & _ & _ & _ & Es & _).
  assert (quiet c1) as Hq1 by (unfold quiet; by rewrite Es).
  destruct (handle_calm e c1 Hq1 He) as [Hp Hq']. destruct (samePlace_history _ _ Hp) as [_ Hr'].
  split_and!; [done | split; [auto | by eapply samePlace_startFree] | lia].
Qed.

(** After the function has returned, or without a function. *)
Lemma outer_outside n fuel c mode :
  mode = MIdle \/ mode = MDone -> ready c -> (remaining c < fuel)%nat ->
  fin (outer fuel (next n) c) = outcomeOf (ticks (remaining c) (c, mode)).
Proof.
  intros Hm. revert c. induction fuel as [|fuel IH]; intros c Hr Hf; [lia |]. cbn [startLoop].
  destruct (getNextHistoryEvent c) as [[e c1]|] eqn:E.
  - destruct (ready_handle c e c1 E Hr) as (He & Hr1 & Hrem).
    rewrite (next_handle n c e c1 E (proj1 Hr) He), Hrem. cbn [ticks].
    assert (tick (c, mode) = stepOutside mode e c1) as ->.
    { unfold tick. cbn [fst snd]. rewrite E. destruct Hm as [-> | ->]; cbn [step]; [by rewrite He | done]. }
    unfold stepOutside. destruct (handle e c1) as [c2 [err|]]; cbn [fst snd] in *.
    + by rewrite ticks_end by auto.
    + apply IH; [done | lia].
  - unfold processNextEvent. rewrite E. rewrite (getNext_None c E). by destruct Hm as [-> | ->].
Qed.

(** What the code does with the function's outcome. *)
Definition afterRun (fuel n : nat) (r : WorkflowContext * res (option any * option error)) : WorkflowContext * res unit :=
  match r with
  | (c, RRet (output, err)) => outer fuel (next n) (conclude output err c)
  | (c, RBlocked) => (c, RRet tt)
  | (c, RPanic msg) => (c, RPanic msg)
  | (c, RFuel) => (c, RFuel)
  end.

Lemma ready_cursor c c' : wc_cursor c' = wc_cursor c -> ready c -> ready c' /\ remaining c' = remaining c.
Proof. intros E. unfold ready, quiet, startFree, remaining, historyOf. by rewrite E. Qed.

Lemma run_settle n' fuel n m c :
  guarded sameCursor c m -> ready c -> (remaining c < fuel)%nat ->
  fin (afterRun fuel n' (run (next n) m c)) = outcomeOf (ticks (remaining c) (settle m c)).
Proof.
  revert c. induction m as [[output err] | msg | k IH | c' k IH | p k IH]; cbn [run settle guarded]; intros c Hg Hr Hf.
  - destruct (ready_cursor c (conclude output err c) (concludeWorkflow_cursor _ _ _ _ _) Hr) as [Hr' E].
    cbn [afterRun]. rewrite <- E. apply outer_outside; [by right | done | lia].
  - by rewrite ticks_end by eauto.
  - by apply IH.
  - destruct Hg as [Hc Hg]. destruct (ready_cursor c c' Hc Hr) as [Hr' E]. rewrite <- E. apply IH; [done | done | lia].
  - assert (remaining c < S (remaining c))%nat as Hlt by lia. revert Hlt. generalize (S (remaining c)) as f.
    intros f. revert c Hr Hf. induction f as [|f IHf]; intros c Hr Hf Hlt; [lia |]. cbn [awaitLoop].
    destruct (ct_isCompleted (default (newTask KindNone) (getTask p (wc_table c)))) eqn:Ec; [by apply IH |].
    destruct (getNextHistoryEvent c) as [[e c1]|] eqn:E.
    + destruct (ready_handle c e c1 E Hr) as (He & Hr1 & Hrem).
      rewrite (next_handle n c e c1 E (proj1 Hr) He), Hrem. cbn [ticks].
      assert (tick (c, MWait p k) = step e (c1, MWait p k)) as -> by (unfold tick; cbn [fst snd]; by rewrite E).
      cbn [step]. destruct (handle e c1) as [c2 [err|]]; cbn [fst snd] in *.
      * apply IH; [apply Hg | done | lia].
      * apply IHf; [done | lia | lia].
    + unfold processNextEvent. rewrite E. by rewrite (getNext_None c E).
Qed.

(** At most one start event, and no suspension before it. *)
Fixpoint oneStart (events : list HistoryEvent) : bool :=
  match events with
  | [] => true
  | e :: rest =>
      match GetExecutionStarted e with
      | Some _ => forallb (fun e => bool_decide (GetExecutionStarted e = None)) rest
      | None => bool_decide (GetExecutionSuspended e = None) && oneStart rest
      end
  end.

Lemma forallb_startFree l :
  forallb (fun e => bool_decide (GetExecutionStarted e = None)) l = true ->
  Forall (fun e => GetExecutionStarted e = None) l.
Proof. rewrite forallb_forall, Forall_forall. intros H e He. eapply bool_decide_eq_true, H. by apply list_elem_of_In. Qed.

Lemma processEvent_terminated n e c : cu_isTerminated (wc_cursor c) = true -> processEvent (S n) e c = (c, RRet None).
Proof. intros E. cbn [TaskExecutor.processEvent]. by rewrite E. Qed.

Lemma processEvent_started n e es c :
  cu_isTerminated (wc_cursor c) = false -> cu_isSuspended (wc_cursor c) = false -> GetExecutionStarted e = Some es ->
  processEvent (S n) e c =
  onExecutionStarted ToUpper errorTypeName errorText registry (processNextEvent (processEvent n)) es c.
Proof.
  intros Et Es E. cbn [TaskExecutor.processEvent]. rewrite Et, Es. unfold GetExecutionStarted in E.
  by repeat case_match; simplify_eq.
Qed.

Lemma outer_idle n fuel c :
  awake c -> oneStart (drop (cu_historyIndex (wc_cursor c)) (historyOf c)) = true -> (remaining c < fuel)%nat ->
  fin (outer fuel (next (S n)) c) = outcomeOf (ticks (remaining c) (c, MIdle)).
Proof.
  revert c. induction fuel as [|fuel IH]; intros c Ha Ho Hf; [lia |]. cbn [startLoop].
  destruct (getNextHistoryEvent c) as [[e c1]|] eqn:E; cycle 1.
  { unfold processNextEvent. rewrite E. by rewrite (getNext_None c E). }
  pose proof (getNext_Some c e c1 E) as (Hr & He & Eh & Ei & Es1 & Es2 & Et & _).
  assert (awake c1) as Ha1 by (unfold awake; rewrite Es1, Es2; exact Ha).
  rewrite (drop_S _ _ _ He) in Ho. cbn [oneStart] in Ho.
  rewrite <- Eh, <- Ei in Ho. rewrite Hr. cbn [ticks].
  destruct (GetExecutionStarted e) as [es|] eqn:Ees.
  - apply forallb_startFree in Ho. assert (ready c1) as Hr1 by (split; [by apply awake_quiet | done]).
    unfold tick. cbn [fst snd]. rewrite E. cbn [step]. rewrite Ees. unfold processNextEvent. rewrite E.
    destruct (cu_isTerminated (wc_cursor c1)) eqn:Ete.
    { rewrite processEvent_terminated by done. apply outer_outside; [by left | done | lia]. }
    rewrite (processEvent_started _ _ es) by (done || apply Ha1). unfold onExecutionStarted, begin.
    destruct (ResolveWorkflow _ _ _) as [[w v]|err]; [| by rewrite ticks_end by auto].
    set (c2 := prepareStart es v c1).
    destruct (ready_cursor c1 c2 (prepareStart_cursor _ _ _) Hr1) as [Hr2 Hrem].
    rewrite <- Hrem. rewrite <- (run_settle (S n) fuel n); [| | done | lia].
    + by destruct (run _ _ c2) as [c3 [[o e'] | | |]].
    + apply (Guarded_weaken _ _ _ (contextStep_sameCursor ToUpper)), Guarded_denote.
  - apply andb_true_iff in Ho as [Hsu%bool_decide_eq_true Ho].
    rewrite (next_handle (S n) c e c1 E (awake_quiet c Ha) Ees).
    unfold tick. cbn [fst snd]. rewrite E. cbn [step]. rewrite Ees. unfold stepOutside.
    pose proof (handle_awake e c1 Ha1 Ees Hsu) as Ha2.
    destruct (handle_calm e c1 (awake_quiet _ Ha1) Ees) as [Hp _].
    destruct (samePlace_history _ _ Hp) as [Eh2 Er2]. destruct Hp as (_ & _ & Ei2).
    destruct (handle e c1) as [c2 [err|]]; cbn [fst snd] in *; [by rewrite ticks_end by auto |].
    rewrite <- Er2. apply IH; [done | by rewrite Ei2, Eh2 | lia].
Qed.

(** A turn on such a history is a run of the machine. *)
Lemma start_machine id oldEvents newEvents ph w :
  let c := NewWorkflowContext id oldEvents newEvents ph w in
  oneStart (oldEvents ++ newEvents) = true ->
  start ToUpper errorTypeName errorText registry c = outcomeOf (ticks (length (oldEvents ++ newEvents)) (c, MIdle)).
Proof.
  intros c Ho. assert (remaining c = length (oldEvents ++ newEvents)) as Er by (unfold remaining; cbn; lia).
  rewrite <- Er.
  assert (forall n, (remaining c = 0 \/ 1 <= n)%nat -> fin (outer (S (remaining c)) (next n) c) = outcomeOf (ticks (remaining c) (c, MIdle)))
    as H.
  { intros [|n] Hn; [| apply outer_idle; [done | done | lia]]. destruct Hn as [Hn | ?]; [| lia].
    apply outer_outside; [by left | split; [constructor |] | lia].
    unfold startFree. cbn. rewrite Er in Hn. apply length_zero_iff_nil in Hn. change (historyOf c) with (oldEvents ++ newEvents). by rewrite Hn. }
  specialize (H (2 * remaining c)%nat ltac:(lia)). unfold start, eventFuel. rewrite <- H.
  by destruct (outer _ _ _) as [c' [[] | | |]].
Qed.

End Machine.
Arguments MIdle {_ _}.
Arguments MWait {_ _} p k.
Arguments MDone {_ _}.
Arguments MEnd {_ _}.
Arguments MPanic {_ _} msg.
