(* ===== verification/TaskErase.v ===== *)
(** * Decisions do not depend on execution ids

    Activities get a fresh execution id every time the workflow function runs, also on
    replay.  Two tables are alike when they agree up to these ids; every handler and
    every method takes alike tables to alike tables, with the same pointers, the same
    error and the same choices. *)

From stdpp Require Import base list option strings gmap sorting.
From Stdlib Require Import ZArith Lia.
From S2P Require Import Prelude Errors Protos Dedup Propagation Helpers TaskRegistry TaskTable TaskProgram.
From S2P Require Import TaskMethods TaskExecutor TaskPreserve.

(** ** Erasure *)

(** The timer of a retry carries the execution id of the attempt that failed. *)
Definition plainOrigin (o : option TimerOrigin) : option TimerOrigin :=
  match o with Some (Origin_ActivityRetry _) => Some (Origin_ActivityRetry "") | o => o end.

Definition eraseOrigin (a : WorkflowAction) : WorkflowAction :=
  match wa_Type a with
  | Some (WorkflowAction_CreateTimer x) =>
      mkWorkflowAction (wa_Id a)
        (Some (WorkflowAction_CreateTimer (mkCreateTimerAction (ta_FireAt x) (ta_Name x) (plainOrigin (ta_Origin x))))) (wa_Router a)
  | _ => a
  end.

Definition eraseAction (a : WorkflowAction) : WorkflowAction := eraseOrigin (setTaskExecutionId "" a).
(** Actions by cases: the kind, and of a timer the origin. *)
Ltac action_cases := intros [? [[| | [? ? [[]|]] | | | | |]|] ?].

Definition eraseTask : completableTask -> completableTask := set_taskExecutionId "".

Lemma erase_Id a : wa_Id (eraseAction a) = wa_Id a.
Proof. revert a. by action_cases. Qed.

(** The second table has the same fields and other objects, equal up to erasure. *)
Definition alike (b1 b2 : Table) : Prop :=
  exists acts tasks,
    b2 = set_heap (mkHeap acts tasks (h_lists (tb_heap b1)) (h_next (tb_heap b1))) b1 /\
    (forall p, eraseAction <$> acts !! p = eraseAction <$> getAction p b1) /\
    (forall p, eraseTask <$> tasks !! p = eraseTask <$> getTask p b1).

Lemma alike_refl b : alike b b.
Proof. exists (h_actions (tb_heap b)), (h_tasks (tb_heap b)). by destruct b as [? ? ? ? ? ? ? ? []]. Qed.

(** Functions on tables that respect it. *)
Definition respects (f : Table -> Table) : Prop := forall b1 b2, alike b1 b2 -> alike (f b1) (f b2).

Lemma alike_action b1 b2 p : alike b1 b2 -> eraseAction <$> getAction p b2 = eraseAction <$> getAction p b1.
Proof. intros (acts & tasks & -> & Ha & _). apply Ha. Qed.
Lemma alike_task b1 b2 p : alike b1 b2 -> eraseTask <$> getTask p b2 = eraseTask <$> getTask p b1.
Proof. intros (acts & tasks & -> & _ & Ht). apply Ht. Qed.

(** A reading of a task that does not see its execution id. *)
Lemma alike_read {X} (f : completableTask -> X) b1 b2 p :
  (forall t, f t = f (eraseTask t)) -> alike b1 b2 -> f <$> getTask p b2 = f <$> getTask p b1.
Proof.
  intros Hf H. apply (alike_task _ _ p) in H.
  assert (forall o : option completableTask, f <$> o = f <$> (eraseTask <$> o)) as E by (intros [t|]; cbn; [by rewrite <- Hf | done]).
  by rewrite E, H, <- E.
Qed.

Lemma alike_readAction {X} (f : WorkflowAction -> X) b1 b2 p :
  (forall a, f a = f (eraseAction a)) -> alike b1 b2 -> f <$> getAction p b2 = f <$> getAction p b1.
Proof.
  intros Hf H. apply (alike_action _ _ p) in H.
  assert (forall o : option WorkflowAction, f <$> o = f <$> (eraseAction <$> o)) as E by (intros [t|]; cbn; [by rewrite <- Hf | done]).
  by rewrite E, H, <- E.
Qed.

(** Equal fields. *)
Lemma alike_fields b1 b2 :
  alike b1 b2 ->
  tb_sequenceNumber b2 = tb_sequenceNumber b1 /\ tb_pendingActions b2 = tb_pendingActions b1 /\
  tb_pendingTasks b2 = tb_pendingTasks b1 /\ tb_optionalTimerIDs b2 = tb_optionalTimerIDs b1 /\
  tb_bufferedResolutions b2 = tb_bufferedResolutions b1 /\ tb_resolvedResolutions b2 = tb_resolvedResolutions b1 /\
  tb_bufferedExternalEvents b2 = tb_bufferedExternalEvents b1 /\
  tb_pendingExternalEventTasks b2 = tb_pendingExternalEventTasks b1 /\
  (forall l, getList l b2 = getList l b1) /\ h_next (tb_heap b2) = h_next (tb_heap b1).
Proof. by intros (acts & tasks & -> & _). Qed.

(** ** Primitive updates *)

(** A change of fields other than the heap, computed from them. *)
Lemma alike_set b1 b2 (f : Table -> Table) :
  (forall h b, f (set_heap h b) = set_heap h (f b)) -> alike b1 b2 -> alike (f b1) (f b2).
Proof.
  intros Hf (acts & tasks & -> & Ha & Ht). rewrite Hf.
  assert (tb_heap (f b1) = tb_heap b1) as E.
  { pose proof (Hf (tb_heap b1) b1) as E. replace (set_heap (tb_heap b1) b1) with b1 in E by by destruct b1.
    by rewrite E. }
  exists acts, tasks. unfold getAction, getTask. rewrite E. done.
Qed.

Lemma alike_modTask f p b1 b2 :
  (forall t, eraseTask (f t) = eraseTask (f (eraseTask t))) -> alike b1 b2 -> alike (modTask f p b1) (modTask f p b2).
Proof.
  intros Hf (acts & tasks & -> & Ha & Ht). exists acts, (alter f p tasks). split_and!; [done | done |].
  intros q. unfold getTask in *. cbn. destruct (decide (p = q)) as [-> |]; [| rewrite !lookup_alter_ne by done; apply Ht].
  rewrite !lookup_alter_eq. specialize (Ht q).
  destruct (tasks !! q) as [t|], (h_tasks (tb_heap b1) !! q) as [t'|]; [| done | done | done].
  apply Some_inj in Ht. cbn. by rewrite Hf, Ht, <- Hf.
Qed.

(** Functions that agree up to erasure. *)
Lemma alike_modAction2 f1 f2 p b1 b2 :
  (forall a1 a2, eraseAction a2 = eraseAction a1 -> eraseAction (f2 a2) = eraseAction (f1 a1)) -> alike b1 b2 ->
  alike (modAction f1 p b1) (modAction f2 p b2).
Proof.
  intros Hf (acts & tasks & -> & Ha & Ht). exists (alter f2 p acts), tasks. split_and!; [done | | done].
  intros q. unfold getAction in *. cbn. destruct (decide (p = q)) as [-> |]; [| rewrite !lookup_alter_ne by done; apply Ha].
  rewrite !lookup_alter_eq. specialize (Ha q).
  destruct (acts !! q) as [t|], (h_actions (tb_heap b1) !! q) as [t'|]; [| done | done | done].
  apply Some_inj in Ha. cbn. by rewrite (Hf _ _ Ha).
Qed.

Lemma alike_modAction f p b1 b2 :
  (forall a, eraseAction (f a) = eraseAction (f (eraseAction a))) -> alike b1 b2 ->
  alike (modAction f p b1) (modAction f p b2).
Proof. intros Hf. apply alike_modAction2. intros a1 a2 E. by rewrite Hf, E, <- Hf. Qed.

Lemma alike_allocTask t b1 b2 :
  alike b1 b2 -> (allocTask t b2).1 = (allocTask t b1).1 /\ alike (allocTask t b1).2 (allocTask t b2).2.
Proof.
  intros (acts & tasks & -> & Ha & Ht). split; [done |].
  exists acts, (<[h_next (tb_heap b1) := t]> tasks). split_and!; [done | done |].
  intros q. unfold getTask in *. cbn. destruct (decide (h_next (tb_heap b1) = q)) as [-> |];
    [by rewrite !lookup_insert_eq | rewrite !lookup_insert_ne by done; apply Ht].
Qed.

Lemma alike_allocAction a1 a2 b1 b2 :
  eraseAction a2 = eraseAction a1 -> alike b1 b2 ->
  (allocAction a2 b2).1 = (allocAction a1 b1).1 /\ alike (allocAction a1 b1).2 (allocAction a2 b2).2.
Proof.
  intros E (acts & tasks & -> & Ha & Ht). split; [done |].
  exists (<[h_next (tb_heap b1) := a2]> acts), tasks. split_and!; [done | | done].
  intros q. unfold getAction in *. cbn. destruct (decide (h_next (tb_heap b1) = q)) as [-> |];
    [rewrite !lookup_insert_eq; cbn; by rewrite E | rewrite !lookup_insert_ne by done; apply Ha].
Qed.

Lemma alike_allocList b1 b2 :
  alike b1 b2 -> (allocList b2).1 = (allocList b1).1 /\ alike (allocList b1).2 (allocList b2).2.
Proof. intros (acts & tasks & -> & Ha & Ht). split; [done |]. by exists acts, tasks. Qed.

Lemma alike_setList l x b1 b2 : alike b1 b2 -> alike (setList l x b1) (setList l x b2).
Proof. intros (acts & tasks & -> & Ha & Ht). by exists acts, tasks. Qed.

Lemma alike_sequenceNumber v b1 b2 : alike b1 b2 -> alike (set_sequenceNumber v b1) (set_sequenceNumber v b2).
Proof. by apply (alike_set _ _ (set_sequenceNumber v)). Qed.
Lemma alike_pendingActions v b1 b2 : alike b1 b2 -> alike (set_pendingActions v b1) (set_pendingActions v b2).
Proof. by apply (alike_set _ _ (set_pendingActions v)). Qed.
Lemma alike_pendingTasks v b1 b2 : alike b1 b2 -> alike (set_pendingTasks v b1) (set_pendingTasks v b2).
Proof. by apply (alike_set _ _ (set_pendingTasks v)). Qed.
Lemma alike_optionalTimerIDs v b1 b2 : alike b1 b2 -> alike (set_optionalTimerIDs v b1) (set_optionalTimerIDs v b2).
Proof. by apply (alike_set _ _ (set_optionalTimerIDs v)). Qed.
Lemma alike_bufferedResolutions v b1 b2 : alike b1 b2 -> alike (set_bufferedResolutions v b1) (set_bufferedResolutions v b2).
Proof. by apply (alike_set _ _ (set_bufferedResolutions v)). Qed.
Lemma alike_resolvedResolutions v b1 b2 : alike b1 b2 -> alike (set_resolvedResolutions v b1) (set_resolvedResolutions v b2).
Proof. by apply (alike_set _ _ (set_resolvedResolutions v)). Qed.
Lemma alike_bufferedExternalEvents v b1 b2 : alike b1 b2 -> alike (set_bufferedExternalEvents v b1) (set_bufferedExternalEvents v b2).
Proof. by apply (alike_set _ _ (set_bufferedExternalEvents v)). Qed.
Lemma alike_pendingExternalEventTasks v b1 b2 : alike b1 b2 -> alike (set_pendingExternalEventTasks v b1) (set_pendingExternalEventTasks v b2).
Proof. by apply (alike_set _ _ (set_pendingExternalEventTasks v)). Qed.

Create HintDb alike discriminated.
#[export] Hint Resolve alike_sequenceNumber alike_pendingActions alike_pendingTasks alike_optionalTimerIDs alike_bufferedResolutions alike_resolvedResolutions alike_bufferedExternalEvents alike_pendingExternalEventTasks
  alike_setList : alike.

(** Rewrite the fields of the second table to those of the first. *)
Ltac alike_rewrite H :=
  let E1 := fresh in let E2 := fresh in let E3 := fresh in let E4 := fresh in let E5 := fresh in
  let E6 := fresh in let E7 := fresh in let E8 := fresh in let E9 := fresh in let E10 := fresh in
  destruct (alike_fields _ _ H) as (E1 & E2 & E3 & E4 & E5 & E6 & E7 & E8 & E9 & E10);
  rewrite ?E1, ?E2, ?E3, ?E4, ?E5, ?E6, ?E7, ?E8, ?E9, ?E10; clear E1 E2 E3 E4 E5 E6 E7 E8 E9 E10.

(** ** Completing tasks *)

Lemma alike_case b1 b2 p :
  alike b1 b2 ->
  (exists t1 t2, getTask p b1 = Some t1 /\ getTask p b2 = Some t2 /\ eraseTask t2 = eraseTask t1) \/
  (getTask p b1 = None /\ getTask p b2 = None).
Proof.
  intros H. apply (alike_task _ _ p) in H.
  destruct (getTask p b1) as [t1|], (getTask p b2) as [t2|]; [| done | done | by right].
  left. apply Some_inj in H. eauto.
Qed.

Lemma erased_task t1 t2 :
  eraseTask t2 = eraseTask t1 ->
  ct_isCompleted t2 = ct_isCompleted t1 /\ ct_kind t2 = ct_kind t1 /\
  ct_completedCallback t2 = ct_completedCallback t1 /\ awaitResult t2 = awaitResult t1 /\
  ct_rawResult t2 = ct_rawResult t1.
Proof.
  intros E. assert (forall {X} (f : completableTask -> X), (forall t, f t = f (eraseTask t)) -> f t2 = f t1) as H.
  { intros X f Hf. by rewrite Hf, E, <- Hf. }
  split_and!; by apply H.
Qed.

Lemma alike_completeInternal n p b1 b2 : alike b1 b2 -> alike (completeInternal n p b1) (completeInternal n p b2).
Proof.
  revert p b1 b2. induction n as [|n IH]; intros p b1 b2 H; cbn [completeInternal]; [done |].
  apply (alike_modTask set_completed p) in H; [| done].
  destruct (alike_case _ _ p H) as [(t1 & t2 & -> & -> & (_ & _ & E & _)%erased_task) | [-> ->]]; cbn; [| done].
  rewrite E. destruct (ct_completedCallback t1) as [cb|]; [| done]. unfold onTimeout.
  destruct (alike_case _ _ (cb_task cb) H) as [(w1 & w2 & -> & -> & (Ec & _)%erased_task) | [-> ->]]; [| done].
  rewrite Ec. destruct (ct_isCompleted w1); [done |].
  assert (alike (completeInternal n (cb_task cb) (modTask set_canceled (cb_task cb) (modTask set_completed p b1)))
            (completeInternal n (cb_task cb) (modTask set_canceled (cb_task cb) (modTask set_completed p b2)))) as H'
    by by apply IH, alike_modTask.
  alike_rewrite H'. case_match; [by apply alike_setList |].
  by apply alike_pendingExternalEventTasks.
Qed.

Lemma alike_taskComplete v p b1 b2 : alike b1 b2 -> alike (taskComplete v p b1) (taskComplete v p b2).
Proof. intros H. by apply alike_completeInternal, alike_modTask. Qed.
Lemma alike_taskFail v p b1 b2 : alike b1 b2 -> alike (taskFail v p b1) (taskFail v p b2).
Proof. intros H. by apply alike_completeInternal, alike_modTask. Qed.
Lemma alike_taskCancel p b1 b2 : alike b1 b2 -> alike (taskCancel p b1) (taskCancel p b2).
Proof. intros H. by apply alike_completeInternal, alike_modTask. Qed.
#[export] Hint Resolve alike_taskComplete alike_taskFail alike_taskCancel : alike.

Lemma alike_onTimeout cb b1 b2 : alike b1 b2 -> alike (onTimeout taskCancel cb b1) (onTimeout taskCancel cb b2).
Proof.
  intros H. unfold onTimeout.
  destruct (alike_case _ _ (cb_task cb) H) as [(w1 & w2 & -> & -> & (Ec & _)%erased_task) | [-> ->]]; [| done].
  rewrite Ec. destruct (ct_isCompleted w1); [done |].
  assert (alike (taskCancel (cb_task cb) b1) (taskCancel (cb_task cb) b2)) as H' by auto with alike.
  alike_rewrite H'. case_match; auto with alike.
Qed.

Lemma alike_onCompleted p cb b1 b2 : alike b1 b2 -> alike (onCompleted p cb b1) (onCompleted p cb b2).
Proof.
  intros H. unfold onCompleted.
  destruct (alike_case _ _ p H) as [(t1 & t2 & -> & -> & (Ec & _)%erased_task) | [-> ->]]; [| done].
  rewrite Ec. case_match; [by apply alike_onTimeout | by apply alike_modTask].
Qed.

(** ** Resolutions *)

Lemma alike_restoreActivityScheduleIdentity id x b1 b2 :
  alike b1 b2 -> alike (restoreActivityScheduleIdentity id x b1) (restoreActivityScheduleIdentity id x b2).
Proof.
  intros H. unfold restoreActivityScheduleIdentity. alike_rewrite H. case_match; [| done].
  apply alike_modAction; [| done]. by action_cases.
Qed.

Lemma alike_onResolution key r finish b1 b2 :
  (forall p b1 b2, alike b1 b2 -> alike (finish p b1) (finish p b2)) ->
  alike b1 b2 -> alike (onResolution key r finish b1) (onResolution key r finish b2).
Proof.
  intros Hf H. unfold onResolution, bufferResolution, resolutionIDProvisional.
  assert (forall p, ct_kind <$> getTask p b2 = ct_kind <$> getTask p b1) as Ek by (intros p; by apply alike_read).
  alike_rewrite H. destruct (tb_pendingTasks b1 !! key.2) as [p|]; [rewrite Ek |];
    repeat case_match; auto with alike.
Qed.

Lemma alike_redeliver r b1 b2 : alike b1 b2 -> alike (redeliver r b1) (redeliver r b2).
Proof.
  intros H. destruct r; cbn; apply alike_onResolution; try done; intros p c1 c2 Hc.
  - by apply alike_taskComplete, alike_restoreActivityScheduleIdentity.
  - by apply alike_taskFail, alike_modTask, alike_restoreActivityScheduleIdentity.
  - by apply alike_taskComplete.
  - by apply alike_taskComplete.
  - by apply alike_taskFail.
Qed.
#[export] Hint Resolve alike_redeliver : alike.

Lemma alike_consumeBufferedResolution k id b1 b2 :
  alike b1 b2 -> alike (consumeBufferedResolution k id b1) (consumeBufferedResolution k id b2).
Proof.
  intros H. unfold consumeBufferedResolution, resolutionIDProvisional. alike_rewrite H.
  repeat case_match; auto with alike.
Qed.

Lemma alike_foldl {A} (f : Table -> A -> Table) l b1 b2 :
  (forall x b1 b2, alike b1 b2 -> alike (f b1 x) (f b2 x)) -> alike b1 b2 -> alike (foldl f b1 l) (foldl f b2 l).
Proof. intros Hf. revert b1 b2. induction l as [|x l IH]; intros b1 b2 H; cbn; auto. Qed.

Lemma alike_consumeAt ids b1 b2 : alike b1 b2 -> alike (consumeAt ids b1) (consumeAt ids b2).
Proof.
  apply alike_foldl. clear. intros id b1 b2 H. pose proof H as H'. alike_rewrite H.
  destruct (tb_pendingTasks b1 !! id) as [p|]; cbn; [| done].
  destruct (alike_case _ _ p H') as [(t1 & t2 & -> & -> & (_ & E & _)%erased_task) | [-> ->]]; [| done].
  rewrite E. by apply alike_consumeBufferedResolution.
Qed.

Lemma alike_consumeReady b1 b2 :
  alike b1 b2 -> alike (consumeReadyBufferedResolutions b1) (consumeReadyBufferedResolutions b2).
Proof.
  intros H. unfold consumeReadyBufferedResolutions. alike_rewrite H. case_match; [done | by apply alike_consumeAt].
Qed.
#[export] Hint Resolve alike_consumeBufferedResolution alike_consumeAt alike_consumeReady : alike.

(** ** Optional timers *)

Lemma alike_shiftAction b1 b2 id : alike b1 b2 -> alike (shiftAction b1 id) (shiftAction b2 id).
Proof.
  intros H. unfold shiftAction. alike_rewrite H. destruct (tb_pendingActions b1 !! id) as [p|]; [| done].
  set (f := fun a : WorkflowAction => _).
  assert (alike (modAction f p b1) (modAction f p b2)) as H'.
  { apply alike_modAction; [| done]. unfold f. by action_cases. }
  cbn. alike_rewrite H. case_match; auto with alike.
Qed.

Lemma alike_shiftTask b1 b2 id : alike b1 b2 -> alike (shiftTask b1 id) (shiftTask b2 id).
Proof. intros H. unfold shiftTask. alike_rewrite H. case_match; auto with alike. Qed.

(** A reading of a pending action that does not see execution ids. *)
Lemma alike_pendingAction {X} (f : WorkflowAction -> X) id b1 b2 :
  (forall a, f a = f (eraseAction a)) -> alike b1 b2 -> f <$> pendingAction id b2 = f <$> pendingAction id b1.
Proof.
  intros Hf H. unfold pendingAction. pose proof H as H'. alike_rewrite H.
  destruct (tb_pendingActions b1 !! id) as [p|]; cbn; [| done]. by apply alike_readAction.
Qed.

Lemma alike_drop id b1 b2 :
  alike b1 b2 ->
  (dropOptionalExternalEventTimerAt id b2).1 = (dropOptionalExternalEventTimerAt id b1).1 /\
  alike (dropOptionalExternalEventTimerAt id b1).2 (dropOptionalExternalEventTimerAt id b2).2.
Proof.
  intros H. unfold dropOptionalExternalEventTimerAt.
  assert (isOptionalExternalEventTimerAction <$> pendingAction id b2 =
          isOptionalExternalEventTimerAction <$> pendingAction id b1) as E.
  { apply alike_pendingAction; [| done]. by action_cases. }
  destruct (pendingAction id b1) as [a1|], (pendingAction id b2) as [a2|]; cbn in E; [| done | done | done].
  apply Some_inj in E. rewrite E. case_match; [| done]. cbn [fst snd]. split; [done |].
  alike_rewrite H. set (c1 := set_optionalTimerIDs _ (set_pendingTasks _ (set_pendingActions _ b1))).
  set (c2 := set_optionalTimerIDs _ (set_pendingTasks _ (set_pendingActions _ b2))).
  assert (alike c1 c2) as Hc by (unfold c1, c2; auto with alike). clearbody c1 c2.
  alike_rewrite Hc. set (ids := laterIds id (tb_pendingActions c1)).
  assert (alike (foldl shiftAction c1 ids) (foldl shiftAction c2 ids)) as Hd
    by (apply alike_foldl; [intros; by apply alike_shiftAction | done]).
  alike_rewrite Hd. set (tids := laterIds id (tb_pendingTasks (foldl shiftAction c1 ids))).
  assert (alike (foldl shiftTask (foldl shiftAction c1 ids) tids) (foldl shiftTask (foldl shiftAction c2 ids) tids)) as He
    by (apply alike_foldl; [intros; by apply alike_shiftTask | done]).
  alike_rewrite He. auto with alike.
Qed.

Lemma alike_dropLoop fuel id b1 b2 : alike b1 b2 -> alike (dropLoop fuel id b1) (dropLoop fuel id b2).
Proof.
  revert b1 b2. induction fuel as [|fuel IH]; intros b1 b2 H; cbn [dropLoop]; [done |].
  destruct (alike_drop id b1 b2 H) as [E Hd].
  destruct (dropOptionalExternalEventTimerAt id b1) as [x1 c1], (dropOptionalExternalEventTimerAt id b2) as [x2 c2].
  cbn in E, Hd. subst x2. destruct x1; auto.
Qed.

Lemma alike_dropAllAt id b1 b2 : alike b1 b2 -> alike (dropAllAt id b1) (dropAllAt id b2).
Proof. intros H. unfold dropAllAt. alike_rewrite H. by apply alike_dropLoop. Qed.

(** ** Scheduling events *)

Lemma alike_bindAction {X} (get : WorkflowAction -> option X) id b1 b2 :
  (forall a, get a = None <-> get (eraseAction a) = None) -> alike b1 b2 ->
  (pendingAction id b2 ≫= get = None <-> pendingAction id b1 ≫= get = None).
Proof.
  intros Hg H. apply (alike_pendingAction eraseAction id) in H; [| by action_cases].
  destruct (pendingAction id b1) as [a1|], (pendingAction id b2) as [a2|]; cbn in *; [| done | done | done].
  apply Some_inj in H. by rewrite Hg, H, <- Hg.
Qed.

(** Alignment succeeds on both, with actions equal up to the execution id. *)
Lemma alike_alignAction {X} (get : WorkflowAction -> option X) drop id b1 b2 :
  (forall a, get a = None <-> get (eraseAction a) = None) ->
  (forall b1 b2, alike b1 b2 -> alike (drop id b1) (drop id b2)) -> alike b1 b2 ->
  let r1 := alignAction get drop id b1 in let r2 := alignAction get drop id b2 in
  alike r1.1 r2.1 /\ (eraseAction ∘ fst) <$> r2.2 = (eraseAction ∘ fst) <$> r1.2 /\
  (forall a x, r1.2 = Some (a, x) -> get a = Some x) /\ (forall a x, r2.2 = Some (a, x) -> get a = Some x).
Proof.
  intros Hg Hd H. unfold alignAction. cbv zeta.
  pose (found := fun b : Table => a ← pendingAction id b; x ← get a; Some (a, x)).
  change (a ← pendingAction id b1; x ← get a; Some (a, x)) with (found b1).
  change (a ← pendingAction id b2; x ← get a; Some (a, x)) with (found b2).
  change (a ← pendingAction id (drop id b1); x ← get a; Some (a, x)) with (found (drop id b1)).
  change (a ← pendingAction id (drop id b2); x ← get a; Some (a, x)) with (found (drop id b2)).
  assert (forall c a x, found c = Some (a, x) -> get a = Some x) as Hfound.
  { intros c a x. unfold found. destruct (pendingAction id c) as [a'|]; cbn; [| done].
    destruct (get a') eqn:E; cbn; [| done]. by intros [= <- <-]. }
  assert (forall c1 c2, alike c1 c2 -> (eraseAction ∘ fst) <$> found c2 = (eraseAction ∘ fst) <$> found c1) as Hf.
  { intros c1 c2 Hc. apply (alike_pendingAction eraseAction id) in Hc; [| by action_cases]. unfold found.
    destruct (pendingAction id c1) as [a1|], (pendingAction id c2) as [a2|]; cbn in *; [| done | done | done].
    apply Some_inj in Hc. destruct (get a1) as [x1|] eqn:E1, (get a2) as [x2|] eqn:E2; cbn; [by rewrite Hc | | | done].
    - apply Hg in E2. rewrite Hc in E2. apply Hg in E2. congruence.
    - apply Hg in E1. rewrite <- Hc in E1. apply Hg in E1. congruence. }
  pose proof (Hf b1 b2 H) as E. specialize (Hd b1 b2 H). pose proof (Hf _ _ Hd) as E'.
  destruct (found b1) as [[a1 x1]|] eqn:F1, (found b2) as [[a2 x2]|] eqn:F2; cbn in E; [| done | done |]; cbn [fst snd].
  - split_and!; [done | done | |]; intros a x [= <- <-]; by eapply Hfound.
  - split_and!; [done | done | |]; intros a x; by apply Hfound.
Qed.

Lemma alike_removePendingAction id b1 b2 : alike b1 b2 -> alike (removePendingAction id b1) (removePendingAction id b2).
Proof. intros H. unfold removePendingAction. alike_rewrite H. auto with alike. Qed.

(** Handlers with an error. *)
Definition respectsErr (f : Table -> Table * option error) : Prop :=
  forall b1 b2, alike b1 b2 -> (f b2).2 = (f b1).2 /\ alike (f b1).1 (f b2).1.

Lemma alike_onTaskScheduled id ts : respectsErr (onTaskScheduled id ts).
Proof.
  intros b1 b2 H. unfold onTaskScheduled.
  destruct (alike_alignAction GetScheduleTask dropAllAt id b1 b2) as (Ha & E & _);
    [by action_cases | by intros; apply alike_dropAllAt | done |].
  destruct (alignAction _ _ id b1) as [c1 [[]|]], (alignAction _ _ id b2) as [c2 [[]|]]; try done.
  split; [done | by apply alike_removePendingAction].
Qed.

Lemma alike_onChildWorkflowScheduled id ts : respectsErr (onChildWorkflowScheduled id ts).
Proof.
  intros b1 b2 H. unfold onChildWorkflowScheduled.
  destruct (alike_alignAction GetCreateChildWorkflow dropAllAt id b1 b2) as (Ha & E & _);
    [by action_cases | by intros; apply alike_dropAllAt | done |].
  destruct (alignAction _ _ id b1) as [c1 [[]|]], (alignAction _ _ id b2) as [c2 [[]|]]; try done.
  split; [done |]. cbn [fst] in *. apply alike_removePendingAction.
  assert (forall p, ct_kind <$> getTask p c2 = ct_kind <$> getTask p c1) as Ek by (intros p; by apply alike_read).
  alike_rewrite Ha. destruct (tb_pendingTasks c1 !! id) as [p|]; [| done]. rewrite Ek.
  case_match; [by apply alike_modTask | done].
Qed.

Lemma alike_onDetachedWorkflowCreated id dw : respectsErr (onDetachedWorkflowCreated id dw).
Proof.
  intros b1 b2 H. unfold onDetachedWorkflowCreated.
  destruct (alike_alignAction GetCreateDetachedWorkflow (fun id b => (dropOptionalExternalEventTimerAt id b).2) id b1 b2)
    as (Ha & E & G1 & G2); [by action_cases | by intros; apply alike_drop | done |].
  destruct (alignAction _ _ id b1) as [c1 [[a1 x1]|]], (alignAction _ _ id b2) as [c2 [[a2 x2]|]]; try done.
  cbn in E. apply Some_inj in E. specialize (G1 a1 x1 eq_refl). specialize (G2 a2 x2 eq_refl).
  assert (x2 = x1) as ->.
  { unfold GetCreateDetachedWorkflow in *. destruct a1 as [? [[]|] ?], a2 as [? [[]|] ?]; simplify_eq/=; done. }
  cbn [fst snd] in *. case_match; [| done]. split; [done | by apply alike_removePendingAction].
Qed.

Lemma alike_onTimerCreated id tc : respectsErr (onTimerCreated id tc).
Proof.
  intros b1 b2 H. unfold onTimerCreated.
  assert (alike (if isOptionalExternalEventTimerCreatedEvent tc then b1 else dropAllAt id b1)
            (if isOptionalExternalEventTimerCreatedEvent tc then b2 else dropAllAt id b2)) as Hd
    by (case_match; [done | by apply alike_dropAllAt]).
  revert Hd. generalize (if isOptionalExternalEventTimerCreatedEvent tc then b1 else dropAllAt id b1) as c1.
  generalize (if isOptionalExternalEventTimerCreatedEvent tc then b2 else dropAllAt id b2) as c2.
  intros c2 c1 Hc. pose proof (alike_bindAction GetCreateTimer id c1 c2 ltac:(by action_cases) Hc) as E.
  destruct (pendingAction id c1 ≫= GetCreateTimer) eqn:E1, (pendingAction id c2 ≫= GetCreateTimer) eqn:E2; cycle 1.
  { exfalso. by destruct E as [E _]; specialize (E eq_refl). }
  { exfalso. by destruct E as [_ E]; specialize (E eq_refl). }
  { done. }
  split; [done |]. cbn [fst]. apply alike_consumeReady. alike_rewrite Hc.
  by apply alike_optionalTimerIDs, alike_removePendingAction.
Qed.

(** ** Scheduling *)

Lemma erase_at n ty r :
  eraseAction (mkWorkflowAction n ty r) = mkWorkflowAction n (wa_Type (eraseAction (mkWorkflowAction 0 ty r))) r.
Proof. by destruct ty as [[| | [? ? [[]|]] | | | | |]|]. Qed.

Lemma alike_scheduleAction ty1 ty2 r b1 b2 :
  eraseAction (mkWorkflowAction 0 (Some ty2) r) = eraseAction (mkWorkflowAction 0 (Some ty1) r) -> alike b1 b2 ->
  let s1 := scheduleAction ty1 r b1 in let s2 := scheduleAction ty2 r b2 in s2.1 = s1.1 /\ alike s1.2 s2.2.
Proof.
  intros E H. unfold scheduleAction. cbn [getNextSequenceNumber].
  assert (alike (set_sequenceNumber (int32_of (tb_sequenceNumber b1 + 1)) b1)
            (set_sequenceNumber (int32_of (tb_sequenceNumber b2 + 1)) b2)) as Hs by (alike_rewrite H; auto with alike).
  set (a1 := mkWorkflowAction (tb_sequenceNumber b1) (Some ty1) r).
  set (a2 := mkWorkflowAction (tb_sequenceNumber b2) (Some ty2) r).
  assert (eraseAction a2 = eraseAction a1) as Ea.
  { unfold a1, a2. alike_rewrite H. rewrite (erase_at _ (Some ty2)), (erase_at _ (Some ty1)). by rewrite E. }
  destruct (alike_allocAction a1 a2 _ _ Ea Hs) as [E1 E2].
  assert (tb_sequenceNumber b2 = tb_sequenceNumber b1) as Eseq by by alike_rewrite H.
  destruct (allocAction a1 _) as [p1 c1], (allocAction a2 _) as [p2 c2]. cbn [fst snd] in *. subst p2.
  split; [by rewrite Eseq |]. alike_rewrite E2. rewrite Eseq. auto with alike.
Qed.

Lemma alike_registerTask t id b1 b2 :
  alike b1 b2 -> (registerTask t id b2).1 = (registerTask t id b1).1 /\ alike (registerTask t id b1).2 (registerTask t id b2).2.
Proof.
  intros H. unfold registerTask. destruct (alike_allocTask t b1 b2 H) as [E Ha].
  destruct (allocTask t b1) as [p1 c1], (allocTask t b2) as [p2 c2]. cbn [fst snd] in *. subst p2.
  split; [done |]. alike_rewrite Ha. auto with alike.
Qed.

(** Scheduling an action and registering its task. *)
Lemma alike_scheduleRegister ty1 ty2 r (t : nat -> completableTask) b1 b2 :
  eraseAction (mkWorkflowAction 0 (Some ty2) r) = eraseAction (mkWorkflowAction 0 (Some ty1) r) -> alike b1 b2 ->
  let f ty b := let '(id, a, b) := scheduleAction ty r b in registerTask (t a) id b in
  (f ty2 b2).1 = (f ty1 b1).1 /\ alike (f ty1 b1).2 (f ty2 b2).2.
Proof.
  intros E H f. unfold f. clear f. destruct (alike_scheduleAction ty1 ty2 r b1 b2 E H) as [E1 E2].
  destruct (scheduleAction ty1 r b1) as [[id1 a1] c1], (scheduleAction ty2 r b2) as [[id2 a2] c2].
  cbn [fst snd] in *. injection E1 as -> ->. by apply alike_registerTask.
Qed.

Lemma alike_createTimerInternal now name delay b1 b2 :
  alike b1 b2 ->
  let r1 := createTimerInternal now name delay b1 in let r2 := createTimerInternal now name delay b2 in
  r2.1 = r1.1 /\ alike r1.2 r2.2.
Proof.
  intros H. unfold createTimerInternal. set (ty := WorkflowAction_CreateTimer _).
  destruct (alike_scheduleAction ty ty None b1 b2 eq_refl H) as [E1 E2].
  destruct (scheduleAction ty None b1) as [[id1 a1] c1], (scheduleAction ty None b2) as [[id2 a2] c2].
  cbn [fst snd] in *. injection E1 as -> ->. destruct (alike_registerTask (newTask KindTimer) id1 c1 c2 E2) as [E H'].
  destruct (registerTask _ id1 c1) as [p1 d1], (registerTask _ id1 c2) as [p2 d2]. cbn in *. by subst.
Qed.

Lemma alike_createExternalEventTimerInternal name fireAt b1 b2 :
  alike b1 b2 ->
  let r1 := createExternalEventTimerInternal name fireAt b1 in let r2 := createExternalEventTimerInternal name fireAt b2 in
  r2.1 = r1.1 /\ alike r1.2 r2.2.
Proof.
  intros H. unfold createExternalEventTimerInternal. set (ty := WorkflowAction_CreateTimer _).
  destruct (alike_scheduleAction ty ty None b1 b2 eq_refl H) as [E1 E2].
  destruct (scheduleAction ty None b1) as [[id1 a1] c1], (scheduleAction ty None b2) as [[id2 a2] c2].
  cbn [fst snd] in *. injection E1 as -> ->. apply alike_registerTask. alike_rewrite E2. case_match; auto with alike.
Qed.

(** ** External events *)

Section Events.
Variable ToUpper : string -> string.

Lemma alike_WaitForSingleEvent now name timeout b1 b2 :
  alike b1 b2 ->
  let r1 := WaitForSingleEvent ToUpper now name timeout b1 in
  let r2 := WaitForSingleEvent ToUpper now name timeout b2 in r2.1 = r1.1 /\ alike r1.2 r2.2.
Proof.
  intros H. unfold WaitForSingleEvent. destruct (alike_allocTask (newTask KindNone) b1 b2 H) as [E Ha].
  destruct (allocTask _ b1) as [w1 c1], (allocTask _ b2) as [w2 c2]. cbn [fst snd] in E, Ha. subst w2.
  set (key := ToUpper name). alike_rewrite Ha. destruct (tb_bufferedExternalEvents c1 !! key) as [evs|].
  { split; [done |]. cbn [snd]. case_match; auto with alike. }
  destruct (timeout =? 0); [split; [done | cbn [snd]; auto with alike] |].
  set (reg := fun c : Table => match tb_pendingExternalEventTasks c1 !! key with
                               | Some l => (l, c)
                               | None => let '(l, b) := allocList c in
                                         (l, set_pendingExternalEventTasks (<[key := l]> (tb_pendingExternalEventTasks b)) b)
                               end).
  change (match tb_pendingExternalEventTasks c1 !! key with Some l => (l, c2) | None => _ end) with (reg c2).
  change (match tb_pendingExternalEventTasks c1 !! key with Some l => (l, c1) | None => _ end) with (reg c1).
  assert ((reg c2).1 = (reg c1).1 /\ alike (reg c1).2 (reg c2).2) as [El Hl].
  { unfold reg. destruct (tb_pendingExternalEventTasks c1 !! key) as [l|]; [done |].
    destruct (alike_allocList c1 c2 Ha) as [E1 E2].
    destruct (allocList c1) as [l1 d1], (allocList c2) as [l2 d2]. cbn [fst snd] in *. subst l2. split; [done |].
    alike_rewrite E2. auto with alike. }
  destruct (reg c1) as [l1 d1], (reg c2) as [l2 d2]. cbn [fst snd] in El, Hl. subst l2. clear reg.
  alike_rewrite Hl. set (fireAt := if 0 <? timeout then _ else _).
  destruct (alike_createExternalEventTimerInternal name fireAt (setList l1 (getList l1 d1 ++ [w1]) d1)
    (setList l1 (getList l1 d1 ++ [w1]) d2)) as [Et Ht]; [auto with alike |].
  destruct (createExternalEventTimerInternal _ _ (setList _ _ d1)) as [t1 f1],
    (createExternalEventTimerInternal _ _ (setList _ _ d2)) as [t2 f2]. cbn [fst snd] in *. subst t2.
  split; [done | by apply alike_onCompleted].
Qed.

Lemma alike_onExternalEventRaised e b1 b2 :
  alike b1 b2 -> alike (onExternalEventRaised ToUpper e b1) (onExternalEventRaised ToUpper e b2).
Proof.
  intros H. unfold onExternalEventRaised. alike_rewrite H.
  destruct (tb_pendingExternalEventTasks b1 !! _) as [l|]; [| auto with alike]. alike_rewrite H.
  destruct (getList l b1) as [|w rest]; [done |]. apply alike_taskComplete. case_match; auto with alike.
Qed.

Lemma alike_tableEvent e f : tableEvent ToUpper e = Some f -> respectsErr f.
Proof.
  unfold tableEvent. intros E. destruct (EventType e) as [[]|]; simplify_eq; intros b1 b2 H.
  - by apply alike_onTaskScheduled.
  - split; [done | by apply (alike_redeliver (ResTaskCompleted x))].
  - split; [done | by apply (alike_redeliver (ResTaskFailed x))].
  - by apply alike_onChildWorkflowScheduled.
  - split; [done | by apply (alike_redeliver (ResChildCompleted x))].
  - split; [done | by apply (alike_redeliver (ResChildFailed x))].
  - by apply alike_onTimerCreated.
  - split; [done | by apply (alike_redeliver (ResTimerFired x))].
  - split; [done | by apply alike_onExternalEventRaised].
  - by apply alike_onDetachedWorkflowCreated.
Qed.

End Events.

(** ** The decisions of a turn *)

(** Sorting by a key commutes with a map that keeps the key. *)
Section SortMap.
Context {A : Type} (R : A -> A -> Prop) `{Hdec : forall x y, Decision (R x y)} (f : A -> A).
Hypothesis Rf : forall x y, R (f x) (f y) <-> R x y.

Lemma list_merge_map l1 l2 : f <$> list_merge R l1 l2 = list_merge R (f <$> l1) (f <$> l2).
Proof.
  revert l2. induction l1 as [|x l1 IH1]; intros l2; [by destruct l2 |].
  induction l2 as [|y l2 IH2]; [done |].
  change (list_merge R (x :: l1) (y :: l2))
    with (if decide (R x y) then x :: list_merge R l1 (y :: l2) else y :: list_merge R (x :: l1) l2).
  change (list_merge R (f <$> x :: l1) (f <$> y :: l2))
    with (if decide (R (f x) (f y)) then f x :: list_merge R (f <$> l1) (f <$> y :: l2)
          else f y :: list_merge R (f <$> x :: l1) (f <$> l2)).
  destruct (decide (R x y)) as [Hxy|Hxy].
  - rewrite decide_True by by apply Rf. rewrite fmap_cons. f_equal. apply IH1.
  - rewrite decide_False by by rewrite Rf. rewrite fmap_cons. f_equal. apply IH2.
Qed.

Lemma merge_list_to_stack_map st l :
  fmap (M := option) (fmap (M := list) f) <$> merge_list_to_stack R st l =
  merge_list_to_stack R (fmap (M := option) (fmap (M := list) f) <$> st) (f <$> l).
Proof.
  revert l. induction st as [|[l'|] st IH]; intros l; cbn; [done | | done]. f_equal. by rewrite IH, list_merge_map.
Qed.

Lemma merge_stack_map st : f <$> merge_stack R st = merge_stack R (fmap (M := option) (fmap (M := list) f) <$> st).
Proof. induction st as [|[l|] st IH]; cbn; [done | by rewrite list_merge_map, IH | done]. Qed.

Lemma merge_sort_map l : f <$> merge_sort R l = merge_sort R (f <$> l).
Proof.
  unfold merge_sort. enough (forall st, f <$> merge_sort_aux R st l =
    merge_sort_aux R (fmap (M := option) (fmap (M := list) f) <$> st) (f <$> l)) as H by apply H.
  induction l as [|x l IH]; intros st; cbn; [apply merge_stack_map |]. by rewrite IH, merge_list_to_stack_map.
Qed.

End SortMap.

Lemma alike_tableActions `{HR : RangeOrder} carry b1 b2 :
  alike b1 b2 -> eraseAction <$> tableActions carry b2 = eraseAction <$> tableActions carry b1.
Proof.
  intros H. unfold tableActions. rewrite !merge_sort_map by (intros a b; unfold action_le; by rewrite !erase_Id). f_equal.
  rewrite <- !list_fmap_compose.
  assert (forall ev a, eraseAction (addCarryover ev a) = addCarryover ev (eraseAction a)) as Ec by (intros ev; by action_cases).
  assert (forall a, emitted b2 a = emitted b1 (eraseAction a)) as Ee.
  { unfold emitted, actionIDProvisional. alike_rewrite H. by action_cases. }
  assert (forall a, emitted b1 a = emitted b1 (eraseAction a)) as Ee' by (by action_cases).
  pose proof H as H'. alike_rewrite H.
  generalize (if carry then concat (rangeOrder (tb_bufferedExternalEvents b1)).*2 else []) as ev. intros ev.
  induction (rangeOrder (tb_pendingActions b1)) as [|[id p] l IH]; cbn; [done |].
  pose proof (alike_action _ _ p H') as E. unfold getAction in *. cbn.
  destruct (h_actions (tb_heap b1) !! p) as [a1|], (h_actions (tb_heap b2) !! p) as [a2|]; [| done | done | exact IH].
  apply Some_inj in E. rewrite !filter_cons, Ee, E, <- Ee'. case_decide; [| exact IH].
  rewrite !fmap_cons. f_equal; [| exact IH]. cbn. by rewrite !Ec, E.
Qed.
