(* ===== verification/TaskLike.v ===== *)
(** * Programs that agree

    Two contexts are alike when they agree up to fresh execution ids, and two programs
    agree when they make the same choices in alike contexts.  The methods of the context
    agree with themselves, retries and patches included, and so do workflow functions that
    use them deterministically ([oblivious]). *)

From stdpp Require Import base list option strings gmap sorting.
From Stdlib Require Import ZArith Lia.
From S2P Require Import Prelude Errors Protos Dedup Propagation Helpers TaskRegistry TaskTable TaskProgram.
From S2P Require Import TaskMethods TaskExecutor TaskGuard TaskTotal TaskPreserve TaskInv TaskMachine TaskErase.

Section Like.
Context `{HF : Float64} `{HM : Marshaler}.

(** ** Contexts that agree *)

(** Two ways to compare contexts.  With [full] the histories are the same.  Otherwise the
    second history is longer and differs in the event at [mark], the marker of the turn,
    where the second has the patches [known] on record; child workflows with retry
    policies are left out. *)
Context {full : bool} {mark : nat} {known : gset string}.

Definition histories (h1 h2 : list HistoryEvent) : Prop :=
  if full then h2 = h1 /\ (length (omap GetExecutionStarted h1) <= 1)%nat
  else (mark < length h1 <= length h2)%nat /\ forall i e, i <> mark -> h1 !! i = Some e -> h2 !! i = Some e.

(** The patches on record that the second context has read more than the first, at [index]. *)
Definition ahead (index : nat) : gset string := if full || (index <=? mark)%nat then ∅ else known.

Record patchesAlike (index : nat) (p1 p2 : Patches) : Prop := {
  pk_applied : pa_applied p2 = pa_applied p1;
  pk_encountered : pa_encountered p2 = pa_encountered p1;
  pk_history : pa_history p2 = ahead index ∪ pa_history p1
}.

(** The first run has given an answer that is not the one on record. *)
Definition lost (c : WorkflowContext) : Prop :=
  full = false /\
  ((exists x, x ∈ pa_encountered (wc_patches c) /\ x ∉ known) \/
   (exists x, x ∈ known /\ pa_applied (wc_patches c) !! x = Some false)).

Definition eraseRetry (rt : retryTask) : retryTask :=
  mkRetryTask (rt_chain rt) (rt_current rt) "" "" (rt_retryCount rt) (rt_finished rt) (rt_terminalError rt).

Definition activityChain (chain : retryChain) : Prop :=
  match rc_schedule chain with SchedActivity _ _ => True | SchedChild _ _ _ => False end.
Definition chainOk (chain : retryChain) : Prop := full = true \/ activityChain chain.

Record retryAlike (r1 r2 : RetryHeap) : Prop := {
  ra_next : rh_next r2 = rh_next r1;
  ra_cells : rh_cells r2 = rh_cells r1;
  ra_tasks : forall r, eraseRetry <$> rh_tasks r2 !! r = eraseRetry <$> rh_tasks r1 !! r;
  ra_chains : forall r rt, rh_tasks r1 !! r = Some rt -> chainOk (rt_chain rt)
}.

(** Equal up to execution ids and the UUID source, at the same place. *)
Record like (c1 c2 : WorkflowContext) : Prop := {
  lk_ID : wc_ID c2 = wc_ID c1;
  lk_Name : wc_Name c2 = wc_Name c1;
  lk_VersionName : wc_VersionName c2 = wc_VersionName c1;
  lk_CurrentTimeUtc : wc_CurrentTimeUtc c2 = wc_CurrentTimeUtc c1;
  lk_rawInput : wc_rawInput c2 = wc_rawInput c1;
  lk_propagated : wc_propagatedHistory c2 = wc_propagatedHistory c1;
  lk_report : wc_report c2 = wc_report c1;
  lk_table : alike (wc_table c1) (wc_table c2);
  lk_index : cu_historyIndex (wc_cursor c2) = cu_historyIndex (wc_cursor c1);
  lk_suspended : cu_suspendedEvents (wc_cursor c2) = cu_suspendedEvents (wc_cursor c1);
  lk_isSuspended : cu_isSuspended (wc_cursor c2) = cu_isSuspended (wc_cursor c1);
  lk_isTerminated : cu_isTerminated (wc_cursor c2) = cu_isTerminated (wc_cursor c1);
  lk_history : histories (historyOf c1) (historyOf c2);
  lk_patches : patchesAlike (cu_historyIndex (wc_cursor c1)) (wc_patches c1) (wc_patches c2);
  lk_retries : retryAlike (wc_retries c1) (wc_retries c2)
}.

Lemma like_set_table b1 b2 c1 c2 : alike b1 b2 -> like c1 c2 -> like (set_table b1 c1) (set_table b2 c2).
Proof. intros Hb []. by split. Qed.
Lemma like_set_report r c1 c2 : like c1 c2 -> like (set_report r c1) (set_report r c2).
Proof. intros []. by split. Qed.
Lemma like_set_world w1 w2 c1 c2 : like c1 c2 -> like (set_world w1 c1) (set_world w2 c2).
Proof. intros []. by split. Qed.

(** ** Programs that agree *)

Inductive psim {A B} (R : A -> B -> Prop) : Prog A -> Prog B -> Prop :=
| psim_ret a b : R a b -> psim R (PRet a) (PRet b)
| psim_panic msg : psim R (PPanic msg) (PPanic msg)
| psim_get k1 k2 : (forall c1 c2, like c1 c2 -> psim R (k1 c1) (k2 c2)) -> psim R (PGet k1) (PGet k2)
| psim_put c1 c2 k1 k2 : like c1 c2 -> psim R k1 k2 -> psim R (PPut c1 k1) (PPut c2 k2)
| psim_await p k1 k2 : (forall e, psim R (k1 e) (k2 e)) -> psim R (PAwait p k1) (PAwait p k2)
| psim_lost c1 k1 m2 : lost c1 -> psim R (PPut c1 k1) m2.

Lemma psim_bind {A B C D} (R : A -> B -> Prop) (S : C -> D -> Prop) m1 m2 f1 f2 :
  psim R m1 m2 -> (forall a b, R a b -> psim S (f1 a) (f2 b)) -> psim S (mbind f1 m1) (mbind f2 m2).
Proof. intros Hm Hf. induction Hm; cbn; [by apply Hf | constructor; auto ..]. Qed.

Lemma psim_asks {A B} (R : A -> B -> Prop) f1 f2 :
  (forall c1 c2, like c1 c2 -> R (f1 c1) (f2 c2)) -> psim R (asks f1) (asks f2).
Proof. intros H. constructor. intros c1 c2 Hc. constructor. auto. Qed.

Lemma psim_onT {A} (f1 f2 : Table -> A * Table) :
  (forall b1 b2, alike b1 b2 -> (f2 b2).1 = (f1 b1).1 /\ alike (f1 b1).2 (f2 b2).2) -> psim eq (onT f1) (onT f2).
Proof.
  intros H. constructor. intros c1 c2 Hc. destruct (H _ _ (lk_table _ _ Hc)) as [E Ha].
  destruct (f1 (wc_table c1)) as [a1 b1], (f2 (wc_table c2)) as [a2 b2]. cbn in E, Ha. subst.
  constructor; [by apply like_set_table | by constructor].
Qed.

Lemma psim_modC f1 f2 : (forall c1 c2, like c1 c2 -> like (f1 c1) (f2 c2)) -> psim eq (modC f1) (modC f2).
Proof. intros H. constructor. intros c1 c2 Hc. constructor; [auto | by constructor]. Qed.

Lemma psim_NewUUID : psim (fun _ _ => True) NewUUID NewUUID.
Proof.
  constructor. intros c1 c2 Hc. destruct (newUUID (wc_world c1)), (newUUID (wc_world c2)).
  constructor; [by apply like_set_world | by constructor].
Qed.

Lemma psim_taskAt p : psim (fun t1 t2 => eraseTask t2 = eraseTask t1) (taskAt p) (taskAt p).
Proof.
  apply psim_asks. intros c1 c2 Hc.
  by destruct (alike_case _ _ p (lk_table _ _ Hc)) as [(t1 & t2 & -> & -> & E) | [-> ->]].
Qed.

Lemma psim_awaitC p v : psim eq (awaitC p v) (awaitC p v).
Proof.
  unfold awaitC. apply (psim_bind eq); [constructor; intros e; by constructor |]. intros e ? <-.
  destruct e as [e|]; [by constructor |]. eapply psim_bind; [apply psim_taskAt |].
  intros t1 t2 (_ & _ & _ & _ & E)%erased_task. rewrite E. by case_match; constructor.
Qed.

(** ** Deterministic workflow functions *)

(** Tasks that may be awaited. *)
Definition taskOk (t : Task) : Prop :=
  match t with TaskC _ | TaskR _ => True | TaskW chain _ _ => chainOk chain end.

(** The function does not look at [IsReplaying] or at execution ids; its tasks are those
    its calls returned.  Without [full] it gives child workflows no retry policies. *)
Fixpoint oblivious (w : Workflow) : Prop :=
  match w with
  | WReturn _ _ | WPanic _ => True
  | WInfo k =>
      (forall i b, k (mkWfInfo (in_ID i) (in_Name i) (in_VersionName i) b (in_CurrentTimeUtc i)) = k i) /\
      forall i, oblivious (k i)
  | WGetInput k => forall i, oblivious (k i)
  | WGetPropagatedHistory k => forall i, oblivious (k i)
  | WSetCustomStatus _ k => oblivious k
  | WCallActivity _ _ k => forall t, taskOk t -> oblivious (k t)
  | WCallChildWorkflow _ opts k =>
      (forall o, applyOptions opts (mkCallChildWorkflowOptions "" None None None None None) = inl o ->
         full = true \/ wo_retryPolicy o = None) /\
      forall t, taskOk t -> oblivious (k t)
  | WCreateTimer _ _ k | WWaitForSingleEvent _ _ k => forall t, taskOk t -> oblivious (k t)
  | WScheduleNewWorkflow _ _ k => forall r, oblivious (k r)
  | WContinueAsNew _ _ k => oblivious k
  | WIsPatched _ k => forall b, oblivious (k b)
  | WAwait t _ k => taskOk t /\ forall r, oblivious (k r)
  | WTaskExecutionId _ _ => False
  end.

Variable ToUpper : string -> string.
Variables errorTypeName errorText : error -> string.

(** The methods return the same task in both contexts. *)
Definition sameTask (t1 t2 : Task) : Prop := t2 = t1 /\ taskOk t1.

Lemma sameTask_plain p : sameTask (TaskC p) (TaskC p).
Proof. by split. Qed.

Lemma psim_newFailedTask fd : psim sameTask (newFailedTask fd) (newFailedTask fd).
Proof.
  unfold newFailedTask. constructor. intros c1 c2 Hc.
  destruct (alike_allocTask (newTask KindNone) _ _ (lk_table _ _ Hc)) as [E Ha].
  destruct (allocTask _ (wc_table c1)) as [p1 b1], (allocTask _ (wc_table c2)) as [p2 b2]. cbn in E, Ha. subst.
  constructor; [apply like_set_table; auto with alike | constructor; apply sameTask_plain].
Qed.

Lemma psim_validate a b x y z :
  psim (fun o1 o2 => match o1, o2 with Some t1, Some t2 => sameTask t1 t2 | None, None => True | _, _ => False end)
    (validateAppNamespaceRequiresAppID a b x y z) (validateAppNamespaceRequiresAppID a b x y z).
Proof.
  unfold validateAppNamespaceRequiresAppID. repeat case_match; try (by constructor).
  eapply psim_bind; [apply psim_newFailedTask |]. intros t1 t2 Ht. by constructor.
Qed.

Lemma psim_plain (m1 m2 : Prog nat) :
  psim eq m1 m2 -> psim sameTask (p ← m1; mret (TaskC p)) (p ← m2; mret (TaskC p)).
Proof. intros Hm. eapply psim_bind; [exact Hm |]. intros p ? <-. constructor. apply sameTask_plain. Qed.

Lemma psim_createTimer name delay : psim (eq (A := nat * nat)) (createTimer name delay) (createTimer name delay).
Proof.
  unfold createTimer. apply (psim_bind eq); [apply psim_asks; by intros c1 c2 [] |]. intros now ? <-.
  apply psim_onT. intros b1 b2 Hb. destruct (alike_createTimerInternal now name delay b1 b2 Hb) as [E Ha].
  by destruct (createTimerInternal _ _ _ b1) as [[p1 a1] d1], (createTimerInternal _ _ _ b2) as [[p2 a2] d2].
Qed.

Lemma psim_activity name u1 u2 o : psim eq (internalScheduleActivity name u1 o) (internalScheduleActivity name u2 o).
Proof. apply psim_onT. intros b1 b2 Hb. by apply (alike_scheduleRegister _ _ _ (fun _ => newTask KindTask)). Qed.

Lemma psim_child name o r : psim eq (internalCallChildWorkflow name o r) (internalCallChildWorkflow name o r).
Proof.
  apply psim_onT. intros b1 b2 Hb. by apply (alike_scheduleRegister _ _ _ (fun a => set_childAction a (newTask KindChild))).
Qed.

(** *** Retries *)

Lemma like_set_retries h1 h2 c1 c2 : retryAlike h1 h2 -> like c1 c2 -> like (set_retries h1 c1) (set_retries h2 c2).
Proof. intros Hh []. by split. Qed.

Lemma psim_getCell cell : psim eq (getCell cell) (getCell cell).
Proof. apply psim_asks. intros c1 c2 [_ E _ _]%lk_retries. by rewrite E. Qed.

Lemma psim_putCell cell v : psim eq (putCell cell v) (putCell cell v).
Proof.
  apply psim_modC. intros c1 c2 Hc. pose proof (lk_retries _ _ Hc) as [E1 E2 E3 E4].
  apply like_set_retries; [| done]. split; cbn; [done | by rewrite E2 | done | done].
Qed.

Lemma psim_newCell v : psim eq (newCell v) (newCell v).
Proof.
  constructor. intros c1 c2 Hc. pose proof (lk_retries _ _ Hc) as [E1 E2 E3 E4].
  constructor; [| constructor; by rewrite E1]. apply like_set_retries; [| done]. split; cbn; [by rewrite E1 | by rewrite E1, E2 | done | done].
Qed.

Lemma psim_getRetry r :
  psim (fun o1 o2 => eraseRetry <$> o2 = eraseRetry <$> o1 /\ forall rt, o1 = Some rt -> chainOk (rt_chain rt)) (getRetry r) (getRetry r).
Proof. apply psim_asks. intros c1 c2 [_ _ E Hc]%lk_retries. split; [apply E | apply Hc]. Qed.

Lemma insert_alike r v1 v2 (m1 m2 : gmap nat retryTask) q :
  eraseRetry v2 = eraseRetry v1 -> (forall r, eraseRetry <$> m2 !! r = eraseRetry <$> m1 !! r) ->
  eraseRetry <$> <[r := v2]> m2 !! q = eraseRetry <$> <[r := v1]> m1 !! q.
Proof.
  intros Ev Hm. destruct (decide (r = q)) as [-> |]; [rewrite !lookup_insert_eq; cbn; by rewrite Ev | by rewrite !lookup_insert_ne].
Qed.

Lemma insert_chains r v (m : gmap nat retryTask) :
  chainOk (rt_chain v) -> (forall q rt, m !! q = Some rt -> chainOk (rt_chain rt)) ->
  forall q rt, <[r := v]> m !! q = Some rt -> chainOk (rt_chain rt).
Proof. intros Hv Hm q rt [[_ <-] | [_ ?]]%lookup_insert_Some; [done | by eapply Hm]. Qed.

Lemma psim_putRetry r v1 v2 :
  eraseRetry v2 = eraseRetry v1 -> chainOk (rt_chain v1) -> psim eq (putRetry r v1) (putRetry r v2).
Proof.
  intros Ev Hv. apply psim_modC. intros c1 c2 Hc. pose proof (lk_retries _ _ Hc) as [E1 E2 E3 E4].
  apply like_set_retries; [| done]. split; cbn; [done | done | | by apply insert_chains]. intros q. by apply insert_alike.
Qed.

Lemma psim_newRetry v1 v2 :
  eraseRetry v2 = eraseRetry v1 -> chainOk (rt_chain v1) -> psim eq (newRetry v1) (newRetry v2).
Proof.
  intros Ev Hv. constructor. intros c1 c2 Hc. pose proof (lk_retries _ _ Hc) as [E1 E2 E3 E4].
  constructor; [| constructor; by rewrite E1]. apply like_set_retries; [| done].
  split; cbn; [by rewrite E1 | done | | by apply insert_chains]. intros q. rewrite E1. by apply insert_alike.
Qed.

Lemma psim_schedule s u1 u2 isRetry : psim eq (schedule s u1 isRetry) (schedule s u2 isRetry).
Proof.
  destruct s as [name o | name o cell]; cbn [schedule]; [apply psim_activity |].
  apply (psim_bind eq); [apply psim_getCell |]. intros v ? <-. destruct isRetry; [apply psim_child |].
  apply (psim_bind eq); [apply psim_child |]. intros p ? <-. apply (psim_bind eq); [apply psim_putCell |]. intros _ _ _. by constructor.
Qed.

(** The origin of a retry timer: the execution id in it is not compared. *)
Lemma psim_originActivity action e1 e2 :
  psim eq (modT (setTimerOriginAt (Origin_ActivityRetry e1) action)) (modT (setTimerOriginAt (Origin_ActivityRetry e2) action)).
Proof.
  apply psim_modC. intros c1 c2 Hc. apply like_set_table; [| done]. apply alike_modAction2; [| apply (lk_table _ _ Hc)].
  intros [i1 [[]|] r1] [i2 [[]|] r2] E; cbn in E |- *; try done; by inversion E.
Qed.

Lemma psim_originChild action first :
  psim eq (modT (setTimerOriginAt (Origin_ChildWorkflowRetry first) action)) (modT (setTimerOriginAt (Origin_ChildWorkflowRetry first) action)).
Proof.
  apply psim_modC. intros c1 c2 Hc. apply like_set_table; [| done]. apply alike_modAction; [| apply (lk_table _ _ Hc)].
  by action_cases.
Qed.

(** The first child of a chain, as the history and the table have it. *)
Definition firstChild (v : childCell) (c : WorkflowContext) : string :=
  let b := wc_table c in
  let cu := wc_cursor c in
  let firstTask := cell_firstTask v ≫= fun p => getTask p b in
  let first := match firstTask with
               | Some t => if String.eqb (ct_childInstanceID t) "" then cell_firstInstanceID v else ct_childInstanceID t
               | None => cell_firstInstanceID v
               end in
  match (firstTask ≫= ct_childAction) ≫= fun a => getAction a b with
  | Some act => recordedChildID (wa_Id act) (cu_oldEvents cu ++ cu_newEvents cu) first
  | None => first
  end.

Lemma like_full c1 c2 : full = true -> like c1 c2 ->
  historyOf c2 = historyOf c1 /\ (length (omap GetExecutionStarted (historyOf c1)) <= 1)%nat.
Proof. intros Hf Hc. pose proof (lk_history _ _ Hc) as H. unfold histories in H. by rewrite Hf in H. Qed.

Lemma firstChild_like v c1 c2 : full = true -> like c1 c2 -> firstChild v c2 = firstChild v c1.
Proof.
  intros Hf Hc. unfold firstChild. pose proof (like_full c1 c2 Hf Hc) as [Eh _]. unfold historyOf in Eh. rewrite Eh.
  pose proof (lk_table _ _ Hc) as Ha. destruct (cell_firstTask v) as [p|]; cbn [mbind option_bind]; [| done].
  pose proof (alike_read ct_childInstanceID _ _ p ltac:(done) Ha) as E1.
  pose proof (alike_read ct_childAction _ _ p ltac:(done) Ha) as E2.
  destruct (getTask p (wc_table c1)) as [t1|], (getTask p (wc_table c2)) as [t2|]; cbn in E1, E2 |- *; try done. simplify_eq.
  rewrite E1, E2. destruct (ct_childAction t1) as [a|]; cbn [mbind option_bind]; [| done].
  pose proof (alike_readAction wa_Id _ _ a ltac:(by action_cases) Ha) as E3.
  destruct (getAction a (wc_table c1)), (getAction a (wc_table c2)); cbn in E3; try done. by injection E3 as ->.
Qed.

Lemma psim_setTimerOrigin chain action e1 e2 :
  chainOk chain -> psim eq (setTimerOrigin (rc_schedule chain) action e1) (setTimerOrigin (rc_schedule chain) action e2).
Proof.
  unfold chainOk, activityChain. destruct (rc_schedule chain) as [name o | name o cell]; cbn [setTimerOrigin]; [intros _; apply psim_originActivity |].
  intros [Hf | []].
  apply (psim_bind eq); [apply psim_getCell |]. intros v ? <-. apply (psim_bind like); [apply psim_asks; auto |]. intros c1 c2 Hc.
  change (psim eq (putCell cell (mkChildCell (firstChild v c1) (cell_firstTask v));; modT (setTimerOriginAt (Origin_ChildWorkflowRetry (firstChild v c1)) action))
    (putCell cell (mkChildCell (firstChild v c2) (cell_firstTask v));; modT (setTimerOriginAt (Origin_ChildWorkflowRetry (firstChild v c2)) action))).
  rewrite (firstChild_like v c1 c2 Hf Hc). apply (psim_bind eq); [apply psim_putCell |]. intros _ _ _. apply psim_originChild.
Qed.

Lemma psim_backOff chain delay e1 e2 : chainOk chain -> psim eq (backOff chain delay e1) (backOff chain delay e2).
Proof.
  intros Hk. unfold backOff. apply (psim_bind (eq (A := nat * nat))); [apply psim_createTimer |]. intros [timer action] ? <-.
  apply (psim_bind eq); [by apply psim_setTimerOrigin |]. intros _ _ _. apply psim_awaitC.
Qed.

Lemma erased_retry r1 r2 : eraseRetry r2 = eraseRetry r1 ->
  rt_chain r2 = rt_chain r1 /\ rt_current r2 = rt_current r1 /\ rt_retryCount r2 = rt_retryCount r1 /\
  rt_finished r2 = rt_finished r1 /\ rt_terminalError r2 = rt_terminalError r1.
Proof. unfold eraseRetry. intros E. by inversion E. Qed.

Lemma erase_finishRetry err r1 r2 : eraseRetry r2 = eraseRetry r1 -> eraseRetry (finishRetry err r2) = eraseRetry (finishRetry err r1).
Proof. intros (H1 & H2 & H3 & H4 & H5)%erased_retry. unfold eraseRetry, finishRetry. cbn. congruence. Qed.

Lemma erase_nextAttempt p r1 r2 : eraseRetry r2 = eraseRetry r1 -> eraseRetry (nextAttempt p r2) = eraseRetry (nextAttempt p r1).
Proof. intros (H1 & H2 & H3 & H4 & H5)%erased_retry. unfold eraseRetry, nextAttempt. cbn. congruence. Qed.

Lemma erase_observeAttempt t rt : eraseRetry (observeAttempt t rt) = eraseRetry rt.
Proof. unfold observeAttempt. by case_match. Qed.

(** Every exit of the loop puts the task back. *)
Lemma psim_retryLoop fuel r : psim eq (retryLoop errorText fuel r) (retryLoop errorText fuel r).
Proof.
  induction fuel as [|fuel IH]; cbn [retryLoop]; [by constructor |].
  eapply psim_bind; [apply psim_getRetry |]. intros [r1|] [r2|] [E Hok]; try done; [| by constructor]. apply Some_inj in E.
  specialize (Hok r1 eq_refl).
  pose proof E as (Ec & Ep & En & Ef & Et)%erased_retry. rewrite Ec, Ep, Ef. destruct (rt_finished r1); [by constructor |].
  apply (psim_bind eq); [apply psim_awaitC |]. intros err ? <-. destruct err as [raw|err]; [by apply psim_putRetry; [apply erase_finishRetry |] |].
  eapply psim_bind; [apply psim_taskAt |]. intros t1 t2 Ht. pose proof Ht as (Ecomp & _)%erased_task. rewrite Ecomp.
  destruct (negb (ct_isCompleted t1)); [by apply psim_putRetry; [apply erase_finishRetry |] |].
  assert (eraseRetry (observeAttempt t2 r2) = eraseRetry (observeAttempt t1 r1)) as Eo by by rewrite !erase_observeAttempt.
  assert (chainOk (rt_chain (observeAttempt t1 r1))) as Hok1 by (unfold observeAttempt; by case_match).
  pose proof Eo as (Oc & Op & On & Of & Ot)%erased_retry.
  apply (psim_bind eq); [by apply psim_putRetry |]. intros _ _ _. rewrite On. case_match; [by apply psim_putRetry; [apply erase_finishRetry |] |].
  apply (psim_bind eq); [apply psim_asks; by intros c1 c2 [] |]. intros now ? <-. case_match; [by apply psim_putRetry; [apply erase_finishRetry |] |].
  apply (psim_bind eq); [by apply psim_backOff |]. intros timerErr ? <-. destruct timerErr; [| by apply psim_putRetry; [apply erase_finishRetry |]].
  apply (psim_bind eq); [apply psim_schedule |]. intros p ? <-. apply (psim_bind eq); [by apply psim_putRetry; [apply erase_nextAttempt |] |].
  intros _ _ _. apply IH.
Qed.

Lemma psim_awaitRetry r v : psim eq (awaitRetry errorText r v) (awaitRetry errorText r v).
Proof.
  unfold awaitRetry. eapply psim_bind; [apply psim_getRetry |]. intros [r1|] [r2|] [E _]; try done; [| by constructor].
  apply Some_inj in E as (Ec & _)%erased_retry. rewrite Ec. apply (psim_bind eq); [apply psim_retryLoop |]. intros _ _ _.
  eapply psim_bind; [apply psim_getRetry |]. clear r1 r2 Ec. intros [r1|] [r2|] [E _]; try done; [| by constructor].
  apply Some_inj in E as (_ & Ep & _ & _ & Et)%erased_retry. rewrite Et, Ep. case_match; [by constructor | apply psim_awaitC].
Qed.

Lemma psim_awaitLegacy fuel chain p n v :
  chainOk chain -> psim eq (awaitLegacy errorText fuel chain p n v) (awaitLegacy errorText fuel chain p n v).
Proof.
  intros Hok. revert p n. induction fuel as [|fuel IH]; intros p n; cbn [awaitLegacy]; [by constructor |].
  apply (psim_bind eq); [apply psim_awaitC |]. intros err ? <-. eapply psim_bind; [apply psim_taskAt |]. intros t1 t2 _.
  destruct err as [raw|err]; [by constructor |]. case_match; [by constructor |].
  apply (psim_bind eq); [apply psim_asks; by intros c1 c2 [] |]. intros now ? <-. case_match; [by constructor |].
  apply (psim_bind eq); [by apply psim_backOff |]. intros timerErr ? <-. destruct timerErr; [| by constructor].
  apply (psim_bind eq); [apply psim_schedule |]. intros q ? <-. apply IH.
Qed.

(** *** Patches *)

Lemma like_set_patches p1 p2 c1 c2 :
  patchesAlike (cu_historyIndex (wc_cursor c1)) p1 p2 -> like c1 c2 -> like (set_patches p1 c1) (set_patches p2 c2).
Proof. intros Hp []. by split. Qed.

(** The end of the history, for a context whose history may go on. *)
Lemma like_atEnd c1 c2 : like c1 c2 ->
  let n c := (length (cu_oldEvents (wc_cursor c)) + length (cu_newEvents (wc_cursor c)))%nat in
  (full = true -> n c2 = n c1) /\ (full = false -> (mark < n c1 <= n c2)%nat).
Proof.
  intros Hc n. pose proof (lk_history _ _ Hc) as H. unfold histories, historyOf in H. unfold n. rewrite <- !length_app.
  split; intros Hf; rewrite Hf in H; [by destruct H as [-> _] | apply H].
Qed.

(** What a context answers, and what it then remembers. *)
Definition answers (x : string) (c : WorkflowContext) : bool :=
  match pa_applied (wc_patches c) !! x with
  | Some v => v
  | None => bool_decide (x ∈ pa_history (wc_patches c)) ||
      negb (cu_historyIndex (wc_cursor c) <? length (cu_oldEvents (wc_cursor c)) + length (cu_newEvents (wc_cursor c)))%nat
  end.
Definition answered (x : string) (v : bool) (p : Patches) : Patches :=
  mkPatches (pa_history p) (<[x := v]> (pa_applied p)) (pa_encountered p ++ (if v then [x] else [])).

Lemma isPatchedIn_answers x c :
  isPatchedIn x c = (answers x c, set_patches (mkPatches (pa_history (wc_patches c)) (<[x := answers x c]> (pa_applied (wc_patches c)))
    (pa_encountered (wc_patches c))) c).
Proof.
  unfold isPatchedIn, answers. destruct (pa_applied (wc_patches c) !! x) as [v|] eqn:E.
  - rewrite insert_id by done. by destruct c as [? ? ? ? ? ? ? ? [] ? ? ?].
  - by repeat case_match.
Qed.

(** The two contexts give the same answer, unless that of the first is not on record. *)
Lemma answers_agree x c1 c2 :
  like c1 c2 -> answers x c2 = answers x c1 \/ lost (set_patches (answered x (answers x c1) (wc_patches c1)) c1).
Proof.
  intros Hc. pose proof (lk_patches _ _ Hc) as [Pa Pe Ph]. pose proof (like_atEnd c1 c2 Hc) as [Hf Hp]. cbv zeta in Hf, Hp.
  unfold answers. rewrite Pa. destruct (pa_applied (wc_patches c1) !! x) as [v|] eqn:Ea; [by left |].
  rewrite Ph, (lk_index _ _ Hc). unfold ahead.
  set (i := cu_historyIndex (wc_cursor c1)) in *.
  set (n1 := (length (cu_oldEvents (wc_cursor c1)) + length (cu_newEvents (wc_cursor c1)))%nat) in *.
  set (n2 := (length (cu_oldEvents (wc_cursor c2)) + length (cu_newEvents (wc_cursor c2)))%nat) in *.
  destruct full eqn:Efull; cbn [orb].
  { left. rewrite union_empty_l_L. by rewrite (Hf eq_refl). }
  specialize (Hp eq_refl). destruct (decide (x ∈ pa_history (wc_patches c1))) as [Hx | Hx].
  { left. rewrite !bool_decide_true by set_solver. done. }
  rewrite (bool_decide_false _ Hx). cbn [orb].
  destruct (Nat.ltb_spec i n1) as [Hi | Hi]; cbn [negb].
  - destruct (decide (x ∈ known /\ mark < i)%nat) as [[Hk Hm] | Hn].
    + right. split; [done |]. right. exists x. split; [done |]. cbn. apply lookup_insert_eq.
    + left. rewrite bool_decide_false; [| destruct (Nat.leb_spec i mark); [set_solver |]; intros ?; apply Hn; set_solver].
      by assert ((i <? n2)%nat = true) as -> by (apply Nat.ltb_lt; lia).
  - destruct (Nat.leb_spec i mark) as [? | Hm]; [lia |]. destruct (decide (x ∈ known)) as [Hk | Hk].
    + left. by rewrite bool_decide_true by set_solver.
    + right. split; [done |]. left. exists x. split; [cbn; set_solver | done].
Qed.

Lemma psim_IsPatched x : psim eq (IsPatched x) (IsPatched x).
Proof.
  constructor. intros c1 c2 Hc. rewrite !isPatchedIn_answers.
  cbn [set_patches wc_patches pa_history pa_applied pa_encountered].
  assert (forall (c : WorkflowContext) v, (if v : bool then set_patches (mkPatches (pa_history (wc_patches c)) (<[x := v]> (pa_applied (wc_patches c)))
      (pa_encountered (wc_patches c) ++ [x])) (set_patches (mkPatches (pa_history (wc_patches c)) (<[x := v]> (pa_applied (wc_patches c)))
      (pa_encountered (wc_patches c))) c)
    else set_patches (mkPatches (pa_history (wc_patches c)) (<[x := v]> (pa_applied (wc_patches c))) (pa_encountered (wc_patches c))) c) =
    set_patches (answered x v (wc_patches c)) c) as Hput.
  { intros c []; unfold answered; cbn; by rewrite ?app_nil_r. }
  rewrite !Hput. destruct (answers_agree x c1 c2 Hc) as [-> | Hl]; [| by apply psim_lost].
  constructor; [| by constructor]. apply like_set_patches; [| done]. pose proof (lk_patches _ _ Hc) as [Pa Pe Ph].
  unfold answered. split; cbn; [by rewrite Pa | by rewrite Pe | done].
Qed.

Lemma psim_withRetries chain u1 u2 :
  chainOk chain -> psim sameTask (internalScheduleTaskWithRetries chain u1) (internalScheduleTaskWithRetries chain u2).
Proof.
  intros Hok. unfold internalScheduleTaskWithRetries. apply (psim_bind eq).
  { apply psim_asks. intros c1 c2 [Ep _ _]%lk_patches. by rewrite Ep. }
  intros applied ? <-. apply (psim_bind eq); [destruct applied; [by constructor | apply psim_IsPatched] |]. intros patched ? <-.
  apply (psim_bind eq); [apply psim_schedule |]. intros p ? <-. destruct patched; [| by constructor].
  apply (psim_bind eq); [by apply psim_newRetry |]. intros r ? <-. by constructor.
Qed.

(** With one start event, its execution id does not depend on the split. *)
Lemma startID_split old new :
  (length (omap GetExecutionStarted (old ++ new)) <= 1)%nat ->
  match firstStartID new with Some x => x | None => default "" (firstStartID old) end = default "" (firstStartID (old ++ new)).
Proof.
  unfold firstStartID. rewrite omap_app. destruct (omap GetExecutionStarted old) as [|a l]; cbn.
  - intros _. by destruct (omap GetExecutionStarted new).
  - destruct (omap GetExecutionStarted new) as [|b l']; cbn; [done |]. rewrite length_app. cbn. lia.
Qed.

Lemma psim_retriedChild name o policy :
  full = true ->
  let m := c ← asks id;
    let cu := wc_cursor c in
    let executionID := match firstStartID (cu_newEvents cu) with Some x => x | None => default "" (firstStartID (cu_oldEvents cu)) end in
    let firstInstanceID := if String.eqb (wo_instanceID o) ""
      then GenerateChildWorkflowInstanceIDForExecution (wc_ID c) executionID (tb_sequenceNumber (wc_table c)) else wo_instanceID o in
    cell ← newCell (mkChildCell firstInstanceID None);
    u ← NewUUID;
    internalScheduleTaskWithRetries (mkRetryChain (name +:+ "-retry") (wc_CurrentTimeUtc c) (SchedChild name o cell) policy) u in
  psim sameTask m m.
Proof.
  intros Hf m. apply (psim_bind like); [apply psim_asks; auto |]. intros c1 c2 Hc. cbv zeta.
  pose proof (like_full c1 c2 Hf Hc) as [Eh Hs]. unfold historyOf in *.
  rewrite !startID_split by (done || by rewrite Eh). rewrite Eh, (lk_ID _ _ Hc), (lk_CurrentTimeUtc _ _ Hc).
  pose proof (lk_table _ _ Hc) as Ha. alike_rewrite Ha.
  apply (psim_bind eq); [apply psim_newCell |]. intros cell ? <-. eapply psim_bind; [apply psim_NewUUID |]. intros u1 u2 _. apply psim_withRetries. by left.
Qed.

Lemma psim_CallActivity name opts :
  psim sameTask (CallActivity errorTypeName errorText name opts) (CallActivity errorTypeName errorText name opts).
Proof.
  unfold CallActivity. destruct (applyOptions _ _) as [o|err]; [| apply psim_newFailedTask].
  eapply psim_bind; [apply psim_validate |]. intros [t1|] [t2|] Ht; [by constructor | done | done |].
  destruct (ao_retryPolicy o) as [policy|].
  - apply (psim_bind eq); [apply psim_asks; by intros c1 c2 [] |]. intros now ? <-.
    eapply psim_bind; [apply psim_NewUUID |]. intros u1 u2 _. apply psim_withRetries. by right.
  - eapply psim_bind; [apply psim_NewUUID |]. intros u1 u2 _. apply psim_plain, psim_activity.
Qed.

Lemma psim_CallChildWorkflow name opts :
  (forall o, applyOptions opts (mkCallChildWorkflowOptions "" None None None None None) = inl o ->
     full = true \/ wo_retryPolicy o = None) ->
  psim sameTask (CallChildWorkflow errorTypeName errorText name opts) (CallChildWorkflow errorTypeName errorText name opts).
Proof.
  intros Ho. unfold CallChildWorkflow. destruct (applyOptions _ _) as [o|err]; [| apply psim_newFailedTask].
  eapply psim_bind; [apply psim_validate |]. intros [t1|] [t2|] Ht; [by constructor | done | done |].
  specialize (Ho o eq_refl). destruct (wo_retryPolicy o) as [policy|]; [| apply psim_plain, psim_child].
  apply psim_retriedChild. by destruct Ho.
Qed.

Lemma psim_Await t v : taskOk t -> psim eq (Await errorText t v) (Await errorText t v).
Proof.
  destruct t as [p | chain p n | r]; cbn [Await taskOk]; intros Ht; [apply psim_awaitC | by apply psim_awaitLegacy | apply psim_awaitRetry].
Qed.

Lemma psim_CreateTimer delay opts :
  psim sameTask (CreateTimer errorTypeName errorText delay opts) (CreateTimer errorTypeName errorText delay opts).
Proof.
  unfold CreateTimer. destruct (applyOptions _ _) as [name|err]; [| apply psim_newFailedTask].
  apply (psim_bind (eq (A := nat * nat))).
  - apply psim_createTimer.
  - intros [p a] ? <-. constructor. apply sameTask_plain.
Qed.

Lemma psim_wait name timeout : psim sameTask (waitForSingleEvent ToUpper name timeout) (waitForSingleEvent ToUpper name timeout).
Proof.
  unfold waitForSingleEvent. apply (psim_bind eq); [apply psim_asks; by intros c1 c2 [] |]. intros now ? <-.
  apply psim_plain, psim_onT. intros b1 b2 Hb. by apply alike_WaitForSingleEvent.
Qed.

Lemma psim_detached ty r (i : string) :
  eraseAction (mkWorkflowAction 0 (Some ty) r) = mkWorkflowAction 0 (Some ty) r ->
  let m := onT (fun b => let '(_, _, b) := scheduleAction ty r b in (inl i : string + error, b)) in psim eq m m.
Proof.
  intros E. apply psim_onT. intros b1 b2 Hb. destruct (alike_scheduleAction ty ty r b1 b2 eq_refl Hb) as [_ Ha].
  destruct (scheduleAction ty r b1) as [[? ?] ?], (scheduleAction ty r b2) as [[? ?] ?]. done.
Qed.

Lemma psim_ScheduleNewWorkflow name opts : psim eq (ScheduleNewWorkflow name opts) (ScheduleNewWorkflow name opts).
Proof.
  unfold ScheduleNewWorkflow. destruct (applyOptions _ _) as [o|err]; [| by constructor].
  destruct (match no_targetAppNamespace o, no_targetAppID o with Some _, None => true | _, _ => false end) eqn:Eb.
  { destruct (no_targetAppNamespace o), (no_targetAppID o); try done. by constructor. }
  assert (forall m : Prog (string + error), psim eq m m -> psim eq
    (match no_targetAppNamespace o, no_targetAppID o with
     | Some _, None => mret (inr (errorNew "WithDetachedWorkflowAppNamespace requires WithDetachedWorkflowAppID to also be set"))
     | _, _ => m end)
    (match no_targetAppNamespace o, no_targetAppID o with
     | Some _, None => mret (inr (errorNew "WithDetachedWorkflowAppNamespace requires WithDetachedWorkflowAppID to also be set"))
     | _, _ => m end)) as Hm by (intros m Hm; destruct (no_targetAppNamespace o), (no_targetAppID o); by try constructor).
  apply Hm. clear Hm. apply (psim_bind like); [apply psim_asks; auto |]. intros c1 c2 Hc.
  rewrite (lk_report _ _ Hc), (lk_ID _ _ Hc).
  destruct (no_instanceID o) as [[|ch s]|]; [by constructor | |].
  - apply (psim_bind eq); [by constructor |]. intros _ _ _. by apply psim_detached.
  - apply (psim_bind eq); [apply psim_modC; intros; by apply like_set_report |]. intros _ _ _. by apply psim_detached.
Qed.

Lemma psim_ContinueAsNew i o : psim eq (ContinueAsNew i o) (ContinueAsNew i o).
Proof. apply psim_modC. intros c1 c2 Hc. rewrite (lk_report _ _ Hc). by apply like_set_report. Qed.

Lemma psim_SetCustomStatus cs : psim eq (SetCustomStatus cs) (SetCustomStatus cs).
Proof. apply psim_modC. intros c1 c2 Hc. rewrite (lk_report _ _ Hc). by apply like_set_report. Qed.

Local Abbreviation denote := (denote ToUpper errorTypeName errorText).

(** A deterministic function agrees with itself. *)
Lemma psim_denote w : oblivious w -> psim eq (denote w) (denote w).
Proof.
  induction w as [o e | msg | k IH | k IH | k IH | cs k IH | name opts k IH | name opts k IH | delay opts k IH
    | name timeout k IH | name opts k IH | i opts k IH | name k IH | t v k IH | t k IH]; cbn [oblivious TaskMethods.denote].
  - by constructor.
  - by constructor.
  - intros [Hk Ho]. apply (psim_bind (fun i1 i2 => i2 = mkWfInfo (in_ID i1) (in_Name i1) (in_VersionName i1)
      (in_IsReplaying i2) (in_CurrentTimeUtc i1))).
    + apply psim_asks. intros c1 c2 []. unfold infoOf. cbn. congruence.
    + intros i1 i2 ->. cbn. rewrite Hk. by apply IH.
  - intros Ho. apply (psim_bind eq); [apply psim_asks; by intros c1 c2 [] |]. intros i ? <-. by apply IH.
  - intros Ho. apply (psim_bind eq); [apply psim_asks; by intros c1 c2 [] |]. intros i ? <-. by apply IH.
  - intros Ho. apply (psim_bind eq); [apply psim_SetCustomStatus |]. intros _ _ _. by apply IH.
  - intros Ho. eapply psim_bind; [apply psim_CallActivity |]. intros t ? [-> Ht]. by apply IH, Ho.
  - intros [Hr Ho]. eapply psim_bind; [by apply psim_CallChildWorkflow |]. intros t ? [-> Ht]. by apply IH, Ho.
  - intros Ho. eapply psim_bind; [apply psim_CreateTimer |]. intros t ? [-> Ht]. by apply IH, Ho.
  - intros Ho. eapply psim_bind; [apply psim_wait |]. intros t ? [-> Ht]. by apply IH, Ho.
  - intros Ho. apply (psim_bind eq); [apply psim_ScheduleNewWorkflow |]. intros r ? <-. by apply IH.
  - intros Ho. apply (psim_bind eq); [apply psim_ContinueAsNew |]. intros _ _ _. by apply IH.
  - intros Ho. apply (psim_bind eq); [by apply psim_IsPatched |]. intros b ? <-. by apply IH.
  - intros [Ht Ho]. apply (psim_bind eq); [by apply psim_Await |]. intros r ? <-. by apply IH.
  - done.
Qed.

(** ** Answers are kept *)

(** The answers of [c] are still those of [c'], and so is what was reported. *)
Definition keepsAnswers (c c' : WorkflowContext) : Prop :=
  (forall x v, pa_applied (wc_patches c) !! x = Some v -> pa_applied (wc_patches c') !! x = Some v) /\
  pa_encountered (wc_patches c) `prefix_of` pa_encountered (wc_patches c').

#[export] Instance keepsAnswers_preorder : PreOrder keepsAnswers.
Proof. split; [done |]. intros x y z [? ?] [? ?]. split; [auto | by etrans]. Qed.

Lemma lost_kept c c' : keepsAnswers c c' -> lost c -> lost c'.
Proof.
  intros [Ha He] [Hf Hl]. split; [done |]. destruct Hl as [(x & Hx & Hn) | (x & Hk & Hx)]; [left | right]; exists x; split; auto.
  by eapply elem_of_prefix.
Qed.

(** Reported patches were answered. *)
Definition reported (c : WorkflowContext) : Prop :=
  forall x, x ∈ pa_encountered (wc_patches c) -> pa_applied (wc_patches c) !! x = Some true.

Lemma contextStep_answers c c' :
  contextStep ToUpper c c' -> keepsAnswers c c' /\ (reported c -> reported c') /\ wc_VersionName c' = wc_VersionName c.
Proof. intros [b _ | | | p [_ Ha He Hr] | |]; by split_and!. Qed.

End Like.
