(* ===== verification/TaskReplay.v ===== *)
(** * Replay

    A workflow function is run again on every turn, from the first event of its
    history.  For functions that use the context deterministically ([oblivious]) the
    decisions of a turn depend on the history alone: not on the fresh execution ids,
    not on where the history is split into old and new events
    ([turns_are_deterministic]).  The lemmas also compare a turn with one on a longer
    history whose turn marker has been stamped, for [TaskRecorded]. *)

From stdpp Require Import base list option strings gmap sorting.
From Stdlib Require Import ZArith Lia.
From S2P Require Import Prelude Errors Protos Dedup Propagation Helpers TaskRegistry TaskTable TaskProgram.
From S2P Require Import TaskMethods TaskExecutor TaskGuard TaskTotal TaskPreserve TaskInv TaskMachine TaskErase TaskLike.

Section Replay.
Context `{HF : Float64} `{HM : Marshaler} `{HR : RangeOrder} `{HC : ProtoCodec}.
Variable ToUpper : string -> string.
Variables errorTypeName errorText : error -> string.
Variable registry : TaskRegistry Workflow Activity.

Variables (full : bool) (mark : nat) (known : gset string).

Local Abbreviation like := (like (full := full) (mark := mark) (known := known)).
Local Abbreviation psim := (psim (full := full) (mark := mark) (known := known)).
Local Abbreviation oblivious := (oblivious (full := full)).
Local Abbreviation lost := (lost (full := full) (known := known)).
Local Abbreviation guardedM := (guarded (contextStep ToUpper)).
Local Abbreviation processEvent := (processEvent ToUpper errorTypeName errorText registry).
Local Abbreviation handle := (handle ToUpper errorTypeName errorText registry).
Local Abbreviation settle := (settle errorTypeName errorText).
Local Abbreviation tick := (tick ToUpper errorTypeName errorText registry).
Local Abbreviation ticks := (ticks ToUpper errorTypeName errorText registry).
Local Abbreviation step := (step ToUpper errorTypeName errorText registry).
Local Abbreviation conclude := (concludeWorkflow errorTypeName errorText).

(** ** Handlers *)

Lemma like_schedule ty c1 c2 :
  like c1 c2 -> like (let '(_, _, b) := scheduleAction ty None (wc_table c1) in set_table b c1)
                     (let '(_, _, b) := scheduleAction ty None (wc_table c2) in set_table b c2).
Proof.
  intros Hc. destruct (alike_scheduleAction ty ty None _ _ eq_refl (lk_table _ _ Hc)) as [_ Ha].
  destruct (scheduleAction ty None (wc_table c1)) as [[? ?] ?], (scheduleAction ty None (wc_table c2)) as [[? ?] ?].
  by apply like_set_table.
Qed.

Lemma like_conclude o e c1 c2 : like c1 c2 -> like (conclude o e c1) (conclude o e c2).
Proof.
  intros Hc. unfold concludeWorkflow, setContinuedAsNew, setComplete, setFailed.
  rewrite (lk_report _ _ Hc). repeat case_match; simplify_eq; repeat apply like_schedule; done.
Qed.

Lemma like_onHistoryError err c1 c2 :
  like c1 c2 -> like (onHistoryError errorTypeName errorText err c1) (onHistoryError errorTypeName errorText err c2).
Proof. intros Hc. unfold onHistoryError. case_match; by apply like_schedule. Qed.

Lemma like_suspension s evs c1 c2 : like c1 c2 -> like (set_suspension s evs c1) (set_suspension s evs c2).
Proof. intros []. by split. Qed.

Lemma terminateScan_alike b1 b2 l : alike b1 b2 -> terminateScan b2 l = terminateScan b1 l.
Proof.
  intros H. induction l as [|[id p] l IH]; cbn; [by alike_rewrite H |].
  assert (getAction p b2 ≫= GetCompleteWorkflow = getAction p b1 ≫= GetCompleteWorkflow) as ->.
  { pose proof (alike_readAction GetCompleteWorkflow b1 b2 p ltac:(by action_cases) H) as E.
    by destruct (getAction p b1), (getAction p b2); simplify_eq/=. }
  rewrite IH. by alike_rewrite H.
Qed.

Lemma like_onExecutionTerminated et c1 c2 : like c1 c2 -> like (onExecutionTerminated et c1) (onExecutionTerminated et c2).
Proof.
  intros Hc. unfold onExecutionTerminated.
  assert (like (set_terminated c1) (set_terminated c2)) as Ht by by destruct Hc; split.
  pose proof (lk_table _ _ Hc) as Ha. change (wc_table (set_terminated c1)) with (wc_table c1).
  change (wc_table (set_terminated c2)) with (wc_table c2). cbv zeta. rewrite (terminateScan_alike _ _ _ Ha).
  assert (tb_pendingActions (wc_table c2) = tb_pendingActions (wc_table c1)) as -> by by alike_rewrite Ha.
  case_match; [| done]. apply like_schedule, like_set_table; [| done]. by apply alike_pendingActions.
Qed.

Lemma like_onWorkflowStarted e os c1 c2 : like c1 c2 -> like (onWorkflowStarted e os c1) (onWorkflowStarted e os c2).
Proof.
  intros [? ? ? ? ? ? ? ? ? ? ? ? ? Hp ?]. unfold onWorkflowStarted. repeat case_match; (split; try done); cbn; destruct Hp as [Pa Pe Ph];
    (split; cbn; [done | done |]); rewrite Ph; set_solver.
Qed.

(** One event agrees. *)
Definition sameResult (r1 r2 : WorkflowContext * res (option error)) : Prop := r2.2 = r1.2 /\ like r1.1 r2.1.

Lemma like_held_event e c1 c2 :
  heldWhileSuspended e = true -> GetExecutionStarted e = None -> like c1 c2 ->
  sameResult (processEvent 1 e c1) (processEvent 1 e c2).
Proof.
  intros Hh Hs Hc. cbn [TaskExecutor.processEvent]. rewrite (lk_isTerminated _ _ Hc), (lk_isSuspended _ _ Hc).
  case_match; [done |]. rewrite (lk_suspended _ _ Hc). case_match; [split; [done | by apply like_suspension] |].
  destruct (tableEvent ToUpper e) as [f|] eqn:Ef.
  - destruct (alike_tableEvent ToUpper e f Ef _ _ (lk_table _ _ Hc)) as [E Ha]. unfold tableEvent in Ef.
    assert (sameResult (onTableErr f c1) (onTableErr f c2)) as Hr.
    { unfold onTableErr. destruct (f (wc_table c1)), (f (wc_table c2)). cbn in *. subst.
      split; [done | by apply like_set_table]. }
    repeat case_match; simplify_eq; exact Hr.
  - unfold tableEvent in Ef. unfold GetExecutionStarted in Hs. unfold heldWhileSuspended in Hh.
    destruct (EventType e) as [[]|]; try done; split; try done.
    + by apply like_onWorkflowStarted.
    + by apply like_suspension.
Qed.

Lemma like_resumeLoop l c1 c2 :
  Forall (fun e => heldWhileSuspended e = true /\ GetExecutionStarted e = None) l -> like c1 c2 ->
  sameResult (resumeLoop (processEvent 1) l c1) (resumeLoop (processEvent 1) l c2).
Proof.
  intros Hl. revert c1 c2. induction Hl as [|e l [He Hs] Hl IH]; intros c1 c2 Hc; cbn [resumeLoop].
  { split; [done |]. rewrite (lk_isSuspended _ _ Hc). by apply like_suspension. }
  destruct (like_held_event e c1 c2 He Hs Hc) as [E Hc'].
  destruct (processEvent 1 e c1) as [d1 r1], (processEvent 1 e c2) as [d2 r2]. cbn in E, Hc'. subst r2.
  destruct r1 as [[err|] | | |]; try done. by apply IH.
Qed.

Lemma like_handle e c1 c2 :
  quiet c1 -> GetExecutionStarted e = None -> like c1 c2 ->
  (handle e c2).2 = (handle e c1).2 /\ like (handle e c1).1 (handle e c2).1.
Proof.
  intros Hq Hs Hc. unfold TaskMachine.handle.
  assert (sameResult (processEvent 2 e c1) (processEvent 2 e c2)) as [E H]; cycle 1.
  { destruct (processEvent 2 e c1) as [d1 r1], (processEvent 2 e c2) as [d2 r2]. cbn in E, H. subst r2. by destruct r1. }
  destruct (heldWhileSuspended e) eqn:Eh.
  { rewrite !(proj1 (held_event_fuel ToUpper errorTypeName errorText registry 1 e _ Eh Hs)). by apply like_held_event. }
  unfold heldWhileSuspended in Eh. cbn [TaskExecutor.processEvent]. unfold heldWhileSuspended.
  destruct (EventType e) as [[]|]; try done; rewrite !andb_false_r, (lk_isTerminated _ _ Hc); (case_match; [done |]).
  - split; [done | by apply like_onExecutionTerminated].
  - unfold onExecutionResumed. rewrite (lk_suspended _ _ Hc). apply like_resumeLoop; [done | by apply like_suspension].
Qed.

(** ** Modes *)

Inductive modeLike : Mode -> Mode -> Prop :=
| LikeIdle : modeLike MIdle MIdle
| LikeWait p k1 k2 : (forall e, psim eq (k1 e) (k2 e)) -> modeLike (MWait p k1) (MWait p k2)
| LikeDone : modeLike MDone MDone
| LikeEnd : modeLike MEnd MEnd
| LikePanic msg : modeLike (MPanic msg) (MPanic msg).

Definition stateLike (st1 st2 : WorkflowContext * Mode) : Prop := like st1.1 st2.1 /\ modeLike st1.2 st2.2.

Lemma conclude_patches o e c : wc_patches (conclude o e c) = wc_patches c /\ wc_VersionName (conclude o e c) = wc_VersionName c.
Proof. unfold concludeWorkflow, setContinuedAsNew, setComplete, setFailed. repeat case_match; by simplify_eq. Qed.

(** Running the function keeps the answers given so far. *)
Lemma settle_answers m c :
  guardedM c m -> keepsAnswers c (settle m c).1 /\ (reported c -> reported (settle m c).1) /\
    wc_VersionName (settle m c).1 = wc_VersionName c.
Proof.
  revert c. induction m as [[o e] | msg | k IH | c' k IH | p k IH]; cbn [TaskMachine.settle guarded]; intros c Hg.
  - unfold keepsAnswers, reported. cbn [fst]. destruct (conclude_patches o e c) as [-> ->]. done.
  - done.
  - by apply IH.
  - destruct Hg as [Hs Hg]. destruct (contextStep_answers _ _ _ Hs) as (Hk & Hr & Hv), (IH c' Hg) as (Hk' & Hr' & Hv').
    split_and!; [by etrans | auto | congruence].
  - case_match; [by apply IH | done].
Qed.

Lemma like_settle m1 m2 c1 c2 :
  psim eq m1 m2 -> guardedM c1 m1 -> like c1 c2 -> stateLike (settle m1 c1) (settle m2 c2) \/ lost (settle m1 c1).1.
Proof.
  intros Hm. revert c1 c2. induction Hm as [[o e] b <- | msg | k1 k2 Hk IH | d1 d2 k1 k2 Hd Hk IH | p k1 k2 Hk IH | d1 k1 m2 Hl];
    intros c1 c2 Hg Hc; cbn [TaskMachine.settle guarded] in *.
  - left. split; [by apply like_conclude | constructor].
  - left. split; [done | constructor].
  - by apply IH.
  - apply IH; [apply Hg | done].
  - assert (exists t1 t2, default (newTask KindNone) (getTask p (wc_table c1)) = t1 /\
      default (newTask KindNone) (getTask p (wc_table c2)) = t2 /\ eraseTask t2 = eraseTask t1) as (t1 & t2 & -> & -> & E).
    { destruct (alike_case _ _ p (lk_table _ _ Hc)) as [(t1 & t2 & -> & -> & E) | [-> ->]]; eauto. }
    apply erased_task in E as (Ec & _ & _ & Ea & _). rewrite Ec, Ea. case_match; [by apply IH |].
    left. split; [done | by constructor].
  - right. by eapply lost_kept, Hl; apply settle_answers, Hg.
Qed.

(** ** Steps of the machine *)

Definition incomplete (c : WorkflowContext) (p : nat) : Prop :=
  ct_isCompleted (default (newTask KindNone) (getTask p (wc_table c))) = false.

(** States a turn passes through. *)
Definition sound (st : WorkflowContext * Mode) : Prop :=
  match st.2 with
  | MIdle => ready st.1 \/
      (awake st.1 /\ oneStart (drop (cu_historyIndex (wc_cursor st.1)) (historyOf st.1)) = true)
  | MWait p k => ready st.1 /\ (forall c e, guardedM c (k e)) /\ incomplete st.1 p
  | MDone => ready st.1
  | MEnd | MPanic _ => True
  end.

Definition ended (mode : Mode) : Prop := match mode with MEnd | MPanic _ => True | _ => False end.
#[export] Instance ended_dec mode : Decision (ended mode).
Proof. destruct mode; apply _. Defined.

Lemma sound_settle m c :
  guardedM c m -> ready c -> wc_cursor (settle m c).1 = wc_cursor c /\ sound (settle m c).
Proof.
  revert c. induction m as [[o e] | msg | k IH | c' k IH | p k IH]; cbn [TaskMachine.settle guarded]; intros c Hg Hr.
  - split; [apply concludeWorkflow_cursor |]. by apply (ready_cursor c), Hr; apply concludeWorkflow_cursor.
  - done.
  - by apply IH.
  - destruct Hg as [Hc%contextStep_sameCursor Hg]. destruct (IH c' Hg) as [E Hs]; [by apply (ready_cursor c) |]. by rewrite E.
  - case_match eqn:E; [by apply IH |]. done.
Qed.

(** Event [e] may be delivered. *)
Definition deliverable (e : HistoryEvent) (c : WorkflowContext) (mode : Mode) : Prop :=
  match mode with
  | MIdle =>
      (GetExecutionStarted e = None -> quiet c /\ ((awake c /\ GetExecutionSuspended e = None /\
         oneStart (drop (cu_historyIndex (wc_cursor c)) (historyOf c)) = true) \/ ready c)) /\
      (GetExecutionStarted e <> None -> ready c /\ awake c)
  | MWait p k => GetExecutionStarted e = None /\ ready c /\ (forall c e, guardedM c (k e))
  | MDone => GetExecutionStarted e = None /\ ready c
  | MEnd | MPanic _ => False
  end.

(** Where it leads. *)
Lemma step_sound e c mode :
  deliverable e c mode -> samePlace c (step e (c, mode)).1 /\ sound (step e (c, mode)).
Proof.
  unfold deliverable.
  assert (forall e c, quiet c -> GetExecutionStarted e = None -> samePlace c (handle e c).1 /\
            quiet (handle e c).1 /\ (ready c -> ready (handle e c).1)) as Hh.
  { intros e0 c0 Hq He. destruct (handle_calm ToUpper errorTypeName errorText registry e0 c0 Hq He) as [Hp Hq'].
    split_and!; [done | auto |]. intros [_ Hf]. split; [auto | by eapply samePlace_startFree]. }
  assert (forall err c c', samePlace c c' -> samePlace c (onHistoryError errorTypeName errorText err c')) as Herr.
  { intros err c0 c' Hp. etrans; [exact Hp |]. unfold onHistoryError. by case_match. }
  assert (forall m c c', samePlace c c' -> guardedM c' m -> ready c' ->
            samePlace c (settle m c').1 /\ sound (settle m c')) as Hset.
  { intros m c0 c' Hp Hg Hr. destruct (sound_settle m c' Hg Hr) as [E Hs]. split; [| done].
    etrans; [exact Hp | by apply samePlace_cursor]. }
  destruct mode as [| p k | | |msg]; cbn [TaskMachine.step]; [| | | done | done].
  - intros [Hn Hy]. destruct (GetExecutionStarted e) as [es|] eqn:Ees.
    + destruct (Hy ltac:(done)) as [Hr _]. case_match; [by split; [| left] |]. unfold begin.
      destruct (ResolveWorkflow _ _ _) as [[w v]|err]; [| by split; [apply Herr |]].
      apply Hset; [by apply samePlace_cursor, prepareStart_cursor | | by apply (ready_cursor c), Hr; apply prepareStart_cursor].
      apply Guarded_denote.
    + destruct (Hn eq_refl) as [Hq Hcase]. destruct (Hh e c Hq Ees) as (Hp & Hq' & Hr'). unfold stepOutside.
      assert (((awake c /\ GetExecutionSuspended e = None) -> awake (handle e c).1)) as Haw
        by (intros [Ha0 Hs0]; apply handle_awake; [exact Ha0 | exact Ees | exact Hs0]).
      pose proof (samePlace_history _ _ Hp) as [Eh _]. pose proof Hp as (_ & _ & Ei).
      destruct (handle e c) as [c' [err|]]; cbn [fst snd] in *; [by split; [apply Herr |] |].
      split; [done |]. destruct Hcase as [(Ha & Hs & Ho) | Hr]; [right | left; auto]. cbn. rewrite Ei, Eh. auto.
  - intros (Hs & Hr & Hk). destruct (Hh e c (proj1 Hr) Hs) as (Hp & Hq' & Hr').
    destruct (handle e c) as [c' [err|]]; cbn [fst] in *; apply Hset; auto.
  - intros (Hs & Hr). destruct (Hh e c (proj1 Hr) Hs) as (Hp & Hq' & Hr'). unfold stepOutside.
    destruct (handle e c) as [c' [err|]]; cbn [fst] in *; [by split; [apply Herr |] | split; [done | by apply Hr']].
Qed.

Lemma next_deliverable c mode e c1 :
  sound (c, mode) -> ~ ended mode -> getNextHistoryEvent c = Some (e, c1) -> deliverable e c1 mode.
Proof.
  intros Hs Hm E. pose proof (getNext_Some c e c1 E) as (_ & He & Eh & Ei & Es1 & Es2 & _).
  assert (ready c -> GetExecutionStarted e = None /\ ready c1) as Hready.
  { intros [Hq Hf]. destruct (getNext_startFree c e c1 E Hf) as [? ?]. split_and!; [done |].
    split; [unfold quiet; by rewrite Es1 | done]. }
  destruct mode as [| p k | | |]; cbn in *; [| | by apply Hready | done | done]; cycle 1.
  { destruct Hs as (Hr & Hk & _). by destruct (Hready Hr). }
  destruct Hs as [Hr | [Ha Ho]]; [destruct (Hready Hr) as [Hn Hr1]; split; [| done]; intros _; split; [apply Hr1 | by right] |].
  assert (awake c1) as Ha1 by (unfold awake; by rewrite Es1, Es2).
  rewrite (drop_S _ _ _ He) in Ho. cbn [oneStart] in Ho. rewrite <- Eh, <- Ei in Ho.
  destruct (GetExecutionStarted e); (split; intros Hx; [try done | try done]).
  - split; [| done]. split; [by apply awake_quiet |]. by apply forallb_startFree.
  - apply andb_true_iff in Ho as [Hsu%bool_decide_eq_true Ho]. split; [by apply awake_quiet | by left].
Qed.

Lemma tick_running c mode e c1 :
  ~ ended mode -> getNextHistoryEvent c = Some (e, c1) -> tick (c, mode) = step e (c1, mode).
Proof. intros Hm E. unfold TaskMachine.tick. cbn. rewrite E. by destruct mode. Qed.

(** A tick stays sound and takes one event, unless the turn has ended. *)
Lemma tick_sound c mode :
  sound (c, mode) -> ~ ended mode -> (0 < remaining c)%nat ->
  sound (tick (c, mode)) /\ remaining c = S (remaining (tick (c, mode)).1) /\
  cu_historyIndex (wc_cursor (tick (c, mode)).1) = S (cu_historyIndex (wc_cursor c)) /\
  historyOf (tick (c, mode)).1 = historyOf c.
Proof.
  intros Hs Hm Hr. destruct (getNextHistoryEvent c) as [[e c1]|] eqn:E; [| apply getNext_None in E; lia].
  rewrite (tick_running c mode e c1 Hm E).
  destruct (step_sound e c1 mode (next_deliverable c mode e c1 Hs Hm E)) as [Hp Hs'].
  destruct (samePlace_history _ _ Hp) as [-> ->]. destruct Hp as (_ & _ & ->).
  apply getNext_Some in E as (-> & _ & -> & -> & _). done.
Qed.

Lemma tick_ended st : ended st.2 -> tick st = st.
Proof. destruct st as [c []]; by intros. Qed.

Lemma ticks_sound n st :
  sound st -> (n <= remaining st.1)%nat \/ ended st.2 ->
  sound (ticks n st) /\ historyOf (ticks n st).1 = historyOf st.1 /\
  (ended (ticks n st).2 \/ cu_historyIndex (wc_cursor (ticks n st).1) = (n + cu_historyIndex (wc_cursor st.1))%nat).
Proof.
  revert st. induction n as [|n IH]; intros [c mode] Hs Hn; cbn [TaskMachine.ticks]; [by auto |]. cbn [fst snd] in *.
  destruct (decide (ended mode)) as [He|Hne].
  { rewrite tick_ended by done.
    assert (ticks n (c, mode) = (c, mode)) as ->; [| by auto]. apply ticks_end. destruct mode; eauto; done. }
  assert (0 < remaining c)%nat as Hpos by (destruct Hn; [lia | done]).
  destruct (tick_sound c mode Hs Hne Hpos) as (Hs' & Hr & Hi & Hh).
  destruct (IH (tick (c, mode)) Hs') as (H1 & H2 & H3); [left; destruct Hn; [lia | done] |].
  split_and!; [done | by rewrite H2 |]. destruct H3 as [|H3]; [by left | right; lia].
Qed.

(** ** Answers *)

Definition sameAnswers (c c' : WorkflowContext) : Prop :=
  pa_applied (wc_patches c') = pa_applied (wc_patches c) /\ pa_encountered (wc_patches c') = pa_encountered (wc_patches c).

(** No turn marker is held back. *)
Definition markerFree (c : WorkflowContext) : Prop :=
  Forall (fun e => GetWorkflowStarted e = None) (cu_suspendedEvents (wc_cursor c)).
Definition sameVersion (c c' : WorkflowContext) : Prop :=
  markerFree c -> wc_VersionName c' = wc_VersionName c /\ markerFree c'.

(** Handlers give no answers about patches; only turn markers change the version. *)
Lemma held_event_answers e c :
  heldWhileSuspended e = true -> GetExecutionStarted e = None ->
  sameAnswers c (processEvent 1 e c).1 /\ (GetWorkflowStarted e = None -> sameVersion c (processEvent 1 e c).1).
Proof.
  intros Hh Hs. cbn [TaskExecutor.processEvent]. case_match; [done |].
  case_match; [split; [done |]; intros Hw Hf; split; [done |]; apply Forall_app; split; [done | by constructor] |].
  unfold GetExecutionStarted in Hs. unfold heldWhileSuspended in Hh. unfold GetWorkflowStarted, sameAnswers, sameVersion, markerFree.
  destruct (EventType e) as [[]|]; try done; unfold onTableErr, onWorkflowStarted; split; try done; by repeat case_match.
Qed.

Lemma resumeLoop_answers l c :
  Forall (fun e => heldWhileSuspended e = true /\ GetExecutionStarted e = None) l ->
  sameAnswers c (resumeLoop (processEvent 1) l c).1 /\
  (Forall (fun e => GetWorkflowStarted e = None) l -> sameVersion c (resumeLoop (processEvent 1) l c).1).
Proof.
  intros Hl. revert c. induction Hl as [|e l [He Hes] Hl IH]; intros c; cbn [resumeLoop].
  { split; [done |]. intros _ Hf. split; [done | constructor]. }
  pose proof (held_event_answers e c He Hes) as [Ha Hv].
  destruct (processEvent 1 e c) as [c1 [[err|] | | |]]; cbn [fst] in *; try (split; [done | intros [? ?]%Forall_cons; auto]).
  destruct (IH c1) as [[A1 A2] Hv']. destruct Ha as [B1 B2]. split; [split; congruence |].
  intros [Hw Hws]%Forall_cons Hf. destruct (Hv Hw Hf) as [E1 Hf1], (Hv' Hws Hf1) as [E2 Hf2]. split; [congruence | done].
Qed.

Lemma handle_answers e c :
  quiet c -> GetExecutionStarted e = None ->
  sameAnswers c (handle e c).1 /\ (GetWorkflowStarted e = None -> sameVersion c (handle e c).1).
Proof.
  intros Hq He. unfold TaskMachine.handle.
  assert (sameAnswers c (processEvent 2 e c).1 /\ (GetWorkflowStarted e = None -> sameVersion c (processEvent 2 e c).1)) as H.
  { destruct (heldWhileSuspended e) eqn:Eh.
    { rewrite (proj1 (held_event_fuel ToUpper errorTypeName errorText registry 1 e c Eh He)). by apply held_event_answers. }
    unfold heldWhileSuspended in Eh. cbn [TaskExecutor.processEvent]. unfold heldWhileSuspended.
    destruct (EventType e) as [[]|]; try done; rewrite andb_false_r; (case_match; [done |]).
    - unfold onExecutionTerminated, sameAnswers, sameVersion, markerFree. by case_match.
    - destruct (resumeLoop_answers (cu_suspendedEvents (wc_cursor c)) (set_suspension false (cu_suspendedEvents (wc_cursor c)) c) Hq) as [Ha Hv].
      split; [exact Ha |]. intros _ Hf. by apply Hv. }
  by destruct (processEvent 2 e c) as [c' []].
Qed.

Lemma sameAnswers_keeps c c' : sameAnswers c c' -> keepsAnswers c c' /\ (reported c -> reported c').
Proof. intros [E1 E2]. unfold keepsAnswers, reported. rewrite E1, E2. done. Qed.

Lemma onHistoryError_cursor err c : wc_cursor (onHistoryError errorTypeName errorText err c) = wc_cursor c.
Proof. unfold onHistoryError. by case_match. Qed.

Lemma onHistoryError_answers err c :
  sameAnswers c (onHistoryError errorTypeName errorText err c) /\
  wc_VersionName (onHistoryError errorTypeName errorText err c) = wc_VersionName c.
Proof. unfold onHistoryError, sameAnswers. by case_match. Qed.

(** What a step keeps of the answers, and of the version unless the event may change it. *)
Record keepsAll (e : HistoryEvent) (c c' : WorkflowContext) : Prop := {
  ka_answers : keepsAnswers c c';
  ka_reported : reported c -> reported c';
  ka_version : GetExecutionStarted e = None -> GetWorkflowStarted e = None -> sameVersion c c'
}.

Lemma keepsAll_handle e c : quiet c -> GetExecutionStarted e = None -> keepsAll e c (handle e c).1.
Proof.
  intros Hq He. destruct (handle_answers e c Hq He) as [Ha Hv]. destruct (sameAnswers_keeps _ _ Ha) as [Hk Hr]. by split.
Qed.

Lemma keepsAll_settle e c d m :
  keepsAll e c d -> guardedM d m -> ready d -> keepsAll e c (settle m d).1.
Proof.
  intros [Hk Hr Hv] Hg Hrd. destruct (settle_answers m d Hg) as (Hk' & Hr' & Ev), (sound_settle m d Hg Hrd) as [Ec _].
  split; [by etrans | auto |]. intros He Hw Hf. destruct (Hv He Hw Hf) as [E Hf']. unfold markerFree. rewrite Ev, Ec. auto.
Qed.

Lemma keepsAll_error e c d err : keepsAll e c d -> keepsAll e c (onHistoryError errorTypeName errorText err d).
Proof.
  intros [Hk Hr Hv]. destruct (onHistoryError_answers err d) as [Ha Ev]. destruct (sameAnswers_keeps _ _ Ha) as [Hk' Hr'].
  split; [by etrans | auto |]. intros He Hw Hf. destruct (Hv He Hw Hf) as [E Hf']. unfold markerFree.
  rewrite Ev, onHistoryError_cursor. auto.
Qed.

Lemma step_keepsAll e c mode : deliverable e c mode -> keepsAll e c (step e (c, mode)).1.
Proof.
  intros Hd. assert (keepsAll e c c) as Hsame by by split.
  assert (forall mo, quiet c -> GetExecutionStarted e = None ->
    keepsAll e c (stepOutside ToUpper errorTypeName errorText registry mo e c).1) as Hout.
  { intros mo Hq He. unfold stepOutside. pose proof (keepsAll_handle e c Hq He) as H.
    destruct (handle e c) as [d [err|]]; [by apply keepsAll_error | done]. }
  destruct mode as [| p k | | |]; cbn [deliverable TaskMachine.step] in *; [| | | done | done].
  - destruct Hd as [Hn Hy]. destruct (GetExecutionStarted e) as [es|] eqn:Ees; [| apply Hout; [apply Hn |]; done].
    case_match; [done |]. unfold begin. destruct (ResolveWorkflow _ _ _) as [[w v]|err]; [| by apply keepsAll_error].
    destruct (Hy ltac:(done)) as [Hr _].
    apply keepsAll_settle; [| apply Guarded_denote | by apply (ready_cursor c), Hr; apply prepareStart_cursor].
    unfold prepareStart. split; [by repeat case_match | by repeat case_match | congruence].
  - destruct Hd as (He & Hr & Hg). pose proof (keepsAll_handle e c (proj1 Hr) He) as H.
    destruct (handle_calm ToUpper errorTypeName errorText registry e c (proj1 Hr) He) as [Hp Hq].
    assert (ready (handle e c).1) as Hr' by (split; [by apply Hq, Hr | by apply (samePlace_startFree c), Hr]).
    destruct (handle e c) as [d [err|]]; by apply keepsAll_settle.
  - destruct Hd as (He & Hr). apply Hout; [apply Hr | done].
Qed.

Lemma getNext_same c e c1 :
  getNextHistoryEvent c = Some (e, c1) -> wc_patches c1 = wc_patches c /\ wc_VersionName c1 = wc_VersionName c.
Proof. unfold getNextHistoryEvent. destruct (historyOf c !! _); [| done]. by intros [= <- <-]. Qed.

Lemma tick_answers c mode :
  sound (c, mode) -> keepsAnswers c (tick (c, mode)).1 /\ (reported c -> reported (tick (c, mode)).1).
Proof.
  intros Hs. destruct (decide (ended mode)) as [He|Hne].
  { by rewrite tick_ended. }
  destruct (getNextHistoryEvent c) as [[e c1]|] eqn:E.
  - rewrite (tick_running c mode e c1 Hne E).
    destruct (step_keepsAll e c1 mode (next_deliverable c mode e c1 Hs Hne E)) as [Hk Hr _].
    destruct (getNext_same c e c1 E) as [Ep _]. unfold keepsAnswers, reported in *. by rewrite Ep in Hk, Hr.
  - unfold TaskMachine.tick. cbn. rewrite E. by destruct mode.
Qed.

Lemma ticks_answers n st :
  sound st -> (n <= remaining st.1)%nat \/ ended st.2 ->
  keepsAnswers st.1 (ticks n st).1 /\ (reported st.1 -> reported (ticks n st).1).
Proof.
  revert st. induction n as [|n IH]; intros [c mode] Hs Hn; cbn [TaskMachine.ticks]; [done |]. cbn [fst snd] in *.
  destruct (tick_answers c mode Hs) as [Hk Hr].
  assert (sound (tick (c, mode)) /\ ((n <= remaining (tick (c, mode)).1)%nat \/ ended (tick (c, mode)).2)) as [Hs' Hn'].
  { destruct (decide (ended mode)) as [He|Hne].
    { rewrite tick_ended by done. auto. }
    destruct Hn as [Hn |]; [| done]. destruct (tick_sound c mode Hs Hne ltac:(lia)) as (Hs' & Hr' & _). split; [done |]. left. lia. }
  destruct (IH _ Hs' Hn') as [Hk' Hr']. split; [by etrans | auto].
Qed.

(** ** Agreement *)

Lemma sound_initial id old new ph w :
  oneStart (old ++ new) = true -> sound (NewWorkflowContext id old new ph w, MIdle).
Proof. intros Ho. right. done. Qed.

Lemma oneStart_once l : oneStart l = true -> (length (omap GetExecutionStarted l) <= 1)%nat.
Proof.
  induction l as [|e l IH]; cbn; [lia |]. destruct (GetExecutionStarted e) as [es|]; cbn.
  - intros Hf%forallb_startFree. assert (omap GetExecutionStarted l = []) as ->; [| cbn; lia].
    clear IH. induction Hf as [|x l Hx _ IHf]; cbn; [done |]. by rewrite Hx.
  - intros [_ Ho]%andb_true_iff. by apply IH.
Qed.

Lemma like_initial id old1 new1 old2 new2 ph w1 w2 :
  histories (full := full) (mark := mark) (old1 ++ new1) (old2 ++ new2) ->
  stateLike (NewWorkflowContext id old1 new1 ph w1, MIdle) (NewWorkflowContext id old2 new2 ph w2, MIdle).
Proof.
  intros Hh. split; [| constructor]. split; try done; [apply alike_refl |].
  split; try done. unfold ahead. cbn. by destruct full.
Qed.

Lemma like_prepareStart es v c1 c2 : like c1 c2 -> like (prepareStart es v c1) (prepareStart es v c2).
Proof. intros []. unfold prepareStart. repeat case_match; by split. Qed.

Lemma like_next c1 c2 e d1 :
  (full = false -> cu_historyIndex (wc_cursor c1) <> mark) -> like c1 c2 -> getNextHistoryEvent c1 = Some (e, d1) ->
  exists d2, getNextHistoryEvent c2 = Some (e, d2) /\ like d1 d2.
Proof.
  intros Hm Hc. unfold getNextHistoryEvent. destruct (historyOf c1 !! _) as [e'|] eqn:E; [| done]. intros [= -> <-].
  rewrite (lk_index _ _ Hc).
  assert (historyOf c2 !! cu_historyIndex (wc_cursor c1) = Some e) as ->.
  { pose proof (lk_history _ _ Hc) as H. unfold histories in H. destruct full; [by destruct H as [-> _] | apply H; auto]. }
  eexists; split; [done |]. destruct Hc as [? ? ? ? ? ? ? ? ? ? ? ? ? [Pa Pe Ph] ?]. split; try done. split; cbn; [done | done |].
  rewrite Ph. unfold ahead. destruct full; cbn [orb]; [done |]. specialize (Hm eq_refl).
  destruct (Nat.leb_spec (cu_historyIndex (wc_cursor c1)) mark), (Nat.leb_spec (S (cu_historyIndex (wc_cursor c1))) mark); (done || lia).
Qed.

Lemma like_ended m1 m2 : modeLike m1 m2 -> ended m1 <-> ended m2.
Proof. by intros []. Qed.

Hypothesis deterministic : forall name v w v', ResolveWorkflow name v registry = inl (w, v') -> oblivious w.

Lemma like_step e c1 m1 c2 m2 :
  deliverable e c1 m1 -> stateLike (c1, m1) (c2, m2) ->
  stateLike (step e (c1, m1)) (step e (c2, m2)) \/ lost (step e (c1, m1)).1.
Proof.
  intros Hd [Hc Hm]. cbn [fst snd] in *.
  assert (forall mo1 mo2, quiet c1 -> GetExecutionStarted e = None -> modeLike mo1 mo2 ->
    stateLike (stepOutside ToUpper errorTypeName errorText registry mo1 e c1)
              (stepOutside ToUpper errorTypeName errorText registry mo2 e c2)) as Hout.
  { intros mo1 mo2 Hq Hs Hmo. destruct (like_handle e c1 c2 Hq Hs Hc) as [E Hc']. unfold stepOutside.
    destruct (handle e c1) as [d1 r1], (handle e c2) as [d2 r2]. cbn in E, Hc'. subst r2.
    destruct r1; [split; [by apply like_onHistoryError | constructor] | by split]. }
  destruct Hm as [| p k1 k2 Hk | | | msg]; cbn [TaskMachine.step deliverable] in *; [| | | done | done].
  - destruct Hd as [Hn Hy]. destruct (GetExecutionStarted e) as [es|] eqn:Ees.
    + rewrite (lk_isTerminated _ _ Hc). case_match; [left; split; [done | constructor] |]. unfold begin.
      rewrite (lk_VersionName _ _ Hc). destruct (ResolveWorkflow _ _ _) as [[w v]|err] eqn:Er.
      * apply like_settle; [by eapply psim_denote, deterministic | apply Guarded_denote | by apply like_prepareStart].
      * left. split; [by apply like_onHistoryError | constructor].
    + destruct (Hn eq_refl) as [Hq _]. left. apply Hout; [done | done | constructor].
  - destruct Hd as (Hs & [Hq _] & Hg). destruct (like_handle e c1 c2 Hq Hs Hc) as [E Hc'].
    destruct (handle e c1) as [d1 r1], (handle e c2) as [d2 r2]. cbn in E, Hc'. subst r2.
    destruct r1; apply like_settle; try done. by constructor.
  - destruct Hd as (Hs & [Hq _]). left. apply Hout; [done | done | constructor].
Qed.

(** Events that both histories have. *)
Lemma like_ticks n st1 st2 :
  (full = false -> n + cu_historyIndex (wc_cursor st1.1) <= mark \/ mark < cu_historyIndex (wc_cursor st1.1))%nat ->
  sound st1 -> stateLike st1 st2 -> (n <= remaining st1.1)%nat \/ ended st1.2 ->
  stateLike (ticks n st1) (ticks n st2) \/ lost (ticks n st1).1.
Proof.
  revert st1 st2. induction n as [|n IH]; intros st1 st2 Hmark Hs Hl Hn; cbn [TaskMachine.ticks]; [by auto |].
  destruct st1 as [c1 m1], st2 as [c2 m2]. pose proof Hl as [Hc Hm]. cbn [fst snd] in *.
  destruct (decide (ended m1)) as [He|Hne].
  { assert (ended m2) as He2 by by apply (like_ended m1).
    rewrite !tick_ended by done. apply IH; auto. intros Hf. destruct (Hmark Hf); [left; cbn; lia | by right]. }
  assert (0 < remaining c1)%nat as Hpos by (destruct Hn; [lia | done]).
  destruct (getNextHistoryEvent c1) as [[e d1]|] eqn:E; [| apply getNext_None in E; lia].
  destruct (like_next c1 c2 e d1) as (d2 & E2 & Hd); [intros Hf; destruct (Hmark Hf); lia | done | done |].
  destruct (tick_sound c1 m1 Hs Hne Hpos) as (Hs' & Hr & Hi & Hh).
  assert (stateLike (tick (c1, m1)) (tick (c2, m2)) \/ lost (tick (c1, m1)).1) as [Hl' | Hlost].
  { rewrite (tick_running c1 m1 e d1), (tick_running c2 m2 e d2); try done; [| by rewrite <- (like_ended m1)].
    apply like_step; [by apply (next_deliverable c1) | by split]. }
  - apply IH; [| done | done | left; destruct Hn; [lia | done]]. intros Hf. rewrite Hi. destruct (Hmark Hf); lia.
  - right. eapply lost_kept, Hlost. apply ticks_answers; [done | left; destruct Hn; [lia | done]].
Qed.

(** ** Determinism *)

Definition eraseResponse (r : WorkflowResponse) : WorkflowResponse :=
  mkWorkflowResponse (resp_InstanceId r) (eraseAction <$> resp_Actions r) (resp_CustomStatus r)
    (resp_CompletionToken r) (resp_NumEventsProcessed r) (resp_Version r).

Definition eraseResult (r : res (WorkflowResponse + error)) : res (WorkflowResponse + error) :=
  match r with
  | RRet (inl r) => RRet (inl (eraseResponse r))
  | r => r
  end.

Local Abbreviation executeWorkflow := (executeWorkflow ToUpper errorTypeName errorText registry).

Lemma like_actions c1 c2 : like c1 c2 -> eraseAction <$> actions c2 = eraseAction <$> actions c1.
Proof.
  intros Hc. unfold actions. rewrite (lk_isSuspended _ _ Hc), (lk_isTerminated _ _ Hc), (lk_report _ _ Hc).
  case_match; [done |]. by apply alike_tableActions, (lk_table _ _ Hc).
Qed.

(** The response of a final state. *)
Definition responseOf (id : string) (st : WorkflowContext * Mode) : res (WorkflowResponse + error) :=
  match st.2 with
  | MPanic msg => RPanic msg
  | _ => RRet (inl (mkWorkflowResponse id (actions st.1) (Some (re_customStatus (wc_report st.1))) "" None
                      (responseVersion st.1)))
  end.

Lemma like_responseOf id st1 st2 :
  stateLike st1 st2 -> eraseResult (responseOf id st2) = eraseResult (responseOf id st1).
Proof.
  intros [Hc Hm]. unfold responseOf, responseVersion.
  destruct Hm; cbn; try done; unfold eraseResponse; cbn; rewrite (like_actions _ _ Hc), (lk_report _ _ Hc),
    (pk_encountered _ _ _ (lk_patches _ _ Hc)), (lk_VersionName _ _ Hc); done.
Qed.

Lemma executeWorkflow_machine id old new ph w :
  oneStart (old ++ new) = true ->
  executeWorkflow id old new ph w =
  match (match ph with None => inl None | Some ph => PropagatedHistoryFromProto (Some ph) end) with
  | inr err => RRet (inr (errorWrap "invalid propagated history" err))
  | inl ph => responseOf id (ticks (length (old ++ new)) (NewWorkflowContext id old new ph w, MIdle))
  end.
Proof.
  intros Ho. unfold TaskExecutor.executeWorkflow. case_match; [| done].
  rewrite start_machine by done. unfold responseOf. by destruct (ticks _ _) as [c []].
Qed.

Lemma turns_agree id old1 new1 old2 new2 ph w1 w2 :
  full = true -> oneStart (old1 ++ new1) = true -> old2 ++ new2 = old1 ++ new1 ->
  eraseResult (executeWorkflow id old2 new2 ph w2) = eraseResult (executeWorkflow id old1 new1 ph w1).
Proof.
  intros Hf Ho E. rewrite !executeWorkflow_machine by (done || by rewrite E).
  destruct (match ph with None => inl None | Some ph => PropagatedHistoryFromProto (Some ph) end) as [ph'|]; [| done].
  rewrite E. apply like_responseOf.
  destruct (like_ticks (length (old1 ++ new1)) (NewWorkflowContext id old1 new1 ph' w1, MIdle) (NewWorkflowContext id old2 new2 ph' w2, MIdle))
    as [Hl | [? _]]; [by rewrite Hf | by apply sound_initial | | | done | congruence].
  - apply like_initial. unfold histories. rewrite Hf. split; [done | by apply oneStart_once].
  - left. unfold remaining. cbn. lia.
Qed.

End Replay.

Section Determinism.
Context `{HF : Float64} `{HM : Marshaler} `{HR : RangeOrder} `{HC : ProtoCodec}.
Variable ToUpper : string -> string.
Variables errorTypeName errorText : error -> string.
Variable registry : TaskRegistry Workflow Activity.
Hypothesis deterministic : forall name v w v', ResolveWorkflow name v registry = inl (w, v') -> oblivious (full := true) w.

End Determinism.
