(* ===== verification/TaskRecorded.v ===== *)
(** * Recorded decisions

    Once the decisions of a turn are recorded in the history, the next turn takes them
    again, finds each of them recorded, and has nothing left to decide
    ([recorded_decisions_replay]).  [TaskSystem] puts this together with the applier that
    writes the records. *)

From stdpp Require Import base list option strings gmap sorting.
From Stdlib Require Import ZArith Lia.
From S2P Require Import Prelude Errors Protos Dedup Propagation Helpers TaskRegistry TaskTable TaskProgram.
From S2P Require Import TaskMethods TaskExecutor TaskGuard TaskTotal TaskPreserve TaskInv TaskMachine TaskErase TaskLike TaskReplay.

Section Recorded.
Context `{HF : Float64} `{HM : Marshaler} `{HR : RangeOrder} `{HC : ProtoCodec}.
Variable ToUpper : string -> string.
Variables errorTypeName errorText : error -> string.
Variable registry : TaskRegistry Workflow Activity.

Local Abbreviation guardedM := (guarded (contextStep ToUpper)).
Local Abbreviation processEvent := (processEvent ToUpper errorTypeName errorText registry).
Local Abbreviation handle := (handle ToUpper errorTypeName errorText registry).
Local Abbreviation settle := (settle errorTypeName errorText).
Local Abbreviation tick := (tick ToUpper errorTypeName errorText registry).
Local Abbreviation ticks := (ticks ToUpper errorTypeName errorText registry).
Local Abbreviation step := (step ToUpper errorTypeName errorText registry).
Local Abbreviation sound := (sound ToUpper).
Local Abbreviation deliverable := (deliverable ToUpper).
Local Abbreviation tick_running := (tick_running ToUpper errorTypeName errorText registry).
Local Abbreviation tick_ended := (tick_ended ToUpper errorTypeName errorText registry).
Local Abbreviation tick_sound := (tick_sound ToUpper errorTypeName errorText registry).
Local Abbreviation ticks_sound := (ticks_sound ToUpper errorTypeName errorText registry).
Local Abbreviation step_sound := (step_sound ToUpper errorTypeName errorText registry).
Local Abbreviation ticks_answers := (ticks_answers ToUpper errorTypeName errorText registry).
Local Abbreviation step_keepsAll := (step_keepsAll ToUpper errorTypeName errorText registry).
Local Abbreviation next_deliverable := (next_deliverable ToUpper).
Local Abbreviation sound_settle := (sound_settle ToUpper errorTypeName errorText).

(** ** Recorded decisions *)

(** Event [e] is the record of action [a] in the history. *)
Definition records (a : WorkflowAction) (e : HistoryEvent) : Prop :=
  EventId e = wa_Id a /\
  match wa_Type a, EventType e with
  | Some (WorkflowAction_ScheduleTask _), Some (HistoryEvent_TaskScheduled _) => True
  | Some (WorkflowAction_CreateTimer ta), Some (HistoryEvent_TimerCreated tc) =>
      tcr_FireAt tc = ta_FireAt ta /\ plainOrigin (tcr_Origin tc) = plainOrigin (ta_Origin ta)
  | Some (WorkflowAction_CreateChildWorkflow _), Some (HistoryEvent_ChildWorkflowInstanceCreated _) => True
  | Some (WorkflowAction_CreateDetachedWorkflow da), Some (HistoryEvent_DetachedWorkflowInstanceCreated dw) =>
      dw_InstanceId dw = da_InstanceId da
  | _, _ => False
  end.

Lemma records_erase a a' e : eraseAction a' = eraseAction a -> records a e -> records a' e.
Proof.
  unfold records, eraseAction, setTaskExecutionId. intros E [Hid Ht].
  destruct a as [id [[]|] r], a' as [id' [[]|] r']; cbn in E; try done; inversion E; subst; cbn in *; try done.
  destruct (EventType e) as [[]|]; try done. destruct Ht as [-> ->]. by split.
Qed.

Lemma dropAllAt_none id a b :
  pendingAction id b = Some a -> isOptionalExternalEventTimerAction a = false -> dropAllAt id b = b.
Proof.
  intros Ha Ho. unfold dropAllAt. cbn [dropLoop]. unfold dropOptionalExternalEventTimerAt. by rewrite Ha, Ho.
Qed.

(** What recording a decision changes in the table. *)
Definition confirms (id : Z) (b b' : Table) : Prop :=
  tb_pendingActions b' = delete id (tb_pendingActions b) /\ (forall p, getAction p b' = getAction p b) /\
  tb_bufferedResolutions b' = ∅ /\ (forall p, ct_isCompleted <$> getTask p b' = ct_isCompleted <$> getTask p b).

Lemma confirms_remove id b : tb_bufferedResolutions b = ∅ -> confirms id b (removePendingAction id b).
Proof. intros Hb. by split_and!. Qed.

Lemma align_found {X} (get : WorkflowAction -> option X) drop id b a x :
  pendingAction id b = Some a -> get a = Some x -> alignAction get drop id b = (b, Some (a, x)).
Proof. intros Ha Hx. unfold alignAction. rewrite Ha. cbn. by rewrite Hx. Qed.

Lemma record_confirms a e b :
  pendingAction (wa_Id a) b = Some a -> tb_bufferedResolutions b = ∅ -> records a e ->
  GetExecutionStarted e = None /\
  exists f, tableEvent ToUpper e = Some f /\ (f b).2 = None /\ confirms (wa_Id a) b (f b).1.
Proof.
  intros Ha Hb [Hid Ht]. pose proof (confirms_remove (wa_Id a) b Hb) as Hc.
  unfold tableEvent, GetExecutionStarted. rewrite Hid.
  destruct (wa_Type a) as [[x|x|x|x|x|x| |x]|] eqn:Ety, (EventType e) as [[]|]; try done;
    (split; [done |]; eexists; split; [done |]).
  - unfold onTaskScheduled. by rewrite (align_found _ _ _ b a x) by (done || unfold GetScheduleTask; by rewrite Ety).
  - unfold onChildWorkflowScheduled.
    rewrite (align_found _ _ _ b a x) by (done || unfold GetCreateChildWorkflow; by rewrite Ety). split; [done |].
    cbn [fst]. destruct (tb_pendingTasks b !! wa_Id a) as [p|]; [| done]. case_match; [| done]. split_and!; try done.
    intros q. transitivity (ct_isCompleted <$> getTask q (modTask (set_childInstanceID (cw_InstanceId x0)) p b)); [done |].
    rewrite getTask_modTask. destruct (decide (p = q)); by destruct (getTask q b).
  - unfold onTimerCreated.
    assert ((if isOptionalExternalEventTimerCreatedEvent x0 then b else dropAllAt (wa_Id a) b) = b) as ->.
    { case_match eqn:E; [done |]. apply (dropAllAt_none _ a); [done |].
      unfold isOptionalExternalEventTimerAction, isOptionalExternalEventTimerCreatedEvent, GetCreateTimer in *.
      rewrite Ety. destruct Ht as [<- Ho]. destruct (tcr_Origin x0) as [[]|], (ta_Origin x) as [[]|]; try done. }
    rewrite Ha. cbn [mbind option_bind]. unfold GetCreateTimer. rewrite Ety. split; [done |]. cbn [fst].
    unfold consumeReadyBufferedResolutions. by rewrite bool_decide_true.
  - unfold onDetachedWorkflowCreated.
    rewrite (align_found _ _ _ b a x) by (done || unfold GetCreateDetachedWorkflow; by rewrite Ety).
    rewrite <- Ht, String.eqb_refl. done.
Qed.


(** *** The machine on recorded decisions *)

(** The mode goes on with the next event. *)
Definition running (c : WorkflowContext) (mode : Mode) : Prop :=
  match mode with
  | MWait p _ => incomplete c p
  | MEnd | MPanic _ => False
  | _ => True
  end.

Definition live (c : WorkflowContext) : Prop :=
  cu_isTerminated (wc_cursor c) = false /\ cu_isSuspended (wc_cursor c) = false /\
  tb_bufferedResolutions (wc_table c) = ∅.

(** Everything but the table and the place is kept. *)
Definition sameRest (c c' : WorkflowContext) : Prop :=
  wc_report c' = wc_report c /\ wc_patches c' = wc_patches c /\ wc_VersionName c' = wc_VersionName c.

(** One recorded decision. *)
Lemma tick_confirm a e rest c mode :
  live c -> running c mode -> pendingAction (wa_Id a) (wc_table c) = Some a -> records a e ->
  drop (cu_historyIndex (wc_cursor c)) (historyOf c) = e :: rest ->
  exists c', tick (c, mode) = (c', mode) /\ confirms (wa_Id a) (wc_table c) (wc_table c') /\ live c' /\
    running c' mode /\ sameRest c c' /\ drop (cu_historyIndex (wc_cursor c')) (historyOf c') = rest.
Proof.
  intros (Ht & Hs & Hb) Hm Ha Hr Hd.
  destruct (record_confirms a e (wc_table c) Ha Hb Hr) as (Hst & f & Hf & Herr & Hc).
  assert (historyOf c !! cu_historyIndex (wc_cursor c) = Some e) as He.
  { rewrite <- (Nat.add_0_r (cu_historyIndex _)), <- lookup_drop, Hd. done. }
  destruct (getNextHistoryEvent c) as [[e' c1]|] eqn:E; cycle 1.
  { unfold getNextHistoryEvent in E. by rewrite He in E. }
  assert (sameRest c c1) as Hrest.
  { unfold getNextHistoryEvent in E. rewrite He in E. cbn in E. by injection E as <- <-. }
  pose proof (getNext_Some c e' c1 E) as (_ & He' & Eh & Ei & Es & Eis & Eit & Etb).
  assert (e' = e) as -> by congruence.
  set (c' := set_table (f (wc_table c)).1 c1).
  assert (handle e c1 = (c', None)) as Hh.
  { unfold TaskMachine.handle. rewrite (processEvent_table ToUpper errorTypeName errorText registry 1 e c1 f)
      by (done || by rewrite ?Eit, ?Eis). unfold onTableErr, c'. rewrite Etb.
    destruct (f (wc_table c)) as [b' err]. cbn in *. by rewrite Herr. }
  assert (forall p, incomplete c p -> incomplete c' p) as Hinc.
  { intros p. unfold incomplete. destruct Hc as (_ & _ & _ & Hcomp). specialize (Hcomp p). cbn.
    destruct (getTask p (wc_table c)), (getTask p (f (wc_table c)).1); cbn in *; congruence. }
  exists c'. split_and!; [| exact Hc | | | exact Hrest |].
  - rewrite (tick_running c mode e c1) by (done || (destruct mode; cbn in *; tauto)).
    destruct mode as [| p k | | |]; cbn [TaskMachine.step]; unfold stepOutside; rewrite ?Hst, ?Hh; try done.
    cbn [TaskMachine.settle]. by rewrite (Hinc p Hm).
  - split_and!; [by cbn; rewrite Eit | by cbn; rewrite Eis | apply Hc].
  - destruct mode; cbn in *; auto.
  - cbn. rewrite Ei. change (historyOf c') with (historyOf c1). rewrite Eh.
    rewrite (drop_S _ _ _ He) in Hd. by injection Hd.
Qed.


Lemma ticks_confirm l S rest c mode :
  Forall2 records l S -> NoDup (wa_Id <$> l) ->
  (forall a, a ∈ l -> exists a', pendingAction (wa_Id a) (wc_table c) = Some a' /\ eraseAction a' = eraseAction a) ->
  (forall id, is_Some (tb_pendingActions (wc_table c) !! id) -> id ∈ wa_Id <$> l) ->
  live c -> running c mode -> drop (cu_historyIndex (wc_cursor c)) (historyOf c) = S ++ rest ->
  exists c', ticks (length S) (c, mode) = (c', mode) /\ tb_pendingActions (wc_table c') = ∅ /\ sameRest c c'.
Proof.
  intros Hr. revert c. induction Hr as [|a e l S Hae Hr IH]; intros c Hd Hin Hall Hlive Hrun Hev; cbn [length TaskMachine.ticks].
  - exists c. split_and!; try done. apply map_empty. intros id. destruct (tb_pendingActions _ !! id) eqn:E; [| done].
    specialize (Hall id ltac:(eauto)). by apply not_elem_of_nil in Hall.
  - apply NoDup_cons in Hd as [Hnot Hd]. destruct (Hin a ltac:(left)) as (a' & Ha' & Ee).
    assert (wa_Id a' = wa_Id a) as Eid by (by rewrite <- erase_Id, Ee, erase_Id). rewrite <- Eid in Ha'.
    destruct (tick_confirm a' e (S ++ rest) c mode Hlive Hrun Ha' (records_erase a a' e Ee Hae) Hev)
      as (c1 & Et & (Hp & Hact & _) & Hlive' & Hrun' & Hsame & Hev'). rewrite Et.
    destruct (IH c1) as (c' & Hticks & Hempty & Hsame'); try done.
    + intros x Hx. destruct (Hin x ltac:(by right)) as (x' & Hx' & Ex). exists x'. split; [| done].
      unfold pendingAction in *. rewrite Hp, lookup_delete_ne.
      * destruct (tb_pendingActions (wc_table c) !! wa_Id x) as [p|]; cbn in *; [| done]. by rewrite Hact.
      * intros E. apply Hnot. rewrite <- Eid, E. by apply list_elem_of_fmap_2.
    + intros id. rewrite Hp. intros [Hid Hsome]%lookup_delete_is_Some. specialize (Hall id Hsome).
      rewrite fmap_cons in Hall. apply elem_of_cons in Hall as [-> |]; [| done]. by rewrite Eid in Hid.
    + exists c'. split_and!; try done. destruct Hsame as (? & ? & ?), Hsame' as (? & ? & ?). split_and!; congruence.
Qed.


(** *** An ended turn has a completion *)

Definition isConclusion (a : WorkflowAction) : bool := from_option conclusionType false (wa_Type a).

Definition hasConclusion (b : Table) : Prop := exists id a, pendingAction id b = Some a /\ isConclusion a = true.

Definition concluded (st : WorkflowContext * Mode) : Prop :=
  (cu_isTerminated (wc_cursor st.1) = true \/ st.2 = MEnd -> hasConclusion (wc_table st.1)) /\
  (st.2 = MEnd -> cu_isSuspended (wc_cursor st.1) = false).

Lemma schedule_conclusion ty r b :
  isConclusion (mkWorkflowAction 0 (Some ty) r) = true -> hasConclusion (scheduleAction ty r b).2.
Proof.
  intros H. exists (tb_sequenceNumber b), (mkWorkflowAction (tb_sequenceNumber b) (Some ty) r). split; [| done].
  unfold pendingAction, getAction. cbn. by rewrite lookup_insert_eq; cbn; rewrite lookup_insert_eq.
Qed.

Lemma onHistoryError_conclusion err c : hasConclusion (wc_table (onHistoryError errorTypeName errorText err c)).
Proof. unfold onHistoryError. case_match; by apply (schedule_conclusion _ None (wc_table c)). Qed.

Lemma onExecutionTerminated_conclusion et c : hasConclusion (wc_table (onExecutionTerminated et c)).
Proof.
  unfold onExecutionTerminated. change (wc_table (set_terminated c)) with (wc_table c). cbv zeta.
  destruct (terminateScan (wc_table c) _) as [m|] eqn:E; [by apply (schedule_conclusion _ None (set_pendingActions m (wc_table c))) |].
  change (hasConclusion (wc_table c)).
  assert (forall id p, (id, p) ∈ rangeOrder (tb_pendingActions (wc_table c)) -> tb_pendingActions (wc_table c) !! id = Some p) as Hl
    by (intros id p; apply elem_of_rangeOrder). revert E Hl.
  induction (rangeOrder (tb_pendingActions (wc_table c))) as [|[id p] l IH]; cbn; [done |]. intros E Hl.
  destruct (getAction p (wc_table c) ≫= GetCompleteWorkflow) as [co|] eqn:Ea.
  - apply bind_Some in Ea as (a & Ha & Hco). exists id, a. unfold pendingAction. rewrite (Hl id p ltac:(left)). split; [done |].
    unfold GetCompleteWorkflow, isConclusion in *. by repeat case_match.
  - apply IH; [done |]. intros id' p' Hp. apply Hl. by right.
Qed.

Lemma handle_terminated e c : cu_isTerminated (wc_cursor c) = true -> handle e c = (c, None).
Proof. intros Ht. unfold TaskMachine.handle. by rewrite processEvent_terminated. Qed.

Lemma held_event_flag e c :
  heldWhileSuspended e = true -> GetExecutionStarted e = None ->
  cu_isTerminated (wc_cursor (processEvent 1 e c).1) = cu_isTerminated (wc_cursor c).
Proof.
  intros Hh Hs. cbn [TaskExecutor.processEvent]. do 2 (case_match; [done |]).
  unfold GetExecutionStarted in Hs. unfold heldWhileSuspended in Hh.
  destruct (EventType e) as [[]|]; try done; unfold onTableErr, onWorkflowStarted; by repeat case_match.
Qed.

Lemma resumeLoop_flag l c :
  Forall (fun e => heldWhileSuspended e = true /\ GetExecutionStarted e = None) l ->
  cu_isTerminated (wc_cursor (resumeLoop (processEvent 1) l c).1) = cu_isTerminated (wc_cursor c).
Proof.
  intros Hl. revert c. induction Hl as [|e l [He Hs] Hl IH]; intros c; cbn [resumeLoop]; [done |].
  pose proof (held_event_flag e c He Hs) as E. destruct (processEvent 1 e c) as [c' [[]| | |]]; try done. by rewrite IH.
Qed.

(** The flag is set by the termination event only. *)
Lemma handle_flag e c :
  quiet c -> GetExecutionStarted e = None -> cu_isTerminated (wc_cursor c) = false ->
  cu_isTerminated (wc_cursor (handle e c).1) = true ->
  (handle e c).2 = None /\ hasConclusion (wc_table (handle e c).1) /\
  (forall p, incomplete c p -> incomplete (handle e c).1 p).
Proof.
  intros Hq Hs Ht. unfold TaskMachine.handle. destruct (heldWhileSuspended e) eqn:Eh.
  { rewrite (proj1 (held_event_fuel ToUpper errorTypeName errorText registry 1 e c Eh Hs)).
    pose proof (held_event_flag e c Eh Hs) as E. destruct (processEvent 1 e c) as [c' []]; cbn in *; congruence. }
  unfold heldWhileSuspended in Eh. cbn [TaskExecutor.processEvent]. unfold heldWhileSuspended.
  destruct (EventType e) as [[]|]; try done; rewrite andb_false_r, Ht.
  - intros _. split_and!; [done | apply onExecutionTerminated_conclusion |].
    intros p. unfold incomplete, onExecutionTerminated. cbn [fst]. by case_match.
  - unfold onExecutionResumed.
    pose proof (resumeLoop_flag (cu_suspendedEvents (wc_cursor c)) (set_suspension false (cu_suspendedEvents (wc_cursor c)) c) Hq) as E.
    destruct (resumeLoop _ _ _) as [c' []]; cbn in *; congruence.
Qed.

(** Handlers fail only while the workflow is not suspended. *)
Lemma held_event_error e c err :
  heldWhileSuspended e = true -> GetExecutionStarted e = None -> (processEvent 1 e c).2 = RRet (Some err) ->
  cu_isSuspended (wc_cursor (processEvent 1 e c).1) = false.
Proof.
  intros Hh Hs. cbn [TaskExecutor.processEvent]. case_match; [done |]. rewrite Hh, andb_true_r.
  destruct (cu_isSuspended (wc_cursor c)) eqn:E; [done |].
  unfold GetExecutionStarted in Hs. unfold heldWhileSuspended in Hh.
  destruct (EventType e) as [[]|]; try done; unfold onTableErr, onWorkflowStarted; by repeat case_match.
Qed.

Lemma resumeLoop_error l c err :
  Forall (fun e => heldWhileSuspended e = true /\ GetExecutionStarted e = None) l ->
  (resumeLoop (processEvent 1) l c).2 = RRet (Some err) ->
  cu_isSuspended (wc_cursor (resumeLoop (processEvent 1) l c).1) = false.
Proof.
  intros Hl. revert c. induction Hl as [|e l [He Hs] Hl IH]; intros c; cbn [resumeLoop]; [done |].
  pose proof (held_event_error e c) as Herr. destruct (processEvent 1 e c) as [c' [[err'|] | | |]]; try done.
  - intros _. by eapply Herr.
  - apply IH.
Qed.

Lemma handle_error e c err :
  quiet c -> GetExecutionStarted e = None -> (handle e c).2 = Some err ->
  cu_isSuspended (wc_cursor (handle e c).1) = false.
Proof.
  intros Hq Hs. unfold TaskMachine.handle. destruct (heldWhileSuspended e) eqn:Eh.
  { rewrite (proj1 (held_event_fuel ToUpper errorTypeName errorText registry 1 e c Eh Hs)).
    pose proof (held_event_error e c err Eh Hs) as E. destruct (processEvent 1 e c) as [c' []]; cbn in *; try done.
    intros ->. by apply E. }
  unfold heldWhileSuspended in Eh. cbn [TaskExecutor.processEvent]. unfold heldWhileSuspended.
  destruct (EventType e) as [[]|]; try done; rewrite andb_false_r; (destruct (cu_isTerminated (wc_cursor c)); [done |]); try done.
  unfold onExecutionResumed. set (c0 := set_suspension false _ c).
  pose proof (resumeLoop_error (cu_suspendedEvents (wc_cursor c)) c0 err Hq) as E.
  destruct (resumeLoop _ _ c0) as [c' []]; cbn in *; try done. intros ->. by apply E.
Qed.

Lemma step_concluded e c mode :
  deliverable e c mode -> (match mode with MWait p _ => incomplete c p | _ => True end) ->
  (cu_isTerminated (wc_cursor c) = true -> hasConclusion (wc_table c)) -> concluded (step e (c, mode)).
Proof.
  intros Hd Hinc Hc. assert (forall mo, quiet c -> GetExecutionStarted e = None -> mo <> MEnd ->
    concluded (stepOutside ToUpper errorTypeName errorText registry mo e c)) as Hout.
  { intros mo Hq Hs Hmo. unfold stepOutside. destruct (cu_isTerminated (wc_cursor c)) eqn:Ht.
    { rewrite handle_terminated by done. by split; [intros _; auto |]. }
    pose proof (handle_flag e c Hq Hs Ht) as Hf. pose proof (handle_error e c) as He.
    destruct (handle e c) as [c' [err|]]; cbn [fst snd] in *.
    - split; intros _; [apply onHistoryError_conclusion |]. cbn. rewrite onHistoryError_cursor. by eapply He.
    - split; [| done]. intros [Ht' | ?]; [by apply Hf | done]. }
  assert (forall m c', guardedM c' m -> ready c' -> cu_isTerminated (wc_cursor c') = false ->
    concluded (settle m c')) as Hset.
  { intros m c' Hg Hr Ht. destruct (sound_settle m c' Hg Hr) as [E _].
    assert ((settle m c').2 <> MEnd) as Hne; [| by split; [intros [Ht' | He]; [congruence | done] |]].
    clear. revert c'. induction m as [[o e] | | | | p k IH]; intros c'; cbn; try done; auto.
    case_match; [auto | done]. }
  destruct mode as [| p k | | |]; cbn [deliverable TaskMachine.step] in *; [| | | done | done].
  - destruct Hd as [Hn Hy]. destruct (GetExecutionStarted e) as [es|] eqn:Ees.
    + destruct (Hy ltac:(done)) as [Hr [Haw _]].
      destruct (cu_isTerminated (wc_cursor c)) eqn:Ht; [by split; [intros _; auto |] |]. unfold begin.
      destruct (ResolveWorkflow _ _ _) as [[w v]|err]; cycle 1.
      { split; intros _; [apply onHistoryError_conclusion | cbn; by rewrite onHistoryError_cursor]. }
      apply Hset; [| by apply (ready_cursor c), Hr; apply prepareStart_cursor | by rewrite prepareStart_cursor].
      apply Guarded_denote.
    + destruct (Hn eq_refl) as [Hq _]. by apply Hout.
  - destruct Hd as (Hs & Hr & Hk). destruct (cu_isTerminated (wc_cursor c)) eqn:Ht.
    + rewrite handle_terminated by done. cbn [TaskMachine.settle]. rewrite Hinc. by split; [intros _; auto |].
    + pose proof (handle_flag e c (proj1 Hr) Hs Ht) as Hf.
      destruct (handle_calm ToUpper errorTypeName errorText registry e c (proj1 Hr) Hs) as [Hp Hq].
      assert (ready (handle e c).1) as Hr' by (split; [by apply Hq, Hr | by apply (samePlace_startFree c), Hr]).
      destruct (handle e c) as [c' [err|]]; cbn [fst snd] in *.
      * apply Hset; [apply Hk | done |]. destruct (cu_isTerminated (wc_cursor c')); [by destruct Hf | done].
      * destruct (cu_isTerminated (wc_cursor c')) eqn:Ht'; [| by apply Hset].
        destruct (Hf eq_refl) as (_ & Hc' & Hi). cbn [TaskMachine.settle]. rewrite (Hi p Hinc). by split; [intros _ |].
  - destruct Hd as (Hs & [Hq _]). by apply Hout.
Qed.


Lemma ticks_concluded n st :
  sound st -> concluded st -> (n <= remaining st.1)%nat \/ ended st.2 -> concluded (ticks n st).
Proof.
  revert st. induction n as [|n IH]; intros [c mode] Hs Hc Hn; cbn [TaskMachine.ticks]; [done |].
  destruct (decide (ended mode)) as [He|Hne].
  { rewrite tick_ended by done. apply IH; auto. }
  cbn [fst snd] in *. assert (0 < remaining c)%nat as Hpos by (destruct Hn; [lia | done]).
  destruct (tick_sound c mode Hs Hne Hpos) as (Hs' & Hr & _ & _).
  destruct (getNextHistoryEvent c) as [[e c1]|] eqn:E; [| apply getNext_None in E; lia].
  apply IH; [done | | left; destruct Hn; [lia | done]].
  rewrite (tick_running c mode e c1 Hne E). pose proof (getNext_Some c e c1 E) as (_ & _ & _ & _ & _ & _ & Et & Etb).
  apply step_concluded; [by apply (next_deliverable c) | | rewrite Et, Etb; intros; apply (proj1 Hc); by left].
  destruct mode; try done. unfold incomplete. rewrite Etb. apply Hs.
Qed.

(** *** The actions of a turn *)

Lemma tableActions_pending carry b a :
  table_wf b -> a ∈ tableActions carry b ->
  exists a0 ev, pendingAction (wa_Id a) b = Some a0 /\ a = addCarryover ev a0.
Proof.
  intros Hw. unfold tableActions. rewrite merge_sort_Permutation. intros (a0 & -> & Ha)%list_elem_of_fmap.
  apply list_elem_of_filter in Ha as [_ Ha]. apply list_elem_of_omap in Ha as ([id p] & Hin & Ha). cbn [snd] in Ha.
  apply elem_of_rangeOrder in Hin. destruct (wf_actions b Hw id p Hin) as (a1 & Ha1 & Hid & _).
  assert (a1 = a0) as -> by congruence. rewrite addCarryover_Id, Hid. unfold pendingAction. rewrite Hin. cbn. eauto.
Qed.

Lemma emitted_tableActions carry b id a :
  pendingAction id b = Some a -> emitted b a = true -> exists ev, addCarryover ev a ∈ tableActions carry b.
Proof.
  intros Ha He. apply bind_Some in Ha as (p & Hp & Ha). eexists.
  unfold tableActions. rewrite merge_sort_Permutation. apply list_elem_of_fmap. eexists; split; [done |].
  apply list_elem_of_filter. split; [done |]. apply list_elem_of_omap. exists (id, p).
  split; [by apply elem_of_rangeOrder | done].
Qed.

Lemma pending_tableActions carry b id p :
  table_wf b -> tb_bufferedResolutions b = ∅ -> tb_pendingActions b !! id = Some p ->
  exists a ev, getAction p b = Some a /\ wa_Id a = id /\ addCarryover ev a ∈ tableActions carry b.
Proof.
  intros Hw Hb Hp. destruct (wf_actions b Hw id p Hp) as (a & Ha & Hid & _).
  destruct (emitted_tableActions carry b id a) as [ev Hin]; [unfold pendingAction; by rewrite Hp | | by exists a, ev].
  unfold emitted, actionIDProvisional. rewrite Hb. case_match; [done |]. by rewrite bool_decide_true, orb_true_r.
Qed.

Lemma records_plain a ev e : records (addCarryover ev a) e -> addCarryover ev a = a /\ isConclusion a = false.
Proof. unfold records. intros [_ H]. by destruct a as [? [[]|] ?]; cbn in *. Qed.

Lemma start_final id old new ph w c acts :
  oneStart (old ++ new) = true ->
  start ToUpper errorTypeName errorText registry (NewWorkflowContext id old new ph w) = (c, RRet acts) ->
  exists mode, ticks (length (old ++ new)) (NewWorkflowContext id old new ph w, MIdle) = (c, mode) /\
    acts = actions c /\ (forall msg, mode <> MPanic msg) /\ sound (c, mode) /\ concluded (c, mode) /\
    table_wf (wc_table c).
Proof.
  intros Ho Hst. pose proof (start_wf ToUpper errorTypeName errorText registry (NewWorkflowContext id old new ph w)
    wf_emptyTable) as Hw. rewrite Hst in Hw. rewrite start_machine in Hst by done. set (c0 := NewWorkflowContext id old new ph w) in *.
  assert (length (old ++ new) <= remaining c0)%nat as Hr by (unfold remaining; cbn; lia).
  destruct (ticks_sound (length (old ++ new)) (c0, MIdle)) as (Hs & _);
    [by apply sound_initial | by left |].
  assert (concluded (ticks (length (old ++ new)) (c0, MIdle))) as Hc.
  { apply ticks_concluded; [by apply sound_initial | by split; [intros [] |] | by left]. }
  destruct (ticks _ (c0, MIdle)) as [c' mode]. exists mode.
  destruct mode; cbn in Hst; simplify_eq; done.
Qed.

Lemma records_free acts events :
  Forall2 records acts events ->
  Forall (fun e => GetExecutionStarted e = None /\ GetExecutionSuspended e = None) events.
Proof.
  induction 1 as [|a e acts events [_ H] Hr IH]; constructor; [| done].
  unfold GetExecutionStarted, GetExecutionSuspended. destruct (wa_Type a) as [[]|], (EventType e) as [[]|]; done.
Qed.

Lemma oneStart_app l k :
  oneStart l = true -> Forall (fun e => GetExecutionStarted e = None /\ GetExecutionSuspended e = None) k ->
  oneStart (l ++ k) = true.
Proof.
  intros Hl Hk. induction l as [|e l IH]; cbn [oneStart app] in *.
  - induction Hk as [|e k [E1 E2] Hk IHk]; cbn; [done |]. by rewrite E1, E2.
  - destruct (GetExecutionStarted e).
    + rewrite forallb_app, Hl. cbn. rewrite forallb_forall. intros x Hx%list_elem_of_In. apply bool_decide_eq_true.
      rewrite Forall_forall in Hk. by apply Hk.
    + apply andb_true_iff in Hl as [-> Hl]. by rewrite IH.
Qed.

(** When every decision has a record the function has not ended. *)
Lemma recorded_live carry b events :
  table_wf b -> tb_bufferedResolutions b = ∅ -> Forall2 records (tableActions carry b) events -> ~ hasConclusion b.
Proof.
  intros Hw Hb Hr (id & a & Ha & Hc). apply bind_Some in Ha as (p & Hp & Ha).
  destruct (pending_tableActions carry b id p Hw Hb Hp) as (a' & ev & Ha' & _ & Hin). assert (a' = a) as -> by congruence.
  apply list_elem_of_lookup in Hin as [i Hi]. destruct (Forall2_lookup_l _ _ _ _ _ Hr Hi) as (e & _ & He).
  apply records_plain in He as [_ He]. congruence.
Qed.

Lemma sorted_NoDup (l : list Z) : StronglySorted Z.lt l -> NoDup l.
Proof.
  induction 1 as [|x l Hs IH Hx]; constructor; [| done]. rewrite Forall_forall in Hx. intros Hin.
  specialize (Hx x Hin). lia.
Qed.

(** A turn whose actions all have records has not ended. *)
Lemma recorded_goes_on c mode events :
  table_wf (wc_table c) -> tb_bufferedResolutions (wc_table c) = ∅ -> concluded (c, mode) ->
  (forall msg, mode <> MPanic msg) -> Forall2 records (actions c) events ->
  ~ ended mode /\ cu_isTerminated (wc_cursor c) = false.
Proof.
  intros Hw Hb [Hc Hn] Hp Hr. cbn [fst snd] in *. unfold actions in Hr.
  assert ((cu_isTerminated (wc_cursor c) = true \/ mode = MEnd) -> False) as Hno.
  { intros Hend. pose proof (Hc Hend) as Hcon. destruct Hend as [E | ->];
      [rewrite E, andb_false_r in Hr | rewrite (Hn eq_refl) in Hr]; exact (recorded_live _ _ _ Hw Hb Hr Hcon). }
  split; [| apply not_true_is_false; intros E; apply Hno; by left].
  destruct mode; cbn; [tauto .. | by intros _; apply Hno; right | by destruct (Hp msg)].
Qed.

(** The records of a turn, seen by the machine that is where the turn ended. *)
Lemma replay_records full mark known c1 mode d m2 events :
  table_wf (wc_table c1) -> tb_bufferedResolutions (wc_table c1) = ∅ -> sound (c1, mode) -> concluded (c1, mode) ->
  (forall msg, mode <> MPanic msg) -> Forall2 records (actions c1) events ->
  stateLike full mark known (c1, mode) (d, m2) ->
  (~ ended mode -> drop (cu_historyIndex (wc_cursor d)) (historyOf d) = events) ->
  exists c2, ticks (length events) (d, m2) = (c2, m2) /\ actions c2 = [] /\ sameRest d c2.
Proof.
  intros Hw Hb Hs Hc Hp Hr [Hl Hm] Hd. cbn [fst snd] in *.
  destruct (cu_isSuspended (wc_cursor c1) && negb (cu_isTerminated (wc_cursor c1))) eqn:Es.
  { assert (actions c1 = []) as Ea by (unfold actions; by rewrite Es). rewrite Ea in Hr. inversion Hr; subst.
    exists d. split_and!; try done. pose proof (like_actions _ _ _ _ _ Hl) as E. rewrite Ea in E. by apply fmap_nil_inv in E. }
  set (carry := re_continuedAsNew (wc_report c1) && re_saveBufferedExternalEvents (wc_report c1)).
  assert (actions c1 = tableActions carry (wc_table c1)) as Ea by (unfold actions; by rewrite Es). rewrite Ea in Hr.
  destruct (recorded_goes_on c1 mode events) as [Hne Et]; [done .. | by rewrite Ea |].
  rewrite Et, andb_true_r in Es. pose proof (lk_table _ _ Hl) as Ht.
  destruct (alike_fields _ _ Ht) as (_ & Epa & _ & _ & Ebr & _).
  destruct (ticks_confirm (tableActions carry (wc_table c1)) events [] d m2) as (c2 & Hticks & Hempty & Hsame).
  - done.
  - apply sorted_NoDup, tableActions_ordered, Hw.
  - intros a Ha. destruct (tableActions_pending carry _ a Hw Ha) as (a0 & ev & Ha0 & Ea0).
    apply list_elem_of_lookup in Ha as [i Hi]. destruct (Forall2_lookup_l _ _ _ _ _ Hr Hi) as (e & _ & He).
    rewrite Ea0 in He. apply records_plain in He as [He _]. rewrite He in Ea0. subst a0.
    pose proof (alike_pendingAction eraseAction (wa_Id a) _ _ ltac:(by action_cases) Ht) as E. rewrite Ha0 in E.
    destruct (pendingAction (wa_Id a) (wc_table d)) as [a'|]; [| done]. apply Some_inj in E. eauto.
  - intros k. rewrite Epa. intros [p Hpk]. destruct (pending_tableActions carry _ k p Hw Hb Hpk) as (a & ev & _ & <- & Hin).
    rewrite <- (addCarryover_Id ev a). by apply list_elem_of_fmap_2.
  - split_and!; [by rewrite (lk_isTerminated _ _ Hl) | by rewrite (lk_isSuspended _ _ Hl) | by rewrite Ebr].
  - destruct Hm as [| p k1 k2 Hk | | |]; cbn in *; try tauto. destruct Hs as (_ & _ & Hs). unfold incomplete in *.
    by destruct (alike_case _ _ p Ht) as [(t1 & t2 & E1 & E2 & (Ec & _)%erased_task) | [E1 E2]]; rewrite E2; rewrite E1 in Hs; cbn in *; [rewrite Ec |].
  - rewrite app_nil_r. by apply Hd.
  - exists c2. split_and!; try done. unfold actions. case_match; [done |]. unfold tableActions. rewrite Hempty.
    assert (rangeOrder (∅ : gmap Z nat) = []) as ->; [| done]. apply Permutation_nil_r. by rewrite rangeOrder_perm.
Qed.

(** *** Termination *)

(** A termination event ends the execution, or the turn had ended. *)
Definition stopped (st : WorkflowContext * Mode) : Prop := cu_isTerminated (wc_cursor st.1) = true \/ ended st.2.

Lemma tick_stopped c mode :
  sound (c, mode) -> stopped (c, mode) -> stopped (tick (c, mode)).
Proof.
  intros Hs [Ht | He]; [| by rewrite tick_ended; [right |]]. cbn in Ht. unfold TaskMachine.tick. cbn [fst snd].
  destruct (getNextHistoryEvent c) as [[e c1]|] eqn:E; [| by left; destruct mode].
  apply getNext_Some in E as (_ & _ & _ & _ & _ & _ & Et & Etb). rewrite Ht in Et.
  destruct mode as [| p k | | |]; try by left.
  - left. cbn [TaskMachine.step]. destruct (GetExecutionStarted e); [by rewrite Et |].
    unfold stepOutside. by rewrite handle_terminated.
  - left. cbn [TaskMachine.step TaskMachine.settle]. rewrite handle_terminated by done. cbn [TaskMachine.settle].
    destruct Hs as (_ & _ & Hi). unfold incomplete in Hi. cbn in Hi. rewrite Etb, Hi. done.
  - left. cbn [TaskMachine.step]. unfold stepOutside. by rewrite handle_terminated.
Qed.

Lemma step_terminated e c mode :
  GetExecutionTerminated e <> None -> deliverable e c mode -> (match mode with MWait p _ => incomplete c p | _ => True end) ->
  stopped (step e (c, mode)).
Proof.
  intros He Hd Hi. assert (GetExecutionStarted e = None) as Hs.
  { unfold GetExecutionTerminated, GetExecutionStarted in *. by repeat case_match. }
  assert (cu_isTerminated (wc_cursor (handle e c).1) = true /\ (handle e c).2 = None /\
          forall p, incomplete c p -> incomplete (handle e c).1 p) as (Ht & Herr & Hinc).
  { destruct (cu_isTerminated (wc_cursor c)) eqn:Ec; [by rewrite handle_terminated |].
    assert (cu_isTerminated (wc_cursor (handle e c).1) = true) as Ht.
    { unfold TaskMachine.handle. cbn [TaskExecutor.processEvent]. rewrite Ec. unfold heldWhileSuspended, GetExecutionTerminated in *.
      destruct (EventType e) as [[]|]; try done. rewrite andb_false_r. unfold onExecutionTerminated. by destruct (terminateScan _ _). }
    assert (quiet c) as Hq.
    { destruct mode; cbn in Hd; try done; [apply (proj1 (proj1 Hd Hs)) | apply Hd | apply Hd]. }
    by destruct (handle_flag e c Hq Hs Ec Ht) as (? & _ & ?). }
  destruct mode as [| p k | | |]; cbn [TaskMachine.step]; [rewrite Hs; unfold stepOutside | | unfold stepOutside | done | done];
    destruct (handle e c) as [c' [err|]]; cbn [fst snd] in *; try done; left; try done.
  cbn [TaskMachine.settle]. by rewrite (Hinc p Hi).
Qed.

Lemma ticks_stopped n st :
  sound st -> (n <= remaining st.1)%nat \/ ended st.2 ->
  stopped st \/ (exists i e, cu_historyIndex (wc_cursor st.1) <= i < cu_historyIndex (wc_cursor st.1) + n /\
    historyOf st.1 !! i = Some e /\ GetExecutionTerminated e <> None)%nat ->
  stopped (ticks n st).
Proof.
  revert st. induction n as [|n IH]; intros [c mode] Hs Hn He; cbn [TaskMachine.ticks fst snd] in *.
  { destruct He as [? | (i & e & ? & _)]; [done | lia]. }
  destruct (decide (ended mode)) as [Hend|Hne].
  { rewrite tick_ended by done. apply IH; [done | by right | by left; right]. }
  assert (0 < remaining c)%nat as Hpos by (destruct Hn; [lia | done]).
  destruct (tick_sound c mode Hs Hne Hpos) as (Hs' & Hr & Hi & Hh).
  apply IH; [done | left; destruct Hn; [lia | done] |].
  destruct He as [He | (i & e & Hrange & Hie & Het)]; [left; by apply tick_stopped |].
  destruct (decide (i = cu_historyIndex (wc_cursor c))) as [-> |Hneq].
  - left. destruct (getNextHistoryEvent c) as [[e' c1]|] eqn:E; [| apply getNext_None in E; lia].
    rewrite (tick_running c mode e' c1 Hne E).
    pose proof (getNext_Some c e' c1 E) as (_ & He' & _ & _ & _ & _ & _ & Etb). assert (e' = e) as -> by congruence.
    apply step_terminated; [done | by apply (next_deliverable c) |].
    destruct mode; try done. unfold incomplete. rewrite Etb. apply Hs.
  - right. exists i, e. rewrite Hi, Hh. split_and!; [lia | lia | done | done].
Qed.

(** *** Up to the marker of the turn *)

(** Events that leave the version alone. *)
Lemma ticks_version n c mode :
  sound (c, mode) -> (n <= remaining c)%nat -> markerFree c ->
  Forall (fun e => GetExecutionStarted e = None /\ GetWorkflowStarted e = None)
    (take n (drop (cu_historyIndex (wc_cursor c)) (historyOf c))) ->
  wc_VersionName (ticks n (c, mode)).1 = wc_VersionName c.
Proof.
  revert c mode. induction n as [|n IH]; intros c mode Hs Hn Hf Hev; cbn [TaskMachine.ticks]; [done |].
  destruct (decide (ended mode)) as [He|Hne].
  { rewrite tick_ended by done. rewrite ticks_end; [done |]. destruct mode; eauto; done. }
  destruct (tick_sound c mode Hs Hne ltac:(lia)) as (Hs' & Hr & Hi & Hh).
  destruct (getNextHistoryEvent c) as [[e c1]|] eqn:E; [| apply getNext_None in E; lia].
  pose proof (getNext_Some c e c1 E) as (_ & He1 & _ & _ & Esu & _). destruct (getNext_same c e c1 E) as [_ Ev].
  rewrite (drop_S _ _ _ He1) in Hev. cbn [take] in Hev. apply Forall_cons in Hev as [[Hes Hws] Hev].
  pose proof (ka_version _ _ _ (step_keepsAll e c1 mode (next_deliverable c mode e c1 Hs Hne E)) Hes Hws) as Hv.
  rewrite <- (tick_running c mode e c1 Hne E) in Hv.
  destruct Hv as [Hv Hf']; [unfold markerFree; by rewrite Esu |].
  destruct (tick (c, mode)) as [c' mode']. cbn [fst] in *. rewrite <- Ev, <- Hv. apply IH; [done | lia | done |].
  by rewrite Hi, Hh.
Qed.

(** The marker of a turn, read by a context that is awake. *)
Lemma tick_marker c mode e os c1 :
  sound (c, mode) -> ~ ended mode -> awake c -> cu_isTerminated (wc_cursor c) = false ->
  getNextHistoryEvent c = Some (e, c1) -> EventType e = Some (HistoryEvent_WorkflowStarted os) ->
  tick (c, mode) = (onWorkflowStarted e os c1, mode).
Proof.
  intros Hs Hne [Ha _] Ht E Ety. rewrite (tick_running c mode e c1 Hne E).
  pose proof (getNext_Some c e c1 E) as (_ & _ & _ & _ & _ & Esu & Et & Etb).
  assert (handle e c1 = (onWorkflowStarted e os c1, None)) as Hh.
  { unfold TaskMachine.handle. cbn [TaskExecutor.processEvent]. rewrite Et, Ht, Esu, Ha, Ety. done. }
  destruct mode as [| p k | | |]; cbn [TaskMachine.step]; unfold stepOutside; rewrite ?Hh; try done.
  - unfold GetExecutionStarted. by rewrite Ety.
  - destruct Hs as (_ & _ & Hinc). unfold incomplete in Hinc. cbn [fst] in Hinc. cbn [TaskMachine.settle].
    assert (wc_table (onWorkflowStarted e os c1) = wc_table c) as ->; [| by rewrite Hinc].
    unfold onWorkflowStarted. rewrite <- Etb. by repeat case_match.
Qed.

(** *** The marker with the version on record *)

(** The marker [e] of a turn with the reported version. *)
Definition stampMarker (v : option WorkflowVersion) (e : HistoryEvent) : HistoryEvent :=
  match v with
  | Some _ => mkHistoryEvent (EventId e) (Timestamp e)
      (Some (HistoryEvent_WorkflowStarted (mkWorkflowStartedEvent v))) (Router e)
  | None => e
  end.

Definition plainMarker (e : HistoryEvent) : Prop :=
  EventType e = Some (HistoryEvent_WorkflowStarted (mkWorkflowStartedEvent None)).
Definition patchesOn (v : option WorkflowVersion) : gset string := list_to_set (default [] (wv_Patches <$> v)).
Definition nameOn (v : option WorkflowVersion) (name : option string) : option string :=
  match v ≫= wv_Name with Some n => Some n | None => name end.

Lemma stampMarker_type v e :
  plainMarker e -> EventType (stampMarker v e) = Some (HistoryEvent_WorkflowStarted (mkWorkflowStartedEvent v)).
Proof. by destruct v. Qed.

(** The stamped marker brings the patches and the version on record, and nothing else. *)
Lemma like_marker mark v c1 c2 e d1 :
  like (full := false) (mark := mark) (known := patchesOn v) c1 c2 ->
  cu_historyIndex (wc_cursor c1) = mark -> plainMarker e -> getNextHistoryEvent c1 = Some (e, d1) ->
  historyOf c2 !! mark = Some (stampMarker v e) ->
  let e1 := onWorkflowStarted e (mkWorkflowStartedEvent None) d1 in
  exists d2, getNextHistoryEvent c2 = Some (stampMarker v e, d2) /\
    let e2 := onWorkflowStarted (stampMarker v e) (mkWorkflowStartedEvent v) d2 in
    wc_VersionName e1 = wc_VersionName c1 /\ wc_VersionName e2 = nameOn v (wc_VersionName c1) /\
    like (full := false) (mark := mark) (known := patchesOn v) e1 (set_VersionName (wc_VersionName e1) e2).
Proof.
  intros Hc Hm He E H2 e1. unfold getNextHistoryEvent in *. rewrite (lk_index _ _ Hc), Hm, H2.
  destruct (historyOf c1 !! _) as [x|] eqn:E1; [| done]. injection E as -> <-.
  eexists. split; [done |]. cbn zeta. assert (Timestamp (stampMarker v e) = Timestamp e) as Et by by destruct v.
  pose proof Hc as [? ? Ev ? ? ? ? ? ? ? ? ? ? [Pa Pe Ph] ?].
  unfold e1, onWorkflowStarted, nameOn, patchesOn in *. rewrite Et. cbn [ws_Version]. split; [done |].
  assert (ahead (full := false) (mark := mark) (known := patchesOn v) (S (cu_historyIndex (wc_cursor c1))) = patchesOn v) as Eahead.
  { unfold ahead. cbn [orb]. rewrite Hm. assert ((S mark <=? mark)%nat = false) as -> by (apply Nat.leb_gt; lia). done. }
  assert (ahead (full := false) (mark := mark) (known := patchesOn v) (cu_historyIndex (wc_cursor c1)) = ∅) as Ebefore.
  { unfold ahead. cbn. by rewrite Hm, Nat.leb_refl. }
  unfold patchesOn in *. rewrite Ebefore in Ph.
  destruct v as [[ps [n|]]|]; cbn in *; (split; [congruence |]); (split; try done; [cbn; by rewrite Hm |]);
    (split; cbn; [done | done |]); rewrite Eahead, Ph; set_solver.
Qed.

(** *** The turn again *)

Lemma resolve_again name x w v :
  ResolveWorkflow name x registry = inl (w, v) ->
  ResolveWorkflow name (match v with Some _ => v | None => x end) registry = inl (w, v).
Proof.
  unfold ResolveWorkflow. destruct (reg_workflows registry !! name); [by intros [= -> <-] |].
  destruct (reg_versionedWorkflows registry !! name) as [versions|].
  - destruct (match x with Some u => Some u | None => reg_latestVersionedWorkflows registry !! name end) as [u|]; [| done].
    destruct (versions !! u) as [w'|] eqn:E; [| done]. intros [= -> <-]. by rewrite E.
  - destruct x; [done |]. destruct (reg_workflows registry !! "*"); [| done]. by intros [= -> <-].
Qed.

Lemma responseVersion_parts c :
  patchesOn (responseVersion c) = list_to_set (pa_encountered (wc_patches c)) /\
  forall x, nameOn (responseVersion c) x = match wc_VersionName c with Some n => Some n | None => x end.
Proof. unfold responseVersion, patchesOn, nameOn. by destruct (pa_encountered (wc_patches c)), (wc_VersionName c). Qed.

(** No answer of a turn is lost when its own report is on record. *)
Lemma reported_found c : reported c -> ~ lost (full := false) (known := patchesOn (responseVersion c)) c.
Proof.
  intros Hr [_ Hl]. destruct (responseVersion_parts c) as [E _]. rewrite E in Hl.
  destruct Hl as [(x & Hx & Hn) | (x & Hk & Hx)]; [set_solver |].
  assert (pa_applied (wc_patches c) !! x = Some true) by (apply Hr; set_solver). congruence.
Qed.

Section Again.
Hypothesis deterministic : forall name v w v', ResolveWorkflow name v registry = inl (w, v') -> oblivious (full := false) w.
Context (id : string) (ph : option ApiPropagatedHistory) (w1 w2 : World).
Context (old1 new1 old2 new2 events : list HistoryEvent) (e : HistoryEvent) (rest : list HistoryEvent).
Context (c : WorkflowContext) (mode : Mode).

Local Abbreviation first := (NewWorkflowContext id old1 new1 ph w1, MIdle).
Local Abbreviation second := (NewWorkflowContext id old2 new2 ph w2, MIdle).
Local Abbreviation v := (responseVersion c).
Local Abbreviation mark := (length old1).
Local Abbreviation agree := (stateLike false mark (patchesOn v)).

Hypothesis turn : new1 = e :: rest.
Hypothesis marker : plainMarker e.
Hypothesis oneMarker : Forall (fun e => GetWorkflowStarted e = None) rest.
Hypothesis startsFirst : Forall (fun e => GetExecutionStarted e = None) (tail rest).
Hypothesis begins : awake (ticks mark first).1.
Hypothesis started : oneStart (old1 ++ new1) = true.
Hypothesis again : old2 ++ new2 = old1 ++ stampMarker v e :: rest ++ events.
Hypothesis startedAgain : oneStart (old2 ++ new2) = true.
Hypothesis finished : ticks (length (old1 ++ new1)) first = (c, mode).
Hypothesis goesOn : ~ ended mode /\ cu_isTerminated (wc_cursor c) = false.

(** A state on the way. *)
Definition onTheWay (n : nat) (st : WorkflowContext * Mode) : Prop :=
  sound st /\ n = remaining st.1 /\ historyOf st.1 = old1 ++ new1 /\ reported st.1 /\ ticks n st = (c, mode).

Lemma onTheWay_goes_on n st : onTheWay n st -> ~ ended st.2 /\ cu_isTerminated (wc_cursor st.1) = false.
Proof.
  intros (Hs & Hn & _ & _ & Ht). destruct goesOn as [Hm Hc].
  assert (~ stopped st) as Hno; [| split; [intros He; apply Hno; by right | apply not_true_is_false; intros E; apply Hno; by left]].
  intros H. pose proof (ticks_stopped n st Hs (or_introl (Nat.eq_le_incl _ _ Hn)) (or_introl H)) as [E | He]; rewrite Ht in *; [cbn in E; congruence | done].
Qed.

Lemma onTheWay_next n st : onTheWay (S n) st -> onTheWay n (tick st).
Proof.
  intros H. destruct (onTheWay_goes_on _ _ H) as [Hne _]. destruct H as (Hs & Hn & Hh & Hrep & Ht), st as [d md].
  cbn [TaskMachine.ticks fst snd] in *. destruct (tick_answers ToUpper errorTypeName errorText registry d md Hs) as [_ Hrep'].
  destruct (tick_sound d md Hs Hne ltac:(lia)) as (Hs' & Hr & _ & Hh'). split_and!; [done | lia | congruence | auto | done].
Qed.

Lemma onTheWay_ticks k n st : onTheWay (k + n) st -> onTheWay n (ticks k st).
Proof. revert st. induction k as [|k IH]; intros st H; cbn [TaskMachine.ticks]; [done |]. apply IH, onTheWay_next, H. Qed.

Lemma onTheWay_first : onTheWay (length (old1 ++ new1)) first.
Proof. split_and!; [by apply sound_initial | unfold remaining; cbn; lia | done | intros x Hx; by apply not_elem_of_nil in Hx | done]. Qed.

Lemma onTheWay_found n st : onTheWay n st -> ~ lost (full := false) (known := patchesOn v) st.1.
Proof.
  intros (Hs & Hn & _ & Hr & Ht) Hl.
  destruct (ticks_answers n st Hs (or_introl (Nat.eq_le_incl _ _ Hn))) as [Hk Hr']. rewrite Ht in Hk, Hr'.
  apply (reported_found c); [auto | by eapply lost_kept].
Qed.

Lemma onTheWay_index n st : onTheWay n st -> (n + cu_historyIndex (wc_cursor st.1) = length (old1 ++ new1))%nat \/ n = 0%nat.
Proof. intros (_ & -> & Hh & _). unfold remaining. rewrite Hh. lia. Qed.

Lemma agree_ticks k n st1 st2 :
  onTheWay (k + n) st1 -> agree st1 st2 ->
  (k + cu_historyIndex (wc_cursor st1.1) <= mark \/ mark < cu_historyIndex (wc_cursor st1.1))%nat ->
  agree (ticks k st1) (ticks k st2).
Proof.
  intros H Ha Hk. destruct (like_ticks ToUpper errorTypeName errorText registry false mark (patchesOn v) deterministic k st1 st2)
    as [? | Hl]; [done | apply H | done | left; destruct H as (_ & <- & _); lia | done |].
  by destruct (onTheWay_found n (ticks k st1) (onTheWay_ticks k n st1 H)).
Qed.

Lemma histories_stamped : histories (full := false) (mark := mark) (old1 ++ new1) (old2 ++ new2).
Proof.
  rewrite turn, again. split; [rewrite !length_app; cbn; rewrite length_app; lia |]. intros i x Hi.
  destruct (decide (i < mark)%nat); [by rewrite !lookup_app_l by lia |]. rewrite !lookup_app_r by lia.
  destruct (i - mark)%nat as [|j] eqn:Ej; [lia |]. cbn. by apply lookup_app_l_Some.
Qed.

(** After the marker the two turns differ at most in the version. *)
Lemma agree_marker :
  exists d1 d2 m1 m2, tick (ticks mark first) = (d1, m1) /\ tick (ticks mark second) = (d2, m2) /\
    onTheWay (length rest) (d1, m1) /\ modeLike false mark (patchesOn v) m1 m2 /\ awake d1 /\
    wc_VersionName d2 = nameOn v (wc_VersionName d1) /\
    like (full := false) (mark := mark) (known := patchesOn v) d1 (set_VersionName (wc_VersionName d1) d2).
Proof.
  pose proof onTheWay_first as H1. rewrite length_app in H1.
  assert (agree (ticks mark first) (ticks mark second)) as Ha.
  { eapply agree_ticks; [exact H1 | apply like_initial, histories_stamped | cbn; lia]. }
  apply onTheWay_ticks in H1. pose proof (onTheWay_goes_on _ _ H1) as [Hne Ht].
  assert (sound (ticks mark second)) as Hs2.
  { apply ticks_sound; [by apply sound_initial |]. left. unfold remaining. cbn. rewrite again, length_app. lia. }
  pose proof (ticks_sound mark first ltac:(by apply sound_initial) ltac:(left; unfold remaining; cbn; rewrite length_app; lia))
    as (Hs1 & Hh1 & Hi1).
  pose proof begins as Haw. replace (length new1) with (S (length rest)) in H1 by (by rewrite turn). pose proof (onTheWay_next _ _ H1) as H1'.
  assert (historyOf (ticks mark second).1 = old2 ++ new2) as Hh2.
  { pose proof (ticks_sound mark second ltac:(by apply sound_initial)) as (_ & -> & _); [| done].
    left. unfold remaining. cbn. rewrite again, length_app. lia. }
  destruct (ticks mark first) as [a1 m1] eqn:E1, (ticks mark second) as [a2 m2] eqn:E2. destruct Ha as [Hl Hm].
  cbn [fst snd] in *. destruct Hi1 as [Hi1 | Hi1]; [done |]. rewrite Nat.add_0_r in Hi1.
  destruct (getNextHistoryEvent a1) as [[x b1]|] eqn:En1; cycle 1.
  { apply getNext_None in En1. destruct H1 as (_ & Hr & _). cbn [fst length] in Hr. lia. }
  pose proof (getNext_Some a1 x b1 En1) as (_ & Hx & _). rewrite Hh1, Hi1 in Hx. cbn in Hx. unfold historyOf in Hx. cbn in Hx.
  rewrite turn, list_lookup_middle in Hx by done. injection Hx as <-.
  destruct (like_marker mark v a1 a2 e b1) as (b2 & En2 & _ & Ev & Hl'); [done .. | by rewrite Hh2, again, list_lookup_middle |].
  exists (onWorkflowStarted e (mkWorkflowStartedEvent None) b1), (onWorkflowStarted (stampMarker v e) (mkWorkflowStartedEvent v) b2), m1, m2.
  assert (tick (a1, m1) = (onWorkflowStarted e (mkWorkflowStartedEvent None) b1, m1)) as Et1 by by apply tick_marker.
  rewrite Et1 in H1' |- *.
  split_and!; try done.
  - apply tick_marker; [done | by rewrite <- (like_ended _ _ _ _ _ Hm) | | by rewrite (lk_isTerminated _ _ Hl) | done | by apply stampMarker_type].
    unfold awake. by rewrite (lk_isSuspended _ _ Hl), (lk_suspended _ _ Hl).
  - unfold awake in *. pose proof (getNext_Some a1 e b1 En1) as (_ & _ & _ & _ & Es & Ei & _). cbn. by rewrite Es, Ei.
  - rewrite Ev. by destruct (getNext_same _ _ _ En1) as [_ <-].
Qed.

(** What is left of the turn after its marker. *)
Lemma onTheWay_left n d md k l :
  onTheWay n (d, md) -> (k + n = length rest)%nat -> l = drop k rest -> n <> 0%nat ->
  drop (cu_historyIndex (wc_cursor d)) (historyOf d) = l /\ (mark < cu_historyIndex (wc_cursor d))%nat.
Proof.
  intros (_ & Hn & Hh & _) Hk -> H0. cbn [fst] in *. unfold remaining in Hn. rewrite Hh, turn, length_app in Hn. cbn in Hn.
  assert (cu_historyIndex (wc_cursor d) = length old1 + S k)%nat as -> by lia. split; [| lia].
  by rewrite Hh, turn, drop_app_add.
Qed.

(** The version of the turn, from where no event changes it. *)
Lemma version_settled n d md k :
  onTheWay n (d, md) -> (k + n = length rest)%nat -> markerFree d ->
  Forall (fun e => GetExecutionStarted e = None) (drop k rest) -> wc_VersionName c = wc_VersionName d.
Proof.
  intros H Hk Hf Hs. destruct (decide (n = 0%nat)) as [-> | Hn].
  { destruct H as (_ & _ & _ & _ & Ht). by injection Ht as ->. }
  destruct (onTheWay_left n d md k _ H Hk eq_refl Hn) as [El _]. destruct H as (Hso & Hr & _ & _ & Ht). cbn [fst] in *.
  pose proof (ticks_version n d md Hso ltac:(lia) Hf) as E. rewrite Ht in E. apply E. rewrite El.
  rewrite take_ge by (rewrite length_drop; lia). apply Forall_and. split; [done | by apply Forall_drop].
Qed.

Lemma awake_markerFree d : awake d -> markerFree d.
Proof. intros [_ E]. unfold markerFree. by rewrite E. Qed.

Lemma set_VersionName_id x d : wc_VersionName d = x -> set_VersionName x d = d.
Proof. intros <-. by destruct d. Qed.

Lemma getNext_version x d :
  getNextHistoryEvent (set_VersionName x d) = (fun p => (p.1, set_VersionName x p.2)) <$> getNextHistoryEvent d.
Proof.
  unfold getNextHistoryEvent. change (historyOf (set_VersionName x d)) with (historyOf d).
  change (wc_cursor (set_VersionName x d)) with (wc_cursor d). by destruct (historyOf d !! cu_historyIndex (wc_cursor d)).
Qed.

(** The version a start takes is the one on record afterwards. *)
Lemma start_version s rest' es w vv b1 :
  rest = s :: rest' -> ready b1 -> awake b1 ->
  onTheWay (length rest') (settle (denote ToUpper errorTypeName errorText w) (prepareStart es vv b1)) ->
  wc_VersionName c = match vv with Some _ => vv | None => wc_VersionName b1 end.
Proof.
  intros Er Hr Haw Hnext.
  assert (ready (prepareStart es vv b1)) as Hready by (by apply (ready_cursor b1); [apply prepareStart_cursor |]).
  pose proof (Guarded_denote ToUpper errorTypeName errorText w (prepareStart es vv b1)) as Hg.
  destruct (sound_settle _ _ Hg Hready) as [Ecur _].
  destruct (settle_answers ToUpper errorTypeName errorText _ _ Hg) as (_ & _ & Ever).
  destruct (settle _ (prepareStart es vv b1)) as [g mg]. cbn [fst] in *.
  rewrite (version_settled (length rest') g mg 1 Hnext); [| by rewrite Er | | by rewrite Er in startsFirst |- *].
  - rewrite Ever. unfold prepareStart. by destruct vv, (es_Input es).
  - unfold markerFree. rewrite Ecur, prepareStart_cursor. by apply awake_markerFree.
Qed.

Lemma like_starts es vv b1 b2 :
  like (full := false) (mark := mark) (known := patchesOn v) b1 (set_VersionName (wc_VersionName b1) b2) ->
  wc_VersionName b2 = match vv with Some _ => vv | None => wc_VersionName b1 end ->
  like (full := false) (mark := mark) (known := patchesOn v) (prepareStart es vv b1) (prepareStart es vv b2).
Proof.
  intros Hl E. apply (like_prepareStart _ _ _ es vv) in Hl. destruct vv as [x|].
  - assert (prepareStart es (Some x) (set_VersionName (wc_VersionName b1) b2) = prepareStart es (Some x) b2) as <-; [| done].
    unfold prepareStart. by destruct (es_Input es).
  - by rewrite set_VersionName_id in Hl.
Qed.

(** A start right after the marker takes the version on record. *)
Lemma agree_start s rest' es d1 d2 m1 m2 :
  rest = s :: rest' -> GetExecutionStarted s = Some es -> onTheWay (length rest) (d1, m1) ->
  modeLike false mark (patchesOn v) m1 m2 -> awake d1 -> wc_VersionName d2 = nameOn v (wc_VersionName d1) ->
  like (full := false) (mark := mark) (known := patchesOn v) d1 (set_VersionName (wc_VersionName d1) d2) ->
  agree (tick (d1, m1)) (tick (d2, m2)).
Proof.
  intros Er Es Hway Hm Haw Ev Hl. destruct (onTheWay_goes_on _ _ Hway) as [Hne Hterm]. cbn [fst snd] in *.
  assert (onTheWay (length rest') (tick (d1, m1))) as Hnext by (apply onTheWay_next; by rewrite Er in Hway).
  destruct (onTheWay_left _ d1 m1 0 rest Hway eq_refl eq_refl ltac:(by rewrite Er)) as [Hleft Hmark].
  destruct (getNextHistoryEvent d1) as [[x b1]|] eqn:En1; cycle 1.
  { apply getNext_None in En1. destruct Hway as (_ & Hr & _). cbn [fst] in Hr. rewrite Er in Hr. cbn [length] in Hr. lia. }
  destruct (like_next false mark (patchesOn v) d1 _ x b1 ltac:(lia) Hl En1) as (b2 & En2 & Hlb).
  pose proof (getNext_Some d1 x b1 En1) as (_ & Hx & _ & _ & Esu & Eis & Et & _).
  rewrite (drop_S _ _ _ Hx), Er in Hleft. injection Hleft as -> _.
  rewrite getNext_version in En2. destruct (getNextHistoryEvent d2) as [[x b2']|] eqn:En2'; [| done]. injection En2 as -> <-.
  destruct (getNext_same _ _ _ En1) as [_ Ev1], (getNext_same _ _ _ En2') as [_ Ev2]. rewrite <- Ev1 in Ev, Hlb.
  pose proof (next_deliverable d1 m1 s b1 (proj1 Hway) Hne En1) as Hdel.
  assert (tick (d2, m2) = step s (b2', m2)) as -> by (apply tick_running; [by rewrite <- (like_ended _ _ _ _ _ Hm) | done]).
  rewrite (tick_running d1 m1 s b1 Hne En1) in Hnext |- *.
  destruct Hm as [| p k1 k2 Hk | | |]; cbn [TaskReplay.deliverable] in Hdel; [| destruct Hdel; congruence .. | done | done].
  cbn [TaskMachine.step] in *. rewrite Es, Et, Hterm in Hnext |- *.
  assert (cu_isTerminated (wc_cursor b2') = false) as -> by (rewrite <- Hterm, <- Et; apply (lk_isTerminated _ _ Hlb)).
  unfold begin in *. destruct (ResolveWorkflow (es_Name es) (wc_VersionName b1) registry) as [[w vv]|err] eqn:Eres; cycle 1.
  { destruct (onTheWay_goes_on _ _ Hnext) as [Hend _]. by destruct Hend. }
  assert (awake b1) as Hawb by (unfold awake; by rewrite Esu, Eis).
  pose proof (start_version s rest' es w vv b1 Er ltac:(apply Hdel; congruence) Hawb Hnext) as Eu.
  assert (wc_VersionName b2' = match vv with Some _ => vv | None => wc_VersionName b1 end) as Eb.
  { rewrite Ev2, Ev, (proj2 (responseVersion_parts c)), Eu. by destruct vv, (wc_VersionName b1). }
  rewrite Eb, (resolve_again _ _ _ _ Eres).
  destruct (like_settle ToUpper errorTypeName errorText false mark (patchesOn v) (denote ToUpper errorTypeName errorText w)
    (denote ToUpper errorTypeName errorText w) (prepareStart es vv b1) (prepareStart es vv b2')) as [? | Hlost];
    [by eapply psim_denote, deterministic | apply Guarded_denote | by apply like_starts | done |].
  by destruct (onTheWay_found _ _ Hnext).
Qed.

Lemma agree_end : agree (c, mode) (ticks (length (old1 ++ new1)) second).
Proof.
  destruct agree_marker as (d1 & d2 & m1 & m2 & E1 & E2 & Hway & Hm & Haw & Ev & Hl).
  assert (length (old1 ++ new1) = mark + S (length rest))%nat as El by (by rewrite turn, length_app).
  rewrite El, ticks_add. cbn [TaskMachine.ticks]. rewrite E2. pose proof (proj2 (responseVersion_parts c)) as Hname.
  assert (forall k n st1 st2, onTheWay n st1 -> (k + n = length rest)%nat -> agree st1 st2 -> agree (c, mode) (ticks n st2)) as Hrest.
  { intros k n st1 st2 H Hk Ha. destruct H as (Hso & Hn & Hh & Hr & Ht). rewrite <- Ht. apply (agree_ticks n 0); [| done |].
    - by rewrite Nat.add_0_r.
    - unfold remaining in Hn. rewrite Hh, turn, length_app in Hn. cbn in Hn. lia. }
  destruct (decide (Forall (fun e => GetExecutionStarted e = None) rest)) as [Hnone | Hsome].
  - pose proof (version_settled _ _ _ 0 Hway eq_refl (awake_markerFree _ Haw) Hnone) as Ec.
    apply (Hrest 0%nat _ (d1, m1)); [done | done |]. split; [| done]. rewrite <- Ec in Ev, Hl. rewrite Hname in Ev.
    rewrite set_VersionName_id in Hl; [done |]. rewrite Ev. by case_match.
  - assert (exists s rest' es, rest = s :: rest' /\ GetExecutionStarted s = Some es) as (s & rest' & es & Er & Es).
    { destruct rest as [|s rest']; [by destruct Hsome |]. exists s, rest'. destruct (GetExecutionStarted s) as [es|] eqn:E; [eauto |].
      destruct Hsome. by constructor. }
    rewrite Er. cbn [length TaskMachine.ticks].
    apply (Hrest 1%nat _ (tick (d1, m1))); [apply onTheWay_next; by rewrite Er in Hway | by rewrite Er | by eapply agree_start].
Qed.

End Again.

Lemma oneStart_middle l e e' k :
  GetExecutionStarted e' = GetExecutionStarted e -> GetExecutionSuspended e' = GetExecutionSuspended e ->
  oneStart (l ++ e' :: k) = oneStart (l ++ e :: k).
Proof.
  intros E1 E2. induction l as [|x l IH]; cbn [oneStart app]; [by rewrite E1, E2 |].
  destruct (GetExecutionStarted x); [| by rewrite IH]. rewrite !forallb_app. cbn [forallb]. by rewrite E1.
Qed.

(** Recorded decisions replay: let a turn begin with its marker [e], the function not being
    suspended, and end with the actions [acts] and no result held back; let [events] be
    the records of these actions.  When the function is run again on the history with
    the marker stamped with the reported version and followed by the records, with other
    execution ids and whatever part of it counts as old, every decision finds its record
    and every patch its answer: there is no nondeterminism error, no action is emitted
    twice, and the custom status, patches and version are those of the first run. *)
Lemma recorded_decisions_replay id old1 e rest old2 new2 ph w1 w2 c1 acts events :
  (forall name v w v', ResolveWorkflow name v registry = inl (w, v') -> oblivious (full := false) w) ->
  plainMarker e -> Forall (fun e => GetWorkflowStarted e = None) rest ->
  Forall (fun e => GetExecutionStarted e = None) (tail rest) -> oneStart (old1 ++ e :: rest) = true ->
  awake (ticks (length old1) (NewWorkflowContext id old1 (e :: rest) ph w1, MIdle)).1 ->
  start ToUpper errorTypeName errorText registry (NewWorkflowContext id old1 (e :: rest) ph w1) = (c1, RRet acts) ->
  tb_bufferedResolutions (wc_table c1) = ∅ -> Forall2 records acts events ->
  old2 ++ new2 = old1 ++ stampMarker (responseVersion c1) e :: rest ++ events ->
  exists c2,
    start ToUpper errorTypeName errorText registry (NewWorkflowContext id old2 new2 ph w2) = (c2, RRet []) /\
    re_customStatus (wc_report c2) = re_customStatus (wc_report c1) /\ responseVersion c2 = responseVersion c1.
Proof.
  intros Hdet He Hmk Hst Ho Haw Hstart Hb Hrec Ehist.
  destruct (start_final id old1 (e :: rest) ph w1 c1 acts Ho Hstart) as (mode & Hticks & -> & Hpanic & Hs & Hc & Hw).
  pose proof (recorded_goes_on c1 mode events Hw Hb Hc Hpanic Hrec) as Hgo.
  set (n := length (old1 ++ e :: rest)) in *.
  assert (oneStart (old2 ++ new2) = true) as Ho2.
  { rewrite Ehist, (oneStart_middle _ e), app_comm_cons, app_assoc.
    - apply oneStart_app; [done | by eapply records_free].
    - unfold GetExecutionStarted. by rewrite stampMarker_type, He.
    - unfold GetExecutionSuspended. by rewrite stampMarker_type, He. }
  assert (length (old2 ++ new2) = (n + length events)%nat) as Hlen by (rewrite Ehist; unfold n; rewrite !length_app; cbn; rewrite length_app; lia).
  pose proof (agree_end Hdet id ph w1 w2 old1 (e :: rest) old2 new2 events e rest c1 mode eq_refl He Hmk Hst Haw Ho Ehist Ho2 Hticks Hgo) as Hl.
  pose proof (ticks_sound n (NewWorkflowContext id old2 new2 ph w2, MIdle) ltac:(by apply sound_initial)
    ltac:(left; unfold remaining; cbn; lia)) as (_ & Hh & Hi).
  rewrite start_machine, Hlen, ticks_add by done. fold n in Hl.
  destruct (ticks n (NewWorkflowContext id old2 new2 ph w2, MIdle)) as [d m2] eqn:Ed. cbn [fst snd] in *.
  destruct (replay_records _ _ _ c1 mode d m2 events Hw Hb Hs Hc Hpanic Hrec Hl) as (c2 & -> & Hact & Hrest).
  - intros Hm. destruct Hi as [Hi | Hi]; [by apply (like_ended _ _ _ _ _ (proj2 Hl)) in Hi |].
    rewrite Hh, Hi. unfold historyOf. cbn. rewrite Ehist, Nat.add_0_r, app_comm_cons, app_assoc. apply drop_app_length'.
    unfold n. by rewrite !length_app.
  - destruct Hl as [Hl Hm]. cbn [fst snd] in *. destruct Hrest as (Er & Ep & Ev). exists c2. split_and!.
    + rewrite <- Hact. destruct Hm; try done. by destruct (Hpanic msg).
    + by rewrite Er, (lk_report _ _ Hl).
    + unfold responseVersion. by rewrite Ep, Ev, (pk_encountered _ _ _ (lk_patches _ _ Hl)), (lk_VersionName _ _ Hl).
Qed.

End Recorded.
