(* ===== verification/TaskRetry.v ===== *)
(** * Retried tasks end

    Weakest preconditions for programs over the context, where an await may return in
    any context with the same retry tasks (events do not touch them, [next_retries]),
    and with them: awaiting a retried task leaves it finished after at most MaxAttempts
    attempts. *)

From stdpp Require Import base list option strings gmap.
From Stdlib Require Import ZArith Lia FunctionalExtensionality.
From S2P Require Import Prelude Errors Protos Dedup Propagation Helpers TaskRegistry TaskTable TaskProgram.
From S2P Require Import TaskMethods TaskExecutor TaskGuard TaskTotal TaskMachine.

Section Retry.
Context `{HF : Float64} `{HM : Marshaler} `{HR : RangeOrder} `{HC : ProtoCodec}.
Variable ToUpper : string -> string.
Variables errorTypeName errorText : error -> string.
Variable registry : TaskRegistry Workflow Activity.

Local Abbreviation processEvent := (processEvent ToUpper errorTypeName errorText registry).
Local Abbreviation handle := (handle ToUpper errorTypeName errorText registry).
Local Abbreviation next n := (processNextEvent (processEvent (S (S n)))).
Local Abbreviation tasksOf := (fun c => rh_tasks (wc_retries c)).

(** ** Weakest preconditions *)

Fixpoint wp {A} (m : Prog A) (Q : A -> WorkflowContext -> Prop) (c : WorkflowContext) : Prop :=
  match m with
  | PRet a => Q a c
  | PPanic _ => True
  | PGet k => wp (k c) Q c
  | PPut c' k => wp k Q c'
  | PAwait _ k => forall c' e, tasksOf c' = tasksOf c -> wp (k e) Q c'
  end.

Lemma wp_mono {A} (m : Prog A) (Q Q' : A -> WorkflowContext -> Prop) c :
  (forall a c', Q a c' -> Q' a c') -> wp m Q c -> wp m Q' c.
Proof.
  intros HQ. revert c. induction m as [a | msg | k IH | c' k IH | p k IH]; cbn; intros c; auto.
Qed.

Lemma wp_bind {A B} (m : Prog A) (f : A -> Prog B) Q c :
  wp m (fun a c' => wp (f a) Q c') c -> wp (mbind f m) Q c.
Proof.
  change (mbind f m) with (pbind m f). revert c.
  induction m as [a | msg | k IH | c' k IH | p k IH]; cbn; intros c H; auto.
Qed.

(** *** Events leave the retry tasks alone *)

Lemma held_event_retries e c :
  heldWhileSuspended e = true -> GetExecutionStarted e = None -> tasksOf (processEvent 1 e c).1 = tasksOf c.
Proof.
  intros Hh Hs. cbn [TaskExecutor.processEvent]. do 2 (case_match; [done |]).
  unfold GetExecutionStarted in Hs. unfold heldWhileSuspended in Hh.
  destruct (EventType e) as [[]|]; try done; unfold onTableErr, onWorkflowStarted; by repeat case_match.
Qed.

Lemma resumeLoop_retries l c :
  Forall (fun e => heldWhileSuspended e = true /\ GetExecutionStarted e = None) l ->
  tasksOf (resumeLoop (processEvent 1) l c).1 = tasksOf c.
Proof.
  intros Hl. revert c. induction Hl as [|e l [He Hes] Hl IH]; intros c; cbn [resumeLoop]; [done |].
  pose proof (held_event_retries e c He Hes) as H.
  destruct (processEvent 1 e c) as [c1 [[err|] | | |]]; try done. by rewrite IH.
Qed.

Lemma handle_retries e c : quiet c -> GetExecutionStarted e = None -> tasksOf (handle e c).1 = tasksOf c.
Proof.
  intros Hq He. assert (tasksOf (processEvent 2 e c).1 = tasksOf c) as H.
  { destruct (heldWhileSuspended e) eqn:Eh.
    { rewrite (proj1 (held_event_fuel ToUpper errorTypeName errorText registry 1 e c Eh He)). by apply held_event_retries. }
    unfold heldWhileSuspended in Eh. cbn [TaskExecutor.processEvent]. unfold heldWhileSuspended.
    destruct (EventType e) as [[]|]; try done; rewrite andb_false_r; (case_match; [done |]).
    - unfold onExecutionTerminated. by case_match.
    - unfold onExecutionResumed. by rewrite resumeLoop_retries. }
  unfold TaskMachine.handle. by destruct (processEvent 2 e c) as [c' []].
Qed.

Lemma next_retries n c : ready c -> ready (next n c).1 /\ tasksOf (next n c).1 = tasksOf c.
Proof.
  intros Hr. destruct (getNextHistoryEvent c) as [[e c1]|] eqn:E; cycle 1.
  { unfold processNextEvent. by rewrite E. }
  destruct (ready_handle ToUpper errorTypeName errorText registry c e c1 E Hr) as (He & Hr1 & _).
  rewrite (next_handle ToUpper errorTypeName errorText registry n c e c1 E (proj1 Hr) He). split; [done |].
  unfold getNextHistoryEvent in E. destruct (historyOf c !! _); [| done]. injection E as -> <-.
  cbn [fst]. by rewrite handle_retries; [| apply Hr |].
Qed.

Lemma awaitLoop_retries n p fuel c :
  ready c -> ready (awaitLoop fuel (next n) p c).1 /\ tasksOf (awaitLoop fuel (next n) p c).1 = tasksOf c.
Proof.
  revert c. induction fuel as [|fuel IH]; intros c Hr; cbn [awaitLoop]; [done |]. case_match; [done |].
  destruct (next_retries n c Hr) as [Hr1 E1]. destruct (next n c) as [c' [[[] []] | | |]]; try done.
  cbn [fst] in *. destruct (IH c' Hr1) as [? E2]. by rewrite E2.
Qed.

Lemma run_wp {A} n (m : Prog A) Q c c' a :
  guarded sameCursor c m -> ready c -> wp m Q c -> run (next n) m c = (c', RRet a) -> Q a c'.
Proof.
  revert c. induction m as [x | msg | k IH | d k IH | p k IH]; cbn [run wp guarded]; intros c Hg Hr H E.
  - by simplify_eq.
  - done.
  - by eapply IH.
  - destruct Hg as [Hc Hg]. destruct (ready_cursor c d Hc Hr) as [Hr' _]. by eapply IH.
  - destruct (awaitLoop_retries n p (S (remaining c)) c Hr) as [Hr1 E1].
    destruct (awaitLoop _ _ _ _) as [d [err | | |]]; try done. eapply IH; [apply Hg | exact Hr1 | by apply H | exact E].
Qed.

(** ** Programs that leave the retry tasks alone *)

Definition plainRetries {A} (m : Prog A) : Prop :=
  forall c, wp m (fun _ c' => tasksOf c' = tasksOf c) c.

Lemma plain_bind {A B} (m : Prog A) (f : A -> Prog B) :
  plainRetries m -> (forall a, plainRetries (f a)) -> plainRetries (mbind f m).
Proof.
  intros Hm Hf c. apply wp_bind. eapply wp_mono; [| apply Hm]. intros a c' E.
  eapply wp_mono; [| apply Hf]. cbn. intros. congruence.
Qed.

Lemma plain_onT {A} (f : Table -> A * Table) : plainRetries (onT f).
Proof. intros c. cbn. by destruct (f (wc_table c)). Qed.

Lemma plain_activity x y z : plainRetries (internalScheduleActivity x y z).
Proof. apply plain_onT. Qed.
Lemma plain_child x y z : plainRetries (internalCallChildWorkflow x y z).
Proof. apply plain_onT. Qed.

Lemma plain_schedule s u b : plainRetries (schedule s u b).
Proof.
  destruct s as [name o | name o cell]; cbn [schedule]; [apply plain_activity |].
  apply plain_bind; [done |]. intros v. destruct b; [apply plain_child |].
  apply plain_bind; [apply plain_child |]. intros p. by apply plain_bind.
Qed.

Lemma plain_awaitC p v : plainRetries (awaitC p v).
Proof.
  intros c. cbn. intros c' [e|] E; cbn; [done |]. by case_match.
Qed.

Lemma plain_setTimerOrigin s a u : plainRetries (setTimerOrigin s a u).
Proof.
  destruct s as [name o | name o cell]; cbn [setTimerOrigin]; [done |].
  apply plain_bind; [done |]. intros v. apply plain_bind; [done |]. intros c. by apply plain_bind.
Qed.

Lemma plain_backOff chain delay u : plainRetries (backOff chain delay u).
Proof.
  unfold backOff. apply plain_bind.
  - unfold createTimer. apply plain_bind; [done |]. intros now. apply plain_onT.
  - intros [timer action]. apply plain_bind; [apply plain_setTimerOrigin |]. intros _. apply plain_awaitC.
Qed.

Lemma wp_plain {A} (m : Prog A) Q c :
  plainRetries m -> (forall a c', tasksOf c' = tasksOf c -> Q a c') -> wp m Q c.
Proof. intros Hm HQ. eapply wp_mono; [| apply Hm]. exact HQ. Qed.

(** ** The loop *)

Definition MaxAttemptsOf (rt : retryTask) : Z := rp_MaxAttempts (rc_policy (rt_chain rt)).

(** The fuel of the legacy wrapper is enough: more gives the same program. *)
Lemma awaitLegacy_fuel fuel fuel' chain p n v :
  rp_MaxAttempts (rc_policy chain) - n <= Z.of_nat fuel -> rp_MaxAttempts (rc_policy chain) - n <= Z.of_nat fuel' ->
  awaitLegacy errorText (S fuel) chain p n v = awaitLegacy errorText (S fuel') chain p n v.
Proof.
  revert fuel' p n. induction fuel as [|fuel IH]; intros fuel' p n Hf Hf'.
  all: cbn [awaitLegacy]; f_equal; extensionality err; f_equal; extensionality t; destruct err as [raw|err]; [done |].
  all: destruct (Z.leb_spec (rp_MaxAttempts (rc_policy chain)) (n + 1)); [done |].
  { lia. }
  destruct fuel' as [|fuel']; [lia |].
  f_equal. extensionality now. destruct (_ =? 0); [done |]. f_equal. extensionality timerErr.
  destruct timerErr as [raw|terr]; [| done]. f_equal. extensionality q. apply IH; lia.
Qed.

(** The loop ends with a finished task, within the attempts of its policy. *)
Definition retryDone (r : nat) (chain : retryChain) (c : WorkflowContext) : Prop :=
  exists rt, tasksOf c !! r = Some rt /\ rt_finished rt = true /\ rt_chain rt = chain /\
    rt_retryCount rt + 1 <= rp_MaxAttempts (rc_policy chain).

Lemma retryDone_put r rt err c :
  rt_retryCount rt + 1 <= MaxAttemptsOf rt -> wp (putRetry r (finishRetry err rt)) (fun _ => retryDone r (rt_chain rt)) c.
Proof. intros H. cbn. exists (finishRetry err rt). cbn. by rewrite lookup_insert_eq. Qed.

Lemma retryLoop_wp fuel r rt c :
  tasksOf c !! r = Some rt -> rt_retryCount rt + 1 <= MaxAttemptsOf rt ->
  MaxAttemptsOf rt - rt_retryCount rt <= Z.of_nat fuel ->
  wp (retryLoop errorText fuel r) (fun _ => retryDone r (rt_chain rt)) c.
Proof.
  revert rt c. induction fuel as [|fuel IH]; intros rt c Hr Hm Hf; [lia |]. cbn [retryLoop].
  apply wp_bind. cbn [getRetry asks wp]. rewrite Hr. destruct (rt_finished rt) eqn:Efin.
  { cbn. by exists rt. }
  apply wp_bind, wp_plain; [apply plain_awaitC |]. intros [raw|err] c1 E1; [by apply retryDone_put |].
  apply wp_bind. cbn [taskAt asks wp]. set (cur := default _ _). destruct (negb (ct_isCompleted cur)); [by apply retryDone_put |].
  set (rt1 := observeAttempt cur rt).
  assert (rt_chain rt1 = rt_chain rt /\ rt_retryCount rt1 = rt_retryCount rt) as [Ec En]
    by (unfold rt1, observeAttempt; by case_match).
  assert (rt_retryCount rt1 + 1 <= MaxAttemptsOf rt1) as Hm1 by (unfold MaxAttemptsOf in *; by rewrite Ec, En).
  rewrite <- Ec. apply wp_bind. cbn [putRetry modC wp]. set (c2 := set_retries _ c1).
  destruct (Z.leb_spec (rp_MaxAttempts (rc_policy (rt_chain rt1))) (rt_retryCount rt1 + 1)) as [|Hlt]; [by apply retryDone_put |].
  apply wp_bind. cbn [asks wp]. set (delay := computeNextDelay _ _ _ _ _). destruct (delay =? 0); [by apply retryDone_put |].
  apply wp_bind, wp_plain; [apply plain_backOff |]. intros [raw|terr] c3 E3; [| by apply retryDone_put].
  apply wp_bind, wp_plain; [apply plain_schedule |]. intros p c4 E4. apply wp_bind. cbn [putRetry modC wp].
  apply (IH (nextAttempt p rt1)).
  - cbn. by rewrite lookup_insert_eq.
  - unfold MaxAttemptsOf in *. cbn. lia.
  - unfold MaxAttemptsOf in *. cbn. rewrite Ec, En in *. lia.
Qed.

(** Awaiting a retried task makes at most MaxAttempts attempts: on a history without a
    further start event, whatever the events of the history do meanwhile, when
    [awaitRetry] returns the task is finished, it has been scheduled again fewer than
    MaxAttempts times, and the error it returns is the terminal one. *)
Theorem retry_attempts_bounded n r v rt c c' result :
  ready c -> tasksOf c !! r = Some rt -> rt_retryCount rt + 1 <= MaxAttemptsOf rt -> 0 <= rt_retryCount rt ->
  run (next n) (awaitRetry errorText r v) c = (c', RRet result) ->
  retryDone r (rt_chain rt) c' /\
  (forall rt' err, tasksOf c' !! r = Some rt' -> rt_terminalError rt' = Some err -> result = inr err).
Proof.
  intros Hc Hr Hm Hpos E. eapply (run_wp n _ (fun result c' => retryDone r (rt_chain rt) c' /\
    forall rt' err, tasksOf c' !! r = Some rt' -> rt_terminalError rt' = Some err -> result = inr err));
    [apply (Guarded_weaken _ _ _ (contextStep_sameCursor ToUpper)), (Guarded_Await ToUpper errorText (TaskR r) v)
    | exact Hc | | exact E].
  unfold awaitRetry. apply wp_bind. cbn [getRetry asks wp]. rewrite Hr. apply wp_bind.
  eapply wp_mono; [| apply (retryLoop_wp _ r rt c Hr Hm); unfold MaxAttemptsOf in *; lia].
  intros _ c1 (rt1 & Hr1 & Hdone). apply wp_bind. cbn [getRetry asks wp]. rewrite Hr1.
  destruct (rt_terminalError rt1) as [err|] eqn:Ee.
  - cbn. split; [by exists rt1 |]. intros rt' err' Hr' Ee'. congruence.
  - apply wp_plain; [apply plain_awaitC |]. intros res c2 E2. unfold retryDone. rewrite E2. split; [by exists rt1 |].
    intros rt' err' Hr' Ee'. congruence.
Qed.

End Retry.
