(* ===== verification/TaskTheorems.v ===== *)
(** * Suspension, termination and retries of a workflow execution *)

From stdpp Require Import base list option strings gmap sorting.
From Stdlib Require Import ZArith Lia.
From S2P Require Import Prelude Errors Protos Dedup Propagation Helpers TaskRegistry TaskTable TaskProgram.
From S2P Require Import TaskMethods TaskExecutor TaskGuard TaskTotal TaskPreserve TaskInv TaskMachine TaskErase TaskLike TaskReplay TaskRecorded.

Section Theorems.
Context `{HF : Float64} `{HM : Marshaler} `{HR : RangeOrder} `{HC : ProtoCodec}.
Variable ToUpper : string -> string.
Variables errorTypeName errorText : error -> string.
Variable registry : TaskRegistry Workflow Activity.

Local Abbreviation processEvent := (processEvent ToUpper errorTypeName errorText registry).
Local Abbreviation handle := (handle ToUpper errorTypeName errorText registry).
Local Abbreviation tick := (tick ToUpper errorTypeName errorText registry).
Local Abbreviation ticks := (ticks ToUpper errorTypeName errorText registry).
Local Abbreviation step := (step ToUpper errorTypeName errorText registry).
Local Abbreviation executeWorkflow := (executeWorkflow ToUpper errorTypeName errorText registry).

(** ** Termination *)

(** A terminate request ends the workflow: when the history has a termination event, the
    response of the turn has a completion (or version error) among its actions, also if
    the workflow is suspended or waits for work that never finishes. *)
Theorem terminated_turn_concludes id old new ph w resp e :
  oneStart (old ++ new) = true -> e ∈ old ++ new -> GetExecutionTerminated e <> None ->
  executeWorkflow id old new ph w = RRet (inl resp) ->
  exists act, act ∈ resp_Actions resp /\ isConclusion act = true.
Proof.
  intros Ho He Het. rewrite executeWorkflow_machine by done. case_match; [| done].
  set (c0 := NewWorkflowContext id old new _ w).
  assert (length (old ++ new) <= remaining c0)%nat as Hr by (unfold remaining; cbn; lia).
  assert (stopped (ticks (length (old ++ new)) (c0, MIdle))) as Hst.
  { apply ticks_stopped; [by apply sound_initial | by left | right].
    apply list_elem_of_lookup in He as [i Hi]. exists i, e. split_and!; try done; cbn; [lia |]. by apply lookup_lt_Some in Hi. }
  assert (concluded (ticks (length (old ++ new)) (c0, MIdle))) as Hc.
  { apply ticks_concluded; [by apply sound_initial | by split; [intros [] |] | by left]. }
  assert (table_wf (wc_table (ticks (length (old ++ new)) (c0, MIdle)).1)) as Hw.
  { pose proof (start_wf ToUpper errorTypeName errorText registry c0 wf_emptyTable) as Hw. unfold c0 in *. rewrite start_machine in Hw by done.
    by destruct (ticks _ _) as [c' []]. }
  destruct (ticks _ (c0, MIdle)) as [c mode]. unfold responseOf. cbn [fst snd] in *. intros Hresp.
  assert (hasConclusion (wc_table c)) as (k & a & Ha & Hac).
  { destruct Hst as [Ht | Hend]; apply (proj1 Hc); [by left | right]. by destruct mode. }
  destruct (emitted_tableActions (re_continuedAsNew (wc_report c) && re_saveBufferedExternalEvents (wc_report c))
    (wc_table c) k a Ha) as [ev Hin].
  { unfold emitted, isConclusion, GetCompleteWorkflow, isVersionNotAvailable in *. by destruct (wa_Type a) as [[]|]. }
  exists (addCarryover ev a). split; [| by destruct a as [? [[]|] ?]].
  replace (resp_Actions resp) with (actions c) by (destruct mode; by simplify_eq). unfold actions.
  destruct Hst as [Ht | Hend]; cbn [fst snd] in *; [by rewrite Ht, andb_false_r |].
  assert (cu_isSuspended (wc_cursor c) = false) as -> by (apply (proj2 Hc); by destruct mode). done.
Qed.

(** ** Suspension *)

Lemma handle_suspend e c :
  GetExecutionSuspended e <> None -> cu_isTerminated (wc_cursor c) = false -> cu_isSuspended (wc_cursor c) = false ->
  handle e c = (set_suspension true (cu_suspendedEvents (wc_cursor c)) c, None).
Proof.
  intros He Ht Hs. unfold TaskMachine.handle. cbn [TaskExecutor.processEvent]. rewrite Ht, Hs. cbn [andb].
  unfold GetExecutionSuspended in He. by destruct (EventType e) as [[]|].
Qed.

Lemma handle_held e c :
  heldWhileSuspended e = true -> cu_isTerminated (wc_cursor c) = false -> cu_isSuspended (wc_cursor c) = true ->
  handle e c = (set_suspension true (cu_suspendedEvents (wc_cursor c) ++ [e]) c, None).
Proof. intros He Ht Hs. unfold TaskMachine.handle. cbn [TaskExecutor.processEvent]. by rewrite Ht, Hs, He. Qed.

Lemma handle_resume e c :
  GetExecutionResumed e <> None -> cu_isTerminated (wc_cursor c) = false ->
  processEvent 2 e c = onExecutionResumed (processEvent 1) c.
Proof.
  intros He Ht. cbn [TaskExecutor.processEvent]. rewrite Ht. unfold heldWhileSuspended, GetExecutionResumed in *.
  destruct (EventType e) as [[]|]; try done. by rewrite andb_false_r.
Qed.

(** C40. Suspending twice loses events: on the events suspend, suspend, [e], resume the context
    ends suspended although the last request was to resume, with no event held back:
    [e] was neither handled (the rest of the context is as it was) nor kept, and the
    turn emits no action. *)
Theorem double_suspension_drops_event c s1 s2 e r :
  awake c -> cu_isTerminated (wc_cursor c) = false ->
  GetExecutionSuspended s1 <> None -> GetExecutionSuspended s2 <> None ->
  heldWhileSuspended e = true -> GetExecutionResumed r <> None ->
  let c' := foldl (fun c x => (handle x c).1) c [s1; s2; e; r] in
  c' = set_suspension true [] c /\ actions c' = [].
Proof.
  intros [Hs Hn] Ht H1 H2 He Hr. cbn [foldl]. rewrite (handle_suspend s1), Hn by done. cbn [fst].
  assert (heldWhileSuspended s2 = true) as H2'.
  { unfold heldWhileSuspended, GetExecutionSuspended in *. by destruct (EventType s2) as [[]|]. }
  rewrite (handle_held s2) by done. cbn [fst]. rewrite (handle_held e) by done. cbn [fst].
  set (c3 := set_suspension true _ _).
  assert ((handle r c3).1 = set_suspension true [] c) as ->.
  { unfold TaskMachine.handle. rewrite handle_resume by done. unfold onExecutionResumed, c3. cbn [resumeLoop app cu_suspendedEvents].
    unfold GetExecutionSuspended in H2. cbn. rewrite Ht. destruct (EventType s2) as [[]|]; try done. cbn. by rewrite Ht, He. }
  split; [done |]. unfold actions. cbn. by rewrite Ht.
Qed.

End Theorems.
