(* ===== verification/TaskSystem.v ===== *)
(** * Deciding, recording and replaying

    The executor decides on actions, the applier records them in the runtime state and
    queues their effects, and the next turn replays the state's log.  Together: a
    decision is made once. *)

From stdpp Require Import base list option strings gmap sorting.
From Stdlib Require Import ZArith Lia.
From S2P Require Import Prelude Errors Protos Dedup RuntimeState Propagation Helpers Applier Orchestration.
From S2P Require Import TaskRegistry TaskTable TaskProgram TaskMethods TaskExecutor TaskGuard TaskTotal TaskPreserve.
From S2P Require Import TaskInv TaskMachine TaskErase TaskLike TaskReplay TaskRecorded.

(** ** The applier records decisions *)

#[local] Arguments liftErr : simpl never.
#[local] Arguments deref : simpl never.
#[local] Arguments Has : simpl never.
#[local] Arguments AssembleProtoPropagatedHistory : simpl never.
#[local] Arguments parentInstanceInfo : simpl never.
#[local] Arguments childInstanceId : simpl never.

Section Record.
Context `{HC : ProtoCodec}.
Variable a : Applier.
Variable customStatus : option string.
Variable tc : option TraceContext.
Variable rh : option PropagatedHistory.

Definition recorded (act : WorkflowAction) (st st' : ApplySt) : Prop :=
  exists e, NewEvents (as_state st') = NewEvents (as_state st) ++ [e] /\
    OldEvents (as_state st') = OldEvents (as_state st) /\ records act e.

Lemma applyAction_records resolved act st st' b :
  from_option decisionType false (wa_Type act) = true ->
  applyAction a customStatus tc rh resolved act st = (st', Ok b) -> b = false /\ recorded act st st'.
Proof.
  intros Hd H. unfold applyAction in H. unfold recorded, records.
  destruct (wa_Type act) as [[x|x|x|x|x|x| |x]|] eqn:Ht; try done; clear Hd.
  - unfold applyScheduleTask in H. run H. run_cases; (split; [done |]; eexists; split_and!; [reflexivity | reflexivity | done | done]).
  - unfold applyCreateChildWorkflow in H. run H. run_cases; (split; [done |]; eexists; split_and!; [reflexivity | reflexivity | done | done]).
  - unfold applyCreateTimer in H. run H. run_cases; (split; [done |]; eexists; split_and!; [reflexivity | reflexivity | done | done]).
  - unfold applyCreateDetachedWorkflow in H. run H. run_cases; (split; [done |]; eexists; split_and!; [reflexivity | reflexivity | done | done]).
Qed.

Lemma applyLoop_records resolved acts st st' :
  Forall (fun act => from_option decisionType false (wa_Type act) = true) acts ->
  applyLoop a customStatus tc rh resolved acts st = (st', Ok tt) ->
  exists events, NewEvents (as_state st') = NewEvents (as_state st) ++ events /\
    OldEvents (as_state st') = OldEvents (as_state st) /\ Forall2 records acts events.
Proof.
  intros Hd. revert st. induction Hd as [|act rest Hact Hd IH]; intros st H; cbn [applyLoop] in H.
  - injection H as <-. exists []. by rewrite app_nil_r.
  - unfold mbind, M_bind in H. destruct (applyAction _ _ _ _ _ _ st) as [st1 [b| |]] eqn:E; try discriminate.
    apply applyAction_records in E as [-> (e & En & Eo & He)]; [| done].
    destruct (IH st1 H) as (events & En' & Eo' & Hr). exists (e :: events).
    rewrite En', En, Eo', Eo, <- app_assoc. by split_and!; [.. | constructor].
Qed.

Lemma Actions_records s w acts st' :
  Forall (fun act => from_option decisionType false (wa_Type act) = true) acts ->
  Actions a customStatus tc rh s w acts = (st', Ok tt) ->
  exists events, history (as_state st') = history s ++ events /\ Forall2 records acts events.
Proof.
  intros Hd H. apply applyLoop_records in H as (events & En & Eo & Hr); [| done]. exists events. split; [| done].
  unfold history. rewrite En, Eo. cbn. by rewrite app_assoc.
Qed.
End Record.

(** ** A decision is made once *)

Section System.
Context `{HF : Float64} `{HM : Marshaler} `{HR : RangeOrder} `{HC : ProtoCodec}.
Variable ToUpper : string -> string.
Variables errorTypeName errorText : error -> string.
Variable registry : TaskRegistry Workflow Activity.

Local Abbreviation start := (start ToUpper errorTypeName errorText registry).

(** A turn that neither ends nor fails the workflow emits decisions only. *)
Lemma goes_on_decides id old new ph w c acts :
  start (NewWorkflowContext id old new ph w) = (c, RRet acts) ->
  Forall (fun act => isConclusion act = false) acts ->
  Forall (fun act => from_option decisionType false (wa_Type act) = true) acts.
Proof.
  intros Hs Hc. pose proof (start_wf ToUpper errorTypeName errorText registry _
    (wf_emptyTable : table_wf (wc_table (NewWorkflowContext id old new ph w)))) as Hw. rewrite Hs in Hw. cbn in Hw.
  assert (acts = actions c) as E.
  { unfold TaskExecutor.start in Hs. by destruct (startLoop _ _ _ _ _) as [? [[] | | |]]; simplify_eq. }
  assert (Forall (fun a => emittable a = true) acts) as He.
  { rewrite E. unfold actions. case_match; [constructor | by apply tableActions_ordered]. }
  rewrite Forall_forall in *. intros act Hin. specialize (He act Hin). specialize (Hc act Hin).
  unfold emittable, isConclusion in *. destruct (wa_Type act) as [ty|]; cbn in *; [| done].
  by rewrite Hc, orb_false_r in He.
Qed.

Lemma stampState_marker c s e rest :
  NewEvents s = e :: rest -> plainMarker e ->
  history (stampState (responseVersion c) s) = OldEvents s ++ stampMarker (responseVersion c) e :: rest.
Proof.
  intros En He. unfold stampState, versionToStamp, responseVersion, history.
  assert (forall v, stampVersion v (e :: rest) = stampMarker (Some v) e :: rest) as Hstamp.
  { intros v. cbn. unfold GetWorkflowStarted. by rewrite He. }
  destruct (pa_encountered (wc_patches c)), (wc_VersionName c); cbn; rewrite En, ?Hstamp; done.
Qed.

(** The new events of a state are those of a turn: its marker, then what arrived, a start
    event first. *)
Record turnEvents (s : WorkflowRuntimeState) (e : HistoryEvent) (rest : list HistoryEvent) : Prop := {
  te_events : NewEvents s = e :: rest;
  te_marker : plainMarker e;
  te_once : Forall (fun e => GetWorkflowStarted e = None) rest;
  te_start : Forall (fun e => GetExecutionStarted e = None) (tail rest)
}.

Hypothesis deterministic : forall name v w v', ResolveWorkflow name v registry = inl (w, v') -> oblivious (full := false) w.

(** The turn again, on the log the applier leaves. *)
Lemma applied_turn_replays a cs tc rh s e rest wa st' id ph w1 c1 acts old2 new2 w2 :
  turnEvents s e rest -> oneStart (history s) = true ->
  awake (ticks ToUpper errorTypeName errorText registry (length (OldEvents s))
    (NewWorkflowContext id (OldEvents s) (NewEvents s) ph w1, MIdle)).1 ->
  start (NewWorkflowContext id (OldEvents s) (NewEvents s) ph w1) = (c1, RRet acts) ->
  Forall (fun act => isConclusion act = false) acts -> tb_bufferedResolutions (wc_table c1) = ∅ ->
  Actions a cs tc rh (stampState (responseVersion c1) s) wa acts = (st', Ok tt) ->
  old2 ++ new2 = history (as_state st') ->
  exists c2, start (NewWorkflowContext id old2 new2 ph w2) = (c2, RRet []) /\
    re_customStatus (wc_report c2) = re_customStatus (wc_report c1) /\ responseVersion c2 = responseVersion c1.
Proof.
  intros [En He Hm Hst] Ho Haw Hs Hc Hb Ha E. apply Actions_records in Ha as (events & Eh & Hr); [| by eapply goes_on_decides].
  unfold history in Ho. rewrite En in *.
  apply (recorded_decisions_replay ToUpper errorTypeName errorText registry id (OldEvents s) e rest
    old2 new2 ph w1 w2 c1 acts events); try done.
  rewrite E, Eh, (stampState_marker c1 s e rest En He), <- app_assoc. done.
Qed.

(** C3. A decision is made once: let a turn on the log of a runtime state begin with the
    workflow not suspended and go on (no completion, no result held back), and let the
    reported version be stamped on the turn's marker and the actions be recorded by the
    applier.  A turn on the log that results, however it is divided into old and new
    events and with other execution ids, decides nothing: every call of the function
    finds its record and every patch the answer it had, without a nondeterminism error,
    and the custom status, patches and version are the same. *)
Theorem decisions_are_made_once a cs tc rh s e rest wa st' id ph w1 c1 acts old2 new2 w2 :
  turnEvents s e rest -> oneStart (history s) = true ->
  awake (ticks ToUpper errorTypeName errorText registry (length (OldEvents s))
    (NewWorkflowContext id (OldEvents s) (NewEvents s) ph w1, MIdle)).1 ->
  start (NewWorkflowContext id (OldEvents s) (NewEvents s) ph w1) = (c1, RRet acts) ->
  Forall (fun act => isConclusion act = false) acts -> tb_bufferedResolutions (wc_table c1) = ∅ ->
  Actions a cs tc rh (stampState (responseVersion c1) s) wa acts = (st', Ok tt) ->
  old2 ++ new2 = history (as_state st') ->
  exists c2, start (NewWorkflowContext id old2 new2 ph w2) = (c2, RRet []) /\
    re_customStatus (wc_report c2) = re_customStatus (wc_report c1) /\ responseVersion c2 = responseVersion c1.
Proof. apply applied_turn_replays. Qed.

End System.
