(* ===== verification/TaskStored.v ===== *)
(** * What is stored replays

    The whole path of a turn with the executor of the process: a worker leases a work
    item from the SQLite backend, loads the history, executes the workflow function,
    stamps the version, applies the actions and commits; then the history is read again
    and the function is run on it.  This composes [System] (lease to commit) with
    [TaskSystem] (decisions to replay). *)

From stdpp Require Import base list option strings gmap sets relations sorting.
From Stdlib Require Import ZArith Lia.
From S2P Require Import Prelude Errors Protos Dedup RuntimeState Propagation Helpers Applier Backend.
From S2P Require Import Orchestration Sqlite SqliteCorrect SqliteCommit SqliteTheorems System.
From S2P Require Import TaskRegistry TaskTable TaskProgram TaskMethods TaskExecutor TaskGuard TaskTotal TaskPreserve.
From S2P Require Import TaskInv TaskMachine TaskErase TaskLike TaskReplay TaskRecorded TaskSystem.

(** ** Accepted events *)

Lemma accepted_Forall P events errs : Forall P events -> Forall P (accepted events errs).
Proof.
  intros H. revert errs. induction H as [|e l He Hl IH]; intros [|err errs]; [constructor .. |].
  unfold accepted. cbn. destruct err; [apply IH | constructor; [done | apply IH]].
Qed.

Lemma accepted_tail P events errs : Forall P (tail events) -> Forall P (tail (accepted events errs)).
Proof.
  destruct events as [|e l], errs as [|err errs]; cbn; [constructor .. |]. intros H%(accepted_Forall _ _ errs).
  unfold accepted in *. cbn. destruct err; cbn; [by destruct H | done].
Qed.

Section Stored.
Context `{HC : ProtoCodec} `{HCok : !ProtoCodecOk} `{HFC : FailureCodec} `{HMR : MapRange}.
Context `{HF : Float64} `{HM : Marshaler} `{HR : RangeOrder}.
Variable opts : SqliteOptions.
Variable spanTrace : nat -> option TraceContext.
Variable ToUpper : string -> string.
Variables errorTypeName errorText : error -> string.
Variable registry : TaskRegistry Workflow Activity.
(** The source of fresh ids of each execution. *)
Variable uuids : nat -> World.
Variable applier : Applier.

Local Abbreviation start := (start ToUpper errorTypeName errorText registry).

(** The executor of the process.  A turn never runs out of the nesting bound
    ([executeWorkflow_total]). *)
Definition inProcess : WorkflowExecutor := {|
  ExecuteWorkflow n id old new ph :=
    match executeWorkflow ToUpper errorTypeName errorText registry id old new ph (uuids n) with
    | RRet (inl resp) => Ok resp
    | RRet (inr err) => Err err
    | RPanic msg => Panic msg
    | RBlocked | RFuel => Panic "no result"
    end
|}.

Definition processor : workflowProcessor := mkWorkflowProcessor inProcess None "" applier.

(** The state a turn opens and the context of its execution. *)
Definition turnState (wi : WorkflowWorkItem) (w : World) (l : list HistoryEvent) : WorkflowRuntimeState :=
  openedState (mkTurnSt wi w 0 0) (NewWorkflowRuntimeState (owi_InstanceID wi) None l).
Definition turnContext (wi : WorkflowWorkItem) (w : World) (l : list HistoryEvent) (ph : option ApiPropagatedHistory)
    : WorkflowContext :=
  NewWorkflowContext (owi_InstanceID wi) (OldEvents (turnState wi w l)) (NewEvents (turnState wi w l)) ph (uuids 0).

(** What arrived: no markers, and a start event only in the first place. *)
Record arrivals (wi : WorkflowWorkItem) : Prop := {
  arr_ids : ids_ok (owi_NewEvents wi);
  arr_markers : Forall (fun e => GetWorkflowStarted e = None) (owi_NewEvents wi);
  arr_start : Forall (fun e => GetExecutionStarted e = None) (tail (owi_NewEvents wi));
  arr_terminate : terminateEventOf wi = None
}.

Lemma turnState_events wi w l :
  arrivals wi -> ids_ok l -> clean_log l ->
  OldEvents (turnState wi w l) = l /\
  exists rest, turnEvents (turnState wi w l) (turnMarker w) rest.
Proof.
  intros [Hi Hm Hst _] Hok Hc. destruct (load_clean (owi_InstanceID wi) None l Hok Hc) as (_ & _ & Hl).
  destruct (load_frame (owi_InstanceID wi) None l Hok) as (_ & _ & Hn & _).
  destruct (openedState_log (mkTurnSt wi w 0 0) (NewWorkflowRuntimeState (owi_InstanceID wi) None l)) as (Ho & errs & Hnew);
    [done | by rewrite Hl |].
  unfold history in Hl. rewrite Hn, app_nil_r in Hl. rewrite Hn in Hnew. split; [by unfold turnState; rewrite Ho |].
  exists (accepted (owi_NewEvents wi) errs). split; [exact Hnew | done | by apply accepted_Forall | by apply accepted_tail].
Qed.

(** A turn that goes on: it begins on an open workflow that is not suspended, and ends with
    decisions only and no result held back. *)
Record goesOn (wi : WorkflowWorkItem) (w : World) (l : list HistoryEvent) (ph : option ApiPropagatedHistory)
    (c : WorkflowContext) (acts : list WorkflowAction) : Prop := {
  go_valid : IsValid (NewWorkflowRuntimeState (owi_InstanceID wi) None l) = true;
  go_open : IsCompleted (NewWorkflowRuntimeState (owi_InstanceID wi) None l) = false;
  go_incoming : match owi_IncomingHistory wi with None => inl None | Some h => PropagatedHistoryFromProto (Some h) end = inl ph;
  go_once : oneStart (history (turnState wi w l)) = true;
  go_awake : awake (ticks ToUpper errorTypeName errorText registry (length l) (turnContext wi w l ph, MIdle)).1;
  go_run : start (turnContext wi w l ph) = (c, RRet acts);
  go_decides : Forall (fun act => isConclusion act = false) acts;
  go_settled : tb_bufferedResolutions (wc_table c) = ∅
}.

Hypothesis deterministic : forall name v w v', ResolveWorkflow name v registry = inl (w, v') -> oblivious (full := false) w.

(** The log of a turn that goes on replays. *)
Lemma served_turn_replays db wi w l ph c acts st' s' old2 new2 w2 :
  owi_State wi = None -> readHistory db (owi_InstanceID wi) = inl l -> ids_ok l -> clean_log l -> arrivals wi ->
  goesOn wi w l ph c acts ->
  serveTurn processor spanTrace db wi w = (st', Ok tt) -> stateOf st' = Some s' -> old2 ++ new2 = history s' ->
  l `prefix_of` history s' /\
  exists c2, start (NewWorkflowContext (owi_InstanceID wi) old2 new2 ph w2) = (c2, RRet []) /\
    re_customStatus (wc_report c2) = re_customStatus (wc_report c) /\ responseVersion c2 = responseVersion c.
Proof.
  intros Hnone Hl Hok Hclean Harr [Hv Hop Hin Ho Haw Hrun Hdec Hset] Hturn Hs' E.
  destruct (load_clean (owi_InstanceID wi) None l Hok Hclean) as (_ & _ & Hlog).
  assert (loadedState (loader db) (mkTurnSt wi w 0 0) = Some (NewWorkflowRuntimeState (owi_InstanceID wi) None l)) as Hload.
  { unfold loadedState, stateOf. cbn. by rewrite Hnone, Hl. }
  destruct (ProcessWorkItem_once processor (loader db) spanTrace (mkTurnSt wi w 0 0) st'
    (NewWorkflowRuntimeState (owi_InstanceID wi) None l)) as (results & ast & tc & w' & Hex & Ha & Hend);
    [apply Harr | by rewrite Hlog | apply Harr | exact Hload | done | done | exact Hturn |].
  fold (turnState wi w l) in Hex, Ha. destruct (turnState_events wi w l Harr Hok Hclean) as [Hold [rest Hev]].
  assert (resp_Actions results = acts /\ resp_Version results = responseVersion c) as [Eacts Ever].
  { cbn in Hex. unfold executeWorkflow in Hex. rewrite Hin in Hex. unfold turnContext in Hrun. rewrite Hrun in Hex. by injection Hex as <-. }
  rewrite Eacts, Ever in Ha.
  assert (stateOf st' = Some (as_state ast)) as Hast.
  { apply Hend. match type of Ha with Actions ?a ?cs ?tc ?rh ?q ?w ?acts = _ =>
      destruct (Actions_grow a cs tc rh q w acts) as (_ & _ & G3) end.
    - eapply Forall_impl; [exact Hdec |]. intros act. unfold isConclusion, continuesAsNew, GetCompleteWorkflow.
      by destruct (wa_Type act) as [[]|].
    - by rewrite Ha in G3. }
  assert (s' = as_state ast) as -> by congruence.
  destruct (Actions_records applier (resp_CustomStatus results) tc (owi_IncomingHistory wi) (stampState (responseVersion c) (turnState wi w l))
    w' acts ast) as (events & Eh & _); [by eapply goes_on_decides | exact Ha |].
  rewrite (stampState_marker c _ _ rest) in Eh by apply Hev. rewrite Hold in Eh.
  split; [rewrite Eh, <- app_assoc; by apply prefix_app_r |].
  apply (applied_turn_replays ToUpper errorTypeName errorText registry deterministic applier (resp_CustomStatus results) tc
    (owi_IncomingHistory wi) (turnState wi w l) (turnMarker w) rest w' ast (owi_InstanceID wi) ph (uuids 0) c acts); try done.
  assert (length (OldEvents (turnState wi w l)) = length l) as -> by (by rewrite Hold). exact Haw.
Qed.


End Stored.
