(* ===== verification/TaskWitness.v ===== *)
(** * The workflow executor on concrete histories

    A workflow function that calls an activity, waits for an event and then awaits the
    activity, run on concrete histories; the theorems of the executor are applied to
    these runs. *)

From stdpp Require Import base list option strings gmap sorting relations.
From Stdlib Require Import ZArith Lia QArith.
From S2P Require Import Prelude Errors Protos Dedup RuntimeState Propagation Helpers Applier Orchestration TaskRegistry TaskTable.
From S2P Require Import TaskProgram TaskMethods TaskExecutor TaskGuard TaskTotal TaskInv TaskMachine TaskErase TaskLike TaskReplay.
From S2P Require Import TaskRecorded TaskRetry TaskTheorems TaskSystem.
Local Open Scope Z_scope.

#[local] Existing Instance keyOrder.
#[local] Existing Instance exactFloat.
#[local] Instance noEvents : ProtoCodec := catalogCodec [].
(** Values are strings, marshalled in quotes. *)
#[local] Instance stringMarshaler : Marshaler := {| any := string; marshalAny v := inl ("'" +:+ v +:+ "'") |}.

Definition upper (s : string) : string := s.
Definition typeName (e : error) : string := "*errors.errorString".
Definition text (e : error) : string := "error".

(** ** A workflow function and its history *)

Definition sampleFunction : Workflow :=
  WCallActivity "charge" [] (fun t =>
  WWaitForSingleEvent "go" (-1) (fun t2 =>
  WAwait t2 None (fun _ =>
  WAwait t None (fun r =>
    match r with
    | inl out => WReturn (Some out) None
    | inr err => WReturn None (Some err)
    end)))).

Definition single (f : Workflow) : TaskRegistry Workflow Activity := (AddWorkflowN "Flow" f NewTaskRegistry).1.

Lemma single_resolves f name v w v' : ResolveWorkflow name v (single f) = inl (w, v') -> w = f.
Proof.
  intros H. unfold ResolveWorkflow in H.
  change (reg_workflows (single f)) with ({["Flow" := f]} : gmap string Workflow) in H.
  change (reg_versionedWorkflows (single f)) with (∅ : gmap string (gmap string Workflow)) in H.
  rewrite lookup_empty in H. destruct (decide (name = "Flow")) as [-> | Hn]; [by rewrite lookup_singleton_eq in H; simplify_eq |].
  rewrite lookup_singleton_ne in H by done. rewrite (lookup_singleton_ne "Flow" "*") in H by done.
  by destruct v.
Qed.

Definition sampleRegistry : TaskRegistry Workflow Activity := single sampleFunction.

Definition turnBegins (t : Z) : HistoryEvent := ev (-1) t (HistoryEvent_WorkflowStarted (mkWorkflowStartedEvent None)).
Definition begins : HistoryEvent := ev (-1) 101 (HistoryEvent_ExecutionStarted sampleStart).
Definition goes : HistoryEvent := ev (-1) 130 (HistoryEvent_EventRaised (mkEventRaisedEvent "go" None)).
Definition stops : HistoryEvent :=
  ev (-1) 140 (HistoryEvent_ExecutionTerminated (mkExecutionTerminatedEvent None false)).
Definition suspends : HistoryEvent := ev (-1) 120 (HistoryEvent_ExecutionSuspended None).
Definition resumes : HistoryEvent := ev (-1) 150 (HistoryEvent_ExecutionResumed None).

Local Abbreviation execute := (executeWorkflow upper typeName text sampleRegistry).

(** ** The turns *)

Definition state1 : WorkflowRuntimeState :=
  (AddEvents (NewWorkflowRuntimeState "wf1" None []) [turnBegins 100; begins]).1.
Definition context1 : WorkflowContext := NewWorkflowContext "wf1" (OldEvents state1) (NewEvents state1) None sampleWorld.

Definition response (events : list HistoryEvent) : WorkflowResponse :=
  match execute "wf1" [] events None sampleWorld with
  | RRet (inl resp) => resp
  | _ => mkWorkflowResponse "" [] None "" None None
  end.

Lemma response_actions_ordered_witness :
  length (resp_Actions (response [turnBegins 100; begins])) = 2%nat /\
  StronglySorted Z.lt (wa_Id <$> resp_Actions (response [turnBegins 100; begins])).
Proof.
  split; [by vm_compute |].
  apply (response_actions_ordered upper typeName text sampleRegistry "wf1" [] [turnBegins 100; begins] None sampleWorld).
  vm_compute. reflexivity.
Defined.

Lemma terminated_turn_concludes_witness :
  exists act, act ∈ resp_Actions (response [turnBegins 100; begins; stops]) /\ isConclusion act = true.
Proof.
  apply (terminated_turn_concludes upper typeName text sampleRegistry "wf1" [] [turnBegins 100; begins; stops] None
    sampleWorld (response [turnBegins 100; begins; stops]) stops); [by vm_compute | decide_now | done |].
  vm_compute. reflexivity.
Defined.

Lemma double_suspension_drops_event_witness :
  let c' := foldl (fun c x => (handle upper typeName text sampleRegistry x c).1) context1 [suspends; suspends; goes; resumes] in
  c' = set_suspension true [] context1 /\ actions c' = [].
Proof.
  by apply (double_suspension_drops_event upper typeName text sampleRegistry context1 suspends suspends goes resumes).
Defined.

(** ** Retries *)

Definition samplePolicy : RetryPolicy := mkRetryPolicy 2 (1000 * Millisecond) (fofZ 2) 0 0 None.

(** Both attempts fail, with a timer between them. *)
Definition failedTwice : list HistoryEvent :=
  [ ev 0 110 (HistoryEvent_TaskScheduled (mkTaskScheduledEvent "charge" None None None "uuid-0" None));
    ev (-1) 111 (HistoryEvent_TaskFailed (mkTaskFailedEvent 0 (Some (mkTaskFailureDetails "E" "declined" None None false)) "uuid-0"));
    ev 1 112 (HistoryEvent_TimerCreated (mkTimerCreatedEvent None None None));
    ev (-1) 113 (HistoryEvent_TimerFired (mkTimerFiredEvent None 1));
    ev 2 114 (HistoryEvent_TaskScheduled (mkTaskScheduledEvent "charge" None None None "uuid-0" None));
    ev (-1) 115 (HistoryEvent_TaskFailed (mkTaskFailedEvent 2 (Some (mkTaskFailureDetails "E" "declined" None None false)) "uuid-0")) ].

(** A function that asks for a patch and retries its activity. *)
Definition retryFunction : Workflow :=
  WIsPatched "careful" (fun b =>
  if b then WCallActivity "charge" [WithActivityRetryPolicy (Some samplePolicy)] (fun t =>
    WAwait t None (fun r => WReturn None (match r with inl _ => None | inr err => Some err end)))
  else WReturn None None).

Lemma retryFunction_oblivious full : oblivious (full := full) retryFunction.
Proof. cbn. intros []; [| done]. intros t Ht. by split. Qed.

Definition retryRegistry : TaskRegistry Workflow Activity := single retryFunction.

Lemma retry_deterministic name v w v' :
  ResolveWorkflow name v retryRegistry = inl (w, v') -> oblivious (full := true) w.
Proof. intros ->%single_resolves. apply retryFunction_oblivious. Qed.

(** The first turn recorded the patch of the function and that of the retry chain. *)
Definition failedOnce : list HistoryEvent :=
  [ ev (-1) 100 (HistoryEvent_WorkflowStarted (mkWorkflowStartedEvent
      (Some (mkWorkflowVersion ["careful"; retryChainPatch] None)))); begins ] ++ take 2 failedTwice.


(** ** A turn, its records and the turn again *)

(** The function as version v1. *)
Definition versionRegistry : TaskRegistry Workflow Activity :=
  (AddVersionedWorkflowN "Flow" "v1" true retryFunction NewTaskRegistry).1.

Lemma version_deterministic name v w v' :
  ResolveWorkflow name v versionRegistry = inl (w, v') -> oblivious (full := false) w.
Proof.
  intros H. assert (w = retryFunction) as ->; [| apply retryFunction_oblivious]. unfold ResolveWorkflow in H.
  change (reg_workflows versionRegistry) with (∅ : gmap string Workflow) in H.
  change (reg_versionedWorkflows versionRegistry) with ({["Flow" := {["v1" := retryFunction]}]} : gmap string (gmap string Workflow)) in H.
  rewrite !lookup_empty in H. destruct (decide (name = "Flow")) as [-> | Hn]; cycle 1.
  { rewrite lookup_singleton_ne in H by done. by destruct v. }
  rewrite lookup_singleton_eq in H. destruct (match v with Some u => Some u | None => _ end) as [u|]; [| done].
  destruct (decide (u = "v1")) as [-> | Hu]; [by rewrite lookup_singleton_eq in H; simplify_eq | by rewrite lookup_singleton_ne in H].
Qed.

Local Abbreviation beginV := (start upper typeName text versionRegistry).
Definition decided : list WorkflowAction := match (beginV context1).2 with RRet acts => acts | _ => [] end.
Definition applied := Actions sampleApplier None None None (stampState (responseVersion (beginV context1).1) state1) sampleWorld decided.

(** The turn schedules the activity; the marker has the version and both patches. *)
Example first_turn_decides :
  wa_Id <$> decided = [0] /\ length (history (as_state applied.1)) = 3%nat /\
  (head (history (as_state applied.1)) ≫= GetWorkflowStarted) =
    Some (mkWorkflowStartedEvent (Some (mkWorkflowVersion ["careful"; retryChainPatch] (Some "v1")))).
Proof. vm_compute. done. Qed.

Lemma decisions_are_made_once_witness :
  exists c2, beginV (NewWorkflowContext "wf1" (history (as_state applied.1)) [] None sampleWorld) = (c2, RRet []) /\
    re_customStatus (wc_report c2) = re_customStatus (wc_report (beginV context1).1) /\
    responseVersion c2 = responseVersion (beginV context1).1.
Proof.
  apply (decisions_are_made_once upper typeName text versionRegistry version_deterministic sampleApplier None None None
    state1 (turnBegins 100) [begins] sampleWorld applied.1 "wf1" None sampleWorld (beginV context1).1 decided
    (history (as_state applied.1)) [] sampleWorld).
  - split; [by vm_compute | done | by repeat constructor | constructor].
  - vm_compute. reflexivity.
  - vm_compute. done.
  - vm_compute. reflexivity.
  - vm_compute. by repeat constructor.
  - vm_compute. reflexivity.
  - vm_compute. reflexivity.
  - apply app_nil_r.
Defined.

Definition retrying : WorkflowContext * res Task :=
  run (processNextEvent (processEvent upper typeName text sampleRegistry 2))
    (CallActivity typeName text "charge" [WithActivityRetryPolicy (Some samplePolicy)])
    (set_patches (mkPatches {[retryChainPatch]} ∅ []) (NewWorkflowContext "wf1" [] failedTwice None sampleWorld)).

Definition awaited : WorkflowContext * res (string + error) :=
  run (processNextEvent (processEvent upper typeName text sampleRegistry 2)) (awaitRetry text 0 None) retrying.1.

Definition retried : retryTask :=
  default (mkRetryTask (mkRetryChain "" 0 (SchedActivity "" (mkCallActivityOptions None None None None None)) samplePolicy)
    0 "" "" 0 false None) (rh_tasks (wc_retries retrying.1) !! 0%nat).

Example attempts_run :
  awaited.2 = RRet (inr (errorNew "task failed with an error: declined")) /\
  remaining awaited.1 = 0%nat /\ rt_retryCount <$> rh_tasks (wc_retries awaited.1) !! 0%nat = Some 1.
Proof. vm_compute. done. Qed.

Lemma retry_attempts_bounded_witness :
  retryDone 0 (rt_chain retried) awaited.1 /\
  (forall rt' err, rh_tasks (wc_retries awaited.1) !! 0%nat = Some rt' -> rt_terminalError rt' = Some err ->
     inr (errorNew "task failed with an error: declined") = (inr err : string + error)).
Proof.
  apply (retry_attempts_bounded upper typeName text sampleRegistry 0 0 None retried retrying.1 awaited.1).
  - split; vm_compute; repeat constructor.
  - vm_compute. reflexivity.
  - vm_compute. done.
  - vm_compute. done.
  - vm_compute. reflexivity.
Defined.

(** The second retry of the sample policy waits four seconds; an interval of a
    microsecond is never waited for. *)
Definition microPolicy : RetryPolicy := mkRetryPolicy 5 1000 (fofZ 2) 0 0 None.

Lemma retry_delay_bounds_witness :
  computeNextDelay 0 (Validate samplePolicy).1 2 0 ErrTaskCanceled = 4000 * Millisecond /\
  (0 <= computeNextDelay 0 (Validate samplePolicy).1 2 0 ErrTaskCanceled <= rp_MaxRetryInterval (Validate samplePolicy).1)%Z /\
  computeNextDelay 0 (Validate microPolicy).1 2 0 ErrTaskCanceled = 0.
Proof.
  split_and!; [by vm_compute |..].
  - by apply (retry_delay_bounds 0 samplePolicy (Validate samplePolicy).1 2 0 ErrTaskCanceled).
  - by apply (retry_delay_bounds 0 samplePolicy (Validate samplePolicy).1 2 0 ErrTaskCanceled).
  - apply (retry_delay_bounds 0 microPolicy (Validate microPolicy).1 2 0 ErrTaskCanceled); [done.. |].
    intros [|y|y] Hy; done.
Defined.

(** ** Versions *)

Definition registry1 : TaskRegistry Workflow Activity :=
  (AddVersionedWorkflowN "Flow" "v1" true sampleFunction NewTaskRegistry).1.
Definition registry2 : TaskRegistry Workflow Activity :=
  (AddVersionedWorkflowN "Flow" "v2" true (WReturn None None) registry1).1.

Lemma pinned_version_stable_witness :
  ResolveWorkflow "Flow" None registry2 = inl (WReturn None None, Some "v2") /\
  ResolveWorkflow "Flow" (Some "v1") registry2 = inl (sampleFunction, Some "v1").
Proof.
  split; [by vm_compute |].
  apply (pinned_version_stable registry1 registry2 "Flow" None "v1" sampleFunction); [by vm_compute | | by vm_compute].
  apply rtc_once, reg_addVersioned.
Defined.
