(* ===== verification/StoredWitness.v ===== *)
(** * A turn from the lease to the replay, on concrete tables

    The versioned function of [TaskWitness], which asks for a patch and retries its
    activity, is started on the SQLite backend, run and committed; [stored_decisions_replay]
    is applied to the tables. *)

From stdpp Require Import base list option strings gmap sets sorting relations.
From Stdlib Require Import ZArith Lia.
From S2P Require Import Prelude Errors Protos Dedup RuntimeState Propagation Helpers Applier Backend.
From S2P Require Import Orchestration Sqlite SqliteCorrect SqliteCommit SqliteTheorems System.
From S2P Require Import TaskRegistry TaskTable TaskProgram TaskMethods TaskExecutor TaskGuard TaskTotal TaskInv TaskMachine.
From S2P Require Import TaskErase TaskLike TaskReplay TaskRecorded TaskSystem TaskStored TaskWitness.

#[local] Existing Instances keyOrder exactFloat stringMarshaler.

Definition created : HistoryEvent :=
  ev (-1) 5 (HistoryEvent_ExecutionStarted (mkExecutionStartedEvent "Flow" None (Some "in")
    (Some (mkWorkflowInstance "wf1" (Some "x1"))) None None None None ∅)).

(** What the turn writes: its marker with version and patches, and the activity. *)
Definition stamped : HistoryEvent :=
  ev (-1) 100 (HistoryEvent_WorkflowStarted (mkWorkflowStartedEvent
    (Some (mkWorkflowVersion ["careful"; retryChainPatch] (Some "v1"))))).
Definition charged : HistoryEvent := mkHistoryEvent 0 (Some 101)
  (Some (HistoryEvent_TaskScheduled (mkTaskScheduledEvent "charge" None None None "uuid-0" None)))
  (Some (mkTaskRouter "app" None None)).

#[local] Instance storedCodec : ProtoCodec := catalogCodec [created; stamped; charged].
#[local] Instance storedCodecOk : ProtoCodecOk := catalogCodecOk _.
#[local] Instance noFailure : FailureCodec := {|
  MarshalFailure _ := inr (errorNew "unsupported");
  UnmarshalFailure _ := inr (errorNew "unsupported")
|}.
#[local] Instance listRange : MapRange :=
  {| mapRange := map_to_list; mapRange_perm := fun _ => reflexivity _ |}.

Definition tablesOf {X} (r : Sqlite * X) : DB := match r.1 with Some db => db | None => emptyDB end.

Definition createdDB : DB := tablesOf (CreateWorkflowInstance 5 (Some created) (Some emptyDB)).
Definition leased := getWorkflowWorkItem NewSqliteOptions 10 "t1" (Some createdDB).
Definition leasedDB : DB := tablesOf leased.
Definition item : WorkflowWorkItem := mkWorkflowWorkItem "wf1" [created] "t1" 0 None None ∅.
Definition proc : workflowProcessor := processor upper typeName text versionRegistry (fun _ => sampleWorld) sampleApplier.
Definition servedV := serveTurn proc (fun _ => None) leasedDB item sampleWorld.
Definition storedDB : DB := tablesOf (CompleteWorkflowWorkItem 60 (t_wi servedV.1) (Some leasedDB)).

Definition ran := start upper typeName text versionRegistry
  (turnContext (fun _ => sampleWorld) item sampleWorld [] None).
Definition ranActions : list WorkflowAction := match ran.2 with RRet acts => acts | _ => [] end.

Lemma createdDB_wf : db_wf createdDB.
Proof.
  eapply (sqlite_step_wf NewSqliteOptions (fun _ => True)); [| apply db_wf_empty].
  apply (step_create _ _ 5 (Some created)). vm_compute. reflexivity.
Qed.

Lemma item_arrivals : arrivals item.
Proof. split; [decide_now | by repeat constructor | constructor | done]. Qed.

Lemma item_goesOn : goesOn upper typeName text versionRegistry (fun _ => sampleWorld) item sampleWorld [] None ran.1 ranActions.
Proof.
  split; [by vm_compute | by vm_compute | done | by vm_compute | by vm_compute | by vm_compute | | by vm_compute].
  vm_compute. by repeat constructor.
Qed.

