(* ===== verification/LocalTasks.v ===== *)
(** * Completion waiters inside the process (backend/local/task.go)

    A backend that embeds [TasksBackend] connects a call that waits for the result of a
    dispatched task with the call that delivers it.  A registration is an object shared
    by pointer between the two, so waiters live in a heap; the registry maps a key (the
    instance id of a workflow, the execution key of an activity) to the current one.
    The code for workflows and for activities is the same up to the type of the
    response, a parameter here. *)

From stdpp Require Import base list option strings gmap pretty.
From Stdlib Require Import ZArith Lia Ascii.
From S2P Require Import Prelude Errors Protos Helpers.

Section LocalTasks.
Context {R : Type}.

(** [pendingWorkflow], [pendingActivity]: the channel is closed once. *)
Record waiter := mkWaiter {
  wt_response : option R;
  wt_complete : bool
}.

Record TasksBackend := mkTasksBackend {
  lt_pending : gmap string nat;
  lt_heap : gmap nat waiter;
  lt_next : nat
}.

Definition NewTasksBackend : TasksBackend := mkTasksBackend ∅ ∅ 0.

Definition ErrTaskAlreadyPending : error := errorNew "a completion waiter is already pending for this task".

(** [RegisterWorkflowTaskCompletion], [RegisterActivityCompletion]: the pointer the
    returned function waits on. *)
Definition registerCompletion (key : string) (b : TasksBackend) : TasksBackend * (nat + error) :=
  match lt_pending b !! key with
  | Some _ => (b, inr ErrTaskAlreadyPending)
  | None =>
      (mkTasksBackend (<[key := lt_next b]> (lt_pending b)) (<[lt_next b := mkWaiter None false]> (lt_heap b))
         (S (lt_next b)), inl (lt_next b))
  end.

(** [deletePendingWorkflow], [deletePendingActivityTask] *)
Definition deletePending (key : string) (res : option R) (b : TasksBackend) : TasksBackend * bool :=
  match lt_pending b !! key with
  | None => (b, false)
  | Some w => (mkTasksBackend (delete key (lt_pending b)) (<[w := mkWaiter res true]> (lt_heap b)) (lt_next b), true)
  end.

(** [CompleteWorkflowTask], [CompleteActivityTask]; [unknown] is the error of the kind. *)
Definition completeTask (unknown : error) (key : string) (res : R) (b : TasksBackend) : TasksBackend * option error :=
  match deletePending key (Some res) b with
  | (b, true) => (b, None)
  | (b, false) => (b, Some unknown)
  end.

(** [CancelWorkflowTask], [CancelActivityTask] *)
Definition cancelTask (unknown : error) (key : string) (b : TasksBackend) : TasksBackend * option error :=
  match deletePending key None b with
  | (b, true) => (b, None)
  | (b, false) => (b, Some unknown)
  end.

(** The deferred [CompareAndDelete] of a wait. *)
Definition releaseWaiter (key : string) (w : nat) (b : TasksBackend) : TasksBackend :=
  if bool_decide (lt_pending b !! key = Some w)
  then mkTasksBackend (delete key (lt_pending b)) (lt_heap b) (lt_next b) else b.

(** What a wait returns once its channel is closed. *)
Definition waitResult (w : waiter) : R + error :=
  match wt_response w with
  | Some res => inl res
  | None => inr ErrTaskCancelled
  end.

(** ** The registry *)

(** A registered waiter is one that was allocated and whose channel is open, and it is
    registered once: closing it cannot panic. *)
Record tasks_wf (b : TasksBackend) : Prop := {
  tw_open : forall key w, lt_pending b !! key = Some w -> lt_heap b !! w = Some (mkWaiter None false);
  tw_inj : forall key key' w, lt_pending b !! key = Some w -> lt_pending b !! key' = Some w -> key = key';
  tw_next : forall w x, lt_heap b !! w = Some x -> (w < lt_next b)%nat
}.

Lemma tasks_wf_new : tasks_wf NewTasksBackend.
Proof. split; intros *; cbn; by rewrite lookup_empty. Qed.

Lemma registerCompletion_wf key b b' r : tasks_wf b -> registerCompletion key b = (b', r) -> tasks_wf b'.
Proof.
  intros [Ho Hi Hn]. unfold registerCompletion. case_match eqn:E; intros [= <- <-]; [by split |].
  assert (forall k, lt_pending b !! k <> Some (lt_next b)) as Hfresh.
  { intros k Hk. apply Ho, Hn in Hk. lia. }
  split; cbn.
  - intros k w. destruct (decide (k = key)) as [-> | Hk].
    + rewrite lookup_insert_eq. intros [= <-]. by rewrite lookup_insert_eq.
    + rewrite lookup_insert_ne by done. intros Hw. rewrite lookup_insert_ne; [by eapply Ho |].
      intros <-. by apply (Hfresh k).
  - intros k k' w. destruct (decide (k = key)) as [-> | Hk]; [rewrite lookup_insert_eq | rewrite lookup_insert_ne by done].
    + intros [= <-]. destruct (decide (k' = key)) as [-> | Hk']; [done |]. rewrite lookup_insert_ne by done.
      by intros ?%Hfresh.
    + intros Hw. destruct (decide (k' = key)) as [-> | Hk']; [rewrite lookup_insert_eq | rewrite lookup_insert_ne by done; by eapply Hi].
      intros [= <-]. by apply Hfresh in Hw.
  - intros w x. destruct (decide (w = lt_next b)) as [-> | Hw]; [lia |]. rewrite lookup_insert_ne by done.
    intros ?%Hn. lia.
Qed.

Lemma deletePending_wf key res b : tasks_wf b -> tasks_wf (deletePending key res b).1.
Proof.
  intros [Ho Hi Hn]. unfold deletePending. destruct (lt_pending b !! key) as [w|] eqn:E; [| by split]. split; cbn.
  - intros k v [Hk Hv]%lookup_delete_Some. rewrite lookup_insert_ne; [by eapply Ho |]. intros ->. by apply Hk, (Hi _ _ v).
  - intros k k' v [_ Hv]%lookup_delete_Some [_ Hv']%lookup_delete_Some. by eapply Hi.
  - intros v x. destruct (decide (v = w)) as [-> | Hv]; [| rewrite lookup_insert_ne by done; apply Hn].
    intros _. eapply Hn, Ho, E.
Qed.

Lemma releaseWaiter_wf key w b : tasks_wf b -> tasks_wf (releaseWaiter key w b).
Proof.
  intros [Ho Hi Hn]. unfold releaseWaiter. case_bool_decide; [| by split]. split; cbn; [| | done].
  - intros k v [_ Hv]%lookup_delete_Some. by eapply Ho.
  - intros k k' v [_ Hv]%lookup_delete_Some [_ Hv']%lookup_delete_Some. by eapply Hi.
Qed.

End LocalTasks.
Arguments waiter : clear implicits.
Arguments TasksBackend : clear implicits.
