(* ===== verification/Transport.v ===== *)
(** * Execution attempts over work item streams (backend/executor.go, backend/executor_transport.go)

    The gRPC executor hands a workflow turn or an activity to a connected worker and
    waits for the result, which comes back in another call.  Many goroutines take part:
    the executing calls, one loop per stream, the completion calls of workers, the
    shutdown.  They meet in the map of pending attempts, in the attempts themselves (a
    mutex, two atomics and a cancel function), in the backend's waiters ([LocalTasks])
    and in unbuffered channels.  The operations are functions; their interleavings are
    the step relation [exec_step].

    Workflow and activity attempts run the same code on two maps; the model has one of
    them, with the type of the response and its key and token as parameters. *)

From stdpp Require Import base list option strings gmap sets relations pretty.
From Stdlib Require Import ZArith Lia.
From S2P Require Import Prelude Errors Protos Propagation Helpers LocalTasks.

Definition statusError (code msg : string) : error := errorNew ("rpc error: code = " +:+ code +:+ " desc = " +:+ msg).
Definition errShuttingDown : error := statusError "Canceled" "shutting down".

(** ** One attempt (executor_transport.go) *)

(** [at_mu]: the completion call that holds the mutex. *)
Record transportAttempt := mkTransportAttempt {
  at_mu : option nat;
  at_token : string;
  at_streamID : option string;
  at_terminal : bool;
  at_cancelled : bool
}.

Definition cancelAttempt (p : transportAttempt) : transportAttempt :=
  mkTransportAttempt (at_mu p) (at_token p) (at_streamID p) (at_terminal p) true.
Definition set_mu (v : option nat) (p : transportAttempt) : transportAttempt :=
  mkTransportAttempt v (at_token p) (at_streamID p) (at_terminal p) (at_cancelled p).
Definition set_terminal (p : transportAttempt) : transportAttempt :=
  mkTransportAttempt (at_mu p) (at_token p) (at_streamID p) true (at_cancelled p).

Definition stop (p : transportAttempt) : transportAttempt := cancelAttempt (set_terminal p).

Definition stopForStream (id : string) (p : transportAttempt) : transportAttempt :=
  if bool_decide (at_streamID p = Some id) then stop p else p.

(** [claim], with the mutex free. *)
Definition claim (streamID token : string) (p : transportAttempt) : transportAttempt * bool :=
  if at_terminal p || negb (String.eqb (at_token p) token) then (p, false)
  else (mkTransportAttempt (at_mu p) (at_token p) (Some streamID) (at_terminal p) (at_cancelled p), true).

(** What [complete] checks before it delivers. *)
Definition completeCheck (token : string) (strict : bool) (p : transportAttempt) : option error :=
  if at_terminal p || bool_decide (at_streamID p = None)
  then Some (statusError "NotFound" "attempt is no longer pending or has not been dispatched")
  else if (String.eqb token "" && strict) || (negb (String.eqb token "") && negb (String.eqb token (at_token p)))
  then Some (statusError "FailedPrecondition" "invalid completion token")
  else None.

(** ** The executor (executor.go) *)

Section Transport.
Context {R : Type}.
(** Key and completion token of a response; the error of the backend for an unknown key. *)
Variables keyOf tokenOf : R -> string.
Variable unknown : string -> error.
(** [requireCompletionTokens], and [uuid.NewString()] for attempt [n]. *)
Variable strict : bool.
Variable uuid : nat -> string.

(** Where a call of [ExecuteWorkflow] or [ExecuteActivity] is.  [XReturning] and
    [XFinishing] are its deferred function, before and after [stop]. *)
Inductive callPhase :=
| XRegistered
| XDispatching (w : nat)
| XWaiting (w : nat)
| XReturning (r : R + error)
| XFinishing (r : R + error)
| XDone (r : R + error).

(** [cl_waiter] is the registration the call made with the backend. *)
Record call := mkCall {
  cl_key : string;
  cl_attempt : transportAttempt;
  cl_phase : callPhase;
  cl_waiter : option nat
}.

(** Where a call of [CompleteWorkflowTask] or [CompleteActivityTask] is: it has loaded
    the attempt; it holds the mutex and calls the backend; the backend has accepted; it
    has returned. *)
Inductive completionPhase :=
| CLoaded
| CDelivering
| CDelivered
| CReturned (err : option error).

Record completion := mkCompletion {
  cc_attempt : nat;
  cc_res : R;
  cc_phase : completionPhase
}.

Record workItem := mkWorkItem {
  wk_key : string;
  wk_token : string
}.

(** Attempts are named by the call that made them.  [ex_inHand] is the item a stream
    loop has received and not dispatched yet; [ex_sent] what was sent to workers. *)
Record Exec := mkExec {
  ex_shuttingDown : bool;
  ex_pending : gmap string nat;
  ex_calls : gmap nat call;
  ex_next : nat;
  ex_tasks : TasksBackend R;
  ex_streams : gset string;
  ex_inHand : gmap string workItem;
  ex_sent : list (string * workItem);
  ex_completions : gmap nat completion
}.

Definition NewGrpcExecutor : Exec := mkExec false ∅ ∅ 0 NewTasksBackend ∅ ∅ [] ∅.

Definition set_shuttingDown (v : bool) (s : Exec) : Exec :=
  mkExec v (ex_pending s) (ex_calls s) (ex_next s) (ex_tasks s) (ex_streams s) (ex_inHand s) (ex_sent s) (ex_completions s).
Definition set_pending (v : gmap string nat) (s : Exec) : Exec :=
  mkExec (ex_shuttingDown s) v (ex_calls s) (ex_next s) (ex_tasks s) (ex_streams s) (ex_inHand s) (ex_sent s) (ex_completions s).
Definition set_calls (v : gmap nat call) (s : Exec) : Exec :=
  mkExec (ex_shuttingDown s) (ex_pending s) v (ex_next s) (ex_tasks s) (ex_streams s) (ex_inHand s) (ex_sent s) (ex_completions s).
Definition set_tasks (v : TasksBackend R) (s : Exec) : Exec :=
  mkExec (ex_shuttingDown s) (ex_pending s) (ex_calls s) (ex_next s) v (ex_streams s) (ex_inHand s) (ex_sent s) (ex_completions s).
Definition set_streams (v : gset string) (s : Exec) : Exec :=
  mkExec (ex_shuttingDown s) (ex_pending s) (ex_calls s) (ex_next s) (ex_tasks s) v (ex_inHand s) (ex_sent s) (ex_completions s).
Definition set_inHand (v : gmap string workItem) (s : Exec) : Exec :=
  mkExec (ex_shuttingDown s) (ex_pending s) (ex_calls s) (ex_next s) (ex_tasks s) (ex_streams s) v (ex_sent s) (ex_completions s).
Definition set_sent (v : list (string * workItem)) (s : Exec) : Exec :=
  mkExec (ex_shuttingDown s) (ex_pending s) (ex_calls s) (ex_next s) (ex_tasks s) (ex_streams s) (ex_inHand s) v (ex_completions s).
Definition set_completions (v : gmap nat completion) (s : Exec) : Exec :=
  mkExec (ex_shuttingDown s) (ex_pending s) (ex_calls s) (ex_next s) (ex_tasks s) (ex_streams s) (ex_inHand s) (ex_sent s) v.

Definition putCall (a : nat) (cl : call) (s : Exec) : Exec := set_calls (<[a := cl]> (ex_calls s)) s.
Definition onAttempt (f : transportAttempt -> transportAttempt) (cl : call) : call :=
  mkCall (cl_key cl) (f (cl_attempt cl)) (cl_phase cl) (cl_waiter cl).
Definition set_phase (v : callPhase) (cl : call) : call :=
  mkCall (cl_key cl) (cl_attempt cl) v (cl_waiter cl).

Definition registerAttempt (key : string) (s : Exec) : Exec * (nat + error) :=
  if ex_shuttingDown s then (s, inr errShuttingDown)
  else
    match ex_pending s !! key with
    | Some _ => (s, inr (statusError "AlreadyExists" "an execution attempt is already pending"))
    | None =>
        let a := ex_next s in
        (mkExec (ex_shuttingDown s) (<[key := a]> (ex_pending s))
           (<[a := mkCall key (mkTransportAttempt None (uuid a) None false false) XRegistered None]> (ex_calls s)) (S a)
           (ex_tasks s) (ex_streams s) (ex_inHand s) (ex_sent s) (ex_completions s), inl a)
    end.

(** The registration of the waiter with the backend. *)
Definition registerWaiter (a : nat) (cl : call) (s : Exec) : Exec :=
  match registerCompletion (cl_key cl) (ex_tasks s) with
  | (b, inl w) => putCall a (mkCall (cl_key cl) (cl_attempt cl) (XDispatching w) (Some w)) (set_tasks b s)
  | (b, inr err) => putCall a (set_phase (XReturning (inr (errorWrap "failed to register completion" err))) cl) (set_tasks b s)
  end.

Definition workItemOf (cl : call) : workItem := mkWorkItem (cl_key cl) (at_token (cl_attempt cl)).

(** [dispatchToStream] up to the send; [None] while the mutex is taken. *)
Definition dispatchToStream (streamID : string) (wi : workItem) (s : Exec) : option Exec :=
  match ex_pending s !! wk_key wi with
  | None => Some s
  | Some a =>
      cl ← ex_calls s !! a;
      match at_mu (cl_attempt cl) with
      | Some _ => None
      | None =>
          match claim streamID (wk_token wi) (cl_attempt cl) with
          | (_, false) => Some s
          | (p, true) => Some (set_sent (ex_sent s ++ [(streamID, wi)]) (putCall a (onAttempt (fun _ => p) cl) s))
          end
      end
  end.

(** What the caller gets for the outcome of the wait. *)
Definition executeResult (r : R + error) : R + error :=
  match r with
  | inl res => inl res
  | inr err => if errorsIs err ErrTaskCancelled then inr (errorNew "operation aborted") else inr err
  end.

(** The wait returns and releases its registration. *)
Definition endWait (a : nat) (cl : call) (w : nat) (r : R + error) (s : Exec) : Exec :=
  putCall a (set_phase (XReturning r) cl) (set_tasks (releaseWaiter (cl_key cl) w (ex_tasks s)) s).

(** The rest of the deferred function: [CompareAndDelete] of the reservation. *)
Definition releaseAttempt (a : nat) (cl : call) (r : R + error) (s : Exec) : Exec :=
  let s := putCall a (set_phase (XDone r) cl) s in
  if bool_decide (ex_pending s !! cl_key cl = Some a) then set_pending (delete (cl_key cl) (ex_pending s)) s else s.

Definition putCompletion (c : nat) (v : completion) (s : Exec) : Exec :=
  set_completions (<[c := v]> (ex_completions s)) s.
Definition set_cc_phase (v : completionPhase) (cc : completion) : completion :=
  mkCompletion (cc_attempt cc) (cc_res cc) v.

(** [complete] takes the mutex and checks. *)
Definition completeLock (c : nat) (cc : completion) (cl : call) (s : Exec) : Exec :=
  match completeCheck (tokenOf (cc_res cc)) strict (cl_attempt cl) with
  | Some err => putCompletion c (set_cc_phase (CReturned (Some err)) cc) s
  | None => putCompletion c (set_cc_phase CDelivering cc) (putCall (cc_attempt cc) (onAttempt (set_mu (Some c)) cl) s)
  end.

(** [deliver], the call of the backend. *)
Definition completeDeliver (c : nat) (cc : completion) (cl : call) (s : Exec) : Exec :=
  let key := keyOf (cc_res cc) in
  match completeTask (unknown key) key (cc_res cc) (ex_tasks s) with
  | (b, None) => putCompletion c (set_cc_phase CDelivered cc) (set_tasks b s)
  | (b, Some err) =>
      putCompletion c (set_cc_phase (CReturned (Some err)) cc)
        (putCall (cc_attempt cc) (onAttempt (set_mu None) cl) (set_tasks b s))
  end.

(** The end of [complete] after a delivery. *)
Definition completeEnd (c : nat) (cc : completion) (cl : call) (s : Exec) : Exec :=
  putCompletion c (set_cc_phase (CReturned None) cc)
    (putCall (cc_attempt cc) (onAttempt (fun p => set_mu None (set_terminal p)) cl) s).

(** The item of a call reaches the loop of a stream, by affinity or off the shared
    queue (unbuffered channels). *)
Definition handoff (a : nat) (cl : call) (w : nat) (stream : string) (s : Exec) : Exec :=
  putCall a (set_phase (XWaiting w) cl) (set_inHand (<[stream := workItemOf cl]> (ex_inHand s)) s).

(** The loop of [GetWorkItems]: it dispatches the item it received and goes on. *)
Definition serveItem (stream : string) (wi : workItem) (s : Exec) : option Exec :=
  s' ← dispatchToStream stream wi s; Some (set_inHand (delete stream (ex_inHand s')) s').

(** A stream is stored when it connects and deleted when it ends. *)
Definition openStream (stream : string) (s : Exec) : Exec := set_streams ({[stream]} ∪ ex_streams s) s.
Definition closeStream (stream : string) (s : Exec) : Exec := set_streams (ex_streams s ∖ {[stream]}) s.

(** ** Interleavings *)

Inductive exec_step : Exec -> Exec -> Prop :=
(* an executing call *)
| es_execute key s s' a : registerAttempt key s = (s', inl a) -> exec_step s s'
| es_register a cl s :
    ex_calls s !! a = Some cl -> cl_phase cl = XRegistered -> exec_step s (registerWaiter a cl s)
(* the item goes to a stream loop *)
| es_handoff a cl w stream s :
    ex_calls s !! a = Some cl -> cl_phase cl = XDispatching w ->
    stream ∈ ex_streams s -> ex_inHand s !! stream = None ->
    exec_step s (handoff a cl w stream s)
| es_dispatch stream wi s s' :
    ex_inHand s !! stream = Some wi -> serveItem stream wi s = Some s' -> exec_step s s'
(* the context of the caller ends *)
| es_callerCancel a cl s :
    ex_calls s !! a = Some cl -> exec_step s (putCall a (onAttempt cancelAttempt cl) s)
| es_dispatchCancelled a cl w s :
    ex_calls s !! a = Some cl -> cl_phase cl = XDispatching w -> at_cancelled (cl_attempt cl) = true ->
    exec_step s (endWait a cl w (inr (errorWrap "context canceled before dispatching work item" ContextCanceled)) s)
| es_waitCancelled a cl w s :
    ex_calls s !! a = Some cl -> cl_phase cl = XWaiting w -> at_cancelled (cl_attempt cl) = true ->
    exec_step s (endWait a cl w (executeResult (inr ContextCanceled)) s)
| es_waitComplete a cl w x s :
    ex_calls s !! a = Some cl -> cl_phase cl = XWaiting w -> lt_heap (ex_tasks s) !! w = Some x -> wt_complete x = true ->
    exec_step s (endWait a cl w (executeResult (waitResult x)) s)
| es_finishStop a cl r s :
    ex_calls s !! a = Some cl -> cl_phase cl = XReturning r ->
    exec_step s (putCall a (set_phase (XFinishing r) (onAttempt stop cl)) s)
| es_finishDelete a cl r s :
    ex_calls s !! a = Some cl -> cl_phase cl = XFinishing r -> at_mu (cl_attempt cl) = None ->
    exec_step s (releaseAttempt a cl r s)
(* a completion call of a worker *)
| es_completeLoad c res a s :
    ex_completions s !! c = None -> ex_pending s !! keyOf res = Some a ->
    exec_step s (putCompletion c (mkCompletion a res CLoaded) s)
| es_completeLock c cc cl s :
    ex_completions s !! c = Some cc -> cc_phase cc = CLoaded -> ex_calls s !! cc_attempt cc = Some cl ->
    at_mu (cl_attempt cl) = None -> exec_step s (completeLock c cc cl s)
| es_completeDeliver c cc cl s :
    ex_completions s !! c = Some cc -> cc_phase cc = CDelivering -> ex_calls s !! cc_attempt cc = Some cl ->
    exec_step s (completeDeliver c cc cl s)
| es_completeEnd c cc cl s :
    ex_completions s !! c = Some cc -> cc_phase cc = CDelivered -> ex_calls s !! cc_attempt cc = Some cl ->
    exec_step s (completeEnd c cc cl s)
(* another user of the backend cancels the wait *)
| es_backendCancel key s :
    exec_step s (set_tasks (cancelTask (unknown key) key (ex_tasks s)).1 s)
(* shutdown, and the clean-up of streams *)
| es_shutdown s : exec_step s (set_shuttingDown true s)
| es_shutdownStop key a cl s :
    ex_shuttingDown s = true -> ex_pending s !! key = Some a -> ex_calls s !! a = Some cl ->
    exec_step s (putCall a (onAttempt stop cl) s)
| es_connect stream s : stream ∉ ex_streams s -> exec_step s (openStream stream s)
| es_disconnect stream s :
    stream ∈ ex_streams s -> ex_inHand s !! stream = None -> exec_step s (closeStream stream s)
| es_stopForStream stream key a cl s :
    stream ∉ ex_streams s -> ex_pending s !! key = Some a -> ex_calls s !! a = Some cl ->
    exec_step s (putCall a (onAttempt (stopForStream stream) cl) s).

Definition reachable (s : Exec) : Prop := rtc exec_step NewGrpcExecutor s.

End Transport.

(** ** The two kinds of attempts *)

(** [api.InstanceID(res.GetInstanceId())], [GetActivityExecutionKey] *)
Definition GetActivityExecutionKey (iid : string) (taskID : Z) : string := iid +:+ "/" +:+ pretty taskID.

Record ActivityRequest := mkActivityRequest {
  aq_Name : string;
  aq_Version : option string;
  aq_Input : option string;
  aq_WorkflowInstance : option WorkflowInstance;
  aq_TaskId : Z;
  aq_ParentTraceContext : option TraceContext;
  aq_TaskExecutionId : string;
  aq_PropagatedHistory : option PropagatedHistory
}.

Record ActivityResponse := mkActivityResponse {
  ar_InstanceId : string;
  ar_TaskId : Z;
  ar_Result : option string;
  ar_FailureDetails : option TaskFailureDetails;
  ar_CompletionToken : string
}.

Definition activityKey (res : ActivityResponse) : string := GetActivityExecutionKey (ar_InstanceId res) (ar_TaskId res).

(** The request [ExecuteActivity] sends for a scheduled task. *)
Definition activityRequest (iid : string) (e : HistoryEvent) (task : TaskScheduledEvent)
    (propagated : option PropagatedHistory) : ActivityRequest :=
  mkActivityRequest (ts_Name task) (ts_Version task) (ts_Input task) (Some (mkWorkflowInstance iid None)) (EventId e)
    (ts_ParentTraceContext task) (ts_TaskExecutionId task) propagated.

(** The event it makes of the response. *)
Definition activityResponseEvent (now : Z) (e : HistoryEvent) (task : TaskScheduledEvent) (resp : ActivityResponse)
    : HistoryEvent :=
  mkHistoryEvent (-1) (Some now)
    (Some (match ar_FailureDetails resp with
           | Some fd => HistoryEvent_TaskFailed (mkTaskFailedEvent (ar_TaskId resp) (Some fd) (ts_TaskExecutionId task))
           | None => HistoryEvent_TaskCompleted (mkTaskCompletedEvent (ar_TaskId resp) (ar_Result resp) (ts_TaskExecutionId task))
           end)) (Router e).
