(* ===== verification/TransportInv.v ===== *)
(** * Attempts meet their own results

    The invariant of the executor over all interleavings, in three parts: a reservation
    in the map of attempts lasts exactly as long as its call; a waiter of the backend
    belongs to the attempt that holds the key; an accepted completion was checked
    against the attempt it reaches, and there is at most one. *)

From stdpp Require Import base list option strings gmap sets relations pretty.
From Stdlib Require Import ZArith Lia.
From S2P Require Import Prelude Errors Protos Helpers LocalTasks Transport.

Section Inv.
Context {R : Type}.
Variables keyOf tokenOf : R -> string.
Variable unknown : string -> error.
Variable strict : bool.
Variable uuid : nat -> string.

Local Abbreviation Exec := (Exec (R := R)).
Local Abbreviation call := (call (R := R)).
Local Abbreviation completion := (completion (R := R)).
Local Abbreviation step := (exec_step keyOf tokenOf unknown strict uuid).

(** ** The three parts *)

Definition finished (cl : call) : bool := match cl_phase cl with XDone _ => true | _ => false end.

(** The waiter a call still waits on. *)
Definition waitsOn (cl : call) : option nat :=
  match cl_phase cl with XDispatching w | XWaiting w => Some w | _ => None end.

Definition resultOf (cl : call) : option (R + error) :=
  match cl_phase cl with XReturning r | XFinishing r | XDone r => Some r | _ => None end.

(** A completion call that holds the mutex, or has been accepted. *)
Definition holds (cc : completion) : bool :=
  match cc_phase cc with CDelivering | CDelivered => true | _ => false end.
Definition accepts (cc : completion) : bool :=
  match cc_phase cc with CDelivered | CReturned None => true | _ => false end.
Definition engaged (cc : completion) : bool := holds cc || accepts cc.

Definition tokenOk (token : string) (p : transportAttempt) : Prop :=
  (token = "" /\ strict = false) \/ token = at_token p.

(** The response [res] was accepted for attempt [a]. *)
Definition accepted (completions : gmap nat completion) (a : nat) (res : R) : Prop :=
  exists c cc, completions !! c = Some cc /\ cc_attempt cc = a /\ cc_res cc = res /\ accepts cc = true.

Record reserved_inv (s : Exec) : Prop := {
  ri_pending : forall key a, ex_pending s !! key = Some a ->
    exists cl, ex_calls s !! a = Some cl /\ cl_key cl = key /\ finished cl = false;
  ri_reserved : forall a cl, ex_calls s !! a = Some cl -> finished cl = false -> ex_pending s !! cl_key cl = Some a;
  ri_next : forall a cl, ex_calls s !! a = Some cl -> (a < ex_next s)%nat
}.

Record waiter_inv (s : Exec) : Prop := {
  wi_wf : tasks_wf (ex_tasks s);
  wi_owner : forall key w, lt_pending (ex_tasks s) !! key = Some w ->
    exists a cl, ex_calls s !! a = Some cl /\ cl_key cl = key /\ waitsOn cl = Some w;
  wi_waits : forall a cl w, ex_calls s !! a = Some cl -> waitsOn cl = Some w -> cl_waiter cl = Some w;
  wi_alloc : forall a cl w, ex_calls s !! a = Some cl -> cl_waiter cl = Some w -> (w < lt_next (ex_tasks s))%nat;
  wi_inj : forall a a' cl cl' w, ex_calls s !! a = Some cl -> ex_calls s !! a' = Some cl' ->
    cl_waiter cl = Some w -> cl_waiter cl' = Some w -> a = a'
}.

(** What a call and its attempt promise. *)
Record call_ok (s : Exec) (a : nat) (cl : call) : Prop := {
  ck_token : at_token (cl_attempt cl) = uuid a;
  ck_terminal : match cl_phase cl with XFinishing _ | XDone _ => at_terminal (cl_attempt cl) = true | _ => True end;
  ck_free : finished cl = true -> at_mu (cl_attempt cl) = None;
  ck_mu : forall c, at_mu (cl_attempt cl) = Some c ->
    exists cc, ex_completions s !! c = Some cc /\ cc_attempt cc = a /\ holds cc = true;
  ck_sent : forall stream, at_streamID (cl_attempt cl) = Some stream -> (stream, workItemOf cl) ∈ ex_sent s;
  ck_result : forall res, resultOf cl = Some (inl res) -> accepted (ex_completions s) a res;
  ck_closed : forall w res, cl_waiter cl = Some w -> lt_heap (ex_tasks s) !! w = Some (mkWaiter (Some res) true) ->
    accepted (ex_completions s) a res
}.

(** What a completion call promises of the attempt it reaches. *)
Record completion_ok (c : nat) (cc : completion) (cl : call) : Prop := {
  co_key : keyOf (cc_res cc) = cl_key cl;
  co_mu : holds cc = true -> at_mu (cl_attempt cl) = Some c;
  co_engaged : engaged cc = true -> tokenOk (tokenOf (cc_res cc)) (cl_attempt cl) /\ at_streamID (cl_attempt cl) <> None;
  co_done : accepts cc = true -> holds cc = true \/ at_terminal (cl_attempt cl) = true
}.

Record completion_inv (s : Exec) : Prop := {
  ci_call : forall a cl, ex_calls s !! a = Some cl -> call_ok s a cl;
  ci_completion : forall c cc, ex_completions s !! c = Some cc ->
    exists cl, ex_calls s !! cc_attempt cc = Some cl /\ completion_ok c cc cl;
  ci_once : forall c c' cc cc', ex_completions s !! c = Some cc -> ex_completions s !! c' = Some cc' ->
    cc_attempt cc = cc_attempt cc' -> engaged cc = true -> engaged cc' = true -> c = c'
}.

Record exec_inv (s : Exec) : Prop := {
  ei_reserved : reserved_inv s;
  ei_waiter : waiter_inv s;
  ei_completion : completion_inv s
}.

(** ** Updates of one call *)

Lemma putCall_reserved a cl cl' s :
  ex_calls s !! a = Some cl -> cl_key cl' = cl_key cl -> finished cl' = finished cl ->
  reserved_inv s -> reserved_inv (putCall a cl' s).
Proof.
  intros Ha Hk Hf [Hp Hr Hn]. split; cbn.
  - intros key b (cl0 & Hb & <- & Hfin)%Hp. destruct (decide (b = a)) as [-> | Hne].
    + rewrite lookup_insert_eq. exists cl'. rewrite Ha in Hb. simplify_eq. by rewrite Hk, Hf.
    + rewrite lookup_insert_ne by done. eauto.
  - intros b cl0 [[<- <-] | [Hne Hb]]%lookup_insert_Some; [| by eauto]. rewrite Hk, Hf. by apply Hr.
  - intros b cl0 [[<- _] | [_ Hb]]%lookup_insert_Some; eauto.
Qed.

(** The call waits on the same or on nothing, with what is registered for it removed. *)
Lemma putCall_waiter a cl cl' s :
  ex_calls s !! a = Some cl -> cl_key cl' = cl_key cl -> cl_waiter cl' = cl_waiter cl ->
  (waitsOn cl' = waitsOn cl \/ (waitsOn cl' = None /\ forall w key, waitsOn cl = Some w -> lt_pending (ex_tasks s) !! key <> Some w)) ->
  waiter_inv s -> waiter_inv (putCall a cl' s).
Proof.
  intros Ha Hk Hw Hwo [Hwf Ho Hwa Hal Hi]. split; cbn; [done |..].
  - intros key w Hkey. destruct (Ho _ _ Hkey) as (b & cl0 & Hb & <- & Hcl0).
    destruct (decide (b = a)) as [-> | Hne]; [| exists b, cl0; by rewrite lookup_insert_ne].
    rewrite Ha in Hb. simplify_eq. exists a, cl'. rewrite lookup_insert_eq. split_and!; [done | done |].
    destruct Hwo as [-> | [_ Hno]]; [done | by apply Hno in Hkey].
  - intros b cl0 w [[<- <-] | [_ Hb]]%lookup_insert_Some; [| by eauto]. intros Hcl0. rewrite Hw.
    eapply Hwa; [done |]. by destruct Hwo as [<- | [E _]]; [| congruence].
  - intros b cl0 w [[<- <-] | [_ Hb]]%lookup_insert_Some; [rewrite Hw |]; eauto.
  - intros b b' cl0 cl1 w [[<- <-] | [_ Hb]]%lookup_insert_Some [[<- <-] | [_ Hb']]%lookup_insert_Some; rewrite ?Hw; eauto.
Qed.

(** The attempt keeps its token, its mutex and its stream, and ends at most. *)
Lemma putCall_completion a cl cl' s :
  ex_calls s !! a = Some cl -> cl_key cl' = cl_key cl ->
  at_mu (cl_attempt cl') = at_mu (cl_attempt cl) -> at_token (cl_attempt cl') = at_token (cl_attempt cl) ->
  (at_streamID (cl_attempt cl) <> None -> at_streamID (cl_attempt cl') <> None) ->
  (at_terminal (cl_attempt cl) = true -> at_terminal (cl_attempt cl') = true) ->
  call_ok s a cl' -> completion_inv s -> completion_inv (putCall a cl' s).
Proof.
  intros Ha Hk Hmu Htok Hst Hterm Hok [Hc Hcc Ho]. split; cbn; [..| done].
  - intros b cl0 [[<- <-] | [_ Hb]]%lookup_insert_Some.
    + destruct Hok. by split.
    + destruct (Hc b cl0 Hb). by split.
  - intros c cc Hcomp. destruct (Hcc c cc Hcomp) as (cl0 & Hcl0 & [H1 H2 H3 H4]).
    destruct (decide (cc_attempt cc = a)) as [<- | Hne]; [| exists cl0; by rewrite lookup_insert_ne].
    rewrite Ha in Hcl0. simplify_eq. exists cl'. rewrite lookup_insert_eq. split; [done |]. split.
    + by rewrite H1.
    + by rewrite Hmu.
    + intros He. destruct (H3 He) as [Ht Hs]. split; [unfold tokenOk; by rewrite Htok | auto].
    + intros He. destruct (H4 He); auto.
Qed.

(** A step of the attempt alone. *)
Lemma inv_onAttempt a cl f s :
  ex_calls s !! a = Some cl ->
  (forall p, at_mu (f p) = at_mu p /\ at_token (f p) = at_token p /\ at_streamID (f p) = at_streamID p /\
     (at_terminal p = true -> at_terminal (f p) = true)) ->
  exec_inv s -> exec_inv (putCall a (onAttempt f cl) s).
Proof.
  intros Ha Hf [Hr Hw Hc]. destruct (Hf (cl_attempt cl)) as (Hmu & Htok & Hst & Hterm). split.
  - by eapply putCall_reserved.
  - eapply putCall_waiter; eauto.
  - eapply putCall_completion; cbn; eauto; [by rewrite Hst |].
    destruct (ci_call _ Hc a cl Ha) as [H1 H2 H3 H4 H5 H6 H7]. split; cbn; rewrite ?Hmu, ?Htok, ?Hst; try done.
    + destruct (cl_phase cl); auto.
    + intros stream Hs. unfold workItemOf. cbn. rewrite Htok. by apply H5.
Qed.

Lemma inv_stop a cl s : ex_calls s !! a = Some cl -> exec_inv s -> exec_inv (putCall a (onAttempt stop cl) s).
Proof. intros Ha. apply (inv_onAttempt a cl stop); [done |]. done. Qed.

(** A step of the phase alone that goes on waiting for the same, or ends with a result. *)
Lemma inv_phase a cl ph s :
  ex_calls s !! a = Some cl -> let cl' := set_phase ph cl in
  finished cl' = finished cl ->
  (waitsOn cl' = waitsOn cl \/ (waitsOn cl' = None /\ forall w key, waitsOn cl = Some w -> lt_pending (ex_tasks s) !! key <> Some w)) ->
  match ph with XFinishing _ | XDone _ => at_terminal (cl_attempt cl) = true | _ => True end ->
  (forall res, resultOf cl' = Some (inl res) -> accepted (ex_completions s) a res) ->
  exec_inv s -> exec_inv (putCall a cl' s).
Proof.
  intros Ha cl' Hfin Hw Ht Hres [Hr Hwi Hc]. split.
  - by eapply putCall_reserved.
  - by eapply putCall_waiter.
  - eapply putCall_completion; eauto. destruct (ci_call _ Hc a cl Ha) as [H1 H2 H3 H4 H5 H6 H7].
    split; cbn; try done. change (finished cl' = true -> at_mu (cl_attempt cl) = None). by rewrite Hfin.
Qed.

(** ** Updates of the waiters *)

Lemma set_tasks_completion b s :
  (forall a cl w res, ex_calls s !! a = Some cl -> cl_waiter cl = Some w -> lt_heap b !! w = Some (mkWaiter (Some res) true) ->
     lt_heap (ex_tasks s) !! w = Some (mkWaiter (Some res) true) \/ accepted (ex_completions s) a res) ->
  completion_inv s -> completion_inv (set_tasks b s).
Proof.
  intros Hb [Hc Hcc Ho]. split; [| done..]. intros a cl Ha. destruct (Hc a cl Ha). split; cbn; eauto.
  intros w res Hw Hh. destruct (Hb a cl w res Ha Hw Hh); eauto.
Qed.

Lemma inv_tasks b s :
  tasks_wf b -> lt_next b = lt_next (ex_tasks s) ->
  (forall key w, lt_pending b !! key = Some w -> lt_pending (ex_tasks s) !! key = Some w) ->
  (forall w res, lt_heap b !! w = Some (mkWaiter (Some res) true) -> lt_heap (ex_tasks s) !! w = Some (mkWaiter (Some res) true)) ->
  exec_inv s -> exec_inv (set_tasks b s).
Proof.
  intros Hwf Hn Hp Hh [Hr [Hwf' Ho Hwa Hal Hi] Hc]. split.
  - by destruct Hr.
  - split; cbn; try done; [by eauto | rewrite Hn; by eauto].
  - apply set_tasks_completion; [| done]. eauto.
Qed.

Lemma inv_release key w s : exec_inv s -> exec_inv (set_tasks (releaseWaiter key w (ex_tasks s)) s).
Proof.
  intros Hi. apply inv_tasks; try done.
  - apply releaseWaiter_wf, Hi.
  - unfold releaseWaiter. by case_bool_decide.
  - unfold releaseWaiter. case_bool_decide; [| done]. cbn. by intros k v [_ ?]%lookup_delete_Some.
  - unfold releaseWaiter. by case_bool_decide.
Qed.

Lemma inv_cancel key s : exec_inv s -> exec_inv (set_tasks (cancelTask (unknown key) key (ex_tasks s)).1 s).
Proof.
  intros Hi. assert ((cancelTask (unknown key) key (ex_tasks s)).1 = (deletePending key None (ex_tasks s)).1) as ->.
  { unfold cancelTask. by destruct (deletePending _ _ _) as [b []]. }
  apply inv_tasks; [by apply deletePending_wf, Hi | | | | done]; unfold deletePending; destruct (lt_pending _ !! key); try done; cbn.
  - by intros k v [_ ?]%lookup_delete_Some.
  - intros w res [[_ ?] | [_ ?]]%lookup_insert_Some; done.
Qed.

(** A wait that ends. *)
Lemma inv_endWait a cl w r s :
  ex_calls s !! a = Some cl -> waitsOn cl = Some w ->
  (forall res, r = inl res -> accepted (ex_completions s) a res) ->
  exec_inv s -> exec_inv (endWait a cl w r s).
Proof.
  intros Ha Hw Hr Hi. assert (finished cl = false) as Hf by (unfold waitsOn, finished in *; by destruct (cl_phase cl)).
  unfold endWait. apply (inv_phase a cl (XReturning r)); [done | by rewrite Hf | | done | | by apply inv_release].
  - right. split; [done |]. intros w' key [= <-]%(eq_trans (eq_sym Hw)). cbn. unfold releaseWaiter.
    case_bool_decide as E; cbn.
    + intros [Hne Hk]%lookup_delete_Some. apply Hne. symmetry. eapply tw_inj; [apply Hi | done | done].
    + intros Hk. destruct (wi_owner _ (ei_waiter _ Hi) _ _ Hk) as (a' & cl' & Ha' & <- & Hw').
      pose proof (ei_waiter _ Hi) as [_ _ Hwa _ Hinj].
      assert (a = a') as <- by (eapply Hinj; eauto). congruence.
  - cbn. intros res [= ->]. by apply Hr.
Qed.

(** ** The remaining steps *)

(** Shutdown flag, streams and items in hand are not part of the invariant. *)
Lemma inv_same s s' :
  ex_pending s' = ex_pending s -> ex_calls s' = ex_calls s -> ex_next s' = ex_next s -> ex_tasks s' = ex_tasks s ->
  ex_sent s' = ex_sent s -> ex_completions s' = ex_completions s -> exec_inv s -> exec_inv s'.
Proof.
  intros E1 E2 E3 E4 E5 E6 [[] [] [Hc Hcc Ho]]. split; split; rewrite ?E1, ?E2, ?E3, ?E4, ?E6; try done.
  intros a cl Ha. destruct (Hc a cl Ha). split; rewrite ?E4, ?E5, ?E6; done.
Qed.

Lemma inv_execute key s s' a : registerAttempt uuid key s = (s', inl a) -> exec_inv s -> exec_inv s'.
Proof.
  unfold registerAttempt. case_match; [done |]. destruct (ex_pending s !! key) eqn:Ek; [done |]. intros [= <- <-].
  intros [[Hp Hr Hn] [Hwf Ho Hwa Hal Hi] [Hc Hcc Hon]].
  assert (ex_calls s !! ex_next s = None) as Hfresh.
  { destruct (ex_calls s !! ex_next s) as [cl|] eqn:E; [apply Hn in E; lia | done]. }
  split; split; cbn; try done.
  - intros k b [[<- <-] | [Hne Hb]]%lookup_insert_Some; [rewrite lookup_insert_eq; by eexists |].
    destruct (Hp _ _ Hb) as (cl & Hcl & ?). exists cl. rewrite lookup_insert_ne by congruence. done.
  - intros b cl [[<- <-] | [Hne Hb]]%lookup_insert_Some; [by rewrite lookup_insert_eq |]. intros Hf.
    pose proof (Hr b cl Hb Hf). rewrite lookup_insert_ne by congruence. done.
  - intros b cl [[<- _] | [_ Hb%Hn]]%lookup_insert_Some; lia.
  - intros k w Hk. destruct (Ho _ _ Hk) as (b & cl & Hb & ?). exists b, cl. rewrite lookup_insert_ne by congruence. done.
  - intros b cl w [[<- <-] | [_ Hb]]%lookup_insert_Some; [done | eauto].
  - intros b cl w [[<- <-] | [_ Hb]]%lookup_insert_Some; [done | eauto].
  - intros b b' cl cl' w [[<- <-] | [_ Hb]]%lookup_insert_Some [[<- <-] | [_ Hb']]%lookup_insert_Some; try done. eauto.
  - intros b cl [[<- <-] | [_ Hb]]%lookup_insert_Some; [by split |]. destruct (Hc b cl Hb). by split.
  - intros c cc Hcomp. destruct (Hcc c cc Hcomp) as (cl & Hcl & ?). exists cl. rewrite lookup_insert_ne by congruence. done.
Qed.

(** The registration with the backend never finds the key taken. *)
Lemma register_fresh a cl s :
  exec_inv s -> ex_calls s !! a = Some cl -> cl_phase cl = XRegistered -> lt_pending (ex_tasks s) !! cl_key cl = None.
Proof.
  intros Hi Ha Hph. destruct (lt_pending _ !! _) as [w|] eqn:E; [| done].
  destruct (wi_owner _ (ei_waiter _ Hi) _ _ E) as (b & cl' & Hb & Hk & Hw). pose proof (ei_reserved _ Hi) as [_ Hr _].
  assert (finished cl' = false) as Hf' by (unfold waitsOn, finished in *; by destruct (cl_phase cl')).
  assert (finished cl = false) as Hf by (unfold finished; by rewrite Hph).
  pose proof (Hr a cl Ha Hf) as H1. pose proof (Hr b cl' Hb Hf') as H2. rewrite Hk, H1 in H2. simplify_eq.
  unfold waitsOn in Hw. by rewrite Hph in Hw.
Qed.

Lemma inv_register a cl s :
  ex_calls s !! a = Some cl -> cl_phase cl = XRegistered -> exec_inv s -> exec_inv (registerWaiter a cl s).
Proof.
  intros Ha Hph Hi. pose proof (register_fresh a cl s Hi Ha Hph) as Hk.
  unfold registerWaiter. unfold registerCompletion. rewrite Hk. set (w := lt_next (ex_tasks s)). set (cl' := mkCall _ _ _ _).
  assert (tasks_wf (registerCompletion (cl_key cl) (ex_tasks s)).1) as Hwf.
  { eapply registerCompletion_wf; [apply Hi | apply surjective_pairing]. }
  unfold registerCompletion in Hwf. rewrite Hk in Hwf. destruct Hi as [Hr [Hwf0 Ho Hwa Hal Hinj] Hc].
  assert (finished cl = false) as Hf by (unfold finished; by rewrite Hph). split.
  - apply (putCall_reserved a cl); [done | done | by rewrite Hf | by destruct Hr].
  - split; cbn; [exact Hwf |..].
    + intros k v [[<- <-] | [Hne Hv]]%lookup_insert_Some; [exists a, cl'; by rewrite lookup_insert_eq |].
      destruct (Ho _ _ Hv) as (b & cl0 & Hb & ? & Hw0). exists b, cl0. rewrite lookup_insert_ne; [done |].
      intros ->. rewrite Ha in Hb. by simplify_eq.
    + intros b cl0 v [[<- <-] | [_ Hb]]%lookup_insert_Some; [done | eauto].
    + intros b cl0 v [[<- <-] | [_ Hb]]%lookup_insert_Some; [cbn; intros [= <-]; lia |]. intros Hv. pose proof (Hal b cl0 v Hb Hv). lia.
    + intros b b' cl0 cl1 v [[<- <-] | [_ Hb]]%lookup_insert_Some [[<- <-] | [_ Hb']]%lookup_insert_Some; cbn; try done; try (by eauto).
      * intros [= <-] Hv. pose proof (Hal _ _ _ Hb' Hv). lia.
      * intros Hv [= <-]. pose proof (Hal _ _ _ Hb Hv). lia.
  - apply (set_tasks_completion (mkTasksBackend (<[cl_key cl:=w]> (lt_pending (ex_tasks s))) (<[w:=mkWaiter None false]> (lt_heap (ex_tasks s))) (S w))) in Hc.
    2: { cbn. intros b cl0 v res _ _ [[_ ?] | [_ ?]]%lookup_insert_Some; [done | by left]. }
    eapply putCall_completion; [exact Ha | done.. | | exact Hc].
    destruct (ci_call _ Hc a cl Ha) as [H1 H2 H3 H4 H5 H6 H7]. split; cbn; try done.
    intros v res [= <-]. by rewrite lookup_insert_eq.
Qed.

Lemma set_sent_inv l s : exec_inv s -> exec_inv (set_sent (ex_sent s ++ l) s).
Proof.
  intros [[] [] [Hc Hcc Ho]]. split; split; try done. intros a cl Ha. destruct (Hc a cl Ha) as [H1 H2 H3 H4 H5 H6 H7].
  split; try done. cbn. intros stream Hs. apply elem_of_app. left. by apply H5.
Qed.

Lemma inv_dispatch stream wi s s' : dispatchToStream stream wi s = Some s' -> exec_inv s -> exec_inv s'.
Proof.
  unfold dispatchToStream. destruct (ex_pending s !! wk_key wi) as [a|] eqn:Ep; [| by intros [= <-]].
  destruct (ex_calls s !! a) as [cl|] eqn:Ha; [| done]. cbn. destruct (at_mu (cl_attempt cl)) eqn:Hmu; [done |].
  unfold claim. destruct (at_terminal _ || negb _) eqn:Ht; intros [= <-]; [done |]. intros Hi.
  apply orb_false_iff in Ht as [Ht Htok]. apply negb_false_iff, String.eqb_eq in Htok.
  destruct (ri_pending _ (ei_reserved _ Hi) _ _ Ep) as (cl0 & Hcl0 & Hk & _). rewrite Ha in Hcl0. simplify_eq.
  apply (set_sent_inv [(stream, wi)]) in Hi. change (putCall a ?x s) with (putCall a x s).
  set (cl' := onAttempt _ cl0). set (s1 := set_sent (ex_sent s ++ [(stream, wi)]) s) in *.
  change (set_sent (ex_sent s ++ [(stream, wi)]) (putCall a cl' s)) with (putCall a cl' s1).
  destruct Hi as [Hr Hw Hc]. split.
  - by eapply putCall_reserved.
  - eapply putCall_waiter; eauto.
  - eapply putCall_completion; eauto. destruct (ci_call _ Hc a cl0 Ha) as [H1 H2 H3 H4 H5 H6 H7]. split; cbn; try done.
    intros st [= <-]. apply elem_of_app. right. apply list_elem_of_singleton. f_equal. unfold workItemOf. cbn.
    destruct wi. cbn in *. congruence.
Qed.

Lemma inv_finish a cl r s :
  ex_calls s !! a = Some cl -> cl_phase cl = XFinishing r -> at_mu (cl_attempt cl) = None ->
  exec_inv s -> exec_inv (releaseAttempt a cl r s).
Proof.
  intros Ha Hph Hmu Hi. pose proof Hi as [Hr Hw Hc]. set (cl' := set_phase (XDone r) cl).
  assert (finished cl = false) as Hf by (unfold finished; by rewrite Hph).
  assert (ex_pending s !! cl_key cl = Some a) as Hp by by apply (ri_reserved _ Hr).
  unfold releaseAttempt. cbn [ex_pending putCall set_calls]. rewrite bool_decide_eq_true_2 by done. fold cl'. split.
  - destruct Hr as [H1 H2 H3]. split; cbn.
    + intros k b [Hne Hb]%lookup_delete_Some. destruct (H1 _ _ Hb) as (cl0 & Hcl0 & <- & ?). exists cl0.
      rewrite lookup_insert_ne; [done |]. intros <-. rewrite Ha in Hcl0. by simplify_eq.
    + intros b cl0 [[<- <-] | [Hne Hb]]%lookup_insert_Some; [done |]. intros Hf0.
      pose proof (H2 b cl0 Hb Hf0). rewrite lookup_delete_ne; [done |]. congruence.
    + intros b cl0 [[<- _] | [_ Hb]]%lookup_insert_Some; eauto.
  - eapply (putCall_waiter a cl cl') in Hw; [destruct Hw; by split | done | done | done |].
    left. unfold waitsOn. cbn. by rewrite Hph.
  - destruct (ci_call _ Hc a cl Ha) as [H1 H2 H3 H4 H5 H6 H7]. rewrite Hph in H2.
    eapply (putCall_completion a cl cl') in Hc; [| done.. |].
    { destruct Hc as [Hc Hcc Ho]. split; [| done..]. intros b cl0 Hb. destruct (Hc b cl0 Hb). by split. }
    split; cbn; try done. intros res [= ->]. apply H6. unfold resultOf. by rewrite Hph.
Qed.

(** ** Completion calls *)

Lemma accepted_insert completions c cc a res :
  (forall cc0, completions !! c = Some cc0 -> accepts cc0 = true -> accepts cc = true /\ cc_attempt cc = cc_attempt cc0 /\ cc_res cc = cc_res cc0) ->
  accepted completions a res -> accepted (<[c := cc]> completions) a res.
Proof.
  intros Hcc (c0 & cc0 & H0 & <- & <- & Hac). destruct (decide (c0 = c)) as [-> | Hne].
  - destruct (Hcc cc0 H0 Hac) as (? & <- & <-). exists c, cc. by rewrite lookup_insert_eq.
  - exists c0, cc0. by rewrite lookup_insert_ne.
Qed.

(** A completion call that moves on without the mutex. *)
Lemma inv_putCompletion c cc s :
  (forall cc0, ex_completions s !! c = Some cc0 -> engaged cc0 = false) -> engaged cc = false ->
  (exists cl, ex_calls s !! cc_attempt cc = Some cl /\ keyOf (cc_res cc) = cl_key cl) ->
  exec_inv s -> exec_inv (putCompletion c cc s).
Proof.
  intros H0 He (cl & Hcl & Hk) [[] [] [Hc Hcc Ho]]. apply orb_false_iff in He as [Hh Hac].
  assert (forall a res, accepted (ex_completions s) a res -> accepted (<[c := cc]> (ex_completions s)) a res) as Hacc.
  { intros a res. apply accepted_insert. intros cc0 [_ E]%H0%orb_false_iff. congruence. }
  split; split; try done; cbn.
  - intros a cl0 Ha. destruct (Hc a cl0 Ha) as [H1 H2 H3 H4 H5 H6 H7]. split; try done; cbn; [| by eauto..].
    intros c0 (cc0 & Hc0 & ? & Hh0)%H4. exists cc0. rewrite lookup_insert_ne; [done |]. intros <-.
    apply H0, orb_false_iff in Hc0 as [E _]. congruence.
  - intros c0 cc0 [[<- <-] | [_ Hc0]]%lookup_insert_Some; [| by eauto]. exists cl. split; [done |]. unfold engaged. rewrite ?Hh, ?Hac.
    split; unfold engaged; rewrite ?Hh, ?Hac; done.
  - intros c1 c2 cc1 cc2 [[<- <-] | [_ H1]]%lookup_insert_Some [[<- <-] | [_ H2]]%lookup_insert_Some; try done; try (by eauto);
      unfold engaged; by rewrite Hh, Hac.
Qed.

(** A completion call that moves on together with the attempt it holds. *)
Lemma completion_update c cc ph cl f s :
  let a := cc_attempt cc in let cc' := set_cc_phase ph cc in let cl' := onAttempt f cl in
  ex_completions s !! c = Some cc -> ex_calls s !! a = Some cl ->
  (at_mu (cl_attempt cl) = None \/ at_mu (cl_attempt cl) = Some c) ->
  at_mu (cl_attempt cl') = (if holds cc' then Some c else None) ->
  at_token (cl_attempt cl') = at_token (cl_attempt cl) -> at_streamID (cl_attempt cl') = at_streamID (cl_attempt cl) ->
  (at_terminal (cl_attempt cl) = true -> at_terminal (cl_attempt cl') = true) ->
  (accepts cc = true -> accepts cc' = true) -> (finished cl = true -> holds cc' = false) ->
  (engaged cc' = true -> tokenOk (tokenOf (cc_res cc)) (cl_attempt cl) /\ at_streamID (cl_attempt cl) <> None /\
     (engaged cc = true \/ at_terminal (cl_attempt cl) = false)) ->
  (accepts cc' = true -> holds cc' = true \/ at_terminal (cl_attempt cl') = true) ->
  completion_inv s -> completion_inv (putCompletion c cc' (putCall a cl' s)).
Proof.
  intros a cc' cl' Hcomp Ha Hmu Hmu' Htok Hst Hterm Hac Hfin Heng Hdone [Hc Hcc Ho].
  assert (forall b res, accepted (ex_completions s) b res -> accepted (<[c := cc']> (ex_completions s)) b res) as Hacc.
  { intros b res. apply accepted_insert. intros cc0 Hcc0 H. rewrite Hcomp in Hcc0. simplify_eq. auto. }
  assert (forall c0 cc0, ex_completions s !! c0 = Some cc0 -> c0 <> c -> cc_attempt cc0 = a -> holds cc0 = false) as Hothers.
  { intros c0 cc0 H0 Hne Hat. destruct (holds cc0) eqn:E; [| done]. destruct (Hcc c0 cc0 H0) as (cl0 & Hcl0 & [_ Hm _ _]).
    rewrite Hat, Ha in Hcl0. simplify_eq. rewrite Hm in Hmu by done. by destruct Hmu; simplify_eq. }
  assert (engaged cc' = true -> forall c0 cc0, ex_completions s !! c0 = Some cc0 -> cc_attempt cc0 = a -> engaged cc0 = true -> c0 = c) as Honce.
  { intros He c0 cc0 H0 Hat He0. destruct (decide (c0 = c)) as [| Hne]; [done |].
    destruct (Heng He) as (_ & _ & [He' | Hnt]); [by eapply Ho |].
    pose proof (Hothers c0 cc0 H0 Hne Hat) as Hh0. unfold engaged in He0. rewrite Hh0 in He0. cbn in He0.
    destruct (Hcc c0 cc0 H0) as (cl0 & Hcl0 & [_ _ _ Hd]). rewrite Hat, Ha in Hcl0. simplify_eq.
    destruct (Hd He0); congruence. }
  split; cbn.
  - intros b cl0 [[<- <-] | [Hne Hb]]%lookup_insert_Some.
    + destruct (Hc a cl Ha) as [H1 H2 H3 H4 H5 H6 H7]. split; cbn [cl_phase cl_attempt onAttempt]; try (by eauto); try congruence.
      * cbn. destruct (cl_phase cl); auto.
      * rewrite Hmu'. intros Hf. by rewrite Hfin.
      * rewrite Hmu'. intros c0. destruct (holds cc') eqn:Eh; [| done]. intros [= <-]. exists cc'. cbn. by rewrite lookup_insert_eq.
      * intros stream. rewrite Hst. intros Hs%H5. cbn. unfold workItemOf in *. cbn in *. by rewrite Htok.
    + destruct (Hc b cl0 Hb) as [H1 H2 H3 H4 H5 H6 H7]. split; cbn; try (by eauto).
      intros c0 Hm. destruct (H4 c0 Hm) as (cc0 & Hc0 & Hat & Hh). exists cc0. rewrite lookup_insert_ne; [done |].
      intros <-. apply Hne. unfold a. congruence.
  - intros c0 cc0 [[<- <-] | [Hne Hc0]]%lookup_insert_Some.
    + exists cl'. rewrite lookup_insert_eq. split; [done |]. destruct (Hcc c cc Hcomp) as (cl0 & Hcl0 & [Hk _ _ _]). fold a in Hcl0.
      rewrite Ha in Hcl0. simplify_eq. split; cbn [cc_res set_cc_phase]; try done.
      * intros Hh. by rewrite Hmu', Hh.
      * intros He. destruct (Heng He) as (Ht & Hs & _). unfold tokenOk. rewrite Htok, Hst. done.
    + destruct (Hcc c0 cc0 Hc0) as (cl0 & Hcl0 & [Hk Hm He Hd]). destruct (decide (cc_attempt cc0 = a)) as [Hat | Hne'].
      2: { exists cl0. by rewrite lookup_insert_ne. }
      rewrite Hat in *. rewrite Ha in Hcl0. simplify_eq. exists cl'. rewrite lookup_insert_eq. split; [done |].
      split; cbn [cl_key cl_attempt onAttempt]; [done | by rewrite (Hothers c0 cc0) | |].
      * intros H. destruct (He H). unfold tokenOk. rewrite Htok, Hst. done.
      * intros H. destruct (Hd H); auto.
  - intros c1 c2 cc1 cc2 [[<- <-] | [Hn1 H1]]%lookup_insert_Some [[<- <-] | [Hn2 H2]]%lookup_insert_Some Hat He1 He2; try done.
    + symmetry. by eapply Honce.
    + by eapply Honce.
    + by eapply Ho.
Qed.

(** The same for the whole invariant. *)
Lemma inv_update c cc ph cl f s :
  ex_calls s !! cc_attempt cc = Some cl -> exec_inv s ->
  completion_inv (putCompletion c (set_cc_phase ph cc) (putCall (cc_attempt cc) (onAttempt f cl) s)) ->
  exec_inv (putCompletion c (set_cc_phase ph cc) (putCall (cc_attempt cc) (onAttempt f cl) s)).
Proof.
  intros Ha [Hr Hw _] Hc. split; [..| done].
  - apply (putCall_reserved (cc_attempt cc) cl (onAttempt f cl)) in Hr; [| done..]. destruct Hr. by split.
  - apply (putCall_waiter (cc_attempt cc) cl (onAttempt f cl)) in Hw; [| by auto..]. destruct Hw. by split.
Qed.

Lemma completeCheck_None token p :
  completeCheck token strict p = None -> at_terminal p = false /\ at_streamID p <> None /\ tokenOk token p.
Proof.
  unfold completeCheck. destruct (at_terminal p); [done |]. cbn. case_bool_decide; [done |]. case_match eqn:E; [done |].
  intros _. split_and!; [done | done |]. apply orb_false_iff in E as [E1 E2].
  destruct (String.eqb_spec token "") as [-> | Hne]; cbn in *; [by left |].
  right. by apply negb_false_iff, String.eqb_eq in E2.
Qed.

Lemma inv_completeLock c cc cl s :
  ex_completions s !! c = Some cc -> cc_phase cc = CLoaded -> ex_calls s !! cc_attempt cc = Some cl ->
  at_mu (cl_attempt cl) = None -> exec_inv s -> exec_inv (completeLock tokenOf strict c cc cl s).
Proof.
  intros Hcomp Hph Ha Hmu Hi. pose proof (ei_completion _ Hi) as Hc. unfold completeLock.
  assert (engaged cc = false) as He by (unfold engaged, holds, accepts; by rewrite Hph).
  destruct (completeCheck _ _ _) as [err|] eqn:E.
  - apply inv_putCompletion; [by intros; simplify_eq | done | | done].
    destruct (ci_completion _ Hc c cc Hcomp) as (cl0 & ? & []). eauto.
  - apply completeCheck_None in E as (Ht & Hs & Htok). apply inv_update; [done | done |].
    apply completion_update; auto; try done.
    + unfold engaged in He. apply orb_false_iff in He as [_ ->]. done.
    + intros Hf. pose proof (ck_terminal _ _ _ (ci_call _ Hc _ _ Ha)) as H. unfold finished in Hf. destruct (cl_phase cl); congruence.
Qed.

Lemma inv_completeDeliver c cc cl s :
  ex_completions s !! c = Some cc -> cc_phase cc = CDelivering -> ex_calls s !! cc_attempt cc = Some cl ->
  exec_inv s -> exec_inv (completeDeliver keyOf unknown c cc cl s).
Proof.
  intros Hcomp Hph Ha Hi. pose proof Hi as [Hr Hw Hc].
  assert (holds cc = true) as Hh by (unfold holds; by rewrite Hph).
  assert (engaged cc = true) as He by (unfold engaged; by rewrite Hh).
  destruct (ci_completion _ Hc c cc Hcomp) as (cl0 & Hcl0 & [Hk Hm Hen _]). rewrite Ha in Hcl0. simplify_eq.
  specialize (Hm Hh). destruct (Hen He) as [Htok Hst].
  assert (finished cl0 = false) as Hf.
  { destruct (finished cl0) eqn:Ef; [| done]. pose proof (ck_free _ _ _ (ci_call _ Hc _ _ Ha) Ef). congruence. }
  assert (accepts cc = false) as Hac by (unfold accepts; by rewrite Hph).
  unfold completeDeliver, completeTask, deletePending. rewrite Hk.
  destruct (lt_pending (ex_tasks s) !! cl_key cl0) as [w|] eqn:Ew; cycle 1.
  { change (set_tasks (ex_tasks s) s) with (set_tasks (ex_tasks s) s).
    assert (set_tasks (ex_tasks s) s = s) as -> by by destruct s. apply inv_update; [done | done |].
    apply completion_update; auto; try done. by rewrite Hac. }
  set (b := mkTasksBackend _ _ _).
  assert (b = (deletePending (cl_key cl0) (Some (cc_res cc)) (ex_tasks s)).1) as Hb by (unfold deletePending; by rewrite Ew).
  assert (s = putCall (cc_attempt cc) (onAttempt id cl0) s) as Hs.
  { unfold putCall, onAttempt, id. destruct s, cl0; cbn in *. by rewrite insert_id. }
  assert (completion_inv (putCompletion c (set_cc_phase CDelivered cc) s)) as Hc1.
  { rewrite Hs at 1. apply completion_update; auto; try done. by rewrite Hf. }
  assert (exec_inv (putCompletion c (set_cc_phase CDelivered cc) s)) as Hi1.
  { rewrite Hs at 1. apply inv_update; [done | done |]. by rewrite <- Hs. }
  destruct (wi_owner _ Hw _ _ Ew) as (a' & cl' & Ha' & Hk' & Hw').
  assert (finished cl' = false) as Hf' by (unfold waitsOn, finished in *; by destruct (cl_phase cl')).
  assert (a' = cc_attempt cc) as ->.
  { pose proof (ri_reserved _ Hr a' cl' Ha' Hf') as H1. pose proof (ri_reserved _ Hr _ _ Ha Hf) as H2. rewrite Hk' in H1. congruence. }
  change (putCompletion c (set_cc_phase CDelivered cc) (set_tasks b s))
    with (set_tasks b (putCompletion c (set_cc_phase CDelivered cc) s)).
  destruct Hi1 as [Hr1 [Hwf1 Ho1 Hwa1 Hal1 Hinj1] _]. split; [by destruct Hr1 | |].
  - split; cbn; try done; [by rewrite Hb; apply deletePending_wf |]. intros k v [_ Hv]%lookup_delete_Some. by apply Ho1.
  - apply set_tasks_completion; [| done]. cbn. intros a0 cl1 v res Ha0 Hv [[<- [= <-]] | [_ ?]]%lookup_insert_Some; [right | by left].
    assert (a0 = cc_attempt cc) as -> by (eapply (wi_inj _ Hw); eauto using wi_waits).
    exists c, (set_cc_phase CDelivered cc). by rewrite lookup_insert_eq.
Qed.

Lemma inv_completeEnd c cc cl s :
  ex_completions s !! c = Some cc -> cc_phase cc = CDelivered -> ex_calls s !! cc_attempt cc = Some cl ->
  exec_inv s -> exec_inv (completeEnd c cc cl s).
Proof.
  intros Hcomp Hph Ha Hi. pose proof Hi as [Hr Hw Hc].
  assert (holds cc = true) as Hh by (unfold holds; by rewrite Hph).
  assert (engaged cc = true) as He by (unfold engaged; by rewrite Hh).
  destruct (ci_completion _ Hc c cc Hcomp) as (cl0 & Hcl0 & [Hk Hm Hen _]). rewrite Ha in Hcl0. simplify_eq.
  specialize (Hm Hh). destruct (Hen He) as [Htok Hst]. unfold completeEnd. apply inv_update; [done | done |].
  apply completion_update; auto; done.
Qed.

Lemma inv_step s s' : step s s' -> exec_inv s -> exec_inv s'.
Proof.
  intros Hstep Hi. destruct Hstep as [key s s' a Hreg | a cl s Ha Hph | a cl w stream s Ha Hph Hst Hih | stream wi s s' Hih Hd | a cl s Ha
    | a cl w s Ha Hph Hca | a cl w s Ha Hph Hca | a cl w x s Ha Hph Hx Hco | a cl r s Ha Hph | a cl r s Ha Hph Hmu
    | c res a s Hc Hp | c cc cl s Hc Hph Ha Hmu | c cc cl s Hc Hph Ha | c cc cl s Hc Hph Ha
    | key s | s | key a cl s Hsd Hp Ha | stream s Hst | stream s Hst Hih | stream key a cl s Hst Hp Ha].
  - by eapply inv_execute.
  - by apply inv_register.
  - apply (inv_phase a cl (XWaiting w)); [done | | | done | done | by apply (inv_same s)]; [unfold finished | left; unfold waitsOn]; cbn; by rewrite Hph.
  - unfold serveItem in Hd. apply bind_Some in Hd as (s1 & Hd & [= <-]). apply (inv_same s1); try done. by eapply inv_dispatch.
  - by apply (inv_onAttempt a cl cancelAttempt).
  - apply inv_endWait; [done | unfold waitsOn; by rewrite Hph | done | done].
  - apply inv_endWait; [done | unfold waitsOn; by rewrite Hph | done | done].
  - apply inv_endWait; [done | unfold waitsOn; by rewrite Hph | | done]. intros res Hres.
    destruct x as [[res'|] [|]]; cbn in *; simplify_eq. pose proof (ci_call _ (ei_completion _ Hi) a cl Ha) as Hok.
    eapply (ck_closed _ _ _ Hok); [| done]. eapply (wi_waits _ (ei_waiter _ Hi)); [done |]. unfold waitsOn. by rewrite Hph.
  - assert (ex_calls (putCall a (onAttempt stop cl) s) !! a = Some (onAttempt stop cl)) as Ha' by (cbn; by rewrite lookup_insert_eq).
    pose proof (inv_stop a cl s Ha Hi) as Hi'. apply (inv_phase a (onAttempt stop cl) (XFinishing r)) in Hi'; try done.
    + unfold putCall in Hi' |- *. cbn in *. by rewrite insert_insert_eq in Hi'.
    + unfold finished. cbn. by rewrite Hph.
    + left. unfold waitsOn. cbn. by rewrite Hph.
    + cbn. intros res [= ->]. apply (ck_result _ _ _ (ci_call _ (ei_completion _ Hi) a cl Ha)). unfold resultOf. by rewrite Hph.
  - by apply inv_finish.
  - apply inv_putCompletion; [by intros; simplify_eq | done | | done].
    destruct (ri_pending _ (ei_reserved _ Hi) _ _ Hp) as (cl & ? & ? & _). cbn. eauto.
  - by apply inv_completeLock.
  - by apply inv_completeDeliver.
  - by apply inv_completeEnd.
  - by apply inv_cancel.
  - by apply (inv_same s).
  - by apply inv_stop.
  - by apply (inv_same s).
  - by apply (inv_same s).
  - apply (inv_onAttempt a cl (stopForStream stream)); [done | | done]. intros p. unfold stopForStream. by case_bool_decide.
Qed.

Lemma inv_new : exec_inv NewGrpcExecutor.
Proof. split; split; intros *; cbn; rewrite ?lookup_empty; done. Qed.

Lemma reachable_inv s : reachable keyOf tokenOf unknown strict uuid s -> exec_inv s.
Proof.
  intros Hs. assert (exec_inv NewGrpcExecutor) as H0 by apply inv_new. revert H0.
  induction Hs as [|x y z Hxy _ IH]; [done |]. intros Hx. by eapply IH, inv_step.
Qed.

(** ** Properties *)


(** ** Shutdown drains *)

(** The executor shuts down with the reservations [P], where call [a] is [cl]. *)
Definition closing (P : gmap string nat) (a : nat) (cl : call) (s : Exec) : Prop :=
  exec_inv s /\ ex_shuttingDown s = true /\ ex_pending s = P /\ ex_calls s !! a = Some cl.

(** Completion calls that hold the mutex of [a] return. *)
Lemma free_mutex P a cl s :
  closing P a cl s -> exists s' cl', rtc step s s' /\ closing P a cl' s' /\ cl_key cl' = cl_key cl /\ at_mu (cl_attempt cl') = None.
Proof.
  intros (Hi & Hsd & Hp & Ha). destruct (at_mu (cl_attempt cl)) as [c|] eqn:Em; [| by exists s, cl].
  destruct (ck_mu _ _ _ (ci_call _ (ei_completion _ Hi) a cl Ha) c Em) as (cc & Hc & <- & Hh).
  assert (exists s1 cc1, rtc step s s1 /\ exec_inv s1 /\ ex_shuttingDown s1 = true /\ ex_pending s1 = P /\
    ((exists cl1, ex_calls s1 !! cc_attempt cc = Some cl1 /\ cl_key cl1 = cl_key cl /\ at_mu (cl_attempt cl1) = None) \/
     (ex_calls s1 !! cc_attempt cc = Some cl /\ ex_completions s1 !! c = Some cc1 /\ cc_phase cc1 = CDelivered /\ cc_attempt cc1 = cc_attempt cc)))
    as (s1 & cc1 & Hr & Hi1 & Hsd1 & Hp1 & Hcase).
  { unfold holds in Hh. destruct (cc_phase cc) eqn:Eph; try done; [| exists s, cc; split_and!; [done.. | by right]].
    assert (step s (completeDeliver keyOf unknown c cc cl s)) as Hst by by eapply es_completeDeliver.
    exists (completeDeliver keyOf unknown c cc cl s), (set_cc_phase CDelivered cc).
    split_and!; [by apply rtc_once | by eapply inv_step | ..];
      unfold completeDeliver; destruct (completeTask _ _ _ _) as [b [err|]]; cbn; try done; rewrite ?lookup_insert_eq; [left | right]; eauto. }
  destruct Hcase as [(cl1 & Ha1 & Hk1 & Hm1) | (Ha1 & Hc1 & Hph1 & Hat1)]; [by exists s1, cl1 |].
  rewrite <- Hat1 in *. assert (step s1 (completeEnd c cc1 cl s1)) as Hst by by eapply es_completeEnd.
  exists (completeEnd c cc1 cl s1), (onAttempt (fun p => set_mu None (set_terminal p)) cl).
  split; [by eapply rtc_r |]. split; [| done]. split; [by eapply inv_step |]. split_and!; try done. cbn. by rewrite lookup_insert_eq.
Qed.

(** Without the mutex a stopped call returns. *)
Lemma return_call P a cl s :
  closing P a cl s -> finished cl = false -> at_mu (cl_attempt cl) = None -> at_cancelled (cl_attempt cl) = true ->
  exists s', rtc step s s' /\ exec_inv s' /\ ex_shuttingDown s' = true /\ ex_pending s' = delete (cl_key cl) P.
Proof.
  assert (forall cl r s, closing P a cl s -> cl_phase cl = XFinishing r -> at_mu (cl_attempt cl) = None ->
    exists s', rtc step s s' /\ exec_inv s' /\ ex_shuttingDown s' = true /\ ex_pending s' = delete (cl_key cl) P) as H1.
  { clear. intros cl r s (Hi & Hsd & Hp & Ha) Hph Hmu. assert (step s (releaseAttempt a cl r s)) as Hst by by apply es_finishDelete.
    exists (releaseAttempt a cl r s). split_and!; [by apply rtc_once | by eapply inv_step | ..]; unfold releaseAttempt; cbn.
    - by case_bool_decide.
    - rewrite bool_decide_eq_true_2; [by rewrite Hp |]. apply (ri_reserved _ (ei_reserved _ Hi)); [done |]. unfold finished. by rewrite Hph. }
  assert (forall cl r s, closing P a cl s -> cl_phase cl = XReturning r -> at_mu (cl_attempt cl) = None ->
    exists s', rtc step s s' /\ exec_inv s' /\ ex_shuttingDown s' = true /\ ex_pending s' = delete (cl_key cl) P) as H2.
  { clear - H1. intros cl r s (Hi & Hsd & Hp & Ha) Hph Hmu. set (cl' := set_phase (XFinishing r) (onAttempt stop cl)).
    assert (step s (putCall a cl' s)) as Hst by by apply es_finishStop.
    destruct (H1 cl' r (putCall a cl' s)) as (s' & Hr & ?); [| done | done | by exists s'; split; [eapply rtc_l |]].
    split; [by eapply inv_step |]. split_and!; try done. cbn. by rewrite lookup_insert_eq. }
  assert (forall cl w s, closing P a cl s -> waitsOn cl = Some w -> at_mu (cl_attempt cl) = None -> at_cancelled (cl_attempt cl) = true ->
    exists s', rtc step s s' /\ exec_inv s' /\ ex_shuttingDown s' = true /\ ex_pending s' = delete (cl_key cl) P) as H3.
  { clear - H2. intros cl w s (Hi & Hsd & Hp & Ha) Hw Hmu Hca.
    assert (exists r, step s (endWait a cl w r s)) as [r Hst].
    { unfold waitsOn in Hw. destruct (cl_phase cl) eqn:Eph; simplify_eq; eexists; [by apply es_dispatchCancelled | by apply es_waitCancelled]. }
    destruct (H2 (set_phase (XReturning r) cl) r (endWait a cl w r s)) as (s' & Hr & ?); [| done | done | by exists s'; split; [eapply rtc_l |]].
    split; [by eapply inv_step |]. split_and!; try done. cbn. by rewrite lookup_insert_eq. }
  intros Hcl Hf Hmu Hca. destruct (cl_phase cl) as [| w | w | r | r | r] eqn:Eph; [| | | by eapply H2 | by eapply H1 |].
  - destruct Hcl as (Hi & Hsd & Hp & Ha). pose proof (register_fresh a cl s Hi Ha Eph) as Hfr.
    assert (step s (registerWaiter a cl s)) as Hst by by apply es_register. unfold registerWaiter, registerCompletion in Hst. rewrite Hfr in Hst.
    match type of Hst with step _ (putCall a ?x ?y) => set (cl' := x) in *; set (s0 := y) in * end.
    destruct (H3 cl' (lt_next (ex_tasks s)) (putCall a cl' s0)) as (s' & Hr & ?); [| done | done | done | by exists s'; split; [eapply rtc_l |]].
    split; [by eapply inv_step |]. split_and!; try done. cbn. by rewrite lookup_insert_eq.
  - eapply H3; [done | unfold waitsOn; by rewrite Eph | done | done].
  - eapply H3; [done | unfold waitsOn; by rewrite Eph | done | done].
  - unfold finished in Hf. by rewrite Eph in Hf.
Qed.

Lemma drain_one key a s :
  exec_inv s -> ex_shuttingDown s = true -> ex_pending s !! key = Some a ->
  exists s', rtc step s s' /\ exec_inv s' /\ ex_shuttingDown s' = true /\ ex_pending s' = delete key (ex_pending s).
Proof.
  intros Hi Hsd Hp. destruct (ri_pending _ (ei_reserved _ Hi) _ _ Hp) as (cl & Ha & <- & Hf).
  destruct (free_mutex (ex_pending s) a cl s) as (s1 & cl1 & Hr1 & (Hi1 & Hsd1 & Hp1 & Ha1) & Hk & Hmu); [done |].
  set (s2 := putCall a (onAttempt stop cl1) s1).
  assert (step s1 s2) as Hst by (eapply es_shutdownStop; [done | by rewrite Hp1 | done]).
  destruct (return_call (ex_pending s) a (onAttempt stop cl1) s2) as (s3 & Hr3 & ?); [| | done | done |].
  - split; [by eapply inv_step |]. split_and!; try done. cbn. by rewrite lookup_insert_eq.
  - rewrite <- Hp1, <- Hk in Hp. destruct (ri_pending _ (ei_reserved _ Hi1) _ _ Hp) as (cl2 & Ha2 & _ & Hf2). rewrite Ha1 in Ha2. by simplify_eq.
  - exists s3. cbn in *. rewrite Hk in *. split; [| done]. etrans; [done |]. by eapply rtc_l.
Qed.

Lemma drain_all n s :
  size (ex_pending s) = n -> exec_inv s -> ex_shuttingDown s = true ->
  exists s', rtc step s s' /\ exec_inv s' /\ ex_shuttingDown s' = true /\ ex_pending s' = ∅.
Proof.
  revert s. induction n as [|n IH]; intros s Hn Hi Hsd; [apply map_size_empty_inv in Hn; by exists s |].
  destruct (map_choose (ex_pending s)) as (key & a & Hp); [intros E; by rewrite E, map_size_empty in Hn |].
  destruct (drain_one key a s Hi Hsd Hp) as (s1 & Hr1 & Hi1 & Hsd1 & Hp1).
  destruct (IH s1) as (s2 & Hr2 & ?); [| done | done |].
  - rewrite Hp1, map_size_delete_Some by done. lia.
  - exists s2. split; [by etrans | done].
Qed.


End Inv.

(** ** A run *)

Definition sampleUuid (n : nat) : string := "token-" +:+ pretty (Z.of_nat n).
Definition sampleAnswer : WorkflowResponse := mkWorkflowResponse "wf1" [] None "token-0" None None.
Definition unknownInstance (key : string) : error := UnknownInstanceIDError key.

Local Abbreviation wstep := (exec_step resp_InstanceId resp_CompletionToken unknownInstance true sampleUuid).

Local Abbreviation WExec := (Exec (R := WorkflowResponse)).

(** The call and the completion of a state. *)
Definition call0 (s : WExec) : call :=
  default (mkCall "" (mkTransportAttempt None "" None false false) XRegistered None) (ex_calls s !! 0%nat).
Definition completion0 (s : WExec) : completion :=
  default (mkCompletion 0 sampleAnswer CLoaded) (ex_completions s !! 0%nat).

Definition t1 : WExec := (registerAttempt sampleUuid "wf1" NewGrpcExecutor).1.
Definition t2 : WExec := set_streams {["st"]} (registerWaiter 0 (call0 t1) t1).
Definition t3 : WExec := putCall 0 (set_phase (XWaiting 0) (call0 t2)) (set_inHand {["st" := mkWorkItem "wf1" "token-0"]} t2).
Definition t4 : WExec := set_inHand ∅ (default t3 (dispatchToStream "st" (mkWorkItem "wf1" "token-0") t3)).
Definition t5 : WExec := putCompletion 0 (mkCompletion 0 sampleAnswer CLoaded) t4.
Definition t6 : WExec := completeLock resp_CompletionToken true 0 (completion0 t5) (call0 t5) t5.
Definition t7 : WExec := completeDeliver resp_InstanceId unknownInstance 0 (completion0 t6) (call0 t6) t6.
Definition t8 : WExec := completeEnd 0 (completion0 t7) (call0 t7) t7.
Definition t9 : WExec := endWait 0 (call0 t8) 0 (inl sampleAnswer) t8.
Definition t10 : WExec := putCall 0 (set_phase (XFinishing (inl sampleAnswer)) (onAttempt stop (call0 t9))) t9.
Definition t11 : WExec := releaseAttempt 0 (call0 t10) (inl sampleAnswer) t10.

Lemma sample_dispatched : reachable resp_InstanceId resp_CompletionToken unknownInstance true sampleUuid t4.
Proof.
  unfold reachable. apply (rtc_l _ _ t1); [by apply (es_execute _ _ _ _ _ "wf1" _ _ 0) |].
  apply (rtc_l _ _ (registerWaiter 0 (call0 t1) t1)); [by apply es_register |].
  apply (rtc_l _ _ t2); [by apply (es_connect _ _ _ _ _ "st") |].
  apply (rtc_l _ _ t3); [by apply (es_handoff _ _ _ _ _ 0 (call0 t2) 0 "st" t2) |].
  apply rtc_once. by apply (es_dispatch _ _ _ _ _ "st" (mkWorkItem "wf1" "token-0") t3).
Qed.

Lemma sample_run : reachable resp_InstanceId resp_CompletionToken unknownInstance true sampleUuid t11.
Proof.
  unfold reachable. etrans; [apply sample_dispatched |].
  apply (rtc_l _ _ t5); [by apply (es_completeLoad _ _ _ _ _ 0 sampleAnswer 0) |].
  apply (rtc_l _ _ t6); [by apply (es_completeLock _ _ _ _ _ 0 (completion0 t5)) |].
  apply (rtc_l _ _ t7); [by apply (es_completeDeliver _ _ _ _ _ 0 (completion0 t6)) |].
  apply (rtc_l _ _ t8); [by apply (es_completeEnd _ _ _ _ _ 0 (completion0 t7)) |].
  apply (rtc_l _ _ t9); [by apply (es_waitComplete _ _ _ _ _ 0 (call0 t8) 0 (mkWaiter (Some sampleAnswer) true)) |].
  apply (rtc_l _ _ t10); [by apply es_finishStop |].
  apply rtc_once. by apply (es_finishDelete _ _ _ _ _ 0 (call0 t10)).
Qed.


