(* ===== verification/LocalBackend.v ===== *)
(** * The task registries of an embedded backend (backend/local/task.go)

    [TasksBackend] of the code has two registries of waiters, one for workflows and one
    for activities.  [LocalTasks] models one of them; here are the methods of the whole,
    with their keys, and what a caller may rely on: whatever happens to other tasks, a
    waiter gets the response its own task was completed with ([local_delivers]). *)

From stdpp Require Import base list option strings gmap pretty.
From Stdlib Require Import ZArith Lia Ascii.
From S2P Require Import Prelude Errors Protos Helpers LocalTasks Transport.

(** ** The backend *)

Record LocalBackend := mkLocalBackend {
  lb_pendingWorkflows : TasksBackend WorkflowResponse;
  lb_pendingActivities : TasksBackend ActivityResponse
}.

Definition NewLocalBackend : LocalBackend := mkLocalBackend NewTasksBackend NewTasksBackend.

Definition onWorkflows {A} (f : TasksBackend WorkflowResponse -> TasksBackend WorkflowResponse * A) (b : LocalBackend)
    : LocalBackend * A :=
  let '(w, a) := f (lb_pendingWorkflows b) in (mkLocalBackend w (lb_pendingActivities b), a).
Definition onActivities {A} (f : TasksBackend ActivityResponse -> TasksBackend ActivityResponse * A) (b : LocalBackend)
    : LocalBackend * A :=
  let '(a, x) := f (lb_pendingActivities b) in (mkLocalBackend (lb_pendingWorkflows b) a, x).

Definition CompleteActivityTask (response : ActivityResponse) : LocalBackend -> LocalBackend * option error :=
  onActivities (completeTask (NewUnknownTaskIDError (ar_InstanceId response) (ar_TaskId response))
    (GetActivityExecutionKey (ar_InstanceId response) (ar_TaskId response)) response).

Definition CancelActivityTask (instanceID : string) (taskID : Z) : LocalBackend -> LocalBackend * option error :=
  onActivities (cancelTask (NewUnknownTaskIDError instanceID taskID) (GetActivityExecutionKey instanceID taskID)).

(** The key of a request: the instance id of a missing instance is empty. *)
Definition activityRequestKey (request : ActivityRequest) : string :=
  GetActivityExecutionKey (from_option wi_InstanceId "" (aq_WorkflowInstance request)) (aq_TaskId request).

Definition RegisterActivityCompletion (request : ActivityRequest) : LocalBackend -> LocalBackend * (nat + error) :=
  onActivities (registerCompletion (activityRequestKey request)).

Definition CompleteWorkflowTask (response : WorkflowResponse) : LocalBackend -> LocalBackend * option error :=
  onWorkflows (completeTask (NewUnknownInstanceIDError (resp_InstanceId response)) (resp_InstanceId response) response).

Definition CancelWorkflowTask (instanceID : string) : LocalBackend -> LocalBackend * option error :=
  onWorkflows (cancelTask (NewUnknownInstanceIDError instanceID) instanceID).

Definition RegisterWorkflowTaskCompletion (request : WorkflowRequest) : LocalBackend -> LocalBackend * (nat + error) :=
  onWorkflows (registerCompletion (req_InstanceId request)).

(** The function a registration returns, when it returns: its context is done, or its
    channel is closed; with both the runtime chooses.  It removes its own registration, not
    one that has replaced it. *)
Inductive waits {R} (key : string) (w : nat) (ctxErr : option error) (b : TasksBackend R)
    : TasksBackend R -> R + error -> Prop :=
| waits_done err : ctxErr = Some err -> waits key w ctxErr b (releaseWaiter key w b) (inr err)
| waits_closed x : lt_heap b !! w = Some x -> wt_complete x = true -> waits key w ctxErr b (releaseWaiter key w b) (waitResult x).

(** [WaitForWorkflowTaskCompletion], [WaitForActivityCompletion]: the wait of a
    registration, or its error. *)
Inductive waitFor {R} (key : string) (registered : nat + error) (ctxErr : option error) (b : TasksBackend R)
    : TasksBackend R -> R + error -> Prop :=
| waitFor_refused err : registered = inr err -> waitFor key registered ctxErr b b (inr err)
| waitFor_registered w b' r : registered = inl w -> waits key w ctxErr b b' r -> waitFor key registered ctxErr b b' r.

(** ** Keys *)

(** Different activities have different keys, also when an instance id has a slash in it. *)
Fixpoint slashFree (s : string) : bool :=
  match s with
  | EmptyString => true
  | String c s => negb (Ascii.eqb c "/") && slashFree s
  end.

Lemma slashFree_app a b : slashFree (a +:+ b) = slashFree a && slashFree b.
Proof. induction a as [|c a IH]; cbn; [done |]. by rewrite <- andb_assoc, <- IH. Qed.

Lemma pretty_N_slashFree n s : slashFree s = true -> slashFree (pretty_N_go n s) = true.
Proof.
  revert s. induction (N.lt_wf_0 n) as [n _ IH]; intros s Hs.
  destruct (decide (n = 0)%N) as [-> | Hn]; [done |].
  rewrite pretty_N_go_step by lia. apply IH; [apply N.div_lt; lia |]. cbn. rewrite Hs, andb_true_r.
  unfold pretty_N_char. by repeat case_match.
Qed.

Lemma pretty_Z_slashFree (z : Z) : slashFree (pretty z) = true.
Proof.
  assert (forall p : positive, slashFree (pretty p) = true) as Hp.
  { intros p. unfold pretty, pretty_positive, pretty, pretty_N. case_decide; [done |]. by apply pretty_N_slashFree. }
  destruct z as [|p|p]; cbn; [done | apply Hp | apply Hp].
Qed.

Lemma last_slash a b p q :
  slashFree p = true -> slashFree q = true -> a +:+ String "/" p = b +:+ String "/" q -> a = b /\ p = q.
Proof.
  intros Hp Hq. revert b. induction a as [|x a IH]; intros [|y b] E; cbn in E.
  - by injection E.
  - injection E as <- ->. by rewrite slashFree_app, andb_false_r in Hp.
  - injection E as -> <-. by rewrite slashFree_app, andb_false_r in Hq.
  - injection E as -> E. by destruct (IH b E) as [-> ->].
Qed.

Theorem activity_keys_differ iid1 t1 iid2 t2 :
  GetActivityExecutionKey iid1 t1 = GetActivityExecutionKey iid2 t2 -> iid1 = iid2 /\ t1 = t2.
Proof.
  unfold GetActivityExecutionKey. change ("/" +:+ pretty t1) with (String "/" (pretty t1)).
  change ("/" +:+ pretty t2) with (String "/" (pretty t2)). intros [-> E]%last_slash; [| apply pretty_Z_slashFree ..].
  split; [done |]. by apply (inj pretty) in E.
Qed.

(** ** Delivery *)

Section Steps.
Context {R : Type}.

(** What a method does to the registry with one key. *)
Inductive taskStep (key : string) : TasksBackend R -> TasksBackend R -> Prop :=
| step_register b : taskStep key b (registerCompletion key b).1
| step_delete res b : taskStep key b (deletePending key res b).1
| step_release w b : taskStep key b (releaseWaiter key w b).

Lemma taskStep_wf key b b' : taskStep key b b' -> tasks_wf b -> tasks_wf b'.
Proof.
  intros [b0 | res b0 | w b0] Hw; [| by apply deletePending_wf | by apply releaseWaiter_wf].
  eapply registerCompletion_wf; [exact Hw | apply surjective_pairing].
Qed.

(** A closed waiter keeps its response. *)
Lemma taskStep_closed key b b' w x :
  tasks_wf b -> taskStep key b b' -> lt_heap b !! w = Some x -> wt_complete x = true -> lt_heap b' !! w = Some x.
Proof.
  intros Hwf Hst Hw Hx. destruct Hst as [b0 | res b0 | v b0]; destruct Hwf as [Ho _ Hn].
  - unfold registerCompletion. case_match; [done |]. cbn. rewrite lookup_insert_ne; [done |]. apply Hn in Hw. lia.
  - unfold deletePending. destruct (lt_pending b0 !! key) as [v|] eqn:E; [| done]. cbn. rewrite lookup_insert_ne; [done |].
    intros ->. apply Ho in E. by simplify_eq/=.
  - unfold releaseWaiter. by case_bool_decide.
Qed.

(** A registration is kept by what happens to other keys. *)
Lemma taskStep_other key k b b' w :
  taskStep k b b' -> k <> key -> lt_pending b !! key = Some w -> lt_pending b' !! key = Some w.
Proof.
  intros [b0 | res b0 | v b0] Hk Hp.
  - unfold registerCompletion. case_match; [done |]. cbn. by rewrite lookup_insert_ne.
  - unfold deletePending. case_match; [| done]. cbn. by rewrite lookup_delete_ne.
  - unfold releaseWaiter. case_bool_decide; [| done]. cbn. by rewrite lookup_delete_ne.
Qed.

Definition anyStep (b b' : TasksBackend R) : Prop := exists k, taskStep k b b'.
Definition otherStep (key : string) (b b' : TasksBackend R) : Prop := exists k, k <> key /\ taskStep k b b'.

Lemma others_keep_waiter key w b b' :
  rtc (otherStep key) b b' -> tasks_wf b -> lt_pending b !! key = Some w -> tasks_wf b' /\ lt_pending b' !! key = Some w.
Proof.
  intros Hs. induction Hs as [|b b1 b' (k & Hk & Hst) _ IH]; intros Hw Hp; [done |].
  apply IH; [by eapply taskStep_wf | by eapply taskStep_other].
Qed.

Lemma closed_final w x b b' :
  rtc anyStep b b' -> tasks_wf b -> lt_heap b !! w = Some x -> wt_complete x = true -> lt_heap b' !! w = Some x.
Proof.
  intros Hs. induction Hs as [|b b1 b' (k & Hst) _ IH]; intros Hw Hh Hx; [done |].
  apply IH; [by eapply taskStep_wf | by eapply taskStep_closed | done].
Qed.

(** Whatever happens to other tasks between the registration and the completion, and to
    any task after it, the waiter of a registration returns the response its task was
    completed with, unless its own context is done; and the completion is accepted. *)
Theorem local_delivers key unknown res b b1 w b2 :
  tasks_wf b -> registerCompletion key b = (b1, inl w) -> rtc (otherStep key) b1 b2 ->
  (completeTask unknown key res b2).2 = None /\
  forall b4 b5 ctxErr r, rtc anyStep (completeTask unknown key res b2).1 b4 -> waitFor key (inl w) ctxErr b4 b5 r ->
    r = inl res \/ exists err, ctxErr = Some err /\ r = inr err.
Proof.
  intros Hw Hr Hs. assert (lt_pending b1 !! key = Some w) as Hp.
  { unfold registerCompletion in Hr. case_match; simplify_eq. cbn. apply lookup_insert_eq. }
  destruct (others_keep_waiter key w b1 b2 Hs) as [Hw2 Hp2]; [by eapply registerCompletion_wf | done |].
  unfold completeTask, deletePending. rewrite Hp2. split; [done |]. cbn [fst].
  set (b3 := mkTasksBackend _ _ _). intros b4 b5 ctxErr r Hs4 Hwait.
  assert (lt_heap b4 !! w = Some (mkWaiter (Some res) true)) as Hh.
  { eapply closed_final; [exact Hs4 | | apply lookup_insert_eq | done].
    assert (b3 = (deletePending key (Some res) b2).1) as -> by (unfold deletePending; by rewrite Hp2).
    by apply deletePending_wf. }
  destruct Hwait as [err [=] | w' b5 r [= <-] [err -> | x Hx Hc]]; [eauto |]. left. by simplify_eq/=.
Qed.

End Steps.
