(* ===== verification/Requests.v ===== *)
(** * Requests of clients (api/orchestration.go, api/protos/orchestrator_service.pb.go)

    The request messages of the task hub service and the options that configure them.
    An option is a function that changes the request, or fails. *)

From stdpp Require Import base list option strings.
From Stdlib Require Import ZArith Lia.
From S2P Require Import Prelude Errors Protos Helpers Sqlite.

(** ** Messages *)

Record CreateInstanceRequest := mkCreateInstanceRequest {
  ci_InstanceId : string;
  ci_Name : string;
  ci_Version : option string;
  ci_Input : option string;
  ci_ScheduledStartTimestamp : option Z;
  ci_ParentTraceContext : option TraceContext;
  ci_EnforceUniqueInstanceId : bool;
  ci_Router : option TaskRouter
}.

Record GetInstanceRequest := mkGetInstanceRequest {
  gi_InstanceId : string;
  gi_GetInputsAndOutputs : bool;
  gi_Router : option TaskRouter
}.

Record WorkflowState := mkWorkflowState {
  st_InstanceId : string;
  st_Name : string;
  st_Version : option string;
  st_WorkflowStatus : OrchestrationStatus;
  st_CreatedTimestamp : Z;
  st_LastUpdatedTimestamp : Z;
  st_Input : option string;
  st_Output : option string;
  st_CustomStatus : option string;
  st_FailureDetails : option TaskFailureDetails;
  st_ParentInstanceId : option string;
  st_ParentAppId : option string;
  st_StartedAt : option Z
}.

Record GetInstanceResponse := mkGetInstanceResponse {
  gr_Exists : bool;
  gr_WorkflowState : option WorkflowState
}.

Record RaiseEventRequest := mkRaiseEventRequest {
  rq_InstanceId : string;
  rq_Name : string;
  rq_Input : option string;
  rq_Router : option TaskRouter;
  rq_ExternalDeliveryId : option string
}.

Record TerminateRequest := mkTerminateRequest {
  tq_InstanceId : string;
  tq_Output : option string;
  tq_Recursive : bool;
  tq_Router : option TaskRouter
}.

Record SuspendRequest := mkSuspendRequest {
  sq_InstanceId : string;
  sq_Reason : option string;
  sq_Router : option TaskRouter
}.

Record ResumeRequest := mkResumeRequest {
  zq_InstanceId : string;
  zq_Reason : option string;
  zq_Router : option TaskRouter
}.

(** The request names one instance, or a filter. *)
Inductive PurgeTarget :=
| Purge_InstanceId (id : string)
| Purge_Filter.

Record PurgeInstancesRequest := mkPurgeInstancesRequest {
  pq_Request : PurgeTarget;
  pq_Recursive : bool;
  pq_Force : option bool;
  pq_Router : option TaskRouter
}.

(** ** Options *)

Definition Option (Q : Type) : Type := Q -> Q + error.

(** [for _, configure := range opts]: the first error ends it. *)
Fixpoint configure {Q} (opts : list (Option Q)) (req : Q) : Q + error :=
  match opts with
  | [] => inl req
  | opt :: rest =>
      match opt req with
      | inl req => configure rest req
      | inr err => inr err
      end
  end.

(** The same loop where the errors are ignored: an option that fails may leave the
    request as it was. *)
Fixpoint configureAll {Q} (opts : list (Option Q)) (req : Q) : Q :=
  match opts with
  | [] => req
  | opt :: rest => configureAll rest (match opt req with inl req => req | inr _ => req end)
  end.

Lemma configure_All {Q} (opts : list (Option Q)) req req' :
  configure opts req = inl req' -> configureAll opts req = req'.
Proof.
  revert req. induction opts as [|opt opts IH]; intros req; cbn; [by intros [= ->] |]. destruct (opt req); [apply IH | done].
Qed.

(** *** New workflows *)

Definition WithInstanceID (id : string) : Option CreateInstanceRequest := fun r =>
  inl (mkCreateInstanceRequest id (ci_Name r) (ci_Version r) (ci_Input r) (ci_ScheduledStartTimestamp r)
         (ci_ParentTraceContext r) (ci_EnforceUniqueInstanceId r) (ci_Router r)).
(** [marshalled] is what [marshalData] makes of the value. *)
Definition WithInput (marshalled : string + error) : Option CreateInstanceRequest := fun r =>
  match marshalled with
  | inr err => inr err
  | inl bytes =>
      inl (mkCreateInstanceRequest (ci_InstanceId r) (ci_Name r) (ci_Version r) (Some bytes) (ci_ScheduledStartTimestamp r)
             (ci_ParentTraceContext r) (ci_EnforceUniqueInstanceId r) (ci_Router r))
  end.
Definition WithRawInput (rawInput : option string) : Option CreateInstanceRequest := fun r =>
  inl (mkCreateInstanceRequest (ci_InstanceId r) (ci_Name r) (ci_Version r) rawInput (ci_ScheduledStartTimestamp r)
         (ci_ParentTraceContext r) (ci_EnforceUniqueInstanceId r) (ci_Router r)).
Definition WithStartTime (startTime : Z) : Option CreateInstanceRequest := fun r =>
  inl (mkCreateInstanceRequest (ci_InstanceId r) (ci_Name r) (ci_Version r) (ci_Input r) (Some startTime)
         (ci_ParentTraceContext r) (ci_EnforceUniqueInstanceId r) (ci_Router r)).
Definition WithEnforceUniqueInstanceID : Option CreateInstanceRequest := fun r =>
  inl (mkCreateInstanceRequest (ci_InstanceId r) (ci_Name r) (ci_Version r) (ci_Input r) (ci_ScheduledStartTimestamp r)
         (ci_ParentTraceContext r) true (ci_Router r)).
Definition WithAppID (appID : string) : Option CreateInstanceRequest := fun r =>
  inl (mkCreateInstanceRequest (ci_InstanceId r) (ci_Name r) (ci_Version r) (ci_Input r) (ci_ScheduledStartTimestamp r)
         (ci_ParentTraceContext r) (ci_EnforceUniqueInstanceId r) (routerWithTargetAppID (ci_Router r) appID)).

(** *** Metadata; these options cannot fail *)

Definition FetchOption : Type := GetInstanceRequest -> GetInstanceRequest.
Definition WithFetchPayloads (fetchPayloads : bool) : FetchOption := fun r =>
  mkGetInstanceRequest (gi_InstanceId r) fetchPayloads (gi_Router r).
Definition WithFetchAppID (appID : string) : FetchOption := fun r =>
  mkGetInstanceRequest (gi_InstanceId r) (gi_GetInputsAndOutputs r) (routerWithTargetAppID (gi_Router r) appID).

(** *** Events *)

Definition WithEventPayload (marshalled : string + error) : Option RaiseEventRequest := fun r =>
  match marshalled with
  | inr err => inr err
  | inl bytes => inl (mkRaiseEventRequest (rq_InstanceId r) (rq_Name r) (Some bytes) (rq_Router r) (rq_ExternalDeliveryId r))
  end.
Definition WithRawEventData (data : option string) : Option RaiseEventRequest := fun r =>
  inl (mkRaiseEventRequest (rq_InstanceId r) (rq_Name r) data (rq_Router r) (rq_ExternalDeliveryId r)).
Definition WithExternalDeliveryID (deliveryID : string) : Option RaiseEventRequest := fun r =>
  if String.eqb deliveryID "" then inr (errorNew "external delivery ID must be non-empty")
  else inl (mkRaiseEventRequest (rq_InstanceId r) (rq_Name r) (rq_Input r) (rq_Router r) (Some deliveryID)).
Definition WithRaiseEventAppID (appID : string) : Option RaiseEventRequest := fun r =>
  inl (mkRaiseEventRequest (rq_InstanceId r) (rq_Name r) (rq_Input r) (routerWithTargetAppID (rq_Router r) appID)
         (rq_ExternalDeliveryId r)).

(** *** Termination, suspension, purge *)

Definition WithOutput (marshalled : string + error) : Option TerminateRequest := fun r =>
  match marshalled with
  | inr err => inr err
  | inl bytes => inl (mkTerminateRequest (tq_InstanceId r) (Some bytes) (tq_Recursive r) (tq_Router r))
  end.
Definition WithRawOutput (data : option string) : Option TerminateRequest := fun r =>
  inl (mkTerminateRequest (tq_InstanceId r) data (tq_Recursive r) (tq_Router r)).
Definition WithRecursiveTerminate (recursive : bool) : Option TerminateRequest := fun r =>
  inl (mkTerminateRequest (tq_InstanceId r) (tq_Output r) recursive (tq_Router r)).
Definition WithTerminateAppID (appID : string) : Option TerminateRequest := fun r =>
  inl (mkTerminateRequest (tq_InstanceId r) (tq_Output r) (tq_Recursive r) (routerWithTargetAppID (tq_Router r) appID)).
Definition WithSuspendAppID (appID : string) : Option SuspendRequest := fun r =>
  inl (mkSuspendRequest (sq_InstanceId r) (sq_Reason r) (routerWithTargetAppID (sq_Router r) appID)).
Definition WithResumeAppID (appID : string) : Option ResumeRequest := fun r =>
  inl (mkResumeRequest (zq_InstanceId r) (zq_Reason r) (routerWithTargetAppID (zq_Router r) appID)).
Definition WithRecursivePurge (recursive : bool) : Option PurgeInstancesRequest := fun r =>
  inl (mkPurgeInstancesRequest (pq_Request r) recursive (pq_Force r) (pq_Router r)).
Definition WithForcePurge (force : bool) : Option PurgeInstancesRequest := fun r =>
  inl (mkPurgeInstancesRequest (pq_Request r) (pq_Recursive r) (Some force) (pq_Router r)).
Definition WithPurgeAppID (appID : string) : Option PurgeInstancesRequest := fun r =>
  inl (mkPurgeInstancesRequest (pq_Request r) (pq_Recursive r) (pq_Force r) (routerWithTargetAppID (pq_Router r) appID)).

(** ** Metadata and its wire form *)

(** [createGetInstanceResponse] (backend/executor.go). *)
Definition createGetInstanceResponse (req : GetInstanceRequest) (md : WorkflowMetadata) : GetInstanceResponse :=
  let payload {X} (v : option X) : option X := if gi_GetInputsAndOutputs req then v else None in
  let hasParent := negb (String.eqb (md_ParentInstanceId md) "") in
  mkGetInstanceResponse true (Some (mkWorkflowState (gi_InstanceId req) (md_Name md) (md_Version md)
    (md_RuntimeStatus md) (md_CreatedAt md) (md_LastUpdatedAt md) (payload (md_Input md)) (payload (md_Output md))
    (payload (md_CustomStatus md)) (payload (md_FailureDetails md))
    (if hasParent then Some (md_ParentInstanceId md) else None) (if hasParent then md_ParentAppId md else None)
    (md_StartedAt md))).

(** [makeWorkflowMetadata] (client/client_grpc.go). *)
Definition makeWorkflowMetadata (resp : GetInstanceResponse) : WorkflowMetadata + error :=
  if negb (gr_Exists resp) then inr ErrInstanceNotFound
  else match gr_WorkflowState resp with
       | None => inr (errorNew "workflow state is nil")
       | Some st =>
           inl (mkWorkflowMetadata (st_InstanceId st) (st_Name st) (st_WorkflowStatus st) (st_CreatedTimestamp st)
             (st_LastUpdatedTimestamp st) (st_Input st) (st_Output st) (st_CustomStatus st) (st_FailureDetails st)
             (st_Version st) (GetValue (st_ParentInstanceId st)) (st_ParentAppId st) (st_StartedAt st) None)
       end.

(** [api.WorkflowMetadataIsComplete] of metadata. *)
Definition metadataIsComplete (md : WorkflowMetadata) : bool := statusIsComplete (md_RuntimeStatus md).
