(* ===== verification/Clients.v ===== *)
(** * Clients of a task hub (backend/client.go, backend/executor.go, client/client_grpc.go)

    A workflow is started, watched, signalled and purged either by the client in the
    process of the backend, or over gRPC: the gRPC client builds a request, the service
    methods of the executor carry it out.  Both work on the same backend, the class
    [TaskHub]; its laws are [TaskHubOk].  A call that blocks (watching a status) is a
    computation that returns the last metadata it has shown to the condition. *)

From stdpp Require Import base list option strings gmap.
From Stdlib Require Import ZArith Lia.
From S2P Require Import Prelude Errors Protos RuntimeState Propagation Helpers Backend Sqlite Requests.

(** ** The backend *)

Class TaskHub (S : Type) := {
  hub_CreateWorkflowInstance : option HistoryEvent -> bool -> M S error unit;
  hub_AddNewWorkflowEvent : string -> option HistoryEvent -> M S error unit;
  (** [ExternalEventDeliveryBackend], when the backend implements it *)
  hub_ExternalDelivery : option (string -> string -> string -> option HistoryEvent -> M S error unit);
  hub_GetWorkflowMetadata : string -> option TaskRouter -> M S error (option WorkflowMetadata);
  hub_WatchWorkflowRuntimeStatus :
    string -> option TaskRouter -> (WorkflowMetadata -> bool) -> M S error (option WorkflowMetadata);
  (** the purge driver of backend.go on this backend: the number of deleted instances *)
  hub_purge : string -> option TaskRouter -> bool -> bool -> M S error Z
}.

(** Reading and watching do not change the backend. *)
Class TaskHubOk (S : Type) `{TaskHub S} := {
  hub_get_pure : forall id router st, (hub_GetWorkflowMetadata id router st).1 = st;
  hub_watch_pure : forall id router cond st, (hub_WatchWorkflowRuntimeStatus id router cond st).1 = st
}.

(** [fmt.Errorf("msg: %w", err)] around the error of a call. *)
Definition wrapErr {S X} (msg : string) (m : M S error X) : M S error X := fun st =>
  match m st with
  | (st, Err err) => (st, Err (errorWrap msg err))
  | r => r
  end.

Section Clients.
Context {S : Type} `{HS : TaskHub S}.
(** [time.Now()] and fresh UUIDs at the call. *)
Variable now : Z.
Variables newInstanceID newExecutionID : string.

Definition newEvent (ty : HistoryEvent_EventType) (router : option TaskRouter) : option HistoryEvent :=
  Some (mkHistoryEvent (-1) (Some now) (Some ty) router).

Definition startEventOf (req : CreateInstanceRequest) (tc : option TraceContext) : option HistoryEvent :=
  newEvent (HistoryEvent_ExecutionStarted (mkExecutionStartedEvent (ci_Name req) None (ci_Input req)
    (Some (mkWorkflowInstance (ci_InstanceId req) (Some newExecutionID))) None (ci_ScheduledStartTimestamp req) tc None ∅))
    (ci_Router req).

Definition terminateEvent (req : TerminateRequest) : option HistoryEvent :=
  newEvent (HistoryEvent_ExecutionTerminated (mkExecutionTerminatedEvent (tq_Output req) (tq_Recursive req))) (tq_Router req).

Definition raisedEvent (req : RaiseEventRequest) : option HistoryEvent :=
  newEvent (HistoryEvent_EventRaised (mkEventRaisedEvent (rq_Name req) (rq_Input req))) (rq_Router req).

(** A reason that is empty is no reason. *)
Definition reasonInput (reason : string) : option string := if String.eqb reason "" then None else Some reason.

(** The router check every client makes, then the call. *)
Definition checked {X} (router : option TaskRouter) (m : M S error X) : M S error X :=
  match ValidateTaskRouter router with
  | Some err => throw err
  | None => m
  end.

(** [configure] all options, then go on. *)
Definition configured {Q X} (msg : string) (opts : list (Option Q)) (req : Q) (k : Q -> M S error X) : M S error X :=
  match configure opts req with
  | inr err => throw (errorWrap msg err)
  | inl req => k req
  end.

(** ** Service methods (backend/executor.go) *)

Definition GetInstance (req : GetInstanceRequest) : M S error GetInstanceResponse := fun st =>
  match hub_GetWorkflowMetadata (gi_InstanceId req) (gi_Router req) st with
  | (st, Ok (Some md)) => (st, Ok (createGetInstanceResponse req md))
  | (st, Ok None) => (st, Ok (mkGetInstanceResponse false None))
  | (st, Err err) => if errorsIs err ErrInstanceNotFound then (st, Ok (mkGetInstanceResponse false None)) else (st, Err err)
  | (st, Panic msg) => (st, Panic msg)
  end.

Definition PurgeInstances (req : PurgeInstancesRequest) : M S error Z :=
  match pq_Request req with
  | Purge_Filter => throw (errorNew "multi-instance purge is not implemented")
  | Purge_InstanceId id =>
      wrapErr "failed to purge workflow state"
        (count ← hub_purge id (pq_Router req) (pq_Recursive req) (default false (pq_Force req)); mret (int32_of count))
  end.

(** The event goes through the deduplicating delivery when the request has an id. *)
Definition deliverEvent (req : RaiseEventRequest) : M S error unit :=
  match rq_ExternalDeliveryId req with
  | Some deliveryID =>
      if String.eqb deliveryID "" then throw ErrEmptyExternalDeliveryID
      else match hub_ExternalDelivery with
           | None => throw ErrExternalDeliveryUnsupported
           | Some deliver => deliver (rq_InstanceId req) (rq_Name req) deliveryID (raisedEvent req)
           end
  | None => hub_AddNewWorkflowEvent (rq_InstanceId req) (raisedEvent req)
  end.

Definition RaiseEvent (req : RaiseEventRequest) : M S error unit := deliverEvent req.

Definition waitForInstance (req : GetInstanceRequest) (condition : WorkflowMetadata -> bool)
    : M S error GetInstanceResponse :=
  md ← hub_WatchWorkflowRuntimeStatus (gi_InstanceId req) (gi_Router req) condition;
  mret (match md with
        | None => mkGetInstanceResponse false None
        | Some md => createGetInstanceResponse req md
        end).

Definition isStarted (md : WorkflowMetadata) : bool := negb (bool_decide (md_RuntimeStatus md = PENDING)).
Definition isOrComplete (status : OrchestrationStatus) (md : WorkflowMetadata) : bool :=
  bool_decide (md_RuntimeStatus md = status) || metadataIsComplete md.

Definition WaitForInstanceCompletion (req : GetInstanceRequest) : M S error GetInstanceResponse :=
  waitForInstance req metadataIsComplete.
Definition WaitForInstanceStart (req : GetInstanceRequest) : M S error GetInstanceResponse :=
  waitForInstance req isStarted.

(** [remoteTrace] is what the tracer makes of the parent context of the request: the
    context of the new span, or an error. *)
Definition StartInstance (remoteTrace : option TraceContext -> option TraceContext + error)
    (skipWaitForInstanceStart : bool) (req : CreateInstanceRequest) : M S error string :=
  match remoteTrace (ci_ParentTraceContext req) with
  | inr _ => throw (errorNew "rpc error: code = InvalidArgument desc = invalid parent trace context")
  | inl tc => fun st =>
      match hub_CreateWorkflowInstance (startEventOf req tc) (ci_EnforceUniqueInstanceId req) st with
      | (st, Err err) =>
          (st, Err (if errorsIs err ErrDuplicateInstance then errorNew "rpc error: code = AlreadyExists"
                    else errorWrap "failed to create workflow instance" err))
      | (st, Panic msg) => (st, Panic msg)
      | (st, Ok _) =>
          (match ci_ScheduledStartTimestamp req, skipWaitForInstanceStart with
           | None, false =>
               WaitForInstanceStart (mkGetInstanceRequest (ci_InstanceId req) false (ci_Router req));; mret (ci_InstanceId req)
           | _, _ => mret (ci_InstanceId req)
           end) st
      end
  end.

Definition TerminateInstance (req : TerminateRequest) : M S error unit :=
  wrapErr "failed to submit termination request" (hub_AddNewWorkflowEvent (tq_InstanceId req) (terminateEvent req));;
  WaitForInstanceCompletion (mkGetInstanceRequest (tq_InstanceId req) false (tq_Router req));; mret tt.

Definition SuspendInstance (req : SuspendRequest) : M S error unit :=
  hub_AddNewWorkflowEvent (sq_InstanceId req)
    (newEvent (HistoryEvent_ExecutionSuspended (reasonInput (GetValue (sq_Reason req)))) (sq_Router req));;
  waitForInstance (mkGetInstanceRequest (sq_InstanceId req) false (sq_Router req)) (isOrComplete SUSPENDED);; mret tt.

Definition ResumeInstance (req : ResumeRequest) : M S error unit :=
  hub_AddNewWorkflowEvent (zq_InstanceId req)
    (newEvent (HistoryEvent_ExecutionResumed (reasonInput (GetValue (zq_Reason req)))) (zq_Router req));;
  waitForInstance (mkGetInstanceRequest (zq_InstanceId req) false (zq_Router req)) (isOrComplete RUNNING);; mret tt.

(** ** The client in the process (backend/client.go) *)

Definition fetchRequest (id : string) (opts : list FetchOption) : GetInstanceRequest + error :=
  let req := foldl (fun r (opt : FetchOption) => opt r) (mkGetInstanceRequest id false None) opts in
  match ValidateTaskRouter (gi_Router req) with
  | Some err => inr err
  | None => inl req
  end.

(** [tc] is the context of the span the client opens. *)
Definition ScheduleNewWorkflow (name : string) (opts : list (Option CreateInstanceRequest)) (tc : option TraceContext)
    : M S error string :=
  configured "failed to configure create instance request" opts
    (mkCreateInstanceRequest "" name None None None None false None) (fun req =>
    let id := if String.eqb (ci_InstanceId req) "" then newInstanceID else ci_InstanceId req in
    let req := mkCreateInstanceRequest id (ci_Name req) (ci_Version req) (ci_Input req) (ci_ScheduledStartTimestamp req)
                 (ci_ParentTraceContext req) (ci_EnforceUniqueInstanceId req) (ci_Router req) in
    checked (ci_Router req)
      (wrapErr "failed to start workflow"
         (hub_CreateWorkflowInstance (startEventOf req tc) (ci_EnforceUniqueInstanceId req));; mret id)).

Definition FetchWorkflowMetadata (id : string) (opts : list FetchOption) : M S error (option WorkflowMetadata) :=
  match fetchRequest id opts with
  | inr err => throw err
  | inl req => wrapErr "failed to fetch workflow metadata" (hub_GetWorkflowMetadata id (gi_Router req))
  end.

Definition waitForWorkflowCondition (id : string) (opts : list FetchOption) (condition : WorkflowMetadata -> bool)
    : M S error (option WorkflowMetadata) :=
  match fetchRequest id opts with
  | inr err => throw err
  | inl req => hub_WatchWorkflowRuntimeStatus id (gi_Router req) condition
  end.

Definition WaitForWorkflowStart (id : string) (opts : list FetchOption) : M S error (option WorkflowMetadata) :=
  waitForWorkflowCondition id opts isStarted.
Definition WaitForWorkflowCompletion (id : string) (opts : list FetchOption) : M S error (option WorkflowMetadata) :=
  waitForWorkflowCondition id opts metadataIsComplete.

Definition TerminateWorkflow (id : string) (opts : list (Option TerminateRequest)) : M S error unit :=
  configured "failed to configure termination request" opts (mkTerminateRequest id None true None) (fun req =>
    checked (tq_Router req)
      (wrapErr "failed to submit termination request:" (hub_AddNewWorkflowEvent id (terminateEvent req)))).

(** The client delivers to [id], whatever the options make of the request's id. *)
Definition clientRaiseEvent (id eventName : string) (opts : list (Option RaiseEventRequest)) : M S error unit :=
  configured "failed to configure raise event request" opts (mkRaiseEventRequest id eventName None None None) (fun req =>
    checked (rq_Router req)
      (wrapErr "failed to raise event"
        (deliverEvent (mkRaiseEventRequest id (rq_Name req) (rq_Input req) (rq_Router req) (rq_ExternalDeliveryId req))))).

Definition SuspendWorkflow (id reason : string) (opts : list (Option SuspendRequest)) : M S error unit :=
  let input := reasonInput reason in
  configured "failed to configure suspend request" opts (mkSuspendRequest id input None) (fun req =>
    checked (sq_Router req)
      (wrapErr "failed to suspend workflow"
        (hub_AddNewWorkflowEvent id (newEvent (HistoryEvent_ExecutionSuspended input) (sq_Router req))))).

Definition ResumeWorkflow (id reason : string) (opts : list (Option ResumeRequest)) : M S error unit :=
  let input := reasonInput reason in
  configured "failed to configure resume request" opts (mkResumeRequest id input None) (fun req =>
    checked (zq_Router req)
      (wrapErr "failed to resume workflow"
        (hub_AddNewWorkflowEvent id (newEvent (HistoryEvent_ExecutionResumed input) (zq_Router req))))).

Definition clientPurgeWorkflowState (id : string) (opts : list (Option PurgeInstancesRequest)) : M S error unit :=
  configured "failed to configure purge request" opts (mkPurgeInstancesRequest (Purge_InstanceId id) true None None) (fun req =>
    checked (pq_Router req)
      (wrapErr "failed to purge workflow state"
        (hub_purge id (pq_Router req) (pq_Recursive req) (default false (pq_Force req));; mret tt))).

(** ** The client over gRPC (client/client_grpc.go) *)

(** [ctxErr] is [ctx.Err()] after the call, [rpcError] what the stub returns for the
    error of a service method. *)
Variable ctxErr : option error.
Variable rpcError : error -> error.

Definition rpc {X} (msg : string) (m : M S error X) : M S error X := fun st =>
  match m st with
  | (st, Err err) => (st, Err (match ctxErr with Some e => e | None => errorWrap msg (rpcError err) end))
  | r => r
  end.

Definition makeGetInstanceRequest (id : string) (opts : list FetchOption) : GetInstanceRequest :=
  foldl (fun r (opt : FetchOption) => opt r) (mkGetInstanceRequest id true None) opts.

(** [spanContext] is the context of the caller's span, when there is one. *)
Definition grpcScheduleNewWorkflow (remoteTrace : option TraceContext -> option TraceContext + error) (skipWait : bool)
    (name : string) (opts : list (Option CreateInstanceRequest)) (spanContext : option TraceContext) : M S error string :=
  let req := configureAll opts (mkCreateInstanceRequest "" name None None None None false None) in
  let id := if String.eqb (ci_InstanceId req) "" then newInstanceID else ci_InstanceId req in
  let parent := match spanContext with Some tc => Some tc | None => ci_ParentTraceContext req end in
  checked (ci_Router req)
    (rpc "failed to start workflow"
      (StartInstance remoteTrace skipWait
        (mkCreateInstanceRequest id (ci_Name req) (ci_Version req) (ci_Input req) (ci_ScheduledStartTimestamp req)
           parent (ci_EnforceUniqueInstanceId req) (ci_Router req)))).

Definition lift {X} (r : X + error) : M S error X := match r with inl x => mret x | inr err => throw err end.

Definition grpcFetchWorkflowMetadata (id : string) (opts : list FetchOption) : M S error WorkflowMetadata :=
  let req := makeGetInstanceRequest id opts in
  checked (gi_Router req)
    (resp ← rpc "failed to fetch workflow metadata" (GetInstance req); lift (makeWorkflowMetadata resp)).

(** [backoff.Retry]: every error but the end of the context is retried; [attempts] is
    how many calls were made before the context ended. *)
Fixpoint retryUntilDone {X} (attempts : nat) (done : error) (m : M S error X) : M S error X :=
  match attempts with
  | O => throw done
  | Datatypes.S attempts => fun st =>
      match m st with
      | (st, Err _) => retryUntilDone attempts done m st
      | r => r
      end
  end.

Definition grpcWaitFor (attempts : nat) (done : error) (wait : GetInstanceRequest -> M S error GetInstanceResponse)
    (id : string) (opts : list FetchOption) : M S error WorkflowMetadata :=
  let req := makeGetInstanceRequest id opts in
  checked (gi_Router req) (resp ← retryUntilDone attempts done (wait req); lift (makeWorkflowMetadata resp)).

Definition grpcTerminateWorkflow (id : string) (opts : list (Option TerminateRequest)) : M S error unit :=
  configured "failed to configure termination request" opts (mkTerminateRequest id None true None) (fun req =>
    checked (tq_Router req) (rpc "failed to terminate instance" (TerminateInstance req))).

Definition grpcRaiseEvent (id eventName : string) (opts : list (Option RaiseEventRequest)) : M S error unit :=
  configured "failed to configure raise event request" opts (mkRaiseEventRequest id eventName None None None) (fun req =>
    checked (rq_Router req) (rpc "failed to raise event" (RaiseEvent req))).

Definition grpcSuspendWorkflow (id reason : string) (opts : list (Option SuspendRequest)) : M S error unit :=
  configured "failed to configure suspend request" opts (mkSuspendRequest id (Some reason) None) (fun req =>
    checked (sq_Router req) (rpc "failed to suspend workflow" (SuspendInstance req))).

Definition grpcResumeWorkflow (id reason : string) (opts : list (Option ResumeRequest)) : M S error unit :=
  configured "failed to configure resume request" opts (mkResumeRequest id (Some reason) None) (fun req =>
    checked (zq_Router req) (rpc "failed to resume workflow" (ResumeInstance req))).

Definition grpcPurgeWorkflowState (id : string) (opts : list (Option PurgeInstancesRequest)) : M S error unit :=
  configured "failed to configure purge request" opts (mkPurgeInstancesRequest (Purge_InstanceId id) false None None) (fun req =>
    checked (pq_Router req)
      (count ← rpc "failed to purge workflow state" (PurgeInstances req);
       if count =? 0 then throw ErrInstanceNotFound else mret tt)).

End Clients.
