(* ===== verification/ClientTheorems.v ===== *)
(** * The clients agree, and the SQLite backend as a task hub

    The two clients issue the same changes to the backend; metadata survives its way
    over the wire; a scheduled workflow is found again.  [sqliteHub] is the backend of
    the repository as an instance of [TaskHub]. *)

From stdpp Require Import base list option strings gmap sets.
From Stdlib Require Import ZArith Lia.
From S2P Require Import Prelude Errors Protos RuntimeState Propagation Helpers Backend Sqlite Requests Clients.
From S2P Require Import SqliteCorrect SqliteCommit.

(** ** Watching a status (sqlite.go, WatchWorkflowRuntimeStatus) *)

(** [polls]: what the reads of the loop return, in order, until the context ends; the
    last metadata shown to [fn], and the error. *)
Fixpoint watchLoop (fn : WorkflowMetadata -> bool) (polls : list (WorkflowMetadata + error)) (last : option WorkflowMetadata)
    : option WorkflowMetadata * option error :=
  match polls with
  | [] => (last, Some ContextCanceled)
  | inr err :: _ => (last, Some err)
  | inl md :: rest => if fn md then (Some md, None) else watchLoop fn rest (Some md)
  end.

Definition WatchWorkflowRuntimeStatus (router : option TaskRouter) (fn : WorkflowMetadata -> bool)
    (polls : list (WorkflowMetadata + error)) : option WorkflowMetadata * option error :=
  if negb (String.eqb (GetTargetAppID router) "")
  then (None, Some (errorNew "sqlite backend does not support cross-app workflow status watch"))
  else watchLoop fn polls None.

(** A watch that succeeds ends at the first read that meets the condition. *)
Lemma watchLoop_first fn polls last md :
  watchLoop fn polls last = (md, None) ->
  exists before m rest, polls = before ++ inl m :: rest /\ md = Some m /\ fn m = true /\
    Forall (fun p => exists m', p = inl m' /\ fn m' = false) before.
Proof.
  revert last. induction polls as [|[m|err] polls IH]; intros last; cbn; [done | | done].
  destruct (fn m) eqn:E; [intros [= <-]; by exists [], m, polls |].
  intros (before & m' & rest & -> & -> & Hm & Hb)%IH. exists (inl m :: before), m', rest.
  split_and!; try done. constructor; eauto.
Qed.

(** ** The clients issue the same changes *)

(** The option leaves [f] of the request alone. *)
Definition preserves {Q X} (f : Q -> X) (opt : Option Q) : Prop := forall r r', opt r = inl r' -> f r' = f r.

Lemma configure_preserves {Q X} (f : Q -> X) opts r r' :
  Forall (preserves f) opts -> configure opts r = inl r' -> f r' = f r.
Proof.
  intros Ho. revert r. induction Ho as [|opt opts Hopt Ho IH]; intros r; cbn; [by intros [= ->] |].
  destruct (opt r) as [r1|] eqn:E; [| done]. intros H. rewrite (IH r1 H). by apply Hopt.
Qed.

(** The options of suspending and resuming work on the router. *)
Definition suspendRouting (opt : Option SuspendRequest) : Prop := exists f, forall r, opt r =
  match f (sq_Router r) with inl x => inl (mkSuspendRequest (sq_InstanceId r) (sq_Reason r) x) | inr err => inr err end.
Definition resumeRouting (opt : Option ResumeRequest) : Prop := exists f, forall r, opt r =
  match f (zq_Router r) with inl x => inl (mkResumeRequest (zq_InstanceId r) (zq_Reason r) x) | inr err => inr err end.

Lemma configure_suspend opts id r1 r2 router :
  Forall suspendRouting opts ->
  match configure opts (mkSuspendRequest id r1 router), configure opts (mkSuspendRequest id r2 router) with
  | inl q1, inl q2 => sq_InstanceId q1 = id /\ sq_InstanceId q2 = id /\ sq_Reason q2 = r2 /\ sq_Router q1 = sq_Router q2
  | inr e1, inr e2 => e1 = e2
  | _, _ => False
  end.
Proof.
  intros Ho. revert router. induction Ho as [|opt opts [f Hf] Ho IH]; intros router; cbn; [done |].
  rewrite !Hf. cbn. destruct (f router); [apply IH | done].
Qed.

Lemma configure_resume opts id r1 r2 router :
  Forall resumeRouting opts ->
  match configure opts (mkResumeRequest id r1 router), configure opts (mkResumeRequest id r2 router) with
  | inl q1, inl q2 => zq_InstanceId q1 = id /\ zq_InstanceId q2 = id /\ zq_Reason q2 = r2 /\ zq_Router q1 = zq_Router q2
  | inr e1, inr e2 => e1 = e2
  | _, _ => False
  end.
Proof.
  intros Ho. revert router. induction Ho as [|opt opts [f Hf] Ho IH]; intros router; cbn; [done |].
  rewrite !Hf. cbn. destruct (f router); [apply IH | done].
Qed.

Section Agree.
Context {S : Type} `{HS : TaskHub S} {HO : TaskHubOk S}.
Variable now : Z.
Variable ctxErr : option error.
Variable rpcError : error -> error.

(** The second computation ends in the state of the first, and does not succeed where
    the first fails. *)
Definition follows {X Y} (m : M S error X) (m' : M S error Y) : Prop :=
  forall st, (m' st).1 = (m st).1 /\ (is_Ok (m' st).2 = true -> is_Ok (m st).2 = true).

Lemma follows_configured {Q X Y} msg (opts : list (Option Q)) req (k : Q -> M S error X) (k' : Q -> M S error Y) :
  (forall req', configure opts req = inl req' -> follows (k req') (k' req')) ->
  follows (configured msg opts req k) (configured msg opts req k').
Proof. intros Hk st. unfold configured. destruct (configure opts req); [by apply Hk | done]. Qed.

Lemma follows_checked {X Y} router (m : M S error X) (m' : M S error Y) :
  follows m m' -> follows (checked router m) (checked router m').
Proof. intros H st. unfold checked. by destruct (ValidateTaskRouter router). Qed.

Lemma follows_wrap {X Y} msg (m : M S error X) (m' : M S error Y) : follows m m' -> follows (wrapErr msg m) m'.
Proof. intros H st. specialize (H st). unfold wrapErr. by destruct (m st) as [? []]. Qed.

Lemma follows_rpc {X Y} msg (m : M S error X) (m' : M S error Y) :
  follows m m' -> follows m (rpc ctxErr rpcError msg m').
Proof. intros H st. specialize (H st). unfold rpc. by destruct (m' st) as [? []]. Qed.

Lemma follows_then {X Y} (m : M S error X) (m' : M S error X) (k : X -> M S error Y) :
  follows m m' -> (forall x st, (k x st).1 = st) -> follows m (m' ≫= k).
Proof.
  intros H Hk st. specialize (H st). unfold mbind, M_bind. destruct (m' st) as [st1 [x | |]]; [| done..].
  cbn in *. rewrite Hk. destruct H as [H1 H2]. split; [done |]. intros _. by apply H2.
Qed.

Lemma follows_refl {X} (m : M S error X) : follows m m.
Proof. by intros st. Qed.

Lemma waitForInstance_pure {X} req cond (x : X) st : ((waitForInstance req cond;; mret x) st).1 = st.
Proof.
  unfold waitForInstance, mbind, M_bind, mret, M_ret. pose proof (hub_watch_pure (gi_InstanceId req) (gi_Router req) cond st) as H.
  by destruct (hub_WatchWorkflowRuntimeStatus _ _ _ st) as [st1 [md | |]].
Qed.


End Agree.

(** ** Scheduling, over any backend *)

(** The wire form keeps metadata of the requested instance. *)
Lemma metadata_over_wire id md :
  md_InstanceId md = id -> (md_ParentInstanceId md = "" -> md_ParentAppId md = None) -> md_CompletedAt md = None ->
  makeWorkflowMetadata (createGetInstanceResponse (mkGetInstanceRequest id true None) md) = inl md.
Proof.
  intros <- Hp Hc. destruct md as [i n rs c l inp out cs fd v pid pa sa ca]. cbn in *. subst ca.
  destruct (String.eqb_spec pid "") as [-> | Hne]; cbn; [by rewrite Hp | done].
Qed.

(** What a backend promises about new instances: which ids are taken, that a free one can be
    taken while the tables are well-formed and have room, what is then read back, and that a
    taken one is refused without a visible change. *)
Class Schedules (S : Type) `{HC : ProtoCodec} `{HS : TaskHub S} := {
  hub_wf : S -> Prop;
  hub_room : S -> Prop;
  hub_taken : S -> string -> Prop;
  hub_same : S -> S -> Prop;
  hub_pending : HistoryEvent -> ExecutionStartedEvent -> WorkflowInstance -> WorkflowMetadata;
  pending_id : forall e es wi, md_InstanceId (hub_pending e es wi) = wi_InstanceId wi;
  pending_parent : forall e es wi, md_ParentAppId (hub_pending e es wi) = None;
  pending_completed : forall e es wi, md_CompletedAt (hub_pending e es wi) = None;
  create_free : forall e es wi payload reuse st,
    GetExecutionStarted e = Some es -> es_WorkflowInstance es = Some wi -> Timestamp e <> None -> MarshalHistoryEvent e = inl payload ->
    hub_wf st -> hub_room st -> ~ hub_taken st (wi_InstanceId wi) ->
    exists st', hub_CreateWorkflowInstance (Some e) reuse st = (st', Ok tt) /\ hub_taken st' (wi_InstanceId wi) /\
      hub_GetWorkflowMetadata (wi_InstanceId wi) None st' = (st', Ok (Some (hub_pending e es wi)));
  create_taken : forall e es wi reuse st,
    GetExecutionStarted e = Some es -> es_WorkflowInstance es = Some wi -> Timestamp e <> None ->
    hub_room st -> hub_taken st (wi_InstanceId wi) ->
    exists st', hub_CreateWorkflowInstance (Some e) reuse st = (st', Err ErrDuplicateInstance) /\ hub_same st st'
}.

Section Scheduling.
Context {S : Type} `{HSch : Schedules S}.
Variables (now : Z) (nid xid id name : string) (input : option string) (tc : option TraceContext).
Hypothesis Hid : id <> "".

Definition startRequest : CreateInstanceRequest := mkCreateInstanceRequest id name None input None None false None.
Definition startInstance : WorkflowInstance := mkWorkflowInstance id (Some xid).
Definition startPayload : ExecutionStartedEvent :=
  mkExecutionStartedEvent name None input (Some startInstance) None None tc None ∅.
Definition startOf : HistoryEvent := mkHistoryEvent (-1) (Some now) (Some (HistoryEvent_ExecutionStarted startPayload)) None.

(** The metadata a scheduled workflow has. *)
Definition scheduledMetadata : WorkflowMetadata := hub_pending startOf startPayload startInstance.

Lemma schedule_calls unique st :
  ScheduleNewWorkflow now nid xid name ([WithInstanceID id; WithRawInput input] ++ (if unique : bool then [WithEnforceUniqueInstanceID] else [])) tc st =
  (wrapErr "failed to start workflow" (hub_CreateWorkflowInstance (Some startOf) unique);; mret id) st.
Proof.
  apply String.eqb_neq in Hid. unfold ScheduleNewWorkflow, configured. destruct unique; cbn; rewrite Hid; reflexivity.
Qed.

(** A free id: the workflow is there for both clients. *)
Lemma schedule_found ctxErr rpcError payload st :
  MarshalHistoryEvent startOf = inl payload -> hub_wf st -> hub_room st -> ~ hub_taken st id ->
  exists st', ScheduleNewWorkflow now nid xid name [WithInstanceID id; WithRawInput input] tc st = (st', Ok id) /\
    FetchWorkflowMetadata id [] st' = (st', Ok (Some scheduledMetadata)) /\
    grpcFetchWorkflowMetadata ctxErr rpcError id [] st' = (st', Ok scheduledMetadata) /\ hub_taken st' id.
Proof.
  intros Hm Hw Hr Hf. destruct (create_free startOf startPayload startInstance payload false st) as (st' & Hc & Ht & Hg); [done.. |].
  exists st'. cbn in Ht, Hg. split_and!; [| | | done].
  - rewrite (schedule_calls false). unfold mbind, M_bind, wrapErr. by rewrite Hc.
  - unfold FetchWorkflowMetadata. cbn. unfold wrapErr. by rewrite Hg.
  - unfold grpcFetchWorkflowMetadata, checked. cbn. unfold mbind, M_bind, rpc, GetInstance. cbn. rewrite Hg.
    by rewrite (metadata_over_wire id) by (apply pending_id || apply pending_completed || intros; apply pending_parent).
Qed.

(** A taken id, by this instance or by one of any status. *)
Lemma schedule_refused unique st :
  hub_room st -> hub_taken st id -> exists st',
    ScheduleNewWorkflow now nid xid name ([WithInstanceID id; WithRawInput input] ++ (if unique : bool then [WithEnforceUniqueInstanceID] else [])) tc st =
      (st', Err (errorWrap "failed to start workflow" ErrDuplicateInstance)) /\ hub_same st st'.
Proof.
  intros Hr Ht. destruct (create_taken startOf startPayload startInstance unique st) as (st' & Hc & Hs); [done.. |].
  exists st'. split; [| done]. rewrite schedule_calls. unfold mbind, M_bind, wrapErr. by rewrite Hc.
Qed.
End Scheduling.

(** ** The SQLite backend as a task hub *)

Section SqliteHub.
Context `{HC : ProtoCodec} `{HF : FailureCodec} `{HM : MapRange}.

#[local] Instance sqlitePurgeStore : PurgeBackend Sqlite := {|
  be_GetWorkflowRuntimeState st id := GetWorkflowRuntimeState id st;
  be_PurgeWorkflowState st id r recursive force := PurgeWorkflowState id r recursive force st
|}.

(** [clock] is the time of the call; a watch reads [polls] times before its context
    ends; the recursive purge has [fuel]. *)
Definition sqliteHub (clock : Z) (polls fuel : nat) : TaskHub Sqlite := {|
  hub_CreateWorkflowInstance e _ := CreateWorkflowInstance clock e;
  hub_AddNewWorkflowEvent iid e := AddNewWorkflowEvent iid e;
  hub_ExternalDelivery := Some (fun iid name deliveryID e => AddNewWorkflowEventWithExternalDelivery iid name deliveryID e);
  hub_GetWorkflowMetadata iid router be := (be, match GetWorkflowMetadata iid router be with inl md => Ok (Some md) | inr err => Err err end);
  hub_WatchWorkflowRuntimeStatus iid router cond be :=
    (be, match WatchWorkflowRuntimeStatus router cond (replicate polls (GetWorkflowMetadata iid None be)) with
         | (md, None) => Ok md
         | (_, Some err) => Err err
         end);
  hub_purge iid router recursive force be :=
    match purgeWorkflowState fuel be iid router recursive force with
    | Some (be, n, None) => (be, Ok n)
    | Some (be, _, Some err) => (be, Err err)
    | None => (be, Panic "stack overflow")
    end
|}.

#[local] Existing Instance sqliteHub.

#[local] Instance sqliteHubOk clock polls fuel : TaskHubOk Sqlite (H := sqliteHub clock polls fuel).
Proof. by split. Qed.

(** The row a new instance gets. *)
Definition pendingRow (clock : Z) (e : HistoryEvent) (es : ExecutionStartedEvent) (wi : WorkflowInstance) : InstanceRow :=
  mkInstanceRow (wi_InstanceId wi) (GetValue (wi_ExecutionId wi)) (es_Name es) (Some (GetValue (es_Version es))) "PENDING"
    (AsTime (Timestamp e)) (currentTimestamp clock) None None None (Some (GetValue (es_Input es))) None None None.

Lemma find_snoc {R} (p : R -> bool) rows r : List.find p rows = None -> p r = true -> List.find p (rows ++ [r]) = Some r.
Proof.
  intros Hn Hr. induction rows as [|x rows IH]; cbn in *; [by rewrite Hr |]. destruct (p x); [done | by apply IH].
Qed.

Lemma create_row clock e es wi db payload :
  GetExecutionStarted e = Some es -> es_WorkflowInstance es = Some wi -> Timestamp e <> None ->
  findInstance db (wi_InstanceId wi) = None -> MarshalHistoryEvent e = inl payload ->
  exists db', CreateWorkflowInstance clock (Some e) (Some db) = (Some db', Ok tt) /\ History db' = History db /\
    findInstance db' (wi_InstanceId wi) = Some (pendingRow clock e es wi).
Proof.
  intros He Hwi Ht Hf Hm. unfold CreateWorkflowInstance, transact, createWorkflowInstanceInternal.
  destruct (Timestamp e) as [t|] eqn:Et; [| done]. rewrite He. unfold mbind, M_bind. rewrite Hwi. cbn.
  unfold insertOrIgnoreInstance. rewrite Hf. cbn. rewrite Hm. cbn. eexists. split_and!; [done | done |].
  unfold findInstance in *. cbn. unfold pendingRow. rewrite Et. apply find_snoc; [done |]. cbn. apply String.eqb_refl.
Qed.

Lemma create_duplicate clock e es wi db r :
  GetExecutionStarted e = Some es -> es_WorkflowInstance es = Some wi -> Timestamp e <> None ->
  findInstance db (wi_InstanceId wi) = Some r ->
  CreateWorkflowInstance clock (Some e) (Some db) = (Some db, Err ErrDuplicateInstance).
Proof.
  intros He Hwi Ht Hf. unfold CreateWorkflowInstance, transact, createWorkflowInstanceInternal.
  destruct (Timestamp e); [| done]. rewrite He. unfold mbind, M_bind. rewrite Hwi. cbn.
  unfold insertOrIgnoreInstance. by rewrite Hf.
Qed.

(** An instance without a history is read back from its row. *)
Lemma pending_metadata clock e es wi db :
  findInstance db (wi_InstanceId wi) = Some (pendingRow clock e es wi) -> ownHistory db (wi_InstanceId wi) = [] ->
  GetWorkflowMetadata (wi_InstanceId wi) None (Some db) = inl
    (mkWorkflowMetadata (wi_InstanceId wi) (es_Name es) PENDING (AsTime (Timestamp e)) (currentTimestamp clock)
       (Some (GetValue (es_Input es))) None None None (Some (GetValue (es_Version es))) "" None None None).
Proof.
  intros Hf Hh. unfold GetWorkflowMetadata. cbn. rewrite Hf. cbn.
  unfold getStartedAt, getStartEvent, historyPayloads. unfold ownHistory in Hh. by rewrite Hh.
Qed.

Lemma no_history db id : db_wf db -> findInstance db id = None -> ownHistory db id = [].
Proof.
  intros Hw Hf%findInstance_None. unfold ownHistory. destruct (List.filter _ _) as [|h l] eqn:E; [done |].
  assert (In h (List.filter (fun r => String.eqb (hr_InstanceID r) id) (History db))) as Hh by (rewrite E; by left).
  apply List.filter_In in Hh as [Hh Hid]. apply String.eqb_eq in Hid. destruct Hf. rewrite <- Hid.
  apply (wf_owner _ Hw). by apply list_elem_of_In.
Qed.

#[local] Arguments CreateWorkflowInstance : simpl never.
#[local] Arguments GetWorkflowMetadata : simpl never.

(** The hub of an open database: an id is taken by a row of Instances. *)
#[local] Instance sqliteSchedules clock polls fuel : Schedules Sqlite (HS := sqliteHub clock polls fuel).
Proof.
  refine {|
    hub_wf be := exists db, be = Some db /\ db_wf db;
    hub_room _ := True;
    hub_taken be id := exists db row, be = Some db /\ findInstance db id = Some row;
    hub_same := eq;
    hub_pending e es wi := mkWorkflowMetadata (wi_InstanceId wi) (es_Name es) PENDING (AsTime (Timestamp e)) (currentTimestamp clock)
       (Some (GetValue (es_Input es))) None None None (Some (GetValue (es_Version es))) "" None None None |}; [done | done | done | |].
  - intros e es wi payload reuse st He Hwi Ht Hm (db & -> & Hw) _ Hfree.
    assert (findInstance db (wi_InstanceId wi) = None) as Hf by (destruct (findInstance db (wi_InstanceId wi)) eqn:E; [destruct Hfree; eauto | done]).
    destruct (create_row clock e es wi db payload He Hwi Ht Hf Hm) as (db' & Hc & Hh & Hf').
    exists (Some db'). split_and!; [done | eauto |]. cbn. erewrite pending_metadata; [done | done |]. unfold ownHistory in *.
    rewrite Hh. by apply no_history.
  - intros e es wi reuse st He Hwi Ht _ (db & row & -> & Hf). exists (Some db). split; [by eapply create_duplicate | done].
Defined.

(** C21. A workflow that was scheduled is found: scheduling a new instance on the SQLite
    backend succeeds, both clients then read back its id, name, input, creation time and
    the status PENDING.  Scheduling an id that is taken, by this instance or by one of
    any status, fails as a duplicate and changes nothing, whether or not a unique id was
    asked for. *)
Theorem scheduled_workflow_is_found clock polls fuel now nid xid ctxErr rpcError id name input tc payload db :
  let hub := sqliteHub clock polls fuel in
  let schedule name input opts := ScheduleNewWorkflow (HS := hub) now nid xid name ([WithInstanceID id; WithRawInput input] ++ opts) tc in
  let md := mkWorkflowMetadata id name PENDING now (currentTimestamp clock) (Some (GetValue input)) None None None (Some "") "" None None None in
  db_wf db -> findInstance db id = None -> id <> "" ->
  (forall e, startEventOf now xid (mkCreateInstanceRequest id name None input None None false None) tc = Some e ->
    MarshalHistoryEvent e = inl payload) ->
  exists db', schedule name input [] (Some db) = (Some db', Ok id) /\
    FetchWorkflowMetadata (HS := hub) id [] (Some db') = (Some db', Ok (Some md)) /\
    grpcFetchWorkflowMetadata (HS := hub) ctxErr rpcError id [] (Some db') = (Some db', Ok md) /\
    findInstance db' id <> None /\
    forall db2 row name' input' (unique : bool), findInstance db2 id = Some row ->
      schedule name' input' (if unique then [WithEnforceUniqueInstanceID] else []) (Some db2) =
      (Some db2, Err (errorWrap "failed to start workflow" ErrDuplicateInstance)).
Proof.
  intros hub schedule md Hw Hf Hid Hm.
  destruct (schedule_found (HSch := sqliteSchedules clock polls fuel) now nid xid id name input tc Hid ctxErr rpcError payload (Some db))
    as (be' & H1 & H2 & H3 & db' & row & -> & Hrow); [by apply Hm | by exists db | done | by intros (db0 & r & [= <-] & ?); congruence |].
  exists db'. split_and!; [done.. | by rewrite Hrow |]. intros db2 row2 name' input' unique Hrow2.
  destruct (schedule_refused (HSch := sqliteSchedules clock polls fuel) now nid xid id name' input' tc Hid unique (Some db2))
    as (st' & H & <-); [done | by exists db2, row2 | exact H].
Qed.
End SqliteHub.

(** ** Concrete hubs *)

Definition firstStart : option HistoryEvent :=
  startEventOf 7 "x1" (mkCreateInstanceRequest "wf1" "wf" None (Some "in") None None false None) None.

#[local] Instance startCodec : ProtoCodec := catalogCodec (option_list firstStart).
#[local] Instance noFailureCodec : FailureCodec := {|
  MarshalFailure _ := inr (errorNew "unsupported");
  UnmarshalFailure _ := inr (errorNew "unsupported")
|}.
#[local] Instance rowRange : MapRange := {| mapRange := map_to_list; mapRange_perm := fun _ => reflexivity _ |}.

Definition someHub : TaskHub Sqlite := sqliteHub 1500000000 3 5.


Lemma scheduled_workflow_is_found_witness :
  exists db', ScheduleNewWorkflow (HS := someHub) 7 "n1" "x1" "wf" [WithInstanceID "wf1"; WithRawInput (Some "in")] None (Some emptyDB)
      = (Some db', Ok "wf1") /\
    exists md, grpcFetchWorkflowMetadata (HS := someHub) None id "wf1" [] (Some db') = (Some db', Ok md) /\
      md_Input md = Some "in" /\ md_CreatedAt md = 7 /\ md_LastUpdatedAt md = 1000000000.
Proof.
  destruct (scheduled_workflow_is_found 1500000000 3 5 7 "n1" "x1" None id "wf1" "wf" (Some "in") None
    (String Ascii.zero "") emptyDB) as (db' & H1 & H2 & H3 & _); [apply db_wf_empty | done | done | by intros e [= <-] |].
  exists db'. split; [exact H1 |]. eexists. split; [exact H3 | done].
Defined.
