(* ===== verification/PgTables.v ===== *)
(** * PostgreSQL: tables, statements, transactions (backend/postgres/schema.sql, postgres.go)

    A database is a finite map from primary keys to rows.  Each SQL statement the
    backend runs is a value of [Stmt], with what it returns as [answer]; [exec] is its
    effect on the tables a transaction sees: the rows it writes, the rows it locks, the
    numbers it draws from sequences.  A transaction is a program over statements ([Tx]),
    so that it can be run alone ([runTx]) and interleaved with others (PgConcurrent.v).

    What is used of PostgreSQL: a TIMESTAMP column keeps microseconds; a SERIAL column
    draws from a 32-bit sequence that a rollback does not reset; an UPDATE with RETURNING
    and a SELECT without ORDER BY return rows in any order; the driver sends at most
    65535 parameters with a statement.  A statement that fails ends its transaction. *)

From stdpp Require Import base list option strings gmap sets.
From Stdlib Require Import ZArith Lia Eqdep_dec.
From S2P Require Import Prelude Errors Protos Propagation Helpers Sqlite.

(** ** Keys and rows *)

Inductive Key :=
| KInstance (id : string)
| KHistory (id : string) (seq : Z)
| KEvent (seq : Z)
| KDelivery (id name delivery : string)
| KTask (seq : Z).

#[global] Instance Key_eq_dec : EqDecision Key.
Proof. solve_decision. Defined.

#[global] Program Instance Key_countable : Countable Key := inj_countable
  (fun k => match k with
    | KInstance id => inl id
    | KHistory id n => inr (inl (id, n))
    | KEvent n => inr (inr (inl n))
    | KDelivery id name d => inr (inr (inr (inl (id, name, d))))
    | KTask n => inr (inr (inr (inr n)))
    end)
  (fun c => Some match c with
    | inl id => KInstance id
    | inr (inl (id, n)) => KHistory id n
    | inr (inr (inl n)) => KEvent n
    | inr (inr (inr (inl (id, name, d)))) => KDelivery id name d
    | inr (inr (inr (inr n))) => KTask n
    end) _.
Next Obligation. by intros []. Qed.

(** The rows of Instances have a SERIAL number besides their key. *)
Inductive Row :=
| RInstance (seq : Z) (r : InstanceRow)
| RHistory (payload : string)
| REvent (r : NewEventRow)
| RDelivery
| RTask (r : NewTaskRow).

Abbreviation PgDB := (gmap Key Row).

(** What a transaction has written: new versions, [None] for a deleted row. *)
Abbreviation Writes := (gmap Key (option Row)).

Definition overlay (w : Writes) (db : PgDB) : PgDB :=
  merge (fun v r => match v with Some v => v | None => r end) w db.

Lemma overlay_lookup w db k :
  overlay w db !! k = match w !! k with Some v => v | None => db !! k end.
Proof. unfold overlay. rewrite lookup_merge. by destruct (w !! k) as [[]|], (db !! k). Qed.

Lemma overlay_empty db : overlay ∅ db = db.
Proof. apply map_eq. intros k. by rewrite overlay_lookup, lookup_empty. Qed.

Lemma overlay_overlay w' w db : overlay w' (overlay w db) = overlay (w' ∪ w) db.
Proof.
  apply map_eq. intros k. rewrite !overlay_lookup, lookup_union.
  by destruct (w' !! k) as [v|] eqn:E, (w !! k) as [v'|] eqn:E'; cbn; rewrite ?E.
Qed.

(** ** Types of columns *)

(** [TIMESTAMP] *)
Definition pgTime (t : Z) : Z := t / 1000 * 1000.

(** [SERIAL]: the next value of each sequence. *)
Record Seqs := mkSeqs {
  sq_Instances : Z;
  sq_NewEvents : Z;
  sq_NewTasks : Z
}.
Definition firstSeqs : Seqs := mkSeqs 1 1 1.
Definition serialMax : Z := int32_max.

Definition maxParams : nat := 65535.

(** ** Selecting rows *)

Definition instancesIn (db : PgDB) : list (string * (Z * InstanceRow)) :=
  omap (fun kr => match kr with (KInstance id, RInstance n r) => Some (id, (n, r)) | _ => None end) (map_to_list db).

Definition eventsIn (db : PgDB) : list NewEventRow :=
  omap (fun kr => match kr with (KEvent _, REvent e) => Some e | _ => None end) (map_to_list db).

Definition tasksIn (db : PgDB) : list NewTaskRow :=
  omap (fun kr => match kr with (KTask _, RTask t) => Some t | _ => None end) (map_to_list db).

Definition historyIn (db : PgDB) (id : string) : list (Z * string) :=
  omap (fun kr => match kr with
                  | (KHistory id' n, RHistory p) => if String.eqb id' id then Some (n, p) else None
                  | _ => None end) (map_to_list db).

(** [SELECT EventPayload FROM History WHERE InstanceID = $1 ORDER BY SequenceNumber] *)
Definition historyPayloads (db : PgDB) (id : string) : list string :=
  map snd (orderBy fst (historyIn db id)).

Definition instanceAt (db : PgDB) (id : string) : option (Z * InstanceRow) :=
  match db !! KInstance id with Some (RInstance n r) => Some (n, r) | _ => None end.

(** ** Statements *)

Inductive Stmt :=
(* Instances *)
| SUpdateInstance (id token : string) (u : InstanceUpdate) (status : string) (custom : option string) (now : Z)
| SReleaseInstance (id token : string)
| SLeaseInstance (token : string) (expiration now : Z)
| SInsertInstance (row : InstanceRow)
| SExistsInstance (id : string)
| SSelectInstance (id : string)
| SSelectForUpdate (id : string)
| SListInstances
| SDeleteInstance (id : string) (requireCompleted : bool)
(* History *)
| SSelectHistory (id : string)
| SInsertHistory (id : string) (first : Z) (payloads : list string)
| SDeleteHistory (id : string)
(* NewEvents *)
| SInsertEvents (rows : list (string * string * option Z * option string))
| SLeaseEvents (token id : string) (now : Z)
| SReleaseEvents (id token : string) (visible : option Z)
| SSelectOthersEvents (id token : string)
| SDeleteEvent (n : Z)
| SDeleteLeased (id : string) (n : Z) (token : string)
| SDeleteInbound (id token : string)
| SDeleteEvents (id : string)
(* ExternalEventDeliveries *)
| SInsertDelivery (id name delivery : string)
| SDeleteDeliveries (id : string)
(* NewTasks *)
| SInsertTasks (id : string) (payloads : list string)
| SLeaseTask (token : string) (expiration now : Z)
| SReleaseTask (n : Z) (token : string)
| SDeleteTask (n : Z) (token : string)
| SDeleteTasks (id : string).

Definition answer (s : Stmt) : Type :=
  match s with
  | SUpdateInstance _ _ _ _ _ _ | SReleaseInstance _ _ | SInsertInstance _ | SDeleteInstance _ _
  | SReleaseEvents _ _ _ | SDeleteInbound _ _ | SInsertDelivery _ _ _ | SReleaseTask _ _ | SDeleteTask _ _ => nat
  | SLeaseInstance _ _ _ => option (string * string)
  | SExistsInstance _ => bool
  | SSelectInstance _ => option InstanceRow
  | SSelectForUpdate _ => option string
  | SListInstances | SSelectHistory _ => list string
  | SLeaseEvents _ _ _ => list NewEventRow
  | SSelectOthersEvents _ _ => list (Z * string)
  | SLeaseTask _ _ _ => option (Z * string * string)
  | _ => unit
  end.

(** Rows written, rows locked beyond those ([FOR UPDATE]), and the result. *)
Record Effect (A : Type) := mkEffect {
  ef_writes : Writes;
  ef_locks : gset Key;
  ef_answer : A
}.
Arguments mkEffect {A} _ _ _.
Arguments ef_writes {A} _.
Arguments ef_locks {A} _.
Arguments ef_answer {A} _.

Definition reads {A} (a : A) : Effect A := mkEffect ∅ ∅ a.

(** [UPDATE ... WHERE] and [DELETE ... WHERE]: [f] gives the new version of a row that
    is affected. *)
Definition updating {A} (f : Key -> Row -> option (option Row)) (db : PgDB) (a : nat -> A) : Effect A :=
  let w := map_imap f db in mkEffect w ∅ (a (size w)).

Definition deleting {A} (p : Key -> Row -> bool) (db : PgDB) (a : nat -> A) : Effect A :=
  updating (fun k r => if p k r then Some None else None) db a.

Definition isKey (k' k : Key) (_ : Row) : bool := bool_decide (k = k').
Definition isHistoryOf (id : string) (k : Key) (_ : Row) : bool :=
  match k with KHistory id' _ => String.eqb id' id | _ => false end.
Definition isEventOf (id : string) (k : Key) (r : Row) : bool :=
  match k, r with KEvent _, REvent e => String.eqb (ne_InstanceID e) id | _, _ => false end.
Definition isLeasedEvent (id token : string) (k : Key) (r : Row) : bool :=
  match k, r with
  | KEvent _, REvent e => String.eqb (ne_InstanceID e) id && sqlEq (ne_LockedBy e) token
  | _, _ => false
  end.
Definition isDeliveryOf (id : string) (k : Key) (_ : Row) : bool :=
  match k with KDelivery id' _ _ => String.eqb id' id | _ => false end.
Definition isTaskOf (id : string) (k : Key) (r : Row) : bool :=
  match k, r with KTask _, RTask t => String.eqb (nt_InstanceID t) id | _, _ => false end.
Definition isLeasedTask (n : Z) (token : string) (k : Key) (r : Row) : bool :=
  match k, r with KTask n', RTask t => (n' =? n) && sqlEq (nt_LockedBy t) token | _, _ => false end.

(** [UPDATE Instances SET ... WHERE InstanceID = $1 AND LockedBy = $2] *)
Definition onOwnInstance (id token : string) (f : InstanceRow -> InstanceRow) (k : Key) (r : Row)
    : option (option Row) :=
  match r with
  | RInstance n row =>
      if bool_decide (k = KInstance id) && sqlEq (ir_LockedBy row) token then Some (Some (RInstance n (f row))) else None
  | _ => None
  end.

(** Times as they are stored. *)
Definition storedInstance (r : InstanceRow) : InstanceRow :=
  mkInstanceRow (ir_InstanceID r) (ir_ExecutionID r) (ir_Name r) (ir_Version r) (ir_RuntimeStatus r)
    (pgTime (ir_CreatedTime r)) (pgTime (ir_LastUpdatedTime r)) (pgTime <$> ir_CompletedTime r) (ir_LockedBy r)
    (pgTime <$> ir_LockExpiration r) (ir_Input r) (ir_Output r) (ir_CustomStatus r) (ir_FailureDetails r).

(** The columns [SUpdateInstance] sets. *)
Definition updatedInstance (u : InstanceUpdate) (status : string) (custom : option string) (now : Z) (r : InstanceRow)
    : InstanceRow :=
  let '(created, input, exec) :=
    match iu_created u with
    | Some (t, i, x) => (t, Some i, x)
    | None => (ir_CreatedTime r, ir_Input r, ir_ExecutionID r)
    end in
  let '(completed, output, failure) :=
    match iu_completed u with
    | Some (o, f) => (Some now, Some o, f)
    | None => (ir_CompletedTime r, ir_Output r, ir_FailureDetails r)
    end in
  mkInstanceRow (ir_InstanceID r) exec (ir_Name r) (ir_Version r) status created now completed (ir_LockedBy r) None
    input output (match custom with Some v => Some v | None => ir_CustomStatus r end) failure.

(** The row [SLeaseInstance] locks: the first by number among those that are free at
    [now], have a visible event and are not locked by another transaction. *)
Definition leaseCandidate (busy : gset Key) (now : Z) (db : PgDB) : option (string * (Z * InstanceRow)) :=
  head (orderBy (fun x => x.2.1) (List.filter (fun x =>
    nullOrLt (ir_LockExpiration x.2.2) (pgTime now) &&
    existsb (fun e => String.eqb (ne_InstanceID e) x.1 && nullOrLt (ne_VisibleTime e) (pgTime now)) (eventsIn db) &&
    negb (bool_decide (KInstance x.1 ∈ busy))) (instancesIn db))).

Definition taskCandidate (busy : gset Key) (now : Z) (db : PgDB) : option NewTaskRow :=
  head (orderBy nt_SequenceNumber (List.filter (fun t =>
    nullOrLt (nt_LockExpiration t) (pgTime now) && negb (bool_decide (KTask (nt_SequenceNumber t) ∈ busy))) (tasksIn db))).

(** The (at most 1000) numbers of the events a lease takes. *)
Definition leasedNumbers (id : string) (now : Z) (db : PgDB) : list Z :=
  map ne_SequenceNumber (take 1000 (orderBy ne_SequenceNumber (List.filter (fun e =>
    String.eqb (ne_InstanceID e) id && nullOrLe (ne_VisibleTime e) (pgTime now)) (eventsIn db)))).

(** New rows, numbered from a sequence. *)
Fixpoint eventRows (n : Z) (rows : list (string * string * option Z * option string)) : Writes :=
  match rows with
  | [] => ∅
  | (iid, payload, visible, generation) :: rest =>
      <[KEvent n := Some (REvent (mkNewEventRow n iid generation (pgTime <$> visible) 0 None payload))]> (eventRows (n + 1) rest)
  end.

Fixpoint taskRows (n : Z) (id : string) (payloads : list string) : Writes :=
  match payloads with
  | [] => ∅
  | p :: rest => <[KTask n := Some (RTask (mkNewTaskRow n id 0 None None p))]> (taskRows (n + 1) id rest)
  end.

Fixpoint historyWrites (id : string) (n : Z) (payloads : list string) : Writes :=
  match payloads with
  | [] => ∅
  | p :: rest => <[KHistory id n := Some (RHistory p)]> (historyWrites id (n + 1) rest)
  end.

Definition errExhausted : error := errorNew "nextval: reached maximum value of sequence".
Definition errTooManyParams : error := errorNew "extended protocol limited to 65535 parameters".
Definition errDuplicateKey : error := errorNew "duplicate key value violates unique constraint".

(** The next [count] numbers of a sequence, when it has them. *)
Definition draw (next : Z) (count : nat) : Z * bool :=
  let last := next + Z.of_nat count - 1 in
  if last <=? serialMax then (last + 1, true) else (Z.max next (serialMax + 1), false).

Definition set_sqInstances (n : Z) (q : Seqs) : Seqs := mkSeqs n (sq_NewEvents q) (sq_NewTasks q).
Definition set_sqNewEvents (n : Z) (q : Seqs) : Seqs := mkSeqs (sq_Instances q) n (sq_NewTasks q).
Definition set_sqNewTasks (n : Z) (q : Seqs) : Seqs := mkSeqs (sq_Instances q) (sq_NewEvents q) n.

(** [count] values from a sequence, then the effect. *)
Definition withSeq {A} (params : nat) (next : Z) (count : nat) (setq : Z -> Seqs -> Seqs) (q : Seqs)
    (e : Effect A) : Seqs * (Effect A + error) :=
  if (maxParams <? params)%nat then (q, inr errTooManyParams)
  else match draw next count with
       | (n, true) => (setq n q, inl e)
       | (n, false) => (setq n q, inr errExhausted)
       end.

(** ** The effect of a statement

    [busy] are the rows other transactions have locked (for SKIP LOCKED), [ord] the
    order in which rows without ORDER BY come, [db] what the transaction sees. *)
Section Exec.
Variable busy : gset Key.
Variable ord : forall R, list R -> list R.

Definition exec (s : Stmt) (q : Seqs) (db : PgDB) : Seqs * (Effect (answer s) + error) :=
  match s return Seqs * (Effect (answer s) + error) with
  | SUpdateInstance id token u status custom now =>
      (q, inl (updating (onOwnInstance id token (fun r => storedInstance (updatedInstance u status custom now r))) db (fun n => n)))
  | SReleaseInstance id token => (q, inl (updating (onOwnInstance id token unlockInstance) db (fun n => n)))
  | SLeaseInstance token expiration now =>
      (q, inl match leaseCandidate busy now db with
              | None => reads None
              | Some (id, (n, r)) =>
                  mkEffect {[KInstance id := Some (RInstance n (storedInstance (lockInstance token expiration r)))]} ∅
                    (Some (id, ir_ExecutionID r))
              end)
  | SInsertInstance row =>
      withSeq 7 (sq_Instances q) 1 set_sqInstances q
        match db !! KInstance (ir_InstanceID row) with
        | Some _ => reads 0%nat
        | None => mkEffect {[KInstance (ir_InstanceID row) := Some (RInstance (sq_Instances q) (storedInstance row))]} ∅ 1%nat
        end
  | SExistsInstance id => (q, inl (reads (bool_decide (is_Some (db !! KInstance id)))))
  | SSelectInstance id => (q, inl (reads (snd <$> instanceAt db id)))
  | SSelectForUpdate id =>
      (q, inl match instanceAt db id with
              | None => reads None
              | Some (_, r) => mkEffect ∅ {[KInstance id]} (Some (ir_ExecutionID r))
              end)
  | SListInstances => (q, inl (reads (map fst (orderBy (fun x => x.2.1) (instancesIn db)))))
  | SDeleteInstance id requireCompleted =>
      (q, inl (deleting (fun k r => isKey (KInstance id) k r &&
         (negb requireCompleted || match r with RInstance _ row => isFinalStatus (ir_RuntimeStatus row) | _ => false end)) db (fun n => n)))
  | SSelectHistory id => (q, inl (reads (historyPayloads db id)))
  | SInsertHistory id first payloads =>
      (q, if (maxParams <? 3 * length payloads)%nat then inr errTooManyParams
          else if bool_decide (map_Forall (fun k _ => db !! k = None) (historyWrites id first payloads))
          then inl (mkEffect (historyWrites id first payloads) ∅ tt) else inr errDuplicateKey)
  | SDeleteHistory id => (q, inl (deleting (isHistoryOf id) db (fun _ => tt)))
  | SInsertEvents rows =>
      withSeq (3 * length rows) (sq_NewEvents q) (length rows) set_sqNewEvents q (mkEffect (eventRows (sq_NewEvents q) rows) ∅ tt)
  | SLeaseEvents token id now =>
      let leased := leasedNumbers id now db in
      let f k r := match k, r with
                   | KEvent n, REvent e => if bool_decide (n ∈ leased) then Some (Some (REvent (lockEvent token e))) else None
                   | _, _ => None end in
      (q, inl (mkEffect (map_imap f db) ∅
         (ord _ (omap (fun v => match v with (_, Some (REvent e)) => Some e | _ => None end) (map_to_list (map_imap f db))))))
  | SReleaseEvents id token visible =>
      (q, inl (updating (fun k r => if isLeasedEvent id token k r then
         match r with
         | REvent e => Some (Some (REvent (mkNewEventRow (ne_SequenceNumber e) (ne_InstanceID e) (ne_ExecutionID e)
                         (pgTime <$> visible) (ne_DequeueCount e) None (ne_EventPayload e))))
         | _ => None end else None) db (fun n => n)))
  | SSelectOthersEvents id token =>
      (q, inl (reads (ord _ (omap (fun e => if String.eqb (ne_InstanceID e) id &&
          match ne_LockedBy e with None => true | Some t => negb (String.eqb t token) end
        then Some (ne_SequenceNumber e, ne_EventPayload e) else None) (eventsIn db)))))
  | SDeleteEvent n => (q, inl (deleting (isKey (KEvent n)) db (fun _ => tt)))
  | SDeleteLeased id n token => (q, inl (deleting (fun k r => isKey (KEvent n) k r && isLeasedEvent id token k r) db (fun _ => tt)))
  | SDeleteInbound id token => (q, inl (deleting (isLeasedEvent id token) db (fun n => n)))
  | SDeleteEvents id => (q, inl (deleting (isEventOf id) db (fun _ => tt)))
  | SInsertDelivery id name delivery =>
      (q, inl match db !! KDelivery id name delivery with
              | Some _ => reads 0%nat
              | None => mkEffect {[KDelivery id name delivery := Some RDelivery]} ∅ 1%nat
              end)
  | SDeleteDeliveries id => (q, inl (deleting (isDeliveryOf id) db (fun _ => tt)))
  | SInsertTasks id payloads =>
      withSeq (2 * length payloads) (sq_NewTasks q) (length payloads) set_sqNewTasks q (mkEffect (taskRows (sq_NewTasks q) id payloads) ∅ tt)
  | SLeaseTask token expiration now =>
      (q, inl match taskCandidate busy now db with
              | None => reads None
              | Some t =>
                  mkEffect {[KTask (nt_SequenceNumber t) := Some (RTask (lockTask token (pgTime expiration) t))]} ∅
                    (Some (nt_SequenceNumber t, nt_InstanceID t, nt_EventPayload t))
              end)
  | SReleaseTask n token =>
      (q, inl (updating (fun k r => if isLeasedTask n token k r then
         match r with
         | RTask t => Some (Some (RTask (mkNewTaskRow (nt_SequenceNumber t) (nt_InstanceID t) (nt_DequeueCount t) None None (nt_EventPayload t))))
         | _ => None end else None) db (fun n => n)))
  | SDeleteTask n token => (q, inl (deleting (isLeasedTask n token) db (fun n => n)))
  | SDeleteTasks id => (q, inl (deleting (isTaskOf id) db (fun _ => tt)))
  end.

End Exec.

(** ** Transactions *)

Inductive Tx (X : Type) :=
| TRet (x : X)
| TErr (err : error)
| TPanic (msg : string)
| TStmt (s : Stmt) (k : answer s -> Tx X).
Arguments TRet {X} _.
Arguments TErr {X} _.
Arguments TPanic {X} _.
Arguments TStmt {X} _ _.

#[global] Instance InstanceUpdate_eq_dec : EqDecision InstanceUpdate.
Proof. solve_decision. Defined.
#[global] Instance InstanceRow_eq_dec : EqDecision InstanceRow.
Proof. solve_decision. Defined.
#[global] Instance Stmt_eq_dec : EqDecision Stmt.
Proof. solve_decision. Defined.

Lemma TStmt_inj {X} s (k k' : answer s -> Tx X) : TStmt s k = TStmt s k' -> k = k'.
Proof. intros H. injection H as H. apply (inj_pair2_eq_dec _ Stmt_eq_dec) in H. done. Qed.

#[global] Instance Tx_ret : MRet Tx := @TRet.
#[global] Instance Tx_bind : MBind Tx :=
  fix bind A B (f : A -> Tx B) (m : Tx A) : Tx B :=
    match m with
    | TRet x => f x
    | TErr err => TErr err
    | TPanic msg => TPanic msg
    | TStmt s k => TStmt s (fun a => bind A B f (k a))
    end.

Definition stmt (s : Stmt) : Tx (answer s) := TStmt s TRet.
Definition liftTx {X} (r : X + error) : Tx X := match r with inl x => TRet x | inr err => TErr err end.
Definition derefTx {X} (what : string) (p : option X) : Tx X := match p with Some x => TRet x | None => TPanic what end.

(** ** One transaction alone *)

Fixpoint runBody {X} (ord : forall R, list R -> list R) (m : Tx X) (q : Seqs) (db : PgDB) : Seqs * PgDB * outcome error X :=
  match m with
  | TRet x => (q, db, Ok x)
  | TErr err => (q, db, Err err)
  | TPanic msg => (q, db, Panic msg)
  | TStmt s k =>
      match exec ∅ ord s q db with
      | (q, inr err) => (q, db, Err err)
      | (q, inl e) => runBody ord (k (ef_answer e)) q (overlay (ef_writes e) db)
      end
  end.

(** Commit, or roll back; sequences keep their values. *)
Definition runTx {X} (ord : forall R, list R -> list R) (m : Tx X) (st : Seqs * PgDB) : Seqs * PgDB * outcome error X :=
  match runBody ord m st.1 st.2 with
  | (q, db, Ok x) => (q, db, Ok x)
  | (q, _, r) => (q, st.2, r)
  end.
