(* ===== verification/Postgres.v ===== *)
(** * The PostgreSQL backend (backend/postgres/postgres.go)

    Each method of [postgresBackend] as the transaction it runs, statement by
    statement.  Conditions, early returns and the order of statements are those of the
    code; what a method does in Go between two statements is a function.  [now] is
    [time.Now()], [serverNow] is [NOW()] of the server, and the lease token is an
    argument.  A method that reads without a transaction is a program too: under READ
    COMMITTED each of its statements sees what is committed at that moment. *)

From stdpp Require Import base list option strings gmap sets.
From Stdlib Require Import ZArith Lia.
From S2P Require Import Prelude Errors Protos Dedup RuntimeState Propagation Helpers Backend Sqlite PgTables.

Record PostgresOptions := mkPostgresOptions {
  pgWorkflowLockTimeout : Z;
  pgActivityLockTimeout : Z
}.

Definition NewPostgresOptions : PostgresOptions := mkPostgresOptions (2 * Minute) (2 * Minute).

Section Methods.
Context `{ProtoCodec} `{FailureCodec}.

(** ** Settling a workflow work item *)

Definition lost (affected : nat) : Tx unit := if (affected =? 0)%nat then TErr ErrWorkItemLockLost else mret tt.

Definition AbandonWorkflowWorkItem (now : Z) (wi : WorkflowWorkItem) : Tx unit :=
  let delay := GetAbandonDelay wi in
  let visibleTime := if 0 <? delay then Some (now + delay) else None in
  rowsAffected ← stmt (SReleaseEvents (owi_InstanceID wi) (owi_LockedBy wi) visibleTime);
  lost rowsAffected;;
  rowsAffected ← stmt (SReleaseInstance (owi_InstanceID wi) (owi_LockedBy wi));
  lost rowsAffected.

(** The UPDATE of the Instances row, which also checks the lease. *)
Definition updateInstance (now : Z) (wi : WorkflowWorkItem) (s : WorkflowRuntimeState) : Tx unit :=
  u ← liftTx (scanNewEvents (mkInstanceUpdate None None) (NewEvents s));
  count ← stmt (SUpdateInstance (owi_InstanceID wi) (owi_LockedBy wi) u (ToRuntimeStatusString (RuntimeStatus s)) (CustomStatus s) now);
  lost count.

(** The numbers of the queued results among [rows]. *)
Fixpoint obsoleteEvents (rows : list (Z * string)) : list Z + error :=
  match rows with
  | [] => inl []
  | (sequence, payload) :: rest =>
      match UnmarshalHistoryEvent payload with
      | inr err => inr err
      | inl e =>
          match obsoleteEvents rest with
          | inr err => inr err
          | inl l => inl (match Of e with Some _ => sequence :: l | None => l end)
          end
      end
  end.

Fixpoint deleteEvents (sequences : list Z) : Tx unit :=
  match sequences with
  | [] => mret tt
  | sequence :: rest => stmt (SDeleteEvent sequence);; deleteEvents rest
  end.

Definition discardPreviousExecutionWork (wi : WorkflowWorkItem) : Tx unit :=
  stmt (SDeleteTasks (owi_InstanceID wi));;
  rows ← stmt (SSelectOthersEvents (owi_InstanceID wi) (owi_LockedBy wi));
  obsolete ← liftTx (obsoleteEvents rows);
  deleteEvents obsolete.

(** On continue-as-new the committed history goes as well. *)
Definition retireGeneration (wi : WorkflowWorkItem) (s : WorkflowRuntimeState) : Tx unit :=
  if ContinuedAsNew s then discardPreviousExecutionWork wi;; stmt (SDeleteHistory (owi_InstanceID wi)) else mret tt.

Definition saveHistory (wi : WorkflowWorkItem) (s : WorkflowRuntimeState) : Tx unit :=
  match NewEvents s with
  | [] => mret tt
  | newEvents =>
      payloads ← liftTx (tryMap MarshalHistoryEvent newEvents);
      stmt (SInsertHistory (owi_InstanceID wi) (Z.of_nat (length (OldEvents s))) payloads)
  end.

Definition saveTasks (wi : WorkflowWorkItem) (s : WorkflowRuntimeState) : Tx unit :=
  match PendingTasks s with
  | [] => mret tt
  | tasks =>
      payloads ← liftTx (tryMap MarshalHistoryEvent tasks);
      stmt (SInsertTasks (owi_InstanceID wi) payloads)
  end.

(** The first start event of the committed history must be of the execution. *)
Definition validateChildDestination (instanceID executionID : string) : Tx unit :=
  payloads ← stmt (SSelectHistory instanceID);
  match validateChildLoop payloads executionID with
  | Some err => TErr err
  | None => mret tt
  end.

(** Child results: queued for the parent, whose row stays locked until the commit, only
    if it is still the execution that created this child. *)
Fixpoint saveChildResults (s : WorkflowRuntimeState) (msgs : list WorkflowRuntimeStateMessage) : Tx unit :=
  match msgs with
  | [] => mret tt
  | msg :: rest =>
      if negb (IsChildResult (msg_HistoryEvent msg)) then saveChildResults s rest
      else
        generation ← liftTx (ChildResultExecutionID s (msg_TargetInstanceId msg));
        payload ← liftTx (MarshalHistoryEvent (msg_HistoryEvent msg));
        row ← stmt (SSelectForUpdate (msg_TargetInstanceId msg));
        match (row : option string) with
        | None => saveChildResults s rest
        | Some current =>
            validateChildDestination (msg_TargetInstanceId msg) current;;
            (if String.eqb current generation
             then stmt (SInsertEvents [(msg_TargetInstanceId msg, payload, None, Some generation)])
             else mret tt);;
            saveChildResults s rest
        end
  end.

(** ** New instances *)

Definition insertOrIgnoreInstanceTableInternal (serverNow : Z) (e : HistoryEvent) (startEvent : ExecutionStartedEvent)
    (wi : WorkflowInstance) : Tx nat :=
  stmt (SInsertInstance (mkInstanceRow (wi_InstanceId wi) (GetValue (wi_ExecutionId wi)) (es_Name startEvent)
    (Some (GetValue (es_Version startEvent))) "PENDING" (AsTime (Timestamp e)) serverNow None None None
    (Some (GetValue (es_Input startEvent))) None None None)).

(** The id, and whether it was free; a taken id is [api.ErrDuplicateInstance]. *)
Definition createWorkflowInstanceInternal (serverNow : Z) (e : option HistoryEvent) : Tx (string * bool) :=
  match e with
  | None => TErr (errorNew "HistoryEvent must be non-nil")
  | Some e =>
      match Timestamp e with
      | None => TErr (errorNew "HistoryEvent must have a non-nil timestamp")
      | Some _ =>
          match GetExecutionStarted e with
          | None => TErr (errorNew "HistoryEvent must be an ExecutionStartedEvent")
          | Some startEvent =>
              wi ← derefTx "nil WorkflowInstance" (es_WorkflowInstance startEvent);
              rows ← insertOrIgnoreInstanceTableInternal serverNow e startEvent wi;
              mret (wi_InstanceId wi, negb (rows =? 0)%nat)
          end
      end
  end.

Definition CreateWorkflowInstance (serverNow : Z) (e : option HistoryEvent) : Tx unit :=
  '(instanceID, created) ← createWorkflowInstanceInternal serverNow e;
  if negb created then TErr ErrDuplicateInstance
  else
    ev ← derefTx "nil event" e;
    eventPayload ← liftTx (MarshalHistoryEvent ev);
    stmt (SInsertEvents [(instanceID, eventPayload, scheduledStart ev, None)]).

(** [cleanupWorkflowStateInternal]: the error it returns is a value, because a caller
    goes on after it. *)
Definition cleanupWorkflowStateInternal (id : string) (requireCompleted : bool) : Tx (option error) :=
  exists_ ← stmt (SExistsInstance id);
  if negb exists_ then mret (Some ErrInstanceNotFound)
  else
    rowsAffected ← stmt (SDeleteInstance id requireCompleted);
    if requireCompleted && (rowsAffected =? 0)%nat then mret (Some ErrNotCompleted)
    else
      stmt (SDeleteHistory id);;
      stmt (SDeleteEvents id);;
      stmt (SDeleteDeliveries id);;
      stmt (SDeleteTasks id);;
      mret None.

(** Create the instance a start message is for.  An existing completed instance is
    replaced; a collision with an unfinished one fails a child's parent and is only
    logged for a detached start. *)
Definition createTarget (serverNow : Z) (e : HistoryEvent) (es : ExecutionStartedEvent) : Tx unit :=
  '(_, created) ← createWorkflowInstanceInternal serverNow (Some e);
  if (created : bool) then mret tt
  else
    wi ← derefTx "nil WorkflowInstance" (es_WorkflowInstance es);
    cleanupErr ← cleanupWorkflowStateInternal (wi_InstanceId wi) true;
    match (cleanupErr : option error), es_ParentInstance es with
    | Some _, Some _ => TErr (errorWrap "child instance collision" ErrDuplicateInstance)
    | Some _, None => mret tt
    | None, parent =>
        '(_, retried) ← createWorkflowInstanceInternal serverNow (Some e);
        if (retried : bool) then mret tt
        else match parent with Some _ => TErr ErrDuplicateInstance | None => mret tt end
    end.

(** The rows to insert for the other messages, creating instances on the way. *)
Fixpoint prepareMessages (serverNow : Z) (msgs : list WorkflowRuntimeStateMessage)
    : Tx (list (string * string * option Z * option string)) :=
  match msgs with
  | [] => mret []
  | msg :: rest =>
      if IsChildResult (msg_HistoryEvent msg) then prepareMessages serverNow rest
      else
        (match GetExecutionStarted (msg_HistoryEvent msg) with
         | Some es => createTarget serverNow (msg_HistoryEvent msg) es
         | None => mret tt
         end);;
        payload ← liftTx (MarshalHistoryEvent (msg_HistoryEvent msg));
        rows ← prepareMessages serverNow rest;
        mret ((msg_TargetInstanceId msg, payload, scheduledStart (msg_HistoryEvent msg), None) :: rows)
  end.

Definition saveEvents (serverNow : Z) (wi : WorkflowWorkItem) (s : WorkflowRuntimeState) : Tx unit :=
  timers ← liftTx (prepareTimers (owi_InstanceID wi) (PendingTimers s));
  messages ← prepareMessages serverNow (PendingMessages s);
  match map (fun t => (t, None)) timers ++ messages with
  | [] => mret tt
  | rows => stmt (SInsertEvents rows)
  end.

(** Acknowledge the events of the lease. *)
Definition deleteInbound (wi : WorkflowWorkItem) : Tx unit :=
  rowsAffected ← stmt (SDeleteInbound (owi_InstanceID wi) (owi_LockedBy wi));
  lost rowsAffected.

Definition CompleteWorkflowWorkItem (now serverNow : Z) (wi : WorkflowWorkItem) : Tx unit :=
  s ← derefTx "nil State" (owi_State wi);
  updateInstance now wi s;;
  retireGeneration wi s;;
  saveHistory wi s;;
  saveTasks wi s;;
  saveChildResults s (PendingMessages s);;
  saveEvents serverNow wi s;;
  deleteInbound wi.

(** [PurgeWorkflowState], [purgeWorkflowStateLocal]: the number of instances; [force] is
    not used. *)
Definition PurgeWorkflowState (id : string) (router : option TaskRouter) (recursive force : bool) : Tx Z :=
  if negb (String.eqb (GetTargetAppID router) "")
  then TErr (errorNew "postgres backend does not support cross-app purge dispatch")
  else
    err ← cleanupWorkflowStateInternal id true;
    match (err : option error) with Some err => TErr err | None => mret 1 end.

(** ** New events *)

Definition AddNewWorkflowEvent (iid : string) (e : option HistoryEvent) : Tx unit :=
  e ← liftTx (checkNewEvent e);
  eventPayload ← liftTx (MarshalHistoryEvent e);
  stmt (SInsertEvents [(iid, eventPayload, None, None)]).

Definition AddNewWorkflowEventWithExternalDelivery (iid eventName deliveryID : string) (e : option HistoryEvent) : Tx unit :=
  e ← liftTx (checkNewEvent e);
  eventPayload ← liftTx (MarshalHistoryEvent e);
  rowsAffected ← stmt (SInsertDelivery iid eventName deliveryID);
  if (rowsAffected =? 0)%nat then mret tt else stmt (SInsertEvents [(iid, eventPayload, None, None)]).

(** ** Reading *)

Definition GetInstanceHistory (iid : string) : Tx (list HistoryEvent) :=
  payloads ← stmt (SSelectHistory iid);
  liftTx (tryMap UnmarshalHistoryEvent payloads).

Definition GetWorkflowRuntimeState (iid : string) : Tx WorkflowRuntimeState :=
  events ← GetInstanceHistory iid;
  mret (NewWorkflowRuntimeState iid None events).

Definition ListInstanceIDs : Tx (list string) := stmt SListInstances.

Definition getStartEvent (iid : string) : Tx (option ExecutionStartedEvent) :=
  payloads ← stmt (SSelectHistory iid);
  match (payloads : list string) !! 1%nat with
  | None => mret None
  | Some payload =>
      match UnmarshalHistoryEvent payload with
      | inr err => TErr (errorWrap "failed to unmarshal start event" err)
      | inl e => mret (GetExecutionStarted e)
      end
  end.

Definition getStartedAt (iid : string) : Tx (option Z) :=
  payloads ← stmt (SSelectHistory iid);
  match head (payloads : list string) with
  | None => mret None
  | Some payload =>
      match UnmarshalHistoryEvent payload with
      | inr err => TErr (errorWrap "failed to unmarshal first history event" err)
      | inl e => mret (Timestamp e)
      end
  end.

(** Columns that are NULL read as the empty string. *)
Definition GetWorkflowMetadata (iid : string) (router : option TaskRouter) : Tx WorkflowMetadata :=
  if negb (String.eqb (GetTargetAppID router) "")
  then TErr (errorNew "postgres backend does not support cross-app workflow metadata reads")
  else
    row ← stmt (SSelectInstance iid);
    match (row : option InstanceRow) with
    | None => TErr ErrInstanceNotFound
    | Some r =>
        failureDetails ← liftTx (decodeFailure (ir_FailureDetails r));
        startedAt ← getStartedAt iid;
        startEvent ← getStartEvent iid;
        let parent := startEvent ≫= es_ParentInstance in
        let app := GetValue (parent ≫= pi_AppID) in
        mret (mkWorkflowMetadata iid (ir_Name r) (FromRuntimeStatusString (ir_RuntimeStatus r)) (ir_CreatedTime r)
          (ir_LastUpdatedTime r) (Some (GetValue (ir_Input r))) (Some (GetValue (ir_Output r)))
          (Some (GetValue (ir_CustomStatus r))) failureDetails (ir_Version r)
          (match parent ≫= pi_WorkflowInstance with Some wi => wi_InstanceId wi | None => "" end)
          (if String.eqb app "" then None else Some app) startedAt None)
    end.

(** ** Leasing *)

Fixpoint deleteStale (instanceID token : string) (sequences : list Z) : Tx unit :=
  match sequences with
  | [] => mret tt
  | sequence :: rest => stmt (SDeleteLeased instanceID sequence token);; deleteStale instanceID token rest
  end.

(** [GetWorkflowWorkItem]; [None] is [errNoWorkItems] after a commit. *)
Definition GetWorkflowWorkItem (opts : PostgresOptions) (now : Z) (token : string) : Tx (option WorkflowWorkItem) :=
  row ← stmt (SLeaseInstance token (now + pgWorkflowLockTimeout opts) now);
  match (row : option (string * string)) with
  | None => TErr errNoWorkItems
  | Some (instanceID, executionID) =>
      events ← stmt (SLeaseEvents token instanceID now);
      scan ← liftTx (scanLeased executionID events [] [] false 0);
      let '(dequeued, stale, hasChild, maxCount) := scan in
      (if (hasChild : bool) then validateChildDestination instanceID executionID else mret tt);;
      deleteStale instanceID token stale;;
      match dequeued with
      | [] => stmt (SReleaseInstance instanceID token);; mret None
      | _ =>
          mret (Some (mkWorkflowWorkItem instanceID (map snd (orderBy fst dequeued)) token
            (int32_of (maxCount - 1)) None None ∅))
      end
  end.

(** [getActivityWorkItem]: a single UPDATE, committed before the payload is decoded. *)
Definition getActivityWorkItem (opts : PostgresOptions) (now : Z) (token : string) : Tx (Z * string * string) :=
  row ← stmt (SLeaseTask token (now + pgActivityLockTimeout opts) now);
  match (row : option (Z * string * string)) with
  | None => TErr errNoWorkItems
  | Some t => mret t
  end.

Definition activityOf (token : string) (t : Z * string * string) : ActivityWorkItem + error :=
  match UnmarshalHistoryEvent t.2 with
  | inr err => inr err
  | inl e => inl (mkActivityWorkItem t.1.1 t.1.2 e None token None)
  end.

(** ** Settling an activity work item *)

Definition CompleteActivityWorkItem (wi : ActivityWorkItem) : Tx unit :=
  bytes ← liftTx (match awi_Result wi with Some r => MarshalHistoryEvent r | None => inl "" end);
  stmt (SInsertEvents [(awi_InstanceID wi, bytes, None, None)]);;
  rowsAffected ← stmt (SDeleteTask (awi_SequenceNumber wi) (awi_LockedBy wi));
  lost rowsAffected.

Definition AbandonActivityWorkItem (wi : ActivityWorkItem) : Tx unit :=
  rowsAffected ← stmt (SReleaseTask (awi_SequenceNumber wi) (awi_LockedBy wi));
  lost rowsAffected.

End Methods.
