(* ===== verification/PgConcurrent.v ===== *)
(** * Concurrent transactions under READ COMMITTED

    Any number of transactions of the PostgreSQL backend at once.  A transaction sees
    what is committed and its own writes; a row it has written, or read FOR UPDATE, is
    locked until it ends, and a statement that needs a row another transaction has locked
    has to wait (it is not enabled).  A transaction may be aborted at any time: by a
    deadlock, a cancelled context, a lost connection.  A statement that had to wait is
    modelled as running on what is committed when it can proceed. *)

From stdpp Require Import base list option strings gmap sets fin_maps relations.
From Stdlib Require Import ZArith Lia.
From S2P Require Import Prelude Errors Protos RuntimeState Propagation Helpers Backend Sqlite PgTables Postgres.

(** ** Calls *)

Inductive method :=
| MGetWorkflowWorkItem (now : Z) (token : string)
| MCompleteWorkflowWorkItem (now serverNow : Z) (wi : WorkflowWorkItem)
| MAbandonWorkflowWorkItem (now : Z) (wi : WorkflowWorkItem)
| MGetActivityWorkItem (now : Z) (token : string)
| MCompleteActivityWorkItem (wi : ActivityWorkItem)
| MAbandonActivityWorkItem (wi : ActivityWorkItem)
| MCreateWorkflowInstance (serverNow : Z) (e : option HistoryEvent)
| MAddNewWorkflowEvent (iid : string) (e : option HistoryEvent)
| MAddExternalDelivery (iid eventName deliveryID : string) (e : option HistoryEvent)
| MPurgeWorkflowState (id : string) (router : option TaskRouter) (recursive force : bool)
| MGetWorkflowMetadata (iid : string) (router : option TaskRouter)
| MGetWorkflowRuntimeState (iid : string)
| MListInstanceIDs.

Inductive Reply :=
| RepDone
| RepWorkflow (wi : option WorkflowWorkItem)
| RepActivity (t : Z * string * string)
| RepCount (n : Z)
| RepMetadata (md : WorkflowMetadata)
| RepState (s : WorkflowRuntimeState)
| RepIds (ids : list string).

(** The lease token a call works with. *)
Definition tokenOf (m : method) : option string :=
  match m with
  | MGetWorkflowWorkItem _ token | MGetActivityWorkItem _ token => Some token
  | MCompleteWorkflowWorkItem _ _ wi | MAbandonWorkflowWorkItem _ wi => Some (owi_LockedBy wi)
  | MCompleteActivityWorkItem wi | MAbandonActivityWorkItem wi => Some (awi_LockedBy wi)
  | _ => None
  end.

Section Concurrent.
Context `{HC : ProtoCodec} `{HF : FailureCodec}.
Variable opts : PostgresOptions.

Definition done : Tx unit -> Tx Reply := mbind (fun _ => mret RepDone).

Definition program (m : method) : Tx Reply :=
  match m with
  | MGetWorkflowWorkItem now token => wi ← GetWorkflowWorkItem opts now token; mret (RepWorkflow wi)
  | MCompleteWorkflowWorkItem now serverNow wi => done (CompleteWorkflowWorkItem now serverNow wi)
  | MAbandonWorkflowWorkItem now wi => done (AbandonWorkflowWorkItem now wi)
  | MGetActivityWorkItem now token => t ← getActivityWorkItem opts now token; mret (RepActivity t)
  | MCompleteActivityWorkItem wi => done (CompleteActivityWorkItem wi)
  | MAbandonActivityWorkItem wi => done (AbandonActivityWorkItem wi)
  | MCreateWorkflowInstance serverNow e => done (CreateWorkflowInstance serverNow e)
  | MAddNewWorkflowEvent iid e => done (AddNewWorkflowEvent iid e)
  | MAddExternalDelivery iid name d e => done (AddNewWorkflowEventWithExternalDelivery iid name d e)
  | MPurgeWorkflowState id router recursive force => n ← PurgeWorkflowState id router recursive force; mret (RepCount n)
  | MGetWorkflowMetadata iid router => md ← GetWorkflowMetadata iid router; mret (RepMetadata md)
  | MGetWorkflowRuntimeState iid => s ← GetWorkflowRuntimeState iid; mret (RepState s)
  | MListInstanceIDs => ids ← ListInstanceIDs; mret (RepIds ids)
  end.

(** ** States and steps *)

Record OpenTx := mkOpenTx {
  tx_method : method;
  tx_writes : Writes;
  tx_locks : gset Key;
  tx_prog : Tx Reply
}.

Record Pg := mkPg {
  pg_db : PgDB;
  pg_seqs : Seqs;
  pg_open : gmap nat OpenTx
}.

Definition held (x : OpenTx) : gset Key := dom (tx_writes x) ∪ tx_locks x.
Definition busy (t : nat) (st : Pg) : gset Key := ⋃ (held <$> (map_to_list (delete t (pg_open st))).*2).
Definition view (st : Pg) (x : OpenTx) : PgDB := overlay (tx_writes x) (pg_db st).
Definition putTx (t : nat) (x : OpenTx) (st : Pg) : Pg := mkPg (pg_db st) (pg_seqs st) (<[t := x]> (pg_open st)).
Definition set_seqs (q : Seqs) (st : Pg) : Pg := mkPg (pg_db st) q (pg_open st).

(** The transaction after a statement. *)
Definition advance {A} (x : OpenTx) (e : Effect A) (p : Tx Reply) : OpenTx :=
  mkOpenTx (tx_method x) (ef_writes e ∪ tx_writes x) (ef_locks e ∪ tx_locks x) p.

Definition commit (t : nat) (x : OpenTx) (st : Pg) : Pg :=
  mkPg (overlay (tx_writes x) (pg_db st)) (pg_seqs st) (delete t (pg_open st)).
Definition abort (t : nat) (st : Pg) : Pg := mkPg (pg_db st) (pg_seqs st) (delete t (pg_open st)).

Inductive Label :=
| LBegin (t : nat) (m : method)
| LStmt (t : nat)
| LCommit (t : nat)
| LAbort (t : nat).

Definition anyOrder (ord : forall R, list R -> list R) : Prop := forall R (l : list R), ord R l ≡ₚ l.

Inductive pg_step : Label -> Pg -> Pg -> Prop :=
| pg_begin t m st :
    pg_open st !! t = None -> pg_step (LBegin t m) st (putTx t (mkOpenTx m ∅ ∅ (program m)) st)
| pg_stmt t x s k ord q e st :
    pg_open st !! t = Some x -> tx_prog x = TStmt s k -> anyOrder ord ->
    exec (busy t st) ord s (pg_seqs st) (view st x) = (q, inl e) ->
    (dom (ef_writes e) ∪ ef_locks e) ## busy t st ->
    pg_step (LStmt t) st (set_seqs q (putTx t (advance x e (k (ef_answer e))) st))
| pg_fail t x s k ord q err st :
    pg_open st !! t = Some x -> tx_prog x = TStmt s k -> anyOrder ord ->
    exec (busy t st) ord s (pg_seqs st) (view st x) = (q, inr err) ->
    pg_step (LStmt t) st (set_seqs q (putTx t (mkOpenTx (tx_method x) (tx_writes x) (tx_locks x) (TErr err)) st))
| pg_commit t x r st :
    pg_open st !! t = Some x -> tx_prog x = TRet r -> pg_step (LCommit t) st (commit t x st)
| pg_abort t x st :
    pg_open st !! t = Some x -> pg_step (LAbort t) st (abort t st).

Definition pg_start : Pg := mkPg ∅ firstSeqs ∅.
Definition any_step (st st' : Pg) : Prop := exists l, pg_step l st st'.
Definition pg_reachable (st : Pg) : Prop := rtc any_step pg_start st.

Lemma elem_of_busy k t st :
  k ∈ busy t st <-> exists t' x, t' <> t /\ pg_open st !! t' = Some x /\ k ∈ held x.
Proof.
  unfold busy. rewrite elem_of_union_list. split.
  - intros (X & (x & -> & ((t', x') & -> & Hin)%list_elem_of_fmap)%list_elem_of_fmap & Hk).
    apply elem_of_map_to_list, lookup_delete_Some in Hin as [Hne Hin]. exists t', x'. split_and!; [congruence | done..].
  - intros (t' & x & Hne & Hx & Hk). exists (held x). split; [| done]. apply list_elem_of_fmap. exists x. split; [done |].
    apply list_elem_of_fmap. exists (t', x). split; [done |]. apply elem_of_map_to_list. by rewrite lookup_delete_ne.
Qed.

(** ** Locks exclude each other *)

Definition exclusive (st : Pg) : Prop := forall t t' x x',
  t <> t' -> pg_open st !! t = Some x -> pg_open st !! t' = Some x' -> held x ## held x'.

(** A transaction changes; its new rows were free. *)
Lemma exclusive_put t x y st :
  exclusive st -> (pg_open st !! t = Some x \/ held x = ∅) -> held y ⊆ held x ∪ (held y ∖ busy t st) ->
  exclusive (putTx t y st).
Proof.
  intros He Hx Hy.
  assert (forall t' x', t' <> t -> pg_open st !! t' = Some x' -> held y ## held x') as H.
  { intros t' x' Hne Hx' k Hk Hk'. apply Hy, elem_of_union in Hk as [Hk | Hk].
    - destruct Hx as [Hx | Hx]; [by eapply (He t t'); eauto | set_solver].
    - apply elem_of_difference in Hk as [_ Hk]. apply Hk, elem_of_busy. eauto. }
  intros t1 t2 x1 x2 Hne. cbn. destruct (decide (t1 = t)) as [-> | H1], (decide (t2 = t)) as [-> | H2];
    rewrite ?lookup_insert_eq, ?lookup_insert_ne by done; [done | | | by apply He].
  - intros [= <-] Hx2. by apply (H t2).
  - intros Hx1 [= <-]. symmetry. by apply (H t1).
Qed.

Lemma exclusive_delete t db q st :
  exclusive st -> exclusive (mkPg db q (delete t (pg_open st))).
Proof. intros He t1 t2 x1 x2 Hne. cbn. intros [_ H1]%lookup_delete_Some [_ H2]%lookup_delete_Some. by eapply He. Qed.

Lemma exclusive_step l st st' : pg_step l st st' -> exclusive st -> exclusive st'.
Proof.
  intros Hs He. destruct Hs as [t m st Ht | t x s k ord q e st Ht Hp Ho Hex Hd | t x s k ord q err st Ht Hp Ho Hex | t x r st Ht Hp | t x st Ht].
  - apply (exclusive_put _ (mkOpenTx m ∅ ∅ (program m))); [done | right; unfold held; cbn; set_solver | set_solver].
  - intros t1 t2 x1 x2. cbn. apply (exclusive_put t x); [done | by left |].
    intros k'. unfold held at 1 2. cbn. rewrite !dom_union. intros Hk'. destruct (decide (k' ∈ held x)) as [|Hn]; [set_solver |].
    unfold held in Hn. set_solver.
  - intros t1 t2 x1 x2. cbn. apply (exclusive_put t x); [done | by left | set_solver].
  - by apply exclusive_delete.
  - by apply exclusive_delete.
Qed.

End Concurrent.
