(* ===== verification/PgDiscipline.v ===== *)
(** * The locking discipline of the PostgreSQL backend

    A weakest precondition over transactions ([wp]), and with it the discipline every
    method keeps: the history of an instance is written, and tasks of it are added, only by a transaction that has
    written, and so locked, the row of the instance; the lock column is only set to the
    caller's own token.  Interleavings keep the facts that follow ([pg_inv]). *)

From stdpp Require Import base list option strings gmap sets fin_maps relations.
From Stdlib Require Import ZArith Lia.
From S2P Require Import Prelude Errors Protos RuntimeState Propagation Helpers Backend Sqlite PgTables Postgres PgConcurrent.

(** ** Weakest preconditions over a ghost state *)

Section WP.
Context {G : Type}.
Variable pre : G -> Stmt -> Prop.
Variable post : G -> forall s, answer s -> G -> Prop.

Fixpoint wp {X} (p : Tx X) (Q : X -> G -> Prop) (g : G) : Prop :=
  match p with
  | TRet x => Q x g
  | TErr _ | TPanic _ => True
  | TStmt s k => pre g s /\ forall a g', post g s a g' -> wp (k a) Q g'
  end.

Lemma tx_wp_mono {X} (p : Tx X) (Q Q' : X -> G -> Prop) g : (forall x g, Q x g -> Q' x g) -> wp p Q g -> wp p Q' g.
Proof.
  intros HQ. revert g. induction p as [x | err | msg | s k IH]; intros g; cbn; auto. intros [Hp Hk]. split; [done |]. eauto.
Qed.

Lemma tx_wp_bind {X Y} (p : Tx X) (k : X -> Tx Y) Q g : wp p (fun x => wp (k x) Q) g -> wp (p ≫= k) Q g.
Proof.
  revert g. induction p as [x | err | msg | s k' IH]; intros g; cbn; auto. intros [Hp Hk]. split; [done |].
  intros a g' Ha. by apply IH, Hk.
Qed.

End WP.

(** ** Effects of statements *)

(** What a statement does to the keys of histories and of instances. *)
Definition touchesHistory (s : Stmt) (id : string) : Prop :=
  match s with
  | SInsertHistory id' _ _ | SDeleteHistory id' => id' = id
  | _ => False
  end.

(** What needs the row of the instance: its history, and new tasks. *)
Definition guarded (s : Stmt) (id : string) : Prop :=
  match s with
  | SInsertHistory id' _ _ | SDeleteHistory id' | SInsertTasks id' _ => id' = id
  | _ => False
  end.

Lemma touches_guarded s id : touchesHistory s id -> guarded s id.
Proof. by destruct s. Qed.

(** The instances a statement has written, by its answer. *)
Definition acquired (s : Stmt) : answer s -> gset string :=
  match s return answer s -> gset string with
  | SUpdateInstance id _ _ _ _ _ | SReleaseInstance id _ | SDeleteInstance id _ =>
      fun n => if (n =? 0)%nat then ∅ else {[id]}
  | SInsertInstance row => fun n => if (n =? 0)%nat then ∅ else {[ir_InstanceID row]}
  | SLeaseInstance _ _ _ => fun o => match o with Some (id, _) => {[id]} | None => ∅ end
  | _ => fun _ => ∅
  end.

(** The statement leaves no row of Instances locked by [token]. *)
Definition foreignTo (token : string) (s : Stmt) : Prop :=
  match s with
  | SUpdateInstance _ t _ _ _ _ | SReleaseInstance _ t | SLeaseInstance t _ _ => t <> token
  | SInsertInstance row => ir_LockedBy row = None
  | _ => True
  end.

Lemma updating_lookup {A} f db (a : nat -> A) k : ef_writes (updating f db a) !! k = db !! k ≫= f k.
Proof. cbn. by rewrite map_lookup_imap. Qed.

Lemma deleting_lookup {A} p db (a : nat -> A) k :
  ef_writes (deleting p db a) !! k = match db !! k with Some r => if p k r then Some None else None | None => None end.
Proof. unfold deleting. rewrite updating_lookup. by destruct (db !! k). Qed.

Lemma size_nonzero {A} (m : gmap Key A) (k : Key) :
  (forall k', k' ∈ dom m -> k' = k) -> (size m =? 0)%nat = false -> k ∈ dom m.
Proof.
  intros Hk Hs%Nat.eqb_neq. destruct (map_choose m) as (k' & x & Hx).
  { intros ->. by rewrite map_size_empty in Hs. }
  rewrite <- (Hk k'); apply elem_of_dom; eauto.
Qed.

Lemma eventRows_dom n rows k : k ∈ dom (eventRows n rows) -> exists m, k = KEvent m /\ n <= m < n + Z.of_nat (length rows).
Proof.
  revert n. induction rows as [|[[[iid p] v] g] rows IH]; intros n; cbn; [set_solver |].
  rewrite dom_insert. intros [->%elem_of_singleton | (m & -> & Hm)%IH]%elem_of_union; eexists; (split; [done | lia]).
Qed.

Lemma taskRows_dom n id ps k : k ∈ dom (taskRows n id ps) -> exists m, k = KTask m /\ n <= m < n + Z.of_nat (length ps).
Proof.
  revert n. induction ps as [|p ps IH]; intros n; cbn; [set_solver |].
  rewrite dom_insert. intros [->%elem_of_singleton | (m & -> & Hm)%IH]%elem_of_union; eexists; (split; [done | lia]).
Qed.

Lemma historyWrites_lookup id n ps k :
  historyWrites id n ps !! k = match k with
    | KHistory id' m => if String.eqb id' id then (fun p => Some (RHistory p)) <$> (map_seqZ n ps : gmap Z string) !! m else None
    | _ => None end.
Proof.
  revert n. induction ps as [|p ps IH]; intros n; cbn [historyWrites].
  - rewrite lookup_empty. destruct k; try done. cbn. rewrite lookup_empty. by destruct (String.eqb id0 id).
  - rewrite map_seqZ_cons. destruct (decide (k = KHistory id n)) as [-> | Hk].
    + by rewrite lookup_insert_eq, String.eqb_refl, lookup_insert_eq.
    + rewrite lookup_insert_ne, IH by done. destruct k as [ | id' m | | |]; try done. destruct (String.eqb_spec id' id) as [-> |]; [| done].
      by rewrite lookup_insert_ne by congruence.
Qed.

(** The rows a statement may write, by its kind. *)
Definition mayWrite (s : Stmt) (k : Key) : Prop :=
  match s, k with
  | SUpdateInstance id _ _ _ _ _, KInstance id' | SReleaseInstance id _, KInstance id'
  | SDeleteInstance id _, KInstance id' => id' = id
  | SLeaseInstance _ _ _, KInstance _ => True
  | SInsertInstance row, KInstance id' => id' = ir_InstanceID row
  | SInsertHistory id _ _, KHistory id' _ | SDeleteHistory id, KHistory id' _ => id' = id
  | SInsertEvents _, KEvent _ | SLeaseEvents _ _ _, KEvent _ | SReleaseEvents _ _ _, KEvent _ | SDeleteInbound _ _, KEvent _
  | SDeleteEvents _, KEvent _ => True
  | SDeleteEvent n, KEvent n' | SDeleteLeased _ n _, KEvent n' => n' = n
  | SInsertDelivery id name d, KDelivery id' name' d' => id' = id /\ name' = name /\ d' = d
  | SDeleteDeliveries id, KDelivery id' _ _ => id' = id
  | SInsertTasks _ _, KTask _ | SLeaseTask _ _ _, KTask _ | SDeleteTasks _, KTask _ => True
  | SReleaseTask n _, KTask n' | SDeleteTask n _, KTask n' => n' = n
  | _, _ => False
  end.

(** A row version written by [updating]: the old row and what became of it. *)
Lemma updating_inv {A} f db (a : nat -> A) k v :
  ef_writes (updating f db a) !! k = Some v -> exists r, db !! k = Some r /\ f k r = Some v.
Proof. rewrite updating_lookup. intros (r & ? & ?)%bind_Some. eauto. Qed.

Lemma deleting_inv {A} p db (a : nat -> A) k v :
  ef_writes (deleting p db a) !! k = Some v -> exists r, db !! k = Some r /\ p k r = true /\ v = None.
Proof. rewrite deleting_lookup. destruct (db !! k) as [r|]; [| done]. destruct (p k r) eqn:E; [| done]. intros [= <-]. eauto. Qed.

Lemma withSeq_inv {A} params next count setq q (e : Effect A) q' e' :
  withSeq params next count setq q e = (q', inl e') ->
  e' = e /\ q' = setq (next + Z.of_nat count) q /\ next + Z.of_nat count - 1 <= serialMax.
Proof.
  unfold withSeq, draw. destruct (maxParams <? params)%nat; [done |]. destruct (_ <=? _) eqn:E; [| done].
  intros [= <- <-]. split_and!; [done | | lia]. f_equal. lia.
Qed.

Lemma updated_lock u status custom now r : ir_LockedBy (updatedInstance u status custom now r) = ir_LockedBy r.
Proof. unfold updatedInstance. by destruct (iu_created u) as [[[] ]|], (iu_completed u) as [[]|]. Qed.

Section Effects.
Variables (b : gset Key) (ord : forall R, list R -> list R) (q q' : Seqs) (db : PgDB).

Lemma exec_mayWrite s e k : exec b ord s q db = (q', inl e) -> k ∈ dom (ef_writes e) -> mayWrite s k.
Proof.
  intros Hex Hk. apply elem_of_dom in Hk as [v Hk]. destruct s; cbn [exec] in Hex; unfold reads in *;
    try (apply withSeq_inv in Hex as (-> & _ & _)); try (injection Hex as <- <-);
    try (apply updating_inv in Hk as (r & _ & Hk)); try (apply deleting_inv in Hk as (r & _ & Hk & _));
    try (cbn in Hk; by rewrite lookup_empty in Hk).
  all: try (match goal with |- mayWrite (SInsertEvents _) _ =>
    cbn in Hk; destruct (eventRows_dom _ _ k (elem_of_dom_2 _ _ _ Hk)) as (m & -> & _); done end).
  all: try (match goal with |- mayWrite (SInsertTasks _ _) _ =>
    cbn in Hk; destruct (taskRows_dom _ _ _ k (elem_of_dom_2 _ _ _ Hk)) as (m & -> & _); done end).
  all: unfold onOwnInstance, isKey, isLeasedEvent, isEventOf, isLeasedTask, isTaskOf, isHistoryOf, isDeliveryOf in *.
  all: destruct k; repeat (case_match; simplify_eq/=); repeat case_bool_decide; simplify_eq/=; rewrite ?lookup_empty in *; try done.
  all: try (apply lookup_singleton_Some in Hk as [Hk _]; simplify_eq; done).
  all: try (rewrite map_lookup_imap in Hk; destruct (db !! _) as [[]|]; done).
  all: try (rewrite historyWrites_lookup in Hk; case_match; [by apply String.eqb_eq | done]).
  all: try (by rewrite historyWrites_lookup in Hk).
  all: repeat match goal with H : _ && _ = true |- _ => apply andb_true_iff in H as [H _] end.
  all: try by apply String.eqb_eq. all: try by apply Z.eqb_eq.
Qed.

Lemma exec_history s e id n : exec b ord s q db = (q', inl e) -> KHistory id n ∈ dom (ef_writes e) -> touchesHistory s id.
Proof. intros Hex Hk. pose proof (exec_mayWrite s e _ Hex Hk) as H. by destruct s. Qed.

Lemma exec_acquired s e id : exec b ord s q db = (q', inl e) -> id ∈ acquired s (ef_answer e) -> KInstance id ∈ dom (ef_writes e).
Proof.
  intros Hex Ha.
  assert (forall k, k ∈ dom (ef_writes e) -> mayWrite s k) as Hm by (intros k; by apply exec_mayWrite).
  destruct s; cbn [acquired] in Ha; try (by apply elem_of_empty in Ha); cbn [exec] in Hex; try (apply withSeq_inv in Hex as (-> & _ & _)); try (injection Hex as <- <-).
  all: try (case_match; [by apply elem_of_empty in Ha |]; apply elem_of_singleton in Ha as ->; apply size_nonzero; [| done];
    intros [] Hk; specialize (Hm _ Hk); by simplify_eq/=).
  - destruct (leaseCandidate b now db) as [[id' [n r]]|]; cbn in *; set_solver.
  - destruct (db !! _); cbn in *; set_solver.
Qed.

Lemma exec_foreign s e id n r token :
  exec b ord s q db = (q', inl e) -> foreignTo token s -> ef_writes e !! KInstance id = Some (Some (RInstance n r)) ->
  ir_LockedBy r <> Some token.
Proof.
  intros Hex Hf Hk. pose proof (exec_mayWrite s e _ Hex (elem_of_dom_2 _ _ _ Hk)) as Hm.
  destruct s; cbn in Hm; try done; cbn [exec] in Hex; try (apply withSeq_inv in Hex as (-> & _ & _)); try (injection Hex as <- <-); cbn in Hf.
  - apply updating_inv in Hk as ([n0 r0| | | |] & _ & Hk); try done. unfold onOwnInstance in Hk.
    destruct (bool_decide _ && sqlEq (ir_LockedBy r0) token0) eqn:Hc; [| done]. injection Hk as <- <-. cbn. rewrite updated_lock.
    apply andb_true_iff in Hc as [_ Hc]. destruct (ir_LockedBy r0) as [t|]; [| done]. apply String.eqb_eq in Hc as ->. congruence.
  - apply updating_inv in Hk as (r0 & _ & Hk). unfold onOwnInstance in Hk. by repeat case_match; simplify_eq.
  - destruct (leaseCandidate b now db) as [[id' [n' r']]|]; cbn in Hk; [| by rewrite lookup_empty in Hk].
    apply lookup_singleton_Some in Hk as [? [= <- <-]]. cbn. congruence.
  - destruct (db !! _); cbn in Hk; [by rewrite lookup_empty in Hk |]. apply lookup_singleton_Some in Hk as [? [= <- <-]]. cbn. by rewrite Hf.
  - apply deleting_inv in Hk as (r0 & _ & _ & ?). done.
Qed.
End Effects.

(** ** Lawful programs *)

(** [own]: instances whose rows the transaction has written. *)
Definition lawfulPre (bad : option string) (own : gset string) (s : Stmt) : Prop :=
  (forall id, guarded s id -> id ∈ own) /\ forall token, bad = Some token -> foreignTo token s.
Definition lawfulPost (own : gset string) (s : Stmt) (a : answer s) (own' : gset string) : Prop := own' = acquired s a ∪ own.

Abbreviation lawful bad := (wp (lawfulPre bad) lawfulPost).

(** A program that is lawful once [need] is owned, and only adds to what is owned. *)
Definition safe (bad : option string) (need : gset string) {X} (p : Tx X) : Prop := forall own (Q : X -> gset string -> Prop),
  need ⊆ own -> (forall x own', own ⊆ own' -> Q x own') -> lawful bad p Q own.

Section Safe.
Variable bad : option string.

Lemma safe_ret need {X} (x : X) : safe bad need (mret x).
Proof. intros own Q _ HQ. by apply HQ. Qed.
Lemma safe_err need {X} err : safe bad need (TErr err : Tx X).
Proof. done. Qed.
Lemma safe_panic need {X} msg : safe bad need (TPanic msg : Tx X).
Proof. done. Qed.
Lemma safe_lift need {X} (r : X + error) : safe bad need (liftTx r).
Proof. destruct r; [apply safe_ret | done]. Qed.
Lemma safe_deref need {X} what (p : option X) : safe bad need (derefTx what p).
Proof. destruct p; [apply safe_ret | done]. Qed.
Lemma safe_lost need n : safe bad need (lost n).
Proof. unfold lost. destruct (n =? 0)%nat; [done | apply safe_ret]. Qed.

Lemma safe_stmt need s :
  (forall id, guarded s id -> id ∈ need) -> (forall token, bad = Some token -> foreignTo token s) -> safe bad need (stmt s).
Proof.
  intros Ht Hf own Q Hn HQ. split; [split; [| done]; intros id Hid; by apply Hn, Ht |]. intros a own' ->. apply HQ. set_solver.
Qed.

Lemma safe_bind need {X Y} (m : Tx X) (k : X -> Tx Y) :
  safe bad need m -> (forall x, safe bad need (k x)) -> safe bad need (m ≫= k).
Proof.
  intros Hm Hk own Q Hn HQ. apply tx_wp_bind, Hm; [done |]. intros x own' Hs. apply Hk; [set_solver |]. intros y own2 Hs2. apply HQ. set_solver.
Qed.

Lemma safe_weaken need need' {X} (p : Tx X) : safe bad need p -> need ⊆ need' -> safe bad need' p.
Proof. intros Hp Hs own Q Hn. apply Hp. set_solver. Qed.
End Safe.

Create HintDb pgsafe.
#[export] Hint Resolve safe_ret safe_err safe_panic safe_lift safe_deref safe_lost : pgsafe.

(** Bind after bind, and by cases. *)
Ltac safe_tac := repeat first
  [ solve [auto with pgsafe nocore] | solve [match goal with |- safe _ _ (stmt ?s) => apply (safe_stmt _ _ s) end; cbn; (done || set_solver)] | apply safe_bind; [| intros] | case_match ].

(** ** Every method is lawful *)

Section Methods.
Context `{HC : ProtoCodec} `{HF : FailureCodec}.
Variable bad : option string.

(** The token of a call that must not touch the rows of [bad]. *)
Definition spares (token : string) : Prop := forall t, bad = Some t -> token <> t.

Lemma safe_validate need id x : safe bad need (validateChildDestination id x).
Proof. unfold validateChildDestination. safe_tac. Qed.

Lemma safe_deleteEvents need l : safe bad need (deleteEvents l).
Proof. induction l; cbn [deleteEvents]; safe_tac. Qed.

Lemma safe_deleteStale need id t l : safe bad need (deleteStale id t l).
Proof. induction l; cbn [deleteStale]; safe_tac. Qed.

Lemma safe_saveChildResults need s msgs : safe bad need (saveChildResults s msgs).
Proof. induction msgs; cbn [saveChildResults]; safe_tac; apply safe_validate. Qed.

Lemma safe_create need serverNow e : safe bad need (createWorkflowInstanceInternal serverNow e).
Proof. unfold createWorkflowInstanceInternal, insertOrIgnoreInstanceTableInternal. safe_tac. Qed.

Lemma safe_cleanup need id : safe bad need (cleanupWorkflowStateInternal id true).
Proof.
  unfold cleanupWorkflowStateInternal. apply safe_bind; [safe_tac |]. intros ex. destruct (negb ex); [safe_tac |].
  intros own Q Hn HQ. apply tx_wp_bind. split; [split; [done | done] |]. intros n own' ->. cbn [wp].
  destruct ((n =? 0)%nat) eqn:E; cbn [andb].
  - apply safe_ret with (need := need); [set_solver | intros; apply HQ; set_solver].
  - assert (safe bad {[id]} (stmt (SDeleteHistory id);; stmt (SDeleteEvents id);; stmt (SDeleteDeliveries id);; stmt (SDeleteTasks id);; mret (None : option error))) as Hs
      by safe_tac.
    apply Hs; [cbn; rewrite E; set_solver | intros; apply HQ; set_solver].
Qed.

#[local] Hint Resolve safe_validate safe_deleteEvents safe_deleteStale safe_saveChildResults safe_create safe_cleanup : pgsafe.

Lemma safe_createTarget need serverNow e es : safe bad need (createTarget serverNow e es).
Proof. unfold createTarget. safe_tac. Qed.
#[local] Hint Resolve safe_createTarget : pgsafe.

Lemma safe_prepareMessages need serverNow msgs : safe bad need (prepareMessages serverNow msgs).
Proof. induction msgs; cbn [prepareMessages]; safe_tac. Qed.
#[local] Hint Resolve safe_prepareMessages : pgsafe.

Lemma safe_retire need wi s : owi_InstanceID wi ∈ need -> safe bad need (retireGeneration wi s).
Proof.
  intros Hn. unfold retireGeneration, discardPreviousExecutionWork. safe_tac.
Qed.

Lemma safe_saveHistory need wi s : owi_InstanceID wi ∈ need -> safe bad need (saveHistory wi s).
Proof. intros Hn. unfold saveHistory. safe_tac. Qed.

#[local] Hint Resolve safe_retire safe_saveHistory : pgsafe.

(** The update of the instance acquires its row. *)
Lemma lawful_updateInstance now wi s own (Q : unit -> gset string -> Prop) :
  spares (owi_LockedBy wi) -> (forall x own', {[owi_InstanceID wi]} ∪ own ⊆ own' -> Q x own') ->
  lawful bad (updateInstance now wi s) Q own.
Proof.
  intros Hsp HQ. unfold updateInstance. apply tx_wp_bind, (safe_lift bad own); [done |]. intros u own1 Hs. apply tx_wp_bind.
  split; [split; [done | exact Hsp] |]. intros n own' ->. cbn [wp acquired]. unfold lost.
  destruct (n =? 0)%nat eqn:E; [done |]. apply HQ. set_solver.
Qed.

Lemma safe_complete need now serverNow wi : spares (owi_LockedBy wi) -> safe bad need (CompleteWorkflowWorkItem now serverNow wi).
Proof.
  intros Hsp. unfold CompleteWorkflowWorkItem. apply safe_bind; [safe_tac |]. intros s own Q Hn HQ.
  apply tx_wp_bind, lawful_updateInstance; [done |]. intros _ own1 Hs1.
  enough (safe bad {[owi_InstanceID wi]} (retireGeneration wi s;; saveHistory wi s;; saveTasks wi s;;
    saveChildResults s (PendingMessages s);; saveEvents serverNow wi s;; deleteInbound wi)) as H.
  { apply H; [set_solver |]. intros x own2 Hs2. apply HQ. set_solver. }
  unfold saveTasks, saveEvents, deleteInbound.
  assert (owi_InstanceID wi ∈ ({[owi_InstanceID wi]} : gset string)) as Hin by set_solver. safe_tac.
Qed.

#[local] Hint Resolve safe_complete : pgsafe.

Variable opts : PostgresOptions.

(** Every call is lawful; it leaves no instance locked by a token other than its own. *)
Lemma program_safe m : (forall t, bad = Some t -> tokenOf m <> Some t) -> safe bad ∅ (program opts m).
Proof.
  intros Hsp. assert (forall t, tokenOf m = Some t -> spares t) as Ht by (intros t Ht t' Hb <-; by eapply Hsp).
  destruct m; cbn [tokenOf] in Ht.
  2: { apply safe_bind; [by apply safe_complete, Ht | intros; apply safe_ret]. }
  all: unfold program, done, GetWorkflowWorkItem, AbandonWorkflowWorkItem, getActivityWorkItem,
    CompleteActivityWorkItem, AbandonActivityWorkItem, CreateWorkflowInstance, AddNewWorkflowEvent,
    AddNewWorkflowEventWithExternalDelivery, PurgeWorkflowState, GetWorkflowMetadata, GetWorkflowRuntimeState, GetInstanceHistory,
    getStartedAt, getStartEvent, ListInstanceIDs; safe_tac.
  all: match goal with |- safe _ _ (stmt ?s) => apply (safe_stmt _ _ s); [done |]; cbn; by apply Ht | _ => idtac end.
Qed.
End Methods.
