(* ===== verification/PgInvariant.v ===== *)
(** * Invariants of concurrent transactions

    What holds in every reachable state of the PostgreSQL backend: the discipline of
    PgDiscipline.v for every open transaction, what a transaction that leases an
    instance has written, and what a transaction that completes a turn has read and will
    write. *)

From stdpp Require Import base list option strings gmap sets fin_maps relations.
From Stdlib Require Import ZArith Lia.
From S2P Require Import Prelude Errors Protos RuntimeState Propagation Helpers Backend Sqlite SqliteCorrect PgTables Postgres PgConcurrent PgDiscipline.

(** ** Rows and histories *)

(** The row of [id] is locked by [token]. *)
Definition lockedBy (db : PgDB) (id token : string) : Prop :=
  exists n r, db !! KInstance id = Some (RInstance n r) /\ ir_LockedBy r = Some token.

Definition storedHistory (db : PgDB) (id : string) : gmap Z string := list_to_map (historyIn db id).

Lemma elem_of_historyIn db id n p : (n, p) ∈ historyIn db id <-> db !! KHistory id n = Some (RHistory p).
Proof.
  unfold historyIn. rewrite list_elem_of_omap. split.
  - intros ([k r] & Hin%elem_of_map_to_list & Hf). destruct k as [|id' m| | |], r; try done.
    destruct (String.eqb_spec id' id) as [-> |]; [| done]. by simplify_eq.
  - intros H. exists (KHistory id n, RHistory p). rewrite elem_of_map_to_list. by rewrite String.eqb_refl.
Qed.

Lemma NoDup_historyIn db id : NoDup (historyIn db id).*1.
Proof.
  unfold historyIn. assert (NoDup (map_to_list db).*1) as Hn by apply NoDup_fst_map_to_list.
  induction (map_to_list db) as [|[k r] l IH]; cbn in *; [by apply NoDup_nil_2 |].
  apply NoDup_cons in Hn as [Hk Hn]. destruct k as [|id' m| | |], r; auto.
  destruct (String.eqb_spec id' id) as [-> |]; [| auto]. cbn. apply NoDup_cons. split; [| auto].
  intros ([m' p'] & -> & ([k r] & Hin & Hf)%list_elem_of_omap)%list_elem_of_fmap. destruct k as [|id' m| | |], r; try done.
  destruct (String.eqb_spec id' id) as [-> |]; [| done]. simplify_eq. apply Hk. by apply (list_elem_of_fmap_2 fst) in Hin.
Qed.

Lemma storedHistory_lookup db id n :
  storedHistory db id !! n = match db !! KHistory id n with Some (RHistory p) => Some p | _ => None end.
Proof.
  unfold storedHistory. destruct (db !! KHistory id n) as [r|] eqn:E.
  - destruct r as [| p | | |].
    2: { apply elem_of_list_to_map; [apply NoDup_historyIn | by apply elem_of_historyIn]. }
    all: apply not_elem_of_list_to_map; intros ([m p] & -> & Hin)%list_elem_of_fmap; apply elem_of_historyIn in Hin; cbn in E; congruence.
  - apply not_elem_of_list_to_map. intros ([m p] & -> & Hin)%list_elem_of_fmap. apply elem_of_historyIn in Hin. cbn in E. congruence.
Qed.

Lemma storedHistory_ext db db' id : (forall n, db !! KHistory id n = db' !! KHistory id n) -> storedHistory db id = storedHistory db' id.
Proof. intros H. apply map_eq. intros n. by rewrite !storedHistory_lookup, H. Qed.

(** ** The discipline *)

Record tx_ok (x : OpenTx) : Prop := {
  ok_lawful : forall bad, (forall t, bad = Some t -> tokenOf (tx_method x) <> Some t) ->
    exists own, (forall id, id ∈ own -> KInstance id ∈ dom (tx_writes x)) /\ lawful bad (tx_prog x) (fun _ _ => True) own;
  ok_history : forall id n, KHistory id n ∈ dom (tx_writes x) -> KInstance id ∈ dom (tx_writes x);
  ok_token : forall token id n r, tokenOf (tx_method x) <> Some token ->
    tx_writes x !! KInstance id = Some (Some (RInstance n r)) -> ir_LockedBy r <> Some token
}.

Lemma tx_ok_stmt b ord q q' db x s k (e : Effect (answer s)) :
  tx_ok x -> tx_prog x = TStmt s k -> exec b ord s q db = (q', inl e) -> tx_ok (advance x e (k (ef_answer e))).
Proof.
  intros [Hl Hh Ht] Hp Hex. rewrite Hp in Hl. split; cbn.
  - intros bad Hbad. destruct (Hl bad Hbad) as (own & Hown & _ & Hk). exists (acquired s (ef_answer e) ∪ own).
    split; [| by apply Hk]. intros id [Hid | Hid]%elem_of_union; rewrite dom_union.
    + apply elem_of_union_l. by eapply exec_acquired.
    + apply elem_of_union_r. by apply Hown.
  - intros id n. rewrite !dom_union. intros [Hk | Hk]%elem_of_union; apply elem_of_union_r; [| by eapply Hh].
    destruct (Hl None) as (own & Hown & [Hg _] & _); [done |]. apply Hown, Hg, touches_guarded. by eapply exec_history.
  - intros token id n r Htok. rewrite lookup_union_Some_raw. intros [Hw | [_ Hw]]; [| by eapply Ht].
    destruct (Hl (Some token)) as (own & _ & [_ Hf] & _); [by intros ? [= <-] |]. eapply exec_foreign; [done | by apply Hf | done].
Qed.

Section Inv.
Context `{HC : ProtoCodec} `{HF : FailureCodec}.
Variable opts : PostgresOptions.

Lemma tx_ok_begin m : tx_ok (mkOpenTx m ∅ ∅ (program opts m)).
Proof.
  split; cbn; [| set_solver | intros *; by rewrite lookup_empty].
  intros bad Hb. exists ∅. split; [set_solver |]. by apply (program_safe bad opts m Hb).
Qed.

Lemma tx_ok_fail x err : tx_ok x -> tx_ok (mkOpenTx (tx_method x) (tx_writes x) (tx_locks x) (TErr err)).
Proof. intros [Hl Hh Ht]. split; cbn; [| done | done]. intros bad _. exists ∅. split; [set_solver | done]. Qed.

(** A property of single transactions that every step keeps. *)
Lemma each_step (P : Pg -> OpenTx -> Prop) l st st' :
  (forall m, P st' (mkOpenTx m ∅ ∅ (program opts m))) ->
  (forall t x y, pg_open st !! t = Some x -> pg_open st' !! t = Some y -> tx_method y = tx_method x -> P st x ->
     (exists s k ord q (e : Effect (answer s)), tx_prog x = TStmt s k /\ anyOrder ord /\
        exec (busy t st) ord s (pg_seqs st) (view st x) = (q, inl e) /\ (dom (ef_writes e) ∪ ef_locks e) ## busy t st /\
        y = advance x e (k (ef_answer e)) /\ pg_db st' = pg_db st) \/
     (exists err, y = mkOpenTx (tx_method x) (tx_writes x) (tx_locks x) (TErr err) /\ pg_db st' = pg_db st) -> P st' y) ->
  (forall t x, pg_open st !! t = Some x -> pg_open st' !! t = Some x -> P st x -> P st' x) ->
  pg_step opts l st st' -> (forall t x, pg_open st !! t = Some x -> P st x) -> forall t x, pg_open st' !! t = Some x -> P st' x.
Proof.
  intros Hb Hst Hr Hs Hall t' y Hy. destruct Hs as [t m st Ht | t x s k ord q e st Ht Hp Ho Hex Hd | t x s k ord q err st Ht Hp Ho Hex | t x r st Ht Hp | t x st Ht];
    cbn in Hy; (destruct (decide (t' = t)) as [-> | Hne]; [rewrite ?lookup_insert_eq, ?lookup_delete_eq in Hy | rewrite ?lookup_insert_ne, ?lookup_delete_ne in Hy by done]); try done;
    try (eapply Hr; [exact Hy | cbn; by rewrite ?lookup_insert_ne, ?lookup_delete_ne by done | by eapply Hall]).
  - injection Hy as <-. apply Hb.
  - injection Hy as <-. eapply (Hst t x); [done | cbn; by rewrite lookup_insert_eq | done | by eapply Hall |]. left.
    exists s, k, ord, q, e. done.
  - injection Hy as <-. eapply (Hst t x); [done | cbn; by rewrite lookup_insert_eq | done | by eapply Hall |]. right. by exists err.
Qed.

Definition pg_inv (st : Pg) : Prop := exclusive st /\ forall t x, pg_open st !! t = Some x -> tx_ok x.

Lemma pg_inv_step l st st' : pg_step opts l st st' -> pg_inv st -> pg_inv st'.
Proof.
  intros Hs [He Hall]. split; [by eapply exclusive_step |].
  apply (each_step (fun _ => tx_ok) l st st'); [apply tx_ok_begin | | done | done | done].
  intros t x y _ _ _ Hx [(s & k & ord & q & e & Hp & _ & Hex & _ & -> & _) | (err & -> & _)]; [by eapply tx_ok_stmt | by apply tx_ok_fail].
Qed.

(** ** Leases *)

(** The instance the transaction has leased, after its first statement. *)
Definition leasePre (g : option string) (s : Stmt) : Prop :=
  match s with SLeaseInstance _ _ _ => False | _ => True end.
Definition leasePost (g : option string) (s : Stmt) : answer s -> option string -> Prop :=
  match s return answer s -> option string -> Prop with
  | SReleaseInstance _ _ | SUpdateInstance _ _ _ _ _ _ | SInsertInstance _ | SDeleteInstance _ _ => fun _ g' => g' = None
  | _ => fun _ g' => g' = g
  end.

Definition leaseReply (token : string) (r : Reply) (g : option string) : Prop :=
  forall wi, r = RepWorkflow (Some wi) -> g = Some (owi_InstanceID wi) /\ owi_LockedBy wi = token.

Lemma lease_program now token :
  exists k, program opts (MGetWorkflowWorkItem now token) = TStmt (SLeaseInstance token (now + pgWorkflowLockTimeout opts) now) k /\
    forall o, wp leasePre leasePost (k o) (leaseReply token) (fst <$> o).
Proof.
  cbn [program]. unfold GetWorkflowWorkItem. eexists. split; [reflexivity |]. intros [[id x]|]; [| done].
  apply tx_wp_bind, tx_wp_bind. split; [done |]. intros events g ->. cbn [wp]. apply tx_wp_bind.
  destruct (scanLeased x events [] [] false 0) as [[[[dq stale] hasChild] maxCount]|]; [| done]. cbn [liftTx wp]. apply tx_wp_bind.
  enough (wp leasePre leasePost (deleteStale id token stale;;
    match dq with [] => stmt (SReleaseInstance id token);; mret None | _ => mret (Some (mkWorkflowWorkItem id (map snd (orderBy fst dq)) token
      (int32_of (maxCount - 1)) None None ∅)) end) (fun wi => wp leasePre leasePost (mret (RepWorkflow wi)) (leaseReply token)) (Some id)) as Hrest.
  { destruct hasChild; [| exact Hrest]. unfold validateChildDestination. apply tx_wp_bind. split; [done |]. intros ps g ->. cbn [wp].
    destruct (validateChildLoop ps x); [done | exact Hrest]. }
  induction stale as [|n stale IH]; cbn [deleteStale].
  - destruct dq as [|d dq]; cbn; [split; [done |]; intros a g ->; by intros wi [=] |]. intros wi [= <-]. done.
  - split; [done |]. intros a g ->. apply IH.
Qed.

(** The row is leased by [token] until [until]. *)
Definition leasedRow (token : string) (until : Z) (r : InstanceRow) : Prop :=
  ir_LockedBy r = Some token /\ ir_LockExpiration r = Some until.

(** The committed row is free for a lease at [now]. *)
Definition freeAt (db : PgDB) (id : string) (now : Z) : Prop :=
  exists n row, db !! KInstance id = Some (RInstance n row) /\ nullOrLt (ir_LockExpiration row) (pgTime now) = true.

(** What the transaction of a lease has found and written. *)
Definition lease_ok (st : Pg) (x : OpenTx) : Prop := forall now token, tx_method x = MGetWorkflowWorkItem now token ->
  (tx_prog x = program opts (tx_method x) /\ tx_writes x = ∅) \/
  exists g, wp leasePre leasePost (tx_prog x) (leaseReply token) g /\
    forall id, g = Some id -> freeAt (pg_db st) id now /\
      exists n r, tx_writes x !! KInstance id = Some (Some (RInstance n r)) /\ leasedRow token (pgTime (now + pgWorkflowLockTimeout opts)) r.

Lemma elem_of_instancesIn db id n r : (id, (n, r)) ∈ instancesIn db <-> db !! KInstance id = Some (RInstance n r).
Proof.
  unfold instancesIn. rewrite list_elem_of_omap. split.
  - intros ([k r'] & Hin%elem_of_map_to_list & Hf). by destruct k, r'; simplify_eq.
  - intros H. exists (KInstance id, RInstance n r). by rewrite elem_of_map_to_list.
Qed.

Lemma leaseCandidate_free b now db id n r : leaseCandidate b now db = Some (id, (n, r)) -> freeAt db id now.
Proof.
  unfold leaseCandidate. intros H. assert ((id, (n, r)) ∈ instancesIn db /\ nullOrLt (ir_LockExpiration r) (pgTime now) = true) as [Hin Hf].
  { apply head_Some_elem_of in H. rewrite orderBy_perm, list_elem_of_In, filter_In, <- list_elem_of_In in H. destruct H as [Hin Hc].
    apply andb_true_iff in Hc as [Hc _]. apply andb_true_iff in Hc as [Hc _]. done. }
  exists n, r. by rewrite <- elem_of_instancesIn.
Qed.

Lemma lease_ok_stmt st st' t x s k ord q (e : Effect (answer s)) :
  lease_ok st x -> tx_prog x = TStmt s k -> exec (busy t st) ord s (pg_seqs st) (view st x) = (q, inl e) ->
  pg_db st' = pg_db st -> lease_ok st' (advance x e (k (ef_answer e))).
Proof.
  intros Hl Hp Hex Hdb now token Hm. cbn in Hm. right. destruct (Hl now token Hm) as [[Hf Hw] | (g & Hwp & Hg)].
  - rewrite Hm, Hp in Hf. destruct (lease_program now token) as (k0 & Hprog & Hk0). rewrite Hprog in Hf.
    assert (s = SLeaseInstance token (now + pgWorkflowLockTimeout opts) now) as -> by congruence. apply TStmt_inj in Hf as ->.
    eexists. split; [apply Hk0 |]. rewrite Hdb. cbn [exec] in Hex. injection Hex as <- <-. unfold view in *. rewrite Hw, overlay_empty in *.
    destruct (leaseCandidate _ now (pg_db st)) as [[id [n r]]|] eqn:E; [| done]. cbn. intros id' [= <-]. split; [by eapply leaseCandidate_free |].
    exists n. eexists. split; [apply lookup_union_Some_l, lookup_singleton_eq | done].
  - rewrite Hp in Hwp. destruct Hwp as [Hpre Hwp].
    assert ((forall id, ~ mayWrite s (KInstance id)) -> leasePost g s (ef_answer e) g -> exists g', wp leasePre leasePost (k (ef_answer e)) (leaseReply token) g' /\
      forall id, g' = Some id -> freeAt (pg_db st') id now /\ exists n r, (ef_writes e ∪ tx_writes x) !! KInstance id = Some (Some (RInstance n r)) /\
        leasedRow token (pgTime (now + pgWorkflowLockTimeout opts)) r) as Hquiet.
    { intros Hn Hsame. exists g. split; [by apply Hwp |]. intros id (Hfree & n & r & Hr & ?)%Hg. rewrite Hdb. split; [done |]. exists n, r. split; [| done].
      rewrite lookup_union_r; [done |]. apply not_elem_of_dom. intros Hd. eapply Hn, exec_mayWrite, Hd. done. }
    destruct s; try (exact (Hquiet (fun _ H => H) eq_refl)); try (by exists None; split; [by apply Hwp | done]).
Qed.

(** ** The history a turn writes *)

(** The history of [id] a transaction sees, once nobody else can change it. *)
Definition histPre (h : gmap Z string) (s : Stmt) : Prop := True.
Definition histPost (id : string) (h : gmap Z string) (s : Stmt) (a : answer s) (h' : gmap Z string) : Prop :=
  match s with
  | SInsertHistory id' first payloads =>
      if String.eqb id' id then map_seqZ first payloads ##ₘ h /\ h' = map_seqZ first payloads ∪ h else h' = h
  | SDeleteHistory id' => h' = if String.eqb id' id then ∅ else h
  | _ => h' = h
  end.

Definition quiet (id : string) {X} (p : Tx X) : Prop := forall h (Q : X -> gmap Z string -> Prop),
  (forall x, Q x h) -> wp histPre (histPost id) p Q h.

Section Quiet.
Variable id : string.
Lemma quiet_ret {X} (x : X) : quiet id (mret x).
Proof. intros h Q HQ. apply HQ. Qed.
Lemma quiet_err {X} err : quiet id (TErr err : Tx X).
Proof. done. Qed.
Lemma quiet_panic {X} msg : quiet id (TPanic msg : Tx X).
Proof. done. Qed.
Lemma quiet_lift {X} (r : X + error) : quiet id (liftTx r).
Proof. by destruct r; [apply quiet_ret |]. Qed.
Lemma quiet_deref {X} what (p : option X) : quiet id (derefTx what p).
Proof. by destruct p; [apply quiet_ret |]. Qed.
Lemma quiet_lost n : quiet id (lost n).
Proof. unfold lost. by destruct (n =? 0)%nat; [| apply quiet_ret]. Qed.
Lemma quiet_stmt s : (forall h a h', histPost id h s a h' -> h' = h) -> quiet id (stmt s).
Proof. intros Hs h Q HQ. split; [done |]. intros a h' Ha. rewrite (Hs h a h' Ha). apply HQ. Qed.
Lemma quiet_bind {X Y} (m : Tx X) (k : X -> Tx Y) : quiet id m -> (forall x, quiet id (k x)) -> quiet id (m ≫= k).
Proof. intros Hm Hk h Q HQ. apply tx_wp_bind, Hm. intros x. by apply Hk. Qed.
End Quiet.

#[local] Hint Resolve quiet_ret quiet_err quiet_panic quiet_lift quiet_deref quiet_lost : pgsafe.
Ltac quiet_tac := repeat first
  [ solve [auto with pgsafe nocore]
  | solve [match goal with |- quiet _ (stmt ?s) => apply (quiet_stmt _ s) end; by intros]
  | apply quiet_bind; [| intros] | case_match ].

Lemma quiet_validate id id' x : quiet id (validateChildDestination id' x).
Proof. unfold validateChildDestination. quiet_tac. Qed.
Lemma quiet_deleteEvents id l : quiet id (deleteEvents l).
Proof. induction l; cbn [deleteEvents]; quiet_tac. Qed.
#[local] Hint Resolve quiet_validate quiet_deleteEvents : pgsafe.
Lemma quiet_saveChildResults id s msgs : quiet id (saveChildResults s msgs).
Proof. induction msgs; cbn [saveChildResults]; quiet_tac. Qed.
Lemma quiet_create id serverNow e : quiet id (createWorkflowInstanceInternal serverNow e).
Proof. unfold createWorkflowInstanceInternal, insertOrIgnoreInstanceTableInternal. quiet_tac. Qed.
Lemma quiet_cleanup id id' : id' <> id -> quiet id (cleanupWorkflowStateInternal id' true).
Proof.
  intros Hne%String.eqb_neq. unfold cleanupWorkflowStateInternal. quiet_tac. apply (quiet_stmt _ (SDeleteHistory id')).
  cbn. by rewrite Hne.
Qed.
#[local] Hint Resolve quiet_saveChildResults quiet_create quiet_cleanup : pgsafe.

(** The message does not start the workflow [id]. *)
Definition startsOther (id : string) (msg : WorkflowRuntimeStateMessage) : Prop := forall es w,
  GetExecutionStarted (msg_HistoryEvent msg) = Some es -> es_WorkflowInstance es = Some w -> wi_InstanceId w <> id.

Lemma quiet_createTarget id serverNow e es :
  (forall w, es_WorkflowInstance es = Some w -> wi_InstanceId w <> id) -> quiet id (createTarget serverNow e es).
Proof.
  intros Hw. unfold createTarget. apply quiet_bind; [quiet_tac |]. intros [i [|]]; [quiet_tac |].
  destruct (es_WorkflowInstance es) as [w|]; [| done]. specialize (Hw w eq_refl).
  change (derefTx "nil WorkflowInstance" (Some w)) with (mret w : Tx WorkflowInstance).
  match goal with |- quiet _ (mret ?a ≫= ?k) => change (mret a ≫= k) with (k a) end. cbv beta. quiet_tac.
Qed.

Lemma quiet_prepareMessages id serverNow msgs : Forall (startsOther id) msgs -> quiet id (prepareMessages serverNow msgs).
Proof.
  induction 1 as [|msg msgs Hm Hms IH]; cbn [prepareMessages]; [quiet_tac |]. destruct (IsChildResult _); [done |].
  apply quiet_bind; [| intros; quiet_tac]. destruct (GetExecutionStarted (msg_HistoryEvent msg)) as [es|] eqn:E; [| quiet_tac].
  apply quiet_createTarget. intros w Hw. by eapply Hm.
Qed.

(** What completing a turn makes of the history [h0]. *)
Definition turnHistory (s : WorkflowRuntimeState) (h0 h : gmap Z string) : Prop :=
  exists new, tryMap MarshalHistoryEvent (NewEvents s) = inl new /\
    let kept := if ContinuedAsNew s then ∅ else h0 in
    map_seqZ (Z.of_nat (length (OldEvents s))) new ##ₘ kept /\ h = map_seqZ (Z.of_nat (length (OldEvents s))) new ∪ kept.

Lemma complete_program now serverNow wi s h0 :
  owi_State wi = Some s -> Forall (startsOther (owi_InstanceID wi)) (PendingMessages s) ->
  wp histPre (histPost (owi_InstanceID wi)) (program opts (MCompleteWorkflowWorkItem now serverNow wi)) (fun _ => turnHistory s h0) h0.
Proof.
  intros Hs Hm. cbn [program]. unfold done, CompleteWorkflowWorkItem. rewrite Hs. cbn [derefTx]. apply tx_wp_bind, tx_wp_bind. cbn [wp]. apply tx_wp_bind.
  unfold updateInstance. apply tx_wp_bind, quiet_lift. intros u. apply tx_wp_bind, (quiet_stmt _ (SUpdateInstance _ _ _ _ _ _)); [done |]. intros n. apply quiet_lost. intros _.
  apply tx_wp_bind. set (kept := if ContinuedAsNew s then ∅ else h0).
  assert (forall Q : unit -> gmap Z string -> Prop, Q tt kept -> wp histPre (histPost (owi_InstanceID wi)) (retireGeneration wi s) Q h0) as Hr.
  { intros Q HQ. unfold retireGeneration, kept in *. destruct (ContinuedAsNew s); [| exact HQ]. apply tx_wp_bind.
    assert (quiet (owi_InstanceID wi) (discardPreviousExecutionWork wi)) as Hd by (unfold discardPreviousExecutionWork; quiet_tac).
    apply Hd. intros _. split; [done |]. intros a h' ->. rewrite String.eqb_refl. by destruct a. }
  apply Hr. apply tx_wp_bind.
  assert (forall h, turnHistory s h0 h -> wp histPre (histPost (owi_InstanceID wi)) (saveTasks wi s;; saveChildResults s (PendingMessages s);;
    saveEvents serverNow wi s;; deleteInbound wi) (fun _ => wp histPre (histPost (owi_InstanceID wi)) (mret RepDone) (fun _ => turnHistory s h0)) h) as Hrest.
  { intros h Hh. assert (quiet (owi_InstanceID wi) (saveTasks wi s;; saveChildResults s (PendingMessages s);; saveEvents serverNow wi s;; deleteInbound wi)) as Hq.
    { pose proof (quiet_prepareMessages (owi_InstanceID wi) serverNow (PendingMessages s) Hm). unfold saveTasks, saveEvents, deleteInbound. quiet_tac. }
    by apply Hq. }
  unfold saveHistory. destruct (NewEvents s) as [|e es] eqn:En.
  - apply Hrest. exists []. rewrite En. split; [done |]. cbn. split; [apply map_disjoint_empty_l | by rewrite map_empty_union].
  - apply tx_wp_bind. destruct (tryMap MarshalHistoryEvent (e :: es)) as [new|] eqn:Et; [| done]. cbn [liftTx wp]. split; [done |].
    intros a h'. cbn [histPost]. rewrite String.eqb_refl. intros [Hd ->]. apply Hrest. exists new. by rewrite En.
Qed.

(** Where the transaction that completes a turn is: it has not started, it has failed, or
    it has the row of the instance, whose lock it has checked. *)
Definition complete_ok (st : Pg) (x : OpenTx) : Prop := forall now serverNow wi s,
  tx_method x = MCompleteWorkflowWorkItem now serverNow wi -> owi_State wi = Some s ->
  Forall (startsOther (owi_InstanceID wi)) (PendingMessages s) ->
  (tx_prog x = program opts (tx_method x) /\ tx_writes x = ∅) \/ (exists err, tx_prog x = TErr err) \/
  (KInstance (owi_InstanceID wi) ∈ dom (tx_writes x) /\ lockedBy (pg_db st) (owi_InstanceID wi) (owi_LockedBy wi) /\
   wp histPre (histPost (owi_InstanceID wi)) (tx_prog x) (fun _ => turnHistory s (storedHistory (pg_db st) (owi_InstanceID wi)))
     (storedHistory (view st x) (owi_InstanceID wi))).

(** The own view of a history after a statement. *)
Lemma exec_histPost id b ord q q' db s (e : Effect (answer s)) :
  exec b ord s q db = (q', inl e) ->
  histPost id (storedHistory db id) s (ef_answer e) (storedHistory (overlay (ef_writes e) db) id).
Proof.
  intros Hex. assert ((forall n, KHistory id n ∉ dom (ef_writes e)) -> storedHistory (overlay (ef_writes e) db) id = storedHistory db id) as Hsame.
  { intros Hn. apply storedHistory_ext. intros n. rewrite overlay_lookup. by rewrite (not_elem_of_dom_1 _ _ (Hn n)). }
  assert (~ touchesHistory s id -> storedHistory (overlay (ef_writes e) db) id = storedHistory db id) as Hquiet.
  { intros Ht. apply Hsame. intros n Hd. by eapply Ht, exec_history. }
  destruct s; cbn [histPost]; try (exact (Hquiet (fun H => H))).
  - destruct (String.eqb_spec id0 id) as [-> | Hne]; [| apply Hquiet; cbn; congruence]. cbn [exec] in Hex.
    destruct (_ <? _)%nat; [done |]. case_bool_decide as Hf; [| done]. injection Hex as <- <-. cbn.
    assert (map_seqZ first payloads ##ₘ storedHistory db id) as Hd.
    { apply map_disjoint_spec. intros n p p' Hp Hp'. rewrite storedHistory_lookup in Hp'.
      pose proof (map_Forall_lookup_1 _ _ (KHistory id n) (Some (RHistory p)) Hf) as Hnone. cbn in Hnone. rewrite Hnone in Hp'; [done |].
      rewrite historyWrites_lookup, String.eqb_refl. by rewrite Hp. }
    split; [done |]. apply map_eq. intros n. rewrite storedHistory_lookup, overlay_lookup, historyWrites_lookup, String.eqb_refl.
    destruct (map_seqZ first payloads !! n) as [p|] eqn:E; cbn.
    + by rewrite (lookup_union_Some_l _ _ _ _ E).
    + by rewrite lookup_union_r, storedHistory_lookup by done.
  - destruct (String.eqb_spec id0 id) as [-> | Hne]; [| apply Hquiet; cbn; congruence]. cbn [exec] in Hex. injection Hex as <- <-.
    apply map_eq. intros n. rewrite lookup_empty, storedHistory_lookup, overlay_lookup, deleting_lookup. cbn.
    by destruct (db !! KHistory id n); rewrite ?String.eqb_refl.
Qed.

Lemma view_advance st x {A} (e : Effect A) p : view st (advance x e p) = overlay (ef_writes e) (view st x).
Proof. unfold view. cbn. by rewrite overlay_overlay. Qed.

(** The first statement of a completion. *)
Lemma complete_head now serverNow wi :
  (exists u status custom k, program opts (MCompleteWorkflowWorkItem now serverNow wi) =
     TStmt (SUpdateInstance (owi_InstanceID wi) (owi_LockedBy wi) u status custom now) k /\ k 0%nat = TErr ErrWorkItemLockLost) \/
  (exists err, program opts (MCompleteWorkflowWorkItem now serverNow wi) = TErr err) \/
  (exists msg, program opts (MCompleteWorkflowWorkItem now serverNow wi) = TPanic msg).
Proof.
  cbn [program]. unfold done, CompleteWorkflowWorkItem, updateInstance. destruct (owi_State wi) as [s0|]; [| by right; right; eexists]. cbn.
  destruct (scanNewEvents _ _) as [u|]; [left; do 4 eexists; by split | right; left; by eexists].
Qed.

(** A successful update found the row with the token. *)
Lemma update_found b ord q q' db id token u status custom now (e : Effect nat) :
  exec b ord (SUpdateInstance id token u status custom now) q db = (q', inl e) -> ef_answer e <> 0%nat ->
  KInstance id ∈ dom (ef_writes e) /\ lockedBy db id token.
Proof.
  intros Hex Hn. assert (KInstance id ∈ dom (ef_writes e)) as Hd.
  { eapply (exec_acquired b ord q q' db (SUpdateInstance id token u status custom now)); [done |]. cbn.
    apply Nat.eqb_neq in Hn. rewrite Hn. by apply elem_of_singleton. }
  split; [done |]. apply elem_of_dom in Hd as [v Hv]. cbn [exec] in Hex. injection Hex as <- <-.
  apply updating_inv in Hv as ([n r| | | |] & Hr & Hv); try done. unfold onOwnInstance in Hv.
  destruct (bool_decide _ && _) eqn:Hc; [| done]. apply andb_true_iff in Hc as [_ Hc]. exists n, r. split; [done |].
  destruct (ir_LockedBy r); [| done]. by apply String.eqb_eq in Hc as ->.
Qed.

Lemma complete_ok_stmt st st' t x s k ord q (e : Effect (answer s)) :
  complete_ok st x -> tx_prog x = TStmt s k -> exec (busy t st) ord s (pg_seqs st) (view st x) = (q, inl e) ->
  pg_db st' = pg_db st -> complete_ok st' (advance x e (k (ef_answer e))).
Proof.
  intros Hc Hp Hex Hdb now serverNow wi w Hm Hs Hmsgs. cbn in Hm. right.
  assert (storedHistory (view st' (advance x e (k (ef_answer e)))) (owi_InstanceID wi) =
    storedHistory (overlay (ef_writes e) (view st x)) (owi_InstanceID wi)) as Hv.
  { rewrite view_advance. unfold view. by rewrite Hdb. }
  destruct (Hc now serverNow wi w Hm Hs Hmsgs) as [[Hfresh Hw] | [[err Herr] | (Hd & Hl & Hwp)]]; [| congruence |].
  - rewrite Hm, Hp in Hfresh. pose proof (complete_program now serverNow wi w (storedHistory (pg_db st) (owi_InstanceID wi)) Hs Hmsgs) as Hwp.
    destruct (complete_head now serverNow wi) as [(u & status & custom & k0 & Hprog & Hk0) | [[err Hprog] | [msg Hprog]]];
      rewrite Hprog in Hfresh, Hwp; [| done..].
    assert (s = SUpdateInstance (owi_InstanceID wi) (owi_LockedBy wi) u status custom now) as -> by congruence.
    apply TStmt_inj in Hfresh as ->. destruct (decide (ef_answer e = 0%nat)) as [Ha | Ha].
    + left. exists ErrWorkItemLockLost. etrans; [| exact Hk0]. cbn. f_equal. exact Ha.
    + right. rewrite Hdb, Hv. apply update_found in Hex as Hf; [| done]. destruct Hf as [Hd Hl].
      assert (view st x = pg_db st) as Hview by (unfold view; by rewrite Hw, overlay_empty). rewrite Hview in *.
      split_and!; [cbn; rewrite dom_union; by apply elem_of_union_l | done |].
      destruct Hwp as [_ Hwp]. apply Hwp. by eapply exec_histPost.
  - right. rewrite Hdb, Hv. split_and!; [cbn; rewrite dom_union; by apply elem_of_union_r | done |].
    rewrite Hp in Hwp. destruct Hwp as [_ Hwp]. apply Hwp. by eapply exec_histPost.
Qed.

(** What a commit of another transaction leaves alone. *)
Lemma commit_spares t t' x x' st id :
  pg_inv st -> t <> t' -> pg_open st !! t = Some x -> pg_open st !! t' = Some x' -> KInstance id ∈ dom (tx_writes x) ->
  overlay (tx_writes x') (pg_db st) !! KInstance id = pg_db st !! KInstance id /\
  forall n, overlay (tx_writes x') (pg_db st) !! KHistory id n = pg_db st !! KHistory id n.
Proof.
  intros [He Hok] Hne Hx Hx' Hd. assert (KInstance id ∉ dom (tx_writes x')) as Hn.
  { intros Hd'. apply (He t t' x x' Hne Hx Hx' (KInstance id)); unfold held; set_solver. }
  split; [| intros n]; rewrite overlay_lookup.
  - by rewrite (not_elem_of_dom_1 _ _ Hn).
  - rewrite not_elem_of_dom_1; [done |]. intros Hh. by apply Hn, (ok_history _ (Hok t' x' Hx') id n).
Qed.

Lemma complete_ok_commit t t' x x' st :
  pg_inv st -> t <> t' -> pg_open st !! t = Some x -> pg_open st !! t' = Some x' ->
  complete_ok st x -> complete_ok (commit t' x' st) x.
Proof.
  intros Hi Hne Hx Hx' Hc now serverNow wi s Hm Hs Hmsgs. destruct (Hc now serverNow wi s Hm Hs Hmsgs) as [? | [? | (Hd & Hl & Hwp)]]; [by left | by right; left |].
  destruct (commit_spares t t' x x' st _ Hi Hne Hx Hx' Hd) as [H1 H2]. right. right. split_and!; [done | |].
  - destruct Hl as (n & r & Hr & ?). exists n, r. cbn. by rewrite H1.
  - assert (storedHistory (pg_db (commit t' x' st)) (owi_InstanceID wi) = storedHistory (pg_db st) (owi_InstanceID wi)) as -> by by apply storedHistory_ext.
    assert (storedHistory (view (commit t' x' st) x) (owi_InstanceID wi) = storedHistory (view st x) (owi_InstanceID wi)) as ->; [| done].
    apply storedHistory_ext. intros n. unfold view. rewrite !overlay_lookup. cbn. by rewrite H2.
Qed.

Lemma lease_ok_commit t t' x x' st :
  pg_inv st -> t <> t' -> pg_open st !! t = Some x -> pg_open st !! t' = Some x' -> lease_ok st x -> lease_ok (commit t' x' st) x.
Proof.
  intros Hi Hne Hx Hx' Hl now token Hm. destruct (Hl now token Hm) as [? | (g & Hwp & Hg)]; [by left |]. right. exists g. split; [done |].
  intros id (Hfree & n & r & Hr & ?)%Hg. split; [| by exists n, r]. destruct Hfree as (n' & row & Hrow & ?). exists n', row. cbn.
  destruct (commit_spares t t' x x' st id Hi Hne Hx Hx' (elem_of_dom_2 _ _ _ Hr)) as [-> _]. done.
Qed.

(** The database is the same, or another transaction has committed. *)
Lemma each_rest (P : Pg -> OpenTx -> Prop) l st st' :
  (forall st st' x, pg_db st' = pg_db st -> P st x -> P st' x) ->
  (forall t t' x x' st, pg_inv st -> t <> t' -> pg_open st !! t = Some x -> pg_open st !! t' = Some x' -> P st x -> P (commit t' x' st) x) ->
  pg_inv st -> pg_step opts l st st' -> forall t x, pg_open st !! t = Some x -> pg_open st' !! t = Some x -> P st x -> P st' x.
Proof.
  intros Hsame Hcommit Hi Hs t x Hx Hx'. destruct Hs as [t' m st Ht | t' x' s k ord q e st Ht Hp Ho Hex Hd | t' x' s k ord q err st Ht Hp Ho Hex | t' x' r st Ht Hp | t' x' st Ht];
    try (by apply Hsame). destruct (decide (t = t')) as [-> | Hne]; [cbn in Hx'; by rewrite lookup_delete_eq in Hx' |]. by eapply Hcommit.
Qed.

Lemma lease_ok_same st st' x : pg_db st' = pg_db st -> lease_ok st x -> lease_ok st' x.
Proof. intros Hdb Hl. unfold lease_ok in *. by rewrite Hdb. Qed.

Lemma complete_ok_same st st' x : pg_db st' = pg_db st -> complete_ok st x -> complete_ok st' x.
Proof. intros Hdb Hc. unfold complete_ok, view in *. by rewrite Hdb. Qed.

Record pg_good (st : Pg) : Prop := {
  good_inv : pg_inv st;
  good_lease : forall t x, pg_open st !! t = Some x -> lease_ok st x;
  good_complete : forall t x, pg_open st !! t = Some x -> complete_ok st x
}.

Lemma pg_good_step l st st' : pg_step opts l st st' -> pg_good st -> pg_good st'.
Proof.
  intros Hs [Hi Hl Hc]. split; [by eapply pg_inv_step | |].
  - apply (each_step lease_ok l st st'); [| | | done | done].
    + intros m now token Hm. by left.
    + intros t x y _ _ _ Hx [(s & k & ord & q & e & Hp & _ & Hex & _ & -> & Hdb) | (err & -> & _)]; [by eapply lease_ok_stmt |].
      intros now token Hm. right. by exists None.
    + by apply (each_rest lease_ok l st st' lease_ok_same lease_ok_commit).
  - apply (each_step complete_ok l st st'); [| | | done | done].
    + intros m now serverNow wi s Hm _ _. by left.
    + intros t x y _ _ _ Hx [(s & k & ord & q & e & Hp & _ & Hex & _ & -> & Hdb) | (err & -> & _)]; [by eapply complete_ok_stmt |].
      intros now serverNow wi s Hm _ _. right. left. by exists err.
    + by apply (each_rest complete_ok l st st' complete_ok_same complete_ok_commit).
Qed.

Lemma pg_good_start : pg_good pg_start.
Proof. by split; [split; intros ? |..]; intros *; cbn; rewrite ?lookup_empty. Qed.

Lemma reachable_good st : pg_reachable opts st -> pg_good st.
Proof.
  intros Hr. assert (pg_good pg_start) as H0 by apply pg_good_start. revert H0.
  induction Hr as [|a b c [l Hab] _ IH]; [done |]. intros Ha. by eapply IH, pg_good_step.
Qed.
End Inv.
