(* ===== verification/PgNumbers.v ===== *)
(** * Rows and numbers

    In every reachable state each row is stored under its own key, and the numbers of
    NewEvents and NewTasks are below the value their sequence hands out next.  So a
    number is used once: a task that has been deleted never comes back, and nobody can
    complete it. *)

From stdpp Require Import base list option strings gmap sets fin_maps relations.
From Stdlib Require Import ZArith Lia.
From S2P Require Import Prelude Errors Protos RuntimeState Propagation Helpers Backend Sqlite SqliteCorrect.
From S2P Require Import PgTables Postgres PgConcurrent PgDiscipline PgInvariant.

(** ** Keys and numbers *)

(** The row belongs under the key. *)
Definition keyed (k : Key) (r : Row) : Prop :=
  match k, r with
  | KInstance id, RInstance _ r => ir_InstanceID r = id
  | KHistory _ _, RHistory _ => True
  | KEvent n, REvent e => ne_SequenceNumber e = n
  | KDelivery _ _ _, RDelivery => True
  | KTask n, RTask t => nt_SequenceNumber t = n
  | _, _ => False
  end.

(** The number of the key has been drawn. *)
Definition drawn (q : Seqs) (k : Key) : Prop :=
  match k with
  | KEvent n => 1 <= n < sq_NewEvents q
  | KTask n => 1 <= n < sq_NewTasks q
  | _ => True
  end.

(** The number of the key was drawn between [q] and [q']. *)
Definition fresh (q q' : Seqs) (k : Key) : Prop :=
  match k with
  | KEvent n => sq_NewEvents q <= n < sq_NewEvents q'
  | KTask n => sq_NewTasks q <= n < sq_NewTasks q'
  | _ => True
  end.

Definition later (q q' : Seqs) : Prop := sq_NewEvents q <= sq_NewEvents q' /\ sq_NewTasks q <= sq_NewTasks q'.

Lemma withSeq_later {A} params next count setq q (e : Effect A) q' r :
  (forall n, next <= n -> later q (setq n q)) -> withSeq params next count setq q e = (q', r) -> later q q'.
Proof.
  intros Hs. unfold withSeq, draw. destruct (_ <? _)%nat; [intros [= <- _]; split; lia |].
  destruct (_ <=? _) eqn:E; intros [= <- _]; apply Hs; lia.
Qed.

Lemma exec_later b ord s q db q' r : exec b ord s q db = (q', r) -> later q q'.
Proof.
  destruct s; cbn [exec]; try (by intros [= <- _]; split); apply withSeq_later; intros n Hn; split; cbn; lia.
Qed.

Lemma eventRows_keyed n rows k r : eventRows n rows !! k = Some (Some r) -> keyed k r.
Proof.
  revert n. induction rows as [|[[[iid p] v] g] rows IH]; intros n; cbn; [by rewrite lookup_empty |].
  rewrite lookup_insert_Some. intros [[<- [= <-]] | [_ H]]; [done | by eapply IH].
Qed.

Lemma taskRows_keyed n id ps k r : taskRows n id ps !! k = Some (Some r) -> keyed k r.
Proof.
  revert n. induction ps as [|p ps IH]; intros n; cbn; [by rewrite lookup_empty |].
  rewrite lookup_insert_Some. intros [[<- [= <-]] | [_ H]]; [done | by eapply IH].
Qed.

Lemma updated_id u status custom now r : ir_InstanceID (updatedInstance u status custom now r) = ir_InstanceID r.
Proof. unfold updatedInstance. by destruct (iu_created u) as [[[] ]|], (iu_completed u) as [[]|]. Qed.

Section Exec.
Variables (b : gset Key) (ord : forall R, list R -> list R) (q q' : Seqs) (db : PgDB).
Hypothesis Hdb : map_Forall keyed db.

Lemma elem_of_tasksIn t : t ∈ tasksIn db -> db !! KTask (nt_SequenceNumber t) = Some (RTask t).
Proof.
  intros ([k r] & Hin%elem_of_map_to_list & Hf)%list_elem_of_omap. destruct k, r; try done. injection Hf as ->.
  specialize (Hdb _ _ Hin). cbn in Hdb. by rewrite Hdb.
Qed.

Lemma leaseCandidate_row now id n r : leaseCandidate b now db = Some (id, (n, r)) -> db !! KInstance id = Some (RInstance n r).
Proof.
  unfold leaseCandidate. intros H%head_Some_elem_of. rewrite orderBy_perm, list_elem_of_In, filter_In, <- list_elem_of_In in H.
  apply elem_of_instancesIn, H.
Qed.

Lemma taskCandidate_row now t : taskCandidate b now db = Some t -> db !! KTask (nt_SequenceNumber t) = Some (RTask t).
Proof.
  unfold taskCandidate. intros H%head_Some_elem_of. rewrite orderBy_perm, list_elem_of_In, filter_In, <- list_elem_of_In in H.
  apply elem_of_tasksIn, H.
Qed.

(** The versions a statement writes are under their keys; a row it did not find has a new
    number. *)
Lemma exec_rows s e k v :
  exec b ord s q db = (q', inl e) -> ef_writes e !! k = Some v ->
  (forall r, v = Some r -> keyed k r) /\ (is_Some (db !! k) \/ fresh q q' k).
Proof.
  assert (forall r, db !! k = Some r -> keyed k r) as Hkey by (intros r; apply Hdb).
  intros Hex Hk. destruct s; cbn [exec] in Hex; unfold reads in *;
    try (apply withSeq_inv in Hex as (-> & -> & _)); try (injection Hex as <- <-);
    try (apply deleting_inv in Hk as (r & Hr & _ & ->); by split; [| left]);
    try (apply updating_inv in Hk as (r & Hr & Hk); specialize (Hkey r Hr); unfold onOwnInstance in Hk; split; [| by left]);
    try (cbn in Hk; by rewrite lookup_empty in Hk).
  - intros r' ->. destruct r; [| done..]. destruct (_ && _); [| done]. injection Hk as <-. destruct k; try done. cbn in *. by rewrite updated_id.
  - intros r' ->. destruct r; [| done..]. destruct (_ && _); [| done]. injection Hk as <-. by destruct k.
  - destruct (leaseCandidate b now db) as [[id [n r]]|] eqn:E; cbn in Hk; [| by rewrite lookup_empty in Hk].
    apply lookup_singleton_Some in Hk as [<- <-]. apply leaseCandidate_row in E. rewrite E. split; [| by left]. intros r' [= <-].
    by apply (Hkey _ E).
  - destruct (db !! KInstance _); cbn in Hk; [by rewrite lookup_empty in Hk |]. apply lookup_singleton_Some in Hk as [<- <-].
    split; [by intros r' [= <-] | by right].
  - destruct (instanceAt db id) as [[? ?]|]; cbn in Hk; by rewrite lookup_empty in Hk.
  - destruct (_ <? _)%nat; [done |]. case_bool_decide; [| done]. injection Hex as <- <-. cbn in Hk. rewrite historyWrites_lookup in Hk.
    destruct k as [|id' m| | |]; try done. split; [| by right]. intros r' ->. destruct (String.eqb id' id); [| done].
    by destruct (_ !! m); cbn in Hk; [injection Hk as <- |].
  - cbn in Hk. split; [intros r' ->; by eapply eventRows_keyed |]. right.
    destruct (eventRows_dom _ _ k (elem_of_dom_2 _ _ _ Hk)) as (m & -> & ?). done.
  - cbn in Hk. rewrite map_lookup_imap in Hk. destruct (db !! k) as [r|] eqn:E; [| done]. specialize (Hkey r eq_refl). split; [| by left].
    intros r' ->. cbn in Hk. destruct k, r; try done. by case_bool_decide; simplify_eq.
  - intros r' ->. destruct (isLeasedEvent id token k r); [| done]. destruct r; try done. injection Hk as <-. by destruct k.
  - destruct (db !! KDelivery _ _ _) eqn:E; cbn in Hk; [by rewrite lookup_empty in Hk |]. apply lookup_singleton_Some in Hk as [<- <-].
    split; [by intros r' [= <-] | by right].
  - cbn in Hk. split; [intros r' ->; by eapply taskRows_keyed |]. right.
    destruct (taskRows_dom _ _ _ k (elem_of_dom_2 _ _ _ Hk)) as (m & -> & ?). done.
  - destruct (taskCandidate b now db) as [t|] eqn:E; cbn in Hk; [| by rewrite lookup_empty in Hk].
    apply lookup_singleton_Some in Hk as [<- <-]. apply taskCandidate_row in E. rewrite E. split; [| by left]. by intros r' [= <-].
  - intros r' ->. destruct (isLeasedTask n token k r); [| done]. destruct r; try done. injection Hk as <-. by destruct k.
Qed.
End Exec.

(** ** In every reachable state *)

Definition typedDB (q : Seqs) (db : PgDB) : Prop := map_Forall (fun k r => keyed k r /\ drawn q k) db.
Definition typedWrites (q : Seqs) (w : Writes) : Prop :=
  map_Forall (fun k v => (forall r, v = Some r -> keyed k r) /\ drawn q k) w.

Record pg_typed (st : Pg) : Prop := {
  ty_seqs : later firstSeqs (pg_seqs st);
  ty_db : typedDB (pg_seqs st) (pg_db st);
  ty_open : forall t x, pg_open st !! t = Some x -> typedWrites (pg_seqs st) (tx_writes x)
}.

Lemma drawn_later q q' k : later q q' -> drawn q k -> drawn q' k.
Proof. intros [H1 H2]. destruct k; cbn; lia. Qed.

Lemma fresh_drawn q q' k : later firstSeqs q -> fresh q q' k -> drawn q' k.
Proof. intros [H1 H2]. destruct k; cbn in *; lia. Qed.

Lemma typedDB_later q q' db : later q q' -> typedDB q db -> typedDB q' db.
Proof. intros Hl Hd k r Hk. destruct (Hd k r Hk). split; [done | by eapply drawn_later]. Qed.

Lemma typedWrites_later q q' w : later q q' -> typedWrites q w -> typedWrites q' w.
Proof. intros Hl Hd k r Hk. destruct (Hd k r Hk). split; [done | by eapply drawn_later]. Qed.

Lemma typedDB_keyed q db : typedDB q db -> map_Forall keyed db.
Proof. intros Hd k r Hk. by destruct (Hd k r Hk). Qed.

Lemma typed_overlay q w db : typedWrites q w -> typedDB q db -> typedDB q (overlay w db).
Proof.
  intros Hw Hd k r. rewrite overlay_lookup. destruct (w !! k) as [v|] eqn:E; [| by apply Hd].
  intros ->. destruct (Hw k _ E) as [H1 H2]. split; [by apply H1 | done].
Qed.

(** What a statement writes, on what the transaction sees. *)
Lemma exec_typed b ord s q q' db e :
  later firstSeqs q -> typedDB q db -> exec b ord s q db = (q', inl e) -> typedWrites q' (ef_writes e).
Proof.
  intros Hq Hd Hex k v Hv. destruct (exec_rows b ord q q' db (typedDB_keyed _ _ Hd) s e k v Hex Hv) as [Hk [[r Hr] | Hf]].
  - split; [done |]. eapply drawn_later; [by eapply exec_later |]. by apply (Hd k r).
  - split; [done |]. by eapply fresh_drawn.
Qed.

Section Reach.
Context `{HC : ProtoCodec} `{HF : FailureCodec}.
Variable opts : PostgresOptions.

Lemma pg_typed_put t x q st :
  later (pg_seqs st) q -> typedWrites q (tx_writes x) -> pg_typed st -> pg_typed (set_seqs q (putTx t x st)).
Proof.
  intros Hl Hx [Hq Hd Ho]. split; cbn.
  - destruct Hq, Hl. split; lia.
  - by eapply typedDB_later.
  - intros t' x'. rewrite lookup_insert_Some. intros [[_ <-] | [_ Hx']]; [done |]. eapply typedWrites_later, Ho; done.
Qed.

Lemma pg_typed_step l st st' : pg_step opts l st st' -> pg_typed st -> pg_typed st'.
Proof.
  intros Hs Hty. pose proof Hty as [Hq Hd Ho].
  destruct Hs as [t m st Ht | t x s k ord q e st Ht Hp Hor Hex Hdis | t x s k ord q err st Ht Hp Hor Hex | t x r st Ht Hp | t x st Ht].
  - apply (pg_typed_put t (mkOpenTx m ∅ ∅ (program opts m)) (pg_seqs st) st); [split; lia | apply map_Forall_empty | done].
  - apply pg_typed_put; [by eapply exec_later | | done]. cbn. apply map_Forall_union_2.
    + eapply exec_typed, Hex; [done | by apply typed_overlay; [eapply Ho |]].
    + eapply typedWrites_later, Ho; [by eapply exec_later | done].
  - apply pg_typed_put; [by eapply exec_later | | done]. cbn. eapply typedWrites_later, Ho; [by eapply exec_later | done].
  - split; cbn; [done | by apply typed_overlay; [eapply Ho |] |]. intros t' x' [_ Hx']%lookup_delete_Some. by eapply Ho.
  - split; cbn; [done | done |]. intros t' x' [_ Hx']%lookup_delete_Some. by eapply Ho.
Qed.

Lemma pg_typed_start : pg_typed pg_start.
Proof. split; cbn; [split; lia | apply map_Forall_empty |]. intros *. by rewrite lookup_empty. Qed.

Lemma steps_typed st st' : rtc (any_step opts) st st' -> pg_typed st -> pg_typed st'.
Proof. intros Hr. induction Hr as [|a b c [l Hl] _ IH]; [done |]. intros Ha. by eapply IH, pg_typed_step. Qed.

Lemma reachable_typed st : pg_reachable opts st -> pg_typed st.
Proof. intros Hr. by eapply steps_typed, pg_typed_start. Qed.

(** ** Deleted numbers stay deleted *)

(** Number [n] of NewTasks has been drawn and is gone. *)
Record gone (n : Z) (st : Pg) : Prop := {
  gone_drawn : n < sq_NewTasks (pg_seqs st);
  gone_db : pg_db st !! KTask n = None;
  gone_open : forall t x, pg_open st !! t = Some x -> KTask n ∉ dom (tx_writes x)
}.

Lemma gone_put n t x q st :
  later (pg_seqs st) q -> KTask n ∉ dom (tx_writes x) -> gone n st -> gone n (set_seqs q (putTx t x st)).
Proof.
  intros [_ Hl] Hx [Hq Hd Ho]. split; cbn; [lia | done |].
  intros t' x'. rewrite lookup_insert_Some. intros [[_ <-] | [_ Hx']]; [done | by eapply Ho].
Qed.

Lemma gone_step n l st st' : pg_step opts l st st' -> pg_typed st -> gone n st -> gone n st'.
Proof.
  intros Hs [Hq Hty Hw] Hg. pose proof Hg as [Hn Hd Ho].
  destruct Hs as [t m st Ht | t x s k ord q e st Ht Hp Hor Hex Hdis | t x s k ord q err st Ht Hp Hor Hex | t x r st Ht Hp | t x st Ht].
  - apply (gone_put n t (mkOpenTx m ∅ ∅ (program opts m)) (pg_seqs st) st); [split; lia | cbn; set_solver | done].
  - apply gone_put; [by eapply exec_later | | done]. cbn. rewrite dom_union.
    intros [Hk | Hk]%elem_of_union; [| by eapply Ho]. apply elem_of_dom in Hk as [v Hv].
    assert (typedDB (pg_seqs st) (view st x)) as Hview by (apply typed_overlay; [by eapply Hw | done]).
    destruct (exec_rows _ _ _ _ _ (typedDB_keyed _ _ Hview) s e _ v Hex Hv) as [_ [[r Hr] | Hf]]; [| cbn in Hf; lia].
    unfold view in Hr. by rewrite overlay_lookup, (not_elem_of_dom_1 _ _ (Ho t x Ht)), Hd in Hr.
  - apply gone_put; [by eapply exec_later | exact (Ho t x Ht) | done].
  - split; cbn; [done | by rewrite overlay_lookup, (not_elem_of_dom_1 _ _ (Ho t x Ht)) |]. intros t' x' [_ Hx']%lookup_delete_Some. by eapply Ho.
  - split; cbn; [done | done |]. intros t' x' [_ Hx']%lookup_delete_Some. by eapply Ho.
Qed.

Lemma gone_steps n st st' : rtc (any_step opts) st st' -> pg_typed st -> gone n st -> gone n st'.
Proof.
  intros Hr. induction Hr as [|a b c [l Hl] _ IH]; [done |]. intros Ha Hg.
  apply IH; [by eapply pg_typed_step | by eapply gone_step].
Qed.

(** A commit that deletes the row of a task. *)
Lemma commit_gone n t x st :
  exclusive st -> pg_typed st -> pg_open st !! t = Some x -> is_Some (pg_db st !! KTask n) ->
  pg_db (commit t x st) !! KTask n = None -> gone n (commit t x st).
Proof.
  intros He [Hq Hty _] Hx [r Hr] Hn. split; [by destruct (Hty _ _ Hr) as [_ [_ ?]] | done |].
  cbn. intros t' x' [Hne Hx']%lookup_delete_Some Hd'. cbn in Hn. rewrite overlay_lookup in Hn.
  destruct (tx_writes x !! KTask n) as [v|] eqn:E; [| congruence].
  apply (He t t' x x' Hne Hx Hx' (KTask n)); unfold held; apply elem_of_union_l; [by eapply elem_of_dom_2 | done].
Qed.

(** ** Completing an activity *)

(** Whether the row of task [n] has been deleted. *)
Definition taskPost (n : Z) (g : bool) (s : Stmt) : answer s -> bool -> Prop :=
  match s return answer s -> bool -> Prop with
  | SDeleteTask n' _ => fun a g' => g' = g || bool_decide (n' = n) && negb (a =? 0)%nat
  | _ => fun _ g' => g' = g
  end.

Definition activity_ok (x : OpenTx) : Prop := forall wi, tx_method x = MCompleteActivityWorkItem wi ->
  exists g, wp (fun _ _ => True) (taskPost (awi_SequenceNumber wi)) (tx_prog x) (fun _ g => g = true) g /\
    (g = true -> KTask (awi_SequenceNumber wi) ∈ dom (tx_writes x)).

Lemma activity_program wi :
  wp (fun _ _ => True) (taskPost (awi_SequenceNumber wi)) (program opts (MCompleteActivityWorkItem wi)) (fun _ g => g = true) false.
Proof.
  cbn [program]. unfold done, CompleteActivityWorkItem. apply tx_wp_bind, tx_wp_bind. destruct (match awi_Result wi with Some r => _ | None => _ end); [| done].
  cbn [liftTx wp]. split; [done |]. intros a g ->. apply tx_wp_bind. split; [done |]. intros m g ->. rewrite bool_decide_true by done.
  cbn [Tx_bind wp]. unfold lost. by destruct (m =? 0)%nat.
Qed.

Lemma activity_ok_stmt b ord q q' db x s k (e : Effect (answer s)) :
  activity_ok x -> tx_prog x = TStmt s k -> exec b ord s q db = (q', inl e) -> activity_ok (advance x e (k (ef_answer e))).
Proof.
  intros Hx Hp Hex wi Hm. destruct (Hx wi Hm) as (g & Hwp & Hg). rewrite Hp in Hwp. destruct Hwp as [_ Hwp].
  assert (taskPost (awi_SequenceNumber wi) g s (ef_answer e) g -> exists g', wp (fun _ _ => True) (taskPost (awi_SequenceNumber wi)) (k (ef_answer e)) (fun _ g => g = true) g' /\
    (g' = true -> KTask (awi_SequenceNumber wi) ∈ dom (ef_writes e ∪ tx_writes x))) as Hsame.
  { intros Hpost. exists g. split; [by apply Hwp |]. intros Hd%Hg. rewrite dom_union. set_solver. }
  destruct s; try (exact (Hsame eq_refl)). eexists. split; [apply Hwp; reflexivity |]. cbn [advance tx_writes]. rewrite dom_union.
  intros [Hg' | [->%bool_decide_eq_true Hn%negb_true_iff]%andb_true_iff]%orb_true_iff; [set_solver |].
  apply elem_of_union_l, size_nonzero. 
  - intros k' Hk'. pose proof (exec_mayWrite _ _ _ _ _ _ _ _ Hex Hk') as Hm'. by destruct k'; simplify_eq/=.
  - cbn [exec] in Hex. by injection Hex as <- <-.
Qed.

Lemma activity_ok_step l st st' :
  pg_step opts l st st' -> (forall t x, pg_open st !! t = Some x -> activity_ok x) -> forall t x, pg_open st' !! t = Some x -> activity_ok x.
Proof.
  intros Hs Hall. apply (each_step opts (fun _ => activity_ok) l st st'); [| | done | done | done].
  - intros m wi Hm. cbn in Hm. subst m. exists false. split; [apply activity_program | done].
  - intros t x y _ _ _ Hx [(s & k & ord & q & e & Hp & _ & Hex & _ & -> & _) | (err & -> & _)]; [by eapply activity_ok_stmt |].
    intros wi Hm. by exists false.
Qed.

Lemma steps_activity st st' :
  rtc (any_step opts) st st' -> (forall t x, pg_open st !! t = Some x -> activity_ok x) -> forall t x, pg_open st' !! t = Some x -> activity_ok x.
Proof. intros Hr. induction Hr as [|a b c [l Hl] _ IH]; [done |]. intros Ha. eapply IH. by eapply activity_ok_step. Qed.

Lemma reachable_activity st t x : pg_reachable opts st -> pg_open st !! t = Some x -> activity_ok x.
Proof. intros Hr. apply (steps_activity _ _ Hr). intros *. cbn. by rewrite lookup_empty. Qed.

(** A completion that is about to commit has deleted its task. *)
Lemma activity_ready st t x wi r :
  pg_reachable opts st -> pg_open st !! t = Some x -> tx_method x = MCompleteActivityWorkItem wi -> tx_prog x = TRet r ->
  KTask (awi_SequenceNumber wi) ∈ dom (tx_writes x).
Proof. intros Hr Hx Hm Hp. destruct (reachable_activity st t x Hr Hx wi Hm) as (g & Hwp & Hg). rewrite Hp in Hwp. by apply Hg. Qed.

(** A deleted task is never completed. *)
Lemma gone_uncompletable st st' n t x wi r :
  pg_reachable opts st -> gone n st -> rtc (any_step opts) st st' -> pg_open st' !! t = Some x ->
  tx_method x = MCompleteActivityWorkItem wi -> awi_SequenceNumber wi = n -> tx_prog x <> TRet r.
Proof.
  intros Hr Hg Hrun Hx Hm <- Hp. assert (pg_reachable opts st') as Hr' by (unfold pg_reachable in *; by etrans).
  apply (gone_open _ _ (gone_steps _ _ _ Hrun (reachable_typed _ Hr) Hg) t x Hx). by eapply activity_ready.
Qed.
End Reach.
