(* ===== verification/PgFence.v ===== *)
(** * Tasks across generations

    Tasks of an instance are added only by a transaction that has the row of the
    instance, so the transaction of a continue-as-new deletes every task of the
    generation it ends, whatever commits while it runs. *)

From stdpp Require Import base list option strings gmap sets fin_maps relations.
From Stdlib Require Import ZArith Lia.
From S2P Require Import Prelude Errors Protos RuntimeState Propagation Helpers Backend Sqlite SqliteCorrect.
From S2P Require Import PgTables Postgres PgConcurrent PgDiscipline PgInvariant PgNumbers.

(** ** Where tasks come from *)

Lemma taskRows_owner n id ps m t : taskRows n id ps !! KTask m = Some (Some (RTask t)) -> nt_InstanceID t = id.
Proof.
  revert n. induction ps as [|p ps IH]; intros n; cbn; [by rewrite lookup_empty |].
  rewrite lookup_insert_Some. intros [[_ [= <-]] | [_ H]]; [done | by eapply IH].
Qed.

(** A new version of a task has the owner of the old one; a new task is guarded. *)
Lemma exec_owner b ord s q q' db e n t :
  map_Forall keyed db -> exec b ord s q db = (q', inl e) -> ef_writes e !! KTask n = Some (Some (RTask t)) ->
  (exists t0, db !! KTask n = Some (RTask t0) /\ nt_InstanceID t0 = nt_InstanceID t) \/ guarded s (nt_InstanceID t).
Proof.
  intros Hdb Hex Hk. pose proof (exec_mayWrite _ _ _ _ _ _ _ _ Hex (elem_of_dom_2 _ _ _ Hk)) as Hm.
  destruct s; cbn in Hm; try done; cbn [exec] in Hex; try (apply withSeq_inv in Hex as (-> & -> & _)); try (injection Hex as <- <-).
  - right. cbn in *. symmetry. by eapply taskRows_owner.
  - left. destruct (taskCandidate b now db) as [t0|] eqn:E; cbn in Hk; [| by rewrite lookup_empty in Hk].
    apply lookup_singleton_Some in Hk as [[= <-] [= <-]]. exists t0. split; [by eapply taskCandidate_row | done].
  - left. apply updating_inv in Hk as (r & Hr & Hk). destruct (isLeasedTask _ _ _ r); [| done]. destruct r as [| | | |t0]; try done.
    exists t0. split; [done |]. by injection Hk as <-.
  - by apply deleting_inv in Hk as (r & _ & _ & ?).
  - by apply deleting_inv in Hk as (r & _ & _ & ?).
Qed.

Section Fence.
Context `{HC : ProtoCodec} `{HF : FailureCodec}.
Variable opts : PostgresOptions.

Definition owners_ok (st : Pg) (x : OpenTx) : Prop := forall n t, tx_writes x !! KTask n = Some (Some (RTask t)) ->
  (exists t0, pg_db st !! KTask n = Some (RTask t0) /\ nt_InstanceID t0 = nt_InstanceID t) \/ KInstance (nt_InstanceID t) ∈ dom (tx_writes x).

Lemma owners_ok_stmt st st' t x s k ord q (e : Effect (answer s)) :
  tx_ok x -> pg_typed st -> pg_open st !! t = Some x ->
  owners_ok st x -> tx_prog x = TStmt s k -> exec (busy t st) ord s (pg_seqs st) (view st x) = (q, inl e) ->
  pg_db st' = pg_db st -> owners_ok st' (advance x e (k (ef_answer e))).
Proof.
  intros [Hl _ _] [_ Hd Ho] Hx Hown Hp Hex Hdb n task. cbn. rewrite Hdb, dom_union, lookup_union_Some_raw.
  assert (forall id, KInstance id ∈ dom (tx_writes x) -> KInstance id ∈ dom (ef_writes e) ∪ dom (tx_writes x)) as Hmon by set_solver.
  intros [Hw | [_ Hw]]; [| destruct (Hown n task Hw); auto].
  assert (map_Forall keyed (view st x)) as Hk by (eapply typedDB_keyed, typed_overlay; [by eapply Ho | done]).
  destruct (exec_owner _ _ _ _ _ _ _ _ _ Hk Hex Hw) as [(t0 & Ht0 & Hid) | Hg].
  - unfold view in Ht0. rewrite overlay_lookup in Ht0. destruct (tx_writes x !! KTask n) as [v|] eqn:E; [subst v | by left; exists t0].
    rewrite <- Hid. destruct (Hown n t0 E) as [? | ?]; auto.
  - right. destruct (Hl None) as (own & Hin & Hlaw); [done |]. rewrite Hp in Hlaw. destruct Hlaw as [[Hpre _] _]. auto.
Qed.

Lemma owners_ok_commit t t' x x' st :
  pg_inv st -> t <> t' -> pg_open st !! t = Some x -> pg_open st !! t' = Some x' -> owners_ok st x -> owners_ok (commit t' x' st) x.
Proof.
  intros [He _] Hne Hx Hx' Hown n task Hw. destruct (Hown n task Hw) as [(t0 & Ht0 & ?) | ?]; [left; exists t0 | by right]. split; [| done].
  cbn. rewrite overlay_lookup, not_elem_of_dom_1; [done |]. intros Hd.
  apply (He t t' x x' Hne Hx Hx' (KTask n)); unfold held; apply elem_of_union_l; [by eapply elem_of_dom_2 | done].
Qed.

(** ** A continue-as-new deletes the tasks of its generation *)

(** Whether the transaction has the row of the instance, and has deleted its tasks. *)
Definition fencePre (id : string) (g : bool * bool) (s : Stmt) : Prop :=
  g.2 = false -> (forall n, ~ mayWrite s (KTask n)) \/ s = SDeleteTasks id /\ g.1 = true.
Definition fencePost (id : string) (g : bool * bool) (s : Stmt) : answer s -> bool * bool -> Prop :=
  match s return answer s -> bool * bool -> Prop with
  | SUpdateInstance id' _ _ _ _ _ => fun a g' => g' = (g.1 || String.eqb id' id && negb (a =? 0)%nat, g.2)
  | SDeleteTasks id' => fun _ g' => g' = (g.1, g.2 || String.eqb id' id)
  | _ => fun _ g' => g' = g
  end.

Abbreviation fence id p g := (wp (fencePre id) (fencePost id) p (fun _ final => snd final = true) g).

Lemma fencePost_keeps id g s a g' : fencePost id g s a g' -> (g.1 = true -> g'.1 = true) /\ (g.2 = true -> g'.2 = true).
Proof. destruct s; cbn; intros ->; cbn; split; try done; by intros ->. Qed.

(** Once the tasks are deleted, nothing more is asked of the program. *)
Lemma fence_done id {X} (p : Tx X) g : g.2 = true -> wp (fencePre id) (fencePost id) p (fun _ g => g.2 = true) g.
Proof.
  revert g. induction p as [x | err | msg | s k IH]; intros g Hg; cbn; try done. split; [unfold fencePre; by rewrite Hg |].
  intros a g' Ha. apply IH. by eapply fencePost_keeps.
Qed.

Lemma fence_program now serverNow wi s :
  owi_State wi = Some s -> ContinuedAsNew s = true ->
  fence (owi_InstanceID wi) (program opts (MCompleteWorkflowWorkItem now serverNow wi)) (false, false).
Proof.
  intros Hs Hc. cbn [program]. unfold done, CompleteWorkflowWorkItem. rewrite Hs. cbn [derefTx]. apply tx_wp_bind, tx_wp_bind. cbn [wp].
  apply tx_wp_bind. unfold updateInstance. apply tx_wp_bind. destruct (scanNewEvents _ _) as [u|]; [| done]. cbn [liftTx wp]. apply tx_wp_bind.
  split; [intros _; left; by intros n H |]. intros n g ->. cbn [wp]. rewrite String.eqb_refl. unfold lost. destruct (n =? 0)%nat; [done |].
  cbn [wp mret Tx_ret]. apply tx_wp_bind. unfold retireGeneration. rewrite Hc. apply tx_wp_bind. unfold discardPreviousExecutionWork.
  split; [by right |]. intros a g ->. rewrite String.eqb_refl.
  eapply tx_wp_mono; [| apply fence_done; done]. intros [] g Hg. eapply tx_wp_mono; [| apply fence_done; done]. intros [] g1 Hg1.
  eapply tx_wp_mono; [| apply fence_done; done]. intros [] g2 Hg2. exact Hg2.
Qed.

Record fenced (st : Pg) (x : OpenTx) (id : string) (l c : bool) : Prop := {
  fn_wp : fence id (tx_prog x) (l, c);
  fn_row : l = true -> KInstance id ∈ dom (tx_writes x);
  fn_order : c = true -> l = true;
  fn_none : c = false -> forall n, KTask n ∉ dom (tx_writes x);
  fn_deleted : c = true -> forall n t, pg_db st !! KTask n = Some (RTask t) -> nt_InstanceID t = id -> tx_writes x !! KTask n = Some None
}.

Definition fence_ok (st : Pg) (x : OpenTx) : Prop := forall now serverNow wi s,
  tx_method x = MCompleteWorkflowWorkItem now serverNow wi -> owi_State wi = Some s -> ContinuedAsNew s = true ->
  (exists err, tx_prog x = TErr err) \/ exists l c, fenced st x (owi_InstanceID wi) l c.

(** Deleted tasks are not written again: their numbers are not new. *)
Lemma deleted_stays st t x s q ord (e : Effect (answer s)) n task :
  pg_typed st -> pg_open st !! t = Some x -> exec (busy t st) ord s (pg_seqs st) (view st x) = (q, inl e) ->
  pg_db st !! KTask n = Some (RTask task) -> tx_writes x !! KTask n = Some None -> (ef_writes e ∪ tx_writes x) !! KTask n = Some None.
Proof.
  intros [Hq Hd Ho] Hx Hex Hn Hw. rewrite lookup_union_r; [done |]. destruct (ef_writes e !! KTask n) as [v|] eqn:E; [| done].
  assert (map_Forall keyed (view st x)) as Hk by (eapply typedDB_keyed, typed_overlay; [by eapply Ho | done]).
  destruct (exec_rows _ _ _ _ _ Hk s e _ v Hex E) as [_ [[r Hr] | Hf]].
  - unfold view in Hr. by rewrite overlay_lookup, Hw in Hr.
  - destruct (Hd _ _ Hn) as [_ [_ ?]]. cbn in Hf. lia.
Qed.

Lemma fenced_stmt st st' t x s k ord q (e : Effect (answer s)) id l c :
  pg_typed st -> pg_open st !! t = Some x -> fenced st x id l c -> tx_prog x = TStmt s k ->
  exec (busy t st) ord s (pg_seqs st) (view st x) = (q, inl e) -> pg_db st' = pg_db st ->
  exists l' c', fenced st' (advance x e (k (ef_answer e))) id l' c'.
Proof.
  intros Hty Hx [Hwp Hrow Hord Hnone Hdel] Hp Hex Hdb. rewrite Hp in Hwp. destruct Hwp as [Hpre Hwp].
  assert (exists l' c', fencePost id (l, c) s (ef_answer e) (l', c') /\ (l' = true -> KInstance id ∈ dom (ef_writes e ∪ tx_writes x)) /\
    (c' = true -> c = true \/ s = SDeleteTasks id)) as (l' & c' & Hpost & Hrow' & Hc').
  { assert (KInstance id ∈ dom (tx_writes x) -> KInstance id ∈ dom (ef_writes e ∪ tx_writes x)) as Hmon by (rewrite dom_union; set_solver).
    destruct s; try (exists l, c; split; [reflexivity | by auto]).
    - eexists _, _. split; [reflexivity |]. split; [| by left]. intros [Hl | [->%String.eqb_eq Ha%negb_true_iff%Nat.eqb_neq]%andb_true_iff]%orb_true_iff; [by auto |].
      rewrite dom_union. apply elem_of_union_l. by eapply update_found.
    - eexists _, _. split; [reflexivity |]. split; [by auto |]. cbn. intros [?| ->%String.eqb_eq]%orb_true_iff; auto. }
  destruct (fencePost_keeps _ _ _ _ _ Hpost) as [Kl Kc]. cbn [fst snd] in Kl, Kc.
  exists l', c'. split; cbn [tx_prog advance tx_writes]; [by apply Hwp | done | | |].
  - intros [Hc | ->]%Hc'; [by apply Kl, Hord |]. destruct c; [by apply Kl, Hord |].
    destruct (Hpre eq_refl) as [Hno | [_ Hl]]; [by destruct (Hno 0) | by apply Kl].
  - intros -> n. destruct c; [by specialize (Kc eq_refl) |]. rewrite dom_union.
    intros [Hd | Hd]%elem_of_union; [| by eapply Hnone]. destruct (Hpre eq_refl) as [Hno | [-> _]]; [by eapply Hno, exec_mayWrite |].
    cbn in Hpost. by rewrite String.eqb_refl in Hpost.
  - rewrite Hdb. intros Hc n task Hn Hid. destruct c; [by eapply deleted_stays; [.. | by eapply Hdel] |].
    destruct (Hc' Hc) as [? | ->]; [done |]. apply lookup_union_Some_l. cbn [exec] in Hex. injection Hex as <- <-.
    rewrite deleting_lookup. unfold view. rewrite overlay_lookup, (not_elem_of_dom_1 _ _ (Hnone eq_refl n)), Hn. cbn. by rewrite Hid, String.eqb_refl.
Qed.

Lemma fence_ok_commit t t' x x' st :
  pg_inv st -> pg_typed st -> owners_ok st x' -> t <> t' -> pg_open st !! t = Some x -> pg_open st !! t' = Some x' ->
  fence_ok st x -> fence_ok (commit t' x' st) x.
Proof.
  intros [He _] Hty Hown Hne Hx Hx' Hf now serverNow wi s Hm Hs Hc. destruct (Hf now serverNow wi s Hm Hs Hc) as [? | (l & c & [H1 H2 H3 H4 H5])]; [by left |].
  right. exists l, c. split; try done. intros -> n task. cbn. rewrite overlay_lookup.
  destruct (tx_writes x' !! KTask n) as [v|] eqn:E; [| by apply H5]. intros -> Hid.
  assert (forall k, k ∈ dom (tx_writes x) -> k ∈ dom (tx_writes x') -> False) as Hex.
  { intros k Hk Hk'. apply (He t t' x x' Hne Hx Hx' k); unfold held; by apply elem_of_union_l. }
  destruct (Hown n task E) as [(t0 & Ht0 & Hid0) | Hrow].
  - destruct (Hex (KTask n)); [eapply elem_of_dom_2, H5; [done | done | congruence] | by eapply elem_of_dom_2].
  - rewrite Hid in Hrow. destruct (Hex _ (H2 (H3 eq_refl)) Hrow).
Qed.

Lemma owners_ok_step l st st' :
  pg_inv st -> pg_typed st -> pg_step opts l st st' -> (forall t x, pg_open st !! t = Some x -> owners_ok st x) ->
  forall t x, pg_open st' !! t = Some x -> owners_ok st' x.
Proof.
  intros Hi Hty Hs Hall. apply (each_step opts owners_ok l st st'); [| | | done | done].
  - intros m n t. cbn. by rewrite lookup_empty.
  - intros t x y Hx _ _ Hown [(s & k & ord & q & e & Hp & _ & Hex & _ & -> & Hdb) | (err & -> & Hdb)].
    + by eapply owners_ok_stmt; [apply (proj2 Hi t x) | ..].
    + intros n task. rewrite Hdb. apply Hown.
  - apply (each_rest opts owners_ok l st st'); [| apply owners_ok_commit | done | done].
    intros a b x Hdb Hown n task. rewrite Hdb. apply Hown.
Qed.

Lemma fence_ok_step l st st' :
  pg_inv st -> pg_typed st -> (forall t x, pg_open st !! t = Some x -> owners_ok st x) -> pg_step opts l st st' ->
  (forall t x, pg_open st !! t = Some x -> fence_ok st x) -> forall t x, pg_open st' !! t = Some x -> fence_ok st' x.
Proof.
  intros Hi Hty Hown Hs Hall.
  assert (forall a b x, pg_db b = pg_db a -> fence_ok a x -> fence_ok b x) as Hsame.
  { intros a b x Hdb Hf now serverNow wi s Hm Hst Hc. destruct (Hf now serverNow wi s Hm Hst Hc) as [? | (l1 & c & [H1 H2 H3 H4 H5])]; [by left |].
    right. exists l1, c. split; try done. by rewrite Hdb. }
  apply (each_step opts fence_ok l st st'); [| | | done | done].
  - intros m now serverNow wi s Hm Hst Hc. cbn in Hm. subst m. right. exists false, false. split; cbn; try done; by eapply fence_program.
  - intros t x y Hx _ _ Hf [(s & k & ord & q & e & Hp & _ & Hex & _ & -> & Hdb) | (err & -> & Hdb)].
    + intros now serverNow wi w Hm Hst Hc. right. destruct (Hf now serverNow wi w Hm Hst Hc) as [[err Herr] | (l1 & c & Hfn)]; [congruence |].
      by eapply fenced_stmt.
    + intros now serverNow wi w _ _ _. left. by exists err.
  - intros t x Hx Hx' Hf. destruct Hs as [t' m st Ht | t' x' s k ord q e st Ht Hp Ho Hex Hd | t' x' s k ord q err st Ht Hp Ho Hex | t' x' r st Ht Hp | t' x' st Ht];
      try (by apply (Hsame st)). destruct (decide (t = t')) as [-> | Hne]; [cbn in Hx'; by rewrite lookup_delete_eq in Hx' |].
    eapply fence_ok_commit; [done | done | by eapply Hown | done..].
Qed.

Record fence_good (st : Pg) : Prop := {
  fg_inv : pg_inv st;
  fg_typed : pg_typed st;
  fg_owners : forall t x, pg_open st !! t = Some x -> owners_ok st x;
  fg_fence : forall t x, pg_open st !! t = Some x -> fence_ok st x
}.

Lemma reachable_fence st : pg_reachable opts st -> fence_good st.
Proof.
  intros Hr. assert (fence_good pg_start) as H0.
  { split; [apply (good_inv opts), pg_good_start | apply pg_typed_start |..]; intros *; cbn; by rewrite lookup_empty. }
  revert H0. induction Hr as [|a b c [l Hl] _ IH]; [done |]. intros [Hi Hty Ho Hf]. apply IH.
  split; [by eapply pg_inv_step | by eapply pg_typed_step | by eapply owners_ok_step | by eapply fence_ok_step].
Qed.

(** A continue-as-new that is about to commit has deleted the tasks of the instance. *)
Lemma fence_ready st t x now serverNow wi s r n task :
  pg_reachable opts st -> pg_open st !! t = Some x -> tx_method x = MCompleteWorkflowWorkItem now serverNow wi ->
  owi_State wi = Some s -> ContinuedAsNew s = true -> tx_prog x = TRet r ->
  pg_db st !! KTask n = Some (RTask task) -> nt_InstanceID task = owi_InstanceID wi -> pg_db (commit t x st) !! KTask n = None.
Proof.
  intros Hr Hx Hm Hs Hc Hp Hn Hid. destruct (reachable_fence st Hr) as [_ _ _ Hf].
  destruct (Hf t x Hx now serverNow wi s Hm Hs Hc) as [[err ?] | (l & c & [Hwp _ _ _ Hdel])]; [congruence |].
  rewrite Hp in Hwp. cbn in Hwp. cbn. by rewrite overlay_lookup, (Hdel Hwp n task Hn Hid).
Qed.
End Fence.
