(* ===== verification/PgTheorems.v ===== *)
(** * The PostgreSQL backend under concurrency

    A lease protects the history it was taken for, and a turn that commits is stored as
    its log, whatever other transactions do in between; what a lease delivers does not
    depend on the order in which the server returns rows. *)

From stdpp Require Import base list option strings gmap sets fin_maps relations sorting.
From Stdlib Require Import ZArith Lia.
From S2P Require Import Prelude Errors Protos Dedup RuntimeState Propagation Helpers Backend Sqlite SqliteCorrect.
From S2P Require Import PgTables Postgres PgConcurrent PgDiscipline PgInvariant PgNumbers PgFence.

(** ** Order of rows *)

Lemma orderBy_perm_eq {R} (key : R -> Z) (l l' : list R) : l ≡ₚ l' -> NoDup (map key l) -> orderBy key l = orderBy key l'.
Proof.
  intros Hp Hn. assert (orderBy key l ≡ₚ orderBy key l') as Hp' by by rewrite !orderBy_perm.
  eapply (StronglySorted_unique_strong (fun a b => key a ≤ key b)); [| apply orderBy_StronglySorted | apply orderBy_StronglySorted | done].
  intros a b Ha Hb Hab Hba. rewrite <- Hp' in Hb. rewrite orderBy_perm in Ha, Hb.
  apply (key_inj key l); [done | done | done | lia].
Qed.

(** [l] numbered from [n]. *)
Fixpoint numberFrom (n : Z) (l : list string) : list (Z * string) :=
  match l with
  | [] => []
  | p :: rest => (n, p) :: numberFrom (Z.succ n) rest
  end.

Lemma numberFrom_map n l : list_to_map (numberFrom n l) = (map_seqZ n l : gmap Z string).
Proof. revert n. induction l as [|p l IH]; intros n; [done |]. rewrite map_seqZ_cons. cbn [numberFrom]. by rewrite list_to_map_cons, IH. Qed.

Lemma numberFrom_least n l : Forall (fun x => n <= x.1) (numberFrom n l).
Proof.
  revert n. induction l as [|p l IH]; intros n; cbn; constructor; [done |]. eapply Forall_impl; [apply IH |]. cbn. lia.
Qed.

Lemma numberFrom_sorted n l : StronglySorted (fun a b => a.1 ≤ b.1) (numberFrom n l) /\ NoDup (numberFrom n l).*1.
Proof.
  revert n. induction l as [|p l IH]; intros n; cbn; [split; constructor |]. destruct (IH (Z.succ n)) as [Hs Hn].
  pose proof (numberFrom_least (Z.succ n) l) as Hl. split.
  - constructor; [done |]. eapply Forall_impl; [exact Hl |]. cbn. lia.
  - apply NoDup_cons. split; [| done]. intros (x & -> & Hx)%list_elem_of_fmap. rewrite Forall_forall in Hl. specialize (Hl x Hx). lia.
Qed.

Lemma numberFrom_payloads n l : map snd (numberFrom n l) = l.
Proof. revert n. induction l as [|p l IH]; intros n; cbn; [done |]. by rewrite IH. Qed.

(** A history that is numbered from 0 reads back in that order. *)
Lemma payloads_numbered db id l : storedHistory db id = map_seqZ 0 l -> PgTables.historyPayloads db id = l.
Proof.
  intros H. unfold PgTables.historyPayloads. rewrite <- numberFrom_map in H. destruct (numberFrom_sorted 0 l) as [Hs Hn].
  apply list_to_map_inj in H; [| apply NoDup_historyIn | done].
  rewrite (orderBy_perm_eq fst _ (numberFrom 0 l)); [| done | apply NoDup_historyIn].
  rewrite orderBy_sorted by done. apply numberFrom_payloads.
Qed.

Section Theorems.
Context `{HC : ProtoCodec} `{HF : FailureCodec}.
Variable opts : PostgresOptions.

(** ** A lease protects the history *)

(** Any step, except a commit with the given token. *)
Definition othersStep (token : string) (st st' : Pg) : Prop :=
  exists l, pg_step opts l st st' /\
    forall t x, l = LCommit t -> pg_open st !! t = Some x -> tokenOf (tx_method x) <> Some token.

Lemma foreign_commit token id t x st :
  pg_inv st -> pg_open st !! t = Some x -> tokenOf (tx_method x) <> Some token ->
  lockedBy (overlay (tx_writes x) (pg_db st)) id token ->
  pg_db st !! KInstance id = overlay (tx_writes x) (pg_db st) !! KInstance id /\
  storedHistory (overlay (tx_writes x) (pg_db st)) id = storedHistory (pg_db st) id.
Proof.
  intros [_ Hok] Hx Htok (n & r & Hr & Hl). destruct (Hok t x Hx) as [_ Hh Ht]. rewrite overlay_lookup in *.
  destruct (tx_writes x !! KInstance id) as [v|] eqn:E; [subst v; by destruct (Ht token id n r) |].
  split; [done |]. apply storedHistory_ext. intros m. rewrite overlay_lookup.
  rewrite not_elem_of_dom_1; [done |]. intros Hd%Hh. by apply not_elem_of_dom in E.
Qed.

Lemma others_good token st st' : rtc (othersStep token) st st' -> pg_good opts st -> pg_good opts st'.
Proof. intros Hr. induction Hr as [|a b c [l [Hl _]] _ IH]; [done |]. intros Ha. by eapply IH, pg_good_step. Qed.

Lemma others_keep token id st st' :
  pg_good opts st -> rtc (othersStep token) st st' -> lockedBy (pg_db st') id token ->
  pg_db st !! KInstance id = pg_db st' !! KInstance id /\ storedHistory (pg_db st') id = storedHistory (pg_db st) id.
Proof.
  intros Hg Hr. revert Hg. induction Hr as [st | a b c [l [Hs Hc]] _ IH]; [done |]. intros Hg Hl.
  destruct (IH (pg_good_step opts l a b Hs Hg) Hl) as [Hb ->]. rewrite <- Hb.
  assert (lockedBy (pg_db b) id token) as Hlb by (unfold lockedBy in *; by rewrite Hb).
  destruct Hs as [t m st Ht | t x s k ord q e st Ht Hp Ho Hex Hd | t x s k ord q err st Ht Hp Ho Hex | t x r st Ht Hp | t x st Ht]; try done.
  destruct Hg as [Hi _ _]. apply (foreign_commit token id t x st Hi Ht); [by eapply Hc | done].
Qed.

(** The transaction of a turn that is about to commit. *)
Lemma complete_ready st t x now serverNow wi s r :
  pg_good opts st -> pg_open st !! t = Some x -> tx_method x = MCompleteWorkflowWorkItem now serverNow wi ->
  owi_State wi = Some s -> Forall (startsOther (owi_InstanceID wi)) (PendingMessages s) -> tx_prog x = TRet r ->
  lockedBy (pg_db st) (owi_InstanceID wi) (owi_LockedBy wi) /\
  turnHistory s (storedHistory (pg_db st) (owi_InstanceID wi)) (storedHistory (view st x) (owi_InstanceID wi)).
Proof.
  intros [_ _ Hc] Hx Hm Hs Hmsgs Hp. destruct (Hc t x Hx now serverNow wi s Hm Hs Hmsgs) as [[Hf _] | [[err He] | (_ & Hl & Hwp)]].
  - rewrite Hp, Hm in Hf. destruct (complete_head opts now serverNow wi) as [(? & ? & ? & ? & He & _) | [[? He] | [? He]]]; by rewrite He in Hf.
  - congruence.
  - rewrite Hp in Hwp. done.
Qed.

(** C7. A turn is stored on the history it was made for.  From any moment after the lease
    (the load of the history, say), transactions of other workers and clients may begin,
    run statement by statement, commit and abort in any interleaving; if the transaction
    that completes the turn then commits, the stored history was still the one of that
    moment, and it becomes that history, or nothing after a continue-as-new, followed by
    the new events of the turn, in this order. *)
Theorem pg_turn_is_stored st1 st2 t x now serverNow wi s r old :
  let id := owi_InstanceID wi in
  let kept := if ContinuedAsNew s then [] else old in
  pg_reachable opts st1 -> rtc (othersStep (owi_LockedBy wi)) st1 st2 ->
  pg_open st2 !! t = Some x -> tx_method x = MCompleteWorkflowWorkItem now serverNow wi -> tx_prog x = TRet r ->
  owi_State wi = Some s -> Forall (startsOther id) (PendingMessages s) ->
  storedHistory (pg_db st1) id = map_seqZ 0 old -> length (OldEvents s) = length kept ->
  PgTables.historyPayloads (pg_db st2) id = old /\
  exists new, tryMap MarshalHistoryEvent (NewEvents s) = inl new /\
    PgTables.historyPayloads (pg_db (commit t x st2)) id = kept ++ new.
Proof.
  intros id kept Hr Hrun Hx Hm Hp Hs Hmsgs Hold Hlen. subst id. apply reachable_good in Hr as Hg1.
  assert (pg_good opts st2) as Hg2 by by eapply others_good.
  destruct (complete_ready st2 t x now serverNow wi s r Hg2 Hx Hm Hs Hmsgs Hp) as [Hl (new & Hnew & Hd & Hh)].
  destruct (others_keep _ _ _ _ Hg1 Hrun Hl) as [_ Hsame]. rewrite Hold in Hsame. rewrite Hsame in Hd, Hh.
  split; [by apply payloads_numbered |]. exists new. split; [done |]. apply payloads_numbered. cbn.
  change (overlay (tx_writes x) (pg_db st2)) with (view st2 x). rewrite Hh, map_seqZ_app, Hlen.
  assert ((if ContinuedAsNew s then ∅ else map_seqZ 0 old) = (map_seqZ 0 kept : gmap Z string)) as Hk by (unfold kept; by destruct (ContinuedAsNew s)).
  rewrite Hk in *. rewrite Hlen in Hd. by rewrite map_union_comm.
Qed.
(** ** A lease excludes others *)

(** The transaction of a lease that is about to commit with a work item. *)
Lemma lease_ready st t x now token wi :
  pg_good opts st -> pg_open st !! t = Some x -> tx_method x = MGetWorkflowWorkItem now token ->
  tx_prog x = TRet (RepWorkflow (Some wi)) ->
  freeAt (pg_db st) (owi_InstanceID wi) now /\
  exists n r, tx_writes x !! KInstance (owi_InstanceID wi) = Some (Some (RInstance n r)) /\
    leasedRow token (pgTime (now + pgWorkflowLockTimeout opts)) r.
Proof.
  intros [_ Hl _] Hx Hm Hp. destruct (Hl t x Hx now token Hm) as [[Hf _] | (g & Hwp & Hg)].
  - rewrite Hm, Hp in Hf. destruct (lease_program opts now token) as (k & Hk & _). by rewrite Hk in Hf.
  - rewrite Hp in Hwp. destruct (Hwp wi eq_refl) as [-> _]. by apply Hg.
Qed.

(** C8. A lease excludes other workers until it expires.  A worker takes the lease of an
    instance; afterwards transactions of others run in any interleaving.  As long as the
    lease has not been settled (the row is still locked by its token), another
    transaction that leases the same instance can only commit with a clock that is past
    the expiration of the lease, at the precision of the stored timestamps. *)
Theorem pg_lease_exclusive st t x now token wi st' t' x' now' token' wi' :
  pg_reachable opts st -> pg_open st !! t = Some x -> tx_method x = MGetWorkflowWorkItem now token ->
  tx_prog x = TRet (RepWorkflow (Some wi)) ->
  rtc (othersStep token) (commit t x st) st' -> lockedBy (pg_db st') (owi_InstanceID wi) token ->
  pg_open st' !! t' = Some x' -> tx_method x' = MGetWorkflowWorkItem now' token' ->
  tx_prog x' = TRet (RepWorkflow (Some wi')) -> owi_InstanceID wi' = owi_InstanceID wi ->
  pgTime (now + pgWorkflowLockTimeout opts) < pgTime now'.
Proof.
  intros Hr Hx Hm Hp Hrun Hl Hx' Hm' Hp' Hid. apply reachable_good in Hr as Hg.
  assert (pg_good opts (commit t x st)) as Hg1 by (eapply pg_good_step; [by eapply pg_commit | done]).
  assert (pg_good opts st') as Hg' by by eapply others_good.
  destruct (lease_ready st t x now token wi Hg Hx Hm Hp) as [_ (n & r & Hr' & _ & Hexp)].
  destruct (lease_ready st' t' x' now' token' wi' Hg' Hx' Hm' Hp') as [(n' & r' & Hrow & Hfree) _].
  destruct (others_keep token _ _ _ Hg1 Hrun Hl) as [Hsame _]. rewrite Hid, <- Hsame in Hrow. cbn in Hrow.
  rewrite overlay_lookup, Hr' in Hrow. injection Hrow as -> ->. rewrite Hexp in Hfree. cbn in Hfree. lia.
Qed.
(** ** Tasks *)

(** C10. A task is settled once.  When a commit removes the row of an activity task (the
    activity was completed, its workflow continued as new or was purged), no transaction
    that completes that task can commit afterwards, whatever else runs: numbers of tasks
    are not used again, and the completion has to find the row. *)
Theorem pg_task_settled_once st t x r n st' t' x' wi r' :
  pg_reachable opts st -> pg_open st !! t = Some x -> tx_prog x = TRet r ->
  is_Some (pg_db st !! KTask n) -> pg_db (commit t x st) !! KTask n = None ->
  rtc (any_step opts) (commit t x st) st' -> pg_open st' !! t' = Some x' ->
  tx_method x' = MCompleteActivityWorkItem wi -> awi_SequenceNumber wi = n -> tx_prog x' <> TRet r'.
Proof.
  intros Hr Hx Hp Hn Hd. apply gone_uncompletable.
  - eapply rtc_r; [exact Hr |]. exists (LCommit t). by eapply pg_commit.
  - apply commit_gone; [apply (good_inv opts), reachable_good, Hr | by eapply reachable_typed | done..].
Qed.

(** C9. Results of an earlier generation do not reach the next one.  When a turn that
    continues as new commits, every activity task of the instance that is stored at that
    moment, leased or not, is settled for good: no transaction that completes one of them
    can commit afterwards, so none of them queues an event for the new generation. *)
Theorem pg_continue_as_new_fences st t x now serverNow wi s r n task st' t' x' awi r' :
  pg_reachable opts st -> pg_open st !! t = Some x -> tx_method x = MCompleteWorkflowWorkItem now serverNow wi ->
  owi_State wi = Some s -> ContinuedAsNew s = true -> tx_prog x = TRet r ->
  pg_db st !! KTask n = Some (RTask task) -> nt_InstanceID task = owi_InstanceID wi ->
  rtc (any_step opts) (commit t x st) st' -> pg_open st' !! t' = Some x' ->
  tx_method x' = MCompleteActivityWorkItem awi -> awi_SequenceNumber awi = n -> tx_prog x' <> TRet r'.
Proof.
  intros Hr Hx Hm Hs Hc Hp Hn Hid. apply gone_uncompletable.
  - eapply rtc_r; [exact Hr |]. exists (LCommit t). by eapply pg_commit.
  - apply commit_gone; [apply (good_inv opts), reachable_good, Hr | by eapply reachable_typed | done | by eexists |].
    by eapply fence_ready.
Qed.
End Theorems.
