(* ===== verification/PgOrder.v ===== *)
(** * The order in which rows come back

    [UPDATE ... RETURNING] returns rows in any order.  What a lease of the PostgreSQL
    backend stores and delivers does not depend on it. *)

From stdpp Require Import base list option strings gmap sets fin_maps relations sorting.
From Stdlib Require Import ZArith Lia.
From S2P Require Import Prelude Errors Protos Dedup RuntimeState Propagation Helpers Backend Sqlite SqliteCorrect.
From S2P Require Import PgTables Postgres PgConcurrent PgDiscipline PgInvariant PgNumbers PgTheorems.

Section Order.
Context `{HC : ProtoCodec} `{HF : FailureCodec}.
Variable opts : PostgresOptions.

(** ** The scan over the leased rows *)

(** What the scan makes of one row: whether it is delivered, and whether it is the result
    of a child. *)
Definition scanRow (executionID : string) (r : NewEventRow) : (HistoryEvent * bool * bool) + error :=
  match UnmarshalHistoryEvent (ne_EventPayload r) with
  | inr err => inr err
  | inl e =>
      if IsChildResult e then
        if String.eqb (GetValue (ne_ExecutionID r)) "" then inr ErrChildExecutionProvenanceRequired
        else inl (e, String.eqb (GetValue (ne_ExecutionID r)) executionID, true)
      else inl (e, true, false)
  end.

Definition delivered (x : string) (r : NewEventRow) : option (Z * HistoryEvent) :=
  match scanRow x r with inl (e, true, _) => Some (ne_SequenceNumber r, e) | _ => None end.
Definition staleRow (x : string) (r : NewEventRow) : option Z :=
  match scanRow x r with inl (_, false, _) => Some (ne_SequenceNumber r) | _ => None end.
Definition childRow (x : string) (r : NewEventRow) : bool :=
  match scanRow x r with inl (_, _, true) => true | _ => false end.

Lemma scanLeased_rows x rows d s h m res :
  scanLeased x rows d s h m = inl res <->
  Forall (fun r => exists v, scanRow x r = inl v) rows /\
  res = (d ++ omap (delivered x) rows, s ++ omap (staleRow x) rows, h || existsb (childRow x) rows,
         foldl (fun m r => if m <? ne_DequeueCount r then ne_DequeueCount r else m) m rows).
Proof.
  revert d s h m. induction rows as [|r rows IH]; intros d s h m; cbn [scanLeased omap existsb foldl].
  { rewrite !app_nil_r, orb_false_r. split; [intros [= <-]; split; [by constructor | done] | by intros [_ ->]]. }
  rewrite Forall_cons. cbn [list_omap]. unfold delivered at 1, staleRow at 1, childRow at 1, scanRow at 1 3 4 5.
  destruct (UnmarshalHistoryEvent (ne_EventPayload r)) as [e|err]; [| by split; [| intros [[[? ?] _] _]]].
  destruct (IsChildResult e).
  - destruct (String.eqb (GetValue (ne_ExecutionID r)) ""); [by split; [| intros [[[? ?] _] _]] |].
    destruct (String.eqb (GetValue (ne_ExecutionID r)) x); cbn; rewrite IH, <- ?app_assoc, ?orb_true_r; naive_solver.
  - rewrite IH, <- app_assoc. naive_solver.
Qed.

Lemma max_foldl_perm l l' m : l ≡ₚ l' ->
  foldl (fun m r => if m <? ne_DequeueCount r then ne_DequeueCount r else m) m l =
  foldl (fun m r => if m <? ne_DequeueCount r then ne_DequeueCount r else m) m l'.
Proof.
  intros Hp. revert m. induction Hp as [| r l l' _ IH | a b l | l1 l2 l3 _ IH1 _ IH2]; intros m; cbn; [done | apply IH | | by rewrite IH1].
  f_equal. destruct (m <? ne_DequeueCount a) eqn:E1, (m <? ne_DequeueCount b) eqn:E2;
    repeat match goal with |- context [?p <? ?q] => destruct (p <? q) eqn:? end; lia.
Qed.

Lemma existsb_perm {A} (f : A -> bool) l l' : l ≡ₚ l' -> existsb f l = existsb f l'.
Proof. induction 1; cbn; [done | congruence | by destruct (f x), (f y) | congruence]. Qed.

Lemma scanLeased_perm x l l' d s h m : l ≡ₚ l' -> scanLeased x l [] [] false 0 = inl (d, s, h, m) ->
  exists d' s', scanLeased x l' [] [] false 0 = inl (d', s', h, m) /\ d ≡ₚ d' /\ s ≡ₚ s' /\ d = omap (delivered x) l.
Proof.
  intros Hp [Hall [= -> -> -> ->]]%scanLeased_rows. exists (omap (delivered x) l'), (omap (staleRow x) l'). split_and!.
  - apply scanLeased_rows. split; [exact (Permutation_Forall Hp Hall) |]. by rewrite (existsb_perm _ l l'), (max_foldl_perm l l').
  - by apply omap_Permutation.
  - by apply omap_Permutation.
  - done.
Qed.

(** ** Running the statements *)

Lemma runBody_bind ord {X Y} (m : Tx X) (f : X -> Tx Y) q db :
  runBody ord (m ≫= f) q db = match runBody ord m q db with
                              | (q, db, Ok x) => runBody ord (f x) q db
                              | (q, db, Err err) => (q, db, Err err)
                              | (q, db, Panic msg) => (q, db, Panic msg)
                              end.
Proof.
  revert q db. induction m as [x | err | msg | s k IH]; intros q db; cbn; try done.
  by destruct (exec ∅ ord s q db) as [q' [e | err]]; [apply IH |].
Qed.

(** The rows without the stale ones that are leased by [token]. *)
Definition dropStale (id token : string) (l : list Z) (db : PgDB) : PgDB :=
  map_imap (fun k r => match k with
                       | KEvent n => if bool_decide (n ∈ l) && isLeasedEvent id token k r then None else Some r
                       | _ => Some r end) db.

Lemma run_deleteStale ord id token l q db : runBody ord (deleteStale id token l) q db = (q, dropStale id token l db, Ok tt).
Proof.
  revert db. induction l as [|n l IH]; intros db; cbn [deleteStale].
  - cbn. f_equal. f_equal. apply map_eq. intros k. unfold dropStale. rewrite map_lookup_imap. by destruct (db !! k), k.
  - rewrite runBody_bind. cbn [runBody stmt exec]. rewrite IH. f_equal. f_equal. apply map_eq. intros k. unfold dropStale.
    rewrite !map_lookup_imap, overlay_lookup, deleting_lookup. unfold isKey. destruct (db !! k) as [r|] eqn:E; [| done]. cbn.
    destruct (bool_decide_reflect (k = KEvent n)) as [-> | Hne]; cbn [andb].
    + destruct (isLeasedEvent id token (KEvent n) r) eqn:El; cbn [mbind option_bind]; rewrite ?El, ?andb_false_r; [| done].
      by rewrite bool_decide_true by (by left).
    + cbn. destruct k as [| | m | |]; try done. assert (m <> n) as Hmn by congruence.
      assert (bool_decide (m ∈ n :: l) = bool_decide (m ∈ l)) as ->; [| done]. apply bool_decide_ext. rewrite elem_of_cons. naive_solver.
Qed.

Lemma dropStale_perm id token l l' db : l ≡ₚ l' -> dropStale id token l db = dropStale id token l' db.
Proof.
  intros Hp. apply map_eq. intros k. unfold dropStale. rewrite !map_lookup_imap. destruct (db !! k) as [r|]; [| done].
  destruct k as [| | n | |]; try done. cbn. rewrite (bool_decide_ext (n ∈ l) (n ∈ l')); [done |]. by rewrite Hp.
Qed.

(** ** The numbers of the leased rows differ *)

Definition eventOf (v : Key * option Row) : option NewEventRow := match v with (_, Some (REvent e)) => Some e | _ => None end.

Lemma NoDup_numbers {V} (f : Key * V -> option NewEventRow) (l : list (Key * V)) :
  (forall k v e, (k, v) ∈ l -> f (k, v) = Some e -> k = KEvent (ne_SequenceNumber e)) -> NoDup l.*1 ->
  NoDup (map ne_SequenceNumber (omap f l)).
Proof.
  induction l as [|[k v] l IH]; intros Hk Hn; [by apply NoDup_nil_2 |]. cbn in Hn. apply NoDup_cons in Hn as [Hni Hn].
  assert (NoDup (map ne_SequenceNumber (omap f l))) as IH' by (apply IH; [intros k' v' e Hin; apply Hk; by right | done]).
  cbn [omap list_omap]. destruct (f (k, v)) as [e|] eqn:E; [| exact IH']. cbn. apply NoDup_cons. split; [| exact IH'].
  apply Hk in E; [| by left]. intros (e' & He & ([k' v'] & Hin & Hf)%list_elem_of_omap)%list_elem_of_fmap.
  apply Hk in Hf; [| by right]. assert (k' = k) as -> by congruence. apply Hni. by apply (list_elem_of_fmap_2 fst) in Hin.
Qed.

Lemma NoDup_events (w : Writes) :
  (forall k r, w !! k = Some (Some r) -> keyed k r) -> NoDup (map ne_SequenceNumber (omap eventOf (map_to_list w))).
Proof.
  intros Hw. apply NoDup_numbers; [| apply NoDup_fst_map_to_list]. intros k v e Hin%elem_of_map_to_list Hf.
  destruct v as [[| | e' | |]|]; try done. injection Hf as ->. apply Hw in Hin. destruct k; try done. cbn in Hin. by subst.
Qed.

Lemma NoDup_delivered x l : NoDup (map ne_SequenceNumber l) -> NoDup (map fst (omap (delivered x) l)).
Proof.
  induction l as [|r l IH]; cbn; [done |]. intros [Hni Hn]%NoDup_cons. specialize (IH Hn).
  destruct (delivered x r) as [[n e]|] eqn:E; [| exact IH]. cbn. apply NoDup_cons. split; [| exact IH].
  assert (forall r n e, delivered x r = Some (n, e) -> n = ne_SequenceNumber r) as Hd.
  { intros r' n' e'. unfold delivered. destruct (scanRow x r') as [[[? []] ?]|]; congruence. }
  apply Hd in E as ->. intros ([n' e'] & Hr & (r' & Hin & Hf)%list_elem_of_omap)%list_elem_of_fmap. apply Hd in Hf. cbn in Hr.
  apply Hni, list_elem_of_fmap. exists r'. split; [congruence | done].
Qed.

(** ** The lease *)

(** The end of a lease, from the rows it has leased. *)
Definition afterLease (id token executionID : string) (events : list NewEventRow) : Tx (option WorkflowWorkItem) :=
  scan ← liftTx (scanLeased executionID events [] [] false 0);
  let '(dequeued, stale, hasChild, maxCount) := scan in
  (if (hasChild : bool) then validateChildDestination id executionID else mret tt);;
  deleteStale id token stale;;
  match dequeued with
  | [] => stmt (SReleaseInstance id token);; mret None
  | _ =>
      mret (Some (mkWorkflowWorkItem id (map snd (orderBy fst dequeued)) token
        (int32_of (maxCount - 1)) None None ∅))
  end.

Lemma run_validate ord ord' id x q db : runBody ord (validateChildDestination id x) q db = runBody ord' (validateChildDestination id x) q db.
Proof. unfold validateChildDestination. rewrite !runBody_bind. cbn. by case_match. Qed.

Lemma afterLease_perm ord ord' id token x events events' q db q' db' wi :
  events ≡ₚ events' -> NoDup (map ne_SequenceNumber events) ->
  runBody ord (afterLease id token x events) q db = (q', db', Ok wi) ->
  runBody ord' (afterLease id token x events') q db = (q', db', Ok wi).
Proof.
  intros Hp Hn. unfold afterLease. rewrite !runBody_bind.
  destruct (scanLeased x events [] [] false 0) as [[[[d s] h] m]|err] eqn:E; [| done].
  destruct (scanLeased_perm _ _ _ _ _ _ _ Hp E) as (d' & s' & -> & Hd & Hs & ->). cbn [liftTx runBody].
  assert (orderBy fst (omap (delivered x) events) = orderBy fst d') as Ho by (apply orderBy_perm_eq; [done | by apply NoDup_delivered]).
  rewrite !(runBody_bind _ (if h then _ else _)).
  assert (runBody ord (if h then validateChildDestination id x else mret ()) q db = runBody ord' (if h then validateChildDestination id x else mret ()) q db) as ->
    by (destruct h; [apply run_validate | done]).
  destruct (runBody ord' (if h then _ else _) q db) as [[q1 db1] [u | err | msg]]; [| done..].
  rewrite !runBody_bind, !run_deleteStale. rewrite <- (dropStale_perm _ _ _ _ _ Hs).
  destruct (omap (delivered x) events) as [|a d] eqn:Ed; [apply Permutation_nil_l in Hd; by subst d' |].
  destruct d' as [|a' d']; [by apply Permutation_nil_r in Hd |]. by rewrite Ho.
Qed.

(** What a lease does is independent of the order in which the server returns rows:
    on tables whose rows are under their keys, if a lease succeeds with one order, it
    succeeds with any other, with the same work item (events in the order of their
    numbers) and the same tables. *)
Theorem pg_lease_any_order ord ord' now token q db q' db' wi :
  anyOrder ord -> anyOrder ord' -> map_Forall keyed db ->
  runTx ord (GetWorkflowWorkItem opts now token) (q, db) = (q', db', Ok wi) ->
  runTx ord' (GetWorkflowWorkItem opts now token) (q, db) = (q', db', Ok wi).
Proof.
  intros Ho Ho' Hk. unfold runTx. cbn [fst snd].
  enough (forall r, runBody ord (GetWorkflowWorkItem opts now token) q db = (q', db', Ok r) ->
    runBody ord' (GetWorkflowWorkItem opts now token) q db = (q', db', Ok r)) as H.
  { destruct (runBody ord (GetWorkflowWorkItem opts now token) q db) as [[q1 db1] [r | err | msg]]; [| done..].
    intros [= -> -> ->]. by rewrite (H wi eq_refl). }
  intros r. unfold GetWorkflowWorkItem. rewrite !runBody_bind. cbn [runBody stmt exec].
  destruct (leaseCandidate ∅ now db) as [[id [n row]]|] eqn:E; [| done]. cbn [reads ef_answer ef_writes].
  set (db1 := overlay _ db). assert (map_Forall keyed db1) as Hk1.
  { intros k v. unfold db1. rewrite overlay_lookup. apply leaseCandidate_row in E. destruct (decide (k = KInstance id)) as [-> | Hne].
    - rewrite lookup_singleton_eq. intros [= <-]. by apply (Hk _ _ E).
    - rewrite lookup_singleton_ne by done. apply Hk. }
  rewrite !runBody_bind. cbn [runBody stmt exec ef_answer ef_writes]. apply afterLease_perm.
  - by rewrite (Ho _), (Ho' _).
  - rewrite (Ho _). apply NoDup_events. intros k v Hv.
    destruct (exec_rows ∅ ord firstSeqs firstSeqs db1 Hk1 (SLeaseEvents token id now) _ k _ eq_refl Hv) as [Hke _]. by apply Hke.
Qed.
(** ** An ambiguous child result *)

Lemma elem_of_eventsIn db r : map_Forall keyed db -> r ∈ eventsIn db <-> db !! KEvent (ne_SequenceNumber r) = Some (REvent r).
Proof.
  intros Hk. unfold eventsIn. rewrite list_elem_of_omap. split.
  - intros ([k v] & Hin%elem_of_map_to_list & Hf). destruct k, v; try done. injection Hf as ->. specialize (Hk _ _ Hin). cbn in Hk. by rewrite Hk.
  - intros H. exists (KEvent (ne_SequenceNumber r), REvent r). by rewrite elem_of_map_to_list.
Qed.

Lemma NoDup_eventsIn db : map_Forall keyed db -> NoDup (map ne_SequenceNumber (eventsIn db)).
Proof.
  intros Hk. apply NoDup_numbers; [| apply NoDup_fst_map_to_list]. intros k v e Hin%elem_of_map_to_list Hf.
  destruct k, v; try done. injection Hf as ->. specialize (Hk _ _ Hin). cbn in Hk. by subst.
Qed.

(** What a lease takes depends on the rows of NewEvents only. *)
Lemma leasedNumbers_ext db db' id now :
  map_Forall keyed db -> map_Forall keyed db' -> (forall n, db !! KEvent n = db' !! KEvent n) -> leasedNumbers id now db = leasedNumbers id now db'.
Proof.
  intros Hk Hk' Heq. assert (eventsIn db ≡ₚ eventsIn db') as Hp.
  { apply NoDup_Permutation; [by eapply NoDup_fmap_1, NoDup_eventsIn | by eapply NoDup_fmap_1, NoDup_eventsIn |].
    intros r. by rewrite !elem_of_eventsIn, Heq. }
  unfold leasedNumbers. f_equal. f_equal. apply orderBy_perm_eq.
  - induction Hp as [| a l l' _ IH | a b l | l1 l2 l3 _ IH1 _ IH2]; cbn; [done | by case_match; rewrite IH | repeat case_match; [apply Permutation_swap | done..] | by etrans].
  - pose proof (NoDup_eventsIn db Hk) as Hn. clear Hp. induction (eventsIn db) as [|a l IH]; cbn in *; [done |].
    apply NoDup_cons in Hn as [Hni Hn]. case_match; [| by apply IH]. cbn. apply NoDup_cons. split; [| by apply IH].
    intros (b & Hb & Hin)%list_elem_of_fmap. apply list_elem_of_In, filter_In in Hin as [Hin _]. apply Hni, list_elem_of_fmap. exists b.
    split; [done | by apply list_elem_of_In].
Qed.

End Order.
