(* ===== verification/PgBounds.v ===== *)
(** * The size of a turn

    The driver sends at most 65535 parameters with a statement, and the backend inserts
    the new history, the tasks and the queued events of a turn with one statement each.
    So a turn beyond these sizes is never committed. *)

From stdpp Require Import base list option strings gmap sets fin_maps relations.
From Stdlib Require Import ZArith Lia.
From S2P Require Import Prelude Errors Protos RuntimeState Propagation Helpers Backend Sqlite SqliteCommit.
From S2P Require Import PgTables Postgres PgConcurrent PgDiscipline PgInvariant.

Lemma maxParams_eq : Z.of_nat maxParams = 65535.
Proof. vm_compute. reflexivity. Qed.
#[local] Opaque maxParams.

(** The parameters of the statements that insert many rows. *)
Definition fits (s : Stmt) : Prop :=
  match s with
  | SInsertHistory _ _ payloads => (3 * length payloads <= maxParams)%nat
  | SInsertEvents rows => (3 * length rows <= maxParams)%nat
  | SInsertTasks _ payloads => (2 * length payloads <= maxParams)%nat
  | _ => True
  end.

Lemma exec_fits b ord s q db q' e : exec b ord s q db = (q', inl e) -> fits s.
Proof.
  destruct s; cbn [exec fits]; try done; unfold withSeq;
    match goal with |- context [(maxParams <? ?n)%nat] => destruct (Nat.ltb_spec maxParams n) as [|Hle] end; try done; intros _; exact Hle.
Qed.

(** A program whose statements have all been executed. *)
Abbreviation executed p Q := (wp (G := unit) (fun _ _ => True) (fun _ s _ _ => fits s) p (fun x _ => Q x) tt).

(** What is queued for other instances, and for itself later. *)
Definition queuedEvents (s : WorkflowRuntimeState) : nat :=
  length (PendingTimers s) + length (List.filter (fun m => negb (IsChildResult (msg_HistoryEvent m))) (PendingMessages s)).

Definition turnFits (s : WorkflowRuntimeState) : Prop :=
  (3 * length (NewEvents s) <= maxParams)%nat /\ (2 * length (PendingTasks s) <= maxParams)%nat /\ (3 * queuedEvents s <= maxParams)%nat.

Lemma executed_any {X} (p : Tx X) : executed p (fun _ => True).
Proof. induction p; cbn; try done. split; [done |]. intros a [] _. done. Qed.

Section Bounds.
Context `{HC : ProtoCodec} `{HF : FailureCodec}.
Variable opts : PostgresOptions.

(** Sequencing, when nothing is asked of the first part. *)
Lemma executed_skip {X Y} (p : Tx X) (k : X -> Tx Y) (Q : Y -> Prop) : (forall x, executed (k x) Q) -> executed (p ≫= k) Q.
Proof. intros Hk. apply tx_wp_bind. eapply tx_wp_mono; [| apply executed_any]. intros x [] _. apply Hk. Qed.

Lemma executed_seq {X Y} (p : Tx X) (k : X -> Tx Y) (P : X -> Prop) (Q : Y -> Prop) :
  executed p P -> (forall x, P x -> executed (k x) Q) -> executed (p ≫= k) Q.
Proof. intros Hp Hk. apply tx_wp_bind. eapply tx_wp_mono; [| exact Hp]. intros x [] Hx. by apply Hk. Qed.

Lemma executed_history wi s : executed (saveHistory wi s) (fun _ => (3 * length (NewEvents s) <= maxParams)%nat).
Proof.
  unfold saveHistory. destruct (NewEvents s) as [|e es]; [exact (Nat.le_0_l maxParams) |]. apply tx_wp_bind.
  destruct (tryMap MarshalHistoryEvent (e :: es)) as [ps|] eqn:E; [| done]. apply tryMap_length in E. split; [done |].
  intros a [] Hf. rewrite <- E. exact Hf.
Qed.

Lemma executed_tasks wi s : executed (saveTasks wi s) (fun _ => (2 * length (PendingTasks s) <= maxParams)%nat).
Proof.
  unfold saveTasks. destruct (PendingTasks s) as [|e es]; [exact (Nat.le_0_l maxParams) |]. apply tx_wp_bind.
  destruct (tryMap MarshalHistoryEvent (e :: es)) as [ps|] eqn:E; [| done]. apply tryMap_length in E. split; [done |].
  intros a [] Hf. rewrite <- E. exact Hf.
Qed.

Lemma prepareTimers_length iid l rows : prepareTimers iid l = inl rows -> length rows = length l.
Proof.
  revert rows. induction l as [|e l IH]; intros rows; cbn; [by intros [= <-] |]. destruct (MarshalHistoryEvent e); [| done].
  destruct (prepareTimers iid l) as [r|]; [| done]. intros [= <-]. cbn. by rewrite (IH r).
Qed.

Lemma executed_messages serverNow msgs :
  executed (prepareMessages serverNow msgs) (fun rows => length rows = length (List.filter (fun m => negb (IsChildResult (msg_HistoryEvent m))) msgs)).
Proof.
  induction msgs as [|m msgs IH]; cbn [prepareMessages List.filter]; [done |]. destruct (IsChildResult (msg_HistoryEvent m)); cbn [negb]; [exact IH |].
  apply executed_skip. intros _. apply executed_skip. intros payload. eapply executed_seq; [exact IH |]. intros rows Hr. cbn. by rewrite Hr.
Qed.

Lemma executed_events serverNow wi s : executed (saveEvents serverNow wi s) (fun _ => (3 * queuedEvents s <= maxParams)%nat).
Proof.
  unfold saveEvents. apply tx_wp_bind. destruct (prepareTimers _ _) as [timers|] eqn:Et; [| done]. apply prepareTimers_length in Et. cbn [liftTx wp].
  eapply (executed_seq (prepareMessages serverNow (PendingMessages s))); [apply executed_messages |]. intros rows Hr.
  assert (length (map (fun t => (t, None)) timers ++ rows) = queuedEvents s) as <- by (unfold queuedEvents; cbn beta in Hr; rewrite length_app, length_map; lia).
  destruct (map _ timers ++ rows); [exact (Nat.le_0_l maxParams) |]. split; [done |]. by intros a [] Hf.
Qed.

Lemma turn_program now serverNow wi s :
  owi_State wi = Some s -> executed (program opts (MCompleteWorkflowWorkItem now serverNow wi)) (fun _ => turnFits s).
Proof.
  intros Hs. cbn [program]. unfold done. apply (executed_seq (CompleteWorkflowWorkItem now serverNow wi) _ (fun _ => turnFits s)); [| done].
  unfold CompleteWorkflowWorkItem. rewrite Hs. cbn [derefTx]. apply (executed_seq (TRet s) _ (fun s' => s' = s)); [done |]. intros ? ->.
  apply executed_skip. intros _. apply executed_skip. intros _.
  eapply executed_seq; [apply executed_history |]. intros [] H1. eapply executed_seq; [apply executed_tasks |]. intros [] H2.
  apply executed_skip. intros _. eapply executed_seq; [apply executed_events |]. intros [] H3.
  eapply tx_wp_mono; [| apply executed_any]. by intros.
Qed.

Definition size_ok (x : OpenTx) : Prop := forall now serverNow wi s,
  tx_method x = MCompleteWorkflowWorkItem now serverNow wi -> owi_State wi = Some s -> executed (tx_prog x) (fun _ => turnFits s).

Lemma size_ok_step l st st' :
  pg_step opts l st st' -> (forall t x, pg_open st !! t = Some x -> size_ok x) -> forall t x, pg_open st' !! t = Some x -> size_ok x.
Proof.
  intros Hs Hall. apply (each_step opts (fun _ => size_ok) l st st'); [| | done | done | done].
  - intros m now serverNow wi s Hm Hst. cbn in Hm. subst m. by apply turn_program.
  - intros t x y _ _ _ Hx [(s & k & ord & q & e & Hp & _ & Hex & _ & -> & _) | (err & -> & _)]; [| done].
    intros now serverNow wi w Hm Hst. specialize (Hx now serverNow wi w Hm Hst). rewrite Hp in Hx. destruct Hx as [_ Hx]. by apply Hx, (exec_fits _ _ _ _ _ _ _ Hex).
Qed.

Lemma reachable_size st : pg_reachable opts st -> forall t x, pg_open st !! t = Some x -> size_ok x.
Proof.
  intros Hr. assert (forall t x, pg_open pg_start !! t = Some x -> size_ok x) as H0 by (intros *; cbn; by rewrite lookup_empty).
  revert H0. induction Hr as [|a b c [l Hl] _ IH]; [done |]. intros Ha. eapply IH. by eapply size_ok_step.
Qed.

(** C37. A turn that commits is small: the transaction of a turn with more than 21845 new
    history events, more than 32767 new activity tasks, or more than 21845 timers and
    messages together, can never commit, however often it is tried, because each of them
    is inserted by one statement with three (two for tasks) parameters per row. *)
Theorem pg_turn_size_bounded st t x now serverNow wi s r :
  pg_reachable opts st -> pg_open st !! t = Some x -> tx_method x = MCompleteWorkflowWorkItem now serverNow wi ->
  owi_State wi = Some s -> tx_prog x = TRet r ->
  Z.of_nat (length (NewEvents s)) <= 21845 /\ Z.of_nat (length (PendingTasks s)) <= 32767 /\ Z.of_nat (queuedEvents s) <= 21845.
Proof.
  intros Hr Hx Hm Hs Hp. pose proof (reachable_size st Hr t x Hx now serverNow wi s Hm Hs) as Hf. rewrite Hp in Hf.
  destruct Hf as (H1 & H2 & H3). pose proof maxParams_eq. lia.
Qed.
End Bounds.
