(* ===== verification/PgOwners.v ===== *)
(** * PostgreSQL: histories and tasks belong to instances

    Under every interleaving of transactions, a history row and a task row belong to an
    instance that is there: no method leaves orphans behind, although the schema has no
    foreign keys and rows are deleted one table after the other. *)

From stdpp Require Import base list option strings gmap sets fin_maps relations.
From Stdlib Require Import ZArith Lia.
From S2P Require Import Prelude Errors Protos RuntimeState Propagation Helpers Backend Sqlite PgTables Postgres PgConcurrent PgDiscipline PgInvariant PgNumbers PgFence.

(** The instance a row belongs to. *)
Definition belongs (k : Key) (r : Row) (id : string) : Prop :=
  match k, r with
  | KHistory id' _, _ => id' = id
  | KTask _, RTask t => nt_InstanceID t = id
  | _, _ => False
  end.

(** An instance whose row is deleted and whose other rows are not yet: its id, and
    whether its history is. *)
Definition excused (d : option (string * bool)) (k : Key) (id : string) : Prop :=
  match d with
  | Some (id', historyGone) => id' = id /\ match k with KHistory _ _ => historyGone = false | _ => True end
  | None => False
  end.

Definition ownedBut (d : option (string * bool)) (db : PgDB) : Prop := forall k r id,
  db !! k = Some r -> belongs k r id -> excused d k id \/ is_Some (db !! KInstance id).

Definition owned (db : PgDB) : Prop := forall k r id, db !! k = Some r -> belongs k r id -> is_Some (db !! KInstance id).

(** ** Programs that clean up after themselves *)

(** Besides the instance that is being deleted: instances whose rows this transaction has
    written and not deleted. *)
Definition Tidy : Type := option (string * bool) * gset string.

Definition tidyPre (g : Tidy) (s : Stmt) : Prop :=
  match s with
  | SDeleteInstance _ _ => g.1 = None
  | SInsertHistory id _ _ | SInsertTasks id _ => id ∈ g.2
  | _ => True
  end.

Definition tidyPost (g : Tidy) (s : Stmt) : answer s -> Tidy -> Prop :=
  match s return answer s -> Tidy -> Prop with
  | SUpdateInstance id _ _ _ _ _ => fun a g' => g' = (g.1, if (a =? 0)%nat then g.2 else {[id]} ∪ g.2)
  | SDeleteInstance id _ => fun a g' => g' = if (a =? 0)%nat then g else (Some (id, false), g.2 ∖ {[id]})
  | SDeleteHistory id => fun _ g' => g' = (match g.1 with
                                           | Some (id', b) => Some (id', b || String.eqb id' id)
                                           | None => None end, g.2)
  | SDeleteTasks id => fun _ g' => g' = (match g.1 with
                                         | Some (id', true) => if String.eqb id' id then None else Some (id', true)
                                         | d => d end, g.2)
  | _ => fun _ g' => g' = g
  end.

Abbreviation tidyWp := (wp tidyPre tidyPost).

(** Nothing is being deleted before and after, and the rows of [need] stay. *)
Definition tidy (need : gset string) {X} (p : Tx X) : Prop := forall live (Q : X -> Tidy -> Prop),
  need ⊆ live -> (forall x live', need ⊆ live' -> Q x (None, live')) -> tidyWp p Q (None, live).

Section TidyRules.
Variable need : gset string.

Lemma tidy_ret {X} (x : X) : tidy need (mret x).
Proof. intros live Q Hn HQ. by apply HQ. Qed.
Lemma tidy_err {X} err : tidy need (TErr err : Tx X).
Proof. done. Qed.
Lemma tidy_panic {X} msg : tidy need (TPanic msg : Tx X).
Proof. done. Qed.
Lemma tidy_lift {X} (r : X + error) : tidy need (liftTx r).
Proof. destruct r; [apply tidy_ret | done]. Qed.
Lemma tidy_deref {X} what (p : option X) : tidy need (derefTx what p).
Proof. destruct p; [apply tidy_ret | done]. Qed.
Lemma tidy_lost n : tidy need (lost n).
Proof. unfold lost. destruct (n =? 0)%nat; [done | apply tidy_ret]. Qed.
Lemma tidy_bind {X Y} (m : Tx X) (k : X -> Tx Y) : tidy need m -> (forall x, tidy need (k x)) -> tidy need (m ≫= k).
Proof. intros Hm Hk live Q Hn HQ. apply tx_wp_bind, Hm; [done |]. intros x live' Hn'. by apply Hk. Qed.

(** Statements that delete no instance, and find the one they need. *)
Definition tidyStmt (s : Stmt) : Prop :=
  match s with SDeleteInstance _ _ => False | SInsertHistory id _ _ | SInsertTasks id _ => id ∈ need | _ => True end.

Lemma tidy_stmt s : tidyStmt s -> tidy need (stmt s).
Proof.
  intros Hs live Q Hn HQ. split; [destruct s; cbn in *; auto; done |]. intros a g Hg.
  assert (exists live', g = (None, live') /\ need ⊆ live') as (live' & -> & Hn').
  { destruct s; cbn in Hg; try done; subst g; eexists; (split; [reflexivity |]); try done. destruct (a =? 0)%nat; set_solver. }
  by apply HQ.
Qed.
End TidyRules.

Create HintDb pgtidy.
#[export] Hint Resolve tidy_ret tidy_err tidy_panic tidy_lift tidy_deref tidy_lost : pgtidy.

Ltac tidy_tac := repeat first
  [ solve [auto with pgtidy nocore]
  | solve [match goal with |- tidy _ (stmt ?s) => apply (tidy_stmt _ s); cbn; (exact I || set_solver) end]
  | apply tidy_bind; [| intros] | case_match ].

Section Methods.
Context `{HC : ProtoCodec} `{HF : FailureCodec}.

Lemma tidy_validate need id x : tidy need (validateChildDestination id x).
Proof. unfold validateChildDestination. tidy_tac. Qed.
Lemma tidy_deleteEvents need l : tidy need (deleteEvents l).
Proof. induction l; cbn [deleteEvents]; tidy_tac. Qed.
Lemma tidy_deleteStale need id t l : tidy need (deleteStale id t l).
Proof. induction l; cbn [deleteStale]; tidy_tac. Qed.
#[local] Hint Resolve tidy_validate tidy_deleteEvents tidy_deleteStale : pgtidy.
Lemma tidy_saveChildResults need s msgs : tidy need (saveChildResults s msgs).
Proof. induction msgs; cbn [saveChildResults]; tidy_tac. Qed.
Lemma tidy_create need serverNow e : tidy need (createWorkflowInstanceInternal serverNow e).
Proof. unfold createWorkflowInstanceInternal, insertOrIgnoreInstanceTableInternal. tidy_tac. Qed.

(** The cleanup deletes the instance, its history and its tasks, or nothing. *)
Lemma tidy_cleanup id : tidy ∅ (cleanupWorkflowStateInternal id true).
Proof.
  unfold cleanupWorkflowStateInternal. apply tidy_bind; [tidy_tac |]. intros ex. destruct (negb ex); [tidy_tac |].
  intros live Q Hn HQ. apply tx_wp_bind. split; [done |]. intros n g ->. cbn [wp fst snd]. destruct (n =? 0)%nat; cbn [andb]; [by apply HQ |].
  split; [done |]. intros a g ->. cbn [fst snd orb]. rewrite String.eqb_refl.
  do 2 (split; [done |]; intros ? g ->). split; [done |]. intros ? g ->. cbn [fst snd]. rewrite String.eqb_refl. apply HQ. set_solver.
Qed.

#[local] Hint Resolve tidy_saveChildResults tidy_create tidy_cleanup : pgtidy.
Lemma tidy_createTarget serverNow e es : tidy ∅ (createTarget serverNow e es).
Proof. unfold createTarget. tidy_tac. Qed.
#[local] Hint Resolve tidy_createTarget : pgtidy.
Lemma tidy_prepareMessages serverNow msgs : tidy ∅ (prepareMessages serverNow msgs).
Proof. induction msgs; cbn [prepareMessages]; tidy_tac. Qed.
#[local] Hint Resolve tidy_prepareMessages : pgtidy.

Lemma tidy_retire wi s : tidy {[owi_InstanceID wi]} (retireGeneration wi s).
Proof. unfold retireGeneration, discardPreviousExecutionWork. tidy_tac. Qed.
Lemma tidy_saveHistory wi s : tidy {[owi_InstanceID wi]} (saveHistory wi s).
Proof. unfold saveHistory. tidy_tac. Qed.
Lemma tidy_saveTasks wi s : tidy {[owi_InstanceID wi]} (saveTasks wi s).
Proof. unfold saveTasks. tidy_tac. Qed.

(** Completing a turn adds history and tasks after it has found the instance. *)
Lemma tidy_complete now serverNow wi : tidy ∅ (CompleteWorkflowWorkItem now serverNow wi).
Proof.
  unfold CompleteWorkflowWorkItem. apply tidy_bind; [tidy_tac |]. intros s live Q _ HQ. unfold updateInstance.
  apply tx_wp_bind, tx_wp_bind, (tidy_lift ∅); [set_solver |]. intros u live' _. apply tx_wp_bind. split; [done |]. intros n g ->. cbn [fst snd wp].
  unfold lost. destruct (n =? 0)%nat; [done |]. cbn [wp mret Tx_ret].
  apply tx_wp_bind, tidy_retire; [set_solver |]. intros _ l1 H1. apply tx_wp_bind, tidy_saveHistory; [done |]. intros _ l2 H2.
  apply tx_wp_bind, tidy_saveTasks; [done |]. intros _ l3 _.
  enough (tidy ∅ (saveChildResults s (PendingMessages s);; saveEvents serverNow wi s;; deleteInbound wi)) as Hrest by (apply Hrest; [set_solver | done]).
  unfold saveEvents, deleteInbound. tidy_tac.
Qed.
#[local] Hint Resolve tidy_complete : pgtidy.

Variable opts : PostgresOptions.

Lemma program_tidy m : tidy ∅ (program opts m).
Proof.
  destruct m; unfold program, done, GetWorkflowWorkItem, AbandonWorkflowWorkItem, getActivityWorkItem,
    CompleteActivityWorkItem, AbandonActivityWorkItem, CreateWorkflowInstance, AddNewWorkflowEvent,
    AddNewWorkflowEventWithExternalDelivery, PurgeWorkflowState, GetWorkflowMetadata, GetWorkflowRuntimeState, GetInstanceHistory,
    getStartedAt, getStartEvent, ListInstanceIDs; tidy_tac.
Qed.
End Methods.

(** ** A statement on the rows a transaction sees *)

Lemma tidyPost_total g s (a : answer s) : exists g', tidyPost g s a g'.
Proof. destruct s; eexists; reflexivity. Qed.

Section Statement.
Variables (b : gset Key) (ord : forall R, list R -> list R) (q q' : Seqs) (db : PgDB) (s : Stmt) (e : Effect (answer s)).
Hypothesis Hdb : map_Forall keyed db.
Hypothesis Hex : exec b ord s q db = (q', inl e).

(** Only a deletion that says so deletes the row of an instance. *)
Lemma deletes_instance id :
  ef_writes e !! KInstance id = Some None -> exists c, s = SDeleteInstance id c.
Proof.
  clear Hdb. intros Hk. pose proof (exec_mayWrite _ _ _ _ _ _ _ _ Hex (elem_of_dom_2 _ _ _ Hk)) as Hm.
  destruct s; cbn in Hm; try done; cbn [exec] in Hex; try (apply withSeq_inv in Hex as (-> & _ & _)); try (injection Hex as <- <-).
  1-2: apply updating_inv in Hk as (r & _ & Hk); unfold onOwnInstance in Hk; repeat case_match; by simplify_eq.
  - destruct (leaseCandidate b now db) as [[? []]|]; cbn in Hk; [by apply lookup_singleton_Some in Hk as [_ [=]] | by rewrite lookup_empty in Hk].
  - destruct (db !! _); cbn in Hk; [by rewrite lookup_empty in Hk | by apply lookup_singleton_Some in Hk as [_ [=]]].
  - subst id. by eexists.
Qed.

Lemma instance_stays id :
  is_Some (db !! KInstance id) -> ef_writes e !! KInstance id <> Some None -> is_Some (overlay (ef_writes e) db !! KInstance id).
Proof. intros Hid Hw. rewrite overlay_lookup. destruct (ef_writes e !! KInstance id) as [[r|]|]; [by eexists | done | done]. Qed.

(** The ghost state knows of a deletion. *)
Lemma deletion_known g g' id :
  tidyPost g s (ef_answer e) g' -> ef_writes e !! KInstance id = Some None -> g' = (Some (id, false), g.2 ∖ {[id]}).
Proof.
  intros Hpost Hw. destruct (deletes_instance id Hw) as [c ->]. cbn in Hpost. rewrite Hpost.
  cbn [exec] in Hex. injection Hex as <- <-. cbn. rewrite (proj2 (Nat.eqb_neq _ _)); [done |].
  intros E%map_size_empty_inv. cbn in Hw. by rewrite E, lookup_empty in Hw.
Qed.

(** Live instances: those of before, and one that is written. *)
Lemma live_known g g' id : tidyPost g s (ef_answer e) g' -> id ∈ g'.2 -> id ∈ g.2 \/ KInstance id ∈ dom (ef_writes e).
Proof.
  intros Hpost Hid. destruct s; cbn in Hpost; subst g'; cbn in Hid; auto.
  - case_match eqn:E; [by left |]. apply elem_of_union in Hid as [->%elem_of_singleton | ?]; [right | by left].
    eapply update_found; [exact Hex |]. by apply Nat.eqb_neq.
  - left. case_match; [done |]. cbn in Hid. by apply elem_of_difference in Hid as [? _].
Qed.

(** A row that stays is excused if it was. *)
Lemma excused_stays g g' k r id :
  tidyPre g s -> tidyPost g s (ef_answer e) g' -> db !! k = Some r -> ef_writes e !! k <> Some None -> belongs k r id ->
  excused g.1 k id -> excused g'.1 k id.
Proof.
  intros Hpre Hpost Hk Hw Hb Hx. destruct g as [[[id' gone']|] live]; [| done]. cbn in Hx. destruct Hx as [-> Hx].
  destruct s; cbn in Hpre, Hpost; try done; subst g'; cbn; try done.
  - split; [done |]. destruct k; try done. cbn in Hb. subst id1. subst gone'. cbn.
    destruct (String.eqb_spec id id0) as [<- |]; [| done]. cbn [exec] in Hex. injection Hex as <- <-.
    rewrite deleting_lookup, Hk in Hw. cbn in Hw. by rewrite String.eqb_refl in Hw.
  - destruct gone'; cbn; [| done]. destruct (String.eqb_spec id id0) as [<- |]; cbn; [| done]. cbn [exec] in Hex. injection Hex as <- <-.
    rewrite deleting_lookup, Hk in Hw. destruct k, r; try done. cbn in Hb, Hw. by rewrite Hb, String.eqb_refl in Hw.
Qed.

(** A row that is new or has a new version belongs to an instance that was there, or that
    the statement needs. *)
Lemma written_belongs k r id :
  ef_writes e !! k = Some (Some r) -> belongs k r id ->
  (exists r0, db !! k = Some r0 /\ belongs k r0 id) \/ forall g, tidyPre g s -> id ∈ g.2.
Proof.
  intros Hw Hb. pose proof (exec_mayWrite _ _ _ _ _ _ _ _ Hex (elem_of_dom_2 _ _ _ Hw)) as Hm. destruct k as [|id' n| | |n]; try done.
  - cbn in Hb. subst id'. right. destruct s; cbn in Hm; try done; subst; [by auto |]. cbn [exec] in Hex. injection Hex as <- <-.
    apply deleting_inv in Hw as (r0 & _ & _ & ?). done.
  - destruct r as [| | | |t]; try done. cbn in Hb. subst id. destruct (exec_owner _ _ _ _ _ _ _ _ _ Hdb Hex Hw) as [(t0 & Ht0 & Hid) | Hg].
    + left. exists (RTask t0). by split.
    + right. intros g. destruct s; cbn in Hm, Hg; try done; by subst.
Qed.

Lemma exec_tidy g g' :
  tidyPre g s -> tidyPost g s (ef_answer e) g' -> (forall id, id ∈ g.2 -> is_Some (db !! KInstance id)) ->
  ownedBut g.1 db -> ownedBut g'.1 (overlay (ef_writes e) db).
Proof.
  intros Hpre Hpost Hlive Hown k r id Hk Hb. assert (ef_writes e !! KInstance id = Some None \/ ef_writes e !! KInstance id <> Some None) as [Hdel | Hdel]
    by (destruct (ef_writes e !! KInstance id) as [[]|]; auto).
  { left. rewrite (deletion_known g g' id Hpost Hdel). cbn. split; [done |]. by destruct k. }
  rewrite overlay_lookup in Hk. destruct (ef_writes e !! k) as [v|] eqn:E; [subst v |].
  2: { destruct (Hown k r id Hk Hb) as [Hx | Hi]; [| right; by apply instance_stays].
    left. eapply excused_stays; [done | done | exact Hk | by rewrite E | done | done]. }
  destruct (written_belongs k r id E Hb) as [(r0 & Hr0 & Hb0) | Hlv].
  - destruct (Hown k r0 id Hr0 Hb0) as [Hx | Hi]; [| right; by apply instance_stays].
    left. eapply excused_stays; [done | done | exact Hr0 | by rewrite E | done | done].
  - right. apply instance_stays; [| done]. by eapply Hlive, Hlv.
Qed.
End Statement.

(** ** In every reachable state *)

Section Reach.
Context `{HC : ProtoCodec} `{HF : FailureCodec}.
Variable opts : PostgresOptions.

(** Where an open transaction is. *)
Record inOrder (st : Pg) (x : OpenTx) (g : Tidy) : Prop := {
  io_view : ownedBut g.1 (view st x);
  io_live : forall id, id ∈ g.2 -> exists r, tx_writes x !! KInstance id = Some (Some r);
  io_wp : tidyWp (tx_prog x) (fun _ g => g.1 = None) g
}.

Definition order_ok (st : Pg) (x : OpenTx) : Prop := (exists err, tx_prog x = TErr err) \/ exists g, inOrder st x g.

Lemma order_ok_stmt st st' t x s k ord q (e : Effect (answer s)) :
  pg_typed st -> pg_open st !! t = Some x -> order_ok st x -> tx_prog x = TStmt s k ->
  exec (busy t st) ord s (pg_seqs st) (view st x) = (q, inl e) -> pg_db st' = pg_db st -> order_ok st' (advance x e (k (ef_answer e))).
Proof.
  intros [_ Hd Ho] Hx [[err ?] | (g & [Hv Hl Hwp])] Hp Hex Hdb; [congruence |]. rewrite Hp in Hwp. destruct Hwp as [Hpre Hwp].
  assert (map_Forall keyed (view st x)) as Hk by (eapply typedDB_keyed, typed_overlay; [by eapply Ho | done]).
  destruct (tidyPost_total g s (ef_answer e)) as [g' Hpost]. right. exists g'. split; [| | by apply Hwp].
  - rewrite view_advance. unfold view at 1. rewrite Hdb. eapply exec_tidy; [done | done | done | done | | done].
    intros id (r & Hr)%Hl. unfold view. rewrite overlay_lookup, Hr. by eexists.
  - intros id Hid. cbn. destruct (ef_writes e !! KInstance id) as [[r|]|] eqn:E.
    + exists r. by apply lookup_union_Some_l.
    + rewrite (deletion_known _ _ _ _ _ _ _ Hex g g' id Hpost E) in Hid. cbn in Hid. apply elem_of_difference in Hid as [_ Hid]. by destruct Hid; apply elem_of_singleton.
    + destruct (live_known _ _ _ _ _ _ _ Hex g g' id Hpost Hid) as [(r & Hr)%Hl | Hd']; [| by apply not_elem_of_dom in E].
      exists r. by rewrite lookup_union_r.
Qed.

(** Another transaction, all of whose deletions are complete, commits. *)
Section Commit.
Variables (t t' : nat) (x x' : OpenTx) (st : Pg) (d : option (string * bool)).
Hypotheses (Hi : pg_inv st) (Hne : t <> t') (Hx : pg_open st !! t = Some x) (Hx' : pg_open st !! t' = Some x').
Hypotheses (Hown : owners_ok st x) (Hown' : owners_ok st x').
Hypotheses (Hv : ownedBut d (view st x)) (Hv' : owned (view st x')).

Lemma writes_exclusive k : k ∈ dom (tx_writes x) -> k ∈ dom (tx_writes x') -> False.
Proof. destruct Hi as [He _]. intros Hk Hk'. apply (He t t' x x' Hne Hx Hx' k); unfold held; by apply elem_of_union_l. Qed.

Lemma instance_after id :
  is_Some (view st x' !! KInstance id) -> tx_writes x !! KInstance id <> Some None -> is_Some (view (commit t' x' st) x !! KInstance id).
Proof. intros Hid Hw. unfold view in *. rewrite overlay_lookup. destruct (tx_writes x !! KInstance id) as [[]|]; [by eexists | done | done]. Qed.

(** A row this transaction has written. *)
Lemma own_row_belongs k r id :
  tx_writes x !! k = Some (Some r) -> belongs k r id -> excused d k id \/ is_Some (view (commit t' x' st) x !! KInstance id).
Proof.
  intros E Hb. destruct (Hv k r id) as [? | Hid]; [unfold view; by rewrite overlay_lookup, E | done | by left | right].
  destruct (tx_writes x !! KInstance id) as [[r'|]|] eqn:Ei; unfold view in Hid; rewrite overlay_lookup, Ei in Hid; [| by destruct Hid |].
  { unfold view. by rewrite overlay_lookup, Ei. }
  apply instance_after; [| by rewrite Ei]. apply not_elem_of_dom in Ei. destruct k as [|id' n| | |n]; try done.
  - cbn in Hb. subst id'. destruct Ei. eapply (ok_history _ (proj2 Hi t x Hx)). by eapply elem_of_dom_2.
  - destruct r as [| | | |task]; try done. cbn in Hb. subst id. destruct (Hown n task E) as [(t0 & Ht0 & Hid0) | Hd]; [| done].
    apply (Hv' (KTask n) (RTask t0)); [| done]. unfold view. rewrite overlay_lookup, not_elem_of_dom_1; [done |].
    intros Hd. eapply writes_exclusive, Hd. by eapply elem_of_dom_2.
Qed.

(** A row it has not written. *)
Lemma other_row_belongs k r id :
  tx_writes x !! k = None -> view st x' !! k = Some r -> belongs k r id -> excused d k id \/ is_Some (view (commit t' x' st) x !! KInstance id).
Proof.
  intros E Hk Hb. pose proof (Hv' k r id Hk Hb) as Hid.
  destruct (tx_writes x !! KInstance id) as [[r'|]|] eqn:Ei; [right; by apply instance_after; rewrite ?Ei | | right; by apply instance_after; rewrite ?Ei].
  left. assert (forall r0, pg_db st !! k = Some r0 -> belongs k r0 id -> excused d k id) as Hdone.
  { intros r0 Hr0 Hb0. destruct (Hv k r0 id) as [? | Hn]; [unfold view; by rewrite overlay_lookup, E | done | done |].
    unfold view in Hn. rewrite overlay_lookup, Ei in Hn. by destruct Hn. }
  unfold view in Hk. rewrite overlay_lookup in Hk. destruct (tx_writes x' !! k) as [v|] eqn:E'; [subst v | by eapply Hdone].
  pose proof (writes_exclusive _ (elem_of_dom_2 _ _ _ Ei)) as Hno. destruct k as [|id' n| | |n]; try done.
  - cbn in Hb. subst id'. destruct Hno. eapply (ok_history _ (proj2 Hi t' x' Hx')). by eapply elem_of_dom_2.
  - destruct r as [| | | |task]; try done. cbn in Hb. subst id. destruct (Hown' n task E') as [(t0 & Ht0 & Hid0) | Hd]; [| done].
    by eapply Hdone.
Qed.

Lemma view_after_commit : ownedBut d (view (commit t' x' st) x).
Proof.
  intros k r id Hk. unfold view in Hk. rewrite overlay_lookup in Hk. destruct (tx_writes x !! k) as [v|] eqn:E.
  - subst v. by apply own_row_belongs.
  - by apply other_row_belongs.
Qed.
End Commit.

Record orderly (st : Pg) : Prop := {
  or_owned : owned (pg_db st);
  or_open : forall t x, pg_open st !! t = Some x -> order_ok st x
}.

(** What a transaction that is about to commit will make of the database. *)
Lemma order_ready st x r : order_ok st x -> tx_prog x = TRet r -> owned (view st x).
Proof.
  intros [[err ?] | ([d live] & [Hv _ Hwp])] Hp k row id Hk Hb; [congruence |]. rewrite Hp in Hwp. cbn in Hwp. subst d. by destruct (Hv k row id Hk Hb).
Qed.

Lemma orderly_step l st st' : fence_good st -> pg_step opts l st st' -> orderly st -> orderly st'.
Proof.
  intros [Hi Hty Hown _] Hs [Ho Hall]. assert (forall a b x, pg_db b = pg_db a -> order_ok a x -> order_ok b x) as Hsame.
  { intros a b x Hdb [? | (g & [Hv Hl Hwp])]; [by left |]. right. exists g. split; [| done | done]. unfold view in *. by rewrite Hdb. }
  assert (owned (pg_db st')) as Ho'.
  { destruct Hs as [| | | t' x' r st Ht Hp |]; try exact Ho. exact (order_ready st x' r (Hall t' x' Ht) Hp). }
  split; [done |]. apply (each_step opts order_ok l st st'); [| | | done | done].
  - intros m. right. exists (None, ∅). split; cbn; [| set_solver | by apply program_tidy].
    intros k r id. unfold view. cbn. rewrite overlay_empty. intros Hk Hb. right. by eapply Ho'.
  - intros t x y Hx _ _ Hord [(s & k & ord & q & e & Hp & _ & Hex & _ & -> & Hdb) | (err & -> & Hdb)]; [by eapply order_ok_stmt |].
    left. by exists err.
  - intros t x Hx Hx' Hf. destruct Hs as [| | | t' x' r st Ht Hp |]; try (by apply (Hsame st)).
    destruct (decide (t = t')) as [-> | Hne]; [cbn in Hx'; by rewrite lookup_delete_eq in Hx' |].
    destruct Hf as [? | (g & [Hv Hl Hwp])]; [by left |]. right. exists g. split; [| done | done].
    eapply (view_after_commit t t'); [done | done | done | done | by eapply Hown | by eapply Hown | done |].
    eapply order_ready; [by eapply Hall | done].
Qed.

Lemma reachable_orderly st : pg_reachable opts st -> orderly st.
Proof.
  intros Hr. assert (forall a b, rtc (any_step opts) a b -> pg_reachable opts a -> orderly a -> orderly b) as Hrun.
  { intros a b Hab. induction Hab as [|a b c [l Hl] _ IH]; [done |]. intros Ha Hoa. apply IH.
    - unfold pg_reachable in *. etrans; [done |]. apply rtc_once. by exists l.
    - eapply orderly_step; [by apply (reachable_fence opts) | done | done]. }
  apply (Hrun pg_start st Hr); [apply rtc_refl |]. split; [intros k r id; cbn; by rewrite lookup_empty | intros *; cbn; by rewrite lookup_empty].
Qed.

(** C11. Whatever transactions run at once on PostgreSQL and however they are interleaved or
    aborted, no row is left without its instance: every committed row of History and every
    row of NewTasks is of an instance whose row is there.  This is so although the schema
    declares no foreign keys and a cleanup deletes the row of the instance first and the
    rest after it, while tasks are leased and turns are completed. *)
Theorem pg_no_orphans st :
  pg_reachable opts st ->
  (forall id n payload, pg_db st !! KHistory id n = Some payload -> is_Some (pg_db st !! KInstance id)) /\
  (forall n task, pg_db st !! KTask n = Some (RTask task) -> is_Some (pg_db st !! KInstance (nt_InstanceID task))).
Proof.
  intros Hr. pose proof (or_owned _ (reachable_orderly st Hr)) as Ho. split.
  - intros id n payload Hn. by apply (Ho _ _ id Hn).
  - intros n task Hn. by apply (Ho _ _ _ Hn).
Qed.
End Reach.
