(* ===== verification/PgWitness.v ===== *)
(** * The PostgreSQL backend on concrete schedules

    A scheduler that fires the transitions of PgConcurrent.v in a given order, and
    schedules on which the theorems of the backend are applied. *)

From stdpp Require Import base list option strings gmap sets fin_maps relations.
From Stdlib Require Import ZArith Lia.
From S2P Require Import Prelude Errors Protos RuntimeState Propagation Helpers Backend Sqlite.
From S2P Require Import PgTables Postgres PgConcurrent PgDiscipline PgInvariant PgNumbers PgFence PgTheorems PgOrder PgBounds PgOwners.

(** ** A scheduler *)

Section Sched.
Context `{HC : ProtoCodec} `{HF : FailureCodec}.
Variable opts : PostgresOptions.

Definition storedOrder (R : Type) (l : list R) : list R := l.

Definition fire (l : Label) (st : Pg) : option Pg :=
  match l with
  | LBegin t m =>
      match pg_open st !! t with
      | None => Some (putTx t (mkOpenTx m ∅ ∅ (program opts m)) st)
      | Some _ => None
      end
  | LStmt t =>
      match pg_open st !! t with
      | None => None
      | Some x =>
          match tx_prog x with
          | TStmt s k =>
              match exec (busy t st) storedOrder s (pg_seqs st) (view st x) with
              | (q, inl e) =>
                  if bool_decide ((dom (ef_writes e) ∪ ef_locks e) ## busy t st)
                  then Some (set_seqs q (putTx t (advance x e (k (ef_answer e))) st)) else None
              | (q, inr err) =>
                  Some (set_seqs q (putTx t (mkOpenTx (tx_method x) (tx_writes x) (tx_locks x) (TErr err)) st))
              end
          | _ => None
          end
      end
  | LCommit t =>
      match pg_open st !! t with
      | None => None
      | Some x => match tx_prog x with TRet _ => Some (commit t x st) | _ => None end
      end
  | LAbort t => match pg_open st !! t with None => None | Some _ => Some (abort t st) end
  end.

Lemma fire_step l st st' : fire l st = Some st' -> pg_step opts l st st'.
Proof.
  assert (anyOrder storedOrder) as Hord by (intros R l0; reflexivity).
  destruct l as [t m | t | t | t]; cbn [fire]; destruct (pg_open st !! t) as [x|] eqn:E; try done.
  - intros [= <-]. by constructor.
  - destruct (tx_prog x) as [| | | s k] eqn:Ep; try done. destruct (exec _ _ s _ _) as [q [e | err]] eqn:Ex.
    + case_bool_decide; [| done]. intros [= <-]. by eapply pg_stmt.
    + intros [= <-]. by eapply pg_fail.
  - destruct (tx_prog x) eqn:Ep; try done. intros [= <-]. by eapply pg_commit.
  - intros [= <-]. by eapply pg_abort.
Qed.

(** Fire what can be fired; whether everything could. *)
Fixpoint sched (ls : list Label) (st : Pg) : Pg * bool :=
  match ls with
  | [] => (st, true)
  | l :: rest => match fire l st with Some st' => sched rest st' | None => (st, false) end
  end.

Lemma sched_steps ls st : (sched ls st).2 = true -> rtc (any_step opts) st (sched ls st).1.
Proof.
  revert st. induction ls as [|l rest IH]; intros st; cbn [sched]; [by constructor |].
  destruct (fire l st) as [st'|] eqn:E; [| done]. intros H. eapply rtc_l; [exists l; by apply fire_step | by apply IH].
Qed.

Lemma sched_reachable ls st : pg_reachable opts st -> (sched ls st).2 = true -> pg_reachable opts (sched ls st).1.
Proof. intros Hr H. unfold pg_reachable in *. etrans; [exact Hr | by apply sched_steps]. Qed.

(** No commit in the schedule has the given token. *)
Definition spares (token : string) (l : Label) (st : Pg) : bool :=
  match l with
  | LCommit t => match pg_open st !! t with Some x => negb (bool_decide (tokenOf (tx_method x) = Some token)) | None => true end
  | _ => true
  end.

Fixpoint sparesAll (token : string) (ls : list Label) (st : Pg) : bool :=
  match ls with
  | [] => true
  | l :: rest => spares token l st && match fire l st with Some st' => sparesAll token rest st' | None => true end
  end.

Lemma sched_others token ls st :
  (sched ls st).2 = true -> sparesAll token ls st = true -> rtc (othersStep opts token) st (sched ls st).1.
Proof.
  revert st. induction ls as [|l rest IH]; intros st; cbn [sched sparesAll]; [by constructor |].
  destruct (fire l st) as [st'|] eqn:E; [| done]. intros H [Hs Ha]%andb_true_iff. eapply rtc_l; [| by apply IH].
  exists l. split; [by apply fire_step |]. intros t x -> Hx. cbn in Hs. rewrite Hx in Hs. by case_bool_decide.
Qed.

(** The transaction and what it returns, when it is about to commit. *)
Definition ready (st : Pg) (t : nat) : option (OpenTx * Reply) :=
  match pg_open st !! t with
  | Some x => match tx_prog x with TRet r => Some (x, r) | _ => None end
  | None => None
  end.

Lemma ready_inv st t x r : ready st t = Some (x, r) -> pg_open st !! t = Some x /\ tx_prog x = TRet r.
Proof. unfold ready. destruct (pg_open st !! t) as [y|]; [| done]. destruct (tx_prog y) eqn:E; try done. by intros [= <- <-]. Qed.

(** What can be computed of it. *)
Definition readyCall (st : Pg) (t : nat) : option (method * Reply) := (fun xr => (tx_method xr.1, xr.2)) <$> ready st t.

Lemma readyCall_inv st t m r : readyCall st t = Some (m, r) ->
  exists x, pg_open st !! t = Some x /\ tx_prog x = TRet r /\ tx_method x = m.
Proof. unfold readyCall. destruct (ready st t) as [[x r']|] eqn:E; [| done]. intros [= <- <-]. apply ready_inv in E as []. by exists x. Qed.

Lemma sched_commit st t m r : readyCall st t = Some (m, r) ->
  exists x, pg_open st !! t = Some x /\ tx_prog x = TRet r /\ tx_method x = m /\ (sched [LCommit t] st).1 = commit t x st.
Proof. intros (x & H1 & H2 & H3)%readyCall_inv. exists x. split_and!; [done.. |]. cbn [sched fire]. by rewrite H1, H2. Qed.
End Sched.

(** ** One workflow with an activity, and its second generation *)

Definition stmts (t n : nat) : list Label := replicate n (LStmt t).

Definition start : HistoryEvent :=
  ev (-1) 5 (HistoryEvent_ExecutionStarted (mkExecutionStartedEvent "wf" None (Some "in")
    (Some (mkWorkflowInstance "wf1" (Some "x1"))) None None None None ∅)).
Definition restarted : HistoryEvent :=
  ev (-1) 5 (HistoryEvent_ExecutionStarted (mkExecutionStartedEvent "wf" None (Some "again")
    (Some (mkWorkflowInstance "wf1" (Some "x2"))) None None None None ∅)).
Definition scheduled : HistoryEvent := ev 0 12 (HistoryEvent_TaskScheduled (mkTaskScheduledEvent "A" None None None "t0" None)).
Definition result : HistoryEvent := ev (-1) 14 (HistoryEvent_TaskCompleted (mkTaskCompletedEvent 0 None "t0")).
Definition raised : HistoryEvent := ev (-1) 13 (HistoryEvent_EventRaised (mkEventRaisedEvent "go" None)).

Definition childDone : HistoryEvent :=
  ev (-1) 15 (HistoryEvent_ChildWorkflowInstanceCompleted (mkChildWorkflowInstanceCompletedEvent 1 None)).

#[local] Instance pgCodec : ProtoCodec := catalogCodec [start; restarted; scheduled; result; raised; childDone].
#[local] Instance pgFailures : FailureCodec := {|
  MarshalFailure _ := inr (errorNew "unsupported");
  UnmarshalFailure _ := inr (errorNew "unsupported")
|}.
Definition opts : PostgresOptions := NewPostgresOptions.

(** The first turn takes in the start event and schedules the activity. *)
Definition turn1 : WorkflowRuntimeState :=
  set_PendingTasks [scheduled] (AddEvents (NewWorkflowRuntimeState "wf1" None []) [start; scheduled]).1.
Definition item1 (s : option WorkflowRuntimeState) : WorkflowWorkItem := mkWorkflowWorkItem "wf1" [start] "t1" 0 s None ∅.

(** Created and leased; another transaction is open. *)
Definition leasing : list Label :=
  [LBegin 0 (MCreateWorkflowInstance 6 (Some start))] ++ stmts 0 2 ++ [LCommit 0] ++
  [LBegin 9 MListInstanceIDs; LBegin 1 (MGetWorkflowWorkItem 10000 "t1")] ++ stmts 1 2.
Definition st1 : Pg := (sched opts leasing pg_start).1.

Definition st2 : Pg := (sched opts [LCommit 1] st1).1.

Lemma st1_reachable : pg_reachable opts st1.
Proof. apply sched_reachable; [constructor | vm_compute; reflexivity]. Qed.

Lemma st2_reachable : pg_reachable opts st2.
Proof. apply sched_reachable; [apply st1_reachable | vm_compute; reflexivity]. Qed.

(** The turn and a raised event run together. *)
Definition working : list Label :=
  [LBegin 2 (MCompleteWorkflowWorkItem 20000 20000 (item1 (Some turn1))); LBegin 3 (MAddNewWorkflowEvent "wf1" (Some raised));
   LStmt 2; LStmt 3; LStmt 2; LCommit 3; LStmt 2; LStmt 2].
Definition st3 : Pg := (sched opts working st2).1.

(** The history was empty at the lease and has the two events of the turn after it. *)
Lemma pg_turn_is_stored_witness : exists x,
  pg_open st3 !! 2%nat = Some x /\ length (PgTables.historyPayloads (pg_db (commit 2 x st3)) "wf1") = 2%nat /\
  exists new, tryMap MarshalHistoryEvent (NewEvents turn1) = inl new /\ PgTables.historyPayloads (pg_db (commit 2 x st3)) "wf1" = [] ++ new.
Proof.
  destruct (readyCall_inv st3 2 (MCompleteWorkflowWorkItem 20000 20000 (item1 (Some turn1))) RepDone) as (x & Hx & Hp & Hm);
    [vm_compute; reflexivity |].
  assert (exists new, tryMap MarshalHistoryEvent (NewEvents turn1) = inl new /\
    PgTables.historyPayloads (pg_db (commit 2 x st3)) "wf1" = [] ++ new) as Hnew.
  { assert (rtc (othersStep opts "t1") st2 st3) as Hrun by (apply sched_others; vm_compute; reflexivity).
    assert (storedHistory (pg_db st2) "wf1" = map_seqZ 0 []) as Hempty by (vm_compute; reflexivity).
    exact (proj2 (pg_turn_is_stored opts st2 st3 2 x 20000 20000 (item1 (Some turn1)) turn1 RepDone []
      st2_reachable Hrun Hx Hm Hp eq_refl (Forall_nil_2 _) Hempty eq_refl)). }
  exists x. split_and!; [done | | exact Hnew]. destruct Hnew as (new & Hn & ->). vm_compute in Hn. by injection Hn as <-.
Defined.

Lemma pg_turn_size_bounded_witness :
  Z.of_nat (length (NewEvents turn1)) <= 21845 /\ Z.of_nat (length (PendingTasks turn1)) <= 32767 /\ Z.of_nat (queuedEvents turn1) <= 21845.
Proof.
  destruct (readyCall_inv st3 2 (MCompleteWorkflowWorkItem 20000 20000 (item1 (Some turn1))) RepDone) as (x & Hx & Hp & Hm);
    [vm_compute; reflexivity |].
  assert (pg_reachable opts st3) as Hr by (apply sched_reachable; [apply st2_reachable | vm_compute; reflexivity]).
  exact (pg_turn_size_bounded opts st3 2 x 20000 20000 (item1 (Some turn1)) turn1 RepDone Hr Hx Hm eq_refl Hp).
Defined.

(** A second worker takes over after the lease has expired. *)
Definition late : Z := 10000 + 2 * Minute + 1000.
Definition takeover : list Label := [LBegin 4 (MGetWorkflowWorkItem late "t2")] ++ stmts 4 2.
Definition item2 : WorkflowWorkItem := mkWorkflowWorkItem "wf1" [start] "t2" 1 None None ∅.

Lemma pg_lease_exclusive_witness : pgTime (10000 + pgWorkflowLockTimeout opts) < pgTime late.
Proof.
  destruct (sched_commit opts st1 1 (MGetWorkflowWorkItem 10000 "t1") (RepWorkflow (Some (item1 None)))) as (x & Hx & Hp & Hm & Hc);
    [vm_compute; reflexivity |].
  destruct (readyCall_inv (sched opts takeover st2).1 4 (MGetWorkflowWorkItem late "t2") (RepWorkflow (Some item2))) as (x' & Hx' & Hp' & Hm');
    [vm_compute; reflexivity |].
  assert (rtc (othersStep opts "t1") (commit 1 x st1) (sched opts takeover st2).1) as Hrun
    by (rewrite <- Hc; apply sched_others; vm_compute; reflexivity).
  assert (lockedBy (pg_db (sched opts takeover st2).1) "wf1" "t1") as Hl by (eexists _, _; split; vm_compute; reflexivity).
  exact (pg_lease_exclusive opts st1 1 x 10000 "t1" (item1 None) (sched opts takeover st2).1 4 x' late "t2" item2
    st1_reachable Hx Hm Hp Hrun Hl Hx' Hm' Hp' eq_refl).
Defined.

(** ** The activity *)

(** The turn is committed, its task is leased, and so is the workflow again. *)
Definition serving : list Label :=
  [LCommit 2; LBegin 4 (MGetActivityWorkItem 30000 "a1"); LBegin 5 (MGetWorkflowWorkItem 40000 "t2")] ++
  stmts 5 2 ++ stmts 4 1 ++ [LCommit 4; LCommit 5].
Definition st4 : Pg := (sched opts serving st3).1.

Lemma st4_reachable : pg_reachable opts st4.
Proof.
  apply sched_reachable; [apply sched_reachable; [apply st2_reachable |] |]; vm_compute; reflexivity.
Qed.

(** The activity's task and the history of the turn have their instance. *)
Lemma pg_no_orphans_witness : is_Some (pg_db st4 !! KTask 1) /\ is_Some (pg_db st4 !! KHistory "wf1" 1) /\ is_Some (pg_db st4 !! KInstance "wf1").
Proof.
  assert (is_Some (pg_db st4 !! KHistory "wf1" 1)) as [p Hp] by (eexists; vm_compute; reflexivity).
  split_and!; [eexists; vm_compute; reflexivity | by exists p |]. exact (proj1 (pg_no_orphans opts st4 st4_reachable) "wf1" 1 p Hp).
Defined.

Definition activity : ActivityWorkItem := mkActivityWorkItem 1 "wf1" scheduled (Some result) "a1" None.
Definition finishing (t : nat) : list Label := [LBegin t (MCompleteActivityWorkItem activity)] ++ stmts t 2.

(** The method of an open transaction can be computed. *)
Lemma open_method st t m : tx_method <$> pg_open st !! t = Some m -> exists x, pg_open st !! t = Some x /\ tx_method x = m.
Proof. destruct (pg_open st !! t) as [x|]; [| done]. intros [= <-]. by exists x. Qed.

(** Completed once, and tried again. *)
Definition st5 : Pg := (sched opts (finishing 6) st4).1.
Definition st6 : Pg := (sched opts [LCommit 6] st5).1.
Definition st7 : Pg := (sched opts (finishing 7) st6).1.

Lemma pg_task_settled_once_witness : exists x', pg_open st7 !! 7%nat = Some x' /\ tx_prog x' <> TRet RepDone.
Proof.
  destruct (sched_commit opts st5 6 (MCompleteActivityWorkItem activity) RepDone) as (x & Hx & Hp & Hm & Hc); [vm_compute; reflexivity |].
  destruct (open_method st7 7 (MCompleteActivityWorkItem activity)) as (x' & Hx' & Hm'); [vm_compute; reflexivity |].
  assert (pg_reachable opts st5) as Hr by (apply sched_reachable; [apply st4_reachable | vm_compute; reflexivity]).
  assert (is_Some (pg_db st5 !! KTask 1)) as Hn by (eexists; vm_compute; reflexivity).
  assert (pg_db (commit 6 x st5) !! KTask 1 = None) as Hd by (rewrite <- Hc; vm_compute; reflexivity).
  assert (rtc (any_step opts) (commit 6 x st5) st7) as Hrun by (rewrite <- Hc; apply sched_steps; vm_compute; reflexivity).
  exists x'. split; [exact Hx' |].
  exact (pg_task_settled_once opts st5 6 x RepDone 1 st7 7 x' activity RepDone Hr Hx Hp Hn Hd Hrun Hx' Hm' eq_refl).
Defined.

(** The workflow continues as new while the activity is leased; then the activity is
    completed. *)
Definition turn2 : WorkflowRuntimeState :=
  set_ContinuedAsNew true (AddEvents (NewWorkflowRuntimeState "wf1" None []) [restarted]).1.
Definition item3 : WorkflowWorkItem := mkWorkflowWorkItem "wf1" [raised] "t2" 0 (Some turn2) None ∅.
Definition st8 : Pg := (sched opts ([LBegin 8 (MCompleteWorkflowWorkItem 50000 50000 item3)] ++ stmts 8 6) st4).1.
Definition st9 : Pg := (sched opts [LCommit 8] st8).1.
Definition st10 : Pg := (sched opts (finishing 10) st9).1.

Lemma pg_continue_as_new_fences_witness : exists x', pg_open st10 !! 10%nat = Some x' /\ tx_prog x' <> TRet RepDone.
Proof.
  destruct (sched_commit opts st8 8 (MCompleteWorkflowWorkItem 50000 50000 item3) RepDone) as (x & Hx & Hp & Hm & Hc); [vm_compute; reflexivity |].
  destruct (open_method st10 10 (MCompleteActivityWorkItem activity)) as (x' & Hx' & Hm'); [vm_compute; reflexivity |].
  assert (pg_reachable opts st8) as Hr by (apply sched_reachable; [apply st4_reachable | vm_compute; reflexivity]).
  assert (exists task, pg_db st8 !! KTask 1 = Some (RTask task) /\ nt_InstanceID task = "wf1") as (task & Hn & Hid)
    by (eexists; split; vm_compute; reflexivity).
  assert (rtc (any_step opts) (commit 8 x st8) st10) as Hrun by (rewrite <- Hc; apply sched_steps; vm_compute; reflexivity).
  exists x'. split; [exact Hx' |].
  exact (pg_continue_as_new_fences opts st8 8 x 50000 50000 item3 turn2 RepDone 1 task st10 10 x' activity RepDone
    Hr Hx Hm eq_refl eq_refl Hp Hn Hid Hrun Hx' Hm' eq_refl).
Defined.

(** ** Rows in another order *)

Lemma reversed_order : anyOrder (fun R => @rev R).
Proof. intros R l. symmetry. apply Permutation_rev. Qed.

(** Two events, delivered by number also when the server returns them in reverse. *)
Definition queued : Seqs * PgDB :=
  (runTx storedOrder (AddNewWorkflowEvent "wf1" (Some raised))
    (runTx storedOrder (CreateWorkflowInstance 6 (Some start)) (firstSeqs, ∅)).1).1.

Lemma pg_lease_any_order_witness : exists q db wi,
  runTx (fun R => @rev R) (GetWorkflowWorkItem opts 10000 "t1") queued = (q, db, Ok (Some wi)) /\ owi_NewEvents wi = [start; raised].
Proof.
  destruct (runTx storedOrder (GetWorkflowWorkItem opts 10000 "t1") queued) as [[q db] r] eqn:E.
  assert (exists wi, r = Ok (Some wi) /\ owi_NewEvents wi = [start; raised]) as (wi & -> & Hw).
  { change r with (q, db, r).2. rewrite <- E. eexists. split; vm_compute; reflexivity. }
  exists q, db, wi. split; [| exact Hw].
  assert (map_Forall keyed queued.2) as Hk by (apply map_Forall_to_list; vm_compute; repeat constructor).
  exact (pg_lease_any_order opts storedOrder (fun R => @rev R) 10000 "t1" queued.1 queued.2 q db (Some wi)
    (fun R l => reflexivity l) reversed_order Hk E).
Defined.

(** A child result of an older writer, without the execution of its parent. *)
Definition legacyRow : NewEventRow :=
  mkNewEventRow 7 "wf1" None None 0 None (match MarshalHistoryEvent childDone with inl b => b | inr _ => "" end).
Definition legacyDB : PgDB := <[KEvent 7 := REvent legacyRow]> queued.2.

