(* ===== verification/Lifecycle.v ===== *)
(** * Task hubs of the two backends (backend/sqlite/sqlite.go, backend/postgres/postgres.go)

    Creating, opening, stopping and deleting a task hub: which tables a backend works on
    afterwards.  The SQLite driver and the file system are outside: [dsnFile] is the file
    the driver opens for a data source name ([None] is a private database in memory), and
    the errors of the calls are arguments. *)

From stdpp Require Import base list option strings gmap sets fin_maps.
From Stdlib Require Import ZArith Lia.
From S2P Require Import Prelude Errors Protos Sqlite PgTables.

(** ** SQLite *)

Class SqlDriver := { dsnFile : string -> option string }.

(** An open connection: its file, and the tables. *)
Record Conn := mkConn { cn_file : option string; cn_tables : DB }.

Record SqliteHost := mkSqliteHost {
  sh_files : gmap string DB;
  sh_dsn : string;
  sh_FilePath : string;
  sh_db : option Conn
}.

Definition set_conn (db : option Conn) (h : SqliteHost) : SqliteHost := mkSqliteHost (sh_files h) (sh_dsn h) (sh_FilePath h) db.

(** [NewSqliteBackend]: the data source name of a file path. *)
Definition dsnOf (filePath : string) : string :=
  if String.eqb filePath "" then "file::memory:"
  else if negb (String.prefix "file:" filePath) then "file:" +:+ filePath
  else filePath.

Definition NewSqliteBackend (files : gmap string DB) (filePath : string) : SqliteHost :=
  mkSqliteHost files (dsnOf filePath) filePath None.

Section Sqlite.
Context `{SqlDriver}.

(** A method runs on the open tables; what it commits is in the file. *)
Definition onTables {R} (op : Sqlite -> Sqlite * R) (h : SqliteHost) : SqliteHost * R :=
  match sh_db h with
  | None => (h, (op None).2)
  | Some c =>
      match op (Some (cn_tables c)) with
      | (Some db, r) =>
          (mkSqliteHost (match cn_file c with Some f => <[f := db]> (sh_files h) | None => sh_files h end)
             (sh_dsn h) (sh_FilePath h) (Some (mkConn (cn_file c) db)), r)
      | (None, r) => (h, r)
      end
  end.

(** The tables the driver finds for the data source name. *)
Definition openTables (h : SqliteHost) : DB :=
  match dsnFile (sh_dsn h) with Some f => default emptyDB (sh_files h !! f) | None => emptyDB end.

(** [CreateTaskHub]; [opened] and [initialised] are the errors of [sql.Open] and of the
    schema.  The tables that exist are kept; a file that does not exist is created. *)
Definition CreateTaskHub (opened initialised : option error) (h : SqliteHost) : SqliteHost * option error :=
  match opened with
  | Some err => (h, Some (errorWrap "failed to open the database" err))
  | None =>
      match initialised with
      | Some err => (h, Some (errorWrap "failed to initialize the database" err))
      | None =>
          let file := dsnFile (sh_dsn h) in
          let tables := openTables h in
          (mkSqliteHost (match file with Some f => <[f := tables]> (sh_files h) | None => sh_files h end)
             (sh_dsn h) (sh_FilePath h) (Some (mkConn file tables)), None)
      end
  end.

(** [Stop]; [closed] is the error of [Close]. *)
Definition Stop (closed : option error) (h : SqliteHost) : SqliteHost * option error :=
  match sh_db h with
  | None => (h, None)
  | Some _ =>
      match closed with
      | Some err => (set_conn None h, Some (errorWrap "failed to close the database" err))
      | None => (set_conn None h, None)
      end
  end.

(** [os.Remove] of the configured path; [failed] is an error other than a missing file. *)
Definition removeFile (failed : option error) (path : string) (h : SqliteHost) : SqliteHost * option error :=
  match sh_files h !! path, failed with
  | None, _ => (h, Some ErrTaskHubNotFound)
  | Some _, Some err => (h, Some err)
  | Some _, None => (mkSqliteHost (delete path (sh_files h)) (sh_dsn h) (sh_FilePath h) (sh_db h), None)
  end.

Definition DeleteTaskHub (closed failed : option error) (h : SqliteHost) : SqliteHost * option error :=
  match sh_db h, closed with
  | Some _, Some err => (h, Some (errorWrap "failed to close the database" err))
  | _, _ =>
      let h := set_conn None h in
      if String.eqb (sh_FilePath h) "" then (h, None) else removeFile failed (sh_FilePath h) h
  end.

(** The tables a method works on after a sequence of calls. *)
Definition tablesOf (h : SqliteHost) : option DB := cn_tables <$> sh_db h.

(** The file of an open connection holds its tables. *)
Definition host_ok (h : SqliteHost) : Prop := forall c, sh_db h = Some c ->
  cn_file c = dsnFile (sh_dsn h) /\ forall f, cn_file c = Some f -> sh_files h !! f = Some (cn_tables c).

Lemma host_ok_create opened initialised h : host_ok h -> host_ok (CreateTaskHub opened initialised h).1.
Proof.
  intros Hh. unfold CreateTaskHub. destruct opened; [done |]. destruct initialised; [done |]. intros c [= <-]. cbn. split; [done |].
  intros f ->. by rewrite lookup_insert_eq.
Qed.

Lemma host_ok_on {R} (op : Sqlite -> Sqlite * R) h : host_ok h -> host_ok (onTables op h).1.
Proof.
  intros Hh. unfold onTables. destruct (sh_db h) as [c|] eqn:E; [| by destruct h]. destruct (op (Some (cn_tables c))) as [[db|] r]; [| done].
  intros c' [= <-]. cbn. destruct (Hh c E) as [Hf _]. split; [done |]. intros f ->. by rewrite lookup_insert_eq.
Qed.

(** A task hub in a file outlives its backend.  On a plain file path, after any
    sequence of method calls, stopping the backend and creating the task hub again gives
    the same tables back; deleting it in between gives empty tables.  (In memory the
    tables are new each time, also when the hub is created twice without a stop.) *)
Theorem sqlite_hub_roundtrip {R} files path (ops : list (Sqlite -> Sqlite * R)) :
  path <> "" -> String.prefix "file:" path = false -> dsnFile ("file:" +:+ path) = Some path -> dsnFile "file::memory:" = None ->
  let h0 := (CreateTaskHub None None (NewSqliteBackend files path)).1 in
  let h := foldl (fun h op => (onTables op h).1) h0 ops in
  is_Some (tablesOf h) /\
  tablesOf (CreateTaskHub None None (Stop None h).1).1 = tablesOf h /\
  (DeleteTaskHub None None h).2 = None /\ tablesOf (CreateTaskHub None None (DeleteTaskHub None None h).1).1 = Some emptyDB /\
  forall m, sh_dsn m = dsnOf "" -> tablesOf (CreateTaskHub None None m).1 = Some emptyDB.
Proof.
  intros Hne Hpre Hdsn Hmem h0 h.
  assert (host_ok h /\ sh_dsn h = "file:" +:+ path /\ sh_FilePath h = path /\ is_Some (sh_db h)) as (Hok & Hd & Hp & [c Hc]).
  { unfold h. assert (host_ok h0 /\ sh_dsn h0 = "file:" +:+ path /\ sh_FilePath h0 = path /\ is_Some (sh_db h0)) as H0.
    { split; [by apply host_ok_create |]. unfold h0, CreateTaskHub, NewSqliteBackend, dsnOf. cbn [fst sh_dsn sh_FilePath sh_db].
      apply String.eqb_neq in Hne. rewrite Hne, Hpre. by split_and!. }
    clear -H0. generalize dependent h0. induction ops as [|op ops IH]; intros h0 H0; cbn [foldl]; [done |]. apply IH.
    destruct H0 as (Hok & Hd & Hp & [c Hc]). split; [by apply host_ok_on |]. unfold onTables. rewrite Hc.
    by destruct (op (Some (cn_tables c))) as [[db|] r]; cbn; rewrite ?Hc. }
  destruct (Hok c Hc) as [Hf Hin]. rewrite Hd, Hdsn in Hf. specialize (Hin path Hf).
  unfold tablesOf, Stop, DeleteTaskHub, removeFile, CreateTaskHub, openTables. rewrite Hc. cbn. rewrite Hd, Hdsn, Hp, Hin. cbn.
  apply String.eqb_neq in Hne. rewrite Hne. cbn. rewrite ?Hd, ?Hdsn, ?Hin. cbn. rewrite ?lookup_delete_eq.
  split_and!; [by eexists | done.. |]. intros m ->. by rewrite Hmem.
Qed.
(** A path that is given as a URI: the driver opens the file it names, the deletion
    looks for a file called like the whole URI, and the tables stay. *)
Theorem prefixed_hub_is_not_deleted files path :
  dsnFile ("file:" +:+ path) = Some path -> files !! ("file:" +:+ path) = None -> path <> "file:" +:+ path ->
  let h := (CreateTaskHub None None (NewSqliteBackend files ("file:" +:+ path))).1 in
  (DeleteTaskHub None None h).2 = Some ErrTaskHubNotFound /\
  tablesOf (CreateTaskHub None None (DeleteTaskHub None None h).1).1 = tablesOf h.
Proof.
  intros Hdsn Hnone Hne h. assert (dsnOf ("file:" +:+ path) = "file:" +:+ path) as Hd by (cbn; by destruct path).
  unfold h, tablesOf, DeleteTaskHub, removeFile, CreateTaskHub, openTables, NewSqliteBackend. rewrite Hd.
  cbn [fst snd sh_db sh_dsn sh_files sh_FilePath set_conn]. change (String.eqb ("file:" +:+ path) "") with false. cbn iota. rewrite Hdsn.
  rewrite lookup_insert_ne, Hnone by done. cbn. by rewrite Hdsn, lookup_insert_eq.
Qed.
End Sqlite.

(** ** PostgreSQL *)

Inductive Table := TInstances | THistory | TNewEvents | TExternalEventDeliveries | TNewTasks.
#[global] Instance Table_eq_dec : EqDecision Table.
Proof. solve_decision. Defined.

Definition tableOf (k : Key) : Table :=
  match k with
  | KInstance _ => TInstances
  | KHistory _ _ => THistory
  | KEvent _ => TNewEvents
  | KDelivery _ _ _ => TExternalEventDeliveries
  | KTask _ => TNewTasks
  end.

(** The tables that exist on the server, their rows and sequences. *)
Record Server := mkServer {
  sv_tables : list Table;
  sv_seqs : Seqs;
  sv_db : PgDB
}.

(** [be.db != nil], and the server. *)
Record PgHost := mkPgHost { ph_open : bool; ph_server : Server }.

Definition tableOrder : list Table := [TInstances; THistory; TNewEvents; TExternalEventDeliveries; TNewTasks].

(** The sequence of a table starts again when the table is created. *)
Definition restartSeq (t : Table) (q : Seqs) : Seqs :=
  match t with
  | TInstances => set_sqInstances 1 q
  | TNewEvents => set_sqNewEvents 1 q
  | TNewTasks => set_sqNewTasks 1 q
  | _ => q
  end.

(** [CREATE TABLE IF NOT EXISTS] *)
Definition createTable (sv : Server) (t : Table) : Server :=
  if bool_decide (t ∈ sv_tables sv) then sv else mkServer (t :: sv_tables sv) (restartSeq t (sv_seqs sv)) (sv_db sv).

(** [DROP TABLE IF EXISTS ... CASCADE] *)
Definition dropTable (t : Table) (sv : Server) : Server :=
  mkServer (List.filter (fun t' => negb (bool_decide (t' = t))) (sv_tables sv)) (sv_seqs sv)
    (filter (fun kr => tableOf kr.1 <> t) (sv_db sv)).

(** [OpenTaskHub]; [opened] is the error of the connection pool. *)
Definition OpenTaskHub (opened : option error) (h : PgHost) : PgHost * option error :=
  if ph_open h then (h, None)
  else match opened with
       | Some err => (h, Some (errorWrap "failed to create a new postgres pool" err))
       | None => (mkPgHost true (ph_server h), None)
       end.

(** [CreateTaskHub]: the schema is one statement string, applied as a whole. *)
Definition pgCreateTaskHub (opened initialised : option error) (h : PgHost) : PgHost * option error :=
  match OpenTaskHub opened h with
  | (h, Some err) => (h, Some err)
  | (h, None) =>
      match initialised with
      | Some err => (mkPgHost false (ph_server h), Some (errorWrap "failed to initialize the database" err))
      | None => (mkPgHost (ph_open h) (foldl createTable (ph_server h) tableOrder), None)
      end
  end.

Definition tableName (t : Table) : string :=
  match t with
  | TInstances => "Instances"
  | THistory => "History"
  | TNewEvents => "NewEvents"
  | TExternalEventDeliveries => "ExternalEventDeliveries"
  | TNewTasks => "NewTasks"
  end.

(** The drops of [DeleteTaskHub], one statement each; [fails] is the error of a drop. *)
Fixpoint dropTables (fails : Table -> option error) (ts : list Table) (sv : Server) : Server * option error :=
  match ts with
  | [] => (sv, None)
  | t :: rest =>
      match fails t with
      | Some err => (sv, Some (errorWrap ("failed to drop " +:+ tableName t +:+ " table") err))
      | None => dropTables fails rest (dropTable t sv)
      end
  end.

Definition pgDeleteTaskHub (fails : Table -> option error) (h : PgHost) : PgHost * option error :=
  if negb (ph_open h) then (h, None)
  else match dropTables fails tableOrder (ph_server h) with
       | (sv, Some err) => (mkPgHost true sv, Some err)
       | (sv, None) => (mkPgHost false sv, None)
       end.

Definition pgStop (h : PgHost) : PgHost * option error := (mkPgHost false (ph_server h), None).

Lemma createTable_spec sv t :
  sv_db (createTable sv t) = sv_db sv /\ t ∈ sv_tables (createTable sv t) /\ sv_tables sv ⊆ sv_tables (createTable sv t).
Proof. unfold createTable. case_bool_decide; cbn; split_and!; set_solver. Qed.

(** Nothing happens when all tables exist. *)
Lemma createAll_same sv ts : (forall t, t ∈ ts -> t ∈ sv_tables sv) -> foldl createTable sv ts = sv.
Proof.
  induction ts as [|t ts IH]; intros Ht; cbn [foldl]; [done |]. unfold createTable at 2.
  rewrite bool_decide_true by (apply Ht; by left). apply IH. intros t' Hin. apply Ht. by right.
Qed.

Lemma createAll_tables ts sv : (forall t, t ∈ ts \/ t ∈ sv_tables sv -> t ∈ sv_tables (foldl createTable sv ts)).
Proof.
  revert sv. induction ts as [|t ts IH]; intros sv t' Ht; cbn [foldl]; [destruct Ht; [set_solver | done] |].
  apply IH. destruct (createTable_spec sv t) as (_ & H1 & H2). set_solver.
Qed.

(** Dropping every table leaves nothing. *)
Lemma dropTables_all sv : dropTables (fun _ => None) tableOrder sv = (mkServer [] (sv_seqs sv) ∅, None).
Proof.
  cbn. unfold dropTable. cbn [sv_tables sv_seqs sv_db]. f_equal. f_equal.
  - induction (sv_tables sv) as [|t l IH]; [done |]. destruct t; cbn; exact IH.
  - apply map_empty. intros k. rewrite !map_lookup_filter. destruct (sv_db sv !! k) as [r|]; [| done]. by destruct k.
Qed.

(** The task hub on the server: creating it keeps what is stored and is idempotent;
    deleting it removes every row and the sequences start again; a drop that fails leaves
    the backend open, with the tables before it gone and the others kept. *)
Theorem pg_hub_lifecycle h :
  let h1 := (pgCreateTaskHub None None h).1 in
  sv_db (ph_server h1) = sv_db (ph_server h) /\ pgCreateTaskHub None None h1 = (h1, None) /\
  pgCreateTaskHub None None (pgStop h1).1 = (h1, None) /\
  (let h2 := (pgDeleteTaskHub (fun _ => None) h1).1 in
   ph_open h2 = false /\ sv_db (ph_server h2) = ∅ /\
   sv_seqs (ph_server (pgCreateTaskHub None None h2).1) = firstSeqs) /\
  forall err, pgDeleteTaskHub (fun t => if bool_decide (t = THistory) then Some err else None) h1 =
    (mkPgHost true (dropTable TInstances (ph_server h1)), Some (errorWrap "failed to drop History table" err)).
Proof.
  cbv zeta. set (sv1 := foldl createTable (ph_server h) tableOrder).
  assert (pgCreateTaskHub None None h = (mkPgHost true sv1, None)) as ->.
  { unfold pgCreateTaskHub, OpenTaskHub. by destruct h as [[] sv]. }
  assert (foldl createTable sv1 tableOrder = sv1) as Hsame.
  { apply createAll_same. intros t Ht. unfold sv1. apply createAll_tables. by left. }
  cbn [fst ph_server ph_open pgStop]. split_and!.
  - unfold sv1. cbn [tableOrder foldl]. by repeat rewrite (proj1 (createTable_spec _ _)).
  - unfold pgCreateTaskHub, OpenTaskHub. cbn [ph_open ph_server]. by rewrite Hsame.
  - unfold pgCreateTaskHub, OpenTaskHub. cbn [ph_open ph_server]. by rewrite Hsame.
  - unfold pgDeleteTaskHub. cbn [ph_open negb ph_server]. by rewrite dropTables_all.
  - unfold pgDeleteTaskHub. cbn [ph_open negb ph_server]. by rewrite dropTables_all.
  - unfold pgDeleteTaskHub. cbn [ph_open negb ph_server]. by rewrite dropTables_all.
  - intros err. unfold pgDeleteTaskHub. by cbn.
Qed.

(** ** A concrete hub *)

(** A driver that reads [file:p] as the path [p]. *)
Definition uriDriver : SqlDriver :=
  {| dsnFile dsn := if String.eqb dsn "file::memory:" then None else Some (String.substring 5 (String.length dsn - 5) dsn) |}.

Lemma sqlite_hub_roundtrip_witness :
  let h := foldl (fun h op => (onTables op h).1)
    (@CreateTaskHub uriDriver None None (NewSqliteBackend ∅ "hub.db")).1 [fun be => (be, tt)] in
  tablesOf (@CreateTaskHub uriDriver None None (Stop None h).1).1 = tablesOf h.
Proof.
  exact (proj1 (proj2 (@sqlite_hub_roundtrip uriDriver unit ∅ "hub.db" [fun be => (be, tt)]
    ltac:(discriminate) eq_refl eq_refl eq_refl))).
Defined.
