(* ===== verification/Polling.v ===== *)
(** * Waiting for work (sqlite.go and postgres.go, NextWorkflowWorkItem, NextActivityWorkItem, WatchWorkflowRuntimeStatus)

    The loops that try a lease, wait and try again.  A [Round] is one turn of such a loop:
    the clock and the token of its lease, what others do to the backend during the wait,
    and whether the wait ends by the timer or by the context.  The lengths of the waits
    are those of a library and are left out. *)

From stdpp Require Import base list option strings gmap sets.
From Stdlib Require Import ZArith Lia.
From S2P Require Import Prelude Errors Protos Dedup RuntimeState Propagation Helpers Backend Sqlite ClientTheorems PgTables Postgres.

Section Poll.
Context {S A : Type}.

Record Round := mkRound {
  rd_now : Z;
  rd_token : string;
  rd_others : S -> S;
  rd_cancelled : bool
}.

Variable lease : Z -> string -> S -> S * outcome error A.

(** [None]: the loop still waits after the given rounds. *)
Fixpoint poll (rounds : list Round) (st : S) : S * option (outcome error A) :=
  match rounds with
  | [] => (st, None)
  | r :: rest =>
      match lease (rd_now r) (rd_token r) st with
      | (st, Ok wi) => (st, Some (Ok wi))
      | (st, Panic msg) => (st, Some (Panic msg))
      | (st, Err err) =>
          if negb (errorsIs err errNoWorkItems) then (st, Some (Err err))
          else if rd_cancelled r then (rd_others r st, Some (Err ContextCanceled))
          else poll rest (rd_others r st)
      end
  end.

(** The state at the start of a round, when every lease before it found no work and every
    wait ended by the timer. *)
Inductive idleUntil : list Round -> S -> S -> Prop :=
| idle_here st : idleUntil [] st st
| idle_round r rest st st1 err st2 :
    lease (rd_now r) (rd_token r) st = (st1, Err err) -> errorsIs err errNoWorkItems = true -> rd_cancelled r = false ->
    idleUntil rest (rd_others r st1) st2 -> idleUntil (r :: rest) st st2.

(** What a loop returns is what the lease of one round returned, in the state of that
    round; the leases before it found nothing. *)
Lemma poll_Ok rounds st st' wi : poll rounds st = (st', Some (Ok wi)) ->
  exists before r after st1, rounds = before ++ r :: after /\ idleUntil before st st1 /\ lease (rd_now r) (rd_token r) st1 = (st', Ok wi).
Proof.
  revert st. induction rounds as [|r rest IH]; intros st; cbn [poll]; [done |].
  destruct (lease (rd_now r) (rd_token r) st) as [st1 [x | err | msg]] eqn:E; [| | done].
  - intros [= <- <-]. exists [], r, rest, st. split_and!; [done | constructor | done].
  - destruct (errorsIs err errNoWorkItems) eqn:Ee; cbn [negb]; [| done]. destruct (rd_cancelled r) eqn:Ec; [done |].
    intros (before & r' & after & st2 & -> & Hi & Hl)%IH. exists (r :: before), r', after, st2. split_and!; [done | by econstructor | done].
Qed.

(** An item that a lease finds is returned, unless an earlier round ended the loop. *)
Lemma poll_finds before r after st st1 st' wi :
  idleUntil before st st1 -> lease (rd_now r) (rd_token r) st1 = (st', Ok wi) -> poll (before ++ r :: after) st = (st', Some (Ok wi)).
Proof.
  intros Hi Hl. induction Hi as [st | r0 rest st st2 err st3 Hr He Hc _ IH]; cbn [app poll]; [by rewrite Hl |].
  rewrite Hr, He, Hc. cbn [negb]. by apply IH.
Qed.
End Poll.
Arguments Round : clear implicits.
Arguments mkRound {S} _ _ _ _.

Section Backends.
Context `{ProtoCodec} `{FailureCodec}.

(** ** SQLite *)

Definition NextWorkflowWorkItem (opts : SqliteOptions) : list (Round Sqlite) -> Sqlite -> Sqlite * option (outcome error WorkflowWorkItem) :=
  poll (getWorkflowWorkItem opts).
Definition NextActivityWorkItem (opts : SqliteOptions) : list (Round Sqlite) -> Sqlite -> Sqlite * option (outcome error ActivityWorkItem) :=
  poll (Sqlite.getActivityWorkItem opts).

(** ** PostgreSQL *)

Variable ord : forall R, list R -> list R.

(** The whole method: the transaction, and [errNoWorkItems] after its commit. *)
Definition pgLeaseWorkflow (opts : PostgresOptions) (now : Z) (token : string) (st : Seqs * PgDB)
    : (Seqs * PgDB) * outcome error WorkflowWorkItem :=
  match runTx ord (GetWorkflowWorkItem opts now token) st with
  | (q, db, Ok (Some wi)) => ((q, db), Ok wi)
  | (q, db, Ok None) => ((q, db), Err errNoWorkItems)
  | (q, db, Err err) => ((q, db), Err err)
  | (q, db, Panic msg) => ((q, db), Panic msg)
  end.

Definition pgLeaseActivity (opts : PostgresOptions) (now : Z) (token : string) (st : Seqs * PgDB)
    : (Seqs * PgDB) * outcome error ActivityWorkItem :=
  match runTx ord (getActivityWorkItem opts now token) st with
  | (q, db, Ok t) => ((q, db), match activityOf token t with inl wi => Ok wi | inr err => Err err end)
  | (q, db, Err err) => ((q, db), Err err)
  | (q, db, Panic msg) => ((q, db), Panic msg)
  end.

Definition pgNextWorkflowWorkItem (opts : PostgresOptions) := poll (pgLeaseWorkflow opts).
Definition pgNextActivityWorkItem (opts : PostgresOptions) := poll (pgLeaseActivity opts).

Definition pgWatchWorkflowRuntimeStatus (router : option TaskRouter) (fn : WorkflowMetadata -> bool)
    (polls : list (WorkflowMetadata + error)) : option WorkflowMetadata * option error :=
  if negb (String.eqb (GetTargetAppID router) "")
  then (None, Some (errorNew "postgres backend does not support cross-app workflow status watch"))
  else watchLoop fn polls None.
End Backends.
