(* ===== verification/PgHub.v ===== *)
(** * The PostgreSQL backend as a task hub

    The methods of Postgres.v, each as one transaction, behind the interfaces the rest of
    the program is verified against: [TaskHub] and [Schedules] of the clients, and
    [PurgeBackend] of the recursive purge (backend/backend.go). *)

From stdpp Require Import base list option strings gmap sets fin_maps relations.
From Stdlib Require Import ZArith Lia.
From S2P Require Import Prelude Errors Protos Dedup RuntimeState Propagation Helpers Backend Sqlite SqlitePurge Requests Clients ClientTheorems.
From S2P Require Import PgTables Postgres PgConcurrent PgDiscipline PgInvariant PgNumbers PgFence PgOwners PgWitness Polling.

(** Sequences and committed tables. *)
Abbreviation PgStore := (Seqs * PgDB)%type.

Section PgHub.
Context `{HC : ProtoCodec} `{HF : FailureCodec} `{HM : MapRange}.
Variable ord : forall R, list R -> list R.

(** ** One transaction after the other *)

Definition call {X} (m : Tx X) : M PgStore error X := fun st =>
  match runTx ord m st with (q, db, r) => ((q, db), r) end.

Definition pgLoad (st : PgStore) (iid : string) : WorkflowRuntimeState + error :=
  match (call (GetWorkflowRuntimeState iid) st).2 with
  | Ok s => inl s
  | Err err => inr err
  | Panic msg => inr (errorNew msg)
  end.

Definition pgPurge (st : PgStore) (id : string) (r : option TaskRouter) (recursive force : bool) : PgStore * Z * option error :=
  match call (PurgeWorkflowState id r recursive force) st with
  | (st, Ok n) => (st, n, None)
  | (st, Err err) => (st, 0, Some err)
  | (st, Panic msg) => (st, 0, Some (errorNew msg))
  end.

#[local] Instance pgPurgeStore : PurgeBackend PgStore := {|
  be_GetWorkflowRuntimeState := pgLoad;
  be_PurgeWorkflowState := pgPurge
|}.

Definition pgMetadata (iid : string) (router : option TaskRouter) (st : PgStore) : WorkflowMetadata + error :=
  match (call (GetWorkflowMetadata iid router) st).2 with
  | Ok md => inl md
  | Err err => inr err
  | Panic msg => inr (errorNew msg)
  end.

(** [serverNow] is CURRENT_TIMESTAMP of the call; a watch reads [polls] times before its
    context ends; the recursive purge has [fuel]. *)
Definition pgHub (serverNow : Z) (polls fuel : nat) : TaskHub PgStore := {|
  hub_CreateWorkflowInstance e _ := call (CreateWorkflowInstance serverNow e);
  hub_AddNewWorkflowEvent iid e := call (AddNewWorkflowEvent iid e);
  hub_ExternalDelivery := Some (fun iid name deliveryID e => call (AddNewWorkflowEventWithExternalDelivery iid name deliveryID e));
  hub_GetWorkflowMetadata iid router := md ← call (GetWorkflowMetadata iid router); mret (Some md);
  hub_WatchWorkflowRuntimeStatus iid router cond st :=
    (st, match pgWatchWorkflowRuntimeStatus router cond (replicate polls (pgMetadata iid None st)) with
         | (md, None) => Ok md
         | (_, Some err) => Err err
         end);
  hub_purge iid router recursive force st :=
    match purgeWorkflowState fuel st iid router recursive force with
    | Some (st, n, None) => (st, Ok n)
    | Some (st, _, Some err) => (st, Err err)
    | None => (st, Panic "stack overflow")
    end
|}.

(** ** Reading changes nothing *)

Definition isRead (s : Stmt) : Prop :=
  match s with
  | SExistsInstance _ | SSelectInstance _ | SListInstances | SSelectHistory _ => True
  | _ => False
  end.

Abbreviation readOnly p := (wp (fun _ : unit => isRead) (fun _ _ _ _ => True) p (fun _ _ => True) tt).

Lemma readOnly_bind {X Y} (m : Tx X) (k : X -> Tx Y) : readOnly m -> (forall x, readOnly (k x)) -> readOnly (m ≫= k).
Proof. intros Hm Hk. apply tx_wp_bind. eapply tx_wp_mono; [| exact Hm]. intros x [] _. apply Hk. Qed.

Lemma readOnly_stmt s : isRead s -> readOnly (stmt s).
Proof. intros Hs. by split. Qed.

Lemma runBody_read {X} (m : Tx X) q db : readOnly m -> (runBody ord m q db).1 = (q, db).
Proof.
  induction m as [x | err | msg | s k IH]; cbn [wp runBody]; [done.. |]. intros [Hs Hk].
  assert (exists a, exec ∅ ord s q db = (q, inl (reads a))) as [a Ha] by (destruct s; try done; by eexists).
  rewrite Ha. cbn [ef_writes ef_answer reads]. rewrite overlay_empty. by apply IH, Hk.
Qed.

Lemma call_read {X} (m : Tx X) st : readOnly m -> (call m st).1 = st.
Proof.
  intros Hm. unfold call, runTx. pose proof (runBody_read m st.1 st.2 Hm) as H. destruct st as [q db]. cbn [fst snd] in *.
  destruct (runBody ord m q db) as [[q' db'] r]. cbn in H. injection H as -> ->. by destruct r.
Qed.

Ltac read_tac := repeat first
  [ done | solve [match goal with |- readOnly (stmt ?s) => apply (readOnly_stmt s); exact I end] | apply readOnly_bind; [| intros] | case_match ].

Lemma readOnly_lift {X} (r : X + error) : readOnly (liftTx r).
Proof. by destruct r. Qed.

Lemma readOnly_metadata iid router : readOnly (GetWorkflowMetadata iid router).
Proof.
  unfold GetWorkflowMetadata, getStartedAt, getStartEvent. read_tac; try apply readOnly_lift.
Qed.

Lemma readOnly_load iid : readOnly (GetWorkflowRuntimeState iid).
Proof. unfold GetWorkflowRuntimeState, GetInstanceHistory. read_tac; try apply readOnly_lift. Qed.

#[local] Instance pgHubOk serverNow polls fuel : TaskHubOk PgStore (H := pgHub serverNow polls fuel).
Proof.
  split; [| done]. intros id router st. cbn. unfold mbind, M_bind.
  pose proof (call_read _ st (readOnly_metadata id router)) as H. by destruct (call _ st) as [st' [md | err | msg]].
Qed.

(** ** Scheduling *)

(** Both sequences a new instance draws from have a number left. *)
Definition hasRoom (q : Seqs) : Prop := sq_Instances q <= serialMax /\ sq_NewEvents q <= serialMax.

Lemma withSeq_one {A} params next setq q (e : Effect A) :
  (maxParams <? params)%nat = false -> next <= serialMax -> withSeq params next 1 setq q e = (setq (next + 1) q, inl e).
Proof.
  intros Hp Hn. unfold withSeq, draw. rewrite Hp.
  destruct (_ <=? _) eqn:E'; [| apply Z.leb_gt in E'; lia]. f_equal. f_equal. lia.
Qed.

(** The row and the event of a new instance. *)
Definition pgPendingRow (serverNow : Z) (e : HistoryEvent) (es : ExecutionStartedEvent) (wi : WorkflowInstance) : InstanceRow :=
  mkInstanceRow (wi_InstanceId wi) (GetValue (wi_ExecutionId wi)) (es_Name es) (Some (GetValue (es_Version es))) "PENDING"
    (AsTime (Timestamp e)) serverNow None None None (Some (GetValue (es_Input es))) None None None.

Definition created (serverNow : Z) (q : Seqs) (e : HistoryEvent) (es : ExecutionStartedEvent) (wi : WorkflowInstance) (payload : string)
    (db : PgDB) : PgDB :=
  overlay (eventRows (sq_NewEvents q) [(wi_InstanceId wi, payload, scheduledStart e, None)])
    (overlay {[KInstance (wi_InstanceId wi) := Some (RInstance (sq_Instances q) (storedInstance (pgPendingRow serverNow e es wi)))]} db).

Lemma create_runs serverNow e es wi payload q db :
  GetExecutionStarted e = Some es -> es_WorkflowInstance es = Some wi -> Timestamp e <> None -> hasRoom q ->
  db !! KInstance (wi_InstanceId wi) = None -> MarshalHistoryEvent e = inl payload ->
  exists q', call (CreateWorkflowInstance serverNow (Some e)) (q, db) = ((q', created serverNow q e es wi payload db), Ok tt).
Proof.
  intros He Hwi Ht [H1 H2] Hf Hm. eexists. unfold call, runTx, CreateWorkflowInstance, createWorkflowInstanceInternal.
  destruct (Timestamp e) as [t|] eqn:Et; [| done]. rewrite He, Hwi. unfold insertOrIgnoreInstanceTableInternal.
  cbn [derefTx mbind Tx_bind stmt mret Tx_ret runBody exec fst snd]. rewrite withSeq_one by (done || vm_compute; reflexivity). cbn [ir_InstanceID]. rewrite Hf.
  cbn [ef_writes ef_answer Nat.eqb negb]. rewrite Hm. cbn [derefTx liftTx mbind Tx_bind stmt mret Tx_ret runBody exec fst snd length].
  rewrite withSeq_one by (done || vm_compute; reflexivity). cbn [ef_writes ef_answer runBody]. unfold created, pgPendingRow. by rewrite Et.
Qed.

(** A taken id costs a number of the sequence, and nothing else. *)
Lemma create_refused serverNow e es wi q db r :
  GetExecutionStarted e = Some es -> es_WorkflowInstance es = Some wi -> Timestamp e <> None -> sq_Instances q <= serialMax ->
  db !! KInstance (wi_InstanceId wi) = Some r ->
  call (CreateWorkflowInstance serverNow (Some e)) (q, db) = ((set_sqInstances (sq_Instances q + 1) q, db), Err ErrDuplicateInstance).
Proof.
  intros He Hwi Ht H1 Hf. unfold call, runTx, CreateWorkflowInstance, createWorkflowInstanceInternal.
  destruct (Timestamp e) as [t|] eqn:Et; [| done]. rewrite He, Hwi. unfold insertOrIgnoreInstanceTableInternal.
  cbn [derefTx mbind Tx_bind stmt mret Tx_ret runBody exec fst snd]. rewrite withSeq_one by (done || vm_compute; reflexivity). cbn [ir_InstanceID]. rewrite Hf.
  by cbn.
Qed.

(** An instance without a history is read back from its row. *)
Lemma pending_read id n r st :
  st.2 !! KInstance id = Some (RInstance n r) -> PgTables.historyPayloads st.2 id = [] -> ir_FailureDetails r = None ->
  call (GetWorkflowMetadata id None) st = (st, Ok (mkWorkflowMetadata id (ir_Name r) (FromRuntimeStatusString (ir_RuntimeStatus r))
    (ir_CreatedTime r) (ir_LastUpdatedTime r) (Some (GetValue (ir_Input r))) (Some (GetValue (ir_Output r)))
    (Some (GetValue (ir_CustomStatus r))) None (ir_Version r) "" None None None)).
Proof.
  destruct st as [q db]. cbn [snd]. intros Hr Hh Hf. unfold call, runTx, GetWorkflowMetadata, getStartedAt, getStartEvent.
  change (negb (String.eqb (GetTargetAppID None) "")) with false.
  cbn [mbind Tx_bind stmt mret Tx_ret runBody exec fst snd reads ef_writes ef_answer].
  rewrite overlay_empty. unfold instanceAt. rewrite Hr. cbn. rewrite Hf. cbn. rewrite !overlay_empty, Hh. cbn.
  rewrite ?overlay_empty, ?Hh. done.
Qed.

Lemma no_payloads db id : (forall n, db !! KHistory id n = None) -> PgTables.historyPayloads db id = [].
Proof.
  intros Hn. unfold PgTables.historyPayloads. destruct (historyIn db id) as [|[n p] l] eqn:E; [done |].
  assert ((n, p) ∈ historyIn db id) as Hin by (rewrite E; by left). apply elem_of_historyIn in Hin. by rewrite Hn in Hin.
Qed.

Lemma created_history serverNow q e es wi payload db id n : created serverNow q e es wi payload db !! KHistory id n = db !! KHistory id n.
Proof. unfold created. rewrite !overlay_lookup. cbn. by rewrite lookup_insert_ne, lookup_empty, lookup_singleton_ne. Qed.

Lemma created_row serverNow q e es wi payload db :
  created serverNow q e es wi payload db !! KInstance (wi_InstanceId wi) =
  Some (RInstance (sq_Instances q) (storedInstance (pgPendingRow serverNow e es wi))).
Proof. unfold created. rewrite !overlay_lookup. cbn. by rewrite lookup_insert_ne, lookup_empty, lookup_singleton_eq. Qed.

(** An id is taken by a row of Instances.  A refused call leaves the tables as they are;
    the sequence has lost a number. *)
#[local] Instance pgSchedules serverNow polls fuel : Schedules PgStore (HS := pgHub serverNow polls fuel).
Proof.
  refine {|
    hub_wf st := owned st.2;
    hub_room st := hasRoom st.1;
    hub_taken st id := is_Some (st.2 !! KInstance id);
    hub_same st st' := st'.2 = st.2;
    hub_pending e es wi := mkWorkflowMetadata (wi_InstanceId wi) (es_Name es) PENDING (pgTime (AsTime (Timestamp e))) (pgTime serverNow)
       (Some (GetValue (es_Input es))) (Some "") (Some "") None (Some (GetValue (es_Version es))) "" None None None |}; [done | done | done | |].
  - intros e es wi payload reuse [q db] He Hwi Ht Hm Hw Hr Hfree. cbn in Hw, Hr, Hfree.
    assert (db !! KInstance (wi_InstanceId wi) = None) as Hf by (by apply eq_None_not_Some).
    destruct (create_runs serverNow e es wi payload q db He Hwi Ht Hr Hf Hm) as [q' Hc].
    eexists. split_and!; [exact Hc | eexists; apply created_row |]. cbn [hub_GetWorkflowMetadata pgHub]. unfold mbind, M_bind.
    erewrite pending_read; [| apply created_row | | done]; [reflexivity |]. apply no_payloads. intros n. cbn [snd]. rewrite created_history.
    destruct (db !! KHistory (wi_InstanceId wi) n) as [p|] eqn:E; [| done]. by destruct Hfree; apply (Hw _ _ _ E).
  - intros e es wi reuse [q db] He Hwi Ht [Hr _] [r Hf]. eexists. split; [by eapply create_refused | done].
Defined.

End PgHub.

(** ** A hub with one instance *)

Definition startOfId (id : string) : option HistoryEvent :=
  startEventOf 7500 "x1" (mkCreateInstanceRequest id "wf" None (Some "in") None None false None) None.

#[local] Instance hubCodec : ProtoCodec := catalogCodec (option_list (startOfId "wf1") ++ option_list (startOfId "wf2")).
#[local] Instance hubFailures : FailureCodec := {|
  MarshalFailure _ := inr (errorNew "unsupported");
  UnmarshalFailure _ := inr (errorNew "unsupported")
|}.
#[local] Instance hubRange : MapRange := {| mapRange := map_to_list; mapRange_perm := fun _ => reflexivity _ |}.

Definition oneInstance : Pg :=
  (sched NewPostgresOptions ([LBegin 0 (MCreateWorkflowInstance 6 (startOfId "wf1"))] ++ stmts 0 2 ++ [LCommit 0]) pg_start).1.

