(* ===== verification/PgPurge.v ===== *)
(** * The PostgreSQL backend behind the recursive purge

    What one purge does to the tables, and that the PostgreSQL backend keeps the promises
    ([PurgeBackendOk]) the recursive purge driver of backend/backend.go relies on. *)

From stdpp Require Import base list option strings gmap sets fin_maps relations.
From Stdlib Require Import ZArith Lia.
From S2P Require Import Prelude Errors Protos Dedup RuntimeState Propagation Helpers Backend Sqlite SqliteCorrect SqlitePurge.
From S2P Require Import PgTables Postgres PgConcurrent PgDiscipline PgInvariant PgNumbers PgFence PgTheorems PgOwners PgHub.

(** ** One purge *)

(** The rows of an instance, in all five tables. *)
Definition rowOf (id : string) (k : Key) (r : Row) : bool :=
  isKey (KInstance id) k r || isHistoryOf id k r || isEventOf id k r || isDeliveryOf id k r || isTaskOf id k r.

Definition pgWithout (id : string) (db : PgDB) : PgDB := filter (fun kr => rowOf id kr.1 kr.2 = false) db.

Lemma pgWithout_lookup id db k :
  pgWithout id db !! k = match db !! k with Some r => if rowOf id k r then None else Some r | None => None end.
Proof.
  unfold pgWithout. rewrite map_lookup_filter. destruct (db !! k) as [r|]; cbn; [| done].
  destruct (rowOf id k r); by rewrite ?option_guard_True, ?option_guard_False by done.
Qed.

Lemma overlay_deleting {A} p db (a : nat -> A) k :
  overlay (ef_writes (deleting p db a)) db !! k = match db !! k with Some r => if p k r then None else Some r | None => None end.
Proof. rewrite overlay_lookup, deleting_lookup. destruct (db !! k) as [r|]; [| done]. by destruct (p k r). Qed.

(** What is read of an instance. *)
Definition finished (r : Row) : bool := match r with RInstance _ row => isFinalStatus (ir_RuntimeStatus row) | _ => false end.

Section Purge.
Context `{HC : ProtoCodec} `{HF : FailureCodec}.
Variable ord : forall R, list R -> list R.

Abbreviation deletesRow id db := (deleting (fun k r => isKey (KInstance id) k r && (negb true || finished r)) db (fun n => n)).

Lemma delete_row_count id (db : PgDB) : ef_answer (deletesRow id db) = match db !! KInstance id with Some r => if finished r then 1%nat else 0%nat | None => 0%nat end.
Proof.
  cbn. match goal with |- size ?m = _ => assert (m = match db !! KInstance id with Some r => if finished r then {[KInstance id := None]} else ∅ | None => ∅ end) as -> end.
  { apply map_eq. intros k. rewrite map_lookup_imap. unfold isKey. destruct (decide (k = KInstance id)) as [-> | Hne].
    - destruct (db !! KInstance id) as [r|]; cbn; [| by rewrite lookup_empty]. rewrite bool_decide_true by done. cbn.
      destruct (finished r); [by rewrite lookup_singleton_eq | by rewrite lookup_empty].
    - destruct (db !! k) as [r|]; cbn; [rewrite bool_decide_false by done; cbn |];
        repeat case_match; by rewrite ?lookup_singleton_ne, ?lookup_empty by done. }
  repeat case_match; by rewrite ?map_size_singleton, ?map_size_empty.
Qed.

Lemma delete_nothing id db : ef_answer (deletesRow id db) = 0%nat -> overlay (ef_writes (deletesRow id db)) db = db.
Proof. cbn. intros H%map_size_empty_inv. by rewrite H, overlay_empty. Qed.

(** The five deletions of a cleanup, one after the other. *)
Definition deletions (id : string) (db : PgDB) : PgDB :=
  let step p db := overlay (ef_writes (deleting p db (fun _ => tt))) db in
  step (isTaskOf id) (step (isDeliveryOf id) (step (isEventOf id) (step (isHistoryOf id) (overlay (ef_writes (deletesRow id db)) db)))).

Lemma deletions_without id db r : db !! KInstance id = Some r -> finished r = true -> deletions id db = pgWithout id db.
Proof.
  intros Hr Hf. apply map_eq. intros k. unfold deletions. cbn zeta. rewrite !overlay_deleting, pgWithout_lookup.
  destruct (decide (k = KInstance id)) as [-> | Hne].
  - rewrite Hr. unfold rowOf, isKey. rewrite !bool_decide_true by done. cbn. by rewrite Hf.
  - unfold rowOf, isKey. rewrite !bool_decide_false by done. cbn.
    destruct (db !! k) as [row|]; [| done]. by destruct (isHistoryOf id k row), (isEventOf id k row), (isDeliveryOf id k row), (isTaskOf id k row).
Qed.

Lemma purge_runs id router recursive force q db :
  GetTargetAppID router = "" ->
  call ord (PurgeWorkflowState id router recursive force) (q, db) =
    match db !! KInstance id with
    | None => ((q, db), Err ErrInstanceNotFound)
    | Some r => if finished r then ((q, pgWithout id db), Ok 1) else ((q, db), Err ErrNotCompleted)
    end.
Proof.
  intros Hr. unfold call, runTx, PurgeWorkflowState, cleanupWorkflowStateInternal. rewrite Hr. cbn [String.eqb negb].
  cbn [mbind Tx_bind stmt runBody exec fst snd reads ef_writes ef_answer]. rewrite overlay_empty.
  destruct (db !! KInstance id) as [r|] eqn:E; [| by rewrite bool_decide_false by (by intros [? ?])].
  rewrite bool_decide_true by done. cbn [negb mbind Tx_bind stmt runBody exec].
  pose proof (delete_row_count id db) as Hn. rewrite E in Hn.
  match goal with |- context [(?a =? 0)%nat] => assert (a = (if finished r then 1 else 0)%nat) as -> by exact Hn end. destruct (finished r) eqn:F.
  - cbn [Nat.eqb andb mbind Tx_bind stmt runBody exec]. by rewrite <- (deletions_without id db r).
  - done.
Qed.

(** ** What the purge relies on *)

Record pgWf (db : PgDB) : Prop := {
  pw_keyed : map_Forall keyed db;
  pw_owned : owned db;
  pw_final : forall id r, db !! KInstance id = Some r -> finished r = true -> exists n p, db !! KHistory id n = Some p
}.

Lemma without_keeps id db k r : pgWithout id db !! k = Some r <-> db !! k = Some r /\ rowOf id k r = false.
Proof.
  rewrite pgWithout_lookup. destruct (db !! k) as [r'|]; [| by split; [| intros []]].
  destruct (rowOf id k r') eqn:E; (split; [intros H | intros [H ?]]); simplify_eq; auto; congruence.
Qed.

Lemma belongs_rowOf id k r id' : belongs k r id' -> rowOf id k r = false -> id' <> id.
Proof. intros Hb Hr ->. destruct k, r; cbn in Hb; try done; subst; unfold rowOf in Hr; cbn in Hr; by rewrite String.eqb_refl in Hr. Qed.

Lemma other_instance id id' r : id' <> id -> rowOf id (KInstance id') r = false.
Proof. intros Hne. unfold rowOf, isKey. cbn. rewrite bool_decide_false by congruence. done. Qed.

Lemma other_history id id' n r : id' <> id -> rowOf id (KHistory id' n) r = false.
Proof. intros Hne. unfold rowOf, isKey. cbn. apply String.eqb_neq in Hne. by rewrite Hne. Qed.

Lemma own_history id n r : rowOf id (KHistory id n) r = true.
Proof. unfold rowOf. cbn. by rewrite String.eqb_refl. Qed.

Lemma without_wf id db : pgWf db -> pgWf (pgWithout id db).
Proof.
  intros [Hk Ho Hf]. split.
  - intros k r [Hr _]%without_keeps. by apply Hk.
  - intros k r id' [Hr Hn]%without_keeps Hb. destruct (Ho k r id' Hr Hb) as [row Hrow]. exists row.
    apply without_keeps. split; [done |]. by eapply other_instance, belongs_rowOf.
  - intros id' r [Hr Hn]%without_keeps Hfin. assert (id' <> id) as Hne.
    { intros ->. unfold rowOf, isKey in Hn. cbn in Hn. by rewrite bool_decide_true in Hn. }
    destruct (Hf id' r Hr Hfin) as (n & p & Hp). exists n, p. apply without_keeps. split; [done | by apply other_history].
Qed.

(** The instances that have a history. *)
Definition recorded (db : PgDB) : gset string :=
  list_to_set (omap (fun kr : Key * Row => match kr.1 with KHistory id _ => Some id | _ => None end) (map_to_list db)).

Lemma elem_of_recorded db id : id ∈ recorded db <-> exists n p, db !! KHistory id n = Some p.
Proof.
  unfold recorded. rewrite elem_of_list_to_set, list_elem_of_omap. split.
  - intros ([k r] & Hin%elem_of_map_to_list & Hk). destruct k as [|id' n| | |]; try done. injection Hk as ->. eauto.
  - intros (n & p & Hp). exists (KHistory id n, p). by rewrite elem_of_map_to_list.
Qed.

Lemma recorded_without id db : recorded (pgWithout id db) = recorded db ∖ {[id]}.
Proof.
  apply leibniz_equiv. intros x. rewrite elem_of_difference, elem_of_singleton, !elem_of_recorded. setoid_rewrite without_keeps. split.
  - intros (n & p & Hp & Hr). split; [eauto |]. intros ->. by rewrite own_history in Hr.
  - intros [(n & p & Hp) Hne]. exists n, p. split; [done | by apply other_history].
Qed.

Lemma payloads_ext db db' id : storedHistory db id = storedHistory db' id -> PgTables.historyPayloads db id = PgTables.historyPayloads db' id.
Proof.
  intros H. apply list_to_map_inj in H; [| apply NoDup_historyIn..]. unfold PgTables.historyPayloads.
  by rewrite (orderBy_perm_eq fst _ _ H (NoDup_historyIn db id)).
Qed.

Lemma load_runs st id :
  pgLoad ord st id = match tryMap UnmarshalHistoryEvent (PgTables.historyPayloads st.2 id) with
                     | inl events => inl (NewWorkflowRuntimeState id None events)
                     | inr err => inr err
                     end.
Proof.
  unfold pgLoad, call, runTx, GetWorkflowRuntimeState, GetInstanceHistory. cbn.
  destruct (tryMap UnmarshalHistoryEvent _) as [evs|err] eqn:E; cbn; by rewrite ?E.
Qed.

Lemma load_other id id' q db : id' <> id -> pgLoad ord (q, pgWithout id db) id' = pgLoad ord (q, db) id'.
Proof.
  intros Hne. rewrite !load_runs. cbn [snd]. rewrite (payloads_ext (pgWithout id db) db); [done |]. apply storedHistory_ext.
  intros n. rewrite pgWithout_lookup. destruct (db !! KHistory id' n) as [r|]; [| done]. by rewrite other_history.
Qed.

Lemma load_purged id q db : pgLoad ord (q, pgWithout id db) id = inl (emptyRuntimeState id None).
Proof.
  rewrite load_runs. cbn [snd]. rewrite no_payloads; [done |]. intros n. rewrite pgWithout_lookup.
  destruct (db !! KHistory id n) as [r|]; [| done]. by rewrite own_history.
Qed.

Lemma load_empty st id state :
  pgWf st.2 -> pgLoad ord st id = inl state -> OldEvents state = [] -> id ∉ recorded st.2.
Proof.
  intros Hw Hl Ho (n & p & Hp)%elem_of_recorded. rewrite load_runs in Hl. pose proof (pw_keyed _ Hw _ _ Hp) as Hk. destruct p as [|p| | |]; try done.
  apply elem_of_historyIn in Hp. assert (p ∈ PgTables.historyPayloads st.2 id) as Hin.
  { unfold PgTables.historyPayloads. apply (list_elem_of_fmap_2 snd _ (n, p)). by rewrite orderBy_perm. }
  destruct (PgTables.historyPayloads st.2 id) as [|b l]; [by apply elem_of_nil in Hin |]. cbn in Hl.
  destruct (UnmarshalHistoryEvent b) as [e|]; [| done]. destruct (tryMap UnmarshalHistoryEvent l) as [es|]; [| done]. simplify_eq. by apply loaded_nonempty in Ho.
Qed.

(** ** The promises of the purge interface *)

Definition PgGoodStore : Type := { st : PgStore | pgWf st.2 }.

(** A purge by cases; a router to another app is refused. *)
Lemma pgPurge_local st id r recursive force :
  isRemoteRouter r = false ->
  pgPurge ord st id r recursive force =
    match st.2 !! KInstance id with
    | None => (st, 0, Some ErrInstanceNotFound)
    | Some row => if finished row then ((st.1, pgWithout id st.2), 1, None) else (st, 0, Some ErrNotCompleted)
    end.
Proof.
  unfold isRemoteRouter. intros Hr%negb_false_iff%String.eqb_eq. destruct st as [q db]. unfold pgPurge.
  rewrite purge_runs by done. cbn [fst snd]. destruct (db !! KInstance id) as [row|]; [| done]. by destruct (finished row).
Qed.

Lemma pgPurge_remote st id r recursive force :
  isRemoteRouter r = true -> exists err, pgPurge ord st id r recursive force = (st, 0, Some err).
Proof.
  unfold isRemoteRouter. intros Hr. destruct st as [q db]. unfold pgPurge, call, runTx, PurgeWorkflowState. rewrite Hr. by eexists.
Qed.

Lemma pgPurge_wf st id r recursive force : pgWf st.2 -> pgWf (pgPurge ord st id r recursive force).1.1.2.
Proof.
  intros Hw. destruct (isRemoteRouter r) eqn:Hr; [by destruct (pgPurge_remote st id r recursive force Hr) as [err ->] |].
  rewrite pgPurge_local by done. destruct (st.2 !! KInstance id) as [row|]; [| done]. destruct (finished row); [by apply without_wf | done].
Qed.

(** The backend's purge on well-formed tables. *)
#[local] Instance pgStorePurge : PurgeBackend PgGoodStore := {|
  be_GetWorkflowRuntimeState st id := pgLoad ord (proj1_sig st) id;
  be_PurgeWorkflowState st id r recursive force :=
    let res := pgPurge ord (proj1_sig st) id r recursive force in
    match res.2 with
    | Some err => (st, res.1.2, Some err)
    | None => (exist _ res.1.1 (pgPurge_wf _ _ _ _ _ (proj2_sig st)), res.1.2, None)
    end
|}.

Lemma storePurge_cases st id r recursive force st' n res :
  isRemoteRouter r = false -> be_PurgeWorkflowState st id r recursive force = (st', n, res) ->
  (exists row, (proj1_sig st).2 !! KInstance id = Some row /\ finished row = true /\
     proj1_sig st' = ((proj1_sig st).1, pgWithout id (proj1_sig st).2) /\ n = 1 /\ res = None) \/
  st' = st /\ (res = Some ErrNotCompleted \/ res = Some ErrInstanceNotFound /\ (proj1_sig st).2 !! KInstance id = None).
Proof.
  intros Hr. cbn [be_PurgeWorkflowState pgStorePurge]. generalize (pgPurge_wf (proj1_sig st) id r recursive force (proj2_sig st)).
  rewrite (pgPurge_local _ id r recursive force Hr). destruct ((proj1_sig st).2 !! KInstance id) as [row|]; [destruct (finished row) eqn:F |];
    cbn; intros Hw [= <- <- <-]; [left; by exists row | right; auto | right; auto].
Qed.

(** A payload that does not decode is not reported as a missing instance. *)
Hypothesis decode_error : forall b err, Unmarshal b = inr err -> errorsIs err ErrInstanceNotFound = false.

#[local] Instance pgStorePurgeOk : PurgeBackendOk PgGoodStore.
Proof.
  refine {| instances st := recorded (proj1_sig st).2 |}.
  - intros st id r rec force st' n Hr H.
    destruct (storePurge_cases _ _ _ _ _ _ _ _ Hr H) as [(row & Hrow & Hfin & Hst & -> & _) | [-> [He | [He _]]]]; [| done..].
    split_and!; [done | | | |].
    + apply elem_of_recorded. by eapply (pw_final _ (proj2_sig st)).
    + rewrite Hst. apply recorded_without.
    + intros state. cbn. rewrite Hst, load_purged. by intros [= <-].
    + intros id' Hne. cbn. rewrite Hst, load_other by done. by destruct (proj1_sig st).
  - intros st id r rec force st' n err Hr H.
    destruct (storePurge_cases _ _ _ _ _ _ _ _ Hr H) as [(row & _ & _ & _ & _ & He) | [-> [He | [He Hf]]]];
      simplify_eq; (split; [done |]); [done |]. intros _ (m & p & Hp)%elem_of_recorded.
    destruct (pw_owned _ (proj2_sig st) _ _ id Hp eq_refl) as [row Hrow]. by rewrite Hf in Hrow.
  - intros st id r rec force st' n res Hr. cbn. destruct (pgPurge_remote (proj1_sig st) id r rec force Hr) as [err He].
    generalize (pgPurge_wf (proj1_sig st) id r rec force (proj2_sig st)). rewrite He. cbn. by intros _ [= <- _ _].
  - intros st id state Hl _ Ho. by eapply load_empty; [apply (proj2_sig st) | ..].
  - intros st id err Hl He. cbn in Hl. rewrite load_runs in Hl. destruct (tryMap UnmarshalHistoryEvent _) as [evs|e] eqn:E; [done |].
    injection Hl as <-. by rewrite (decoded_err decode_error _ _ E) in He.
Defined.

(** The recursive purge on PostgreSQL, in any state whose finished instances have a
    history: if it succeeds, no history row is left of the instance or of any of its local
    descendants, by the child creations that were recorded, in whatever order the children
    are visited; and the tables are well-formed afterwards. *)
Theorem pg_recursive_purge `{MapRange} fuel (st : PgGoodStore) iid force st' n :
  iid ∈ recorded (proj1_sig st).2 ->
  purgeWorkflowState fuel st iid None true force = Some (st', n, None) ->
  pgWf (proj1_sig st').2 /\
  forall d m, descendant st iid d -> (proj1_sig st').2 !! KHistory d m = None /\ (proj1_sig st').2 !! KHistory iid m = None.
Proof.
  intros Hin (Hp & Hi & _)%purgeWorkflowState_ok. split; [apply (proj2_sig st') |]. intros d m Hd.
  assert (forall x, x ∉ recorded (proj1_sig st').2 -> (proj1_sig st').2 !! KHistory x m = None) as Hgone.
  { intros x Hx. apply eq_None_not_Some. intros [p Hp']. apply Hx, elem_of_recorded. eauto. }
  split; apply Hgone; [| by apply Hi].
  change (d ∉ instances st'). eapply purged_descendants; [exact Hp | exact Hd | exact Hin | by apply Hi].
Qed.
End Purge.
