(* ===== verification/Listing.v ===== *)
(** * Listing instances and reading histories over gRPC

    The read requests of the service that go to the backend as they are
    (backend/executor.go), the calls of the gRPC client that make them
    (client/client_grpc.go), and their options (api/orchestration.go).  What a backend
    answers is the class [Lists], with the laws [ListsOk]; both backends are instances. *)

From stdpp Require Import base list option strings gmap fin_maps.
From Stdlib Require Import ZArith Lia.
From S2P Require Import Prelude Errors Protos RuntimeState Propagation Helpers Backend Sqlite SqliteCorrect SqliteCommit Requests Clients ClientTheorems.
From S2P Require Import PgTables Postgres PgConcurrent PgDiscipline PgInvariant PgHub.

(** ** Messages and options *)

Record ListInstanceIDsRequest := mkListInstanceIDsRequest {
  lq_ContinuationToken : option string;
  lq_PageSize : option Z
}.

Record ListInstanceIDsResponse := mkListInstanceIDsResponse {
  lr_InstanceIds : list string;
  lr_ContinuationToken : option string
}.

Record GetInstanceHistoryRequest := mkGetInstanceHistoryRequest { gh_InstanceId : string }.
Record GetInstanceHistoryResponse := mkGetInstanceHistoryResponse { gh_Events : list HistoryEvent }.

Definition WithListInstanceIDsPageSize (pageSize : Z) : Option ListInstanceIDsRequest := fun r =>
  inl (mkListInstanceIDsRequest (lq_ContinuationToken r) (Some pageSize)).
Definition WithListInstanceIDsContinuationToken (token : string) : Option ListInstanceIDsRequest := fun r =>
  inl (mkListInstanceIDsRequest (Some token) (lq_PageSize r)).

(** ** Backend, service and client *)

Class Lists (S : Type) := {
  hub_ListInstanceIDs : ListInstanceIDsRequest -> M S error ListInstanceIDsResponse;
  hub_GetInstanceHistory : GetInstanceHistoryRequest -> M S error GetInstanceHistoryResponse
}.

(** One answer has the ids of all instances, each once, and says that it is the last; the
    history of an instance is its log; neither changes anything. *)
Class ListsOk (S : Type) `{Lists S} := {
  hub_good : S -> Prop;
  hub_exists : S -> string -> Prop;
  hub_log : S -> string -> list HistoryEvent + error;
  list_answer : forall req st, hub_good st ->
    exists ids, hub_ListInstanceIDs req st = (st, Ok (mkListInstanceIDsResponse ids None)) /\
      NoDup ids /\ forall id, id ∈ ids <-> hub_exists st id;
  history_answer : forall req st, hub_good st ->
    hub_GetInstanceHistory req st =
      (st, match hub_log st (gh_InstanceId req) with
           | inl events => Ok (mkGetInstanceHistoryResponse events)
           | inr err => Err err
           end)
}.

Section Listing.
Context {S : Type} `{HL : Lists S}.

(** The methods of the service. *)
Definition serveListInstanceIDs (req : ListInstanceIDsRequest) : M S error ListInstanceIDsResponse :=
  hub_ListInstanceIDs req.
Definition serveGetInstanceHistory (req : GetInstanceHistoryRequest) : M S error GetInstanceHistoryResponse :=
  hub_GetInstanceHistory req.

Variable ctxErr : option error.
Variable rpcError : error -> error.

(** The client ignores the errors of its options. *)
Definition grpcListInstanceIDs (opts : list (Option ListInstanceIDsRequest)) : M S error ListInstanceIDsResponse :=
  rpc ctxErr rpcError "failed to list instance IDs"
    (serveListInstanceIDs (configureAll opts (mkListInstanceIDsRequest None (Some 1024)))).

Definition grpcGetInstanceHistory (id : string) (opts : list (Option GetInstanceHistoryRequest))
    : M S error GetInstanceHistoryResponse :=
  rpc ctxErr rpcError "failed to get instance history"
    (serveGetInstanceHistory (configureAll opts (mkGetInstanceHistoryRequest id))).

Context `{HLok : !ListsOk S}.

(** Whatever page is asked for, the answer is the whole list. *)
Lemma grpc_list_complete opts st :
  hub_good st -> exists ids, grpcListInstanceIDs opts st = (st, Ok (mkListInstanceIDsResponse ids None)) /\
    NoDup ids /\ forall id, id ∈ ids <-> hub_exists st id.
Proof.
  intros Hg. destruct (list_answer (configureAll opts (mkListInstanceIDsRequest None (Some 1024))) st Hg) as (ids & H & Hi).
  exists ids. split; [| done]. unfold grpcListInstanceIDs, rpc, serveListInstanceIDs. by rewrite H.
Qed.

Lemma grpc_history id st events :
  hub_good st -> hub_log st id = inl events ->
  grpcGetInstanceHistory id [] st = (st, Ok (mkGetInstanceHistoryResponse events)).
Proof.
  intros Hg Hl. unfold grpcGetInstanceHistory, rpc, serveGetInstanceHistory. rewrite history_answer by done. cbn. by rewrite Hl.
Qed.
End Listing.

(** ** The backends *)

(** A read that may fail, as a call. *)
Definition reading {S X Y} (f : X -> Y) (r : X + error) : M S error Y := fun st =>
  (st, match r with inl x => Ok (f x) | inr err => Err err end).

Section Sqlite.
Context `{HC : ProtoCodec}.

#[export] Instance sqliteLists : Lists Sqlite := {|
  hub_ListInstanceIDs _ be := reading (fun ids => mkListInstanceIDsResponse ids None) (Sqlite.ListInstanceIDs be) be;
  hub_GetInstanceHistory req be := reading mkGetInstanceHistoryResponse (Sqlite.GetInstanceHistory (gh_InstanceId req) be) be
|}.

#[export] Instance sqliteListsOk : ListsOk Sqlite.
Proof.
  refine {| hub_good be := exists db, be = Some db /\ db_wf db;
            hub_exists be id := exists db r, be = Some db /\ r ∈ Instances db /\ ir_InstanceID r = id;
            hub_log be id := Sqlite.GetInstanceHistory id be |}; [| by intros].
  intros req be (db & -> & Hw). exists (map ir_InstanceID (Instances db)). split_and!; [done | apply Hw |].
  intros id. rewrite list_elem_of_fmap. split.
  - intros (r & -> & Hr). by exists db, r.
  - intros (db' & r & [= <-] & Hr & <-). by exists r.
Defined.
End Sqlite.

Section Pg.
Context `{HC : ProtoCodec}.
Variable ord : forall R, list R -> list R.

Definition pgLists : Lists PgStore := {|
  hub_ListInstanceIDs _ := ids ← call ord Postgres.ListInstanceIDs; mret (mkListInstanceIDsResponse ids None);
  hub_GetInstanceHistory req :=
    events ← call ord (Postgres.GetInstanceHistory (gh_InstanceId req)); mret (mkGetInstanceHistoryResponse events)
|}.

(** An id is listed once: it is the primary key. *)
Lemma instancesIn_NoDup db : NoDup (map fst (instancesIn db)).
Proof.
  unfold instancesIn. pose proof (NoDup_fst_map_to_list db) as Hnd. induction (map_to_list db) as [|[k r] l IH]; [constructor |].
  apply NoDup_cons in Hnd as [Hn Hnd]. specialize (IH Hnd). cbn. destruct k as [id| | | |], r as [n row| | | |]; cbn; try done.
  apply NoDup_cons. split; [| done]. intros ([id' [n' r']] & -> & ([k' x] & Hin & Hf)%list_elem_of_omap)%list_elem_of_fmap.
  destruct k', x; simplify_eq. apply Hn. apply (list_elem_of_fmap_2 fst) in Hin. by match goal with H : _ ∈ _ |- _ => exact H end.
Qed.

Lemma listed_runs st :
  call ord Postgres.ListInstanceIDs st = (st, Ok (map fst (orderBy (fun x => x.2.1) (instancesIn st.2)))).
Proof. destruct st as [q db]. unfold call, runTx. cbn. by rewrite overlay_empty. Qed.

Definition pgLog (st : PgStore) (id : string) : list HistoryEvent + error :=
  tryMap UnmarshalHistoryEvent (PgTables.historyPayloads st.2 id).

Lemma history_runs st id :
  call ord (Postgres.GetInstanceHistory id) st = (st, match pgLog st id with inl events => Ok events | inr err => Err err end).
Proof.
  destruct st as [q db]. unfold call, runTx, Postgres.GetInstanceHistory, pgLog. cbn.
  destruct (tryMap UnmarshalHistoryEvent _) as [evs|err] ; cbn; by rewrite ?overlay_empty.
Qed.

Definition pgListsOk : ListsOk PgStore (H := pgLists).
Proof.
  refine {| hub_good _ := True;
            hub_exists st id := exists n r, st.2 !! KInstance id = Some (RInstance n r);
            hub_log := pgLog |}.
  - intros req st _. cbn [hub_ListInstanceIDs pgLists]. unfold mbind, M_bind. rewrite listed_runs. eexists. split_and!; [reflexivity | |].
    + rewrite orderBy_perm. apply instancesIn_NoDup.
    + intros id. rewrite orderBy_perm, list_elem_of_fmap. split.
      * intros ([id' [n r]] & -> & Hin%elem_of_instancesIn). eauto.
      * intros (n & r & Hr%elem_of_instancesIn). by exists (id, (n, r)).
  - intros req st _. cbn [hub_GetInstanceHistory pgLists]. unfold mbind, M_bind. rewrite history_runs. by destruct (pgLog st (gh_InstanceId req)).
Defined.
End Pg.
