(* ===== verification/Listener.v ===== *)
(** * The work item listener of a remote worker (client/worker_grpc.go)

    The loop that receives work items from a stream, hands them to handlers and
    reconnects after an error, as a machine that takes one event at a time, with the
    resources it owns: the context of the listener, the contexts of its streams, the
    keepalive loops, the history cache.  And the handler of an activity work item. *)

From stdpp Require Import base list option strings gmap sets.
From Stdlib Require Import ZArith Lia.
From S2P Require Import Prelude Errors Protos Propagation Helpers HistoryCache TaskRegistry TaskTable TaskProgram TaskMethods TaskExecutor.
From S2P Require Import LocalTasks Transport.

(** ** The client and its options (client_grpc.go)

    The part of the client a listener uses; [listenerErrorHandler]: one is set. *)
Record TaskHubGrpcClient := mkTaskHubGrpcClient {
  historyCacheConfig : workflowHistoryCacheConfig;
  statefulHistoryDisabled : bool;
  workItemMaxReceiveBytes : Z;
  listenerErrorHandler : bool
}.

Definition statefulHistoryEnabled (c : TaskHubGrpcClient) : bool := negb (statefulHistoryDisabled c).

Definition DefaultWorkItemMaxReceiveBytes : Z := Z.shiftl 16 20.

Definition set_cacheConfig (f : workflowHistoryCacheConfig -> workflowHistoryCacheConfig) (c : TaskHubGrpcClient) : TaskHubGrpcClient :=
  mkTaskHubGrpcClient (f (historyCacheConfig c)) (statefulHistoryDisabled c) (workItemMaxReceiveBytes c) (listenerErrorHandler c).

(** An option. *)
Inductive TaskHubGrpcClientOption :=
| WithWorkItemMaxReceiveBytes (maxBytes : Z)
| WithWorkItemListenerErrorHandler (handler : bool)
| WithStatefulHistoryDisabled
| WithWorkflowHistoryCacheTTL (ttl : Z)
| WithWorkflowHistoryCacheSweepInterval (interval : Z)
| WithWorkflowHistoryCacheMaxInstances (maxInstances : Z)
| WithWorkflowHistoryCacheMaxBytes (maxBytes : Z).

Definition applyOption (c : TaskHubGrpcClient) (opt : TaskHubGrpcClientOption) : TaskHubGrpcClient :=
  match opt with
  | WithWorkItemMaxReceiveBytes n =>
      if 0 <? n then mkTaskHubGrpcClient (historyCacheConfig c) (statefulHistoryDisabled c) n (listenerErrorHandler c) else c
  | WithWorkItemListenerErrorHandler h =>
      mkTaskHubGrpcClient (historyCacheConfig c) (statefulHistoryDisabled c) (workItemMaxReceiveBytes c) h
  | WithStatefulHistoryDisabled =>
      mkTaskHubGrpcClient (historyCacheConfig c) true (workItemMaxReceiveBytes c) (listenerErrorHandler c)
  | WithWorkflowHistoryCacheTTL v =>
      set_cacheConfig (fun g => mkHistoryCacheConfig (Some v) (cfg_sweepInterval g) (cfg_maxInstances g) (cfg_maxBytes g)) c
  | WithWorkflowHistoryCacheSweepInterval v =>
      set_cacheConfig (fun g => mkHistoryCacheConfig (cfg_ttl g) (Some v) (cfg_maxInstances g) (cfg_maxBytes g)) c
  | WithWorkflowHistoryCacheMaxInstances v =>
      set_cacheConfig (fun g => mkHistoryCacheConfig (cfg_ttl g) (cfg_sweepInterval g) (Some v) (cfg_maxBytes g)) c
  | WithWorkflowHistoryCacheMaxBytes v =>
      set_cacheConfig (fun g => mkHistoryCacheConfig (cfg_ttl g) (cfg_sweepInterval g) (cfg_maxInstances g) (Some v)) c
  end.

Definition NewTaskHubGrpcClient (opts : list TaskHubGrpcClientOption) : TaskHubGrpcClient :=
  foldl applyOption (mkTaskHubGrpcClient (mkHistoryCacheConfig None None None None) false DefaultWorkItemMaxReceiveBytes false) opts.

(** The receive budget of a stream. *)
Definition maxReceiveBytes (c : TaskHubGrpcClient) : Z :=
  if workItemMaxReceiveBytes c <=? 0 then DefaultWorkItemMaxReceiveBytes else workItemMaxReceiveBytes c.

(** ** The receive loop *)

Definition workItemResourceErrorLimit : nat := 3.
Definition ErrWorkItemStreamExhausted : error := errorNew "work item stream resource retry budget exhausted".

(** The codes the loop tells apart, and what [Recv] returns. *)
Inductive Code := ResourceExhausted | Unavailable | Canceled | OtherCode.
Inductive RecvError := EOF | GrpcStatus (code : Code) | PlainError (err : error).

(** How the background processor ends.  The figures in the message of a spent budget, and
    the last receive error it also wraps, are left out. *)
Inductive Ending :=
| Quiet
| Exhausted (errors : nat)
| Failed (err : error).

Definition terminalErr (e : Ending) : option error :=
  match e with
  | Quiet => None
  | Exhausted n => Some (errorWrap "receive errors" ErrWorkItemStreamExhausted)
  | Failed err => Some err
  end.

(** Where the loop is: in [Recv], in the pause after a resource error, in the retries of
    the connection, or at its end. *)
Inductive Phase := Receiving | Pausing | Reconnecting | Stopped (e : Ending).

(** Streams and keepalive loops are numbered; [ls_live] are the streams whose context is
    not cancelled, [ls_alive] the keepalive loops that run.  A handler of a workflow knows
    the stream its item came from, one of an activity does not. *)
Record Listener := mkListener {
  ls_phase : Phase;
  ls_ctxDone : bool;
  ls_resourceErrors : nat;
  ls_stream : nat;
  ls_live : gset nat;
  ls_keepalive : nat;
  ls_alive : gset nat;
  ls_cache : workflowHistoryCache;
  ls_handlers : list (option nat * string);
  ls_reported : list error;
  ls_shutdowns : nat
}.

Definition set_phase (p : Phase) (l : Listener) : Listener :=
  mkListener p (ls_ctxDone l) (ls_resourceErrors l) (ls_stream l) (ls_live l) (ls_keepalive l) (ls_alive l) (ls_cache l)
    (ls_handlers l) (ls_reported l) (ls_shutdowns l).
Definition set_resourceErrors (n : nat) (l : Listener) : Listener :=
  mkListener (ls_phase l) (ls_ctxDone l) n (ls_stream l) (ls_live l) (ls_keepalive l) (ls_alive l) (ls_cache l)
    (ls_handlers l) (ls_reported l) (ls_shutdowns l).
Definition set_handlers (hs : list (option nat * string)) (l : Listener) : Listener :=
  mkListener (ls_phase l) (ls_ctxDone l) (ls_resourceErrors l) (ls_stream l) (ls_live l) (ls_keepalive l) (ls_alive l)
    (ls_cache l) hs (ls_reported l) (ls_shutdowns l).
(** [streamCancel] *)
Definition cancelStream (s : nat) (l : Listener) : Listener :=
  mkListener (ls_phase l) (ls_ctxDone l) (ls_resourceErrors l) (ls_stream l) (ls_live l ∖ {[s]}) (ls_keepalive l)
    (ls_alive l) (ls_cache l) (ls_handlers l) (ls_reported l) (ls_shutdowns l).
(** Cancelling the listener's context ends what hangs on it. *)
Definition cancelListener (l : Listener) : Listener :=
  mkListener (ls_phase l) true (ls_resourceErrors l) (ls_stream l) ∅ (ls_keepalive l) ∅ (ls_cache l)
    (ls_handlers l) (ls_reported l) (ls_shutdowns l).

(** [initStream]: the greeting fails, the stream cannot be opened, or it is. *)
Inductive InitResult := HelloFailed (err : error) | StreamFailed (err : error) | Connected.

(** A new stream; the one before it is released first. *)
Definition nextStream (live : bool) (cache : workflowHistoryCache) (l : Listener) : Listener :=
  let s := S (ls_stream l) in
  mkListener (ls_phase l) (ls_ctxDone l) (ls_resourceErrors l) s
    (if live then {[s]} ∪ (ls_live l ∖ {[ls_stream l]}) else ls_live l ∖ {[ls_stream l]}) (ls_keepalive l) (ls_alive l) cache
    (ls_handlers l) (ls_reported l) (ls_shutdowns l).

Definition initStream (r : InitResult) (l : Listener) : Listener * option error :=
  match r with
  | HelloFailed err => (l, Some (errorWrap "failed to connect to task hub service" err))
  | StreamFailed err => (nextStream false (ls_cache l) l, Some (errorWrap "failed to get work item stream" err))
  | Connected => (nextStream true (cacheReset (ls_cache l)) l, None)
  end.

(** [cancelKeepalive(); cancelKeepalive = startKeepaliveLoop(ctx)] *)
Definition restartKeepalive (l : Listener) : Listener :=
  let k := S (ls_keepalive l) in
  mkListener (ls_phase l) (ls_ctxDone l) (ls_resourceErrors l) (ls_stream l) (ls_live l) k
    ({[k]} ∪ (ls_alive l ∖ {[ls_keepalive l]})) (ls_cache l) (ls_handlers l) (ls_reported l) (ls_shutdowns l).

(** The deferred function of the background processor; [handler]: an error handler is
    configured. *)
Definition finish (handler : bool) (e : Ending) (l : Listener) : Listener :=
  let l := cancelListener l in
  mkListener (Stopped e) (ls_ctxDone l) (ls_resourceErrors l) (ls_stream l) (ls_live l) (ls_keepalive l) (ls_alive l) (ls_cache l)
    (ls_handlers l) (ls_reported l ++ (if handler then option_list (terminalErr e) else [])) (S (ls_shutdowns l)).

(** What can happen: the caller cancels; [Recv] returns a work item, something unknown or
    an error; the pause ends, by its timer or by the context; an attempt to connect ends; a handler ends, or gives up its
    stream first; a handler works on the cache. *)
Inductive Event :=
| EvCancel
| EvWorkflow (token : string)
| EvActivity (token : string)
| EvUnknown
| EvError (e : RecvError)
| EvPauseElapsed
| EvPauseCancelled
| EvConnect (r : InitResult)
| EvTeardown (i : nat)
| EvDone (i : nat)
| EvCache (cache : workflowHistoryCache).

(** [StartWorkItemListener]: the first connection, then the background processor. *)
Definition newListener (c : TaskHubGrpcClient) : Listener :=
  mkListener Receiving false 0 0 ∅ 0 ∅ (newWorkflowHistoryCache (historyCacheConfig c)) [] [] 0.

Definition StartWorkItemListener (c : TaskHubGrpcClient) (r : InitResult) : Listener + error :=
  match initStream r (newListener c) with
  | (_, Some err) => inr err
  | (l, None) => inl (restartKeepalive l)
  end.

Section Listen.
Variable c : TaskHubGrpcClient.
Abbreviation handler := (listenerErrorHandler c).

Definition receiveError (e : RecvError) (l : Listener) : Listener :=
  if ls_ctxDone l then finish handler Quiet l
  else match e with
       | EOF => set_phase Reconnecting l
       | GrpcStatus ResourceExhausted =>
           let l := set_resourceErrors (S (ls_resourceErrors l)) l in
           if (workItemResourceErrorLimit <=? ls_resourceErrors l)%nat then finish handler (Exhausted (ls_resourceErrors l)) l
           else set_phase Pausing (cancelStream (ls_stream l) l)
       | GrpcStatus _ => set_phase Reconnecting l
       | PlainError err => finish handler (Failed err) l
       end.

(** Work arrived: the budget is reset and a handler started. *)
Definition startHandler (teardownStream : option nat) (token : string) (l : Listener) : Listener :=
  set_handlers (ls_handlers l ++ [(teardownStream, token)]) (set_resourceErrors 0 l).

(** One event; [None] if it cannot happen here. *)
Definition listen (l : Listener) (ev : Event) : option Listener :=
  match ev, ls_phase l with
  | EvCancel, _ => Some (cancelListener l)
  | EvWorkflow token, Receiving => Some (startHandler (Some (ls_stream l)) token l)
  | EvActivity token, Receiving => Some (startHandler None token l)
  | EvUnknown, Receiving => Some l
  | EvError e, Receiving => Some (receiveError e l)
  | EvPauseElapsed, Pausing => Some (set_phase Reconnecting l)
  | EvPauseCancelled, Pausing => if ls_ctxDone l then Some (finish handler Quiet l) else None
  | EvConnect r, Reconnecting =>
      if ls_ctxDone l then Some (finish handler Quiet l)
      else match initStream r l with
           | (l, Some _) => Some l
           | (l, None) => Some (set_phase Receiving (restartKeepalive l))
           end
  | EvTeardown i, _ =>
      match ls_handlers l !! i with
      | Some (Some s, _) => Some (cancelStream s (set_handlers (delete i (ls_handlers l)) l))
      | _ => None
      end
  | EvDone i, _ => match ls_handlers l !! i with Some _ => Some (set_handlers (delete i (ls_handlers l)) l) | None => None end
  | EvCache cache, _ => match ls_handlers l with
                    | [] => None
                    | _ => Some (mkListener (ls_phase l) (ls_ctxDone l) (ls_resourceErrors l) (ls_stream l) (ls_live l)
                             (ls_keepalive l) (ls_alive l) cache (ls_handlers l) (ls_reported l) (ls_shutdowns l))
                    end
  | _, _ => None
  end.

Fixpoint listenAll (l : Listener) (evs : list Event) : option Listener :=
  match evs with
  | [] => Some l
  | ev :: rest => match listen l ev with Some l => listenAll l rest | None => None end
  end.

(** ** What the listener keeps *)

(** Resource errors since the last work item. *)
Definition count (n : nat) (ev : Event) : nat :=
  match ev with
  | EvWorkflow _ | EvActivity _ => 0
  | EvError (GrpcStatus ResourceExhausted) => S n
  | _ => n
  end.
Definition exhaustedRun (evs : list Event) : nat := foldl count 0%nat evs.

(** Why the processor ended. *)
Definition explained (evs : list Event) (e : Ending) : Prop :=
  match e with
  | Quiet => EvCancel ∈ evs
  | Exhausted n => n = workItemResourceErrorLimit /\ exhaustedRun evs = n
  | Failed err => EvError (PlainError err) ∈ evs
  end.

Definition cleanedUp (evs : list Event) (e : Ending) (l : Listener) : Prop :=
  ls_live l = ∅ /\ ls_alive l = ∅ /\ ls_shutdowns l = 1%nat /\
  ls_reported l = (if handler then option_list (terminalErr e) else []) /\ explained evs e.

Definition underWay (evs : list Event) (l : Listener) : Prop :=
  ls_resourceErrors l = exhaustedRun evs /\ (exhaustedRun evs < workItemResourceErrorLimit)%nat /\
  ls_live l ⊆ {[ls_stream l]} /\ ls_alive l ⊆ {[ls_keepalive l]} /\ ls_shutdowns l = 0%nat /\ ls_reported l = [] /\
  (ls_ctxDone l = true -> EvCancel ∈ evs).

Definition listener_inv (evs : list Event) (l : Listener) : Prop :=
  match ls_phase l with Stopped e => cleanedUp evs e l | _ => underWay evs l end.

Lemma exhaustedRun_snoc evs ev : exhaustedRun (evs ++ [ev]) = count (exhaustedRun evs) ev.
Proof. unfold exhaustedRun. by rewrite foldl_app. Qed.

Lemma finish_inv evs e l : underWay evs l -> explained evs e -> listener_inv evs (finish handler e l).
Proof. intros (_ & _ & _ & _ & Hs & Hr & _) He. unfold finish, listener_inv, cleanedUp. cbn. by rewrite Hs, Hr. Qed.

(** An event that neither counts nor cancels. *)
Lemma underWay_snoc evs ev l : count (exhaustedRun evs) ev = exhaustedRun evs -> underWay evs l -> underWay (evs ++ [ev]) l.
Proof.
  intros Hc (H1 & H2 & H3 & H4 & H5 & H6 & H7). unfold underWay. rewrite exhaustedRun_snoc, Hc. split_and!; try done.
  intros Hd. apply elem_of_app. left. by apply H7.
Qed.

Lemma explained_snoc evs ev e : count (exhaustedRun evs) ev = exhaustedRun evs -> explained evs e -> explained (evs ++ [ev]) e.
Proof. intros Hc. destruct e; cbn; rewrite ?exhaustedRun_snoc, ?Hc, ?elem_of_app; tauto. Qed.

(** What changes neither phase nor counters. *)
Lemma inv_frame evs ev l l' :
  ls_phase l' = ls_phase l -> ls_resourceErrors l' = ls_resourceErrors l -> ls_stream l' = ls_stream l -> ls_live l' ⊆ ls_live l ->
  ls_keepalive l' = ls_keepalive l -> ls_alive l' ⊆ ls_alive l -> ls_shutdowns l' = ls_shutdowns l -> ls_reported l' = ls_reported l ->
  (ls_ctxDone l' = true -> ls_ctxDone l = true \/ ev = EvCancel) -> count (exhaustedRun evs) ev = exhaustedRun evs ->
  listener_inv evs l -> listener_inv (evs ++ [ev]) l'.
Proof.
  intros H1 H2 H3 H4 H5 H6 H7 H8 H9 Hc. unfold listener_inv. rewrite H1.
  assert (underWay evs l -> underWay (evs ++ [ev]) l') as Hu.
  { intros (U1 & U2 & U3 & U4 & U5 & U6 & U7). unfold underWay. rewrite exhaustedRun_snoc, Hc, H2, H3, H5, H7, H8. split_and!; try done; [set_solver.. |].
    intros [Hd%U7 | ->]%H9; set_solver. }
  destruct (ls_phase l); try exact Hu. intros (C1 & C2 & C3 & C4 & C5). unfold cleanedUp. rewrite H7, H8.
  split_and!; try done; [set_solver.. |]. by apply explained_snoc.
Qed.

Lemma reconnecting_inv evs ev l :
  count (exhaustedRun evs) ev = exhaustedRun evs -> underWay evs l -> listener_inv (evs ++ [ev]) (set_phase Reconnecting l).
Proof. intros Hc Hu. exact (underWay_snoc evs ev l Hc Hu). Qed.

Lemma receiveError_inv evs e l : ls_phase l = Receiving -> underWay evs l -> listener_inv (evs ++ [EvError e]) (receiveError e l).
Proof.
  intros Hp Hu. pose proof Hu as (H1 & H2 & H3 & H4 & H5 & H6 & H7). unfold receiveError.
  destruct (ls_ctxDone l) eqn:Hd.
  - (* the processor ends whatever the error was *)
    unfold finish, listener_inv, cleanedUp. cbn. rewrite H5, H6. split_and!; try done. apply elem_of_app. left. by apply H7.
  - destruct e as [| code | err].
    + by apply reconnecting_inv.
    + destruct code; try (by apply reconnecting_inv).
      cbn [set_resourceErrors ls_resourceErrors]. destruct (Nat.leb_spec workItemResourceErrorLimit (S (ls_resourceErrors l))) as [Hle | Hlt].
      * unfold finish, listener_inv, cleanedUp. cbn. rewrite H5, H6. split_and!; try done; [lia |]. by rewrite exhaustedRun_snoc, <- H1.
      * unfold listener_inv. cbn. unfold underWay. cbn. rewrite exhaustedRun_snoc. cbn. rewrite Hd. split_and!; try done; [congruence | congruence | set_solver].
    + apply finish_inv; [by apply underWay_snoc | cbn; set_solver].
Qed.

Lemma startHandler_inv evs ev stream token l :
  (forall n, count n ev = 0%nat) -> ls_phase l = Receiving -> listener_inv evs l -> listener_inv (evs ++ [ev]) (startHandler stream token l).
Proof.
  intros Hc Hp. unfold listener_inv. cbn. rewrite Hp. intros (H1 & H2 & H3 & H4 & H5 & H6 & H7). unfold underWay. cbn. rewrite exhaustedRun_snoc, Hc.
  split_and!; try done; [unfold workItemResourceErrorLimit; lia | set_solver].
Qed.

Lemma listen_inv evs l ev l' : listen l ev = Some l' -> listener_inv evs l -> listener_inv (evs ++ [ev]) l'.
Proof.
  intros Hl Hi. destruct ev as [| token | token | | e | | | r | i | i | cache]; cbn in Hl.
  - injection Hl as <-. by apply (inv_frame evs _ l); cbn; auto; set_solver.
  - destruct (ls_phase l) eqn:Hp; try done. injection Hl as <-. by apply startHandler_inv.
  - destruct (ls_phase l) eqn:Hp; try done. injection Hl as <-. by apply startHandler_inv.
  - destruct (ls_phase l) eqn:Hp; try done. injection Hl as <-. by apply (inv_frame evs _ l); auto.
  - destruct (ls_phase l) eqn:Hp; try done. injection Hl as <-. unfold listener_inv in Hi. rewrite Hp in Hi. by apply receiveError_inv.
  - destruct (ls_phase l) eqn:Hp; try done. injection Hl as <-. unfold listener_inv in Hi. rewrite Hp in Hi. by apply reconnecting_inv.
  - destruct (ls_phase l) eqn:Hp; try done. destruct (ls_ctxDone l) eqn:Hd; [| done]. injection Hl as <-. unfold listener_inv in Hi. rewrite Hp in Hi.
    apply finish_inv; [by apply underWay_snoc |]. destruct Hi as (_ & _ & _ & _ & _ & _ & H7). cbn. set_solver.
  - destruct (ls_phase l) eqn:Hp; try done. unfold listener_inv in Hi. rewrite Hp in Hi. destruct (ls_ctxDone l) eqn:Hd.
    + injection Hl as <-. apply finish_inv; [by apply underWay_snoc |]. destruct Hi as (_ & _ & _ & _ & _ & _ & H7). cbn. set_solver.
    + destruct Hi as (H1 & H2 & H3 & H4 & H5 & H6 & H7).
      destruct r; cbn in Hl; injection Hl as <-; unfold listener_inv; cbn; rewrite ?Hp; unfold underWay; cbn; rewrite exhaustedRun_snoc; cbn;
        rewrite ?Hd; split_and!; try done; set_solver.
  - destruct (ls_handlers l !! i) as [[[s|] token]|]; try done. injection Hl as <-. by apply (inv_frame evs _ l); cbn; auto; set_solver.
  - destruct (ls_handlers l !! i); [| done]. injection Hl as <-. by apply (inv_frame evs _ l); cbn; auto.
  - destruct (ls_handlers l); [done |]. injection Hl as <-. by apply (inv_frame evs _ l); cbn; auto.
Qed.

Lemma listenAll_inv evs0 evs l l' : listenAll l evs = Some l' -> listener_inv evs0 l -> listener_inv (evs0 ++ evs) l'.
Proof.
  revert evs0 l. induction evs as [|ev evs IH]; intros evs0 l; cbn; [intros [= ->]; by rewrite app_nil_r |].
  destruct (listen l ev) as [l1|] eqn:E; [| done]. intros Hl Hi. change (ev :: evs) with ([ev] ++ evs). rewrite app_assoc.
  eapply IH; [done | by eapply listen_inv].
Qed.
End Listen.


(** After the caller has cancelled, what the processor is waiting for ends it. *)
Lemma listener_can_stop c l :
  (forall e, ls_phase l <> Stopped e) -> exists ev l1, listenAll c l [EvCancel; ev] = Some l1 /\ ls_phase l1 = Stopped Quiet.
Proof.
  intros Hn. destruct (ls_phase l) eqn:Hp.
  - exists (EvError EOF). cbn. rewrite Hp. eexists. split; [done |]. unfold receiveError. by cbn.
  - exists EvPauseCancelled. cbn. rewrite Hp. by eexists.
  - exists (EvConnect Connected). cbn. rewrite Hp. by eexists.
  - by destruct (Hn e).
Qed.

(** ** The activity handler *)

Section Activity.
Variables errorTypeName errorText : error -> string.

(** The scheduled event the handler makes of a request. *)
Definition activityEvent (now : Z) (req : ActivityRequest) : HistoryEvent :=
  mkHistoryEvent (aq_TaskId req) (Some now)
    (Some (HistoryEvent_TaskScheduled (mkTaskScheduledEvent (aq_Name req) (aq_Version req) (aq_Input req)
       (aq_ParentTraceContext req) (aq_TaskExecutionId req) None))) None.

Definition activityReply (iid : string) (req : ActivityRequest) (completionToken : string) (result : HistoryEvent + error)
    : ActivityResponse :=
  let failed fd := mkActivityResponse iid (aq_TaskId req) None fd completionToken in
  match result with
  | inr err => failed (Some (mkTaskFailureDetails (errorTypeName err) (errorText err) None None false))
  | inl e =>
      match GetTaskCompleted e, GetTaskFailed e with
      | Some tc, _ => mkActivityResponse iid (aq_TaskId req) (tc_Result tc) None completionToken
      | None, Some tf => failed (tf_FailureDetails tf)
      | None, None => failed (Some (mkTaskFailureDetails "UnknownTaskResult" "Unknown task result" None None false))
      end
  end.

(** [processActivityWorkItem]; a request without instance panics. *)
Definition processActivityWorkItem (now : Z)
    (ExecuteActivity : string -> HistoryEvent -> option PropagatedHistory -> HistoryEvent + error)
    (req : ActivityRequest) (completionToken : string) : outcome error ActivityResponse :=
  match aq_WorkflowInstance req with
  | None => Panic "nil WorkflowInstance"
  | Some wi =>
      let iid := wi_InstanceId wi in
      Ok (activityReply iid req completionToken (ExecuteActivity iid (activityEvent now req) (aq_PropagatedHistory req)))
  end.

(** ** An activity over the wire *)

Context `{HF : Float64} `{HM : Marshaler} `{HC : ProtoCodec}.
Variable registry : TaskRegistry Workflow Activity.

(** Running a scheduled task never fails with an error, and its event does not depend on
    what else the scheduled event carries. *)
Lemma executeActivity_event now e ts propagated :
  GetTaskScheduled e = Some ts -> exists r, executeActivity errorTypeName errorText registry now e propagated = inl r /\
    ((exists tc, EventType r = Some (HistoryEvent_TaskCompleted tc) /\ tc_TaskScheduledId tc = EventId e /\ tc_TaskExecutionId tc = ts_TaskExecutionId ts) \/
     (exists tf fd, EventType r = Some (HistoryEvent_TaskFailed tf) /\ tf_TaskScheduledId tf = EventId e /\ tf_FailureDetails tf = Some fd /\
        tf_TaskExecutionId tf = ts_TaskExecutionId ts)).
Proof.
  intros He. unfold executeActivity. rewrite He. unfold taskFailed.
  repeat match goal with
         | |- exists r, (match ?x with _ => _ end) = inl r /\ _ => destruct x
         end; eexists; (split; [reflexivity |]); first [left; eexists; by split_and! | right; do 2 eexists; by split_and!].
Qed.

Lemma executeActivity_request now now' iid e ts propagated :
  GetTaskScheduled e = Some ts ->
  executeActivity errorTypeName errorText registry now (activityEvent now' (activityRequest iid e ts propagated)) propagated =
  executeActivity errorTypeName errorText registry now e propagated.
Proof. intros He. unfold executeActivity. rewrite He. reflexivity. Qed.

(** C35. An activity run by a remote worker gives what it gives in the process: the event
    that the service makes of the worker's response to its request has the same result or
    failure, for the same task and execution, as the event the in-process executor
    returns; the response is for the instance, task and attempt of the request. *)
Theorem activity_over_wire now iid e ts propagated token received answered :
  GetTaskScheduled e = Some ts ->
  exists localEvent resp,
    executeActivity errorTypeName errorText registry now e propagated = inl localEvent /\
    processActivityWorkItem received (fun _ e' ph => executeActivity errorTypeName errorText registry now e' ph)
      (activityRequest iid e ts propagated) token = Ok resp /\
    EventType (activityResponseEvent answered e ts resp) = EventType localEvent /\
    activityKey resp = GetActivityExecutionKey iid (EventId e) /\ ar_CompletionToken resp = token.
Proof.
  intros He. destruct (executeActivity_event now e ts propagated He) as (r & Hr & Hcase). exists r. eexists. split; [exact Hr |].
  unfold processActivityWorkItem. cbn [activityRequest aq_WorkflowInstance aq_PropagatedHistory wi_InstanceId].
  split; [reflexivity |]. rewrite (executeActivity_request now received iid e ts propagated He), Hr. unfold activityReply, GetTaskCompleted, GetTaskFailed, activityResponseEvent.
  destruct Hcase as [([id res x] & -> & Hid & Hx) | ([id fd x] & fd' & -> & Hid & Hfd & Hx)]; cbn in *; subst; done.
Qed.
End Activity.

(** ** A concrete listener and a concrete activity *)

(** Work between resource errors: the third one in a row ends the listener. *)
Definition stormy : list Event :=
  [EvWorkflow "t1"; EvError (GrpcStatus ResourceExhausted); EvPauseElapsed; EvConnect (HelloFailed ErrNotStarted); EvConnect Connected;
   EvTeardown 0; EvActivity "t2"; EvError (GrpcStatus ResourceExhausted); EvPauseElapsed; EvConnect Connected;
   EvError (GrpcStatus ResourceExhausted); EvPauseElapsed; EvConnect Connected; EvUnknown; EvError (GrpcStatus ResourceExhausted)].

Definition sampleOptions : list TaskHubGrpcClientOption :=
  [WithWorkItemMaxReceiveBytes (-1); WithWorkItemListenerErrorHandler true; WithWorkflowHistoryCacheMaxInstances 8].
Definition sampleClient : TaskHubGrpcClient := NewTaskHubGrpcClient sampleOptions.
Definition sampleListener : Listener :=
  restartKeepalive (nextStream true (cacheReset (ls_cache (newListener sampleClient))) (newListener sampleClient)).


#[local] Existing Instance exactFloat.
#[local] Instance noEvents : ProtoCodec := catalogCodec [].
#[local] Instance textMarshaler : Marshaler := {| any := string; marshalAny v := inl v |}.

(** An activity that answers with its input, and one that panics. *)
Definition sampleActivities : TaskRegistry Workflow Activity :=
  UpsertActivityN "echo" (fun c => Ok (Some (ac_rawInput c))) (UpsertActivityN "broken" (fun _ => Panic "boom") NewTaskRegistry).
Definition scheduledTask (name : string) : HistoryEvent :=
  mkHistoryEvent 4 (Some 12) (Some (HistoryEvent_TaskScheduled (mkTaskScheduledEvent name None (Some "hi") None "x4" None))) None.

Lemma activity_over_wire_witness : exists localEvent resp,
  executeActivity (fun _ => "T") (fun _ => "m") sampleActivities 20 (scheduledTask "echo") None = inl localEvent /\
  ar_Result resp = Some "hi" /\
  EventType (activityResponseEvent 30 (scheduledTask "echo") (mkTaskScheduledEvent "echo" None (Some "hi") None "x4" None) resp) = EventType localEvent.
Proof.
  destruct (activity_over_wire (fun _ => "T") (fun _ => "m") sampleActivities 20 "wf1" (scheduledTask "echo")
    (mkTaskScheduledEvent "echo" None (Some "hi") None "x4" None) None "t1" 15 30 eq_refl) as (le & resp & H1 & H2 & H3 & _).
  exists le, resp. split; [exact H1 |]. split; [| exact H3]. vm_compute in H2. by injection H2 as <-.
Defined.
