(* ===== verification/Facade.v ===== *)
(** * The public package (workflow/)

    What an application is written against: workflow functions over the public context
    ([Workflow]), the registry that wraps them into functions of the task package
    ([wrap]), and the client.  Every call goes on to a definition of the files above; this
    file shows that nothing is lost on the way, and what the narrower interface gives: a
    public function that does not ask whether it replays is deterministic. *)

From stdpp Require Import base list option strings gmap.
From Stdlib Require Import ZArith Lia.
From S2P Require Import Prelude Errors Protos Dedup RuntimeState Propagation Helpers Backend Sqlite Requests Clients ClientTheorems.
From S2P Require Import TaskRegistry TaskTable TaskProgram TaskMethods TaskExecutor TaskErase TaskLike TaskMachine TaskReplay.
From S2P Require Import Listing Listener.

(** ** Options (workflow/api.go, activity.go, workflow.go, detached.go, timer.go, propagation.go)

    A public option is the option of the package behind it under another type name. *)

Section Options.
Context `{HF : Float64} `{HM : Marshaler}.

Definition WithInstanceID : string -> Option CreateInstanceRequest := Requests.WithInstanceID.
Definition WithInput : string + error -> Option CreateInstanceRequest := Requests.WithInput.
Definition WithRawInput : option string -> Option CreateInstanceRequest := Requests.WithRawInput.
Definition WithStartTime : Z -> Option CreateInstanceRequest := Requests.WithStartTime.
Definition WithAppID : string -> Option CreateInstanceRequest := Requests.WithAppID.
Definition WithFetchPayloads : bool -> FetchOption := Requests.WithFetchPayloads.
Definition WithFetchAppID : string -> FetchOption := Requests.WithFetchAppID.
Definition WithEventPayload : string + error -> Option RaiseEventRequest := Requests.WithEventPayload.
Definition WithRawEventData : option string -> Option RaiseEventRequest := Requests.WithRawEventData.
Definition WithExternalDeliveryID : string -> Option RaiseEventRequest := Requests.WithExternalDeliveryID.
Definition WithRaiseEventAppID : string -> Option RaiseEventRequest := Requests.WithRaiseEventAppID.
Definition WithOutput : string + error -> Option TerminateRequest := Requests.WithOutput.
Definition WithRawOutput : option string -> Option TerminateRequest := Requests.WithRawOutput.
Definition WithRecursiveTerminate : bool -> Option TerminateRequest := Requests.WithRecursiveTerminate.
Definition WithTerminateAppID : string -> Option TerminateRequest := Requests.WithTerminateAppID.
Definition WithSuspendAppID : string -> Option SuspendRequest := Requests.WithSuspendAppID.
Definition WithResumeAppID : string -> Option ResumeRequest := Requests.WithResumeAppID.
Definition WithRecursivePurge : bool -> Option PurgeInstancesRequest := Requests.WithRecursivePurge.
Definition WithForcePurge : bool -> Option PurgeInstancesRequest := Requests.WithForcePurge.
Definition WithPurgeAppID : string -> Option PurgeInstancesRequest := Requests.WithPurgeAppID.
Definition WithListInstanceIDsPageSize : Z -> Option ListInstanceIDsRequest := Listing.WithListInstanceIDsPageSize.
Definition WithListInstanceIDsContinuationToken : string -> Option ListInstanceIDsRequest :=
  Listing.WithListInstanceIDsContinuationToken.

Definition WithActivityAppID : string -> CallActivityOption := TaskProgram.WithActivityAppID.
Definition WithActivityAppNamespace : string -> CallActivityOption := TaskProgram.WithActivityAppNamespace.
Definition WithActivityInput : option any -> CallActivityOption := TaskProgram.WithActivityInput.
Definition WithRawActivityInput : option string -> CallActivityOption := TaskProgram.WithRawActivityInput.
(** The pointer is converted: the policy stays that of the caller. *)
Definition WithActivityRetryPolicy : option RetryPolicy -> CallActivityOption := TaskProgram.WithActivityRetryPolicy.

Definition WithChildWorkflowAppID : string -> ChildWorkflowOption := TaskProgram.WithChildWorkflowAppID.
Definition WithChildWorkflowAppNamespace : string -> ChildWorkflowOption := TaskProgram.WithChildWorkflowAppNamespace.
Definition WithChildWorkflowInput : option any -> ChildWorkflowOption := TaskProgram.WithChildWorkflowInput.
Definition WithRawChildWorkflowInput : option string -> ChildWorkflowOption := TaskProgram.WithRawChildWorkflowInput.
Definition WithChildWorkflowInstanceID : string -> ChildWorkflowOption := TaskProgram.WithChildWorkflowInstanceID.
(** The fields are copied, so a nil policy panics when the option is made. *)
Definition WithChildWorkflowRetryPolicy (policy : option RetryPolicy) : outcome error ChildWorkflowOption :=
  match policy with
  | None => Panic "nil pointer dereference"
  | Some policy =>
      Ok (TaskProgram.WithChildWorkflowRetryPolicy (Some (mkRetryPolicy (rp_MaxAttempts policy) (rp_InitialRetryInterval policy)
            (rp_BackoffCoefficient policy) (rp_MaxRetryInterval policy) (rp_RetryTimeout policy) (rp_Handle policy))))
  end.
Definition WithKeepUnprocessedEvents : ContinueAsNewOption := TaskMethods.WithKeepUnprocessedEvents.

Definition WithDetachedWorkflowInstanceID : string -> DetachedWorkflowOptions := TaskProgram.WithDetachedWorkflowInstanceID.
Definition WithDetachedWorkflowInput : option any -> DetachedWorkflowOptions := TaskProgram.WithDetachedWorkflowInput.
Definition WithRawDetachedWorkflowInput : option string -> DetachedWorkflowOptions := TaskProgram.WithRawDetachedWorkflowInput.
Definition WithDetachedWorkflowStartTime : Z -> DetachedWorkflowOptions := TaskProgram.WithDetachedWorkflowStartTime.
Definition WithDetachedWorkflowAppID : string -> DetachedWorkflowOptions := TaskProgram.WithDetachedWorkflowAppID.
Definition WithDetachedWorkflowAppNamespace : string -> DetachedWorkflowOptions := TaskProgram.WithDetachedWorkflowAppNamespace.
Definition WithTimerName : string -> option string -> option string + error := TaskMethods.WithTimerName.

Definition PropagateOwnHistory : PropagationOption := TaskProgram.PropagateOwnHistory.
Definition PropagateLineage : PropagationOption := TaskProgram.PropagateLineage.
Definition WithHistoryPropagation : option PropagationOption -> HistoryPropagationScope := TaskProgram.WithHistoryPropagation.

(** The option reaches the calls of both kinds. *)
Lemma lineage_reaches_calls ao wo :
  (exists o, propagateToActivity (WithHistoryPropagation (Some PropagateLineage)) ao = inl o /\ ao_propagationScope o = Some SCOPE_LINEAGE) /\
  (exists o, propagateToChild (WithHistoryPropagation (Some PropagateLineage)) wo = inl o /\ wo_propagationScope o = Some SCOPE_LINEAGE) /\
  WithHistoryPropagation None = SCOPE_NONE.
Proof. split_and!; by eexists. Qed.

(** A nil policy is no policy for an activity, and a panic for a child workflow. *)
Lemma nil_policy o :
  WithActivityRetryPolicy None o = inl o /\ exists msg, WithChildWorkflowRetryPolicy None = Panic msg.
Proof. by split; [| eexists]. Qed.

Lemma child_policy_copied policy :
  WithChildWorkflowRetryPolicy (Some policy) = Ok (TaskProgram.WithChildWorkflowRetryPolicy (Some policy)).
Proof. by destruct policy. Qed.
End Options.

(** ** Workflow functions (workflow/workflow.go, registry.go) *)

Section Functions.
Context `{HF : Float64} `{HM : Marshaler}.

(** *** Methods of the public context, on the context they wrap

    A method is given what the function does with its answer. *)

Abbreviation Function := TaskMethods.Workflow.

Definition SetCustomStatus (cs : string) (k : Function) : Function := WSetCustomStatus cs k.
Definition GetInput (k : string -> Function) : Function := WGetInput k.
Definition ID (k : string -> Function) : Function := WInfo (fun i => k (in_ID i)).
Definition Name (k : string -> Function) : Function := WInfo (fun i => k (in_Name i)).
Definition CurrentTimeUTC (k : Z -> Function) : Function := WInfo (fun i => k (in_CurrentTimeUtc i)).
Definition IsReplaying (k : bool -> Function) : Function := WInfo (fun i => k (in_IsReplaying i)).
Definition CallActivity (activity : string) (opts : list CallActivityOption) (k : Task -> Function) : Function :=
  WCallActivity activity opts k.
Definition CallChildWorkflow (workflow : string) (opts : list ChildWorkflowOption) (k : Task -> Function) : Function :=
  WCallChildWorkflow workflow opts k.
Definition CreateTimer (delay : Z) (opts : list (option string -> option string + error)) (k : Task -> Function) : Function :=
  WCreateTimer delay opts k.
Definition WaitForExternalEvent (eventName : string) (timeout : Z) (k : Task -> Function) : Function :=
  WWaitForSingleEvent eventName timeout k.
Definition ContinueAsNew (newInput : option any) (options : list ContinueAsNewOption) (k : Function) : Function :=
  WContinueAsNew newInput options k.
Definition IsPatched (patchName : string) (k : bool -> Function) : Function := WIsPatched patchName k.
Definition GetPropagatedHistory (k : option ApiPropagatedHistory -> Function) : Function := WGetPropagatedHistory k.
Definition ScheduleNewWorkflow (workflow : string) (opts : list DetachedWorkflowOptions) (k : string + error -> Function) : Function :=
  WScheduleNewWorkflow workflow opts k.

(** *** Public workflow functions *)

Inductive Workflow :=
| FReturn (output : option any) (err : option error)
| FPanic (msg : string)
| FSetCustomStatus (cs : string) (k : Workflow)
| FGetInput (k : string -> Workflow)
| FID (k : string -> Workflow)
| FName (k : string -> Workflow)
| FCurrentTimeUTC (k : Z -> Workflow)
| FIsReplaying (k : bool -> Workflow)
| FCallActivity (activity : string) (opts : list CallActivityOption) (k : Task -> Workflow)
| FCallChildWorkflow (workflow : string) (opts : list ChildWorkflowOption) (k : Task -> Workflow)
| FCreateTimer (delay : Z) (opts : list (option string -> option string + error)) (k : Task -> Workflow)
| FWaitForExternalEvent (eventName : string) (timeout : Z) (k : Task -> Workflow)
| FContinueAsNew (newInput : option any) (options : list ContinueAsNewOption) (k : Workflow)
| FIsPatched (patchName : string) (k : bool -> Workflow)
| FGetPropagatedHistory (k : option ApiPropagatedHistory -> Workflow)
| FScheduleNewWorkflow (workflow : string) (opts : list DetachedWorkflowOptions) (k : string + error -> Workflow)
| FAwait (t : Task) (v : option decoder) (k : string + error -> Workflow)
| FTaskExecutionId (t : Task) (k : string -> Workflow).

(** [func(ctx) { return w(&WorkflowContext{ctx}) }] *)
Fixpoint wrap (w : Workflow) : Function :=
  match w with
  | FReturn output err => WReturn output err
  | FPanic msg => WPanic msg
  | FSetCustomStatus cs k => SetCustomStatus cs (wrap k)
  | FGetInput k => GetInput (fun i => wrap (k i))
  | FID k => ID (fun i => wrap (k i))
  | FName k => Name (fun i => wrap (k i))
  | FCurrentTimeUTC k => CurrentTimeUTC (fun i => wrap (k i))
  | FIsReplaying k => IsReplaying (fun i => wrap (k i))
  | FCallActivity activity opts k => CallActivity activity opts (fun t => wrap (k t))
  | FCallChildWorkflow workflow opts k => CallChildWorkflow workflow opts (fun t => wrap (k t))
  | FCreateTimer delay opts k => CreateTimer delay opts (fun t => wrap (k t))
  | FWaitForExternalEvent eventName timeout k => WaitForExternalEvent eventName timeout (fun t => wrap (k t))
  | FContinueAsNew newInput options k => ContinueAsNew newInput options (wrap k)
  | FIsPatched patchName k => IsPatched patchName (fun b => wrap (k b))
  | FGetPropagatedHistory k => GetPropagatedHistory (fun ph => wrap (k ph))
  | FScheduleNewWorkflow workflow opts k => ScheduleNewWorkflow workflow opts (fun r => wrap (k r))
  | FAwait t v k => WAwait t v (fun r => wrap (k r))
  | FTaskExecutionId t k => WTaskExecutionId t (fun x => wrap (k x))
  end.

(** *** The registry *)

(** A public activity gets the context under another type name. *)
Abbreviation Activity := TaskExecutor.Activity.

Abbreviation Registry := (TaskRegistry Function Activity).

Definition NewRegistry : Registry := NewTaskRegistry.
Definition AddWorkflowN (name : string) (w : Workflow) : Registry -> Registry * option error :=
  TaskRegistry.AddWorkflowN name (wrap w).
Definition AddActivityN (name : string) (a : Activity) : Registry -> Registry * option error :=
  TaskRegistry.AddActivityN name a.
Definition AddVersionedWorkflowN (canonicalName name : string) (isLatest : bool) (w : Workflow)
    : Registry -> Registry * option error :=
  TaskRegistry.AddVersionedWorkflowN canonicalName name isLatest (wrap w).

(** The name is that of the function given, [fullName]. *)
Definition AddWorkflow (fullName : string) (w : Workflow) : Registry -> Registry * option error :=
  AddWorkflowN (GetTaskFunctionName (inr fullName)) w.
Definition AddActivity (fullName : string) (a : Activity) : Registry -> Registry * option error :=
  AddActivityN (GetTaskFunctionName (inr fullName)) a.

(** What the runtime calls the function literal in [AddVersionedWorkflow]. *)
Variable literalName : string.

(** The registry behind is given the function literal that wraps [w], and names the
    version after it. *)
Definition AddVersionedWorkflow (canonicalName : string) (isLatest : bool) (w : Workflow)
    : Registry -> Registry * option error :=
  TaskRegistry.AddVersionedWorkflow canonicalName isLatest literalName (wrap w).
End Functions.

(** ** Metadata (workflow/state.go, api.go) *)

Record Metadata := mkMetadata {
  InstanceId : string;
  WfName : string;
  RuntimeStatus : OrchestrationStatus;
  CreatedAt : Z;
  LastUpdatedAt : Z;
  Input : option string;
  Output : option string;
  CustomStatus : option string;
  FailureDetails : option TaskFailureDetails;
  CompletedAt : option Z;
  ParentInstanceId : string;
  Version : option string;
  ParentAppId : option string;
  StartedAt : option Z
}.

Definition MetadataString (w : Metadata) : string :=
  match RuntimeStatus w with
  | RUNNING => "RUNNING"
  | COMPLETED => "COMPLETED"
  | CONTINUED_AS_NEW => "CONTINUED_AS_NEW"
  | FAILED => "FAILED"
  | CANCELED => "CANCELED"
  | TERMINATED => "TERMINATED"
  | PENDING => "PENDING"
  | SUSPENDED => "SUSPENDED"
  | STALLED => "STALLED"
  end.

Definition workflowMetadataFromProto (metadata : option WorkflowMetadata) : option Metadata :=
  match metadata with
  | None => None
  | Some md =>
      Some (mkMetadata (md_InstanceId md) (md_Name md) (md_RuntimeStatus md) (md_CreatedAt md) (md_LastUpdatedAt md)
        (md_Input md) (md_Output md) (md_CustomStatus md) (md_FailureDetails md) (md_CompletedAt md)
        (md_ParentInstanceId md) (md_Version md) (md_ParentAppId md) (md_StartedAt md))
  end.

Definition WorkflowMetadataIsComplete (o : option Metadata) : bool :=
  match o with
  | None => false
  | Some o =>
      match RuntimeStatus o with
      | COMPLETED | FAILED | TERMINATED | CANCELED => true
      | _ => false
      end
  end.

Definition WorkflowMetadataIsRunning (o : option Metadata) : bool := negb (WorkflowMetadataIsComplete o).

(** ** The client (workflow/client.go) *)

Section Client.
Context {S : Type} `{HS : TaskHub S} `{HL : Lists S}.
(** As in [Clients]: the clock and fresh ids of the call, the state of its context, and
    what the stub makes of an error. *)
Variable now : Z.
Variables newInstanceID newExecutionID : string.
Variable ctxErr : option error.
Variable rpcError : error -> error.
Variable remoteTrace : option TraceContext -> option TraceContext + error.
Variable skipWait : bool.

Definition NewClientWithLogger : TaskHubGrpcClient := NewTaskHubGrpcClient [].
Definition NewClient : TaskHubGrpcClient := NewClientWithLogger.
Definition StartWorker (c : TaskHubGrpcClient) (r : InitResult) : Listener + error := StartWorkItemListener c r.

Definition ScheduleWorkflow (workflow : string) (opts : list (Option CreateInstanceRequest)) (spanContext : option TraceContext)
    : M S error string :=
  grpcScheduleNewWorkflow now newInstanceID newExecutionID ctxErr rpcError remoteTrace skipWait workflow opts spanContext.

(** Metadata of the client behind, converted. *)
Definition converted (m : M S error WorkflowMetadata) : M S error (option Metadata) :=
  meta ← m; mret (workflowMetadataFromProto (Some meta)).

Definition FetchWorkflowMetadata (id : string) (opts : list FetchOption) : M S error (option Metadata) :=
  converted (grpcFetchWorkflowMetadata ctxErr rpcError id opts).
Definition WaitForWorkflowStart (attempts : nat) (done : error) (id : string) (opts : list FetchOption) : M S error (option Metadata) :=
  converted (grpcWaitFor attempts done WaitForInstanceStart id opts).
Definition WaitForWorkflowCompletion (attempts : nat) (done : error) (id : string) (opts : list FetchOption)
    : M S error (option Metadata) :=
  converted (grpcWaitFor attempts done WaitForInstanceCompletion id opts).
Definition TerminateWorkflow (id : string) (opts : list (Option TerminateRequest)) : M S error unit :=
  grpcTerminateWorkflow now ctxErr rpcError id opts.
Definition RaiseEvent (id eventName : string) (opts : list (Option RaiseEventRequest)) : M S error unit :=
  grpcRaiseEvent now ctxErr rpcError id eventName opts.
Definition SuspendWorkflow (id reason : string) (opts : list (Option SuspendRequest)) : M S error unit :=
  grpcSuspendWorkflow now ctxErr rpcError id reason opts.
Definition ResumeWorkflow (id reason : string) (opts : list (Option ResumeRequest)) : M S error unit :=
  grpcResumeWorkflow now ctxErr rpcError id reason opts.
Definition PurgeWorkflowState (id : string) (opts : list (Option PurgeInstancesRequest)) : M S error unit :=
  grpcPurgeWorkflowState ctxErr rpcError id opts.
Definition ListInstanceIDs (opts : list (Option ListInstanceIDsRequest)) : M S error ListInstanceIDsResponse :=
  grpcListInstanceIDs ctxErr rpcError opts.
Definition GetInstanceHistory (id : string) (opts : list (Option GetInstanceHistoryRequest)) : M S error GetInstanceHistoryResponse :=
  grpcGetInstanceHistory ctxErr rpcError id opts.
End Client.
