(* ===== verification/FacadeTheorems.v ===== *)
(** * Correctness of the public package

    Functions registered through the public package are deterministic unless they look at
    what differs between turns; versions registered under the name of their function clash;
    and the public client reads back what it scheduled. *)

From stdpp Require Import base list option strings gmap relations.
From Stdlib Require Import ZArith Lia.
From S2P Require Import Prelude Errors Protos Dedup RuntimeState Propagation Helpers Backend Sqlite SqliteCommit Requests Clients ClientTheorems.
From S2P Require Import TaskRegistry TaskTable TaskProgram TaskMethods TaskExecutor TaskErase TaskLike TaskMachine TaskReplay.
From S2P Require Import PgTables PgConcurrent PgHub Listing Listener Facade.

(** ** Status *)

(** The text of the metadata is the status as the backends store it, and it is complete
    when the client behind says so. *)
Lemma metadata_text md w :
  workflowMetadataFromProto (Some md) = Some w ->
  MetadataString w = ToRuntimeStatusString (md_RuntimeStatus md) /\
  FromRuntimeStatusString (MetadataString w) = md_RuntimeStatus md /\
  WorkflowMetadataIsComplete (Some w) = metadataIsComplete md.
Proof. intros [= <-]. cbn. unfold MetadataString, metadataIsComplete. cbn. by destruct (md_RuntimeStatus md). Qed.

(** ** Determinism *)

Section Determinism.
Context `{HF : Float64} `{HM : Marshaler} `{HR : RangeOrder} `{HC : ProtoCodec}.

Local Abbreviation Registry := (TaskRegistry TaskMethods.Workflow TaskExecutor.Activity).

(** The function asks neither whether it replays nor for execution ids. *)
Fixpoint steady (w : Facade.Workflow) : Prop :=
  match w with
  | FReturn _ _ | FPanic _ => True
  | FSetCustomStatus _ k | FContinueAsNew _ _ k => steady k
  | FGetInput k | FID k | FName k => forall x, steady (k x)
  | FCurrentTimeUTC k => forall x, steady (k x)
  | FCallActivity _ _ k => forall x, steady (k x)
  | FCallChildWorkflow _ _ k => forall x, steady (k x)
  | FCreateTimer _ _ k => forall x, steady (k x)
  | FWaitForExternalEvent _ _ k => forall x, steady (k x)
  | FIsPatched _ k => forall x, steady (k x)
  | FGetPropagatedHistory k => forall x, steady (k x)
  | FScheduleNewWorkflow _ _ k => forall x, steady (k x)
  | FAwait _ _ k => forall x, steady (k x)
  | FIsReplaying _ | FTaskExecutionId _ _ => False
  end.

Lemma steady_oblivious w : steady w -> oblivious (full := true) (wrap w).
Proof.
  assert (forall t, taskOk (full := true) t) as Ht by (intros []; cbn; unfold chainOk; auto).
  induction w; cbn; intros Hs; try done; eauto.
Qed.

(** A registry made by the calls of the public package. *)
Inductive published : Registry -> Prop :=
| pub_new : published NewRegistry
| pub_workflow name w r : steady w -> published r -> published (Facade.AddWorkflowN name w r).1
| pub_versioned c name latest w r : steady w -> published r -> published (Facade.AddVersionedWorkflowN c name latest w r).1
| pub_named literal c latest w r : steady w -> published r -> published (Facade.AddVersionedWorkflow literal c latest w r).1
| pub_activity name a r : published r -> published (Facade.AddActivityN name a r).1.

(** Every workflow of the registry has the property. *)
Record registered (P : TaskMethods.Workflow -> Prop) (r : Registry) : Prop := {
  rg_plain : forall name w, reg_workflows r !! name = Some w -> P w;
  rg_versions : forall c v w, reg_versionedWorkflows r !! c ≫= lookup v = Some w -> P w
}.

Lemma registered_version P c name latest w r :
  P w -> registered P r -> registered P (TaskRegistry.AddVersionedWorkflowN c name latest w r).1.
Proof.
  intros Hw [H1 H2]. unfold TaskRegistry.AddVersionedWorkflowN. case_match; [done |]. split; [done |].
  intros c' v w'. cbn [fst]. rewrite setVersion_lookup. case_decide; [by intros [= <-] | apply H2].
Qed.

Lemma published_registered r : published r -> registered (oblivious (full := true)) r.
Proof.
  induction 1 as [| name w r Hs _ [H1 H2] | c name latest w r Hs _ IH | literal c latest w r Hs _ IH | name a r _ [H1 H2]].
  - split; cbn; intros *; by rewrite lookup_empty.
  - unfold Facade.AddWorkflowN, TaskRegistry.AddWorkflowN. case_match; [done |]. split; cbn; [| done]. intros name' w'.
    destruct (decide (name' = name)) as [-> | Hn]; [rewrite lookup_insert_eq; intros [= <-]; by apply steady_oblivious |].
    rewrite lookup_insert_ne by done. apply H1.
  - by apply registered_version, IH; apply steady_oblivious.
  - by apply registered_version, IH; apply steady_oblivious.
  - unfold Facade.AddActivityN, TaskRegistry.AddActivityN. by case_match.
Qed.

Lemma registered_resolves P r name v w v' : registered P r -> ResolveWorkflow name v r = inl (w, v') -> P w.
Proof.
  intros [H1 H2]. unfold ResolveWorkflow. destruct (reg_workflows r !! name) eqn:E; [intros [= <- <-]; eauto |].
  destruct (reg_versionedWorkflows r !! name) as [versions|] eqn:Ev.
  - destruct (match v with Some _ => _ | None => _ end) as [version|]; [| done].
    destruct (versions !! version) eqn:Ew; [| done]. intros [= <- <-]. apply (H2 name version). by rewrite Ev.
  - destruct v; [done |]. destruct (reg_workflows r !! "*") eqn:Es; [| done]. intros [= <- <-]. eauto.
Qed.

(** Workflows published through the public package: if the functions ask neither whether
    they replay nor for execution ids, the decisions of a turn are determined by the history,
    with patches, retries and versions. *)
Theorem published_workflows_are_deterministic ToUpper errorTypeName errorText r id old1 new1 old2 new2 ph w1 w2 :
  published r -> oneStart (old1 ++ new1) = true -> old2 ++ new2 = old1 ++ new1 ->
  eraseResult (executeWorkflow ToUpper errorTypeName errorText r id old2 new2 ph w2) =
  eraseResult (executeWorkflow ToUpper errorTypeName errorText r id old1 new1 ph w1).
Proof.
  intros Hp%published_registered Ho E. apply (turns_agree ToUpper errorTypeName errorText r true 0 ∅); [| done ..].
  intros name v w v'. by apply registered_resolves.
Qed.

(** ** Versions *)

(** Versions registered by [AddVersionedWorkflow] of the public package are named after the
    function literal in it, not after the function they are: a second version of a workflow
    is always refused, where the registry behind accepts functions of different names. *)
Theorem public_versions_clash literal c w1 w2 latest1 latest2 r :
  let r1 := (Facade.AddVersionedWorkflow literal c latest1 w1 r).1 in
  (exists err, Facade.AddVersionedWorkflow literal c latest2 w2 r1 = (r1, Some err)) /\
  forall full1 full2, GetTaskFunctionName (inr full1) <> GetTaskFunctionName (inr full2) ->
    reg_versionedWorkflows r !! c ≫= lookup (GetTaskFunctionName (inr full2)) = None ->
    let r2 := (TaskRegistry.AddVersionedWorkflow c latest1 full1 (wrap w1) r).1 in
    (TaskRegistry.AddVersionedWorkflow c latest2 full2 (wrap w2) r2).2 = None.
Proof.
  intros r1. split.
  - unfold r1, Facade.AddVersionedWorkflow, TaskRegistry.AddVersionedWorkflow. set (n := GetTaskFunctionName _).
    assert (is_Some (reg_versionedWorkflows (TaskRegistry.AddVersionedWorkflowN c n latest1 (wrap w1) r).1 !! c ≫= lookup n)) as [w Hw].
    { unfold TaskRegistry.AddVersionedWorkflowN. case_match eqn:E; cbn [fst]; [by rewrite E |]. rewrite setVersion_lookup.
      rewrite decide_True by done. eauto. }
    unfold TaskRegistry.AddVersionedWorkflowN at 1. rewrite Hw. eauto.
  - intros full1 full2 Hne Hf r2. unfold r2, TaskRegistry.AddVersionedWorkflow.
    unfold TaskRegistry.AddVersionedWorkflowN at 1.
    assert (reg_versionedWorkflows (TaskRegistry.AddVersionedWorkflowN c (GetTaskFunctionName (inr full1)) latest1 (wrap w1) r).1 !! c
      ≫= lookup (GetTaskFunctionName (inr full2)) = None) as ->; [| done].
    unfold TaskRegistry.AddVersionedWorkflowN. case_match; [done |]. cbn [fst]. rewrite setVersion_lookup.
    by rewrite decide_False by (intros [_ ?]; congruence).
Qed.
End Determinism.

(** ** The client *)

Section Found.
Context {S : Type} `{HSch : Schedules S}.

(** The public client reads back what it scheduled, from a service that does not wait for
    the workflow to start: the metadata is that of the backend, pending and not complete. *)
Theorem public_client_roundtrip now nid xid ctxErr rpcError remoteTrace tc id name input payload st :
  id <> "" -> remoteTrace None = inl tc ->
  MarshalHistoryEvent (startOf now xid id name input tc) = inl payload ->
  hub_wf st -> hub_room st -> ~ hub_taken st id ->
  exists st', Facade.ScheduleWorkflow now nid xid ctxErr rpcError remoteTrace true name
      [Facade.WithInstanceID id; Facade.WithRawInput input] None st = (st', Ok id) /\
    Facade.FetchWorkflowMetadata ctxErr rpcError id [] st' =
      (st', Ok (workflowMetadataFromProto (Some (scheduledMetadata now xid id name input tc)))).
Proof.
  intros Hid Htr Hm Hw Hr Hf.
  destruct (create_free (startOf now xid id name input tc) (startPayload xid id name input tc) (startInstance xid id) payload false st)
    as (st' & Hc & _ & Hg); [done.. |]. cbn in Hg. exists st'. split.
  - unfold Facade.ScheduleWorkflow, grpcScheduleNewWorkflow. apply String.eqb_neq in Hid. cbn. rewrite Hid. unfold checked. cbn.
    unfold rpc, StartInstance. cbn. rewrite Htr. unfold startOf, startPayload, startInstance in Hc. unfold startEventOf, newEvent. cbn. by rewrite Hc.
  - unfold Facade.FetchWorkflowMetadata, converted, grpcFetchWorkflowMetadata, checked. cbn. unfold mbind, M_bind, rpc, GetInstance. cbn. rewrite Hg.
    by rewrite (metadata_over_wire id) by (apply pending_id || apply pending_completed || intros; apply pending_parent).
Qed.
End Found.

Section Listed.
Context `{HC : ProtoCodec}.
Variable ord : forall R, list R -> list R.

(** Listing the instances is complete on both backends: whatever page size and continuation
    token are asked for, one answer has the id of every instance, each once, and no token;
    nothing is changed. *)
Theorem public_listing_is_whole ctxErr rpcError opts db st :
  db_wf db ->
  (exists ids, Facade.ListInstanceIDs (HL := sqliteLists) ctxErr rpcError opts (Some db) =
      (Some db, Ok (mkListInstanceIDsResponse ids None)) /\ NoDup ids /\
    forall id, id ∈ ids <-> exists r, r ∈ Instances db /\ ir_InstanceID r = id) /\
  (exists ids, Facade.ListInstanceIDs (HL := pgLists ord) ctxErr rpcError opts st =
      (st, Ok (mkListInstanceIDsResponse ids None)) /\ NoDup ids /\
    forall id, id ∈ ids <-> exists n r, st.2 !! KInstance id = Some (RInstance n r)).
Proof.
  intros Hw. split.
  - destruct (grpc_list_complete (HL := sqliteLists) ctxErr rpcError opts (Some db)) as (ids & H & Hn & Hi); [by exists db |].
    exists ids. split_and!; [done | done |]. intros id. rewrite Hi. cbn. split.
    + intros (db' & r & [= <-] & Hr). eauto.
    + intros (r & Hr). eauto.
  - by apply (grpc_list_complete (HL := pgLists ord) (HLok := pgListsOk ord) ctxErr rpcError opts st).
Qed.
End Listed.
