(* ===== verification/Hub.v ===== *)
(** * The task hub and its workers together (backend/taskhub.go, worker.go)

    The hub of Worker.v with the two workers it owns: starting, [Shutdown] and
    [ForceShutdown] as calls that wait, the goroutine that finishes a shutdown, and the
    [StopAndDrain] and [ForceStop] calls these make.  A worker that is started again is a
    new incarnation with its own context and its own [drainDone] channel; each shutdown
    has its own [shutdownDone] channel. *)

From stdpp Require Import base list option strings gmap relations.
From Stdlib Require Import ZArith Lia.
From S2P Require Import Prelude Errors Worker.

Definition ErrTaskHubForceShutdownUnsupported : error := errorNew "task hub worker does not support forced shutdown".

#[global] Instance HubCall_eq_dec : EqDecision HubCall.
Proof. solve_decision. Defined.

(** ** A worker and its incarnations *)

Record Wk := mkWk {
  wk_st : WorkerSt;
  wk_inc : nat
}.

(** [Start], which does nothing while the worker runs. *)
Definition startWk (k : Wk) : Wk :=
  let s := wk_st k in
  if w_running s then k
  else mkWk (mkWorkerSt true false PollAcquire (w_slots s) (w_inflight s) 0 (w_dispatched s)) (S (wk_inc k)).

(** [cancel()] of incarnation [g]. *)
Definition cancelWk (g : nat) (k : Wk) : Wk :=
  let s := wk_st k in
  if bool_decide (g = wk_inc k) && w_running s
  then mkWk (mkWorkerSt true true (w_poll s) (w_slots s) (w_inflight s) (w_retryAttempt s) (w_dispatched s)) (wk_inc k)
  else k.

(** [drainDone] of incarnation [g] is closed. *)
Definition drainDone (g : nat) (k : Wk) : Prop := (g < wk_inc k)%nat \/ (g = wk_inc k /\ w_running (wk_st k) = false).

(** Where a call of [StopAndDrain] or [ForceStop] is; both have the same body. *)
Inductive Stop :=
| StCall
| StCancel (g : nat)
| StWait (g : nat)
| StRet (err : option error).

(** [ctxErr]: the error of the caller's context, which can end at any time; [None] for a
    context that never ends. *)
Inductive stop_step (ctxErr : option error) : Wk -> Stop -> Wk -> Stop -> Prop :=
| st_idle k : w_running (wk_st k) = false -> stop_step ctxErr k StCall k (StRet None)
| st_call k : w_running (wk_st k) = true -> stop_step ctxErr k StCall k (StCancel (wk_inc k))
| st_cancel k g : stop_step ctxErr k (StCancel g) (cancelWk g k) (StWait g)
| st_drained k g : drainDone g k -> stop_step ctxErr k (StWait g) k (StRet None)
| st_ctx k g err : ctxErr = Some err -> stop_step ctxErr k (StWait g) k (StRet (Some err)).

(** ** The hub *)

(** [finishShutdown]: the two drains in parallel, then the stop of the backend. *)
Inductive Finish :=
| FDrain (workflow activity : Stop)
| FStop.

(** A call of [Shutdown] or [ForceShutdown]; [n] is the shutdown it waits for. *)
Inductive Caller :=
| CForceWorkflow (n : nat) (p : Stop)
| CForceActivity (n : nat) (p : Stop)
| CWait (n : nat)
| CRead (n : nat)
| CReturned (err : option error).

(** [sy_up]: the backend was started and not asked to stop since. *)
Record System := mkSystem {
  sy_hub : HubSt;
  sy_round : nat;
  sy_up : bool;
  sy_workflow : Wk;
  sy_activity : Wk;
  sy_finish : option Finish;
  sy_calls : gmap nat Caller
}.

Definition set_workflow (k : Wk) (s : System) : System :=
  mkSystem (sy_hub s) (sy_round s) (sy_up s) k (sy_activity s) (sy_finish s) (sy_calls s).
Definition set_activity (k : Wk) (s : System) : System :=
  mkSystem (sy_hub s) (sy_round s) (sy_up s) (sy_workflow s) k (sy_finish s) (sy_calls s).
Definition set_finish (f : option Finish) (s : System) : System :=
  mkSystem (sy_hub s) (sy_round s) (sy_up s) (sy_workflow s) (sy_activity s) f (sy_calls s).
Definition set_call (t : nat) (c : Caller) (s : System) : System :=
  mkSystem (sy_hub s) (sy_round s) (sy_up s) (sy_workflow s) (sy_activity s) (sy_finish s) (<[t := c]> (sy_calls s)).
Definition set_up (up : bool) (s : System) : System :=
  mkSystem (sy_hub s) (sy_round s) up (sy_workflow s) (sy_activity s) (sy_finish s) (sy_calls s).

Definition initialSystem : System :=
  mkSystem NewTaskHubWorker 0 false (mkWk initialWorker 0) (mkWk initialWorker 0) None ∅.

(** [Start] and [StartExisting] with the calls [hubStart] made. *)
Definition afterStart (h : HubSt) (calls : list HubCall) (s : System) : System :=
  if bool_decide (HWorkersStart ∈ calls)
  then mkSystem h (sy_round s) true (startWk (sy_workflow s)) (startWk (sy_activity s)) (sy_finish s) (sy_calls s)
  else mkSystem h (sy_round s) (sy_up s) (sy_workflow s) (sy_activity s) (sy_finish s) (sy_calls s).

(** Ask for a shutdown, once: the flags, a new channel, and the goroutine. *)
Definition requestShutdown (s : System) : System :=
  if h_stopping (sy_hub s) then s
  else mkSystem (hubRequestShutdown (sy_hub s)) (S (sy_round s)) (sy_up s) (sy_workflow s) (sy_activity s)
         (Some (FDrain StCall StCall)) (sy_calls s).

Definition Shutdown (t : nat) (s : System) : System :=
  if negb (h_started (sy_hub s)) then set_call t (CReturned None) s
  else let s := requestShutdown s in set_call t (CWait (sy_round s)) s.

(** [forceable]: both workers implement [ForceStoppableTaskWorker]. *)
Definition ForceShutdown (forceable : bool) (t : nat) (s : System) : System :=
  if negb (h_started (sy_hub s)) then set_call t (CReturned (h_shutdownErr (sy_hub s))) s
  else
    let s := requestShutdown s in
    set_call t (if forceable then CForceWorkflow (sy_round s) StCall
                else CReturned (Some ErrTaskHubForceShutdownUnsupported)) s.

(** [shutdownDone] number [n] is closed. *)
Definition shutdownDone (n : nat) (s : System) : Prop :=
  (n < sy_round s)%nat \/ (n = sy_round s /\ h_done (sy_hub s) = Some true).

Section Steps.
Variables capWorkflow capActivity : nat.
Variable forceable : bool.

Inductive sys_step : System -> System -> Prop :=
| sys_start s create c o r h' calls err :
    hubStart create c o r (sy_hub s) = (h', calls, err) -> sys_step s (afterStart h' calls s)
| sys_workflow s w : live_step capWorkflow (wk_st (sy_workflow s)) w -> sys_step s (set_workflow (mkWk w (wk_inc (sy_workflow s))) s)
| sys_activity s w : live_step capActivity (wk_st (sy_activity s)) w -> sys_step s (set_activity (mkWk w (wk_inc (sy_activity s))) s)
(* the calls *)
| sys_Shutdown s t : sy_calls s !! t = None -> sys_step s (Shutdown t s)
| sys_ForceShutdown s t : sy_calls s !! t = None -> sys_step s (ForceShutdown forceable t s)
| sys_force_workflow s t n p k p' :
    sy_calls s !! t = Some (CForceWorkflow n p) -> stop_step (Some ContextCanceled) (sy_workflow s) p k p' ->
    sys_step s (set_call t (CForceWorkflow n p') (set_workflow k s))
| sys_forced_workflow s t n err :
    sy_calls s !! t = Some (CForceWorkflow n (StRet err)) ->
    sys_step s (set_call t (match err with None => CForceActivity n StCall | Some _ => CReturned err end) s)
| sys_force_activity s t n p k p' :
    sy_calls s !! t = Some (CForceActivity n p) -> stop_step (Some ContextCanceled) (sy_activity s) p k p' ->
    sys_step s (set_call t (CForceActivity n p') (set_activity k s))
| sys_forced_activity s t n err :
    sy_calls s !! t = Some (CForceActivity n (StRet err)) ->
    sys_step s (set_call t (match err with None => CWait n | Some _ => CReturned err end) s)
| sys_waited s t n : sy_calls s !! t = Some (CWait n) -> shutdownDone n s -> sys_step s (set_call t (CRead n) s)
| sys_wait_ctx s t n : sy_calls s !! t = Some (CWait n) -> sys_step s (set_call t (CReturned (Some ContextCanceled)) s)
| sys_read s t n : sy_calls s !! t = Some (CRead n) -> sys_step s (set_call t (CReturned (h_shutdownErr (sy_hub s))) s)
(* finishShutdown *)
| sys_drain_workflow s p q k p' :
    sy_finish s = Some (FDrain p q) -> stop_step None (sy_workflow s) p k p' ->
    sys_step s (set_finish (Some (FDrain p' q)) (set_workflow k s))
| sys_drain_activity s p q k q' :
    sy_finish s = Some (FDrain p q) -> stop_step None (sy_activity s) q k q' ->
    sys_step s (set_finish (Some (FDrain p q')) (set_activity k s))
| sys_drain_failed s we ae :
    sy_finish s = Some (FDrain (StRet we) (StRet ae)) -> we <> None \/ ae <> None ->
    sys_step s (mkSystem (hubFinishShutdown we ae None (sy_hub s)).1 (sy_round s) (sy_up s) (sy_workflow s) (sy_activity s) None (sy_calls s))
| sys_stop s :
    sy_finish s = Some (FDrain (StRet None) (StRet None)) -> sys_step s (set_up false (set_finish (Some FStop) s))
| sys_stopped s stopErr :
    sy_finish s = Some FStop ->
    sys_step s (mkSystem (hubFinishShutdown None None stopErr (sy_hub s)).1 (sy_round s) (sy_up s) (sy_workflow s) (sy_activity s) None (sy_calls s)).

Definition sys_reachable (s : System) : Prop := rtc sys_step initialSystem s.
End Steps.

(** ** What holds in every state *)

Section Invariant.
Variables capWorkflow capActivity : nat.
Variable forceable : bool.
Abbreviation step := (sys_step capWorkflow capActivity forceable).

(** A drain by [finishShutdown]: no restart can come between, so it is about the current
    incarnation, and it cannot fail. *)
Definition drain_ok (k : Wk) (p : Stop) : Prop :=
  match p with
  | StCall => True
  | StCancel g => g = wk_inc k
  | StWait g => g = wk_inc k /\ (w_running (wk_st k) = true -> w_cancelled (wk_st k) = true)
  | StRet err => err = None /\ w_running (wk_st k) = false
  end.

(** A [ForceStop] may be about an earlier incarnation. *)
Definition force_ok (k : Wk) (p : Stop) : Prop :=
  match p with StCancel g | StWait g => (g <= wk_inc k)%nat | _ => True end.

Definition caller_ok (s : System) (c : Caller) : Prop :=
  match c with
  | CForceWorkflow n p => (n <= sy_round s)%nat /\ force_ok (sy_workflow s) p
  | CForceActivity n p => (n <= sy_round s)%nat /\ force_ok (sy_activity s) p
  | CWait n => (n <= sy_round s)%nat
  | CRead n => shutdownDone n s
  | CReturned _ => True
  end.

Definition finish_ok (s : System) : Prop :=
  match sy_finish s with
  | Some (FDrain p q) => sy_up s = true /\ drain_ok (sy_workflow s) p /\ drain_ok (sy_activity s) q
  | Some FStop => sy_up s = false
  | None => False
  end.

Record sys_inv (s : System) : Prop := {
  si_workflow : worker_inv capWorkflow (wk_st (sy_workflow s));
  si_activity : worker_inv capActivity (wk_st (sy_activity s));
  si_up : sy_up s = false -> w_running (wk_st (sy_workflow s)) = false /\ w_running (wk_st (sy_activity s)) = false;
  si_down : h_started (sy_hub s) = false -> h_stopping (sy_hub s) = false /\ sy_up s = false /\
    (sy_round s = 0%nat \/ h_done (sy_hub s) = Some true);
  si_serving : h_started (sy_hub s) = true -> h_stopping (sy_hub s) = false ->
    sy_up s = true /\ (sy_round s = 0%nat \/ h_done (sy_hub s) = Some true);
  si_stopping : if h_stopping (sy_hub s) then h_started (sy_hub s) = true /\ finish_ok s else sy_finish s = None;
  si_calls : map_Forall (fun _ => caller_ok s) (sy_calls s)
}.

(** The workers under the steps of the hub. *)
Lemma start_inv cap k : worker_inv cap (wk_st k) -> worker_inv cap (wk_st (startWk k)).
Proof.
  intros Hi. unfold startWk. destruct (w_running (wk_st k)) eqn:Hr; [done |]. eapply worker_step_inv; [| done].
  by apply ws_start.
Qed.

Lemma start_inc k : (wk_inc k <= wk_inc (startWk k))%nat.
Proof. unfold startWk. case_match; cbn; lia. Qed.

Lemma cancel_cases g k :
  cancelWk g k = k /\ (g <> wk_inc k \/ w_running (wk_st k) = false) \/
  g = wk_inc k /\ w_running (wk_st k) = true /\ (forall cap, live_step cap (wk_st k) (wk_st (cancelWk g k))) /\
    wk_inc (cancelWk g k) = wk_inc k /\ w_running (wk_st (cancelWk g k)) = true /\ w_cancelled (wk_st (cancelWk g k)) = true.
Proof.
  unfold cancelWk. case_bool_decide as Hg; cbn [andb]; [| by left; auto]. destruct (w_running (wk_st k)) eqn:Hr; [| by left; auto].
  right. split_and!; try done. intros cap. split; [done |]. by apply ws_cancel.
Qed.

Lemma cancel_inc g k : wk_inc (cancelWk g k) = wk_inc k.
Proof. destruct (cancel_cases g k) as [[-> _] | (_ & _ & _ & H & _)]; done. Qed.

Lemma cancel_running g k : w_running (wk_st (cancelWk g k)) = w_running (wk_st k).
Proof. destruct (cancel_cases g k) as [[-> _] | (_ & Hr & _ & _ & Hr' & _)]; [done | congruence]. Qed.

Lemma cancel_cancelled g k : w_cancelled (wk_st k) = true -> w_cancelled (wk_st (cancelWk g k)) = true.
Proof. destruct (cancel_cases g k) as [[-> _] | (_ & _ & _ & _ & _ & H)]; done. Qed.

Lemma cancel_inv cap g k : worker_inv cap (wk_st k) -> worker_inv cap (wk_st (cancelWk g k)).
Proof.
  intros Hi. destruct (cancel_cases g k) as [[-> _] | (_ & _ & Hl & _)]; [done |]. destruct (Hl cap) as [_ Hs]. by eapply worker_step_inv.
Qed.

(** A call that stops a worker only ever cancels it. *)
Lemma stop_worker e k p k' p' : stop_step e k p k' p' -> k' = k \/ exists g, p = StCancel g /\ k' = cancelWk g k.
Proof. destruct 1; eauto. Qed.

Lemma stop_force_ok e k p k' p' : stop_step e k p k' p' -> force_ok k p -> force_ok k' p'.
Proof. destruct 1; cbn; rewrite ?cancel_inc; auto; lia. Qed.

Lemma stop_drain_ok k p k' p' : stop_step None k p k' p' -> drain_ok k p -> drain_ok k' p'.
Proof.
  destruct 1 as [k Hr | k Hr | k g | k g Hd | k g err He]; cbn; auto.
  - intros ->. split; [by rewrite cancel_inc |]. rewrite cancel_running. intros Hr.
    destruct (cancel_cases (wk_inc k) k) as [[_ [? | ?]] | (_ & _ & _ & _ & _ & ?)]; congruence.
  - intros [-> _]. split; [done |]. destruct Hd as [Hd | [_ Hd]]; [lia | done].
  - done.
Qed.

(** What another's cancel, or a step of a running worker, leaves of a drain. *)
Lemma cancel_drain_ok g k p : drain_ok k p -> drain_ok (cancelWk g k) p.
Proof.
  destruct p; cbn; rewrite ?cancel_inc, ?cancel_running; auto.
  intros [-> Hc]. split; [done |]. intros Hr. by apply cancel_cancelled, Hc.
Qed.

Lemma live_cancelled cap w w' : live_step cap w w' -> w_running w' = true -> w_cancelled w = true -> w_cancelled w' = true.
Proof. intros [Hr Hs]. by destruct Hs; cbn in *; try congruence. Qed.

Lemma live_drain_ok cap k w p : live_step cap (wk_st k) w -> drain_ok k p -> drain_ok (mkWk w (wk_inc k)) p.
Proof.
  intros Hl. destruct p; cbn; auto.
  - intros [-> Hc]. split; [done |]. intros Hr. eapply live_cancelled; [exact Hl | done |]. apply Hc, Hl.
  - intros [-> Hr]. destruct Hl. congruence.
Qed.

Lemma done_mono n s s' :
  (sy_round s <= sy_round s')%nat -> (sy_round s' = sy_round s -> h_done (sy_hub s) = Some true -> h_done (sy_hub s') = Some true) ->
  shutdownDone n s -> shutdownDone n s'.
Proof. unfold shutdownDone. intros Hr Hd [H | [-> H]]; [left; lia |]. destruct (decide (sy_round s' = sy_round s)); [right; auto | left; lia]. Qed.

Lemma caller_mono c s s' :
  (sy_round s <= sy_round s')%nat -> (sy_round s' = sy_round s -> h_done (sy_hub s) = Some true -> h_done (sy_hub s') = Some true) ->
  (wk_inc (sy_workflow s) <= wk_inc (sy_workflow s'))%nat -> (wk_inc (sy_activity s) <= wk_inc (sy_activity s'))%nat ->
  caller_ok s c -> caller_ok s' c.
Proof.
  intros Hr Hd Hw Ha. destruct c as [n p | n p | n | n |]; cbn; [| | lia | by apply done_mono | done].
  - intros [? Hp]. split; [lia |]. destruct p; cbn in *; lia.
  - intros [? Hp]. split; [lia |]. destruct p; cbn in *; lia.
Qed.

(** What a step may make of a worker that was started before. *)
Record evolves (cap : nat) (k k' : Wk) : Prop := {
  ev_inv : worker_inv cap (wk_st k) -> worker_inv cap (wk_st k');
  ev_inc : wk_inc k' = wk_inc k;
  ev_idle : w_running (wk_st k) = false -> w_running (wk_st k') = false;
  ev_drain : forall p, drain_ok k p -> drain_ok k' p
}.

Lemma live_evolves cap k w : live_step cap (wk_st k) w -> evolves cap k (mkWk w (wk_inc k)).
Proof.
  intros Hl. split; cbn; [| done | | intros p; by apply (live_drain_ok cap)].
  - intros Hi. destruct Hl as [_ Hs]. by eapply worker_step_inv.
  - destruct Hl. congruence.
Qed.

Lemma stop_evolves cap e k p k' p' : stop_step e k p k' p' -> evolves cap k k'.
Proof.
  intros [-> | (g & _ & ->)]%stop_worker; [by split |].
  split; [apply cancel_inv | apply cancel_inc | by rewrite cancel_running | apply cancel_drain_ok].
Qed.

Lemma inv_workflow k s : evolves capWorkflow (sy_workflow s) k -> sys_inv s -> sys_inv (set_workflow k s).
Proof.
  intros [E1 E2 E3 E4] [I1 I2 I3 I4 I5 I6 I7]. split; cbn; auto.
  - intros Hu. destruct (I3 Hu). auto.
  - destruct (h_stopping (sy_hub s)); [| done]. destruct I6 as [Hs Hf]. split; [done |]. unfold finish_ok in *. cbn.
    destruct (sy_finish s) as [[p q |]|]; naive_solver.
  - eapply map_Forall_impl; [exact I7 |]. intros ? c. apply caller_mono; cbn; auto with lia.
Qed.

Lemma inv_activity k s : evolves capActivity (sy_activity s) k -> sys_inv s -> sys_inv (set_activity k s).
Proof.
  intros [E1 E2 E3 E4] [I1 I2 I3 I4 I5 I6 I7]. split; cbn; auto.
  - intros Hu. destruct (I3 Hu). auto.
  - destruct (h_stopping (sy_hub s)); [| done]. destruct I6 as [Hs Hf]. split; [done |]. unfold finish_ok in *. cbn.
    destruct (sy_finish s) as [[p q |]|]; naive_solver.
  - eapply map_Forall_impl; [exact I7 |]. intros ? c. apply caller_mono; cbn; auto with lia.
Qed.

Lemma inv_call t c s : caller_ok s c -> sys_inv s -> sys_inv (set_call t c s).
Proof. intros Hc [I1 I2 I3 I4 I5 I6 I7]. split; cbn; auto. by apply map_Forall_insert_2. Qed.

Lemma inv_finishing f s : h_stopping (sy_hub s) = true -> finish_ok (set_finish (Some f) s) -> sys_inv s -> sys_inv (set_finish (Some f) s).
Proof. intros Hs Hf [I1 I2 I3 I4 I5 I6 I7]. split; cbn; auto. rewrite Hs in *. by destruct I6. Qed.

(** A shutdown is finished while the hub is stopping. *)
Lemma finish_stopping s f : sys_inv s -> sy_finish s = Some f -> h_stopping (sy_hub s) = true /\ h_started (sy_hub s) = true /\ finish_ok s.
Proof. intros Hi Hf. pose proof (si_stopping s Hi) as H. destruct (h_stopping (sy_hub s)); [tauto | congruence]. Qed.

(** A start either changes nothing or brings the workers up. *)
Lemma hubStart_cases create c o r h h' calls err :
  hubStart create c o r h = (h', calls, err) ->
  (h' = h /\ HWorkersStart ∉ calls) \/
  (h_stopping h = false /\ h_started h = false /\ h' = mkHubSt true false (h_done h) (h_shutdownErr h) (h_finishing h) /\ HWorkersStart ∈ calls).
Proof.
  unfold hubStart. destruct (h_stopping h); [intros [= <- <- _]; left; set_solver |]. destruct (h_started h); [intros [= <- <- _]; left; set_solver |].
  destruct create, c as [e|], o as [[e'|]|], r as [e''|]; try case_bool_decide; intros [= <- <- _]; set_solver.
Qed.

Lemma inv_start s create c o r h' calls err :
  hubStart create c o r (sy_hub s) = (h', calls, err) -> sys_inv s -> sys_inv (afterStart h' calls s).
Proof.
  intros [[-> Hn] | (Hp & Hs & -> & Hin)]%hubStart_cases Hi; unfold afterStart.
  - rewrite bool_decide_eq_false_2 by done. by destruct s.
  - rewrite bool_decide_eq_true_2 by done. destruct Hi as [I1 I2 I3 I4 I5 I6 I7]. destruct (I4 Hs) as (_ & Hu & Hd). rewrite Hp in I6.
    split; cbn; auto using start_inv; try done.
    eapply map_Forall_impl; [exact I7 |]. intros ? x. apply caller_mono; cbn; auto using start_inc.
Qed.

Lemma inv_request s : h_started (sy_hub s) = true -> sys_inv s -> sys_inv (requestShutdown s).
Proof.
  intros Hs Hi. unfold requestShutdown. destruct (h_stopping (sy_hub s)) eqn:Hp; [done |]. destruct Hi as [I1 I2 I3 I4 I5 I6 I7].
  unfold hubRequestShutdown. rewrite Hs, Hp. cbn. destruct (I5 Hs Hp) as [Hu _]. split; cbn; try done.
  eapply map_Forall_impl; [exact I7 |]. intros ? c. apply caller_mono; cbn; auto with lia.
Qed.

Lemma sys_inv_step s s' : step s s' -> sys_inv s -> sys_inv s'.
Proof.
  intros Hst Hi. destruct Hst as [s create c o r h' calls err Hh | s w Hl | s w Hl | s t Ht | s t Ht | s t n p k p' Ht Hp | s t n err Ht
    | s t n p k p' Ht Hp | s t n err Ht | s t n Ht Hd | s t n Ht | s t n Ht | s p q k p' Hf Hp | s p q k q' Hf Hp | s we ae Hf He | s Hf | s stopErr Hf];
    try (pose proof (si_calls s Hi _ _ Ht) as Hc; cbn in Hc).
  - by eapply inv_start.
  - apply inv_workflow; [by apply live_evolves | done].
  - apply inv_activity; [by apply live_evolves | done].
  - unfold Shutdown. destruct (h_started (sy_hub s)) eqn:Hs; cbn [negb]; apply inv_call; cbn; auto. by apply inv_request.
  - unfold ForceShutdown. destruct (h_started (sy_hub s)) eqn:Hs; cbn [negb]; apply inv_call; cbn; auto; [by destruct forceable | by apply inv_request].
  - destruct Hc as [Hn Hc]. apply inv_call; [split; [done | by eapply stop_force_ok] |]. apply inv_workflow; [by eapply stop_evolves | done].
  - apply inv_call; [| done]. by destruct err; cbn; naive_solver.
  - destruct Hc as [Hn Hc]. apply inv_call; [split; [done | by eapply stop_force_ok] |]. apply inv_activity; [by eapply stop_evolves | done].
  - apply inv_call; [| done]. by destruct err; cbn; naive_solver.
  - by apply inv_call.
  - by apply inv_call.
  - by apply inv_call.
  - destruct (finish_stopping s _ Hi Hf) as (Hs & _ & Hok). unfold finish_ok in Hok. rewrite Hf in Hok. destruct Hok as (Hu & H1 & H2).
    apply inv_finishing; [done | |].
    + unfold finish_ok. cbn. split_and!; [done | by eapply stop_drain_ok | done].
    + apply inv_workflow; [by eapply stop_evolves | done].
  - destruct (finish_stopping s _ Hi Hf) as (Hs & _ & Hok). unfold finish_ok in Hok. rewrite Hf in Hok. destruct Hok as (Hu & H1 & H2).
    apply inv_finishing; [done | |].
    + unfold finish_ok. cbn. split_and!; [done | done | by eapply stop_drain_ok].
    + apply inv_activity; [by eapply stop_evolves | done].
  - destruct (finish_stopping s _ Hi Hf) as (_ & _ & Hok). unfold finish_ok in Hok. rewrite Hf in Hok. cbn in Hok. naive_solver.
  - destruct (finish_stopping s _ Hi Hf) as (Hs & Hr & Hok). unfold finish_ok in Hok. rewrite Hf in Hok. cbn in Hok.
    destruct Hi as [I1 I2 I3 I4 I5 I6 I7]. split; cbn; try done; rewrite ?Hs, ?Hr; try done. tauto.
  - destruct (finish_stopping s _ Hi Hf) as (Hs & Hr & Hok). unfold finish_ok in Hok. rewrite Hf in Hok.
    destruct Hi as [I1 I2 I3 I4 I5 I6 I7]. split; cbn; try done; [auto |]. eapply map_Forall_impl; [exact I7 |]. intros ? c. by apply caller_mono.
Qed.

Lemma sys_inv_start : sys_inv initialSystem.
Proof. split; [apply worker_reachable_inv, rtc_refl | apply worker_reachable_inv, rtc_refl | | | | | apply map_Forall_empty]; cbn; auto; done. Qed.

Lemma sys_reachable_inv s : sys_reachable capWorkflow capActivity forceable s -> sys_inv s.
Proof. revert s. apply rtc_ind_r; [apply sys_inv_start | by eauto using sys_inv_step]. Qed.

(** ** A shutdown comes to its end *)

(** A drain and its worker. *)
Definition pair_step (cap : nat) (x y : Wk * Stop) : Prop :=
  stop_step None x.1 x.2 y.1 y.2 \/ exists w, live_step cap (wk_st x.1) w /\ y = (mkWk w (wk_inc x.1), x.2).

Lemma live_pairs cap k p w : rtc (live_step cap) (wk_st k) w -> rtc (pair_step cap) (k, p) (mkWk w (wk_inc k), p).
Proof.
  remember (wk_st k) as w0 eqn:Hw. intros Hr. revert k Hw. induction Hr as [w | w w1 w2 Hs _ IH]; intros k ->.
  - by destruct k.
  - eapply rtc_l; [right; eexists; split; [exact Hs | done] |]. by apply (IH (mkWk w1 (wk_inc k))).
Qed.

Lemma drain_ends cap k p :
  worker_inv cap (wk_st k) -> drain_ok k p ->
  exists k', rtc (pair_step cap) (k, p) (k', StRet None) /\ w_dispatched (wk_st k') = w_dispatched (wk_st k).
Proof.
  assert (forall k, worker_inv cap (wk_st k) -> drain_ok k (StWait (wk_inc k)) ->
    exists k', rtc (pair_step cap) (k, StWait (wk_inc k)) (k', StRet None) /\ w_dispatched (wk_st k') = w_dispatched (wk_st k)) as Hwait.
  { clear k p. intros k Hi [_ Hc]. destruct (w_running (wk_st k)) eqn:Hr.
    - destruct (cancelled_drains cap (wk_st k) Hi Hr (Hc eq_refl)) as (w & Hw & Hn & Hd). exists (mkWk w (wk_inc k)). split; [| done].
      etrans; [by apply (live_pairs cap k) |]. apply rtc_once. left. apply st_drained. by right.
    - exists k. split; [| done]. apply rtc_once. left. apply st_drained. by right. }
  assert (forall k, worker_inv cap (wk_st k) ->
    exists k', rtc (pair_step cap) (k, StCancel (wk_inc k)) (k', StRet None) /\ w_dispatched (wk_st k') = w_dispatched (wk_st k)) as Hcancel.
  { clear k p. intros k Hi. assert (drain_ok (cancelWk (wk_inc k) k) (StWait (wk_inc k))) as Hok by (by eapply stop_drain_ok; [apply st_cancel |]).
    destruct (Hwait (cancelWk (wk_inc k) k)) as (k' & Hr & Hd); [by apply cancel_inv | by rewrite cancel_inc |]. rewrite cancel_inc in Hr.
    exists k'. split; [eapply (rtc_l _ _ (cancelWk (wk_inc k) k, StWait (wk_inc k))); [left; apply st_cancel | done] |]. rewrite Hd. unfold cancelWk. by case_match. }
  intros Hi Hok. destruct p as [| g | g | err]; cbn in Hok.
  - destruct (w_running (wk_st k)) eqn:Hr.
    + destruct (Hcancel k Hi) as (k' & Hk & Hd). exists k'. split; [| done]. eapply (rtc_l _ _ (k, StCancel (wk_inc k))); [left; by apply st_call | done].
    + exists k. split; [| done]. apply rtc_once. left. by apply st_idle.
  - subst g. by apply Hcancel.
  - destruct Hok as [-> Hc]. by apply Hwait.
  - destruct Hok as [-> _]. by exists k.
Qed.

Lemma lift_workflow x y s q :
  rtc (pair_step capWorkflow) x y -> sy_workflow s = x.1 -> sy_finish s = Some (FDrain x.2 q) ->
  rtc step s (set_finish (Some (FDrain y.2 q)) (set_workflow y.1 s)).
Proof.
  intros Hr. revert s. induction Hr as [x | x z y Hxz _ IH]; intros s Hk Hf; [rewrite <- Hk, <- Hf; by destruct s |].
  destruct Hxz as [Hst | (w & Hl & ->)]; rewrite <- Hk in *.
  - eapply rtc_l; [by eapply sys_drain_workflow |]. by apply (IH (set_finish (Some (FDrain z.2 q)) (set_workflow z.1 s))).
  - eapply rtc_l; [by eapply sys_workflow |]. by apply (IH (set_workflow (mkWk w (wk_inc (sy_workflow s))) s)).
Qed.

Lemma lift_activity x y s p :
  rtc (pair_step capActivity) x y -> sy_activity s = x.1 -> sy_finish s = Some (FDrain p x.2) ->
  rtc step s (set_finish (Some (FDrain p y.2)) (set_activity y.1 s)).
Proof.
  intros Hr. revert s. induction Hr as [x | x z y Hxz _ IH]; intros s Hk Hf; [rewrite <- Hk, <- Hf; by destruct s |].
  destruct Hxz as [Hst | (w & Hl & ->)]; rewrite <- Hk in *.
  - eapply rtc_l; [by eapply sys_drain_activity |]. by apply (IH (set_finish (Some (FDrain p z.2)) (set_activity z.1 s))).
  - eapply rtc_l; [by eapply sys_activity |]. by apply (IH (set_activity (mkWk w (wk_inc (sy_activity s))) s)).
Qed.

(** The hub is down, after a shutdown, and has handed out nothing since [s]. *)
Record shutFrom (s s' : System) : Prop := {
  sh_down : h_started (sy_hub s') = false;
  sh_up : sy_up s' = false;
  sh_done : h_done (sy_hub s') = Some true;
  sh_workflow : w_dispatched (wk_st (sy_workflow s')) = w_dispatched (wk_st (sy_workflow s));
  sh_activity : w_dispatched (wk_st (sy_activity s')) = w_dispatched (wk_st (sy_activity s))
}.

Lemma stopping_ends s : sys_inv s -> h_stopping (sy_hub s) = true -> exists s', rtc step s s' /\ shutFrom s s'.
Proof.
  intros Hi Hs. pose proof (si_stopping s Hi) as Hf. rewrite Hs in Hf. destruct Hf as [_ Hf]. unfold finish_ok in Hf.
  destruct (sy_finish s) as [[p q |]|] eqn:Ef; [| | done].
  - destruct Hf as (Hu & Hp & Hq).
    destruct (drain_ends _ _ _ (si_workflow s Hi) Hp) as (k1 & R1 & D1). destruct (drain_ends _ _ _ (si_activity s Hi) Hq) as (k2 & R2 & D2).
    eexists. split.
    + etrans; [eapply (lift_workflow _ _ s q R1 eq_refl Ef) |]. etrans; [eapply (lift_activity _ _ _ (StRet None) R2); reflexivity |].
      eapply rtc_l; [by apply sys_stop |]. apply rtc_once. by apply (sys_stopped _ _ _ _ None).
    + by split.
  - eexists. split; [apply rtc_once; by apply (sys_stopped _ _ _ _ None) |]. by split.
Qed.

(** A [ForceStop] of a worker that does not run returns. *)
Lemma forced_ends k p : w_running (wk_st k) = false -> force_ok k p ->
  exists err, rtc (fun x y => stop_step (Some ContextCanceled) k x k y) p (StRet err).
Proof.
  intros Hr Hp. assert (forall g, (g <= wk_inc k)%nat -> stop_step (Some ContextCanceled) k (StWait g) k (StRet None)) as Hw.
  { intros g Hg. apply st_drained. destruct (decide (g = wk_inc k)); [by right | left; lia]. }
  destruct p as [| g | g | err]; cbn in Hp.
  - exists None. apply rtc_once. by apply st_idle.
  - exists None. eapply rtc_l; [| by apply rtc_once, Hw]. assert (cancelWk g k = k) as Hk.
    { destruct (cancel_cases g k) as [[Hk _] | (_ & Hr' & _)]; [done | congruence]. }
    pose proof (st_cancel (Some ContextCanceled) k g) as Hst. by rewrite Hk in Hst.
  - exists None. by apply rtc_once, Hw.
  - by exists err.
Qed.

Lemma set_call_twice t c c' s : set_call t c' (set_call t c s) = set_call t c' s.
Proof. unfold set_call. cbn. by rewrite insert_insert_eq. Qed.

(** A call, on a hub that is down, returns without changing anything else. *)
Definition returns (t : nat) (s : System) : Prop := exists err, rtc step s (set_call t (CReturned err) s).

Lemma returns_call t c s : returns t (set_call t c s) -> step s (set_call t c s) -> returns t s.
Proof. intros [err Hr] Hs. exists err. eapply rtc_l; [exact Hs |]. by rewrite set_call_twice in Hr. Qed.

Lemma wait_returns t n s : sy_calls s !! t = Some (CWait n) -> (n <= sy_round s)%nat -> h_done (sy_hub s) = Some true -> returns t s.
Proof.
  intros Ht Hn Hd. apply (returns_call t (CRead n)).
  - eexists. apply rtc_once. eapply (sys_read _ _ _ _ t n). cbn. by rewrite lookup_insert_eq.
  - apply (sys_waited _ _ _ _ t n); [done |]. unfold shutdownDone. destruct (decide (n = sy_round s)); [right; auto | left; lia].
Qed.

Lemma activity_returns t n p s :
  sy_calls s !! t = Some (CForceActivity n p) -> (n <= sy_round s)%nat -> force_ok (sy_activity s) p ->
  w_running (wk_st (sy_activity s)) = false -> h_done (sy_hub s) = Some true -> returns t s.
Proof.
  intros Ht Hn Hp Hr Hd. destruct (forced_ends _ _ Hr Hp) as (err & Hst). remember (StRet err) as z eqn:Hz. clear Hp.
  assert (forall s', sy_calls s' !! t = Some (CForceActivity n p) -> sy_activity s' = sy_activity s -> sy_round s' = sy_round s ->
    h_done (sy_hub s') = Some true -> returns t s') as Hall; [| by apply Hall].
  clear Ht Hd. induction Hst as [z | p p1 z Hp _ IH]; intros s' Ht Ha Hn' Hd.
  - subst z. apply (returns_call t (match err with None => CWait n | Some _ => CReturned err end)); [| by apply sys_forced_activity].
    destruct err as [e|].
    + exists (Some e). rewrite set_call_twice. apply rtc_refl.
    + apply (wait_returns t n); cbn; [by rewrite lookup_insert_eq | lia | done].
  - apply (returns_call t (CForceActivity n p1)).
    + apply IH; cbn; auto. by rewrite lookup_insert_eq.
    + rewrite <- Ha in Hp. pose proof (sys_force_activity capWorkflow capActivity forceable s' t n p _ p1 Ht Hp) as Hs. by destruct s'.
Qed.

Lemma workflow_returns t n p s :
  sy_calls s !! t = Some (CForceWorkflow n p) -> (n <= sy_round s)%nat -> force_ok (sy_workflow s) p ->
  w_running (wk_st (sy_workflow s)) = false -> w_running (wk_st (sy_activity s)) = false -> h_done (sy_hub s) = Some true -> returns t s.
Proof.
  intros Ht Hn Hp Hr Hr' Hd. destruct (forced_ends _ _ Hr Hp) as (err & Hst). remember (StRet err) as z eqn:Hz. clear Hp.
  assert (forall s', sy_calls s' !! t = Some (CForceWorkflow n p) -> sy_workflow s' = sy_workflow s -> sy_activity s' = sy_activity s -> sy_round s' = sy_round s ->
    h_done (sy_hub s') = Some true -> returns t s') as Hall; [| by apply Hall].
  clear Ht Hd. induction Hst as [z | p p1 z Hp _ IH]; intros s' Ht Hw Ha Hn' Hd.
  - subst z. apply (returns_call t (match err with None => CForceActivity n StCall | Some _ => CReturned err end)); [| by apply sys_forced_workflow].
    destruct err as [e|].
    + exists (Some e). rewrite set_call_twice. apply rtc_refl.
    + apply (activity_returns t n StCall); cbn; [by rewrite lookup_insert_eq | lia | done | by rewrite Ha | done].
  - apply (returns_call t (CForceWorkflow n p1)).
    + apply IH; cbn; auto. by rewrite lookup_insert_eq.
    + rewrite <- Hw in Hp. pose proof (sys_force_workflow capWorkflow capActivity forceable s' t n p _ p1 Ht Hp) as Hs. by destruct s'.
Qed.

Lemma call_returns t c s :
  sys_inv s -> sy_up s = false -> h_done (sy_hub s) = Some true -> sy_calls s !! t = Some c -> returns t s.
Proof.
  intros Hi Hu Hd Ht. destruct (si_up s Hi Hu) as [Hw Ha]. pose proof (si_calls s Hi _ _ Ht) as Hc. destruct c as [n p | n p | n | n | err]; cbn in Hc.
  - destruct Hc. by eapply workflow_returns.
  - destruct Hc. by eapply activity_returns.
  - by eapply wait_returns.
  - eexists. apply rtc_once. by eapply sys_read.
  - exists err. destruct s. cbn in *. unfold set_call. cbn. rewrite insert_id by done. apply rtc_refl.
Qed.

(** ** The contract *)

Definition idle (k : Wk) : Prop :=
  w_running (wk_st k) = false /\ w_poll (wk_st k) = PollStopped /\ w_inflight (wk_st k) = [].

Lemma stopped_idle cap k : worker_inv cap (wk_st k) -> w_running (wk_st k) = false -> idle k.
Proof. intros Hi Hr. destruct (wi_idle _ _ Hi Hr). by split_and!. Qed.

Lemma in_flight_bounded cap k : worker_inv cap (wk_st k) -> (length (w_inflight (wk_st k)) <= cap)%nat.
Proof. intros Hi. pose proof (wi_slots _ _ Hi). pose proof (wi_cap _ _ Hi). lia. Qed.

(** C30. No work runs on a backend that is down.  In every interleaving of starts,
    shutdowns, forced shutdowns, worker goroutines and answers of the backend: from the
    call of the backend's Stop until it is started again neither worker polls or has a
    work item in flight; a hub that says it is stopped has its backend down, one that
    serves has it up; at no time are more work items in flight than the workers' limits;
    and a hub that is stopping has a goroutine that finishes the shutdown, so it does not
    stay in that state for good. *)
Theorem hub_protects_backend s :
  sys_reachable capWorkflow capActivity forceable s ->
  (sy_up s = false -> idle (sy_workflow s) /\ idle (sy_activity s)) /\
  (h_started (sy_hub s) = false -> sy_up s = false) /\
  (h_started (sy_hub s) = true -> h_stopping (sy_hub s) = false -> sy_up s = true) /\
  (length (w_inflight (wk_st (sy_workflow s))) <= capWorkflow)%nat /\
  (length (w_inflight (wk_st (sy_activity s))) <= capActivity)%nat /\
  (h_stopping (sy_hub s) = true <-> sy_finish s <> None).
Proof.
  intros Hi%sys_reachable_inv. pose proof (si_workflow s Hi) as H1. pose proof (si_activity s Hi) as H2. split_and!.
  - intros Hu. destruct (si_up s Hi Hu). eauto using stopped_idle.
  - intros Hs. by destruct (si_down s Hi Hs) as (_ & ? & _).
  - intros Hs Hp. by destruct (si_serving s Hi Hs Hp).
  - by apply in_flight_bounded.
  - by apply in_flight_bounded.
  - pose proof (si_stopping s Hi) as Hp. destruct (h_stopping (sy_hub s)); [| naive_solver]. destruct Hp as [_ Hp]. unfold finish_ok in Hp.
    split; [| done]. intros _ Hn. by rewrite Hn in Hp.
Qed.

End Invariant.

(** ** Concrete runs *)

(** A hub with two slots per worker that is asked to stop while a workflow is in flight,
    by a [Shutdown] and a [ForceShutdown]. *)
Definition serving : System :=
  mkSystem (mkHubSt true false None None false) 0 true
    (mkWk (mkWorkerSt true false PollAcquire 1 [0%nat] 0 1) 1) (mkWk (mkWorkerSt true false PollAcquire 0 [] 0 0) 1) None ∅.

Definition startedSystem : System :=
  mkSystem (mkHubSt true false None None false) 0 true
    (mkWk (mkWorkerSt true false PollAcquire 0 [] 0 0) 1) (mkWk (mkWorkerSt true false PollAcquire 0 [] 0 0) 1) None ∅.

Lemma serving_reachable : sys_reachable 2 2 true serving.
Proof.
  eapply (rtc_l _ _ startedSystem); [exact (sys_start 2 2 true initialSystem true (Some ErrTaskHubExists) None None _ _ _ eq_refl) |].
  eapply rtc_l; [apply sys_workflow; split; [done | apply ws_acquire; [done | cbn; lia]] |].
  eapply rtc_l; [apply sys_workflow; split; [done | by apply ws_dispatch] |]. apply rtc_refl.
Qed.

Definition stoppingSystem : System := ForceShutdown true 1 (Shutdown 0 serving).

Lemma stopping_reachable : sys_reachable 2 2 true stoppingSystem.
Proof.
  unfold sys_reachable. etrans; [apply serving_reachable |]. eapply rtc_l; [by apply (sys_Shutdown _ _ _ _ 0) |]. apply rtc_once.
  by apply (sys_ForceShutdown 2 2 true (Shutdown 0 serving) 1).
Qed.

Lemma hub_protects_backend_witness :
  (length (w_inflight (wk_st (sy_workflow stoppingSystem))) <= 2)%nat /\ sy_finish stoppingSystem <> None.
Proof.
  destruct (hub_protects_backend 2 2 true stoppingSystem stopping_reachable) as (_ & _ & _ & H1 & _ & H2).
  split; [exact H1 | apply H2; reflexivity].
Defined.


(** Between the end of a shutdown and the moment a waiting call reads its error, the hub
    can be started and stopped again: the call then returns without an error although the
    backend's Stop failed in the shutdown it waited for. *)
Lemma shutdown_error_lost e : exists s1 s2 s3,
  sys_reachable 2 2 true s1 /\ sy_finish s1 = Some FStop /\ sy_calls s1 !! 0%nat = Some (CWait 1) /\
  sys_step 2 2 true s1 s2 /\ h_shutdownErr (sy_hub s2) = Some e /\
  rtc (sys_step 2 2 true) s2 s3 /\ sy_calls s3 !! 0%nat = Some (CReturned None).
Proof.
  pose (stopped := mkWk (mkWorkerSt false true PollStopped 0 [] 0 0) 1).
  pose (calls c := {[0%nat := c]} : gmap nat Caller).
  pose (s1 := mkSystem (mkHubSt true true (Some false) None true) 1 false stopped stopped (Some FStop) (calls (CWait 1))).
  pose (s2 := mkSystem (mkHubSt false false (Some true) (Some e) false) 1 false stopped stopped None (calls (CWait 1))).
  assert (rtc (sys_step 2 2 true) startedSystem s1) as H1.
  { eapply rtc_l; [by apply (sys_Shutdown 2 2 true _ 0) |]. cbn.
    do 2 (eapply rtc_l; [eapply sys_drain_workflow; [reflexivity | first [by apply st_call | by apply st_cancel]] |]; cbn).
    do 2 (eapply rtc_l; [eapply sys_drain_activity; [reflexivity | first [by apply st_call | by apply st_cancel]] |]; cbn).
    eapply rtc_l; [apply sys_workflow; split; [done | by apply ws_acquire_stop] |]. cbn.
    eapply rtc_l; [apply sys_activity; split; [done | by apply ws_acquire_stop] |]. cbn.
    eapply rtc_l; [apply sys_workflow; split; [done | by apply ws_drained] |]. cbn.
    eapply rtc_l; [apply sys_activity; split; [done | by apply ws_drained] |]. cbn.
    eapply rtc_l; [eapply sys_drain_workflow; [reflexivity | apply st_drained; by right] |]. cbn.
    eapply rtc_l; [eapply sys_drain_activity; [reflexivity | apply st_drained; by right] |]. cbn.
    eapply rtc_l; [by apply sys_stop |]. apply rtc_refl. }
  assert (sys_step 2 2 true s1 s2) as H2 by exact (sys_stopped 2 2 true s1 (Some e) eq_refl).
  assert (sys_reachable 2 2 true s1) as H0.
  { unfold sys_reachable. eapply (rtc_l _ _ startedSystem); [| exact H1].
    exact (sys_start 2 2 true initialSystem true (Some ErrTaskHubExists) None None _ _ _ eq_refl). }
  eexists s1, s2, _. split_and!; [exact H0 | reflexivity | reflexivity | exact H2 | reflexivity | |].
  - eapply rtc_l; [eapply (sys_waited 2 2 true s2 0 1); [reflexivity | by right] |].
    eapply rtc_l; [eapply (sys_start 2 2 true _ true None None None); reflexivity |].
    eapply rtc_l; [by apply (sys_Shutdown 2 2 true _ 1) |].
    apply rtc_once. by apply (sys_read 2 2 true _ 0 1).
  - reflexivity.
Qed.
