(* ===== verification/StreamSend.v ===== *)
(** * Sending work items over a stream (backend/executor.go)

    One call of [GetWorkItems]: the handler that takes work items and hands each to a
    sender goroutine over an unbuffered channel, waits for the result of the send on a
    buffered one, and may stop waiting; the callbacks at connection and disconnection,
    and what the deferred functions clean up.  [Transport] has the attempts these items
    belong to. *)

From stdpp Require Import base list option strings relations.
From Stdlib Require Import ZArith Lia.
From S2P Require Import Prelude Errors Transport.

(** [grpcExecutorOptions] that concern a stream: the callbacks, by their answer, whether
    there is a channel that ends streams, and whether a send can time out. *)
Record StreamOptions := mkStreamOptions {
  so_onWorkItemConnection : option (option error);
  so_onWorkItemDisconnect : option (option error);
  so_streamShutdownChan : bool;
  so_streamSendTimeout : option Z
}.

Definition noStreamOptions : StreamOptions := mkStreamOptions None None false None.
Definition WithOnGetWorkItemsConnectionCallback (cb : option error) (o : StreamOptions) : StreamOptions :=
  mkStreamOptions (Some cb) (so_onWorkItemDisconnect o) (so_streamShutdownChan o) (so_streamSendTimeout o).
Definition WithOnGetWorkItemsDisconnectCallback (cb : option error) (o : StreamOptions) : StreamOptions :=
  mkStreamOptions (so_onWorkItemConnection o) (Some cb) (so_streamShutdownChan o) (so_streamSendTimeout o).
Definition WithStreamShutdownChannel (o : StreamOptions) : StreamOptions :=
  mkStreamOptions (so_onWorkItemConnection o) (so_onWorkItemDisconnect o) true (so_streamSendTimeout o).
Definition WithStreamSendTimeout (d : Z) (o : StreamOptions) : StreamOptions :=
  mkStreamOptions (so_onWorkItemConnection o) (so_onWorkItemDisconnect o) (so_streamShutdownChan o) (Some d).

Definition executeOnWorkItemConnection (o : StreamOptions) : option error := so_onWorkItemConnection o ≫= id.
Definition executeOnWorkItemDisconnect (o : StreamOptions) : option error := so_onWorkItemDisconnect o ≫= id.

Section Stream.
(** Work items, and the message of an error. *)
Context {W : Type}.
Variable errorText : error -> string.
Variable opts : StreamOptions.

(** Where the handler is: in the select of its loop; in the first and in the second
    select of [sendWorkItem]; in its deferred functions, with its result; at its end. *)
Inductive Handler :=
| HLoop
| HOffer (wi : W)
| HAwait (wi : W)
| HDeferred (r : option error)
| HReturned (r : option error).

(** Where the sender is: in its select; in [stream.Send]; at [errCh <- err]; at its end. *)
Inductive Sender :=
| SLoop
| SSending (wi : W)
| SPutting (r : option error)
| SExited.

(** Besides the two goroutines: [errCh] with its one place, the conditions the selects
    look at, whether the stream is in [g.streams], the calls of the callbacks, and three
    histories: items that were claimed for this stream, sent without an error, and
    acknowledged to the loop. *)
Record Stream := mkStream {
  st_handler : Handler;
  st_sender : Sender;
  st_errCh : list (option error);
  st_senderDone : bool;
  st_ctxDone : bool;
  st_shutdown : bool;
  st_registered : bool;
  st_connects : nat;
  st_disconnects : nat;
  st_claimed : list W;
  st_sent : list W;
  st_acked : list W
}.

Definition set_handler (h : Handler) (s : Stream) : Stream :=
  mkStream h (st_sender s) (st_errCh s) (st_senderDone s) (st_ctxDone s) (st_shutdown s) (st_registered s) (st_connects s)
    (st_disconnects s) (st_claimed s) (st_sent s) (st_acked s).
Definition set_sender (x : Sender) (s : Stream) : Stream :=
  mkStream (st_handler s) x (st_errCh s) (st_senderDone s) (st_ctxDone s) (st_shutdown s) (st_registered s) (st_connects s)
    (st_disconnects s) (st_claimed s) (st_sent s) (st_acked s).
Definition set_errCh (l : list (option error)) (s : Stream) : Stream :=
  mkStream (st_handler s) (st_sender s) l (st_senderDone s) (st_ctxDone s) (st_shutdown s) (st_registered s) (st_connects s)
    (st_disconnects s) (st_claimed s) (st_sent s) (st_acked s).
Definition set_signals (done shutdown : bool) (s : Stream) : Stream :=
  mkStream (st_handler s) (st_sender s) (st_errCh s) (st_senderDone s) done shutdown (st_registered s) (st_connects s)
    (st_disconnects s) (st_claimed s) (st_sent s) (st_acked s).
Definition set_items (claimed sent acked : list W) (s : Stream) : Stream :=
  mkStream (st_handler s) (st_sender s) (st_errCh s) (st_senderDone s) (st_ctxDone s) (st_shutdown s) (st_registered s)
    (st_connects s) (st_disconnects s) claimed sent acked.

(** [GetWorkItems] up to its loop.  A refused connection is told to the disconnect
    callback as well; no sender is started then. *)
Definition GetWorkItems : Stream :=
  let connected := if so_onWorkItemConnection opts then 1%nat else 0%nat in
  match executeOnWorkItemConnection opts with
  | Some err =>
      mkStream (HReturned (Some (statusError "Unavailable" ("unable to establish work item stream at this time: " +:+ errorText err))))
        SExited [] false false false false connected (if so_onWorkItemDisconnect opts then 1 else 0) [] [] []
  | None => mkStream HLoop SLoop [] false false false true connected 0 [] [] []
  end.

(** The deferred functions: [close(senderDone)] first, then the clean-up of the stream. *)
Definition runDeferred (r : option error) (s : Stream) : Stream :=
  mkStream (HReturned r) (st_sender s) (st_errCh s) true (st_ctxDone s) (st_shutdown s) false (st_connects s)
    (st_disconnects s + if so_onWorkItemDisconnect opts then 1 else 0) (st_claimed s) (st_sent s) (st_acked s).

Definition errTimedOut : error := errorWrap "timed out while sending work item" ContextCanceled.

Inductive stream_step : Stream -> Stream -> Prop :=
(* the context of the stream ends, the executor shuts down *)
| ss_ctx s : stream_step s (set_signals true (st_shutdown s) s)
| ss_shutdown s : stream_step s (set_signals (st_ctxDone s) true s)
(* the loop: an item is claimed (an item that is not is skipped), or it ends *)
| ss_item s wi :
    st_handler s = HLoop -> stream_step s (set_items (st_claimed s ++ [wi]) (st_sent s) (st_acked s) (set_handler (HOffer wi) s))
| ss_loopShutdown s : st_handler s = HLoop -> st_shutdown s = true -> stream_step s (set_handler (HDeferred (Some errShuttingDown)) s)
| ss_loopCtx s : st_handler s = HLoop -> st_ctxDone s = true -> stream_step s (set_handler (HDeferred None) s)
| ss_loopChannel s :
    st_handler s = HLoop -> so_streamShutdownChan opts = true -> stream_step s (set_handler (HDeferred (Some errShuttingDown)) s)
(* sendWorkItem *)
| ss_offer s wi :
    st_handler s = HOffer wi -> st_sender s = SLoop -> stream_step s (set_sender (SSending wi) (set_handler (HAwait wi) s))
| ss_offerShutdown s wi :
    st_handler s = HOffer wi -> st_shutdown s = true -> stream_step s (set_handler (HDeferred (Some errShuttingDown)) s)
| ss_offerCtx s wi :
    st_handler s = HOffer wi -> st_ctxDone s = true -> stream_step s (set_handler (HDeferred (Some ContextCanceled)) s)
| ss_result s wi r rest :
    st_handler s = HAwait wi -> st_errCh s = r :: rest ->
    stream_step s (match r with
                   | None => set_items (st_claimed s) (st_sent s) (st_acked s ++ [wi]) (set_errCh rest (set_handler HLoop s))
                   | Some err => set_errCh rest (set_handler (HDeferred (Some err)) s)
                   end)
| ss_awaitShutdown s wi :
    st_handler s = HAwait wi -> st_shutdown s = true -> stream_step s (set_handler (HDeferred (Some errShuttingDown)) s)
| ss_awaitTimeout s wi :
    st_handler s = HAwait wi -> st_ctxDone s = true \/ so_streamSendTimeout opts <> None ->
    stream_step s (set_handler (HDeferred (Some errTimedOut)) s)
| ss_deferred s r : st_handler s = HDeferred r -> stream_step s (runDeferred r s)
(* the sender *)
| ss_send s wi r :
    st_sender s = SSending wi ->
    stream_step s (set_items (st_claimed s) (match r with None => st_sent s ++ [wi] | Some _ => st_sent s end) (st_acked s)
                     (set_sender (SPutting r) s))
| ss_put s r :
    st_sender s = SPutting r -> (length (st_errCh s) < 1)%nat -> stream_step s (set_sender SLoop (set_errCh (st_errCh s ++ [r]) s))
| ss_exit s : st_sender s = SLoop -> st_senderDone s = true \/ st_ctxDone s = true -> stream_step s (set_sender SExited s).

Definition stream_reachable (s : Stream) : Prop := rtc stream_step GetWorkItems s.

(** ** What holds in every state *)

(** The sender has nothing to do for the handler. *)
Definition quiet (s : Stream) : Prop := (st_sender s = SLoop \/ st_sender s = SExited) /\ st_errCh s = [].

(** The item that was handed over: still being sent, its result about to be put, or its
    result in the channel. *)
Definition handedOver (wi : W) (s : Stream) : Prop :=
  (st_sender s = SSending wi /\ st_errCh s = [] /\ st_sent s = st_acked s) \/
  exists r, (st_sender s = SPutting r /\ st_errCh s = [] \/ (st_sender s = SLoop \/ st_sender s = SExited) /\ st_errCh s = [r]) /\
    st_sent s = st_acked s ++ (match r with None => [wi] | Some _ => [] end).

(** A handler that has ended left at most one result behind. *)
Definition leftBehind (s : Stream) : Prop :=
  match st_sender s with
  | SSending wi => st_errCh s = [] /\ st_sent s = st_acked s /\ exists rest, st_claimed s = st_acked s ++ wi :: rest
  | SPutting _ => st_errCh s = []
  | _ => (length (st_errCh s) <= 1)%nat
  end /\ exists rest, st_claimed s = st_sent s ++ rest /\ (length (st_sent s) <= S (length (st_acked s)))%nat /\ st_acked s `prefix_of` st_sent s.

(** The callbacks so far, and that a stream that has ended is forgotten. *)
Record hooks (connects disconnects : nat) (registered ended : bool) : Prop := {
  hk_connects : connects = (if so_onWorkItemConnection opts then 1 else 0)%nat;
  hk_disconnects : disconnects = (if ended then if so_onWorkItemDisconnect opts then 1 else 0 else 0)%nat;
  hk_registered : ended = true -> registered = false
}.
Abbreviation hooked s := (hooks (st_connects s) (st_disconnects s) (st_registered s)).

Definition stream_inv (s : Stream) : Prop :=
  match st_handler s with
  | HLoop => quiet s /\ st_sent s = st_acked s /\ st_claimed s = st_acked s /\ hooked s false
  | HOffer wi => quiet s /\ st_sent s = st_acked s /\ st_claimed s = st_acked s ++ [wi] /\ hooked s false
  | HAwait wi => handedOver wi s /\ st_claimed s = st_acked s ++ [wi] /\ hooked s false
  | HDeferred _ => leftBehind s /\ hooked s false
  | HReturned _ => leftBehind s /\ hooked s true /\ (st_sender s = SExited \/ st_senderDone s = true)
  end.

Lemma quiet_left s rest : quiet s -> st_sent s = st_acked s -> st_claimed s = st_acked s ++ rest -> leftBehind s.
Proof.
  intros [Hq He] Hs Hc. unfold leftBehind. rewrite He, Hs, Hc. split; [destruct Hq as [-> | ->]; cbn; lia |]. exists rest. split_and!; [done | lia | done].
Qed.

Lemma handed_left s wi : handedOver wi s -> st_claimed s = st_acked s ++ [wi] -> leftBehind s.
Proof.
  unfold leftBehind. intros [(-> & He & Hs) | (r & Hr & Hs)] Hc; rewrite Hs, Hc.
  - split; [split_and!; [done | done | by exists []] |]. exists [wi]. split_and!; [done | lia | done].
  - split.
    + destruct Hr as [[-> ->] | [[-> | ->] ->]]; cbn; [done | lia | lia].
    + destruct r as [err|]; [exists [wi] | exists []]; rewrite ?app_nil_r; (split_and!; [done | rewrite ?length_app; cbn; lia | ]).
      * done.
      * by exists [wi].
Qed.

(** The sender's steps keep what a handler that has ended left behind. *)
Lemma left_send s wi r :
  st_sender s = SSending wi -> leftBehind s ->
  leftBehind (set_items (st_claimed s) (match r with None => st_sent s ++ [wi] | Some _ => st_sent s end) (st_acked s) (set_sender (SPutting r) s)).
Proof.
  unfold leftBehind. intros ->. cbn. intros [(He & Hs & rest & Hc) _]. split; [done |]. rewrite Hs, Hc.
  destruct r as [err|]; [exists (wi :: rest) | exists rest]; rewrite <- ?app_assoc; (split_and!; [done | rewrite ?length_app; cbn; lia |]); [done | by exists [wi]].
Qed.

Lemma left_put s r : st_sender s = SPutting r -> leftBehind s -> leftBehind (set_sender SLoop (set_errCh (st_errCh s ++ [r]) s)).
Proof. unfold leftBehind. intros ->. cbn. intros [-> H]. split; [cbn; lia | done]. Qed.

Lemma left_exit s : st_sender s = SLoop -> leftBehind s -> leftBehind (set_sender SExited s).
Proof. unfold leftBehind. intros ->. cbn. done. Qed.

Lemma stream_inv_step s s' : stream_step s s' -> stream_inv s -> stream_inv s'.
Proof.
  intros Hst Hi. unfold stream_inv in *.
  destruct Hst as [s | s | s wi Hh | s Hh Hx | s Hh Hx | s Hh Hx | s wi Hh Hx | s wi Hh Hx | s wi Hh Hx | s wi r rest Hh Hx | s wi Hh Hx | s wi Hh Hx | s r Hh | s wi r Hx | s r Hx Hl | s Hx Hd];
    try (rewrite Hh in Hi); cbn.
  - exact Hi.
  - exact Hi.
  - destruct Hi as (Hq & Hs & Hc & Hk). rewrite Hc. by split_and!.
  - destruct Hi as (Hq & Hs & Hc & Hk). split; [| done]. apply (quiet_left _ []); [done | done |]. cbn. by rewrite app_nil_r.
  - destruct Hi as (Hq & Hs & Hc & Hk). split; [| done]. apply (quiet_left _ []); [done | done |]. cbn. by rewrite app_nil_r.
  - destruct Hi as (Hq & Hs & Hc & Hk). split; [| done]. apply (quiet_left _ []); [done | done |]. cbn. by rewrite app_nil_r.
  - destruct Hi as ((_ & He) & Hs & Hc & Hk). split_and!; [left; by split_and! | done | done].
  - destruct Hi as (Hq & Hs & Hc & Hk). split; [by apply (quiet_left _ [wi]) | done].
  - destruct Hi as (Hq & Hs & Hc & Hk). split; [by apply (quiet_left _ [wi]) | done].
  - destruct Hi as (Ho & Hc & Hk). pose proof (handed_left s wi Ho Hc) as Hleft.
    destruct Ho as [(_ & He & _) | (r' & [(_ & He) | [Hsn He]] & Hs)]; rewrite Hx in He; try done. injection He as -> ->.
    destruct r' as [err|]; cbn.
    + split; [| done]. unfold leftBehind in *. cbn. destruct Hleft as [_ Hrest]. split; [| done]. destruct Hsn as [-> | ->]; cbn; lia.
    + done.
  - destruct Hi as (Ho & Hc & Hk). split; [by apply (handed_left _ wi) | done].
  - destruct Hi as (Ho & Hc & Hk). split; [by apply (handed_left _ wi) | done].
  - destruct Hi as (Hleft & [Hk1 Hk2 _]). split; [done |]. split; [| by right]. split; [done | by rewrite Hk2 | done].
  - destruct (st_handler s) as [| w | w | r' | r'] eqn:Hh; cbn.
    + destruct Hi as (([Hq | Hq] & _) & _); congruence.
    + destruct Hi as (([Hq | Hq] & _) & _); congruence.
    + destruct Hi as (Ho & Hc & Hk). destruct Ho as [(Hs1 & He & Hs) | (r1 & [(Hs1 & _) | [[Hs1 | Hs1] _]] & _)]; try congruence. assert (w = wi) as -> by congruence.
      split; [| done]. right. exists r. cbn. split; [by left |]. rewrite Hs. destruct r; by rewrite ?app_nil_r.
    + destruct Hi as (Hleft & Hk). split; [by apply left_send | done].
    + destruct Hi as (Hleft & Hk & Hd). split_and!; [by apply left_send | done | right; destruct Hd; [congruence | done]].
  - destruct (st_handler s) as [| w | w | r' | r'] eqn:Hh; cbn.
    + destruct Hi as (([Hq | Hq] & _) & _); congruence.
    + destruct Hi as (([Hq | Hq] & _) & _); congruence.
    + destruct Hi as (Ho & Hc & Hk). destruct Ho as [(Hs1 & He & Hs) | (r1 & [(Hs1 & He) | [[Hs1 | Hs1] _]] & Hs)]; try congruence. assert (r1 = r) as -> by congruence.
      split; [| done]. right. exists r. cbn. split; [right; split; [by left | by rewrite He] |]. done.
    + destruct Hi as (Hleft & Hk). split; [by apply left_put | done].
    + destruct Hi as (Hleft & Hk & Hd). split_and!; [by apply left_put | done | right; destruct Hd; [congruence | done]].
  - destruct (st_handler s) as [| w | w | r' | r'] eqn:Hh; cbn.
    + destruct Hi as ((_ & He) & Hi). split; [by split; [right |] | done].
    + destruct Hi as ((_ & He) & Hi). split; [by split; [right |] | done].
    + destruct Hi as (Ho & Hc & Hk). destruct Ho as [(Hs1 & He & Hs) | (r1 & [(Hs1 & He) | [_ He]] & Hs)]; try congruence.
      split; [| done]. right. exists r1. cbn. split; [right; split; [by right | done] |]. done.
    + destruct Hi as (Hleft & Hk). split; [by apply left_exit | done].
    + destruct Hi as (Hleft & Hk & Hd'). split_and!; [by apply left_exit | done | by left].
Qed.

Lemma stream_inv_start : stream_inv GetWorkItems.
Proof.
  unfold stream_inv, GetWorkItems. destruct (executeOnWorkItemConnection opts); cbn.
  - split; [| split; [done | by left]]. unfold leftBehind. cbn. split; [lia |]. exists []. split_and!; [done | lia | done].
  - unfold quiet. cbn. by split_and!; auto.
Qed.

Lemma stream_reachable_inv s : stream_reachable s -> stream_inv s.
Proof. revert s. apply rtc_ind_r; [apply stream_inv_start | by eauto using stream_inv_step]. Qed.

(** Once the handler has returned, the sender goroutine ends with the send it is in. *)
Lemma sender_exits s r : stream_inv s -> st_handler s = HReturned r ->
  exists s', rtc stream_step s s' /\ st_sender s' = SExited /\ st_handler s' = HReturned r.
Proof.
  unfold stream_inv. intros Hi Hh. rewrite Hh in Hi. destruct Hi as ((Hleft & _) & _ & [He | Hd]); [by exists s |].
  assert (forall s, st_handler s = HReturned r -> st_senderDone s = true -> st_sender s = SLoop ->
    exists s', rtc stream_step s s' /\ st_sender s' = SExited /\ st_handler s' = HReturned r) as Hexit.
  { intros s0 H1 H2 H3. eexists. split; [apply rtc_once; apply ss_exit; [done | by left] |]. done. }
  assert (forall s x, st_handler s = HReturned r -> st_senderDone s = true -> st_sender s = SPutting x -> st_errCh s = [] ->
    exists s', rtc stream_step s s' /\ st_sender s' = SExited /\ st_handler s' = HReturned r) as Hput.
  { intros s0 x H1 H2 H3 H4. destruct (Hexit (set_sender SLoop (set_errCh (st_errCh s0 ++ [x]) s0))) as (s' & Hr & ?); [done.. |].
    exists s'. split; [| done]. eapply rtc_l; [| exact Hr]. apply ss_put; [done | rewrite H4; cbn; lia]. }
  destruct (st_sender s) as [| wi | x |] eqn:Hs; [by apply Hexit | | by apply (Hput s x) | by exists s].
  destruct Hleft as (He & _). pose proof (ss_send s wi None Hs) as Hstep. edestruct Hput as (s' & Hr & ?); [| | | |]; cycle 4.
  - exists s'. split; [| done]. eapply rtc_l; [exact Hstep | exact Hr].
  - done.
  - done.
  - done.
  - done.
Qed.

(** C33. A stream delivers in order, one item at a time.  In every interleaving of the
    handler of a stream, its sender and the events around them: what was sent is a prefix
    of what was claimed, in that order and each item once, and the loop takes another item
    only after all before it were sent without an error; a handler that stops waiting
    (timeout, shutdown, disconnect) leaves at most one send behind, whose result always
    has a place in the channel, so the sender never blocks on it; and when the handler has
    returned the callbacks were called once, the stream is forgotten, and the sender can
    always end. *)
Theorem stream_delivers_in_order s :
  stream_reachable s ->
  st_acked s `prefix_of` st_sent s /\ st_sent s `prefix_of` st_claimed s /\ (length (st_sent s) <= S (length (st_acked s)))%nat /\
  (st_handler s = HLoop -> st_claimed s = st_acked s) /\
  (forall r, st_sender s = SPutting r -> st_errCh s = []) /\
  (forall r, st_handler s = HReturned r -> st_registered s = false /\
     st_connects s = (if so_onWorkItemConnection opts then 1 else 0)%nat /\ st_disconnects s = (if so_onWorkItemDisconnect opts then 1 else 0)%nat /\
     exists s', rtc stream_step s s' /\ st_sender s' = SExited /\ st_handler s' = HReturned r).
Proof.
  intros Hi%stream_reachable_inv.
  assert (leftBehind s /\ (st_handler s = HLoop -> st_claimed s = st_acked s)) as [Hleft Hloop].
  { unfold stream_inv in Hi. destruct (st_handler s) as [| wi | wi | r | r].
    - destruct Hi as (Hq & Hs & Hc & _). split; [| done]. apply (quiet_left s []); [done | done | by rewrite app_nil_r].
    - destruct Hi as (Hq & Hs & Hc & _). split; [by apply (quiet_left s [wi]) | done].
    - destruct Hi as (Ho & Hc & _). split; [by apply (handed_left s wi) | done].
    - by destruct Hi.
    - by destruct Hi. }
  pose proof Hleft as (Hsender & rest & Hc & Hlen & Hpre). split_and!; [done | by exists rest | done | done | |].
  - intros r Hr. by rewrite Hr in Hsender.
  - intros r Hr. pose proof (sender_exits s r Hi Hr) as Hex. unfold stream_inv in Hi. rewrite Hr in Hi. destruct Hi as (_ & [H1 H2 H3] & _). auto.
Qed.
End Stream.

(** A stream with a timeout whose second send takes too long. *)
Definition slowOptions : StreamOptions :=
  WithStreamSendTimeout 5 (WithOnGetWorkItemsDisconnectCallback None (WithOnGetWorkItemsConnectionCallback None noStreamOptions)).

Definition slowStream : Stream (W := nat) :=
  mkStream (HReturned (Some errTimedOut)) (SSending 2%nat) [] true false false false 1 1 [1; 2]%nat [1%nat] [1%nat].

Lemma slowStream_reachable : stream_reachable (fun _ => "busy") slowOptions slowStream.
Proof.
  eapply rtc_l; [by apply (ss_item _ _ 1%nat) |]. eapply rtc_l; [by eapply ss_offer |]. eapply rtc_l; [by apply (ss_send _ _ 1%nat None) |].
  eapply rtc_l; [apply (ss_put _ _ None); [done | cbn; lia] |]. eapply rtc_l; [by apply (ss_result _ _ 1%nat None []) |].
  eapply rtc_l; [by apply (ss_item _ _ 2%nat) |]. eapply rtc_l; [by eapply ss_offer |].
  eapply rtc_l; [by apply (ss_awaitTimeout _ _ 2%nat); [| right] |]. eapply rtc_l; [by apply ss_deferred |]. apply rtc_refl.
Qed.

Lemma stream_delivers_in_order_witness :
  [1%nat] `prefix_of` [1; 2]%nat /\
  exists s', rtc (stream_step slowOptions) slowStream s' /\ st_sender s' = SExited /\ st_handler s' = HReturned (Some errTimedOut).
Proof.
  destruct (stream_delivers_in_order (fun _ => "busy") slowOptions slowStream slowStream_reachable) as (_ & H1 & _ & _ & _ & H2).
  split; [exact H1 |]. destruct (H2 _ eq_refl) as (_ & _ & _ & H3). exact H3.
Defined.
