(* ===== verification/Tracing.v ===== *)
(** * Trace contexts and spans (api/helpers/tracing.go, backend/orchestration.go)

    How a span context is written into the messages of the system (the W3C traceparent
    form) and read back, with the older form the reader still takes; the names and
    attributes of spans; what the end of a turn puts on its span.  The identifiers and
    the trace state are those of the OpenTelemetry library: a class with what the code
    relies on. *)

From stdpp Require Import base list option strings sets.
From Stdlib Require Import ZArith Lia Ascii.
From S2P Require Import Prelude Errors Protos RuntimeState Helpers Orchestration.

(** ** Standard library: strings.Split and encoding/hex *)

Fixpoint split (sep : ascii) (s : string) : list string :=
  match s with
  | EmptyString => [EmptyString]
  | String c rest =>
      if Ascii.eqb c sep then EmptyString :: split sep rest
      else match split sep rest with
           | [] => [String c EmptyString]
           | part :: parts => String c part :: parts
           end
  end.

(** [fromHexChar] *)
Definition fromHexChar (c : ascii) : option Z :=
  let n := Z.of_nat (nat_of_ascii c) in
  if (48 <=? n) && (n <=? 57) then Some (n - 48)
  else if (97 <=? n) && (n <=? 102) then Some (n - 97 + 10)
  else if (65 <=? n) && (n <=? 70) then Some (n - 65 + 10)
  else None.

Definition errInvalidByte : error := errorNew "encoding/hex: invalid byte".
Definition errLength : error := errorNew "encoding/hex: odd length hex string".

Fixpoint DecodeString (s : string) : list Z + error :=
  match s with
  | EmptyString => inl []
  | String a EmptyString => match fromHexChar a with None => inr errInvalidByte | Some _ => inr errLength end
  | String a (String b rest) =>
      match fromHexChar a, fromHexChar b with
      | Some x, Some y => match DecodeString rest with inl l => inl (16 * x + y :: l) | inr err => inr err end
      | _, _ => inr errInvalidByte
      end
  end.

Fixpoint allHex (s : string) : bool :=
  match s with
  | EmptyString => true
  | String c rest => (if fromHexChar c then true else false) && allHex rest
  end.

Definition dash : ascii := "-"%char.

(** ** OpenTelemetry *)

Class Tracer (TID SID TST : Type) := {
  TraceIDFromHex : string -> TID + error;
  TraceIDString : TID -> string;
  TraceIDValid : TID -> bool;
  SpanIDFromHex : string -> SID + error;
  SpanIDString : SID -> string;
  SpanIDValid : SID -> bool;
  TraceFlagsString : Z -> string;
  IsSampled : Z -> bool;
  ParseTraceState : string -> TST + error;
  TraceStateString : TST -> string;
  noTraceState : TST
}.

(** Identifiers and flags are written in hexadecimal and read back; a trace state that is
    not empty is read back from its text. *)
Class TracerOk (TID SID TST : Type) `{Tracer TID SID TST} := {
  traceID_hex : forall t, allHex (TraceIDString t) = true;
  traceID_read : forall t, TraceIDValid t = true -> TraceIDFromHex (TraceIDString t) = inl t;
  spanID_hex : forall t, allHex (SpanIDString t) = true;
  spanID_read : forall t, SpanIDValid t = true -> SpanIDFromHex (SpanIDString t) = inl t;
  flags_read : forall f, 0 ≤ f < 256 -> DecodeString (TraceFlagsString f) = inl [f];
  flags_01 : IsSampled 1 = true;
  state_empty : forall t, TraceStateString t = "" <-> t = noTraceState;
  state_read : forall t, t <> noTraceState -> ParseTraceState (TraceStateString t) = inl t
}.

Section Contexts.
Context {TID SID TST : Type} `{HT : Tracer TID SID TST}.

Record SpanContext := mkSpanContext {
  sc_TraceID : TID;
  sc_SpanID : SID;
  sc_TraceFlags : Z;
  sc_TraceState : TST
}.

Definition IsValid (sc : SpanContext) : bool := TraceIDValid (sc_TraceID sc) && SpanIDValid (sc_SpanID sc).

Definition traceParent (t : TID) (s : SID) (flags : string) : string :=
  "00-" +:+ TraceIDString t +:+ "-" +:+ SpanIDString s +:+ "-" +:+ flags.

(** [TraceContextFromSpan]; [None] for a nil span. *)
Definition TraceContextFromSpan (span : option SpanContext) : option TraceContext :=
  match span with
  | None => None
  | Some sc =>
      if negb (IsSampled (sc_TraceFlags sc)) then None
      else if IsValid sc then
        let ts := TraceStateString (sc_TraceState sc) in
        Some (mkTraceContext (traceParent (sc_TraceID sc) (sc_SpanID sc) (TraceFlagsString (sc_TraceFlags sc))) ""
          (if String.eqb ts "" then None else Some ts))
      else None
  end.

Definition errTraceFlags : error := errorNew "invalid trace flags: want exactly two hexadecimal characters".
Definition errTraceFlagsByte : error := errorNew "invalid trace flags: want exactly one byte".

(** The three parts: from a traceparent, or from the fields of the older form. *)
Definition traceParts (tc : TraceContext) : string * string * string :=
  match split dash (TraceParent tc) with
  | [_; traceID; spanID; traceFlags] => (traceID, spanID, traceFlags)
  | _ => (TraceParent tc, SpanID tc, "01")
  end.

Definition decodeTraceFlags (traceFlags : string) : Z + error :=
  if negb (String.length traceFlags =? 2)%nat then inr errTraceFlags
  else match DecodeString traceFlags with
       | inr err => inr err
       | inl [f] => inl f
       | inl _ => inr errTraceFlagsByte
       end.

Definition SpanContextFromTraceContext (tc : TraceContext) : SpanContext + error :=
  let '(traceID, spanID, traceFlags) := traceParts tc in
  match TraceIDFromHex traceID with
  | inr err => inr err
  | inl decodedTraceID =>
      match SpanIDFromHex spanID with
      | inr err => inr err
      | inl decodedSpanID =>
          match decodeTraceFlags traceFlags with
          | inr err => inr err
          | inl flags =>
              let traceState := GetValue (TraceState tc) in
              if String.eqb traceState "" then inl (mkSpanContext decodedTraceID decodedSpanID flags noTraceState)
              else match ParseTraceState traceState with
                   | inr err => inr err
                   | inl ts => inl (mkSpanContext decodedTraceID decodedSpanID flags ts)
                   end
          end
      end
  end.

(** [ContextFromTraceContext]: the remote span context a Go context gets; the context is
    returned unchanged without a trace context, and with an error. *)
Definition ContextFromTraceContext (ctx : option SpanContext) (tc : option TraceContext) : option SpanContext * option error :=
  match tc with
  | None => (ctx, None)
  | Some tc => match SpanContextFromTraceContext tc with
               | inr err => (ctx, Some err)
               | inl sc => (Some sc, None)
               end
  end.

(** [NewRootTraceContext]; what [rand.Read] filled in, or [None] where it failed. *)
Definition NewRootTraceContext (traceID : option TID) (spanID : option SID) : option TraceContext :=
  match traceID, spanID with
  | Some t, Some s => Some (mkTraceContext (traceParent t s "01") "" None)
  | _, _ => None
  end.

(** ** Splitting *)

Lemma fromHexChar_dash : fromHexChar dash = None.
Proof. reflexivity. Qed.

Lemma split_hex s rest : allHex s = true -> split dash (s +:+ String dash rest) = s :: split dash rest.
Proof.
  induction s as [|c s IH]; [done |]. cbn [allHex]. intros [Hc Hs]%andb_prop. specialize (IH Hs).
  change (String c s +:+ String dash rest) with (String c (s +:+ String dash rest)). cbn [split]. rewrite IH.
  by destruct (Ascii.eqb_spec c dash) as [-> |].
Qed.

Lemma split_hex_end s : allHex s = true -> split dash s = [s].
Proof.
  induction s as [|c s IH]; [done |]. cbn [allHex split]. intros [Hc Hs]%andb_prop. rewrite (IH Hs).
  by destruct (Ascii.eqb_spec c dash) as [-> |].
Qed.

Lemma DecodeString_allHex s l : DecodeString s = inl l -> allHex s = true /\ String.length s = (2 * length l)%nat.
Proof.
  assert (forall n s l, (String.length s <= n)%nat -> DecodeString s = inl l -> allHex s = true /\ String.length s = (2 * length l)%nat) as H; [| by apply (H (String.length s))].
  clear s l. induction n as [|n IH]; intros [|a [|b s]] l Hn Hd; cbn in *; try lia; try (simplify_eq; done).
  - by destruct (fromHexChar a).
  - destruct (fromHexChar a); [| done]. destruct (fromHexChar b); [| done]. destruct (DecodeString s) as [l'|] eqn:E; [| done].
    simplify_eq. destruct (IH s l') as [-> Hl]; [lia | done |]. split; [done |]. cbn. lia.
Qed.

(** Two characters decode to one byte, or not at all. *)
Lemma decodeTraceFlags_one_byte s : decodeTraceFlags s <> inr errTraceFlagsByte.
Proof.
  unfold decodeTraceFlags. destruct (Nat.eqb_spec (String.length s) 2) as [Hl|]; cbn; [| done].
  destruct (DecodeString s) as [l|err] eqn:E.
  - apply DecodeString_allHex in E as [_ E]. destruct l as [|x [|y l]]; cbn in E; [lia | done | lia].
  - intros [= ->]. clear Hl. revert E. assert (forall n s, (String.length s <= n)%nat -> DecodeString s <> inr errTraceFlagsByte) as H; [| by apply (H (String.length s))].
    clear s. induction n as [|n IH]; intros [|a [|b s]] Hn; cbn in *; try lia; try done.
    + by destruct (fromHexChar a).
    + destruct (fromHexChar a); [| done]. destruct (fromHexChar b); [| done]. specialize (IH s ltac:(lia)).
      destruct (DecodeString s); [done |]. congruence.
Qed.

(** ** Writing and reading a context *)

Context `{HO : !TracerOk TID SID TST}.

Lemma traceParts_parent t s flags span state :
  allHex flags = true -> traceParts (mkTraceContext (traceParent t s flags) span state) = (TraceIDString t, SpanIDString s, flags).
Proof.
  intros Hf. unfold traceParts, traceParent. cbn [TraceParent].
  assert (split dash ("00-" +:+ TraceIDString t +:+ "-" +:+ SpanIDString s +:+ "-" +:+ flags) = ["00"; TraceIDString t; SpanIDString s; flags]) as ->; [| done].
  change ("00-" +:+ TraceIDString t +:+ "-" +:+ SpanIDString s +:+ "-" +:+ flags)
    with ("00" +:+ String dash (TraceIDString t +:+ String dash (SpanIDString s +:+ String dash flags))).
  rewrite !split_hex by (done || apply traceID_hex || apply spanID_hex). by rewrite split_hex_end.
Qed.

(** What is read from the parts of a valid context. *)
Lemma read_parts tc t s flags f :
  traceParts tc = (TraceIDString t, SpanIDString s, flags) -> TraceIDValid t = true -> SpanIDValid s = true -> decodeTraceFlags flags = inl f ->
  SpanContextFromTraceContext tc =
    if String.eqb (GetValue (TraceState tc)) "" then inl (mkSpanContext t s f noTraceState)
    else match ParseTraceState (GetValue (TraceState tc)) with inr err => inr err | inl ts => inl (mkSpanContext t s f ts) end.
Proof. intros Hp Ht Hs Hf. unfold SpanContextFromTraceContext. by rewrite Hp, traceID_read, spanID_read, Hf. Qed.

(** C34. A trace context survives its way through messages and tables: the context written
    for a valid sampled span is read back as that span's context, with its flags and trace
    state; a span that is not sampled writes none.  A new root context is read back as a
    sampled context with its identifiers, and so is a context in the older form, with the
    identifiers in separate fields. *)
Theorem trace_context_roundtrip (sc : SpanContext) :
  0 ≤ sc_TraceFlags sc < 256 -> IsValid sc = true ->
  let root := mkSpanContext (sc_TraceID sc) (sc_SpanID sc) 1 noTraceState in
  (if IsSampled (sc_TraceFlags sc)
   then exists tc, TraceContextFromSpan (Some sc) = Some tc /\ SpanContextFromTraceContext tc = inl sc
   else TraceContextFromSpan (Some sc) = None) /\
  (exists tc, NewRootTraceContext (Some (sc_TraceID sc)) (Some (sc_SpanID sc)) = Some tc /\ SpanContextFromTraceContext tc = inl root /\ IsSampled (sc_TraceFlags root) = true) /\
  SpanContextFromTraceContext (mkTraceContext (TraceIDString (sc_TraceID sc)) (SpanIDString (sc_SpanID sc)) None) = inl root.
Proof.
  destruct sc as [t s f ts]. cbn [sc_TraceID sc_SpanID sc_TraceFlags sc_TraceState]. intros Hf Hv. cbn zeta. unfold IsValid in Hv.
  cbn [sc_TraceID sc_SpanID] in Hv. apply andb_prop in Hv as [Ht Hs]. pose proof (flags_read f Hf) as Hd. pose proof (DecodeString_allHex _ _ Hd) as [Hh Hl].
  split_and!.
  - unfold TraceContextFromSpan, IsValid. cbn [sc_TraceID sc_SpanID sc_TraceFlags sc_TraceState]. rewrite Ht, Hs. destruct (IsSampled f); cbn [negb andb]; [| done].
    eexists. split; [done |]. rewrite (read_parts _ t s (TraceFlagsString f) f); [| by apply traceParts_parent | done | done |].
    + cbn [TraceState]. destruct (String.eqb_spec (TraceStateString ts) "") as [He | He].
      * cbn. apply state_empty in He. by subst.
      * change (GetValue (Some (TraceStateString ts))) with (TraceStateString ts). rewrite (proj2 (String.eqb_neq _ _) He). rewrite state_read; [done |]. by rewrite <- state_empty.
    + unfold decodeTraceFlags. by rewrite Hl, Hd.
  - eexists. split; [done |]. split; [| apply flags_01]. by rewrite (read_parts _ t s "01" 1); [| apply traceParts_parent | | |].
  - rewrite (read_parts _ t s "01" 1); [done | | done | done | done]. unfold traceParts. cbn [TraceParent SpanID]. by rewrite split_hex_end by apply traceID_hex.
Qed.
End Contexts.

(** ** Spans *)

Inductive AttributeValue := StringValue (s : string) | IntValue (n : Z).
Inductive SpanKind := SpanKindClient | SpanKindServer | SpanKindInternal.

(** What [tracer.Start] is called with. *)
Record SpanStart := mkSpanStart {
  sp_name : string;
  sp_kind : SpanKind;
  sp_timestamp : Z;
  sp_attributes : list (string * AttributeValue)
}.

Definition startNewSpan (taskType taskName taskVersion : string) (attributes : list (string * AttributeValue)) (kind : SpanKind)
    (timestamp : Z) : SpanStart :=
  if negb (String.eqb taskVersion "")
  then mkSpanStart (taskType +:+ "||" +:+ taskName +:+ "||" +:+ taskVersion) kind timestamp
         (attributes ++ [("durabletask.task.version", StringValue taskVersion)])
  else if negb (String.eqb taskName "") then mkSpanStart (taskType +:+ "||" +:+ taskName) kind timestamp attributes
  else mkSpanStart taskType kind timestamp attributes.

Definition StartNewCreateWorkflowSpan (now : Z) (name version instanceID : string) : SpanStart :=
  startNewSpan "create_orchestration" name version
    [("durabletask.type", StringValue "orchestration"); ("durabletask.task.name", StringValue name);
     ("durabletask.task.instance_id", StringValue instanceID)] SpanKindClient now.

(** [None]: the start event has no instance, a nil dereference. *)
Definition StartNewRunWorkflowSpan (es : ExecutionStartedEvent) (startedTime : Z) : option SpanStart :=
  wi ← es_WorkflowInstance es;
  Some (startNewSpan "orchestration" (es_Name es) (GetValue (es_Version es))
    [("durabletask.type", StringValue "orchestration"); ("durabletask.task.name", StringValue (es_Name es));
     ("durabletask.task.instance_id", StringValue (wi_InstanceId wi))] SpanKindServer startedTime).

Definition StartNewActivitySpan (now : Z) (name version instanceID : string) (taskID : Z) : SpanStart :=
  startNewSpan "activity" name version
    [("durabletask.type", StringValue "activity"); ("durabletask.task.name", StringValue name);
     ("durabletask.task.task_id", IntValue taskID); ("durabletask.task.instance_id", StringValue instanceID)] SpanKindServer now.

(** What is done to a span. *)
Inductive SpanOp :=
| SetStatusError (description : string)
| SetAttribute (key : string) (value : AttributeValue)
| AddSpanEvent (name : string) (timestamp : Z) (attributes : list (string * AttributeValue))
| EndSpan.

Definition StalledReasonString (r : StalledReason) : string :=
  match r with
  | PATCH_MISMATCH => "PATCH_MISMATCH"
  | VERSION_NOT_AVAILABLE => "VERSION_NOT_AVAILABLE"
  | PAYLOAD_SIZE_EXCEEDED => "PAYLOAD_SIZE_EXCEEDED"
  end.

(** The event of the span for one event of the history. *)
Definition notableEvent (e : HistoryEvent) : option SpanOp :=
  match EventType e with
  | Some (HistoryEvent_EventRaised x) =>
      Some (AddSpanEvent "Received external event" (AsTime (Timestamp e))
        [("name", StringValue (er_Name x)); ("size", IntValue (Z.of_nat (String.length (GetValue (er_Input x)))))])
  | Some (HistoryEvent_ExecutionSuspended x) =>
      Some (AddSpanEvent "Execution suspended" (AsTime (Timestamp e)) [("reason", StringValue (GetValue x))])
  | Some (HistoryEvent_ExecutionResumed x) =>
      Some (AddSpanEvent "Execution resumed" (AsTime (Timestamp e)) [("reason", StringValue (GetValue x))])
  | Some (HistoryEvent_ExecutionStalled x) =>
      Some (AddSpanEvent "Execution stalled" (AsTime (Timestamp e))
        [("reason", StringValue (StalledReasonString (st_Reason x))); ("description", StringValue (GetValue (st_Description x)))])
  | _ => None
  end.

Fixpoint addNotableEventsToSpan (events : list HistoryEvent) : list SpanOp :=
  match events with
  | [] => []
  | e :: rest => option_list (notableEvent e) ++ addNotableEventsToSpan rest
  end.

Definition endWorkflowSpan (s : WorkflowRuntimeState) (continuedAsNew : bool) : list SpanOp :=
  (if IsCompleted s then
     (match FailureDetails s with inl fd => [SetStatusError (ErrorMessage fd)] | inr _ => [] end) ++
     [SetAttribute "durabletask.runtime_status" (StringValue (ToRuntimeStatusString (RuntimeStatus s)))] ++
     addNotableEventsToSpan (OldEvents s) ++ addNotableEventsToSpan (NewEvents s)
   else if continuedAsNew then
     [SetAttribute "durabletask.runtime_status" (StringValue (ToRuntimeStatusString CONTINUED_AS_NEW))]
   else []) ++ [EndSpan].

(** ** The contract *)

(** The end of a turn always ends its span, last and once, and says how the turn ended
    only when the workflow completed or continued as new. *)
Lemma span_is_ended s continuedAsNew :
  exists ops, endWorkflowSpan s continuedAsNew = ops ++ [EndSpan] /\ EndSpan ∉ ops /\
    (IsCompleted s = false -> continuedAsNew = false -> ops = []).
Proof.
  assert (forall events, EndSpan ∉ addNotableEventsToSpan events) as Hn.
  { induction events as [|e rest IH]; cbn; [set_solver |]. rewrite elem_of_app. intros [H | H]; [| done].
    unfold notableEvent in H. repeat case_match; cbn in H; set_solver. }
  unfold endWorkflowSpan. eexists. split; [reflexivity |]. pose proof (Hn (OldEvents s)). pose proof (Hn (NewEvents s)). split.
  - destruct (IsCompleted s); [| destruct continuedAsNew; set_solver].
    rewrite !elem_of_app. intros [H1 | [H1 | [H1 | H1]]]; try done; [| set_solver]. destruct (FailureDetails s); set_solver.
  - intros -> ->. done.
Qed.

(** A tracer with identifiers of one byte. *)
#[local] Instance byteTracer : Tracer Z Z bool := {|
  TraceIDFromHex s := match DecodeString s with inl [b] => inl b | inl _ => inr errLength | inr err => inr err end;
  TraceIDString b := hexBytes [b mod 256];
  TraceIDValid b := (0 <? b) && (b <? 256);
  SpanIDFromHex s := match DecodeString s with inl [b] => inl b | inl _ => inr errLength | inr err => inr err end;
  SpanIDString b := hexBytes [b mod 256];
  SpanIDValid b := (0 <? b) && (b <? 256);
  TraceFlagsString b := hexBytes [b];
  IsSampled f := Z.testbit f 0;
  ParseTraceState s := if String.eqb s "k=v" then inl true else inr errInvalidByte;
  TraceStateString b := if b then "k=v" else "";
  noTraceState := false
|}.

(** Every byte is written and read back. *)
Lemma byte_read b : 0 ≤ b < 256 -> DecodeString (hexBytes [b]) = inl [b].
Proof.
  intros Hb. assert (Forall (fun b => DecodeString (hexBytes [b]) = inl [b]) (map Z.of_nat (seq 0 256))) as H.
  { apply Forall_forall. intros x Hx.
    assert (forallb (fun b => bool_decide (DecodeString (hexBytes [b]) = inl [b])) (map Z.of_nat (seq 0 256)) = true) as Hall by (vm_compute; reflexivity).
    rewrite forallb_forall in Hall. specialize (Hall x). rewrite bool_decide_eq_true in Hall. apply Hall. by apply list_elem_of_In. }
  rewrite Forall_forall in H. apply H. apply list_elem_of_fmap. exists (Z.to_nat b). rewrite elem_of_seq. lia.
Qed.

#[local] Instance byteTracerOk : TracerOk Z Z bool.
Proof.
  assert (forall t, allHex (hexBytes [t mod 256]) = true) as Hh.
  { intros t. eapply DecodeString_allHex, byte_read. by apply Z.mod_pos_bound. }
  assert (forall t, (0 <? t) && (t <? 256) = true -> 0 ≤ t < 256 /\ t mod 256 = t) as Hm.
  { intros t [H1 H2]%andb_prop. split; [lia |]. apply Z.mod_small. lia. }
  split; cbn [TraceIDString TraceIDValid TraceIDFromHex SpanIDString SpanIDValid SpanIDFromHex TraceFlagsString byteTracer]; auto.
  - intros t [Hb ->]%Hm. by rewrite byte_read.
  - intros t [Hb ->]%Hm. by rewrite byte_read.
  - intros f. apply byte_read.
  - by intros [].
  - by intros [].
Qed.

Lemma trace_context_roundtrip_witness :
  exists tc, TraceContextFromSpan (Some (mkSpanContext 171 5 1 true)) = Some tc /\
    TraceParent tc = "00-ab-05-01" /\ SpanContextFromTraceContext tc = inl (mkSpanContext 171 5 1 true).
Proof.
  assert (0 ≤ sc_TraceFlags (mkSpanContext 171 5 1 true) < 256) as Hf by (cbn; lia).
  assert (IsValid (HT := byteTracer) (mkSpanContext 171 5 1 true) = true) as Hv by reflexivity.
  destruct (trace_context_roundtrip (HO := byteTracerOk) (mkSpanContext 171 5 1 true) Hf Hv) as ((tc & H1 & H2) & _).
  exists tc. split; [exact H1 |]. split; [| exact H2]. vm_compute in H1. by injection H1 as <-.
Defined.
