(* ===== verification/Sidecar.v ===== *)
(** * The sidecar command: configuration and authorization (main.go)

    The settings read from the environment, the server options made of them, and the
    interceptors that let a call through.  Files, certificates and the addresses
    [net.ParseIP] recognises are arguments; what TLS makes of a connection is the
    [Peer] of a call. *)

From stdpp Require Import base list option strings gmap sets.
From Stdlib Require Import ZArith Lia Ascii.
From S2P Require Import Prelude Errors Protos Helpers Transport Tracing.

(** ** Standard library: strings, strconv *)

Definition spaceCodes : list (list Z) :=
  [[9]; [10]; [11]; [12]; [13]; [32]; [194; 133]; [194; 160]; [225; 154; 128]] ++
  map (fun b => [226; 128; b]) ([128; 129; 130; 131; 132; 133; 134; 135; 136; 137; 138] ++ [168; 169; 175]) ++
  [[226; 129; 159]; [227; 128; 128]].

Fixpoint dropPrefix (p l : list Z) : option (list Z) :=
  match p, l with
  | [], _ => Some l
  | a :: p, b :: l => if a =? b then dropPrefix p l else None
  | _ :: _, [] => None
  end.

(** Drop any of [codes] from the front, as long as there is one. *)
Fixpoint trimFront (codes : list (list Z)) (fuel : nat) (l : list Z) : list Z :=
  match fuel with
  | O => l
  | S fuel => match head (omap (fun p => dropPrefix p l) codes) with
              | Some rest => trimFront codes fuel rest
              | None => l
              end
  end.

(** [strings.TrimSpace] on UTF-8. *)
Definition TrimSpace (s : string) : string :=
  let l := bytesOf s in
  let l := trimFront spaceCodes (length l) l in
  stringOf (reverse (trimFront (map reverse spaceCodes) (length l) (reverse l))).

(** [strconv.Atoi] *)
Definition digitOf (b : Z) : option Z := if (48 <=? b) && (b <=? 57) then Some (b - 48) else None.

Fixpoint digitsOf (l : list Z) (acc : Z) : option Z :=
  match l with
  | [] => Some acc
  | b :: rest => match digitOf b with Some d => digitsOf rest (10 * acc + d) | None => None end
  end.

Definition Atoi (s : string) : option Z :=
  let number l := match l with [] => None | _ => digitsOf l 0 end in
  let r := match bytesOf s with
           | 45 :: rest => Z.opp <$> number rest
           | 43 :: rest => number rest
           | l => number l
           end in
  match r with
  | Some n => if (- 2 ^ 63 <=? n) && (n <=? int64_max) then Some n else None
  | None => None
  end.

(** [strings.EqualFold] with a lower case ASCII word: the letters in both cases, and for
    an s or a k also its third form, U+017F or U+212A. *)
Fixpoint foldsTo (l word : list Z) : bool :=
  match word, l with
  | [], [] => true
  | w :: word, b :: l =>
      if (b =? w) || ((97 <=? w) && (w <=? 122) && (b =? w - 32)) then foldsTo l word
      else if (w =? 115) && (b =? 197) then match l with 191 :: l => foldsTo l word | _ => false end
      else (w =? 107) && (b =? 226) && match l with 132 :: 170 :: l => foldsTo l word | _ => false end
  | _, _ => false
  end.

(** ** Configuration *)

Record grpcServerConfig := mkGrpcServerConfig {
  gc_host : string;
  gc_port : Z;
  gc_tlsCertFile : string;
  gc_tlsKeyFile : string;
  gc_clientCAFile : string;
  gc_allowedClientURIs : list string
}.

Section Sidecar.
(** [os.Getenv] *)
Variable Getenv : string -> string.
(** [net.ParseIP]: four or sixteen bytes. *)
Variable ParseIP : string -> option (list Z).
(** [tls.LoadX509KeyPair], [os.ReadFile] and [AppendCertsFromPEM] on the files there are. *)
Variable LoadX509KeyPair : string -> string -> option error.
Variable ReadFile : string -> string + error.
Variable certsInPEM : string -> bool.

Definition envOrDefault (name fallback : string) : string :=
  let value := Getenv name in if negb (String.eqb value "") then value else fallback.

Definition errPort : error := errorNew "DURABLETASK_GRPC_PORT must be between 1 and 65535".

Definition allowedURIsOf (value : string) : list string :=
  omap (fun uri => let uri := TrimSpace uri in if negb (String.eqb uri "") then Some uri else None) (split ","%char value).

Definition grpcServerConfigFromEnvironment (defaultHost : string) (defaultPort : Z) : grpcServerConfig + error :=
  let config port := mkGrpcServerConfig (envOrDefault "DURABLETASK_GRPC_HOST" defaultHost) port
    (Getenv "DURABLETASK_GRPC_TLS_CERT_FILE") (Getenv "DURABLETASK_GRPC_TLS_KEY_FILE") (Getenv "DURABLETASK_GRPC_CLIENT_CA_FILE")
    (let value := Getenv "DURABLETASK_GRPC_ALLOWED_CLIENT_URIS" in
     if negb (String.eqb value "") then allowedURIsOf value else []) in
  let value := Getenv "DURABLETASK_GRPC_PORT" in
  if negb (String.eqb value "") then
    match Atoi value with
    | None => inr errPort
    | Some port => if (port <? 1) || (65535 <? port) then inr errPort else inl (config port)
    end
  else inl (config defaultPort).

(** [IP.IsLoopback], with the IPv4-mapped form. *)
Definition IsLoopback (ip : list Z) : bool :=
  match ip with
  | [a; _; _; _] => a =? 127
  | _ =>
      if (length ip =? 16)%nat then
        if bool_decide (take 12 ip = replicate 10 0 ++ [255; 255]) then match drop 12 ip with a :: _ => a =? 127 | [] => false end
        else bool_decide (ip = replicate 15 0 ++ [1])
      else false
  end.

Definition isLoopbackHost (host : string) : bool :=
  let host := TrimSpace host in
  if foldsTo (bytesOf host) (bytesOf "localhost") then true
  else match ParseIP host with Some ip => IsLoopback ip | None => false end.

(** ** Server options *)

(** [tls.Config]: whether a client certificate is required and verified, and against
    which file. *)
Record tlsConfig := mkTlsConfig {
  tls_certificate : string * string;
  tls_requireClientCert : bool;
  tls_clientCAs : option string
}.

(** The options a server is made with: credentials, and the URIs each of the two
    interceptors lets through. *)
Record serverOptions := mkServerOptions {
  op_creds : option tlsConfig;
  op_unary : option (gset string);
  op_stream : option (gset string)
}.

Definition errNotLoopback : error := errorNew "non-loopback listener requires mTLS".
Definition errKeyPair : error := errorNew "both certificate and key file are required when TLS is configured".
Definition errClientAuth : error := errorNew "client CA and allowed client URIs must be configured together".
Definition errNoCA : error := errorNew "parse client CA: no certificates found".

Definition isEmpty (s : string) : bool := String.eqb s "".
Definition noURIs (c : grpcServerConfig) : bool := (length (gc_allowedClientURIs c) =? 0)%nat.

Definition grpcServerOptions (c : grpcServerConfig) : serverOptions + error :=
  let isLoopback := isLoopbackHost (gc_host c) in
  let hasCertificate := negb (isEmpty (gc_tlsCertFile c)) || negb (isEmpty (gc_tlsKeyFile c)) in
  let hasClientAuth := negb (isEmpty (gc_clientCAFile c)) || negb (noURIs c) in
  if negb isLoopback && (negb hasCertificate || isEmpty (gc_clientCAFile c) || noURIs c) then inr errNotLoopback
  else if negb hasCertificate && negb hasClientAuth then inl (mkServerOptions None None None)
  else if isEmpty (gc_tlsCertFile c) || isEmpty (gc_tlsKeyFile c) then inr errKeyPair
  else if negb (Bool.eqb (isEmpty (gc_clientCAFile c)) (noURIs c)) then inr errClientAuth
  else
    match LoadX509KeyPair (gc_tlsCertFile c) (gc_tlsKeyFile c) with
    | Some err => inr (errorWrap "load server certificate" err)
    | None =>
        let certificate := (gc_tlsCertFile c, gc_tlsKeyFile c) in
        if isEmpty (gc_clientCAFile c) then inl (mkServerOptions (Some (mkTlsConfig certificate false None)) None None)
        else match ReadFile (gc_clientCAFile c) with
             | inr err => inr (errorWrap "read client CA" err)
             | inl caPEM =>
                 if negb (certsInPEM caPEM) then inr errNoCA
                 else
                   let allowedURIs := list_to_set (gc_allowedClientURIs c) in
                   inl (mkServerOptions (Some (mkTlsConfig certificate true (Some caPEM))) (Some allowedURIs) (Some allowedURIs))
             end
    end.

(** ** Authorization *)

(** What a call knows of its peer: nothing, no TLS information, or the URIs in each of
    the certificates the client showed. *)
Inductive Peer := NoPeer | NoTLS | TLSInfo (certificates : list (list string)).

Definition authorizeClient (peer : Peer) (allowedURIs : gset string) : option error :=
  match peer with
  | TLSInfo (uris :: _) =>
      if existsb (fun uri => bool_decide (uri ∈ allowedURIs)) uris then None
      else Some (statusError "PermissionDenied" "client TLS identity is not authorized")
  | _ => Some (statusError "Unauthenticated" "missing client TLS identity")
  end.

(** [requireAuthorizedClient], [requireAuthorizedClientStream] *)
Definition requireAuthorizedClient {A} (allowedURIs : gset string) (handler : Peer -> A + error) (peer : Peer) : A + error :=
  match authorizeClient peer allowedURIs with
  | Some err => inr err
  | None => handler peer
  end.

(** A call on a server: through the interceptor of its kind, if there is one. *)
Definition serve {A} (o : serverOptions) (streaming : bool) (handler : Peer -> A + error) (peer : Peer) : A + error :=
  match (if streaming then op_stream o else op_unary o) with
  | Some allowedURIs => requireAuthorizedClient allowedURIs handler peer
  | None => handler peer
  end.

(** ** The contract *)

(** The peer showed a certificate with one of the URIs. *)
Definition authorized (uris : list string) (peer : Peer) : Prop :=
  exists certificate rest uri, peer = TLSInfo (certificate :: rest) /\ uri ∈ certificate /\ uri ∈ uris.

Lemma authorizeClient_spec peer uris : authorizeClient peer (list_to_set uris) = None <-> authorized uris peer.
Proof.
  unfold authorizeClient, authorized. split.
  - destruct peer as [| | [|cert rest]]; try done. destruct (existsb _ _) eqn:E; [| done]. intros _.
    apply existsb_exists in E as (uri & Hin%list_elem_of_In & Hu%bool_decide_eq_true%elem_of_list_to_set). by exists cert, rest, uri.
  - intros (cert & rest & uri & -> & Hc & Hu).
    assert (existsb (fun uri => bool_decide (uri ∈ (list_to_set uris : gset string))) cert = true) as ->; [| done].
    apply existsb_exists. exists uri. split; [by apply list_elem_of_In |]. apply bool_decide_eq_true. by apply elem_of_list_to_set.
Qed.

(** Client authentication is on: certificates are required and checked, and both kinds of
    calls are filtered by the same URIs. *)
Definition protects (c : grpcServerConfig) (o : serverOptions) : Prop :=
  (exists ca, op_creds o = Some (mkTlsConfig (gc_tlsCertFile c, gc_tlsKeyFile c) true (Some ca)) /\ ReadFile (gc_clientCAFile c) = inl ca /\ certsInPEM ca = true) /\
  op_unary o = Some (list_to_set (gc_allowedClientURIs c)) /\ op_stream o = Some (list_to_set (gc_allowedClientURIs c)) /\
  gc_allowedClientURIs c <> [].

Lemma protects_serves {A} c o streaming (handler : Peer -> A + error) peer :
  protects c o -> (authorized (gc_allowedClientURIs c) peer /\ serve o streaming handler peer = handler peer) \/
  (~ authorized (gc_allowedClientURIs c) peer /\ exists err, serve o streaming handler peer = inr err).
Proof.
  intros (_ & Hu & Hs & _). unfold serve. assert ((if streaming then op_stream o else op_unary o) = Some (list_to_set (gc_allowedClientURIs c))) as -> by (by destruct streaming).
  unfold requireAuthorizedClient. pose proof (authorizeClient_spec peer (gc_allowedClientURIs c)) as H.
  destruct (authorizeClient peer (list_to_set (gc_allowedClientURIs c))); [right | left]; naive_solver.
Qed.

End Sidecar.

(** ** A concrete configuration *)

Definition sampleEnv (name : string) : string :=
  if String.eqb name "DURABLETASK_GRPC_HOST" then "0.0.0.0"
  else if String.eqb name "DURABLETASK_GRPC_PORT" then "4002"
  else if String.eqb name "DURABLETASK_GRPC_TLS_CERT_FILE" then "c.pem"
  else if String.eqb name "DURABLETASK_GRPC_TLS_KEY_FILE" then "k.pem"
  else if String.eqb name "DURABLETASK_GRPC_CLIENT_CA_FILE" then "ca.pem"
  else if String.eqb name "DURABLETASK_GRPC_ALLOWED_CLIENT_URIS" then " spiffe://app , ,spiffe://ops"
  else "".

Definition sampleIP (s : string) : option (list Z) :=
  if String.eqb s "0.0.0.0" then Some [0; 0; 0; 0] else if String.eqb s "127.0.0.1" then Some [127; 0; 0; 1] else None.

Definition sampleServerConfig : grpcServerConfig :=
  mkGrpcServerConfig "0.0.0.0" 4002 "c.pem" "k.pem" "ca.pem" ["spiffe://app"; "spiffe://ops"].

Definition sampleServerOptions : serverOptions :=
  mkServerOptions (Some (mkTlsConfig ("c.pem", "k.pem") true (Some "PEM"))) (Some {["spiffe://app"; "spiffe://ops"]}) (Some {["spiffe://app"; "spiffe://ops"]}).

Example loopback_hosts :
  map (isLoopbackHost sampleIP) [" LocalHost"; "127.0.0.1"; "0.0.0.0"; ""; "localhosts"] = [true; true; false; false; false].
Proof. reflexivity. Qed.

